(* ===== verification/_CoqProject ===== *)
-Q . S2P
Prelude.v
PyStr.v
Base64.v
Json.v
JsonFacts.v
Policy.v
Action.v
Store.v
StoreFacts.v
StoreSpec.v
Ip.v
Url.v
UrlFacts.v
Template.v
Ingress.v
Registry.v
Broker.v
Lifecycle.v
LifecycleFacts.v
Receipt.v
Mcp.v
Gateway.v
GatewayFacts.v
RouteFacts.v
SpsWire.v
Sps.v
SpsFacts.v
Vault.v
VaultSpec.v
SpsClient.v
SpsService.v
SpsConfig.v
SpsAudit.v
Slots.v
SlotWorkers.v
FwdConfig.v
FwdRequest.v
FwdFacts.v
FwdRules.v
Forwarder.v
ForwarderFacts.v
Egress.v
Runtime.v
RuntimeFacts.v
Nod.v
NodFacts.v
AdminAuth.v
AdminAuthFacts.v
LoginGuard.v
Operations.v
OperationsFacts.v
CallerSettings.v
ToolyardConfig.v
Process.v
ProcessFacts.v
Runner.v
RunnerFacts.v
StartFacts.v
Yard.v
Recovery.v
YardFacts.v
YardSafe.v
YardProps.v
BrokerConfig.v
BrokerConfigFacts.v
Supervisor.v
SupervisorFacts.v
PolicyEdits.v
Transport.v
TransportFacts.v
Observation.v
ObservationFacts.v
Toml.v
TomlFacts.v
Authoring.v
AuthoringFacts.v
AuthoringProps.v
