(* ===== verification/Prelude.v ===== *)
(** * Toolstack: a verification library

    Toolstack lets agents call tools under a policy that an operator sets and,
    where the policy asks for it, under the approval of a human.  This library
    models its programs as shallow embeddings and proves what makes them
    correct.  File names below are relative to src/.

    ** The program and its parts

    - The broker (broker/) authenticates an agent, decides each call by the
      policy of the caller, records it in an SQLite store, asks the approval
      surface where needed, and forwards an allowed call to the tool.
    - The secret service (sps/) holds the secrets of the tools in an encrypted
      vault and answers over a line protocol; every release is audited first.
    - The forwarder (toolstack_forwarder/) is the process of a tool of type
      rest: it fills the operator's templates and sends one HTTP request.
    - The toolyard (toolyard/) starts and stops the processes of tools,
      registers them with the secret service, proxies what they may reach, and
      keeps a state file of what runs.
    - The panel (admin/) edits policies and manifests, supervises the broker
      and repairs what a restart of the secret service breaks.

    They meet in four places, and each has a theorem about both sides: the
    database (the broker's requests interleaved with the operator's mutations),
    the line protocol (a secret a tool writes is the one it reads later), the
    manifest (the toolyard's loader and the broker's agree; what the panel
    writes is read back), and the catalog receipt (a catalog the panel calls
    verified is the one the broker runs).

    ** Files

    Shared: this file (results and their monad, dictionaries, tables,
    automation), PyStr (str), Base64, Json and JsonFacts (json with
    the round trip and the canonical text), Ip, Url and UrlFacts (ipaddress and
    urlsplit), Template (the templates of the forwarder, quote and parse_qs),
    Toml and TomlFacts (the TOML the panel writes).

    The broker.  Policy is broker/policy.py; Action is
    broker/approval_summary.py; Store is broker/store.py, a transaction per
    function, with StoreFacts (the invariant and the transactions of other
    processes) and StoreSpec (histories of transactions).  Ingress is
    identity.py, ratelimit.py, redaction.py and tool_state.py; Registry is
    registry.py; Broker is the world of context.py, audit.py and approval.py
    and the monad of the handlers; Lifecycle and LifecycleFacts are
    request_lifecycle.py; Receipt, Gateway, Mcp, GatewayFacts and RouteFacts
    are gateway.py and mcp.py; Transport and TransportFacts are the connections
    of server.py; Runtime and RuntimeFacts are runtime.py and bounds.py; Nod and
    NodFacts are surface_nod.py; Operations and OperationsFacts are
    operations.py; Observation and ObservationFacts are the reload of server.py
    and admin/catalog_observation.py.

    The secret service.  SpsWire is wire.py; Sps and SpsFacts are store.py,
    handlers.py and the requests of server.py over the interface of a backend;
    Vault is plugins/localfile.py, an instance of that interface, and VaultSpec
    its refinement of a shared map; SpsAudit is audit.py, an instance of the
    audit interface; Slots is the admission of connections, SlotWorkers the
    program of its worker threads; SpsClient is
    client.py and tool_sdk.py; SpsService puts service and client together;
    SpsConfig is config.py.

    The forwarder.  FwdConfig is config.py, FwdRequest request_builder.py,
    FwdRules rules.py, Forwarder server.py and outbound.py; FwdFacts and
    ForwarderFacts hold the theorems.

    The toolyard.  ToolyardConfig is config.py, sandbox.py and sps_config.py;
    Process and ProcessFacts are the processes of runner.py, Runner,
    RunnerFacts and StartFacts its three runners; Egress is egress_proxy.py;
    Yard is cli.py with admin/toolyard_ops.py, Recovery the reconciler, the
    watchdog and the link of the panel; YardFacts, YardSafe and YardProps hold
    what all these operations promise together.

    The panel.  AdminAuth, AdminAuthFacts and LoginGuard are auth.py and
    loginguard.py with the middlewares of server.py; CallerSettings and
    PolicyEdits are caller_settings.py and policy_edits.py; BrokerConfig,
    BrokerConfigFacts, Supervisor and SupervisorFacts are broker_config.py and
    supervisor.py; Authoring, AuthoringFacts and AuthoringProps are
    tool_authoring.py.

    ** How state and effects are modelled

    A Python exception is [Raise] of an [exn]; effects before it are kept by the
    monads of the files, and a transaction that raises has no new store.  A
    vault file that is written may fail before or after it was replaced, and the
    transactions of a connection outside its handler may fail for the database.
    A dictionary is a list of pairs in insertion order, a table the list of its
    rows in rowid order.  A text is a sequence of characters U+0000 to U+00FF;
    a byte string is one of the same.  Integers are Python's, hence [Z]; times
    are integers (microseconds or seconds, as a file says).  What the code
    cannot choose is asked of an interface and so quantified over in every
    theorem: [Env] and [Operator] (clock, ids, other processes, surface, tool),
    [Os], [OsClock], [Launcher], [StateDir] and [BrokerHost] (kernel, files,
    docker), [Channel], [Upstream], [Transport], [NodTransport], [Dial] and
    [Peer] (the other ends of connections), [Plugin] and [AuditSink] (backend
    and audit log of the secret service), [Manifests] (tomllib and the digest
    of a file), [Digest], [Crypto], [Parsers], [Utf8] and [Encodes] (hashing, scrypt
    and Fernet, regular expressions and XML, decoding and encoding).  Laws such an interface is
    assumed to have are named hypotheses, and their theorems have witnesses
    with a concrete instance.  The calls are recorded in logs or traces, which
    the safety theorems are about.

    Other processes: the broker's handlers and the operator's mutations see, at
    each of their transactions, whatever others committed in between; several
    processes share a vault file; the operations on the state file of the
    toolyard run under its lock, with the reconciler between them; the panel's
    observation of the catalog is interleaved statement by statement with the
    reloads of the broker.

    ** What the groups of theorems show

    - Authority: a tool is called at most once per request, only after a
      transaction that saw caller, token, policy, manifest and digest valid and
      the approval answered; policy changes and revocations withdraw what they
      should; unauthenticated requests cause nothing.
    - The store keeps its invariant under every sequence of transactions;
      reservations are idempotent; every execution settles its row.
    - Secrets: access is authenticated and granted, audited before release, and
      what is written is what is read; requests depend only on the secrets a
      manifest allows; updates are all or nothing; the vault refines a map.
    - Network: URLs stay under the configured base, executions at the loopback
      port of the tool, the proxy within its allow list; an event stream means
      the same however it is cut.
    - Processes: signals go only to processes that were just identified; no
      operation forgets a process, and all end; a started broker stays recorded.
    - The broker's connections end within their deadlines with one answer; the
      secret service's admission of connections keeps its slots, and its workers
      give them back whatever happens to their connection.
    - Configuration: what the panel edits decides what it shows and nothing
      else, survives the file it is written to and reaches its reader; a
      manifest it writes is read back as it was posted, and loads in the broker
      exactly when three further conditions hold.

    ** Bounds and fuel

    Loops with a fixed count in the code have that count here (40 looks at the
    health of a broker, 30 at its end).  The polling of processes is given 41
    turns, which cover two seconds at 50 ms, and the repair of the link 500
    turns; theorems that these loops end assume a clock that advances, which
    [OsClock] and [LinkClock] state.  Parsers take the length of their input as
    fuel, each call consumes a character, and the round trips show it is
    enough; readers of a connection take their byte limit.  Decimal texts are
    within the 4300 digits that [int] accepts where that matters.

    ** Not modelled

    The routes, pages and JSON API of the panel (admin/server.py, admin/api.py,
    admin/views) are Starlette routing and rendering around components that
    are modelled; command lines (brokerctl, sps/cli.py) parse arguments and
    print.  The back ends for external vaults, TLS and sockets are network
    clients; netguard is disabled in the source; the OpenAPI importer writes
    manifests the loaders here read again; copying of tool directories is pure
    input and output.  A database that fails inside a handler is not modelled.
    Recursion depth and memory are unbounded, but for the bodies a connection
    parses, whose depth is the interface [Peer]'s; TOML dates and characters
    beyond U+00FF are outside the texts of the model, and which texts have no
    encoding is asked of [Encodes] where the forwarder encodes what a caller
    sent.  Log lines that only report are left out. *)

From stdpp Require Import base tactics list strings gmap.
From Stdlib Require Import ZArith Lia.
From Stdlib Require Export Bool.

#[global] Open Scope Z_scope.
#[global] Set Default Goal Selector "!".

(** * Python exceptions and fallible results *)

(** The exception classes the modelled code raises or catches.  [OtherExn]
    stands for any other subclass of [Exception]. *)
Inductive exn :=
| ValueError
| TypeError
| KeyError
| LookupError
| PermissionError
| IntegrityError
| RuntimeError
| NotDispatched
| ToolUnreachable
| OtherExn (name : string).

#[export] Instance exn_eq_dec : EqDecision exn.
Proof. solve_decision. Defined.

Inductive res (A : Type) :=
| Ok (a : A)
| Raise (e : exn).
Arguments Ok {A} a.
Arguments Raise {A} e.

#[export] Instance res_ret : MRet res := fun _ a => Ok a.
#[export] Instance res_bind : MBind res := fun _ _ f m =>
  match m with Ok a => f a | Raise e => Raise e end.
#[export] Instance res_fmap : FMap res := fun _ _ f m =>
  match m with Ok a => Ok (f a) | Raise e => Raise e end.

Definition is_ok {A} (r : res A) : bool :=
  match r with Ok _ => true | Raise _ => false end.

Definition res_of_option {A} (e : exn) (o : option A) : res A :=
  match o with Some a => Ok a | None => Raise e end.

(** [if b: raise e]. *)
Definition raise_if (b : bool) (e : exn) : res unit :=
  if b then Raise e else Ok tt.

Lemma ok_inj {A} (a b : A) : Ok a = Ok b -> a = b.
Proof. by intros [= ->]. Qed.

Lemma res_bind_ok {A B} (m : res A) (f : A -> res B) b :
  m ≫= f = Ok b -> exists a, m = Ok a /\ f a = Ok b.
Proof. destruct m; simpl; [eauto | discriminate]. Qed.

Lemma raise_if_ok b e u : raise_if b e = Ok u -> b = false.
Proof. destruct b; [discriminate | done]. Qed.

(** * Automation *)

(** Case analysis on the innermost discriminee of the goal. *)
Ltac break_match_goal :=
  match goal with
  | |- context [match ?x with _ => _ end] =>
      lazymatch x with
      | context [match _ with _ => _ end] => fail
      | _ => let E := fresh "E" in destruct x eqn:E
      end
  end.

Ltac break_match_hyp :=
  match goal with
  | H : context [match ?x with _ => _ end] |- _ =>
      lazymatch x with
      | context [match _ with _ => _ end] => fail
      | _ => let E := fresh "E" in destruct x eqn:E
      end
  end.

(** Turns boolean tests in the hypotheses into propositions. *)
Ltac to_prop :=
  repeat match goal with
  | H : _ && _ = true |- _ => apply andb_true_iff in H as [? ?]
  | H : _ || _ = false |- _ => apply orb_false_iff in H as [? ?]
  | H : negb _ = true |- _ => apply negb_true_iff in H
  | H : negb _ = false |- _ => apply negb_false_iff in H
  | H : bool_decide _ = true |- _ => apply bool_decide_eq_true_1 in H
  | H : bool_decide _ = false |- _ => apply bool_decide_eq_false_1 in H
  | H : (_ <? _) = true |- _ => apply Z.ltb_lt in H
  | H : (_ <? _) = false |- _ => apply Z.ltb_ge in H
  | H : (_ <=? _) = true |- _ => apply Z.leb_le in H
  | H : (_ <=? _) = false |- _ => apply Z.leb_gt in H
  | H : (_ =? _) = true |- _ => apply Z.eqb_eq in H
  | H : (_ =? _) = false |- _ => apply Z.eqb_neq in H
  end.

(** Splits every [res_bind] that is known to have succeeded. *)
Ltac inv_bind :=
  repeat match goal with
  | H : (_ ≫= _) = Ok _ |- _ =>
      let a := fresh "a" in let E := fresh "E" in
      apply res_bind_ok in H as (a & E & H); cbn beta in H
  | H : raise_if _ _ = Ok _ |- _ => apply raise_if_ok in H
  | H : Ok _ = Ok _ |- _ => injection H as H; try subst
  | H : Raise _ = Ok _ |- _ => discriminate H
  end.

(** A loop that updates an accumulator and may raise. *)
Fixpoint foldM {A B} (f : A -> B -> res A) (a : A) (l : list B) : res A :=
  match l with [] => Ok a | b :: l' => a' ← f a b; foldM f a' l' end.

Lemma foldM_inv {A B} (P : A -> Prop) (f : A -> B -> res A) l a a' :
  P a -> (forall a b a', P a -> f a b = Ok a' -> P a') -> foldM f a l = Ok a' -> P a'.
Proof.
  intros Ha Hf. revert a Ha. induction l as [|b l IH]; intros a Ha; simpl; [by intros [= <-] |].
  intros Hl. inv_bind. eauto.
Qed.

Create HintDb tbl discriminated.

(** * Python dictionaries

    A [dict] keeps insertion order and has each key once.  [dget] is
    [d.get(k)], [dset] is [d[k] = v] (an existing key keeps its position),
    [dpop] is [d.pop(k, None)]. *)

Abbreviation dict A := (list (string * A)).

Section Dict.
Context {A : Type}.
Implicit Types (d : dict A) (k : string) (v : A).

Fixpoint dget d k : option A :=
  match d with
  | [] => None
  | (k', v) :: d' => if decide (k' = k) then Some v else dget d' k
  end.

Definition dmem d k : bool := bool_decide (is_Some (dget d k)).

Fixpoint dset d k v : dict A :=
  match d with
  | [] => [(k, v)]
  | (k', v') :: d' => if decide (k' = k) then (k, v) :: d' else (k', v') :: dset d' k v
  end.

Definition dkeys d : list string := map fst d.

Definition dict_wf d : Prop := NoDup (dkeys d).

Definition dpop d k : dict A := List.filter (fun kv => negb (bool_decide (kv.1 = k))) d.

Lemma dget_dset d k v k' :
  dget (dset d k v) k' = if decide (k = k') then Some v else dget d k'.
Proof.
  induction d as [|[k0 v0] d IH]; simpl; [repeat case_decide; congruence |].
  repeat (case_decide; simpl; try congruence).
Qed.

Lemma dget_dset_eq d k v : dget (dset d k v) k = Some v.
Proof. rewrite dget_dset. by rewrite decide_True. Qed.

Lemma dget_dset_ne d k k' v : k <> k' -> dget (dset d k v) k' = dget d k'.
Proof. intros. rewrite dget_dset. by rewrite decide_False. Qed.

Lemma dget_In d k v : dget d k = Some v -> In (k, v) d.
Proof.
  induction d as [|[k0 v0] d IH]; simpl; [done |].
  case_decide; [intros [= ->]; subst; auto | auto].
Qed.

Lemma dget_None d k : dget d k = None <-> ~ In k (dkeys d).
Proof.
  induction d as [|[k0 v0] d IH]; simpl; [tauto |].
  case_decide; [split; [done | tauto] |]. rewrite IH. tauto.
Qed.

Lemma dget_wf_In d k v : dict_wf d -> In (k, v) d -> dget d k = Some v.
Proof.
  unfold dict_wf, dkeys. induction d as [|[k0 v0] d IH]; simpl; [done |].
  intros [Hn Hd]%NoDup_cons [[= -> ->] | Hin]; [by rewrite decide_True |].
  case_decide; [|auto]. subst. destruct Hn.
  apply list_elem_of_In, in_map_iff. by exists (k, v).
Qed.

Lemma dkeys_dset d k v : In k (dkeys d) -> dkeys (dset d k v) = dkeys d.
Proof.
  induction d as [|[k0 v0] d IH]; simpl; [done |].
  intros [-> | H]; [by rewrite decide_True |].
  case_decide; simpl; [by subst | by rewrite IH].
Qed.

Lemma dset_app_new d k v : ~ In k (dkeys d) -> dset d k v = d ++ [(k, v)].
Proof.
  induction d as [|[k0 v0] d IH]; simpl; [done |]. intros H.
  rewrite decide_False by tauto. rewrite IH; tauto.
Qed.

Lemma dict_wf_dset d k v : dict_wf d -> dict_wf (dset d k v).
Proof.
  unfold dict_wf. intros Hd.
  destruct (in_dec String.string_dec k (dkeys d)) as [Hi | Hn]; [by rewrite dkeys_dset |].
  rewrite dset_app_new by done. unfold dkeys in *. rewrite map_app. simpl.
  apply NoDup_app. split; [done |]. split.
  - intros x Hx ->%list_elem_of_singleton. by apply Hn, list_elem_of_In.
  - apply NoDup_singleton.
Qed.

Lemma dget_dpop d k k' :
  dget (dpop d k) k' = if decide (k = k') then None else dget d k'.
Proof.
  unfold dpop. induction d as [|[k0 v0] d IH]; simpl; [by case_decide |].
  case_bool_decide; simpl; [subst k0; rewrite IH; by repeat case_decide |].
  repeat case_decide; congruence.
Qed.
End Dict.

(** * Tables

    A SQLite table is the list of its rows in rowid order. *)

Section Table.
Context {A : Type}.
Implicit Types (p : A -> bool) (f : A -> A) (l : list A).

(** [SELECT * FROM t WHERE p] and [.fetchone()]. *)
Definition select1 p l : option A := List.find p l.

(** [UPDATE t SET f WHERE p]. *)
Definition update_where p f l : list A := map (fun x => if p x then f x else x) l.

(** The [rowcount] of that statement, and [SELECT COUNT]. *)
Definition count_where p l : Z := Z.of_nat (length (List.filter p l)).

Lemma select1_Some p l x : select1 p l = Some x -> In x l /\ p x = true.
Proof. apply find_some. Qed.

Lemma select1_None p l : select1 p l = None -> forall x, In x l -> p x = false.
Proof. intros H. by apply find_none. Qed.

Lemma select1_update_where p q f l :
  (forall x, q (f x) = q x) ->
  select1 q (update_where p f l)
  = (fun x => if p x then f x else x) <$> select1 q l.
Proof.
  intros Hq. induction l as [|x l IH]; simpl; [done |].
  assert (q (if p x then f x else x) = q x) as -> by (destruct (p x); auto).
  by destruct (q x).
Qed.

Lemma update_where_In p f l y :
  In y (update_where p f l) <-> exists x, In x l /\ y = if p x then f x else x.
Proof.
  unfold update_where. rewrite in_map_iff. naive_solver.
Qed.

Lemma update_where_map {B} (g : A -> B) p f l :
  (forall x, g (f x) = g x) -> map g (update_where p f l) = map g l.
Proof.
  intros Hg. unfold update_where. rewrite map_map.
  apply map_ext. intros x. by destruct (p x).
Qed.

Lemma update_where_none p f l :
  (forall x, In x l -> p x = false) -> update_where p f l = l.
Proof.
  intros H. unfold update_where. rewrite <- (map_id l) at 2.
  apply map_ext_in. intros x Hx. by rewrite H.
Qed.

Lemma select1_app p l1 l2 :
  select1 p (l1 ++ l2)
  = match select1 p l1 with Some x => Some x | None => select1 p l2 end.
Proof. induction l1 as [|x l1 IH]; simpl; [done |]. by destruct (p x). Qed.

Lemma count_where_zero p l : count_where p l = 0 <-> forall x, In x l -> p x = false.
Proof.
  unfold count_where. split.
  - intros H x Hx. destruct (p x) eqn:E; [|done].
    assert (In x (List.filter p l)) as Hf by by apply filter_In.
    destruct (List.filter p l); [by destruct Hf | simpl in H; lia].
  - intros H. assert (List.filter p l = []) as ->; [|done].
    induction l as [|x l IH]; simpl; [done |].
    rewrite H by (simpl; auto). apply IH. intros y Hy. apply H. simpl. auto.
Qed.

Lemma count_where_pos p l : 0 < count_where p l -> exists x, In x l /\ p x = true.
Proof.
  unfold count_where. destruct (List.filter p l) as [|x l'] eqn:E; simpl; [lia |]. intros _.
  exists x. apply filter_In. rewrite E. by left.
Qed.

Lemma count_where_nonneg p l : 0 <= count_where p l.
Proof. unfold count_where. lia. Qed.
End Table.

Lemma In_dset {A} (d : dict A) k v k' v' : In (k', v') (dset d k v) -> (k' = k /\ v' = v) \/ In (k', v') d.
Proof.
  induction d as [|[k0 v0] d IH]; simpl; [intros [[= <- <-] | []]; auto |].
  case_decide; simpl; (intros [[= <- <-] | Hin]; [auto |]); [auto | destruct (IH Hin); auto].
Qed.

#[export] Hint Rewrite @dget_dset_eq : tbl.

(** The next [INTEGER PRIMARY KEY]: one more than the largest in use. *)
Definition next_id (ids : list Z) : Z := 1 + foldr Z.max 0 ids.

Lemma next_id_fresh ids i : In i ids -> i < next_id ids.
Proof.
  unfold next_id. induction ids as [|j ids IH]; simpl; [done |].
  intros [-> | H]; [lia | specialize (IH H); lia].
Qed.

Lemma next_id_not_in ids : ~ In (next_id ids) ids.
Proof. intros H%next_id_fresh. lia. Qed.
