(* ===== verification/PyStr.v ===== *)
(** Python [str] operations used by the modelled code.

    A model string is a sequence of code points U+0000 .. U+00FF, one [ascii]
    each (the range http.server's iso-8859-1 request decoding produces).
    Every operation below is exact on that range: [isdigit] is true of the
    superscripts U+00B2, U+00B3, U+00B9, which [int] refuses; [strip] removes
    U+0085 and U+00A0; [utf8_len] counts two bytes from U+0080. *)

From stdpp Require Import base tactics list strings.
From Stdlib Require Import ZArith Lia Ascii DecimalString DecimalZ DecimalFacts.
From S2P Require Import Prelude.

Definition code (c : ascii) : Z := Z.of_nat (nat_of_ascii c).
Definition chr (z : Z) : ascii := ascii_of_nat (Z.to_nat z).

Lemma code_range c : 0 <= code c < 256.
Proof. unfold code. pose proof (nat_ascii_bounded c). lia. Qed.

Lemma chr_code c : chr (code c) = c.
Proof. unfold chr, code. rewrite Nat2Z.id. apply ascii_nat_embedding. Qed.

Lemma code_chr z : 0 <= z < 256 -> code (chr z) = z.
Proof. intros. unfold chr, code. rewrite nat_ascii_embedding; lia. Qed.

Lemma code_inj c d : code c = code d -> c = d.
Proof. intros H. by rewrite <- (chr_code c), <- (chr_code d), H. Qed.

Definition between (a b : Z) (c : ascii) : bool := (a <=? code c) && (code c <=? b).

Definition is_digit (c : ascii) : bool := between 48 57 c.
Definition is_lower (c : ascii) : bool := between 97 122 c.
Definition is_upper (c : ascii) : bool := between 65 90 c.
Definition is_alnum (c : ascii) : bool := is_digit c || is_lower c || is_upper c.
Definition is_char (d c : ascii) : bool := Ascii.eqb d c.
(** [[A-Za-z0-9_-]]. *)
Definition is_word_dash (c : ascii) : bool :=
  is_alnum c || is_char "_" c || is_char "-" c.
Definition is_lower_hex (c : ascii) : bool := is_digit c || between 97 102 c.
Definition is_hex (c : ascii) : bool := is_lower_hex c || between 65 70 c.

#[global] Arguments is_digit : simpl never.
#[global] Arguments is_alnum : simpl never.
#[global] Arguments is_char : simpl never.
#[global] Arguments is_word_dash : simpl never.
#[global] Arguments between : simpl never.
#[global] Arguments code : simpl never.
#[global] Arguments chr : simpl never.

(** One character of [str.isspace]. *)
Definition is_space (c : ascii) : bool :=
  between 9 13 c || between 28 32 c || (code c =? 133) || (code c =? 160).

Definition chars (s : string) : list ascii := String.list_ascii_of_string s.
Definition of_chars (l : list ascii) : string := String.string_of_list_ascii l.

Lemma of_chars_chars s : of_chars (chars s) = s.
Proof. apply String.string_of_list_ascii_of_string. Qed.

Lemma chars_of_chars l : chars (of_chars l) = l.
Proof. apply String.list_ascii_of_string_of_list_ascii. Qed.

Lemma chars_app s t : chars (s +:+ t) = chars s ++ chars t.
Proof. induction s as [|c s IH]; simpl; [done |]. unfold chars in *. simpl. by rewrite IH. Qed.

Definition len (s : string) : Z := Z.of_nat (String.length s).

Lemma length_chars s : length (chars s) = String.length s.
Proof. induction s; simpl; [done |]. unfold chars in *. simpl. congruence. Qed.

Lemma len_app s t : len (s +:+ t) = len s + len t.
Proof.
  unfold len. rewrite <- !length_chars, chars_app, length_app. lia.
Qed.

Lemma len_nonneg s : 0 <= len s.
Proof. unfold len. lia. Qed.

Definition all_chars (p : ascii -> bool) (s : string) : bool := forallb p (chars s).

Lemma all_chars_spec p s :
  all_chars p s = true <-> forall c, In c (chars s) -> p c = true.
Proof. unfold all_chars. apply forallb_forall. Qed.

Lemma all_chars_app p s t : all_chars p (s +:+ t) = all_chars p s && all_chars p t.
Proof. unfold all_chars. by rewrite chars_app, forallb_app. Qed.

Definition empty (s : string) : bool := match s with EmptyString => true | _ => false end.

(** [len(s.encode("utf-8"))]. *)
Definition utf8_len (s : string) : Z :=
  foldr (fun c n => (if code c <? 128 then 1 else 2) + n) 0 (chars s).

Definition isascii (s : string) : bool := all_chars (fun c => code c <? 128) s.

(** [s.isdigit()]: false on the empty string, true of U+00B2, U+00B3, U+00B9. *)
Definition isdigit_char (c : ascii) : bool :=
  is_digit c || (code c =? 178) || (code c =? 179) || (code c =? 185).
Definition isdigit (s : string) : bool := negb (empty s) && all_chars isdigit_char s.

(** [int(s)] on a string without sign, blanks or underscores. *)
Definition digits_to_Z (s : string) : Z :=
  fold_left (fun acc c => acc * 10 + (code c - 48)) (chars s) 0.
Definition int_of_str (s : string) : res Z :=
  if negb (empty s) && all_chars is_digit s then Ok (digits_to_Z s) else Raise ValueError.

(** [str(z)] and [json.dumps(z)] on an [int]. *)
Definition str_of_Z (z : Z) : string := NilZero.string_of_int (Z.to_int z).

(** [s.lower()] (exact below U+0100) and [s.upper()] on ASCII letters. *)
Definition lower_char (c : ascii) : ascii :=
  if is_upper c || (between 192 222 c && negb (code c =? 215)) then chr (code c + 32) else c.
Definition lower (s : string) : string := of_chars (map lower_char (chars s)).
Definition upper_char (c : ascii) : ascii :=
  if is_lower c then chr (code c - 32) else c.
Definition upper (s : string) : string := of_chars (map upper_char (chars s)).

Fixpoint drop_while {A} (p : A -> bool) (l : list A) : list A :=
  match l with x :: l' => if p x then drop_while p l' else l | [] => [] end.

(** [s.strip()]. *)
Definition lstrip_l (l : list ascii) : list ascii := drop_while is_space l.
Definition strip (s : string) : string :=
  of_chars (rev (lstrip_l (rev (lstrip_l (chars s))))).

Fixpoint starts_with (p s : string) : bool :=
  match p, s with
  | EmptyString, _ => true
  | String a p', String b s' => Ascii.eqb a b && starts_with p' s'
  | _, _ => false
  end.

(** [s[n:]] and [s[:n]]. *)
Definition str_drop (n : nat) (s : string) : string := of_chars (drop n (chars s)).
Definition str_take (n : nat) (s : string) : string := of_chars (take n (chars s)).

Lemma starts_with_app p s : starts_with p (p +:+ s) = true.
Proof. induction p; simpl; [done |]. by rewrite Ascii.eqb_refl. Qed.

Lemma starts_with_spec p s : starts_with p s = true -> exists t, s = p +:+ t.
Proof.
  revert s. induction p as [|a p IH]; intros s; simpl; [by exists s |].
  destruct s as [|b s]; [done |]. intros [->%Ascii.eqb_eq H]%andb_true_iff.
  destruct (IH _ H) as [t ->]. by exists t.
Qed.

(** [p in s]. *)
Fixpoint contains (p s : string) : bool :=
  starts_with p s || match s with EmptyString => false | String _ s' => contains p s' end.

(** [s.partition(sep)] for a one-character separator: head, found, tail. *)
Fixpoint partition_char (sep : ascii) (s : string) : string * bool * string :=
  match s with
  | EmptyString => (EmptyString, false, EmptyString)
  | String c s' =>
      if Ascii.eqb sep c then (EmptyString, true, s')
      else let '(h, f, t) := partition_char sep s' in (String c h, f, t)
  end.

(** [s.split(sep)] for a one-character separator. *)
Fixpoint split_char (sep : ascii) (s : string) : list string :=
  match s with
  | EmptyString => [EmptyString]
  | String c s' =>
      if Ascii.eqb sep c then EmptyString :: split_char sep s'
      else match split_char sep s' with
           | h :: t => String c h :: t
           | [] => [String c EmptyString]
           end
  end.

Lemma split_char_ne sep s : split_char sep s <> [].
Proof. induction s as [|c s IH]; simpl; [done |]. case_match; [done |]. by case_match. Qed.

Definition join (sep : string) (l : list string) : string :=
  match l with
  | [] => EmptyString
  | x :: l' => x +:+ foldr (fun y acc => sep +:+ y +:+ acc) EmptyString l'
  end.

Lemma join_split sep s : join (String sep EmptyString) (split_char sep s) = s.
Proof.
  induction s as [|c s IH]; simpl; [done |].
  destruct (Ascii.eqb sep c) eqn:E.
  - apply Ascii.eqb_eq in E as ->. simpl.
    destruct (split_char c s) as [|h t] eqn:Hs; [by apply split_char_ne in Hs |].
    change (String c (join (String c EmptyString) (h :: t)) = String c s). by f_equal.
  - destruct (split_char sep s) as [|h t] eqn:Hs; [by apply split_char_ne in Hs |].
    change (String c (join (String sep EmptyString) (h :: t)) = String c s). by f_equal.
Qed.

Lemma split_char_free sep s h : In h (split_char sep s) -> ~ In sep (chars h).
Proof.
  revert h. induction s as [|c s IH]; intros h; simpl; [intros [<- | []]; auto |].
  destruct (Ascii.eqb sep c) eqn:E.
  - intros [<- | H]; [intros [] | auto].
  - apply Ascii.eqb_neq in E. destruct (split_char sep s) as [|h0 t] eqn:Hs.
    + intros [<- | []] [Hc | []]; congruence.
    + intros [<- | H]; [|apply IH; simpl; auto].
      intros [Hc | Hc]; [congruence |]. eapply IH; [|exact Hc]. simpl; auto.
Qed.

(** ** Regular expressions of the code, as predicates *)

(** [_ID_RE.fullmatch(s)] for [^[A-Za-z0-9][A-Za-z0-9_-]*$]. *)
Definition id_fullmatch (s : string) : bool :=
  match s with
  | EmptyString => false
  | String c s' => is_alnum c && all_chars is_word_dash s'
  end.

(** [_ID_RE.match(s)]: [$] also matches before one trailing newline. *)
Definition newline : ascii := chr 10.
Definition id_match (s : string) : bool :=
  id_fullmatch s ||
  match rev (chars s) with
  | c :: l => Ascii.eqb c newline && id_fullmatch (of_chars (rev l))
  | [] => false
  end.

(** [fullmatch] of [[A-Za-z0-9_-]{lo,hi}] and [[0-9a-f]{lo,hi}]. *)
Definition word_dash_bounded (lo hi : Z) (s : string) : bool :=
  all_chars is_word_dash s && (lo <=? len s) && (len s <=? hi).
Definition lower_hex_bounded (lo hi : Z) (s : string) : bool :=
  all_chars is_lower_hex s && (lo <=? len s) && (len s <=? hi).

Lemma id_fullmatch_no_dot s : id_fullmatch s = true -> ~ In "."%char (chars s).
Proof.
  destruct s as [|c s]; [done |]. simpl. intros [Hc Hs]%andb_true_iff [-> | Hin]; [done |].
  rewrite all_chars_spec in Hs. by apply Hs in Hin.
Qed.

(** ** Decimal integers *)

Lemma string_of_uint_digits d : all_chars is_digit (NilEmpty.string_of_uint d) = true.
Proof. induction d; simpl; auto. Qed.

Lemma nilzero_uint_digits d : all_chars is_digit (NilZero.string_of_uint d) = true.
Proof. destruct d; simpl; auto; apply string_of_uint_digits. Qed.

Lemma nilzero_uint_nonempty d : NilZero.string_of_uint d <> EmptyString.
Proof. by destruct d. Qed.


(** ** Concatenation *)

Lemma str_assoc (a b c : string) : (a +:+ b) +:+ c = a +:+ (b +:+ c).
Proof.
  induction a as [|x a IH]; [done |].
  change (String x ((a +:+ b) +:+ c) = String x (a +:+ (b +:+ c))). by rewrite IH.
Qed.

Lemma str_app_nil (a : string) : a +:+ EmptyString = a.
Proof.
  induction a as [|x a IH]; [done |]. change (String x (a +:+ EmptyString) = String x a). by rewrite IH.
Qed.

Lemma str_cons_app c (s t : string) : String c s +:+ t = String c (s +:+ t).
Proof. reflexivity. Qed.

Lemma str_app_inj_l (a b c : string) : a +:+ b = a +:+ c -> b = c.
Proof. induction a as [|x a IH]; simpl; [done |]. intros [= H]. auto. Qed.

#[export] Hint Rewrite str_assoc str_cons_app : str.

(** [int(s)] on any text: blanks around, a sign, and single underscores between
    digits are accepted; more than 4300 digits are not. *)
Fixpoint underscored (l : list ascii) : option (list ascii) :=
  match l with
  | [] => None
  | [c] => if is_digit c then Some [c] else None
  | c :: ("_"%char :: l') as l1 => if is_digit c then (fun r => c :: r) <$> underscored l' else None
  | c :: l1 => if is_digit c then (fun r => c :: r) <$> underscored l1 else None
  end.

Definition py_int (s : string) : res Z :=
  let '(sign, body) := match chars (strip s) with
    | "-"%char :: l => (-1, l) | "+"%char :: l => (1, l) | l => (1, l) end in
  match underscored body with
  | Some ds => if 4300 <? Z.of_nat (length ds) then Raise ValueError else Ok (sign * digits_to_Z (of_chars ds))
  | None => Raise ValueError
  end.

Example py_int_forms :
  py_int " -1_000 " = Ok (-1000) /\ py_int "+7" = Ok 7 /\ py_int "1__0" = Raise ValueError
  /\ py_int "_1" = Raise ValueError /\ py_int EmptyString = Raise ValueError.
Proof. by vm_compute. Qed.

(** ** Trailing slashes *)

Fixpoint rstrip_slash_l (l : list ascii) : list ascii :=
  match l with
  | [] => []
  | c :: l' => match rstrip_slash_l l' with
               | [] => if Ascii.eqb c "/" then [] else [c]
               | r => c :: r
               end
  end.
(** [value.rstrip("/")]. *)
Definition rstrip_slash (s : string) : string := of_chars (rstrip_slash_l (chars s)).

Lemma rstrip_slash_spec s : exists k, s = rstrip_slash s +:+ of_chars (repeat "/"%char k).
Proof.
  enough (forall l, exists k, l = rstrip_slash_l l ++ repeat "/"%char k) as H.
  { destruct (H (chars s)) as [k Hk]. exists k. unfold rstrip_slash.
    rewrite <- (of_chars_chars s) at 1. rewrite Hk at 1. rewrite <- (of_chars_chars (_ +:+ _)).
    by rewrite chars_app, !chars_of_chars. }
  induction l as [|c l [k IH]]; [by exists 0%nat |]. simpl.
  destruct (rstrip_slash_l l) as [|d r] eqn:E.
  - destruct (Ascii.eqb_spec c "/") as [-> |]; [exists (S k); simpl; by f_equal |].
    exists k. simpl in *. by f_equal.
  - exists k. rewrite IH at 1. done.
Qed.

(** ** Cutting at a character *)

Lemma partition_char_spec c s h t b : partition_char c s = (h, b, t) ->
  ~ In c (chars h) /\ (if b then s = h +:+ String c t else s = h /\ t = EmptyString).
Proof.
  revert h t. induction s as [|x s IH]; intros h t; simpl; [intros [= <- <- <-]; split; [intros [] | done] |].
  destruct (Ascii.eqb_spec c x) as [<- | Hn]; [intros [= <- <- <-]; split; [intros [] | done] |].
  destruct (partition_char c s) as [[h0 f] t0] eqn:E. intros [= <- -> <-]. destruct (IH _ _ eq_refl) as [Hh Ht].
  split; [intros [? | ?]; [congruence | done] |]. destruct b; [rewrite str_cons_app; by f_equal | by destruct Ht as [-> ->]].
Qed.

Lemma partition_char_at c h t : ~ In c (chars h) -> partition_char c (h +:+ String c t) = (h, true, t).
Proof.
  induction h as [|x h IH]; intros Hn; [simpl; by rewrite Ascii.eqb_refl |]. rewrite str_cons_app. simpl.
  destruct (Ascii.eqb_spec c x) as [<- | _]; [destruct Hn; by left |]. rewrite IH; [done |]. intros H. apply Hn. by right.
Qed.

Lemma partition_char_none c s : ~ In c (chars s) -> partition_char c s = (s, false, EmptyString).
Proof.
  induction s as [|x s IH]; simpl; intros Hn; [done |].
  destruct (Ascii.eqb_spec c x) as [<- | _]; [destruct Hn; by left |]. rewrite IH; [done |]. intros H. apply Hn. by right.
Qed.

Lemma all_chars_not_in p s c : all_chars p s = true -> p c = false -> ~ In c (chars s).
Proof. rewrite all_chars_spec. intros H Hc Hin. rewrite H in Hc by done. done. Qed.

Lemma all_chars_impl (p q : ascii -> bool) s :
  (forall c, p c = true -> q c = true) -> all_chars p s = true -> all_chars q s = true.
Proof. rewrite !all_chars_spec. auto. Qed.

(** ** [int(str(z))] *)

Definition digit_step (acc : Z) (c : ascii) : Z := acc * 10 + (code c - 48).

Lemma fold_digits d : forall a,
  fold_left digit_step (chars (NilEmpty.string_of_uint d)) (Zpos a) = Zpos (Pos.of_uint_acc d a).
Proof.
  induction d as [|d IH|d IH|d IH|d IH|d IH|d IH|d IH|d IH|d IH|d IH]; intros a; [done |..];
    simpl chars; cbn [fold_left Pos.of_uint_acc]; rewrite <- IH; f_equal; unfold digit_step;
    match goal with |- _ * 10 + (code ?c - 48) = _ => let n := eval vm_compute in (code c) in change (code c) with n end; lia.
Qed.

Lemma digits_string_of_uint d : digits_to_Z (NilEmpty.string_of_uint d) = Z.of_uint d.
Proof.
  unfold digits_to_Z, Z.of_uint. fold digit_step.
  induction d as [|d IH|d IH|d IH|d IH|d IH|d IH|d IH|d IH|d IH|d IH]; [done | exact IH |..];
    simpl chars; cbn [fold_left Pos.of_uint Z.of_N]; rewrite <- fold_digits; f_equal.
Qed.

Lemma str_of_Z_digits z : 0 <= z -> all_chars is_digit (str_of_Z z) = true /\ str_of_Z z <> EmptyString.
Proof.
  intros Hz. unfold str_of_Z. destruct z as [|p|p]; [done | | lia]. cbn [Z.to_int NilZero.string_of_int].
  split; [apply nilzero_uint_digits | apply nilzero_uint_nonempty].
Qed.

Lemma digits_str_of_Z z : 0 <= z -> digits_to_Z (str_of_Z z) = z.
Proof.
  intros Hz. unfold str_of_Z. destruct z as [|p|p]; [done | | lia]. cbn [Z.to_int NilZero.string_of_int].
  pose proof (DecimalZ.of_to (Zpos p)) as Hof. cbn [Z.to_int Z.of_int] in Hof. rewrite <- Hof.
  rewrite <- digits_string_of_uint. destruct (Pos.to_uint p) eqn:E; [|done..].
  pose proof (DecimalPos.Unsigned.to_uint_nonnil p). congruence.
Qed.

(** ** One character in a text *)

Lemma contains_char c s : contains (String c EmptyString) s = existsb (Ascii.eqb c) (chars s).
Proof.
  induction s as [|d s IH]; [done |]. simpl contains. rewrite IH. simpl. by rewrite andb_true_r.
Qed.

Lemma contains_not_in c s : contains (String c EmptyString) s = false -> ~ In c (chars s).
Proof.
  rewrite contains_char. intros H Hin. assert (existsb (Ascii.eqb c) (chars s) = true) as Ht; [|congruence].
  apply existsb_exists. exists c. by rewrite Ascii.eqb_refl.
Qed.

Lemma contains_absent c s : ~ In c (chars s) -> contains (String c EmptyString) s = false.
Proof.
  rewrite contains_char. intros Hn. destruct (existsb _ _) eqn:E; [|done].
  by apply existsb_exists in E as (d & Hd & ->%Ascii.eqb_eq).
Qed.

(** ** int of digits *)

Lemma drop_while_none {A} (p : A -> bool) l : forallb (fun x => negb (p x)) l = true -> drop_while p l = l.
Proof. destruct l as [|x l]; [done |]. cbn [forallb drop_while]. by destruct (p x). Qed.

Lemma strip_solid s : all_chars (fun c => negb (is_space c)) s = true -> strip s = s.
Proof.
  intros Hs. unfold strip, lstrip_l. rewrite (drop_while_none _ (chars s)) by done.
  rewrite drop_while_none, rev_involutive; [apply of_chars_chars |].
  apply forallb_forall. intros c Hc%in_rev. unfold all_chars in Hs. rewrite forallb_forall in Hs. by apply Hs.
Qed.

Lemma underscored_digits l : l <> [] -> forallb is_digit l = true -> underscored l = Some l.
Proof.
  induction l as [|c l IH]; intros Hne Hd; [done |]. cbn [forallb] in Hd. apply andb_true_iff in Hd as [Hc Hl].
  destruct l as [|d l]; [by simpl; rewrite Hc |]. specialize (IH ltac:(done) Hl).
  assert (d <> "_"%char) as Hd by (intros ->; done).
  assert (underscored (c :: d :: l) = (fun r => c :: r) <$> underscored (d :: l)) as ->; [|by rewrite IH].
  change (underscored (c :: d :: l)) with
    (match d with "_"%char => if is_digit c then (fun r => c :: r) <$> underscored l else None
     | _ => if is_digit c then (fun r => c :: r) <$> underscored (d :: l) else None end).
  rewrite Hc. clear - Hd. destruct d as [[] [] [] [] [] [] [] []]; done.
Qed.

Lemma digit_not_space c : is_digit c = true -> negb (is_space c) = true.
Proof. destruct c as [[] [] [] [] [] [] [] []]; done. Qed.

(** [int] of a text of digits. *)
Lemma py_int_all_digits s : all_chars is_digit s = true -> s <> EmptyString ->
  py_int s = if 4300 <? len s then Raise ValueError else Ok (digits_to_Z s).
Proof.
  intros Hd Hne. unfold py_int. rewrite strip_solid.
  2: { eapply all_chars_impl; [apply digit_not_space | done]. }
  assert (exists c l, chars s = c :: l /\ is_digit c = true) as (c & l & E & Hc).
  { destruct s as [|c s]; [done |]. exists c, (chars s). split; [done |]. unfold all_chars in Hd. simpl in Hd. by apply andb_true_iff in Hd as [? _]. }
  assert ((match chars s with "-"%char :: l => (-1, l) | "+"%char :: l => (1, l) | l => (1, l) end) = (1, chars s)) as ->.
  { rewrite E. destruct c as [[] [] [] [] [] [] [] []]; done. }
  rewrite underscored_digits; [|by rewrite E | done].
  rewrite length_chars. change (Z.of_nat (String.length s)) with (len s). destruct (4300 <? len s); [done |].
  rewrite of_chars_chars. f_equal. lia.
Qed.

Lemma py_int_digits s : all_chars is_digit s = true -> s <> EmptyString -> len s <= 4300 -> py_int s = Ok (digits_to_Z s).
Proof. intros Hd Hne Hl. rewrite py_int_all_digits by done. destruct (Z.ltb_spec 4300 (len s)); [lia | done]. Qed.

(** [int(str(z))], when it answers. *)
Lemma py_int_str_inv z p : 0 <= z -> py_int (str_of_Z z) = Ok p -> p = z.
Proof.
  intros Hz. destruct (str_of_Z_digits z Hz) as [Hd Hne]. rewrite py_int_all_digits by done. rewrite digits_str_of_Z by done.
  by destruct (_ <? _); [|intros [= <-]].
Qed.

Lemma py_int_str_of_Z z : 0 <= z -> len (str_of_Z z) <= 4300 -> py_int (str_of_Z z) = Ok z.
Proof.
  intros Hz Hl. destruct (str_of_Z_digits z Hz) as [Hd Hne]. rewrite py_int_digits by done. by rewrite digits_str_of_Z.
Qed.
