(* ===== verification/Base64.v ===== *)
(** Base 64 as the standard library's [binascii] computes it: the decoder is
    its character automaton, in the strict and in the lenient mode. *)

From stdpp Require Import base tactics list strings.
From Stdlib Require Import ZArith Lia Ascii.
From S2P Require Import Prelude PyStr.

Definition b64_char (v : Z) : ascii :=
  chr (if v <? 26 then 65 + v
       else if v <? 52 then 71 + v
       else if v <? 62 then v - 4
       else if v =? 62 then 43 else 47).

Definition b64_val (c : ascii) : option Z :=
  if is_upper c then Some (code c - 65)
  else if is_lower c then Some (code c - 71)
  else if is_digit c then Some (code c + 4)
  else if code c =? 43 then Some 62
  else if code c =? 47 then Some 63
  else None.

Definition pad : ascii := "="%char.

(** [b2a_base64] without the newline. *)
Fixpoint b64_encode_l (l : list ascii) : list ascii :=
  match l with
  | [] => []
  | [a] => [b64_char (code a / 4); b64_char (code a mod 4 * 16); pad; pad]
  | [a; b] =>
      [b64_char (code a / 4); b64_char (code a mod 4 * 16 + code b / 16); b64_char (code b mod 16 * 4); pad]
  | a :: b :: c :: l' =>
      b64_char (code a / 4) :: b64_char (code a mod 4 * 16 + code b / 16)
      :: b64_char (code b mod 16 * 4 + code c / 64) :: b64_char (code c mod 64) :: b64_encode_l l'
  end.

Definition b64encode (s : string) : string := of_chars (b64_encode_l (chars s)).

(** [a2b_base64]: [quad] counts the characters of the group, [left] holds the
    bits not yet output, [pads] the padding of the group, [started] tells that
    padding was seen; the answer is in order. *)
Fixpoint a2b (strict : bool) (l : list ascii) (quad : Z) (left : Z) (pads : Z) (started : bool) : option (list ascii) :=
  match l with
  | [] => if quad =? 0 then Some [] else None
  | c :: l' =>
      if Ascii.eqb c pad then
        if strict && (quad =? 0) then None
        else if 2 <=? quad then
          if 4 <=? quad + (pads + 1) then
            if strict && match l' with [] => false | _ => true end then None else Some []
          else a2b strict l' quad left (pads + 1) true
        else a2b strict l' quad left pads true
      else
        match b64_val c with
        | None => if strict then None else a2b strict l' quad left pads started
        | Some v =>
            if strict && started then None
            else if quad =? 0 then a2b strict l' 1 v 0 started
            else if quad =? 1 then
              out ← a2b strict l' 2 (v mod 16) 0 started; Some (chr (left * 4 + v / 16) :: out)
            else if quad =? 2 then
              out ← a2b strict l' 3 (v mod 4) 0 started; Some (chr (left * 16 + v / 4) :: out)
            else
              out ← a2b strict l' 0 0 0 started; Some (chr (left * 64 + v) :: out)
        end
  end.

(** [base64.b64decode(s, validate=strict)] of an ASCII text. *)
Definition b64decode (strict : bool) (s : string) : option string :=
  if isascii s then of_chars <$> a2b strict (chars s) 0 0 0 false else None.

(** The URL-safe alphabet: [-] for [+] and [_] for [/]. *)
Definition to_urlsafe (c : ascii) : ascii :=
  if code c =? 43 then "-"%char else if code c =? 47 then "_"%char else c.
Definition of_urlsafe (c : ascii) : ascii :=
  if Ascii.eqb c "-" then chr 43 else if Ascii.eqb c "_" then chr 47 else c.

Definition urlsafe_b64encode (s : string) : string := of_chars (map to_urlsafe (chars (b64encode s))).
Definition urlsafe_b64decode (s : string) : option string :=
  b64decode false (of_chars (map of_urlsafe (chars s))).

(** ** Round trip *)

Definition sextets : list Z := map Z.of_nat (seq 0 64).

Lemma sextet_In v : 0 <= v < 64 -> In v sextets.
Proof. intros Hv. apply in_map_iff. exists (Z.to_nat v). split; [lia | apply in_seq; lia]. Qed.

Lemma sextets_forall (p : Z -> bool) : forallb p sextets = true -> forall v, 0 <= v < 64 -> p v = true.
Proof. rewrite forallb_forall. intros Hp v Hv. apply Hp, sextet_In, Hv. Qed.

Lemma b64_val_char v : 0 <= v < 64 -> b64_val (b64_char v) = Some v.
Proof.
  intros Hv. apply (bool_decide_eq_true_1 (b64_val (b64_char v) = Some v)).
  revert v Hv. by apply sextets_forall.
Qed.

Lemma b64_char_pad v : 0 <= v < 64 -> Ascii.eqb (b64_char v) pad = false.
Proof. intros Hv. apply negb_true_iff. revert v Hv. by apply (sextets_forall (fun v => negb (Ascii.eqb (b64_char v) pad))). Qed.

Lemma b64_char_ascii v : 0 <= v < 64 -> (code (b64_char v) <? 128) = true.
Proof. revert v. by apply (sextets_forall (fun v => code (b64_char v) <? 128)). Qed.

Lemma b64_char_urlsafe v : 0 <= v < 64 -> of_urlsafe (to_urlsafe (b64_char v)) = b64_char v.
Proof.
  intros Hv. apply (bool_decide_eq_true_1 (of_urlsafe (to_urlsafe (b64_char v)) = b64_char v)).
  revert v Hv. by apply sextets_forall.
Qed.

(** Induction by groups of three bytes. *)
Lemma triples_ind {A} (P : list A -> Prop) :
  P [] -> (forall a, P [a]) -> (forall a b, P [a; b]) -> (forall a b c l, P l -> P (a :: b :: c :: l)) ->
  forall l, P l.
Proof.
  intros H0 H1 H2 H3. fix IH 1. intros [|a [|b [|c l]]]; [done | done | done |]. apply H3, IH.
Qed.

(** One alphabet character of the automaton. *)
Lemma a2b_sextet strict v l quad left pads :
  0 <= v < 64 ->
  a2b strict (b64_char v :: l) quad left pads false
  = if quad =? 0 then a2b strict l 1 v 0 false
    else if quad =? 1 then out ← a2b strict l 2 (v mod 16) 0 false; Some (chr (left * 4 + v / 16) :: out)
    else if quad =? 2 then out ← a2b strict l 3 (v mod 4) 0 false; Some (chr (left * 16 + v / 4) :: out)
    else out ← a2b strict l 0 0 0 false; Some (chr (left * 64 + v) :: out).
Proof. intros Hv. cbn [a2b]. rewrite b64_char_pad, b64_val_char, andb_false_r by done. done. Qed.

Lemma chr_eq z c : z = code c -> chr z = c.
Proof. intros ->. apply chr_code. Qed.

(** Solves the arithmetic of splitting bytes into six-bit groups. *)
Ltac bits :=
  repeat match goal with c : ascii |- _ => lazymatch goal with _ : 0 <= code c < 256 |- _ => fail | _ => pose proof (code_range c) end end;
  Z.to_euclidean_division_equations; lia.

(** A group of up to three bytes and its padding, decoded. *)
Lemma a2b_encode strict l : a2b strict (b64_encode_l l) 0 0 0 false = Some l.
Proof.
  induction l as [|a|a b|a b c l IH] using triples_ind; [done | | |]; cbn [b64_encode_l].
  - rewrite !a2b_sextet by bits. destruct strict; simpl; do 2 f_equal; apply chr_eq; bits.
  - rewrite !a2b_sextet by bits. destruct strict; simpl; do 2 f_equal; try (apply chr_eq; bits);
      f_equal; apply chr_eq; bits.
  - rewrite !a2b_sextet by bits. cbn [Z.eqb]. rewrite IH. simpl.
    do 2 f_equal; [apply chr_eq; bits |]. f_equal; [apply chr_eq; bits |]. f_equal. apply chr_eq. bits.
Qed.

Lemma encode_alphabet (p : ascii -> bool) l :
  p pad = true -> (forall v, 0 <= v < 64 -> p (b64_char v) = true) -> forallb p (b64_encode_l l) = true.
Proof.
  intros Hp Hv. induction l as [|a|a b|a b c l IH] using triples_ind; [done | | |]; cbn [b64_encode_l forallb].
  - by rewrite Hp, !Hv by bits.
  - by rewrite Hp, !Hv by bits.
  - by rewrite IH, !Hv by bits.
Qed.

Lemma isascii_encode s : isascii (b64encode s) = true.
Proof.
  unfold isascii, b64encode, all_chars. rewrite chars_of_chars. apply encode_alphabet; [done | apply b64_char_ascii].
Qed.

Lemma b64decode_encode strict s : b64decode strict (b64encode s) = Some s.
Proof.
  unfold b64decode. rewrite isascii_encode. unfold b64encode. rewrite chars_of_chars, a2b_encode. simpl.
  by rewrite of_chars_chars.
Qed.

Lemma urlsafe_encode l : map of_urlsafe (map to_urlsafe (b64_encode_l l)) = b64_encode_l l.
Proof.
  rewrite map_map. assert (forallb (fun c => Ascii.eqb (of_urlsafe (to_urlsafe c)) c) (b64_encode_l l) = true) as Hall.
  { apply encode_alphabet; [done |]. intros v Hv. apply Ascii.eqb_eq. by apply b64_char_urlsafe. }
  rewrite forallb_forall in Hall. rewrite <- (map_id (b64_encode_l l)) at 2.
  apply map_ext_in. intros c Hc. by apply Ascii.eqb_eq, Hall.
Qed.

Lemma urlsafe_b64decode_encode s : urlsafe_b64decode (urlsafe_b64encode s) = Some s.
Proof.
  unfold urlsafe_b64decode, urlsafe_b64encode, b64encode. rewrite !chars_of_chars, urlsafe_encode.
  apply b64decode_encode.
Qed.

(** ** Examples from the decoder's documentation of padding *)

Example strict_refuses_garbage : b64decode true "aGk=x" = None /\ b64decode true "a Gk=" = None /\ b64decode true "aGk" = None.
Proof. by vm_compute. Qed.

Example lenient_skips_garbage : b64decode false "a Gk=x" = Some "hi"%string.
Proof. by vm_compute. Qed.
