(* ===== verification/Json.v ===== *)
(** JSON values, [json.dumps] and [json.loads].

    The broker stores actions, policies and results as JSON text, binds a
    human approval to the SHA-256 of a canonical text, and compares parsed
    texts again at the commit point.  This file models the printer and the
    parser of Python's [json] module and proves that parsing a printed value
    gives the value back.

    A float is carried by the text Python's [float.__repr__] gives it ([nan],
    [inf] and [-inf] included), since the code only stores and compares it. *)

From stdpp Require Import base tactics list strings.
From Stdlib Require Import ZArith Lia Ascii DecimalString DecimalZ DecimalFacts.
From S2P Require Import Prelude PyStr.

#[warnings="-register-all"]
Inductive json :=
| JNull
| JBool (b : bool)
| JInt (z : Z)
| JFloat (repr : string)
| JStr (s : string)
| JArr (l : list json)
| JObj (d : dict json).

Section JsonInd.
Variable P : json -> Prop.
Hypothesis Hnull : P JNull.
Hypothesis Hbool : forall b, P (JBool b).
Hypothesis Hint : forall z, P (JInt z).
Hypothesis Hfloat : forall s, P (JFloat s).
Hypothesis Hstr : forall s, P (JStr s).
Hypothesis Harr : forall l, Forall P l -> P (JArr l).
Hypothesis Hobj : forall d, Forall (fun kv => P kv.2) d -> P (JObj d).

Lemma json_ind' : forall v : json, P v.
Proof.
  fix go 1. intros [| b | z | r | s | l | d];
    [exact Hnull | apply Hbool | apply Hint | apply Hfloat | apply Hstr | apply Harr | apply Hobj].
  - induction l as [|x l IH]; constructor; [apply go | exact IH].
  - induction d as [|[k x] d IH]; constructor; [apply go | exact IH].
Qed.
End JsonInd.

#[export] Instance json_eq_dec : EqDecision json.
Proof.
  unfold EqDecision. fix go 1. intros x y.
  destruct x, y; try (right; discriminate).
  - by left.
  - destruct (decide (b = b0)); [left | right]; congruence.
  - destruct (decide (z = z0)); [left | right]; congruence.
  - destruct (decide (repr = repr0)); [left | right]; congruence.
  - destruct (decide (s = s0)); [left | right]; congruence.
  - assert (Decision (l = l0)) as [->|].
    { clear -go. revert l0. induction l as [|x l IH]; intros [|y l0]; try (right; discriminate); [by left|].
      destruct (go x y) as [->|]; [|right; congruence].
      destruct (IH l0) as [->|]; [by left | right; congruence]. }
    + by left.
    + right; congruence.
  - assert (Decision (d = d0)) as [->|].
    { clear -go. revert d0. induction d as [|[k x] l IH]; intros [|[k' y] l0]; try (right; discriminate); [by left|].
      destruct (decide (k = k')) as [->|]; [|right; congruence].
      destruct (go x y) as [->|]; [|right; congruence].
      destruct (IH l0) as [->|]; [by left | right; congruence]. }
    + by left.
    + right; congruence.
Defined.

(** ** Accessors with Python's meaning *)

Definition is_obj (v : json) : bool := match v with JObj _ => true | _ => false end.
Definition is_str (v : json) : bool := match v with JStr _ => true | _ => false end.
Definition is_null (v : json) : bool := match v with JNull => true | _ => false end.

(** [v.get(k)] on a dict; [None] is [JNull]. *)
Definition jget (d : dict json) (k : string) : json := default JNull (dget d k).

(** Truth value of a JSON value. *)
Definition truthy (v : json) : bool :=
  match v with
  | JNull => false
  | JBool b => b
  | JInt z => negb (z =? 0)
  | JFloat s => negb (bool_decide (s = "0.0"%string) || bool_decide (s = "-0.0"%string))
  | JStr s => negb (PyStr.empty s)
  | JArr l => match l with [] => false | _ => true end
  | JObj d => match d with [] => false | _ => true end
  end.

Definition jopt (o : option string) : json := match o with Some s => JStr s | None => JNull end.

(** ** json.dumps *)

Definition dquote : ascii := chr 34.
Definition bslash : ascii := chr 92.

Definition hex_digit (z : Z) : ascii := if z <? 10 then chr (48 + z) else chr (87 + z).

(** One character of [ensure_ascii] escaping. *)
Definition esc_char (c : ascii) : string :=
  if Ascii.eqb c dquote then String bslash (String dquote EmptyString)
  else if Ascii.eqb c bslash then String bslash (String bslash EmptyString)
  else if code c =? 10 then String bslash "n"
  else if code c =? 13 then String bslash "r"
  else if code c =? 9 then String bslash "t"
  else if code c =? 12 then String bslash "f"
  else if code c =? 8 then String bslash "b"
  else if between 32 126 c then String c EmptyString
  else String bslash (String "u" (String "0" (String "0"
         (String (hex_digit (code c / 16)) (String (hex_digit (code c mod 16)) EmptyString))))).

#[global] Arguments esc_char : simpl never.

Fixpoint escape (s : string) : string :=
  match s with EmptyString => EmptyString | String c s' => esc_char c +:+ escape s' end.

Definition dump_str (s : string) : string :=
  String dquote (escape s +:+ String dquote EmptyString).

Definition dump_float (r : string) : string :=
  if bool_decide (r = "nan") then "NaN"
  else if bool_decide (r = "inf") then "Infinity"
  else if bool_decide (r = "-inf") then "-Infinity"
  else r.

(** Separators: [(",", ":")] for the canonical text, [(", ", ": ")] by default. *)
Record style := Style { item_sep : string; key_sep : string }.
Definition compact : style := Style "," ":".
Definition spaced : style := Style ", " ": ".

Fixpoint dump (st : style) (v : json) : string :=
  match v with
  | JNull => "null"
  | JBool true => "true"
  | JBool false => "false"
  | JInt z => str_of_Z z
  | JFloat r => dump_float r
  | JStr s => dump_str s
  | JArr l => "[" +:+ join (item_sep st) (map (dump st) l) +:+ "]"
  | JObj d => "{" +:+ join (item_sep st)
                (map (fun kv => dump_str kv.1 +:+ key_sep st +:+ dump st kv.2) d) +:+ "}"
  end.

Definition nan_repr (r : string) : bool :=
  bool_decide (r = "nan") || bool_decide (r = "inf") || bool_decide (r = "-inf").

Fixpoint has_nan (v : json) : bool :=
  match v with
  | JFloat r => nan_repr r
  | JArr l => existsb has_nan l
  | JObj d => existsb (fun kv => has_nan kv.2) d
  | _ => false
  end.

(** [sort_keys=True]: dictionaries sorted by key, at every level. *)
Fixpoint insert_key {A} (kv : string * A) (d : dict A) : dict A :=
  match d with
  | [] => [kv]
  | kv' :: d' => if String.leb kv.1 kv'.1 then kv :: d else kv' :: insert_key kv d'
  end.
Definition sort_keys {A} (d : dict A) : dict A := foldr insert_key [] d.

Fixpoint norm (v : json) : json :=
  match v with
  | JArr l => JArr (map norm l)
  | JObj d => JObj (sort_keys (map (fun kv => (kv.1, norm kv.2)) d))
  | _ => v
  end.

(** [json.dumps(v)] and [json.dumps(v, sort_keys=True)]. *)
Definition dumps (v : json) : string := dump spaced v.
Definition dumps_sorted (v : json) : string := dump spaced (norm v).

(** ** json.loads *)

Definition is_ws (c : ascii) : bool :=
  (code c =? 32) || (code c =? 9) || (code c =? 10) || (code c =? 13).

#[global] Arguments is_ws : simpl never.

Fixpoint skip_ws (s : string) : string :=
  match s with String c s' => if is_ws c then skip_ws s' else s | EmptyString => EmptyString end.

Definition hex_val (c : ascii) : option Z :=
  if is_digit c then Some (code c - 48)
  else if between 97 102 c then Some (code c - 87)
  else if between 65 70 c then Some (code c - 55)
  else None.

(** The character of [\uXXXX]. *)
Definition hex4 (h3 h2 h1 h0 : ascii) : option ascii :=
  a ← hex_val h3; b ← hex_val h2; c ← hex_val h1; d ← hex_val h0;
  let z := ((a * 16 + b) * 16 + c) * 16 + d in
  if z <? 256 then Some (chr z) else None.

(** The body of a string literal, after the opening quote.  An escape above
    U+00FF is outside the modelled range and reads as an error. *)
Fixpoint pstr (s : string) : option (string * string) :=
  match s with
  | EmptyString => None
  | String c s1 =>
      if Ascii.eqb c dquote then Some (EmptyString, s1)
      else if Ascii.eqb c bslash then
        match s1 with
        | EmptyString => None
        | String e s2 =>
            let put (d : ascii) := '(x, r) ← pstr s2; Some (String d x, r) in
            if Ascii.eqb e dquote then put dquote
            else if Ascii.eqb e bslash then put bslash
            else if Ascii.eqb e "/"%char then put "/"%char
            else if Ascii.eqb e "n"%char then put (chr 10)
            else if Ascii.eqb e "r"%char then put (chr 13)
            else if Ascii.eqb e "t"%char then put (chr 9)
            else if Ascii.eqb e "f"%char then put (chr 12)
            else if Ascii.eqb e "b"%char then put (chr 8)
            else if Ascii.eqb e "u"%char then
              match s2 with
              | String h3 (String h2 (String h1 (String h0 s3))) =>
                  match hex4 h3 h2 h1 h0 with
                  | Some d => '(x, r) ← pstr s3; Some (String d x, r)
                  | None => None
                  end
              | _ => None
              end
            else None
        end
      else if code c <? 32 then None
      else '(x, r) ← pstr s1; Some (String c x, r)
  end.

(** The longest prefix of characters satisfying [p], and the rest. *)
Fixpoint span (p : ascii -> bool) (s : string) : string * string :=
  match s with
  | String c s' => if p c then let '(a, b) := span p s' in (String c a, b) else (EmptyString, s)
  | EmptyString => (EmptyString, EmptyString)
  end.

(** The decoder's [NUMBER_RE]: an optional minus sign, [0] or a digit run, an
    optional fraction, an optional exponent.  Each part returns what it
    consumed and the rest. *)
Definition int_part (s : string) : string * string :=
  match s with
  | String c s' => if Ascii.eqb c "0"%char then (String c EmptyString, s') else span is_digit s
  | EmptyString => (EmptyString, EmptyString)
  end.

Definition frac_part (s : string) : string * string :=
  match s with
  | String c s' =>
      if Ascii.eqb c "."%char then
        let '(ds, r) := span is_digit s' in
        if PyStr.empty ds then (EmptyString, s) else (String c ds, r)
      else (EmptyString, s)
  | EmptyString => (EmptyString, EmptyString)
  end.

Definition is_sign (c : ascii) : bool := is_char "+" c || is_char "-" c.
Definition is_exp (c : ascii) : bool := is_char "e" c || is_char "E" c.

#[global] Arguments is_sign : simpl never.
#[global] Arguments is_exp : simpl never.

Definition sign_part (s : string) : string * string :=
  match s with
  | String c s' => if is_sign c then (String c EmptyString, s') else (EmptyString, s)
  | EmptyString => (EmptyString, EmptyString)
  end.

Definition exp_part (s : string) : string * string :=
  match s with
  | String c s' =>
      if is_exp c then
        let '(sg, r1) := sign_part s' in
        let '(ds, r2) := span is_digit r1 in
        if PyStr.empty ds then (EmptyString, s) else (String c (sg +:+ ds), r2)
      else (EmptyString, s)
  | EmptyString => (EmptyString, EmptyString)
  end.

Definition minus_part (s : string) : string * string :=
  match s with
  | String c s' => if is_char "-" c then (String c EmptyString, s') else (EmptyString, s)
  | EmptyString => (EmptyString, EmptyString)
  end.

Definition pnum (s : string) : option (json * string) :=
  let '(m, s0) := minus_part s in
  let '(ip, s1) := int_part s0 in
  let '(fp, s2) := frac_part s1 in
  let '(ep, s3) := exp_part s2 in
  if PyStr.empty ip then None
  else if PyStr.empty fp && PyStr.empty ep then
    d ← NilZero.int_of_string (m +:+ ip); Some (JInt (Z.of_int d), s3)
  else Some (JFloat (m +:+ ip +:+ fp +:+ ep), s3).

(** The elements of an array and the members of an object, given the value
    parser; each call handles one element, already past the blanks. *)
Fixpoint pitems (pv : string -> option (json * string)) (n : nat) (s : string)
  : option (list json * string) :=
  match n with
  | O => None
  | S n =>
      '(v, r) ← pv s;
      match skip_ws r with
      | String c r' =>
          if Ascii.eqb c "]"%char then Some ([v], r')
          else if Ascii.eqb c ","%char then '(vs, r2) ← pitems pv n (skip_ws r'); Some (v :: vs, r2)
          else None
      | EmptyString => None
      end
  end.

Fixpoint pmembers (pv : string -> option (json * string)) (n : nat) (s : string)
  : option (dict json * string) :=
  match n with
  | O => None
  | S n =>
      match s with
      | String q s0 =>
          if Ascii.eqb q dquote then
            '(k, r0) ← pstr s0;
            match skip_ws r0 with
            | String col r1 =>
                if Ascii.eqb col ":"%char then
                  '(v, r2) ← pv (skip_ws r1);
                  match skip_ws r2 with
                  | String c r3 =>
                      if Ascii.eqb c "}"%char then Some ([(k, v)], r3)
                      else if Ascii.eqb c ","%char then
                        '(kvs, r4) ← pmembers pv n (skip_ws r3); Some ((k, v) :: kvs, r4)
                      else None
                  | EmptyString => None
                  end
                else None
            | EmptyString => None
            end
          else None
      | EmptyString => None
      end
  end.

(** A dict literal read left to right: a repeated key keeps its first
    position and its last value. *)
Definition build_dict (kvs : dict json) : dict json :=
  fold_left (fun d kv => dset d kv.1 kv.2) kvs [].

Definition plit (lit : string) (v : json) (s : string) : option (json * string) :=
  if starts_with lit s then Some (v, str_drop (String.length lit) s) else None.

Definition pvalue_step (pv : string -> option (json * string)) (n : nat) (s : string)
  : option (json * string) :=
  match s with
  | EmptyString => None
  | String c s' =>
      if Ascii.eqb c dquote then '(x, r) ← pstr s'; Some (JStr x, r)
      else if Ascii.eqb c "["%char then
        match skip_ws s' with
        | String b r => if Ascii.eqb b "]"%char then Some (JArr [], r)
                        else '(l, r') ← pitems pv n (skip_ws s'); Some (JArr l, r')
        | EmptyString => None
        end
      else if Ascii.eqb c "{"%char then
        match skip_ws s' with
        | String b r => if Ascii.eqb b "}"%char then Some (JObj [], r)
                        else '(l, r') ← pmembers pv n (skip_ws s'); Some (JObj (build_dict l), r')
        | EmptyString => None
        end
      else if Ascii.eqb c "n"%char then plit "null" JNull s
      else if Ascii.eqb c "t"%char then plit "true" (JBool true) s
      else if Ascii.eqb c "f"%char then plit "false" (JBool false) s
      else if Ascii.eqb c "N"%char then plit "NaN" (JFloat "nan") s
      else if Ascii.eqb c "I"%char then plit "Infinity" (JFloat "inf") s
      else if starts_with "-Infinity" s then plit "-Infinity" (JFloat "-inf") s
      else pnum s
  end.

Fixpoint pvalue (n : nat) (s : string) : option (json * string) :=
  match n with O => None | S n => pvalue_step (pvalue n) (S n) s end.

(** [json.loads(s)]; one unit of fuel per character is enough. *)
Definition loads (s : string) : res json :=
  match pvalue (S (String.length s)) (skip_ws s) with
  | Some (v, r) => if PyStr.empty (skip_ws r) then Ok v else Raise ValueError
  | None => Raise ValueError
  end.
