(* ===== verification/JsonFacts.v ===== *)
(** The parser reads back what the printer writes, and the canonical text
    determines the value it was printed from. *)

From stdpp Require Import base tactics list strings.
From Stdlib Require Import ZArith Lia Ascii DecimalString DecimalZ DecimalFacts.
From S2P Require Import Prelude PyStr Json.

(** Characters a number may go on with. *)
Definition numchar (c : ascii) : bool :=
  is_digit c || is_char "." c || is_exp c || is_sign c.

Definition head_not (p : ascii -> bool) (s : string) : bool :=
  match s with String c _ => negb (p c) | EmptyString => true end.

Notation delim := (head_not numchar).

Lemma head_not_weaken (p q : ascii -> bool) s :
  (forall c, q c = true -> p c = true) -> head_not p s = true -> head_not q s = true.
Proof.
  intros H. destruct s as [|c s]; simpl; [done |].
  destruct (q c) eqn:E; [rewrite (H _ E); done | done].
Qed.

Lemma delim_digit s : delim s = true -> head_not is_digit s = true.
Proof. apply head_not_weaken. unfold numchar. intros c ->. done. Qed.

Lemma delim_sign s : delim s = true -> head_not is_sign s = true.
Proof. apply head_not_weaken. unfold numchar. intros c ->. by rewrite !orb_true_r. Qed.

(** ** Splitting a string and splitting its extension *)

Lemma span_app p s rest a b :
  span p s = (a, b) -> head_not p rest = true -> span p (s +:+ rest) = (a, b +:+ rest).
Proof.
  revert a b. induction s as [|c s IH]; intros a b; simpl.
  - intros [= <- <-] H. destruct rest as [|c r]; simpl in *; [done |].
    by destruct (p c).
  - destruct (p c) eqn:E.
    + destruct (span p s) as [a' b'] eqn:Es. intros [= <- <-] H. by rewrite (IH _ _ eq_refl H).
    + by intros [= <- <-] _.
Qed.

Lemma int_part_app s rest a b :
  int_part s = (a, b) -> delim rest = true -> PyStr.empty a = false ->
  int_part (s +:+ rest) = (a, b +:+ rest).
Proof.
  destruct s as [|c s]; [by intros [= <- <-] |]. unfold int_part.
  rewrite str_cons_app. destruct (Ascii.eqb c "0"%char).
  - by intros [= <- <-].
  - intros H Hr _. rewrite <- str_cons_app. apply span_app; [done | by apply delim_digit].
Qed.

Lemma sign_part_app s rest a b :
  sign_part s = (a, b) -> head_not is_sign rest = true ->
  sign_part (s +:+ rest) = (a, b +:+ rest).
Proof.
  destruct s as [|c s]; simpl.
  - intros [= <- <-]. destruct rest as [|c r]; simpl; [done |]. by destruct (is_sign c).
  - destruct (is_sign c); by intros [= <- <-].
Qed.

Lemma frac_part_app s rest a b :
  frac_part s = (a, b) -> delim rest = true -> frac_part (s +:+ rest) = (a, b +:+ rest).
Proof.
  destruct s as [|c s]; simpl.
  - intros [= <- <-] Hd. destruct rest as [|c r]; simpl in *; [done |].
    destruct (Ascii.eqb_spec c "."%char) as [->|]; done.
  - destruct (Ascii.eqb c "."%char); [|by intros [= <- <-]].
    destruct (span is_digit s) as [ds r] eqn:Es. intros H Hd.
    rewrite (span_app _ _ rest _ _ Es) by by apply delim_digit.
    destruct (PyStr.empty ds); by injection H as <- <-.
Qed.

Lemma exp_part_app s rest a b :
  exp_part s = (a, b) -> delim rest = true -> exp_part (s +:+ rest) = (a, b +:+ rest).
Proof.
  destruct s as [|c s]; simpl.
  - intros [= <- <-] Hd. destruct rest as [|c r]; simpl in *; [done |].
    unfold numchar in Hd. destruct (is_exp c); [by rewrite ?orb_true_r in Hd | done].
  - destruct (is_exp c); [|by intros [= <- <-]].
    destruct (sign_part s) as [sg r1] eqn:E1.
    destruct (span is_digit r1) as [ds r2] eqn:E2. intros H Hd.
    rewrite (sign_part_app _ rest _ _ E1) by by apply delim_sign.
    rewrite (span_app _ _ rest _ _ E2) by by apply delim_digit.
    destruct (PyStr.empty ds); by injection H as <- <-.
Qed.

Lemma minus_part_app s rest a b :
  minus_part s = (a, b) -> s <> EmptyString -> minus_part (s +:+ rest) = (a, b +:+ rest).
Proof. destruct s as [|c s]; simpl; [done |]. by destruct (is_char "-" c); intros [= <- <-]. Qed.

Lemma pnum_app s v rest :
  pnum s = Some (v, EmptyString) -> delim rest = true -> pnum (s +:+ rest) = Some (v, rest).
Proof.
  unfold pnum. intros H Hd.
  destruct (decide (s = EmptyString)) as [->|Hs]; [done |].
  destruct (minus_part s) as [m s0] eqn:E0. rewrite (minus_part_app _ rest _ _ E0 Hs).
  destruct (int_part s0) as [ip s1] eqn:E1.
  destruct (frac_part s1) as [fp s2] eqn:E2. destruct (exp_part s2) as [ep s3] eqn:E3.
  destruct (PyStr.empty ip) eqn:Ei; [done |].
  rewrite (int_part_app _ rest _ _ E1 Hd Ei), (frac_part_app _ rest _ _ E2 Hd),
    (exp_part_app _ rest _ _ E3 Hd), Ei.
  destruct (PyStr.empty fp && PyStr.empty ep).
  - destruct (NilZero.int_of_string (m +:+ ip)); simpl in *; [|done]. by injection H as <- ->.
  - by injection H as <- ->.
Qed.

(** ** Integers *)

Lemma span_digits_all s : all_chars is_digit s = true -> span is_digit s = (s, EmptyString).
Proof.
  induction s as [|c s IH]; simpl; [done |]. unfold all_chars in *. simpl.
  intros [-> H]%andb_true_iff. by rewrite (IH H).
Qed.

Definition no_lead_zero (d : Decimal.uint) : Prop :=
  match d with Decimal.D0 Decimal.Nil => True | Decimal.D0 _ => False | Decimal.Nil => False | _ => True end.

Lemma unorm_no_lead d : no_lead_zero (Decimal.unorm d).
Proof.
  unfold Decimal.unorm. destruct (Decimal.nzhead d) eqn:E; simpl; auto.
  by apply nzhead_nonzero in E.
Qed.

Lemma to_int_shape z :
  (exists d, Z.to_int z = Decimal.Pos d /\ no_lead_zero d) \/
  (exists d, Z.to_int z = Decimal.Neg d /\ no_lead_zero d).
Proof.
  rewrite <- (of_to z), to_of. destruct (Z.to_int z) as [d | d]; simpl.
  - left. eexists. split; [done | apply unorm_no_lead].
  - destruct (Decimal.nzhead d) eqn:E; [left; by eexists (Decimal.D0 Decimal.Nil) |
      by apply nzhead_nonzero in E | right .. ]; (eexists; split; [done | done]).
Qed.

Lemma int_part_uint d :
  no_lead_zero d -> int_part (NilZero.string_of_uint d) = (NilZero.string_of_uint d, EmptyString).
Proof.
  intros H. pose proof (nilzero_uint_digits d) as Hd.
  destruct d as [|d|d|d|d|d|d|d|d|d|d]; try done; [by destruct d | ..];
    simpl in *; rewrite span_digits_all; done.
Qed.

Lemma pnum_int z : pnum (str_of_Z z) = Some (JInt z, EmptyString).
Proof.
  unfold str_of_Z.
  assert (NilZero.int_of_string (NilZero.string_of_int (Z.to_int z)) = Some (Z.to_int z)) as Hi.
  { apply NilZero.isi; destruct (to_int_shape z) as [(d & -> & Hd) | (d & -> & Hd)]; intros [= ->]; done. }
  destruct (to_int_shape z) as [(d & E & Hd) | (d & E & Hd)]; rewrite E in *; unfold pnum;
    pose proof (nilzero_uint_digits d) as Hdig; pose proof (nilzero_uint_nonempty d) as Hne;
    pose proof (int_part_uint d Hd) as Hip; pose proof (of_to z) as Hz; rewrite E in Hz; simpl NilZero.string_of_int in *.
  - destruct (NilZero.string_of_uint d) as [|c s] eqn:Es; [done |].
    assert (is_char "-" c = false) as Hc.
    { unfold all_chars in Hdig. simpl in Hdig. apply andb_true_iff in Hdig as [Hc _].
      unfold is_char. destruct (Ascii.eqb_spec "-"%char c) as [<-|]; done. }
    cbn [minus_part]. rewrite Hc, Hip. simpl. simpl in Hi. rewrite Hi. simpl in *. by rewrite Hz.
  - cbn [minus_part is_char]. rewrite Ascii.eqb_refl, Hip. simpl.
    destruct (PyStr.empty (NilZero.string_of_uint d)) eqn:Ee; [by destruct (NilZero.string_of_uint d) |].
    match goal with |- ?x ≫= _ = _ => change (x = Some (Decimal.Neg d)) in Hi; rewrite Hi end.
    simpl in *. by rewrite Hz.
Qed.

(** ** Strings *)

Lemma hex_val_digit z : 0 <= z < 16 -> hex_val (hex_digit z) = Some z.
Proof.
  intros H. unfold hex_val, hex_digit, is_digit, between.
  destruct (z <? 10) eqn:E; to_prop; rewrite code_chr by lia;
    repeat case_match; to_prop; try (f_equal; lia);
    repeat match goal with H : _ && _ = false |- _ => apply andb_false_iff in H as [?|?] end;
    to_prop; lia.
Qed.

(** One escaped character is read back as that character. *)
Lemma pstr_esc c t :
  pstr (esc_char c +:+ t) = ('(x, r) ← pstr t; Some (String c x, r)).
Proof.
  unfold esc_char.
  destruct (Ascii.eqb_spec c dquote) as [->|Hq]; [done |].
  destruct (Ascii.eqb_spec c bslash) as [->|Hb]; [done |].
  assert (forall n e, code c =? n = true -> chr n = e -> c = e) as Hc.
  { intros n e Hn <-. apply Z.eqb_eq in Hn as <-. by rewrite chr_code. }
  destruct (code c =? 10) eqn:E1; [by rewrite (Hc _ _ E1 eq_refl) |].
  destruct (code c =? 13) eqn:E2; [by rewrite (Hc _ _ E2 eq_refl) |].
  destruct (code c =? 9) eqn:E3; [by rewrite (Hc _ _ E3 eq_refl) |].
  destruct (code c =? 12) eqn:E4; [by rewrite (Hc _ _ E4 eq_refl) |].
  destruct (code c =? 8) eqn:E5; [by rewrite (Hc _ _ E5 eq_refl) |].
  clear Hc. pose proof (code_range c) as Hr.
  destruct (between 32 126 c) eqn:E6.
  - change (String c EmptyString +:+ t) with (String c t). cbn [pstr].
    rewrite (proj2 (Ascii.eqb_neq _ _) Hq), (proj2 (Ascii.eqb_neq _ _) Hb).
    unfold between in E6. to_prop. by rewrite (proj2 (Z.ltb_ge _ _)) by lia.
  - pose proof (Z.div_mod (code c) 16 ltac:(done)) as Hdm.
    pose proof (Z.mod_pos_bound (code c) 16 ltac:(done)) as Hm.
    assert (0 <= code c / 16 < 16) as Hd by lia.
    set (a := code c / 16) in *. set (b := code c mod 16) in *.
    assert (hex4 "0" "0" (hex_digit a) (hex_digit b) = Some c) as Hx.
    { unfold hex4. rewrite !hex_val_digit by done.
      change (hex_val "0") with (Some 0). cbn [mbind option_bind]. cbv zeta.
      replace (((0 * 16 + 0) * 16 + a) * 16 + b) with (code c) by lia.
      rewrite (proj2 (Z.ltb_lt _ _)) by lia. by rewrite chr_code. }
    transitivity
      (match hex4 "0" "0" (hex_digit a) (hex_digit b) with
       | Some d => '(x, r) ← pstr t; Some (String d x, r)
       | None => None
       end); [reflexivity | by rewrite Hx].
Qed.

Lemma pstr_escape s rest :
  pstr (escape s +:+ String dquote rest) = Some (s, rest).
Proof.
  induction s as [|c s IH].
  - change (pstr (String dquote rest) = Some (EmptyString, rest)). done.
  - cbn [escape]. rewrite str_assoc, pstr_esc, IH. done.
Qed.

(** ** Values *)

Definition float_ok (r : string) : bool :=
  nan_repr r || bool_decide (pnum r = Some (JFloat r, EmptyString)).

(** Values [json.loads] can build: dictionaries with distinct keys, floats in
    repr form. *)
#[warnings="-register-all"]
Inductive json_wf : json -> Prop :=
| wf_null : json_wf JNull
| wf_bool b : json_wf (JBool b)
| wf_int z : json_wf (JInt z)
| wf_float r : float_ok r = true -> json_wf (JFloat r)
| wf_str s : json_wf (JStr s)
| wf_arr l : Forall json_wf l -> json_wf (JArr l)
| wf_obj d : dict_wf d -> Forall (fun kv => json_wf kv.2) d -> json_wf (JObj d).

Fixpoint jsize (v : json) : nat :=
  match v with
  | JArr l => S (list_sum (map (fun x => S (jsize x)) l))
  | JObj d => S (list_sum (map (fun kv => S (jsize kv.2)) d))
  | _ => 1
  end%nat.

Definition style_ok (st : style) : Prop := st = compact \/ st = spaced.

(** A printed value starts with a character that is no blank and closes nothing. *)
Definition starter (s : string) : Prop :=
  match s with
  | String c _ => is_ws c = false /\ c <> "]"%char /\ c <> "}"%char
  | EmptyString => False
  end.

Lemma starter_skip s : starter s -> skip_ws s = s.
Proof. destruct s as [|c s]; simpl; [done |]. by intros [-> _]. Qed.

Lemma starter_app s t : starter s -> starter (s +:+ t).
Proof. by destruct s. Qed.

(** Which branch of [pvalue_step] a number takes. *)
Definition num_start (s : string) : Prop :=
  match s with
  | String c s' =>
      is_digit c = true \/
      (c = "-"%char /\ match s' with String i _ => i <> "I"%char | EmptyString => False end)
  | EmptyString => False
  end.

Lemma num_start_app s t : num_start s -> num_start (s +:+ t).
Proof.
  destruct s as [|c s]; [done |]. intros [H | [-> H]]; [by left | right]. by destruct s.
Qed.

Lemma pnum_start s v : pnum s = Some (v, EmptyString) -> num_start s.
Proof.
  destruct s as [|c s]; [done |]. intros H. simpl. unfold pnum in H. simpl in H.
  destruct (is_char "-" c) eqn:Em.
  - unfold is_char in Em. apply Ascii.eqb_eq in Em as <-. right. split; [done |].
    destruct s as [|i s]; [done |]. by intros ->.
  - left. destruct (is_digit c) eqn:Ed; [done |]. unfold int_part in H.
    destruct (Ascii.eqb_spec c "0"%char) as [->|]; [done |]. simpl in H. rewrite Ed in H.
    destruct (frac_part _) as [fp s2], (exp_part s2) as [ep s3]. discriminate H.
Qed.

Lemma digit_eqb c d : is_digit c = true -> is_digit d = false -> Ascii.eqb c d = false.
Proof. intros H1 H2. apply Ascii.eqb_neq. intros ->. congruence. Qed.

Lemma pvalue_num_start n s : num_start s -> pvalue (S n) s = pnum s.
Proof.
  destruct s as [|c s]; [done |]. intros [H | [-> H]]; cbn [pvalue]; unfold pvalue_step.
  - rewrite !(digit_eqb c) by done. cbn [starts_with].
    assert (Ascii.eqb "-" c = false) as -> by (apply Ascii.eqb_neq; by intros <-). done.
  - destruct s as [|i s]; [done |].
    assert (starts_with "-Infinity" (String "-" (String i s)) = false) as ->; [|done].
    change (Ascii.eqb "I" i && starts_with "nfinity" s = false).
    assert (Ascii.eqb "I" i = false) as ->; [|done]. apply Ascii.eqb_neq. by intros <-.
Qed.

(** A number followed by a delimiter. *)
Lemma pvalue_num n s v rest :
  pnum s = Some (v, EmptyString) -> delim rest = true ->
  pvalue (S n) (s +:+ rest) = Some (v, rest).
Proof.
  intros H Hd. rewrite pvalue_num_start by by eapply num_start_app, pnum_start.
  by apply pnum_app.
Qed.

Lemma num_starter s : num_start s -> starter s.
Proof.
  destruct s as [|c s]; [done |]. intros [H | [-> _]]; simpl.
  - unfold is_digit, between in H. to_prop. split_and!.
    + unfold is_ws. by rewrite !(proj2 (Z.eqb_neq _ _)) by lia.
    + by intros ->.
    + by intros ->.
  - by split_and!.
Qed.

Lemma starts_with_drop p s : str_drop (String.length p) (p +:+ s) = s.
Proof.
  unfold str_drop. rewrite <- length_chars, chars_app, drop_app_length. apply of_chars_chars.
Qed.

Lemma plit_app p v s : plit p v (p +:+ s) = Some (v, s).
Proof. unfold plit. by rewrite starts_with_app, starts_with_drop. Qed.

Lemma dump_starter st v : json_wf v -> starter (dump st v).
Proof.
  intros H. destruct v as [| [] | z | r | s | l | d]; try done.
  - apply num_starter. eapply pnum_start, pnum_int.
  - inversion H as [| | | ? Hf | | |]; subst. simpl. unfold dump_float.
    repeat case_bool_decide; try done. unfold float_ok, nan_repr in Hf.
    rewrite !(bool_decide_eq_false_2 (r = _)) in Hf by done. simpl in Hf. to_prop.
    by eapply num_starter, pnum_start.
Qed.

(** ** Arrays and objects, given the round trip of their elements *)

Definition reads (pv : string -> option (json * string)) (st : style) (v : json) : Prop :=
  forall rest, delim rest = true -> pv (dump st v +:+ rest) = Some (v, rest).

Lemma style_item st s : style_ok st -> exists b, item_sep st +:+ s = String "," (b +:+ s)
  /\ forall t, skip_ws (b +:+ t) = skip_ws t.
Proof. intros [-> | ->]; [by exists EmptyString | by exists " "%string]. Qed.

Lemma style_key st s : style_ok st -> exists b, key_sep st +:+ s = String ":" (b +:+ s)
  /\ forall t, skip_ws (b +:+ t) = skip_ws t.
Proof. intros [-> | ->]; [by exists EmptyString | by exists " "%string]. Qed.

Lemma join_cons2 sep x y l : join sep (x :: y :: l) = x +:+ sep +:+ join sep (y :: l).
Proof. done. Qed.

Lemma pitems_dump pv st l n rest :
  style_ok st -> l <> [] -> (length l <= n)%nat ->
  Forall (fun v => json_wf v /\ reads pv st v) l ->
  pitems pv n (join (item_sep st) (map (dump st) l) +:+ String "]" rest) = Some (l, rest).
Proof.
  intros Hst Hne Hn Hl. revert n Hn. induction Hl as [|v l [Hw Hv] Hl IH]; [done |]. clear Hne.
  intros [|n] Hn; simpl in Hn; [lia |]. destruct l as [|w l].
  - cbn [map join foldr]. rewrite str_app_nil. cbn [pitems]. by rewrite Hv.
  - cbn [map]. rewrite join_cons2, !str_assoc.
    destruct (style_item st (join (item_sep st) (dump st w :: map (dump st) l) +:+ String "]" rest) Hst)
      as (b & Eb & Hb). rewrite Eb. cbn [pitems]. rewrite Hv by done.
    cbn [mbind option_bind]. change (skip_ws (String "," ?x)) with (String "," x).
    change (Ascii.eqb "," "]") with false. cbv iota. change (Ascii.eqb "," ",") with true. cbv iota.
    rewrite Hb, starter_skip.
    + cbn [map] in IH. by rewrite IH by (done || simpl in *; lia).
    + inversion Hl as [|? ? [Hw2 _] _]; subst. unfold join.
      rewrite str_assoc. by apply starter_app, dump_starter.
Qed.

Definition member st (kv : string * json) : string := dump_str kv.1 +:+ key_sep st +:+ dump st kv.2.

Lemma pmembers_dump pv st d n rest :
  style_ok st -> d <> [] -> (length d <= n)%nat ->
  Forall (fun kv => json_wf kv.2 /\ reads pv st kv.2) d ->
  pmembers pv n (join (item_sep st) (map (member st) d) +:+ String "}" rest) = Some (d, rest).
Proof.
  intros Hst Hne Hn Hd. revert n Hn. induction Hd as [|[k v] d [Hw Hv] Hd IH]; [done |]. clear Hne.
  intros [|n] Hn; simpl in Hn; [lia |].
  assert (forall t pvs, delim t = true ->
    skip_ws (dump_str k +:+ key_sep st +:+ dump st v +:+ t) =
      String dquote (escape k +:+ String dquote (key_sep st +:+ dump st v +:+ t)) /\
    (match skip_ws (key_sep st +:+ dump st v +:+ t) with
     | String col r1 => if Ascii.eqb col ":" then '(v, r2) ← pv (skip_ws r1); pvs v r2 else None
     | EmptyString => None end) = (pvs v t : option (dict json * string))) as Hk.
  { intros t pvs Ht. split.
    - unfold dump_str. rewrite str_cons_app, str_assoc. done.
    - destruct (style_key st (dump st v +:+ t) Hst) as (b & -> & Hb).
      change (skip_ws (String ":" ?x)) with (String ":" x).
      change (Ascii.eqb ":" ":") with true. cbv iota.
      rewrite Hb, starter_skip by by apply starter_app, dump_starter. by rewrite Hv. }
  destruct d as [|[k2 v2] d].
  - cbn [map join foldr]. rewrite str_app_nil. unfold member. cbn [fst snd].
    rewrite !str_assoc. unfold dump_str. rewrite str_cons_app, str_assoc, str_cons_app. cbn [pmembers].
    change (Ascii.eqb dquote dquote) with true. cbv iota. rewrite pstr_escape. cbn [mbind option_bind].
    by rewrite (proj2 (Hk (String "}" rest) (fun v r2 => _) eq_refl)).
  - cbn [map]. rewrite join_cons2. unfold member at 1. cbn [fst snd]. rewrite !str_assoc.
    set (t := item_sep st +:+ _).
    assert (delim t = true) as Ht by (subst t; by destruct Hst as [-> | ->]).
    unfold dump_str. rewrite str_cons_app, str_assoc, str_cons_app. cbn [pmembers].
    change (Ascii.eqb dquote dquote) with true. cbv iota. rewrite pstr_escape. cbn [mbind option_bind].
    change (EmptyString +:+ ?x) with x.
    rewrite (proj2 (Hk t (fun v r2 => _) Ht)). subst t.
    match goal with |- context [item_sep st +:+ ?s] => destruct (style_item st s Hst) as (b & -> & Hb) end.
    change (skip_ws (String "," ?x)) with (String "," x).
    change (Ascii.eqb "," "}") with false. cbv iota. change (Ascii.eqb "," ",") with true. cbv iota.
    rewrite Hb. rewrite starter_skip.
    + cbn [map] in IH. by rewrite IH by (done || simpl in *; lia).
    + unfold join, member at 1, dump_str. cbn [fst snd]. rewrite !str_assoc, str_cons_app. by split_and!.
Qed.

Lemma build_dict_app (d acc : dict json) :
  dict_wf (acc ++ d) -> fold_left (fun d kv => dset d kv.1 kv.2) d acc = acc ++ d.
Proof.
  revert acc. induction d as [|[k v] d IH]; intros acc H; simpl; [by rewrite List.app_nil_r |].
  rewrite dset_app_new.
  - rewrite IH; rewrite <- app_assoc; done.
  - unfold dict_wf, dkeys in H. rewrite map_app in H. simpl in H.
    apply NoDup_app in H as (_ & H & _). intros Hin. apply (H k); [by apply list_elem_of_In | by left].
Qed.

Lemma build_dict_wf (d : dict json) : dict_wf d -> build_dict d = d.
Proof. intros. unfold build_dict. by rewrite (build_dict_app d []). Qed.

Lemma list_sum_ge {A} (f : A -> nat) (l : list A) x :
  In x l -> (f x <= list_sum (map f l))%nat.
Proof. induction l as [|y l IH]; simpl; [done |]. intros [-> | H]; [lia | apply IH in H; lia]. Qed.

Lemma list_sum_len {A} (f : A -> nat) (l : list A) :
  (length l <= list_sum (map (fun x => S (f x)) l))%nat.
Proof. induction l; simpl; lia. Qed.

Lemma pvalue_float st n r rest :
  float_ok r = true -> delim rest = true ->
  pvalue (S n) (dump st (JFloat r) +:+ rest) = Some (JFloat r, rest).
Proof.
  intros Hf Hd. simpl. unfold dump_float.
  case_bool_decide; [subst; apply (plit_app "NaN") |].
  case_bool_decide; [subst; apply (plit_app "Infinity") |].
  case_bool_decide; [subst; apply (plit_app "-Infinity") |].
  unfold float_ok, nan_repr in Hf. rewrite !(bool_decide_eq_false_2 (r = _)) in Hf by done.
  simpl in Hf. to_prop. by apply pvalue_num.
Qed.

Lemma pvalue_arr pv n st l rest :
  style_ok st -> (length l <= n)%nat -> Forall (fun v => json_wf v /\ reads pv st v) l ->
  pvalue_step pv n (dump st (JArr l) +:+ rest) = Some (JArr l, rest).
Proof.
  intros Hst Hn Hl. cbn [dump]. rewrite !str_assoc. change ("[" +:+ ?x) with (String "[" x).
  change ("]" +:+ rest) with (String "]" rest). unfold pvalue_step.
  change (Ascii.eqb "[" dquote) with false. cbv iota.
  change (Ascii.eqb "[" "[") with true. cbv iota.
  destruct l as [|v l]; [done |].
  assert (starter (join (item_sep st) (map (dump st) (v :: l)) +:+ String "]" rest)) as Hs.
  { inversion Hl as [|? ? [Hw _] _]; subst. cbn [map join]. rewrite str_assoc.
    by apply starter_app, dump_starter. }
  rewrite starter_skip by done. rewrite pitems_dump by done.
  destruct (join _ _ +:+ _) as [|c s]; [done |]. destruct Hs as (_ & Hc & _).
  by rewrite (proj2 (Ascii.eqb_neq _ _) Hc).
Qed.

Lemma pvalue_obj pv n st d rest :
  style_ok st -> (length d <= n)%nat -> dict_wf d ->
  Forall (fun kv => json_wf kv.2 /\ reads pv st kv.2) d ->
  pvalue_step pv n (dump st (JObj d) +:+ rest) = Some (JObj d, rest).
Proof.
  intros Hst Hn Hwf Hl. cbn [dump]. rewrite !str_assoc. change ("{" +:+ ?x) with (String "{" x).
  change ("}" +:+ rest) with (String "}" rest). unfold pvalue_step.
  change (Ascii.eqb "{" dquote) with false. cbv iota.
  change (Ascii.eqb "{" "[") with false. cbv iota.
  change (Ascii.eqb "{" "{") with true. cbv iota.
  destruct d as [|kv d]; [done |].
  change (map (fun kv => dump_str kv.1 +:+ key_sep st +:+ dump st kv.2) (kv :: d))
    with (map (member st) (kv :: d)).
  assert (exists s, join (item_sep st) (map (member st) (kv :: d)) +:+ String "}" rest = String dquote s) as [s Es].
  { cbn [map join]. unfold member at 1, dump_str. rewrite !str_assoc, str_cons_app. eauto. }
  assert (skip_ws (join (item_sep st) (map (member st) (kv :: d)) +:+ String "}" rest)
    = join (item_sep st) (map (member st) (kv :: d)) +:+ String "}" rest) as -> by by rewrite Es.
  rewrite pmembers_dump by done. rewrite Es. cbn [mbind option_bind]. by rewrite build_dict_wf.
Qed.

(** A printed value followed by a delimiter is read back exactly. *)
Lemma pvalue_dump v : json_wf v -> forall st n rest,
  style_ok st -> (jsize v <= n)%nat -> delim rest = true ->
  pvalue n (dump st v +:+ rest) = Some (v, rest).
Proof.
  induction v as [| b | z | r | s | l IH | d IH] using json_ind'; intros Hw st n rest Hst Hn Hd;
    (destruct n as [|n]; [simpl in Hn; lia |]).
  - apply (plit_app "null").
  - destruct b; [apply (plit_app "true") | apply (plit_app "false")].
  - apply pvalue_num; [apply pnum_int | done].
  - inversion Hw; subst. by apply pvalue_float.
  - cbn [dump]. unfold dump_str. rewrite str_cons_app, str_assoc.
    change (pvalue_step (pvalue n) (S n) (String dquote (escape s +:+ String dquote rest)) = Some (JStr s, rest)).
    unfold pvalue_step. change (Ascii.eqb dquote dquote) with true. cbv iota. by rewrite pstr_escape.
  - inversion Hw as [| | | | | ? Hl |]; subst. cbn [jsize] in Hn. cbn [pvalue].
    apply pvalue_arr; [done | pose proof (list_sum_len jsize l); lia |].
    apply Forall_forall. intros x Hx. rewrite Forall_forall in Hl, IH. split; [auto |].
    intros t Ht. apply IH; auto.
    apply list_elem_of_In in Hx. pose proof (list_sum_ge (fun x => S (jsize x)) l x Hx). simpl in *. lia.
  - inversion Hw as [| | | | | | ? Hwf Hl]; subst. cbn [jsize] in Hn. cbn [pvalue].
    apply pvalue_obj; [done | pose proof (list_sum_len (fun kv => jsize kv.2) d); lia | done |].
    apply Forall_forall. intros x Hx. rewrite Forall_forall in Hl, IH. split; [auto |].
    intros t Ht. apply IH; auto.
    apply list_elem_of_In in Hx. pose proof (list_sum_ge (fun kv => S (jsize kv.2)) d x Hx). simpl in *. lia.
Qed.

Lemma starter_len s : starter s -> 1 <= len s.
Proof. destruct s; [done |]. intros _. unfold len. simpl. lia. Qed.

(** ** Fuel *)

Lemma len_join_ge {A} (f : A -> nat) (g : A -> string) sep (l : list A) :
  1 <= len sep -> Forall (fun x => Z.of_nat (f x) <= len (g x)) l ->
  Z.of_nat (list_sum (map (fun x => S (f x)) l)) <= len (join sep (map g l)) + 1.
Proof.
  intros Hsep H. destruct H as [|x l Hx Hl]; [simpl; pose proof (len_nonneg EmptyString); lia |].
  cbn [map join]. rewrite len_app. cbn [list_sum foldr].
  assert (Z.of_nat (list_sum (map (fun x => S (f x)) l))
    <= len (foldr (fun y acc => sep +:+ y +:+ acc) EmptyString (map g l))) as Hr.
  { clear Hx x. induction Hl as [|y l Hy Hl IH]; simpl; [done |]. rewrite !len_app. lia. }
  unfold list_sum in Hr. lia.
Qed.

Lemma style_sep_len st : style_ok st -> 1 <= len (item_sep st).
Proof. by intros [-> | ->]. Qed.

Lemma jsize_dump st v : style_ok st -> json_wf v -> Z.of_nat (jsize v) <= len (dump st v).
Proof.
  intros Hst. induction v as [| b | z | r | s | l IH | d IH] using json_ind'; intros Hw;
    try (apply starter_len, (dump_starter st) in Hw || apply (dump_starter st) in Hw; by apply starter_len).
  - inversion Hw as [| | | | | ? Hl |]; subst. cbn [dump jsize]. rewrite !len_app.
    assert (Forall (fun x => Z.of_nat (jsize x) <= len (dump st x)) l) as H.
    { apply Forall_forall. intros x Hx. rewrite Forall_forall in Hl, IH. auto. }
    pose proof (len_join_ge jsize (dump st) (item_sep st) l (style_sep_len _ Hst) H).
    change (len "[") with 1. change (len "]") with 1. lia.
  - inversion Hw as [| | | | | | ? _ Hl]; subst. cbn [dump jsize]. rewrite !len_app.
    assert (Forall (fun kv => Z.of_nat (jsize kv.2) <= len (member st kv)) d) as H.
    { apply Forall_forall. intros x Hx. rewrite Forall_forall in Hl, IH.
      unfold member. rewrite !len_app. specialize (IH x Hx (Hl x Hx)).
      pose proof (len_nonneg (dump_str x.1)). pose proof (len_nonneg (key_sep st)). lia. }
    pose proof (len_join_ge (fun kv => jsize kv.2) (member st) (item_sep st) d (style_sep_len _ Hst) H) as Hj.
    change (len "{") with 1. change (len "}") with 1. unfold member in Hj. lia.
Qed.

(** A printed value followed by blanks is read back. *)
Lemma loads_dump_blank st v rest :
  style_ok st -> json_wf v -> delim rest = true -> skip_ws rest = EmptyString -> loads (dump st v +:+ rest) = Ok v.
Proof.
  intros Hst Hw Hd Hr. unfold loads. rewrite (starter_skip _ (starter_app _ _ (dump_starter st v Hw))).
  rewrite (pvalue_dump v Hw st _ rest Hst); [by rewrite Hr | | done].
  pose proof (jsize_dump st v Hst Hw). pose proof (len_app (dump st v) rest). pose proof (len_nonneg rest).
  unfold len in *. lia.
Qed.

(** [json.loads(json.dumps(v)) = v], for both separator styles. *)
Lemma loads_dump st v : style_ok st -> json_wf v -> loads (dump st v) = Ok v.
Proof. intros Hst Hw. rewrite <- (str_app_nil (dump st v)). by apply loads_dump_blank. Qed.

(** ** Sorted keys *)

Lemma insert_key_keys {A} (kv : string * A) d x :
  In x (insert_key kv d) <-> x = kv \/ In x d.
Proof.
  induction d as [|kv' d IH]; simpl; [naive_solver |].
  destruct (String.leb kv.1 kv'.1); simpl; [naive_solver |]. rewrite IH. naive_solver.
Qed.

Lemma sort_keys_In {A} (d : dict A) x : In x (sort_keys d) <-> In x d.
Proof.
  induction d as [|kv d IH]; simpl; [done |]. rewrite insert_key_keys, IH. naive_solver.
Qed.

Lemma insert_key_wf {A} (kv : string * A) d :
  dict_wf d -> ~ In kv.1 (dkeys d) -> dict_wf (insert_key kv d).
Proof.
  unfold dict_wf, dkeys. induction d as [|kv' d IH]; simpl; intros Hd Hn.
  - apply NoDup_singleton.
  - apply NoDup_cons in Hd as [Hn' Hd]. destruct (String.leb kv.1 kv'.1); simpl.
    + apply NoDup_cons. split; [intros [E | E]%elem_of_cons | by apply NoDup_cons];
        [apply Hn; left; congruence | apply Hn; right; by apply list_elem_of_In].
    + apply NoDup_cons. split; [|apply IH; [done | tauto]].
      intros E. apply list_elem_of_In, in_map_iff in E as (x & E1 & [-> | E2]%insert_key_keys).
      * apply Hn. by left.
      * apply Hn', list_elem_of_In, in_map_iff. by exists x.
Qed.

Lemma sort_keys_wf {A} (d : dict A) : dict_wf d -> dict_wf (sort_keys d).
Proof.
  induction d as [|kv d IH]; simpl; [done |]. intros [Hn Hd]%NoDup_cons.
  apply insert_key_wf; [auto |]. intros (x & E & Hx)%in_map_iff. rewrite sort_keys_In in Hx.
  apply Hn, list_elem_of_In, in_map_iff. by exists x.
Qed.

(** Each key is no larger than the next. *)
Fixpoint keys_sorted {A} (d : dict A) : Prop :=
  match d with
  | kv :: ((kv' :: _) as d') => String.leb kv.1 kv'.1 = true /\ keys_sorted d'
  | _ => True
  end.

Lemma insert_key_sorted {A} (kv : string * A) d : keys_sorted d -> keys_sorted (insert_key kv d).
Proof.
  induction d as [|kv' d IH]; [done |]. intros H. cbn [insert_key].
  destruct (String.leb kv.1 kv'.1) eqn:E; [by split |].
  assert (String.leb kv'.1 kv.1 = true) as E' by (destruct (String.leb_total kv.1 kv'.1); congruence).
  destruct d as [|kv2 d]; [by split |]. destruct H as [H1 H2]. cbn [insert_key] in *.
  specialize (IH H2). by destruct (String.leb kv.1 kv2.1).
Qed.

Lemma sort_keys_sorted {A} (d : dict A) : keys_sorted (sort_keys d).
Proof. induction d; [done | by apply insert_key_sorted]. Qed.

Lemma sort_keys_id {A} (d : dict A) : keys_sorted d -> sort_keys d = d.
Proof.
  induction d as [|kv d IH]; [done |]. intros H. cbn [sort_keys foldr].
  fold (sort_keys d). destruct d as [|kv' d]; [done |]. destruct H as [H1 H2].
  rewrite IH by done. cbn [insert_key]. by rewrite H1.
Qed.

Lemma keys_sorted_map {A B} (f : A -> B) (d : dict A) :
  keys_sorted d -> keys_sorted (map (fun kv => (kv.1, f kv.2)) d).
Proof. induction d as [|kv [|kv' d] IH]; [done | done |]. intros [H1 H2]. split; auto. Qed.

Lemma insert_key_map {A B} (f : A -> B) kv d :
  map (fun kv => (kv.1, f kv.2)) (insert_key kv d)
  = insert_key (kv.1, f kv.2) (map (fun kv => (kv.1, f kv.2)) d).
Proof. induction d as [|kv' d IH]; simpl; [done |]. destruct (String.leb _ _); simpl; congruence. Qed.

Lemma sort_keys_map {A B} (f : A -> B) (d : dict A) :
  map (fun kv => (kv.1, f kv.2)) (sort_keys d) = sort_keys (map (fun kv => (kv.1, f kv.2)) d).
Proof. induction d as [|kv d IH]; simpl; [done |]. by rewrite insert_key_map, IH. Qed.

Lemma norm_idem v : norm (norm v) = norm v.
Proof.
  induction v as [| | | | | l IH | d IH] using json_ind'; try done; simpl; f_equal.
  - rewrite map_map. apply map_ext_in. intros x Hx. rewrite Forall_forall in IH. apply IH. by apply list_elem_of_In.
  - rewrite sort_keys_map, map_map. cbn [fst snd].
    rewrite (map_ext_in _ (fun kv => (kv.1, norm kv.2)) d).
    + apply sort_keys_id, sort_keys_sorted.
    + intros x Hx. rewrite Forall_forall in IH. f_equal. apply IH. by apply list_elem_of_In.
Qed.

Lemma norm_wf v : json_wf v -> json_wf (norm v).
Proof.
  induction v as [| | | | | l IH | d IH] using json_ind'; intros Hw; try done; simpl; constructor.
  - inversion Hw as [| | | | | ? Hl |]; subst. apply Forall_map. rewrite Forall_forall in *. auto.
  - inversion Hw as [| | | | | | ? Hd Hl]; subst. apply sort_keys_wf.
    unfold dict_wf, dkeys. by rewrite map_map.
  - inversion Hw as [| | | | | | ? Hd Hl]; subst. apply Forall_forall. intros x Hx.
    apply list_elem_of_In, sort_keys_In, in_map_iff in Hx as (y & <- & Hy).
    apply list_elem_of_In in Hy. rewrite Forall_forall in *. simpl. auto.
Qed.

Lemma norm_has_nan v : has_nan (norm v) = has_nan v.
Proof.
  induction v as [| | | | | l IH | d IH] using json_ind'; try done; simpl; apply eq_true_iff_eq;
    rewrite !existsb_exists.
  - split.
    + intros (x & (y & <- & Hy)%in_map_iff & Hx). exists y. split; [done |].
      rewrite Forall_forall in IH. rewrite <- IH; [done | by apply list_elem_of_In].
    + intros (x & Hx & Hn). exists (norm x). split; [apply in_map_iff; eauto |].
      rewrite Forall_forall in IH. rewrite IH; [done | by apply list_elem_of_In].
  - split.
    + intros (x & Hx & Hn). apply sort_keys_In, in_map_iff in Hx as (y & <- & Hy). exists y. split; [done |].
      rewrite Forall_forall in IH. rewrite <- IH; [done | by apply list_elem_of_In].
    + intros (x & Hx & Hn). exists (x.1, norm x.2). split; [apply sort_keys_In, in_map_iff; eauto |].
      rewrite Forall_forall in IH. simpl. rewrite IH; [done | by apply list_elem_of_In].
Qed.

(** [json.loads(json.dumps(v, sort_keys=True))] is [v] with sorted keys. *)
Lemma loads_dump_norm st v : style_ok st -> json_wf v -> loads (dump st (norm v)) = Ok (norm v).
Proof. intros. apply loads_dump; [done | by apply norm_wf]. Qed.

(** A sorted text determines its value up to key order. *)
Lemma dump_norm_inj st v w :
  style_ok st -> json_wf v -> json_wf w -> dump st (norm v) = dump st (norm w) -> norm v = norm w.
Proof.
  intros Hst Hv Hw E. assert (Ok (norm v) = Ok (norm w)) as H; [|by injection H].
  rewrite <- (loads_dump_norm st v), <- (loads_dump_norm st w) by done. by rewrite E.
Qed.
