(* ===== verification/Policy.v ===== *)
(** Per-caller policy: broker/policy.py, and the policy builders of
    broker/operations.py.

    A stored policy is a JSON object with at most the keys [tools], [enabled]
    and [disabled_functions]; [policy] is that object with the presence of each
    key explicit.  Effects are arbitrary strings, as in the stored JSON. *)

From stdpp Require Import base tactics list strings.
From Stdlib Require Import ZArith Lia Ascii.
From S2P Require Import Prelude PyStr Json.

Inductive effect := ALLOW | REVIEW | DENY.

#[export] Instance effect_eq_dec : EqDecision effect.
Proof. solve_decision. Defined.

Definition effect_text (e : effect) : string :=
  match e with ALLOW => "allow" | REVIEW => "review" | DENY => "deny" end.

Record policy := Policy {
  p_tools : option (dict (dict string));
  p_enabled : option (list string);
  p_disabled : option (dict (list string))
}.

(** [{}]: what [policy_for] returns for a caller without a row. *)
Definition no_policy : policy := Policy None None None.

#[export] Instance policy_eq_dec : EqDecision policy.
Proof. solve_decision. Defined.

(** [x in l]. *)
Definition mem_str (x : string) (l : list string) : bool := existsb (String.eqb x) l.

Lemma mem_str_In x l : mem_str x l = true <-> In x l.
Proof.
  unfold mem_str. rewrite existsb_exists. split; [|intros H; exists x; by rewrite String.eqb_refl].
  by intros (y & Hy & ->%String.eqb_eq).
Qed.

(** ** policy.py *)

Definition _norm (e : option string) : effect :=
  match e with
  | Some s => if String.eqb s "allow" then ALLOW else if String.eqb s "review" then REVIEW else DENY
  | None => DENY
  end.

Definition decide_op (p : policy) (tool op : string) : effect :=
  if bool_decide (is_Some (p_disabled p)) && bool_decide (is_Some (p_enabled p))
     && negb (mem_str tool (default [] (p_enabled p)))
  then DENY
  else if mem_str op (default [] (dget (default [] (p_disabled p)) tool)) then DENY
  else _norm (dget (default [] (dget (default [] (p_tools p)) tool)) op).

(** ** The policy text [json.dumps(policy, sort_keys=True)] binds *)

Definition jlist (l : list string) : json := JArr (map JStr l).

Definition policy_json (p : policy) : json :=
  JObj (match p_tools p with
        | Some t => [("tools"%string, JObj (map (fun kv => (kv.1, JObj (map (fun oe => (oe.1, JStr oe.2)) kv.2))) t))]
        | None => [] end ++
        match p_enabled p with Some l => [("enabled"%string, jlist l)] | None => [] end ++
        match p_disabled p with
        | Some d => [("disabled_functions"%string, JObj (map (fun kv => (kv.1, jlist kv.2)) d))]
        | None => [] end).

Definition policy_text (p : policy) : string := dumps_sorted (policy_json p).

(** ** operations.py: build_policy and enabled_tools *)

(** [tools.setdefault(tool, {})[op] = effect] for [tool, _, op = spec.partition(".")]. *)
Definition grant (eff : effect) (tools : dict (dict string)) (spec : string) : dict (dict string) :=
  let '(tool, _, op) := partition_char "."%char spec in
  dset tools tool (dset (default [] (dget tools tool)) op (effect_text eff)).

Definition grant_all (eff : effect) (specs : list string) (tools : dict (dict string)) :=
  fold_left (grant eff) specs tools.

Definition build_policy (allow review deny : list string) : policy :=
  Policy (Some (grant_all DENY deny (grant_all ALLOW allow (grant_all REVIEW review [])))) None None.

Fixpoint insert_str (x : string) (l : list string) : list string :=
  match l with
  | [] => [x]
  | y :: l' => if String.eqb x y then l else if String.leb x y then x :: l else y :: insert_str x l'
  end.
(** [sorted(set(l))]. *)
Definition sorted_set (l : list string) : list string := foldr insert_str [] l.

Definition enabled_tools (p : policy) : list string :=
  match p_disabled p, p_enabled p with
  | Some _, Some e => sorted_set e
  | _, _ => sorted_set (default [] (p_enabled p) ++ dkeys (default [] (p_tools p)))
  end.

(** [list(dict.fromkeys(l))]. *)
Definition dedup (l : list string) : list string :=
  fold_left (fun acc x => if mem_str x acc then acc else acc ++ [x]) l [].

(** The policy [operations.set_enabled_tools] stores. *)
Definition enable_policy (prior : policy) (enabled : list string) : policy :=
  let enabled := dedup enabled in
  let tools := List.filter (fun kv => mem_str kv.1 enabled) (default [] (p_tools prior)) in
  match p_disabled prior with
  | Some d => Policy (Some tools) (Some enabled) (Some d)
  | None => Policy (Some tools) (match enabled with [] => None | _ => Some enabled end) None
  end.

(** The policy [operations.set_policy] stores: new grants, the enablement of
    the policy before. *)
Definition replace_grants (before : policy) (allow review deny : list string) : policy :=
  Policy (p_tools (build_policy allow review deny)) (p_enabled before) (p_disabled before).

(** ** Facts *)

(** The effect a list of grants leaves for [tool.op]. *)
Definition rule (tools : dict (dict string)) (tool op : string) : option string :=
  dget (default [] (dget tools tool)) op.

Definition spec_is (tool op spec : string) : bool :=
  let '(t, _, o) := partition_char "."%char spec in String.eqb t tool && String.eqb o op.

Lemma rule_grant eff tools spec tool op :
  rule (grant eff tools spec) tool op
  = if spec_is tool op spec then Some (effect_text eff) else rule tools tool op.
Proof.
  unfold rule, grant, spec_is. destruct (partition_char "." spec) as [[t f] o].
  rewrite dget_dset. destruct (String.eqb_spec t tool) as [->|Ht]; simpl.
  - rewrite decide_True by done. simpl. rewrite dget_dset.
    destruct (String.eqb_spec o op) as [->|Ho]; [by rewrite decide_True | by rewrite decide_False].
  - by rewrite decide_False.
Qed.

Lemma rule_grant_all eff specs tools tool op :
  rule (grant_all eff specs tools) tool op
  = if existsb (spec_is tool op) specs then Some (effect_text eff) else rule tools tool op.
Proof.
  unfold grant_all. revert tools. induction specs as [|s specs IH]; intros tools; simpl; [done |].
  rewrite IH, rule_grant. destruct (spec_is tool op s), (existsb _ specs); done.
Qed.

(** A well-formed spec names exactly its tool and operation. *)
Lemma partition_join tool op :
  ~ In "."%char (chars tool) -> partition_char "." (tool +:+ String "." op) = (tool, true, op).
Proof.
  induction tool as [|c s IH]; intros H; [done |].
  rewrite str_cons_app. cbn [partition_char].
  assert (Ascii.eqb "." c = false) as -> by (apply Ascii.eqb_neq; intros <-; apply H; by left).
  rewrite IH; [done |]. intros Hi. apply H. by right.
Qed.

Lemma partition_rejoin s t o : partition_char "." s = (t, true, o) -> s = t +:+ String "." o.
Proof.
  revert t. induction s as [|c s IH]; intros t; [done |]. cbn [partition_char].
  destruct (Ascii.eqb_spec "." c) as [<-|]; [by intros [= <- <-] |].
  destruct (partition_char "." s) as [[h f] o'] eqn:E. intros [= <- -> ->].
  rewrite str_cons_app. f_equal. by apply IH.
Qed.

(** A tool the operator has not enabled is denied, whatever else the policy says. *)
Lemma decide_not_enabled p tool op d e :
  p_disabled p = Some d -> p_enabled p = Some e -> ~ In tool e -> decide_op p tool op = DENY.
Proof.
  intros Hd He Hn. unfold decide_op. rewrite Hd, He. simpl.
  destruct (mem_str tool e) eqn:E; [by apply mem_str_In in E | done].
Qed.

Lemma decide_no_rule p tool op : rule (default [] (p_tools p)) tool op = None -> decide_op p tool op = DENY.
Proof. unfold decide_op, rule. intros ->. by repeat case_match. Qed.

Lemma dedup_acc_In l acc x :
  In x (fold_left (fun acc x => if mem_str x acc then acc else acc ++ [x]) l acc) <-> In x acc \/ In x l.
Proof.
  revert acc. induction l as [|y l IH]; intros acc; simpl; [tauto |].
  rewrite IH. destruct (mem_str y acc) eqn:E.
  - apply mem_str_In in E. naive_solver.
  - rewrite in_app_iff. simpl. tauto.
Qed.

Lemma dedup_In l x : In x (dedup l) <-> In x l.
Proof. unfold dedup. rewrite dedup_acc_In. simpl. tauto. Qed.

Lemma dget_filter_key {A} (f : string -> bool) (d : dict A) k :
  dget (List.filter (fun kv => f kv.1) d) k = if f k then dget d k else None.
Proof.
  induction d as [|[k' v] d IH]; simpl; [by destruct (f k) |].
  destruct (f k') eqn:E; simpl; repeat case_decide; subst; rewrite ?E, ?IH; try done.
  by rewrite E.
Qed.

Lemma insert_str_In x y l : In x (insert_str y l) <-> x = y \/ In x l.
Proof.
  induction l as [|z l IH]; simpl; [naive_solver |].
  destruct (String.eqb_spec y z) as [->|]; [simpl; naive_solver |].
  destruct (String.leb y z); simpl; [naive_solver | rewrite IH; naive_solver].
Qed.

Lemma sorted_set_In x l : In x (sorted_set l) <-> In x l.
Proof. induction l as [|y l IH]; simpl; [done |]. rewrite insert_str_In, IH. naive_solver. Qed.

(** ** Properties *)

(** Default deny: [decide] allows (or asks for review of) an operation
    only if the policy has a rule for exactly that tool and operation with
    exactly that effect, the operation is not listed as disabled, and a managed
    policy ([enabled] and [disabled_functions] both present) enables the tool. *)
Theorem decide_default_deny (p : policy) (tool op : string) (e : effect) :
  e <> DENY ->
  decide_op p tool op = e <->
  (rule (default [] (p_tools p)) tool op = Some (effect_text e)
   /\ ~ In op (default [] (dget (default [] (p_disabled p)) tool))
   /\ (p_disabled p <> None -> p_enabled p <> None -> In tool (default [] (p_enabled p)))).
Proof.
  intros He. unfold decide_op, rule.
  set (r := dget (default [] (dget (default [] (p_tools p)) tool)) op).
  assert (_norm r = e <-> r = Some (effect_text e)) as Hn.
  { unfold _norm. destruct r as [s|]; [|split; [by intros <- | done]].
    destruct (String.eqb_spec s "allow") as [->|]; [split; [by intros <- | intros [= H]; by destruct e] |].
    destruct (String.eqb_spec s "review") as [->|]; [split; [by intros <- | intros [= H]; by destruct e] |].
    split; [by intros <- | intros [= ->]; by destruct e]. }
  pose proof (mem_str_In op (default [] (dget (default [] (p_disabled p)) tool))) as Hm.
  pose proof (mem_str_In tool (default [] (p_enabled p))) as Ht.
  destruct (p_disabled p) as [d|], (p_enabled p) as [en|]; simpl in *;
    repeat match goal with |- context [mem_str ?a ?b] => destruct (mem_str a b) end; simpl;
    try rewrite Hn; naive_solver.
Qed.

(** Applies C1 to a policy that allows [echo.say]. *)
Lemma decide_default_deny_witness :
  decide_op (build_policy ["echo.say"%string] [] []) "echo" "say" = ALLOW
  /\ rule (default [] (p_tools (build_policy ["echo.say"%string] [] []))) "echo" "say" = Some "allow"%string.
Proof.
  assert (decide_op (build_policy ["echo.say"%string] [] []) "echo" "say" = ALLOW) as H by reflexivity.
  split; [exact H |].
  exact (proj1 (proj1 (decide_default_deny _ _ _ ALLOW ltac:(discriminate)) H)).
Defined.

(** Precedence of [build_policy]: for a tool id without a dot the resulting
    policy denies an operation named in [deny], else allows one named in
    [allow], else reviews one named in [review], else denies. *)
Theorem build_policy_precedence (allow review deny : list string) (tool op : string) :
  decide_op (build_policy allow review deny) tool op
  = if existsb (spec_is tool op) deny then DENY
    else if existsb (spec_is tool op) allow then ALLOW
    else if existsb (spec_is tool op) review then REVIEW
    else DENY.
Proof.
  unfold decide_op, build_policy. simpl.
  change (dget (default [] (dget ?t tool)) op) with (rule t tool op).
  rewrite !rule_grant_all. by repeat case_match.
Qed.

(** Disabling a tool revokes it: under the policy [set_enabled_tools]
    stores, every operation of a tool that is not enabled is denied, and an
    enabled tool keeps exactly the decisions of the prior grants. *)
Theorem enable_policy_revokes (prior : policy) (enabled : list string) (tool op : string) :
  decide_op (enable_policy prior enabled) tool op
  = if mem_str tool enabled
    then decide_op (Policy (p_tools prior) (Some enabled) (p_disabled prior)) tool op
    else DENY.
Proof.
  assert (mem_str tool (dedup enabled) = mem_str tool enabled) as Hm.
  { apply eq_true_iff_eq. by rewrite !mem_str_In, dedup_In. }
  unfold enable_policy, decide_op. simpl.
  destruct (p_disabled prior) as [d|]; simpl; rewrite ?(dget_filter_key (fun t => mem_str t (dedup enabled))), ?Hm.
  - destruct (mem_str tool enabled); simpl; [done |]. done.
  - change (bool_decide (is_Some None)) with false. simpl.
    destruct (mem_str tool enabled); done.
Qed.
