(* ===== verification/Action.v ===== *)
(** The bound action and its approval summary: broker/approval_summary.py.

    [bound_request] builds the canonical private action whose digest a human
    approves; [summarize] builds the bounded, masked text shown with it. *)

From stdpp Require Import base tactics list strings.
From Stdlib Require Import ZArith Lia Ascii.
From S2P Require Import Prelude PyStr Json JsonFacts.

(** hashlib.sha256(text.encode()).hexdigest(), as an interface: nothing below
    depends on which function it is. *)
Class Digest := { sha256_hex : string -> string }.

(** The instance of the concrete examples. *)
Definition echo_digest : Digest := {| sha256_hex := fun s => s |}.

(** ** canonical and bound_request *)

Definition canonical_text (v : json) : string := dump compact (norm v).

(** [allow_nan=False] refuses NaN and the infinities. *)
Definition canonical (v : json) : res string :=
  if has_nan v then Raise ValueError else Ok (canonical_text v).

Definition action_obj (caller_id : Z) (tool op generation : string) (arguments reason nonce : json) : json :=
  JObj [("caller_id"%string, JInt caller_id); ("tool"%string, JStr tool); ("op"%string, JStr op);
        ("operation_generation"%string, JStr generation); ("arguments"%string, arguments);
        ("reason"%string, reason); ("nonce"%string, nonce)].

Section Bound.
Context `{Digest}.

(** The action text and its digest, for a nonce the caller chose or drew. *)
Definition bound_request (caller_id : Z) (tool op generation : string)
    (arguments reason nonce : json) : res (string * string) :=
  action ← canonical (action_obj caller_id tool op generation arguments reason nonce);
  Ok (action, sha256_hex action).
End Bound.

(** ** validate_fields *)

Fixpoint bad_tilde (l : list ascii) : bool :=
  match l with
  | c :: l' =>
      (is_char "~" c && match l' with d :: _ => negb (is_char "0" d || is_char "1" d) | [] => true end)
      || bad_tilde l'
  | [] => false
  end.

Definition pointer_ok (p : string) : bool :=
  starts_with "/" p && negb (contains "*" p) && (len p <=? 256) && negb (bad_tilde (chars p)).

Fixpoint str_list (l : list json) : option (list string) :=
  match l with
  | [] => Some []
  | JStr s :: l' => r ← str_list l'; Some (s :: r)
  | _ => None
  end.

Definition validate_fields (fields : json) : res (list string) :=
  match fields with
  | JArr l =>
      if 32 <? Z.of_nat (length l) then Raise ValueError else
      match str_list l with
      | Some ps => if forallb pointer_ok ps && bool_decide (NoDup ps) then Ok ps else Raise ValueError
      | None => Raise ValueError
      end
  | _ => Raise ValueError
  end.

(** ** Masking *)

Definition SENSITIVE_PARTS : list string :=
  ["password"; "passwd"; "passphrase"; "secret"; "token"; "credential"; "apikey"; "authorization";
   "cookie"; "privatekey"; "session"; "bearer"]%string.
Definition SENSITIVE_NAMES : list string :=
  ["pwd"; "auth"; "accesskey"; "key"; "pin"; "otp"; "ssn"; "reason"; "justification"]%string.

Definition sensitive (name : string) : bool :=
  let n := of_chars (List.filter (fun c => is_lower c || is_digit c) (chars (lower name))) in
  existsb (fun p => contains p n) SENSITIVE_PARTS || existsb (String.eqb n) SENSITIVE_NAMES.

Definition MASKED : json := JStr "[MASKED]".

(** [_mask(value, 4 - fuel)]. *)
Fixpoint mask (fuel : nat) (v : json) : json :=
  match v, fuel with
  | JObj _, O | JArr _, O => JStr "[OMITTED: nesting limit]"
  | JObj d, S fuel =>
      let step acc kv :=
        if 64 <? len kv.1 then dset acc "[OMITTED: long field name]" MASKED
        else dset acc kv.1 (if sensitive kv.1 then MASKED else mask fuel kv.2) in
      let result := fold_left step (take 16 d) [] in
      JObj (if 16 <? Z.of_nat (length d)
            then dset result "[OMITTED]"
                   (JStr (str_of_Z (Z.of_nat (length d) - 16) +:+ " additional fields"))
            else result)
  | JArr l, S fuel =>
      JArr (map (mask fuel) (take 16 l) ++
            (if 16 <? Z.of_nat (length l)
             then [JStr ("[OMITTED: " +:+ str_of_Z (Z.of_nat (length l) - 16) +:+ " additional items]")]
             else []))
  | JStr s, _ => if 256 <? len s then JStr (str_take 256 s +:+ "[TRUNCATED: remaining text omitted]") else v
  | _, _ => v
  end.

(** ** summarize *)

(** [s.replace(ab, c)] for a two-character pattern. *)
Fixpoint replace2 (a b c : ascii) (s : string) : string :=
  match s with
  | String x ((String y r) as s') =>
      if Ascii.eqb x a && Ascii.eqb y b then String c (replace2 a b c r) else String x (replace2 a b c s')
  | _ => s
  end.

Definition pointer_parts (pointer : string) : list string :=
  map (fun p => replace2 "~" "0" "~" (replace2 "~" "1" "/" p)) (split_char "/" (str_drop 1 pointer)).

(** [re.fullmatch(r"0|[1-9][0-9]*", part)]. *)
Definition index_text (p : string) : bool :=
  match p with
  | String c s' => if Ascii.eqb c "0" then PyStr.empty s' else is_digit c && all_chars is_digit s'
  | EmptyString => false
  end.

Definition index_step (v : json) (part : string) : option json :=
  match v with
  | JArr l => if index_text part then nth_error l (Z.to_nat (digits_to_Z part)) else None
  | JObj d => dget d part
  | _ => None
  end.

Fixpoint follow (v : json) (parts : list string) : option json :=
  match parts with
  | [] => Some v
  | p :: parts => w ← index_step v p; follow w parts
  end.

(** The value shown for one configured pointer. *)
Definition shown (arguments : json) (pointer : string) : json :=
  let parts := pointer_parts pointer in
  match follow arguments parts with
  | Some v => if existsb sensitive parts then MASKED else mask 4 v
  | None => JStr "[OMITTED: configured field not present]"
  end.

Definition entry_of (pointer : string) (v : json) : json :=
  JObj [("field"%string, JStr pointer); ("value"%string, v)].

Definition clen (v : json) : res Z := t ← canonical v; Ok (len t).

(** One iteration of the loop: the entries so far and the size omissions. *)
Definition summarize_step (arguments : json) (st : list json * Z) (pointer : string) : res (list json * Z) :=
  let '(entries, size_omitted) := st in
  let entry := entry_of pointer (shown arguments pointer) in
  n1 ← clen entry;
  n2 ← clen (JArr (entries ++ [entry]));
  let too_big := (1000 <? n1) || (3600 <? n2) in
  let entry := if too_big then entry_of pointer (JStr "[OMITTED: summary size limit]") else entry in
  let size_omitted := if too_big then size_omitted + 1 else size_omitted in
  n3 ← clen (JArr (entries ++ [entry]));
  Ok (if n3 <=? 3600 then entries ++ [entry] else entries, size_omitted).

Definition omissions (fields : list string) (size_omitted : Z) : list string :=
  let n := Z.of_nat (length fields) in
  (match fields with [] => ["ALL arguments omitted: no approval_fields configured."%string] | _ => [] end)
  ++ ["Fields outside configured pointers are omitted."; "Agent justification is omitted."]%string
  ++ (if size_omitted =? 0 then [] else
      ["Configured fields: " +:+ str_of_Z n +:+ "; values shown: " +:+ str_of_Z (n - size_omitted) +:+
       "; omitted for summary size: " +:+ str_of_Z size_omitted +:+
       " (labels included where space permits)."] ++
      (if size_omitted =? n
       then ["ALL configured field values omitted: summary size limit; 0 shown."%string] else [])).

Definition summarize (arguments : json) (fields : list string) : res string :=
  '(entries, size_omitted) ← foldM (summarize_step arguments) ([], 0) fields;
  canonical (JObj [("selected_fields"%string, JArr entries);
                   ("omissions"%string, JArr (map JStr (omissions fields size_omitted)))]).

(** ** Facts *)

Lemma canonical_ok v t : canonical v = Ok t -> has_nan v = false /\ t = canonical_text v.
Proof. unfold canonical. destruct (has_nan v); [done |]. by intros [= <-]. Qed.

Lemma canonical_norm v : canonical (norm v) = canonical v.
Proof. unfold canonical, canonical_text. by rewrite norm_has_nan, norm_idem. Qed.

(** The canonical text is parsed back to the value with sorted keys. *)
Lemma loads_canonical v : json_wf v -> loads (canonical_text v) = Ok (norm v).
Proof. intros. apply loads_dump_norm; [by left | done]. Qed.

(** Containers nest at most [n] deep. *)
Fixpoint jdepth (v : json) : nat :=
  match v with
  | JArr l => S (foldr Nat.max 0 (map jdepth l))
  | JObj d => S (foldr Nat.max 0 (map (fun kv => jdepth kv.2) d))
  | _ => 0
  end%nat.

Lemma foldr_max_le (l : list nat) n : Forall (fun x => x <= n)%nat l -> (foldr Nat.max 0 l <= n)%nat.
Proof. induction 1; simpl; lia. Qed.

Lemma dset_Forall {A} (P : string * A -> Prop) d k v :
  Forall P d -> P (k, v) -> Forall P (dset d k v).
Proof.
  intros Hd Hk. induction Hd as [|[k' v'] d H Hd IH]; simpl; [by constructor |].
  case_decide; constructor; auto.
Qed.

Lemma length_dset {A} (d : dict A) k v : (length (dset d k v) <= S (length d))%nat.
Proof. induction d as [|[k' v'] d IH]; simpl; [done |]. case_decide; simpl; lia. Qed.

Lemma fold_dset_inv {A B} (P : string * A -> Prop) (key : B -> string) (val : B -> A) l (acc : dict A) :
  Forall P acc -> (forall b, In b l -> P (key b, val b)) ->
  Forall P (fold_left (fun d b => dset d (key b) (val b)) l acc).
Proof.
  revert acc. induction l as [|b l IH]; intros acc Ha Hl; simpl; [done |].
  apply IH; [apply dset_Forall; [done | apply Hl; by left] | intros; apply Hl; by right].
Qed.

(** What [_mask] does with one member. *)
Definition mask_key (kv : string * json) : string :=
  if 64 <? len kv.1 then "[OMITTED: long field name]" else kv.1.
Definition mask_val (fuel : nat) (kv : string * json) : json :=
  if 64 <? len kv.1 then MASKED else if sensitive kv.1 then MASKED else mask fuel kv.2.

Lemma mask_members fuel l (acc : dict json) :
  fold_left (fun acc kv => if 64 <? len kv.1 then dset acc "[OMITTED: long field name]" MASKED
      else dset acc kv.1 (if sensitive kv.1 then MASKED else mask fuel kv.2)) l acc
  = fold_left (fun d kv => dset d (mask_key kv) (mask_val fuel kv)) l acc.
Proof.
  revert acc. induction l as [|kv l IH]; intros acc; [done |]. cbn [fold_left]. rewrite IH.
  f_equal. unfold mask_key, mask_val. by destruct (64 <? len kv.1).
Qed.

Lemma mask_depth fuel v : (jdepth (mask fuel v) <= fuel)%nat.
Proof.
  revert v. induction fuel as [|fuel IH]; intros v.
  - destruct v; simpl; try lia. by case_match.
  - destruct v as [| | | | s | l | d]; cbn [mask]; try (simpl; lia).
    + case_match; simpl; lia.
    + simpl. apply le_n_S, foldr_max_le, Forall_map, Forall_app. split.
      * apply Forall_map, Forall_forall. auto.
      * case_match; repeat constructor; simpl; lia.
    + rewrite mask_members. cbn [jdepth]. apply le_n_S, foldr_max_le, Forall_map.
      assert (Forall (fun kv => jdepth kv.2 <= fuel)%nat
        (fold_left (fun d0 kv => dset d0 (mask_key kv) (mask_val fuel kv)) (take 16 d) [])) as Hf.
      { apply (fold_dset_inv (fun kv => jdepth kv.2 <= fuel)%nat mask_key (mask_val fuel)); [done |].
        intros b _. unfold mask_val. simpl. case_match; [simpl; lia |]. case_match; [simpl; lia | apply IH]. }
      case_match; [apply dset_Forall; [done | simpl; lia] | done].
Qed.

Lemma dget_fold_dset_notin {A B} (key : B -> string) (val : B -> A) l (acc : dict A) k :
  (forall b, In b l -> key b <> k) ->
  dget (fold_left (fun d b => dset d (key b) (val b)) l acc) k = dget acc k.
Proof.
  revert acc. induction l as [|b l IH]; intros acc Hl; simpl; [done |].
  rewrite IH by (intros; apply Hl; by right). apply dget_dset_ne, Hl. by left.
Qed.

Lemma summarize_step_bound args st p st' :
  summarize_step args st p = Ok st' ->
  (forall n, clen (JArr st.1) = Ok n -> n <= 3600) ->
  (forall n, clen (JArr st'.1) = Ok n -> n <= 3600) /\ st.2 <= st'.2 <= st.2 + 1.
Proof.
  destruct st as [es k]. unfold summarize_step. intros H Hb. inv_bind. simpl. split.
  - intros n Hn. destruct (a1 <=? 3600) eqn:Hle.
    + rewrite Hn in E1. injection E1 as ->. by apply Z.leb_le.
    + by apply Hb.
  - case_match; lia.
Qed.

(** The shown part of an approval summary is bounded: whatever the
    arguments, the selected entries take at most 3600 characters of canonical
    JSON, and no shown value nests more than four containers. *)
Theorem summarize_bounded (arguments : json) (fields : list string) (text : string) :
  summarize arguments fields = Ok text ->
  exists entries omitted,
    text = canonical_text (JObj [("selected_fields"%string, JArr entries);
                                 ("omissions"%string, JArr (map JStr (omissions fields omitted)))])
    /\ len (canonical_text (JArr entries)) <= 3600
    /\ 0 <= omitted <= Z.of_nat (length fields)
    /\ (forall p, In p fields -> (jdepth (shown arguments p) <= 4)%nat).
Proof.
  unfold summarize. intros H. apply res_bind_ok in H as ([es k] & Ef & Hc).
  apply canonical_ok in Hc as [Hn ->]. exists es, k. split; [done |].
  assert (forall l st st', foldM (summarize_step arguments) st l = Ok st' ->
    (forall n, clen (JArr st.1) = Ok n -> n <= 3600) ->
    (forall n, clen (JArr st'.1) = Ok n -> n <= 3600) /\ st.2 <= st'.2 <= st.2 + Z.of_nat (length l)) as Hf.
  { induction l as [|p l IH]; intros st st' Hs Hb; simpl in Hs; [injection Hs as <-; split; [done | simpl; lia] |].
    apply res_bind_ok in Hs as (st1 & E1 & Hs). destruct (summarize_step_bound _ _ _ _ E1 Hb) as [Hb1 Hk1].
    destruct (IH _ _ Hs Hb1) as [Hb2 Hk2]. split; [done |]. simpl length. lia. }
  destruct (Hf _ _ _ Ef) as [Hb Hk]; [by intros n [= <-] |]. simpl in Hk, Hb. split_and!; [| lia | lia |].
  - apply Hb. unfold clen, canonical.
    assert (has_nan (JArr es) = false) as ->; [|done]. simpl in *. by apply orb_false_iff in Hn as [-> _].
  - intros p _. unfold shown. case_match; [|simpl; lia]. case_match; [simpl; lia | apply mask_depth].
Qed.

Lemma summarize_bounded_witness :
  exists t es k,
    summarize (JObj [("to"%string, JStr "bob"); ("token"%string, JStr "s3cret")]) ["/to"; "/token"]%string = Ok t
    /\ t = canonical_text (JObj [("selected_fields"%string, JArr es);
                                 ("omissions"%string, JArr (map JStr (omissions ["/to"; "/token"]%string k)))]).
Proof.
  assert (exists t, summarize (JObj [("to"%string, JStr "bob"); ("token"%string, JStr "s3cret")])
    ["/to"; "/token"]%string = Ok t) as [t Ht] by (eexists; vm_compute; reflexivity).
  destruct (summarize_bounded _ _ t Ht) as (es & k & E & _). exists t, es, k. split; [exact Ht | exact E].
Defined.

(** A configured pointer through a sensitive name never shows its value:
    it is shown as [[MASKED]], or as absent when the arguments lack it. *)
Theorem sensitive_pointer_masked (arguments : json) (pointer name : string) :
  In name (pointer_parts pointer) -> sensitive name = true ->
  shown arguments pointer = MASKED
  \/ shown arguments pointer = JStr "[OMITTED: configured field not present]".
Proof.
  intros Hin Hs. unfold shown. case_match; [left | by right].
  assert (existsb sensitive (pointer_parts pointer) = true) as ->; [|done].
  apply existsb_exists. eauto.
Qed.

Lemma sensitive_pointer_masked_witness :
  shown (JObj [("db"%string, JObj [("Api-Key"%string, JStr "k")])]) "/db/Api-Key" = MASKED
  \/ shown (JObj [("db"%string, JObj [("Api-Key"%string, JStr "k")])]) "/db/Api-Key"
     = JStr "[OMITTED: configured field not present]".
Proof.
  apply (sensitive_pointer_masked _ _ "Api-Key"); [right; left; reflexivity | vm_compute; reflexivity].
Defined.
