(* ===== verification/Store.v ===== *)
(** The broker's SQLite store: broker/store.py.

    A table is the list of its rows in rowid order; each method is a function
    on the whole store.  A method that runs in one transaction and may raise
    returns [res]: on [Raise] there is no new store, which is the rollback.
    Clock readings, random nonces and uuids are arguments.  A time is an
    integer count of microseconds. *)

From stdpp Require Import base tactics list strings.
From Stdlib Require Import ZArith Lia Ascii.
From S2P Require Import Prelude PyStr Json Policy Action.

Definition second : Z := 1000000.

(** ** Rows *)

Inductive req_status :=
| received | executing | running | pending_approval | completed | denied
| expired | failed | unknown | result_expired | not_found | invalid.

Inductive app_status := ap_pending | ap_approved | ap_rejected | ap_expired | ap_cancelled.

#[export] Instance req_status_eq_dec : EqDecision req_status.
Proof. solve_decision. Defined.
#[export] Instance app_status_eq_dec : EqDecision app_status.
Proof. solve_decision. Defined.

Definition is_status (a b : req_status) : bool := bool_decide (a = b).

(** The statuses [update_request] and [prune_payloads] treat as terminal. *)
Definition terminal (st : req_status) : bool :=
  match st with
  | completed | denied | expired | failed | unknown | result_expired | not_found | invalid => true
  | received | executing | running | pending_approval => false
  end.

Definition in_flight (st : req_status) : bool :=
  match st with received | executing | running => true | _ => false end.

(** identity.Caller. *)
Record caller := Caller { k_id : Z; k_name : string; k_token_hash : option string }.

Record caller_row := CallerRow {
  c_id : Z; c_name : string; c_created_at : Z; c_revoked_at : option Z }.

Record token_row := TokenRow {
  t_hash : string; t_caller : Z; t_created_at : Z; t_revoked_at : option Z }.

Record policy_row := PolicyRow { y_caller : Z; y_policy : policy; y_updated_at : Z }.

Record request_row := RequestRow {
  r_id : Z; r_correlation_id : string; r_caller_id : Z; r_tool : string; r_op : string;
  r_key : option string; r_payload_digest : option string; r_created_at : Z;
  r_generation : option string; r_policy_binding : option string; r_request_digest : option string;
  r_status : req_status; r_arguments_json : option string; r_action_json : option string;
  r_result_json : option string; r_error : option string; r_updated_at : Z; r_pruned_at : option Z }.

Record approval_row := ApprovalRow {
  a_id : Z; a_request_id : Z; a_surface_ref : string; a_status : app_status; a_expires_at : Z;
  a_approver : option string; a_note : option string; a_decided_at : option string;
  a_created_at : Z; a_request_digest : option string }.

Record audit_row := AuditRow {
  e_id : Z; e_at : Z; e_component : string; e_event_type : string; e_outcome : string;
  e_correlation_id : option string; e_request_id : option Z; e_details : json }.

Record store := Store {
  s_installation : string; s_catalog_receipt : option json;
  s_callers : list caller_row; s_tokens : list token_row; s_policies : list policy_row;
  s_requests : list request_row; s_approvals : list approval_row; s_audit : list audit_row }.

Definition empty_store (uuid : string) : store := Store uuid None [] [] [] [] [] [].

Definition with_callers (s : store) l := Store (s_installation s) (s_catalog_receipt s) l
  (s_tokens s) (s_policies s) (s_requests s) (s_approvals s) (s_audit s).
Definition with_tokens (s : store) l := Store (s_installation s) (s_catalog_receipt s) (s_callers s)
  l (s_policies s) (s_requests s) (s_approvals s) (s_audit s).
Definition with_policies (s : store) l := Store (s_installation s) (s_catalog_receipt s) (s_callers s)
  (s_tokens s) l (s_requests s) (s_approvals s) (s_audit s).
Definition with_requests (s : store) l := Store (s_installation s) (s_catalog_receipt s) (s_callers s)
  (s_tokens s) (s_policies s) l (s_approvals s) (s_audit s).
Definition with_approvals (s : store) l := Store (s_installation s) (s_catalog_receipt s) (s_callers s)
  (s_tokens s) (s_policies s) (s_requests s) l (s_audit s).
Definition with_audit (s : store) l := Store (s_installation s) (s_catalog_receipt s) (s_callers s)
  (s_tokens s) (s_policies s) (s_requests s) (s_approvals s) l.

(** The mutable columns of a request; the others never change after INSERT
    except through the last three fields of [update_request]. *)
Definition r_write (r : request_row) st args action result err upd pruned : request_row :=
  RequestRow (r_id r) (r_correlation_id r) (r_caller_id r) (r_tool r) (r_op r) (r_key r)
    (r_payload_digest r) (r_created_at r) (r_generation r) (r_policy_binding r) (r_request_digest r)
    st args action result err upd pruned.

(** [SET status=?, error=?, arguments_json=NULL, action_json=NULL, updated_at=?]. *)
Definition r_finish (st : req_status) (err : option string) (now : Z) (r : request_row) : request_row :=
  r_write r st None None (r_result_json r) err now (r_pruned_at r).

(** The same with [result_json=NULL]. *)
Definition r_wipe (st : req_status) (err : option string) (now : Z) (r : request_row) : request_row :=
  r_write r st None None None err now (r_pruned_at r).

(** [SET status=?, updated_at=?]. *)
Definition r_mark (st : req_status) (now : Z) (r : request_row) : request_row :=
  r_write r st (r_arguments_json r) (r_action_json r) (r_result_json r) (r_error r) now (r_pruned_at r).

Definition a_write (a : approval_row) st approver note decided : approval_row :=
  ApprovalRow (a_id a) (a_request_id a) (a_surface_ref a) st (a_expires_at a) approver note decided
    (a_created_at a) (a_request_digest a).

Definition a_set_status (st : app_status) (a : approval_row) : approval_row :=
  a_write a st (a_approver a) (a_note a) (a_decided_at a).

Definition live_row {A} (revoked : A -> option Z) (x : A) : bool :=
  match revoked x with None => true | Some _ => false end.

Definition set_revoked_caller (now : Z) (c : caller_row) : caller_row :=
  CallerRow (c_id c) (c_name c) (c_created_at c) (Some now).
Definition set_revoked_token (now : Z) (t : token_row) : token_row :=
  TokenRow (t_hash t) (t_caller t) (t_created_at t) (Some now).

(** ** Callers and tokens *)

Definition set_catalog_receipt (receipt : option json) (s : store) : store :=
  Store (s_installation s) receipt (s_callers s) (s_tokens s) (s_policies s) (s_requests s)
    (s_approvals s) (s_audit s).

Definition catalog_receipt (s : store) : option json := s_catalog_receipt s.

Definition caller_by_id (s : store) (id : Z) : option caller_row :=
  select1 (fun c => c_id c =? id) (s_callers s).

Definition caller_by_name (name : string) (s : store) : option caller_row :=
  select1 (fun c => String.eqb (c_name c) name) (s_callers s).

(** UNIQUE(name). *)
Definition add_caller (now : Z) (name : string) (s : store) : res (Z * store) :=
  match caller_by_name name s with
  | Some _ => Raise IntegrityError
  | None =>
      let id := next_id (map c_id (s_callers s)) in
      Ok (id, with_callers s (s_callers s ++ [CallerRow id name now None]))
  end.

Definition revoke_caller (now : Z) (name : string) (s : store) : store :=
  with_callers s (update_where (fun c => String.eqb (c_name c) name && live_row c_revoked_at c)
    (set_revoked_caller now) (s_callers s)).

(** PRIMARY KEY(token_hash), REFERENCES callers(id). *)
Definition add_token (now : Z) (caller_id : Z) (token_hash : string) (s : store) : res store :=
  match select1 (fun t => String.eqb (t_hash t) token_hash) (s_tokens s), caller_by_id s caller_id with
  | None, Some _ => Ok (with_tokens s (s_tokens s ++ [TokenRow token_hash caller_id now None]))
  | _, _ => Raise IntegrityError
  end.

Definition revoke_tokens_where (now : Z) (p : token_row -> bool) (s : store) : Z * store :=
  let q t := p t && live_row t_revoked_at t in
  (count_where q (s_tokens s), with_tokens s (update_where q (set_revoked_token now) (s_tokens s))).

Definition revoke_token (now : Z) (token_hash : string) (s : store) : store :=
  (revoke_tokens_where now (fun t => String.eqb (t_hash t) token_hash) s).2.

Definition revoke_tokens_for_caller (now caller_id : Z) (except_hash : option string) (s : store) : Z * store :=
  revoke_tokens_where now (fun t => (t_caller t =? caller_id) &&
    match except_hash with Some h => negb (String.eqb (t_hash t) h) | None => true end) s.

Definition caller_by_token_hash (token_hash : string) (s : store) : option caller :=
  t ← select1 (fun t => String.eqb (t_hash t) token_hash && live_row t_revoked_at t) (s_tokens s);
  c ← select1 (fun c => (c_id c =? t_caller t) && live_row c_revoked_at c) (s_callers s);
  Some (Caller (c_id c) (c_name c) (Some token_hash)).

Definition active_token_count (caller_id : Z) (s : store) : Z :=
  count_where (fun t => (t_caller t =? caller_id) && live_row t_revoked_at t) (s_tokens s).

Definition caller_name (caller_id : Z) (s : store) : option string :=
  c_name <$> caller_by_id s caller_id.

Definition validate_token_prefix (prefix : string) : res unit :=
  raise_if (negb (lower_hex_bounded 12 64 prefix)) ValueError.

Definition revoke_token_by_prefix (now : Z) (prefix : string) (s : store) : res (Z * store) :=
  _ ← validate_token_prefix prefix;
  Ok (revoke_tokens_where now (fun t => starts_with prefix (t_hash t)) s).

(** Distinct callers, in order of their first matching token. *)
Definition caller_ids_for_token_prefix (prefix : string) (s : store) : res (list Z) :=
  _ ← validate_token_prefix prefix;
  Ok (foldr (fun t acc => t_caller t :: List.filter (fun i => negb (i =? t_caller t)) acc) []
        (List.filter (fun t => starts_with prefix (t_hash t)) (s_tokens s))).

Definition list_callers (include_revoked : bool) (s : store) : list caller_row :=
  List.filter (fun c => include_revoked || live_row c_revoked_at c) (s_callers s).

(** ** Policy *)

Definition policy_for (caller_id : Z) (s : store) : policy :=
  match select1 (fun y => y_caller y =? caller_id) (s_policies s) with
  | Some y => y_policy y
  | None => no_policy
  end.

Definition owned_pending (caller_id : Z) (r : request_row) : bool :=
  (r_caller_id r =? caller_id) && is_status (r_status r) pending_approval.

Definition upsert_policy (now caller_id : Z) (p : policy) (l : list policy_row) : list policy_row :=
  match select1 (fun y => y_caller y =? caller_id) l with
  | Some _ => update_where (fun y => y_caller y =? caller_id) (fun _ => PolicyRow caller_id p now) l
  | None => l ++ [PolicyRow caller_id p now]
  end.

(** [_write_policy]: the policy, and every parked request of the caller with
    its approval.  REFERENCES callers(id). *)
Definition _write_policy (now caller_id : Z) (p : policy) (s : store) : res store :=
  match caller_by_id s caller_id with
  | None => Raise IntegrityError
  | Some _ =>
      let parked := map r_id (List.filter (owned_pending caller_id) (s_requests s)) in
      let s1 := with_policies s (upsert_policy now caller_id p (s_policies s)) in
      let s2 := with_approvals s1 (update_where
        (fun a => bool_decide (a_status a = ap_pending) && existsb (Z.eqb (a_request_id a)) parked)
        (a_set_status ap_cancelled) (s_approvals s)) in
      Ok (with_requests s2 (update_where (owned_pending caller_id)
        (r_finish denied (Some "approval_invalidated"%string) now) (s_requests s)))
  end.

Definition set_policy (now caller_id : Z) (p : policy) (s : store) : res store :=
  _write_policy now caller_id p s.

(** ** Audit *)

Definition append_audit (at_ : Z) (component event_type outcome : string)
    (correlation_id : option string) (request_id : option Z) (details : json) (s : store) : Z * store :=
  let id := next_id (map e_id (s_audit s)) in
  (id, with_audit s (s_audit s ++
    [AuditRow id at_ component event_type outcome correlation_id request_id details])).

Definition audit_events (request_id : option Z) (correlation_id : option string) (s : store) : list audit_row :=
  List.filter (fun e =>
    match request_id with Some i => bool_decide (e_request_id e = Some i) | None => true end &&
    match correlation_id with Some c => bool_decide (e_correlation_id e = Some c) | None => true end)
    (s_audit s).

(** The last [limit] events, oldest first. *)
Definition recent_audit (limit : nat) (s : store) : list audit_row :=
  rev (take limit (rev (s_audit s))).

Definition clear_audit (s : store) : store := with_audit s [].

(** Python's [==] on two policies: dictionaries compare without order. *)
Definition same_policy (p q : policy) : bool :=
  bool_decide (norm (policy_json p) = norm (policy_json q)).

Definition compare_and_set_policy (now : Z) (uuid : string) (caller_id : Z) (before after : policy)
    (operator : string) (s : store) : res (bool * store) :=
  match caller_by_id s caller_id with
  | Some c =>
      if live_row c_revoked_at c && same_policy (policy_for caller_id s) before then
        s1 ← _write_policy now caller_id after s;
        Ok (true, (append_audit now "admin" "settings_changed" "ok" (Some uuid) None
          (JObj [("operator"%string, JStr operator); ("name"%string, JStr (c_name c))]) s1).2)
      else Ok (false, s)
  | None => Ok (false, s)
  end.

(** ** Requests *)

Definition request (id : Z) (s : store) : option request_row :=
  select1 (fun r => r_id r =? id) (s_requests s).

Definition by_key (caller_id : Z) (key : string) (r : request_row) : bool :=
  (r_caller_id r =? caller_id) && bool_decide (r_key r = Some key).

Definition create_request (now : Z) (correlation_id : string) (caller_id : Z) (tool op : string)
    (st : req_status) (s : store) : res (Z * store) :=
  match caller_by_id s caller_id with
  | None => Raise IntegrityError
  | Some _ =>
      let id := next_id (map r_id (s_requests s)) in
      Ok (id, with_requests s (s_requests s ++
        [RequestRow id correlation_id caller_id tool op None None now None None None
           st None None None None now None]))
  end.

(** [update_request(id, **fields)]: a field is [Some v] when passed. *)
Record req_fields := ReqFields {
  f_status : option req_status; f_arguments_json : option (option string);
  f_result_json : option (option string); f_error : option (option string);
  f_generation : option (option string); f_policy_binding : option (option string);
  f_action_json : option (option string); f_request_digest : option (option string) }.

Definition no_fields : req_fields := ReqFields None None None None None None None None.

(** A terminal status clears the private columns whatever was passed. *)
Definition effective_fields (f : req_fields) : req_fields :=
  match f_status f with
  | Some st => if terminal st
      then ReqFields (Some st) (Some None) (f_result_json f) (f_error f) (f_generation f)
             (f_policy_binding f) (Some None) (f_request_digest f)
      else f
  | None => f
  end.

Definition fields_empty (f : req_fields) : bool := 
  match f with ReqFields None None None None None None None None => true | _ => false end.

Definition apply_fields (f : req_fields) (now : Z) (r : request_row) : request_row :=
  RequestRow (r_id r) (r_correlation_id r) (r_caller_id r) (r_tool r) (r_op r) (r_key r)
    (r_payload_digest r) (r_created_at r)
    (default (r_generation r) (f_generation f)) (default (r_policy_binding r) (f_policy_binding f))
    (default (r_request_digest r) (f_request_digest f))
    (default (r_status r) (f_status f)) (default (r_arguments_json r) (f_arguments_json f))
    (default (r_action_json r) (f_action_json f)) (default (r_result_json r) (f_result_json f))
    (default (r_error r) (f_error f)) now (r_pruned_at r).

Definition update_request (now id : Z) (f : req_fields) (s : store) : store :=
  let f := effective_fields f in
  if fields_empty f then s
  else with_requests s (update_where (fun r => r_id r =? id) (apply_fields f now) (s_requests s)).

(** ** Approvals *)

Definition create_approval (now request_id : Z) (surface_ref : string) (expires_at : Z)
    (request_digest : option string) (s : store) : res (Z * store) :=
  match request request_id s with
  | None => Raise IntegrityError
  | Some _ =>
      let id := next_id (map a_id (s_approvals s)) in
      Ok (id, with_approvals s (s_approvals s ++
        [ApprovalRow id request_id surface_ref ap_pending expires_at None None None now request_digest]))
  end.

Definition approval_for_request (request_id : Z) (s : store) : option approval_row :=
  select1 (fun a => a_request_id a =? request_id) (s_approvals s).

(** The rows of the join of pending approvals with their requests. *)
Record pending_row := PendingRow {
  n_id : Z; n_surface_ref : string; n_request_id : Z; n_tool : string; n_op : string; n_correlation_id : string }.

Definition pending_join (p : approval_row -> request_row -> bool) (s : store) : list pending_row :=
  flat_map (fun a =>
    match request (a_request_id a) s with
    | Some r => if bool_decide (a_status a = ap_pending) && p a r
                then [PendingRow (a_id a) (a_surface_ref a) (r_id r) (r_tool r) (r_op r) (r_correlation_id r)]
                else []
    | None => []
    end) (s_approvals s).

Definition pending_approvals_for_caller (caller_id : Z) (s : store) : list pending_row :=
  pending_join (fun _ r => r_caller_id r =? caller_id) s.

Definition expired_pending_approvals (now : Z) (s : store) : list pending_row :=
  pending_join (fun a _ => a_expires_at a <=? now) s.

Record app_fields := AppFields {
  g_status : option app_status; g_approver : option (option string);
  g_note : option (option string); g_decided_at : option (option string) }.

Definition update_approval (approval_id : Z) (g : app_fields) (s : store) : store :=
  with_approvals s (update_where (fun a => a_id a =? approval_id)
    (fun a => a_write a (default (a_status a) (g_status g)) (default (a_approver a) (g_approver g))
                (default (a_note a) (g_note g)) (default (a_decided_at a) (g_decided_at g)))
    (s_approvals s)).

(** The surface's answer: approval.SurfaceState. *)
Inductive surface_outcome := so_pending | so_approved | so_rejected | so_expired | so_cancelled.

#[export] Instance surface_outcome_eq_dec : EqDecision surface_outcome.
Proof. solve_decision. Defined.

Record surface_state := SurfaceState {
  ss_outcome : surface_outcome; ss_approver : option string; ss_note : option string;
  ss_decided_at : option string }.

(** ** Authority and the commit points *)

Definition _live (caller_id : Z) (who : option caller) (s : store) : bool :=
  match caller_by_id s caller_id with
  | Some c =>
      live_row c_revoked_at c &&
      match who with
      | Some k =>
          (k_id k =? caller_id) &&
          match k_token_hash k with
          | Some h => bool_decide (is_Some (select1 (fun t => (t_caller t =? caller_id)
                        && String.eqb (t_hash t) h && live_row t_revoked_at t) (s_tokens s)))
          | None => 0 <? active_token_count caller_id s
          end
      | None => 0 <? active_token_count caller_id s
      end
  | None => false
  end.

(** A Python string or [None], read as a truth value. *)
Definition truthy_str (o : option string) : bool :=
  match o with Some s => negb (PyStr.empty s) | None => false end.

Definition text_or_null (o : option string) : string :=
  match o with Some s => if PyStr.empty s then "null"%string else s | None => "null"%string end.

Definition validate_idempotency_key (key : json) : res (option string) :=
  match key with
  | JNull => Ok None
  | JStr s => if word_dash_bounded 1 128 s then Ok (Some s) else Raise ValueError
  | _ => Raise ValueError
  end.

Section Authority.
Context `{Digest}.

(** The stored action is the canonical text of this request under this
    generation, and the stored arguments are its arguments.  A missing nonce
    is replaced by a fresh random one there, which cannot match. *)
Definition _bound (r : request_row) (generation : string) : bool :=
  match loads (text_or_null (r_action_json r)) with
  | Ok (JObj a) =>
      if is_null (jget a "nonce") then false else
      match bound_request (r_caller_id r) (r_tool r) (r_op r) generation
              (jget a "arguments") (jget a "reason") (jget a "nonce"),
            canonical (JObj a), canonical (jget a "arguments"),
            (loads (text_or_null (r_arguments_json r)) ≫= canonical) with
      | Ok (expected, digest), Ok text, Ok args1, Ok args2 =>
          String.eqb text expected && bool_decide (r_request_digest r = Some digest)
          && String.eqb args1 args2
      | _, _, _, _ => false
      end
  | _ => false
  end.

Definition authorized_request (k : caller) (request_id : Z) (s : store) : option request_row :=
  r ← request request_id s;
  if (r_caller_id r =? k_id k) && _live (k_id k) (Some k) s
     && negb (bool_decide (decide_op (policy_for (k_id k) s) (r_tool r) (r_op r) = DENY))
  then Some r else None.

Definition payload_json (tool op : string) (arguments reason : json) : json :=
  JObj [("tool"%string, JStr tool); ("op"%string, JStr op);
        ("arguments"%string, arguments); ("reason"%string, reason)].

(** Result: the row, whether it was created, whether the key conflicts. *)
Definition reserve_action (now : Z) (nonce : string) (k : caller) (correlation_id tool op : string)
    (arguments : json) (reason : option string) (generation : string) (key : json) (s : store)
    : res (request_row * bool * bool * store) :=
  key ← validate_idempotency_key key;
  payload ← canonical (payload_json tool op arguments (jopt reason));
  let digest := sha256_hex payload in
  '(action, binding) ← bound_request (k_id k) tool op generation arguments (jopt reason) (JStr nonce);
  args ← canonical arguments;
  _ ← raise_if (negb (_live (k_id k) (Some k) s)) PermissionError;
  let p := policy_for (k_id k) s in
  match (key ≫= fun key => select1 (by_key (k_id k) key) (s_requests s)) with
  | Some prior =>
      _ ← raise_if (bool_decide (decide_op p (r_tool prior) (r_op prior) = DENY)) PermissionError;
      Ok (prior, false, negb (bool_decide (r_payload_digest prior = Some digest)), s)
  | None =>
      let row := RequestRow (next_id (map r_id (s_requests s))) correlation_id (k_id k) tool op key
        (Some digest) now (Some generation) (Some (policy_text p)) (Some binding)
        received (Some args) (Some action) None None now None in
      Ok (row, true, false, with_requests s (s_requests s ++ [row]))
  end.

Definition claim_received_valid (r : request_row) (generation : option string) (k : option caller)
    (expected_digest : option string) (s : store) : bool :=
  is_status (r_status r) received && _live (r_caller_id r) k s
  && truthy_str generation && bool_decide (r_generation r = generation)
  && bool_decide (r_request_digest r = expected_digest)
  && _bound r (default EmptyString generation)
  && bool_decide (Some (policy_text (policy_for (r_caller_id r) s)) = r_policy_binding r)
  && bool_decide (decide_op (policy_for (r_caller_id r) s) (r_tool r) (r_op r) = ALLOW).

Definition set_request (id : Z) (f : request_row -> request_row) (s : store) : store :=
  with_requests s (update_where (fun r => r_id r =? id) f (s_requests s)).

(** Commit point of an allowed action. *)
Definition claim_received (now id : Z) (generation : option string) (k : option caller)
    (expected_digest : option string) (s : store) : bool * store :=
  match request id s with
  | Some r =>
      if claim_received_valid r generation k expected_digest s then
        (true, set_request id (r_mark executing now) s)
      else if is_status (r_status r) received then
        (false, set_request id (r_finish denied (Some "authority_changed"%string) now) s)
      else (false, s)
  | None => (false, s)
  end.

Definition claim_approval_valid (r : request_row) (a : approval_row) (generation : option string)
    (now : Z) (k : option caller) (s : store) : bool :=
  is_status (r_status r) pending_approval && bool_decide (a_status a = ap_pending)
  && (now <? a_expires_at a)
  && _live (r_caller_id r) k s
  && truthy_str generation && bool_decide (r_generation r = generation)
  && truthy_str (r_request_digest r) && bool_decide (r_request_digest r = a_request_digest a)
  && _bound r (default EmptyString generation)
  && bool_decide (r_policy_binding r = Some (policy_text (policy_for (r_caller_id r) s)))
  && bool_decide (decide_op (policy_for (r_caller_id r) s) (r_tool r) (r_op r) = REVIEW).

Definition set_approvals (p : approval_row -> bool) (f : approval_row -> approval_row) (s : store) : store :=
  with_approvals s (update_where p f (s_approvals s)).

(** Commit point of an approved action. *)
Definition claim_approval (id : Z) (generation : option string) (state : surface_state) (now : Z)
    (k : option caller) (s : store) : bool * store :=
  match request id s with
  | Some r =>
      let a := approval_for_request id s in
      match (a ≫= fun a => if claim_approval_valid r a generation now k s then Some a else None) with
      | Some a =>
          let s1 := set_request id (r_mark executing now) s in
          (true, set_approvals (fun x => a_id x =? a_id a)
            (fun x => a_write x ap_approved (ss_approver state) (ss_note state) (ss_decided_at state)) s1)
      | None =>
          if is_status (r_status r) pending_approval then
            let late := match a with
              | Some a => bool_decide (a_status a = ap_pending) && (a_expires_at a <=? now)
              | None => false end in
            let s1 := set_request id (r_finish (if late then expired else denied)
                        (if late then None else Some "approval_invalidated"%string) now) s in
            (false, set_approvals (fun x => (a_request_id x =? id) && bool_decide (a_status x = ap_pending))
              (a_set_status (if late then ap_expired else ap_cancelled)) s1)
          else (false, s)
      end
  | None => (false, s)
  end.
End Authority.

Definition finish_pending (now id : Z) (st : req_status) (app_st : app_status) (error : option string)
    (state : option surface_state) (deadline_only : bool) (s : store) : res (bool * store) :=
  match request id s, approval_for_request id s with
  | Some r, Some a =>
      if negb (is_status (r_status r) pending_approval) || negb (bool_decide (a_status a = ap_pending))
         || (deadline_only && (now <? a_expires_at a))
      then Ok (false, s)
      else
        '(st, app_st, error) ←
          (if a_expires_at a <=? now then Ok (expired, ap_expired, None)
           else
             c ← res_of_option TypeError (caller_by_id s (r_caller_id r));
             Ok (if negb (live_row c_revoked_at c) || (active_token_count (r_caller_id r) s =? 0)
                 then (expired, ap_cancelled, None)
                 else (st, app_st, error)));
        let s1 := set_request id (r_finish st error now) s in
        Ok (true, set_approvals (fun x => a_id x =? a_id a)
          (fun x => a_write x app_st (state ≫= ss_approver) (state ≫= ss_note) (state ≫= ss_decided_at)) s1)
  | _, _ => Ok (false, s)
  end.

(** ** Maintenance *)

Definition reconcile_offline (now : Z) (confirmed_offline : bool) (s : store) : res (Z * store) :=
  _ ← raise_if (negb confirmed_offline) ValueError;
  let p r := in_flight (r_status r) in
  Ok (count_where p (s_requests s),
      with_requests s (update_where p (r_wipe unknown (Some "offline_reconciled"%string) now) (s_requests s))).

Definition retention : Z := 7 * 86400 * second.

Definition prunable (now : Z) (r : request_row) : bool :=
  (r_updated_at r <? now - retention) && bool_decide (r_pruned_at r = None) && terminal (r_status r).

Definition prune_row (now : Z) (r : request_row) : request_row :=
  r_write r (if is_status (r_status r) completed then result_expired else r_status r)
    None None None (r_error r) (r_updated_at r) (Some now).

Definition prune_payloads (now : Z) (s : store) : Z * store :=
  let ids := map r_id (List.filter (prunable now) (s_requests s)) in
  let s1 := set_approvals (fun a => existsb (Z.eqb (a_request_id a)) ids)
    (fun a => a_write a (a_status a) (a_approver a) None (a_decided_at a)) s in
  (count_where (prunable now) (s_requests s),
   with_requests s1 (update_where (prunable now) (prune_row now) (s_requests s))).

(** The transformation [restore_new] applies to the copied snapshot. *)
Definition sanitize (now : Z) (uuid : string) (s : store) : store :=
  let s := set_approvals (fun a => bool_decide (a_status a = ap_pending))
    (fun a => a_write a ap_cancelled (a_approver a) None (a_decided_at a)) s in
  let s := with_requests s (update_where (fun r => is_status (r_status r) pending_approval)
    (r_wipe expired (Some "restore_cancelled"%string) now) (s_requests s)) in
  let s := with_requests s (update_where (fun r => in_flight (r_status r))
    (r_wipe unknown (Some "restore_unknown"%string) now) (s_requests s)) in
  let s := with_tokens s (update_where (live_row t_revoked_at) (set_revoked_token now) (s_tokens s)) in
  let s := with_policies s (map (fun y => PolicyRow (y_caller y) no_policy now) (s_policies s)) in
  let s := Store uuid (s_catalog_receipt s) (s_callers s) (s_tokens s) (s_policies s)
             (s_requests s) (s_approvals s) (s_audit s) in
  (append_audit now "admin" "restored_offline" "ok" None None
     (JObj [("tokens_invalidated"%string, JBool true); ("policies_cleared"%string, JBool true);
            ("replayed"%string, JInt 0)]) s).2.

(** ** Operator queries *)

Definition list_requests (st : option req_status) (limit : nat) (s : store) : list request_row :=
  take limit (rev (List.filter (fun r => match st with Some x => is_status (r_status r) x | None => true end)
    (s_requests s))).

Fixpoint insert_token (t : token_row) (l : list token_row) : list token_row :=
  match l with
  | [] => [t]
  | u :: l' => if t_created_at t <=? t_created_at u then t :: l else u :: insert_token t l'
  end.

(** ORDER BY created_at. *)
Definition list_tokens (include_revoked : bool) (s : store) : list token_row :=
  foldr insert_token [] (List.filter (fun t => (include_revoked || live_row t_revoked_at t)
    && bool_decide (is_Some (caller_by_id s (t_caller t)))) (s_tokens s)).
