(* ===== verification/StoreFacts.v ===== *)
(** The store's invariant and the operations other processes run on it.

    [admin_op] lists the transactions that admin/ and broker/brokerctl.py run
    against the shared database while the broker serves requests;
    [store_op] adds the broker's own.  A failed transaction rolls back, so
    [run_admin] and [run_op] are total functions on stores and a history is a
    list of operations.  The offline commands (reconcile_offline, restore)
    require every writer stopped and are not part of a live history. *)

From stdpp Require Import base tactics list strings.
From Stdlib Require Import ZArith Lia Ascii.
From S2P Require Import Prelude PyStr Json JsonFacts Policy Action Store.

(** ** Histories *)

Inductive admin_op :=
| AddCaller (now : Z) (name : string)
| RevokeCaller (now : Z) (name : string)
| AddToken (now caller_id : Z) (token_hash : string)
| RevokeToken (now : Z) (token_hash : string)
| RevokeTokensFor (now caller_id : Z) (except_hash : option string)
| RevokePrefix (now : Z) (prefix : string)
| SetPolicy (now caller_id : Z) (p : policy)
| CompareAndSet (now : Z) (uuid : string) (caller_id : Z) (before after : policy) (operator : string)
| FinishPending (now id : Z) (st : req_status) (app_st : app_status) (error : option string)
    (state : option surface_state) (deadline_only : bool)
| Prune (now : Z)
| AppendAudit (at_ : Z) (component event_type outcome : string)
    (correlation_id : option string) (request_id : option Z) (details : json)
| ClearAudit
| SetReceipt (receipt : option json).

(** A transaction that raises leaves the store as it was. *)
Definition committed {A} (s : store) (r : res (A * store)) : store :=
  match r with Ok (_, s') => s' | Raise _ => s end.

(** [finish_pending] is only called with statuses that close the request. *)
Definition run_admin (o : admin_op) (s : store) : store :=
  match o with
  | AddCaller now name => committed s (add_caller now name s)
  | RevokeCaller now name => revoke_caller now name s
  | AddToken now c h => match add_token now c h s with Ok s' => s' | Raise _ => s end
  | RevokeToken now h => revoke_token now h s
  | RevokeTokensFor now c e => (revoke_tokens_for_caller now c e s).2
  | RevokePrefix now p => committed s (revoke_token_by_prefix now p s)
  | SetPolicy now c p => match set_policy now c p s with Ok s' => s' | Raise _ => s end
  | CompareAndSet now u c b a op => committed s (compare_and_set_policy now u c b a op s)
  | FinishPending now id st ast err state dl =>
      if terminal st then committed s (finish_pending now id st ast err state dl s) else s
  | Prune now => (prune_payloads now s).2
  | AppendAudit at_ comp ev out corr rid d => (append_audit at_ comp ev out corr rid d s).2
  | ClearAudit => clear_audit s
  | SetReceipt r => set_catalog_receipt r s
  end.

Definition run_admins (os : list admin_op) (s : store) : store := foldl (fun s o => run_admin o s) s os.

(** ** What an operation may do to the request rows *)

(** The columns written at INSERT that nothing but [update_request] writes. *)
Definition same_identity (r r' : request_row) : Prop :=
  r_id r' = r_id r /\ r_caller_id r' = r_caller_id r /\ r_tool r' = r_tool r /\ r_op r' = r_op r
  /\ r_key r' = r_key r /\ r_payload_digest r' = r_payload_digest r
  /\ r_correlation_id r' = r_correlation_id r /\ r_created_at r' = r_created_at r.

(** A row rewritten by another process: unchanged, or a parked request closed,
    or a terminal one pruned. *)
Inductive admin_write (r r' : request_row) : Prop :=
| aw_same : r' = r -> admin_write r r'
| aw_close st err now : r_status r = pending_approval -> terminal st = true ->
    r' = r_finish st err now r -> admin_write r r'
| aw_prune now : terminal (r_status r) = true -> r' = prune_row now r -> admin_write r r'.

Lemma admin_write_identity r r' : admin_write r r' -> same_identity r r'.
Proof. unfold same_identity. intros [-> | ???? _ -> | ? _ ->]; by repeat split. Qed.

Lemma terminal_prune now r : terminal (r_status r) = true -> terminal (r_status (prune_row now r)) = true.
Proof. simpl. unfold is_status. case_bool_decide; done. Qed.

(** Rows are rewritten in place by a function that keeps the key columns. *)
Lemma request_update (p : request_row -> bool) f id s :
  (forall r, r_id (f r) = r_id r) ->
  request id (with_requests s (update_where p f (s_requests s)))
  = (fun r => if p r then f r else r) <$> request id s.
Proof. intros Hf. apply select1_update_where. intros r. by rewrite Hf. Qed.

Lemma request_id_eq id s r : request id s = Some r -> r_id r = id.
Proof. intros H. apply select1_Some in H as [_ H]. by apply Z.eqb_eq. Qed.

Lemma request_None id s : request id s = None <-> ~ In id (map r_id (s_requests s)).
Proof.
  unfold request. induction (s_requests s) as [|r l IH]; simpl; [tauto |].
  destruct (r_id r =? id) eqn:E; to_prop; [split; [done | tauto] |]. rewrite IH. tauto.
Qed.

Lemma request_In r s : NoDup (map r_id (s_requests s)) -> In r (s_requests s) -> request (r_id r) s = Some r.
Proof.
  unfold request. induction (s_requests s) as [|r0 l IH]; simpl; [done |].
  rewrite NoDup_cons. intros [Hn Hd] [-> | Hin]; [by rewrite Z.eqb_refl |].
  destruct (r_id r0 =? r_id r) eqn:E; to_prop; [|auto].
  destruct Hn. rewrite E. by apply list_elem_of_In, in_map.
Qed.

Lemma request_app id s row :
  request id (with_requests s (s_requests s ++ [row]))
  = match request id s with
    | Some r => Some r
    | None => if r_id row =? id then Some row else None
    end.
Proof. unfold request. simpl. rewrite select1_app. by destruct (select1 _ _). Qed.

(** ** The invariant *)

Record store_ok (s : store) : Prop := {
  ok_callers : NoDup (map c_id (s_callers s));
  ok_names : NoDup (map c_name (s_callers s));
  ok_tokens : NoDup (map t_hash (s_tokens s));
  ok_policies : NoDup (map y_caller (s_policies s));
  ok_requests : NoDup (map r_id (s_requests s));
  ok_approvals : NoDup (map a_id (s_approvals s));
  ok_token_fk : forall t, In t (s_tokens s) -> In (t_caller t) (map c_id (s_callers s));
  ok_request_fk : forall r, In r (s_requests s) -> In (r_caller_id r) (map c_id (s_callers s));
  ok_approval_fk : forall a, In a (s_approvals s) -> In (a_request_id a) (map r_id (s_requests s));
  ok_keys : forall r1 r2 key, In r1 (s_requests s) -> In r2 (s_requests s) ->
    r_caller_id r1 = r_caller_id r2 -> r_key r1 = Some key -> r_key r2 = Some key -> r_id r1 = r_id r2;
  ok_private : forall r, In r (s_requests s) -> terminal (r_status r) = true ->
    r_arguments_json r = None /\ r_action_json r = None }.

Lemma empty_store_ok uuid : store_ok (empty_store uuid).
Proof. constructor; simpl; try apply NoDup_nil; done || tauto. Qed.

Lemma NoDup_snoc_fresh (ids : list Z) : NoDup ids -> NoDup (ids ++ [next_id ids]).
Proof.
  intros H. apply NoDup_app. split; [done |]. split; [|apply NoDup_singleton].
  intros x Hx ->%list_elem_of_singleton. by apply (next_id_not_in ids), list_elem_of_In.
Qed.

Lemma NoDup_snoc {A} (l : list A) x : NoDup l -> ~ In x l -> NoDup (l ++ [x]).
Proof.
  intros H Hn. apply NoDup_app. split; [done |]. split; [|apply NoDup_singleton].
  intros y Hy ->%list_elem_of_singleton. by apply Hn, list_elem_of_In.
Qed.

Lemma select1_key_None {A B} (key : A -> B) (p : A -> bool) l k :
  (forall x, key x = k -> p x = true) -> select1 p l = None -> ~ In k (map key l).
Proof.
  intros Hp Hs (x & Hk & Hx)%in_map_iff. specialize (Hp x Hk).
  rewrite (select1_None _ _ Hs x Hx) in Hp. done.
Qed.

Lemma In_snoc {A} (x y : A) l : In x (l ++ [y]) <-> In x l \/ x = y.
Proof. rewrite in_app_iff. simpl. intuition congruence. Qed.

Lemma map_snoc {A B} (f : A -> B) l x : map f (l ++ [x]) = map f l ++ [f x].
Proof. by rewrite map_app. Qed.

(** The tables an operation leaves alone keep their part of the invariant. *)
Ltac keep_ok Hs := destruct Hs; constructor; simpl; try assumption.

Lemma ok_update_requests (p : request_row -> bool) f s l :
  s_requests s = l ->
  (forall r, same_identity r (f r)) ->
  (forall r, In r l -> p r = true -> terminal (r_status (f r)) = true ->
     r_arguments_json (f r) = None /\ r_action_json (f r) = None) ->
  store_ok s -> store_ok (with_requests s (update_where p f l)).
Proof.
  intros <- Hid Hpriv Hs.
  assert (map r_id (update_where p f (s_requests s)) = map r_id (s_requests s)) as Hm
    by (apply update_where_map; intros r; apply Hid).
  keep_ok Hs; try (by rewrite Hm).
  - intros r (x & Hx & ->)%update_where_In.
    destruct (p x); [destruct (Hid x) as (_ & -> & _) |]; auto.
  - intros r1 r2 key (x1 & H1 & ->)%update_where_In (x2 & H2 & ->)%update_where_In.
    destruct (Hid x1) as (E1 & E2 & _ & _ & E3 & _). destruct (Hid x2) as (F1 & F2 & _ & _ & F3 & _).
    destruct (p x1), (p x2); rewrite ?E1, ?E2, ?E3, ?F1, ?F2, ?F3; eauto.
  - intros r (x & Hx & ->)%update_where_In. destruct (p x) eqn:Hp; auto.
Qed.

Lemma ok_update_approvals (p : approval_row -> bool) f s l :
  s_approvals s = l ->
  (forall a, a_id (f a) = a_id a) -> (forall a, a_request_id (f a) = a_request_id a) ->
  store_ok s -> store_ok (with_approvals s (update_where p f l)).
Proof.
  intros <- Hi Hr Hs. keep_ok Hs.
  - by rewrite update_where_map.
  - intros a (x & Hx & ->)%update_where_In. destruct (p x); rewrite ?Hr; auto.
Qed.

Lemma ok_update_tokens p now s :
  store_ok s -> store_ok (with_tokens s (update_where p (set_revoked_token now) (s_tokens s))).
Proof.
  intros Hs. keep_ok Hs.
  - by rewrite update_where_map.
  - intros t (x & Hx & ->)%update_where_In. destruct (p x); simpl; auto.
Qed.

Lemma ok_with_audit l s : store_ok s -> store_ok (with_audit s l).
Proof. intros Hs. keep_ok Hs. Qed.

Lemma upsert_policy_keys now c p l :
  NoDup (map y_caller l) -> NoDup (map y_caller (upsert_policy now c p l)).
Proof.
  intros H. unfold upsert_policy. destruct (select1 _ l) eqn:E.
  - assert (map y_caller (update_where (fun y => y_caller y =? c) (fun _ => PolicyRow c p now) l)
            = map y_caller l) as ->; [|done].
    unfold update_where. rewrite map_map. apply map_ext. intros y.
    destruct (y_caller y =? c) eqn:Ey; to_prop; simpl; auto.
  - rewrite map_snoc. apply NoDup_snoc; [done |]. simpl.
    eapply select1_key_None; [|done]. intros y <-. apply Z.eqb_refl.
Qed.

Lemma ok_write_policy now c p s s' : store_ok s -> _write_policy now c p s = Ok s' -> store_ok s'.
Proof.
  unfold _write_policy. intros Hs H. destruct (caller_by_id s c); [|done]. injection H as <-.
  apply ok_update_requests; [done | by intros; repeat split | done |].
  apply ok_update_approvals; try done.
  keep_ok Hs. by apply upsert_policy_keys.
Qed.

Lemma ok_finish_pending now id st ast err state dl s b s' :
  store_ok s -> finish_pending now id st ast err state dl s = Ok (b, s') -> store_ok s'.
Proof.
  unfold finish_pending. intros Hs H.
  destruct (request id s) as [r|], (approval_for_request id s) as [a|]; try (by simplify_eq).
  case_match; [by simplify_eq |]. inv_bind. destruct a0 as [[st' ast'] err']. simplify_eq.
  apply ok_update_approvals; try done. apply ok_update_requests; try done.
Qed.

Lemma run_admin_ok o s : store_ok s -> store_ok (run_admin o s).
Proof.
  intros Hs. destruct o; simpl.
  - unfold add_caller, caller_by_name. destruct (select1 _ _) eqn:E; simpl; [done |].
    keep_ok Hs; rewrite ?map_snoc; cbn [c_id c_name t_hash].
    + by apply NoDup_snoc_fresh.
    + apply NoDup_snoc; [done |]. eapply select1_key_None; [|done]. intros y <-. apply String.eqb_refl.
    + intros t Ht. apply in_app_iff. auto.
    + intros r Hr. apply in_app_iff. auto.
  - keep_ok Hs.
    + by rewrite update_where_map.
    + by rewrite update_where_map.
    + intros. rewrite update_where_map; auto.
    + intros. rewrite update_where_map; auto.
  - unfold add_token. destruct (select1 _ _) eqn:E, (caller_by_id s caller_id) eqn:E2; try done.
    apply select1_Some in E2 as [Hc Hid]. to_prop. keep_ok Hs; rewrite ?map_snoc; cbn [c_id c_name t_hash].
    + apply NoDup_snoc; [done |]. eapply select1_key_None; [|done]. intros y <-. apply String.eqb_refl.
    + intros t [Ht | ->]%In_snoc; [auto |]. simpl. subst. by apply in_map.
  - by apply ok_update_tokens.
  - by apply ok_update_tokens.
  - unfold revoke_token_by_prefix, validate_token_prefix, raise_if.
    case_match; simpl; [done | by apply ok_update_tokens].
  - unfold set_policy. destruct (_write_policy _ _ _ _) eqn:E; [by eapply ok_write_policy | done].
  - unfold compare_and_set_policy. repeat case_match; try done.
    destruct (_write_policy _ _ _ _) eqn:E; simpl; [|done].
    eapply ok_with_audit, ok_write_policy; eauto.
  - destruct (terminal st); [|done].
    destruct (finish_pending _ _ _ _ _ _ _ _) as [[b s']|e] eqn:E; simpl; [by eapply ok_finish_pending | done].
  - unfold prune_payloads. simpl. apply (ok_update_requests (prunable now)).
    + done.
    + by intros; repeat split.
    + done.
    + by apply ok_update_approvals.
  - by apply ok_with_audit.
  - by apply ok_with_audit.
  - keep_ok Hs.
Qed.

(** ** Other processes never touch an action in flight *)

Lemma with_requests_id s : with_requests s (s_requests s) = s.
Proof. by destruct s. Qed.

Definition rewrites (w : request_row -> request_row -> Prop) (o o' : option request_row) : Prop :=
  match o, o' with
  | Some r, Some r' => w r r'
  | None, None => True
  | _, _ => False
  end.

Lemma rewrites_same s s' id :
  s_requests s' = s_requests s -> rewrites admin_write (request id s) (request id s').
Proof. intros E. unfold request. rewrite E. destruct (select1 _ _); simpl; [by apply aw_same | done]. Qed.

Lemma rewrites_update (w : request_row -> request_row -> Prop) (p : request_row -> bool) f id s0 s l :
  s_requests s = l -> s_requests s0 = l -> (forall r, r_id (f r) = r_id r) -> (forall r, w r r) ->
  (forall r, request id s0 = Some r -> p r = true -> w r (f r)) ->
  rewrites w (request id s0) (request id (with_requests s (update_where p f l))).
Proof.
  intros <- E0 Hf Hr Hw. rewrite request_update by done.
  assert (request id s0 = request id s) as E1 by (unfold request; by rewrite E0).
  rewrite E1 in Hw |- *. destruct (request id s) as [r|] eqn:E; simpl; [|done]. destruct (p r) eqn:Hp; auto.
Qed.

Lemma write_policy_rewrites now c p s s' id :
  _write_policy now c p s = Ok s' -> rewrites admin_write (request id s) (request id s').
Proof.
  unfold _write_policy. destruct (caller_by_id s c); [|done]. intros H. injection H as <-.
  apply rewrites_update; try done; [by intros; apply aw_same |].
  unfold owned_pending, is_status. intros r _ Hp. to_prop. by eapply aw_close; [| |reflexivity].
Qed.

Lemma finish_pending_rewrites now id0 st ast err state dl s b s' id :
  terminal st = true -> finish_pending now id0 st ast err state dl s = Ok (b, s') ->
  rewrites admin_write (request id s) (request id s').
Proof.
  unfold finish_pending. intros Hst H.
  destruct (request id0 s) as [r|] eqn:Er, (approval_for_request id0 s) as [a|] eqn:Ea;
    try (by simplify_eq; apply rewrites_same).
  case_match; [by simplify_eq; apply rewrites_same |]. inv_bind.
  destruct a0 as [[st' ast'] err'] eqn:Ep. simplify_eq. to_prop.
  apply (rewrites_update admin_write (fun r => r_id r =? id0) (r_finish st' err' now)); try done.
  - by intros; apply aw_same.
  - intros r' Hr' Hid. to_prop. apply aw_close with st' err' now; try done.
    + rewrite (request_id_eq _ _ _ Hr') in Hid. subst. rewrite Hr' in Er. injection Er as ->.
      unfold is_status in *. by to_prop.
    + case_match; [by inv_bind |]. inv_bind. case_match; by simplify_eq.
Qed.

Lemma run_admin_rewrites o s id :
  rewrites admin_write (request id s) (request id (run_admin o s)).
Proof.
  destruct o; simpl; try (by apply rewrites_same).
  - destruct (add_caller now name s) as [[i s2]|e] eqn:E; simpl; [|by apply rewrites_same].
    unfold add_caller in E. case_match; simplify_eq. by apply rewrites_same.
  - unfold add_token. repeat case_match; simplify_eq; by apply rewrites_same.
  - unfold revoke_token_by_prefix, validate_token_prefix, raise_if.
    case_match; by apply rewrites_same.
  - unfold set_policy. destruct (_write_policy _ _ _ _) eqn:E; [|by apply rewrites_same].
    by eapply write_policy_rewrites.
  - unfold compare_and_set_policy. repeat (case_match; simpl; try (by apply rewrites_same)).
    destruct (_write_policy _ _ _ _) eqn:E; simpl; [|by apply rewrites_same].
    by eapply write_policy_rewrites in E.
  - destruct (terminal st) eqn:Ht; [|by apply rewrites_same].
    destruct (finish_pending _ _ _ _ _ _ _ _) as [[b s']|e] eqn:E; simpl; [|by apply rewrites_same].
    by eapply finish_pending_rewrites.
  - unfold prune_payloads. simpl.
    apply rewrites_update; try done.
    + by intros; apply aw_same.
    + unfold prunable. intros r _ Hp. to_prop. by eapply aw_prune.
Qed.

(** A row that is received or executing is left exactly as it is. *)
Lemma run_admin_in_flight o s id r :
  request id s = Some r -> in_flight (r_status r) = true -> request id (run_admin o s) = Some r.
Proof.
  intros Hr Hf. pose proof (run_admin_rewrites o s id) as H. rewrite Hr in H. simpl in H.
  destruct (request id (run_admin o s)) as [r'|]; [|done].
  destruct H as [-> | st err now E _ _ | now E _]; [done | |];
    destruct (r_status r); done.
Qed.

Lemma run_admins_in_flight os s id r :
  request id s = Some r -> in_flight (r_status r) = true -> request id (run_admins os s) = Some r.
Proof.
  revert s. induction os as [|o os IH]; simpl; [done |].
  intros s Hr Hf. apply IH; [|done]. by apply run_admin_in_flight.
Qed.

Lemma run_admins_None os s id : request id s = None -> request id (run_admins os s) = None.
Proof.
  revert s. induction os as [|o os IH]; simpl; [done |]. intros s Hs. apply IH.
  pose proof (run_admin_rewrites o s id) as H. rewrite Hs in H. simpl in H.
  by destruct (request id (run_admin o s)).
Qed.

(** Past [pending_approval] a row never comes back. *)
Definition stage (st : req_status) : Z :=
  match st with
  | received => 0 | pending_approval => 1 | executing | running => 2
  | _ => 3
  end.

Lemma admin_write_stage r r' : admin_write r r' -> stage (r_status r) <= stage (r_status r').
Proof.
  intros [-> | st err now -> Ht -> | now Ht ->]; simpl; [lia | by destruct st |].
  unfold is_status. case_bool_decide as E; [rewrite E; simpl; lia | lia].
Qed.

Lemma run_admins_some os s id r :
  request id s = Some r ->
  exists r', request id (run_admins os s) = Some r' /\ same_identity r r'
    /\ stage (r_status r) <= stage (r_status r').
Proof.
  revert s r. induction os as [|o os IH]; simpl; intros s r Hr.
  - exists r. repeat split; [done | lia].
  - pose proof (run_admin_rewrites o s id) as H. rewrite Hr in H. simpl in H.
    destruct (request id (run_admin o s)) as [r1|] eqn:E1; [|done].
    destruct (IH _ _ E1) as (r2 & E2 & Hi & Hs). exists r2. split; [done |].
    pose proof (admin_write_identity _ _ H). pose proof (admin_write_stage _ _ H).
    split; [|lia]. unfold same_identity in *. intuition congruence.
Qed.

Lemma run_admins_ok os s : store_ok s -> store_ok (run_admins os s).
Proof.
  revert s. induction os as [|o os IH]; simpl; [done |].
  intros s Hs. by apply IH, run_admin_ok.
Qed.

(** ** Tokens and callers only ever gain revocations *)

Inductive grows {A} (revoke : Z -> A -> A) (l : list A) : list A -> Prop :=
| gr_same : grows revoke l l
| gr_revoke p now : grows revoke l (update_where p (revoke now) l)
| gr_add x : grows revoke l (l ++ [x]).

Lemma write_policy_tables now c p s s' :
  _write_policy now c p s = Ok s' -> s_tokens s' = s_tokens s /\ s_callers s' = s_callers s.
Proof. unfold _write_policy. destruct (caller_by_id s c); [|done]. by intros [= <-]. Qed.

Lemma finish_pending_tables now id st ast err state dl s b s' :
  finish_pending now id st ast err state dl s = Ok (b, s') ->
  s_tokens s' = s_tokens s /\ s_callers s' = s_callers s.
Proof.
  unfold finish_pending. intros H.
  destruct (request id s) as [r|], (approval_for_request id s) as [a|]; try (by simplify_eq).
  case_match; [by simplify_eq |]. inv_bind. destruct a0 as [[st' ast'] err']. by simplify_eq.
Qed.

Lemma grows_eq {A} revoke (l l' : list A) : l' = l -> grows revoke l l'.
Proof. intros ->. constructor. Qed.

Lemma run_admin_grows o s :
  grows set_revoked_token (s_tokens s) (s_tokens (run_admin o s))
  /\ grows set_revoked_caller (s_callers s) (s_callers (run_admin o s)).
Proof.
  destruct o; simpl; try (split; constructor).
  - unfold add_caller. case_match; split; constructor.
  - unfold add_token. repeat case_match; split; simplify_eq; constructor.
  - unfold revoke_token_by_prefix, validate_token_prefix, raise_if. case_match; split; constructor.
  - unfold set_policy. case_match; [|split; constructor].
    destruct (write_policy_tables _ _ _ _ _ H) as [-> ->]. split; constructor.
  - unfold compare_and_set_policy. repeat (case_match; simpl; try (split; constructor)).
    destruct (_write_policy _ _ _ _) eqn:E; simpl; [|split; constructor].
    destruct (write_policy_tables _ _ _ _ _ E) as [-> ->]. split; constructor.
  - case_match; [|split; constructor].
    destruct (finish_pending _ _ _ _ _ _ _ _) as [[b s']|e] eqn:E; simpl; [|split; constructor].
    destruct (finish_pending_tables _ _ _ _ _ _ _ _ _ _ E) as [-> ->]. split; constructor.
Qed.

(** ** Approvals keep what the human was shown *)

Definition same_approval (a a' : approval_row) : Prop :=
  a_id a' = a_id a /\ a_request_id a' = a_request_id a /\ a_surface_ref a' = a_surface_ref a
  /\ a_expires_at a' = a_expires_at a /\ a_request_digest a' = a_request_digest a.

Inductive rewritten (l : list approval_row) : list approval_row -> Prop :=
| rw_same : rewritten l l
| rw_update p f : (forall a, same_approval a (f a)) -> rewritten l (update_where p f l)
| rw_append a : rewritten l (l ++ [a]).

Lemma rewritten_approval s s' id a :
  rewritten (s_approvals s) (s_approvals s') -> approval_for_request id s = Some a ->
  exists a', approval_for_request id s' = Some a' /\ same_approval a a'.
Proof.
  unfold approval_for_request. intros Hr Ha. inversion Hr as [E | p f Hf E | x E].
  - exists a. split; [done | by repeat split].
  - exists (if p a then f a else a). rewrite select1_update_where, Ha.
    + split; [done |]. destruct (p a); [apply Hf | by repeat split].
    + intros x. destruct (Hf x) as (_ & -> & _). done.
  - exists a. rewrite select1_app, Ha. split; [done | by repeat split].
Qed.

Lemma write_policy_approvals now c p s s' :
  _write_policy now c p s = Ok s' -> rewritten (s_approvals s) (s_approvals s').
Proof. unfold _write_policy. destruct (caller_by_id s c); [|done]. intros [= <-]. by apply rw_update. Qed.

Lemma finish_pending_approvals now id st ast err state dl s b s' :
  finish_pending now id st ast err state dl s = Ok (b, s') -> rewritten (s_approvals s) (s_approvals s').
Proof.
  unfold finish_pending. intros H.
  destruct (request id s) as [r|], (approval_for_request id s) as [a|]; try (simplify_eq; constructor).
  case_match; [simplify_eq; constructor |]. inv_bind. destruct a0 as [[st' ast'] err']. simplify_eq.
  by apply rw_update.
Qed.

Lemma run_admin_approvals o s : rewritten (s_approvals s) (s_approvals (run_admin o s)).
Proof.
  destruct o; simpl; try constructor.
  - unfold add_caller. case_match; constructor.
  - unfold add_token. repeat case_match; simplify_eq; constructor.
  - unfold revoke_token_by_prefix, validate_token_prefix, raise_if. case_match; constructor.
  - unfold set_policy. destruct (_write_policy _ _ _ _) eqn:E; [by eapply write_policy_approvals | constructor].
  - unfold compare_and_set_policy. repeat (case_match; simpl; try constructor).
    destruct (_write_policy _ _ _ _) eqn:E; simpl; [by eapply write_policy_approvals in E | constructor].
  - case_match; [|constructor].
    destruct (finish_pending _ _ _ _ _ _ _ _) as [[b s']|e] eqn:E; simpl; [|constructor].
    by eapply finish_pending_approvals.
  - done.
Qed.
