(* ===== verification/StoreSpec.v ===== *)
(** Histories of the broker's store and what every one of them guarantees:
    the invariant, permanent revocation, idempotent reservation, exclusive
    claims, the approval deadline and payload pruning. *)

From stdpp Require Import base tactics list strings.
From Stdlib Require Import ZArith Lia Ascii.
From S2P Require Import Prelude PyStr Json JsonFacts Policy Action Store StoreFacts.

Lemma live_row_None {A} (f : A -> option Z) x : live_row f x = true -> f x = None.
Proof. unfold live_row. by destruct (f x). Qed.

(** [to_prop] for the tests the store makes. *)
Ltac store_prop :=
  unfold is_status, by_key in *; to_prop;
  repeat match goal with
  | H : live_row _ _ = true |- _ => apply live_row_None in H
  | H : String.eqb _ _ = true |- _ => apply String.eqb_eq in H
  end.

Section Spec.
Context `{Digest}.

(** Every transaction of a live deployment.  The broker's own calls of
    [update_request] always set a status. *)
Inductive store_op :=
| Admin (o : admin_op)
| Reserve (now : Z) (nonce : string) (k : caller) (correlation_id tool op : string)
    (arguments : json) (reason : option string) (generation : string) (key : json)
| ClaimReceived (now id : Z) (generation : option string) (k : option caller) (digest : option string)
| ClaimApproval (now id : Z) (generation : option string) (state : surface_state) (k : option caller)
| CreateApproval (now id : Z) (surface_ref : string) (expires_at : Z) (digest : option string)
| UpdateRequest (now id : Z) (st : req_status) (result error : option (option string))
| CreateRequest (now : Z) (correlation_id : string) (caller_id : Z) (tool op : string) (st : req_status).

Definition status_fields (st : req_status) (result error : option (option string)) : req_fields :=
  ReqFields (Some st) None result error None None None None.

Definition run_op (o : store_op) (s : store) : store :=
  match o with
  | Admin o => run_admin o s
  | Reserve now nonce k corr tool op args reason gen key =>
      match reserve_action now nonce k corr tool op args reason gen key s with
      | Ok (_, _, _, s') => s' | Raise _ => s end
  | ClaimReceived now id gen k d => (claim_received now id gen k d s).2
  | ClaimApproval now id gen state k => (claim_approval id gen state now k s).2
  | CreateApproval now id ref exp d => committed s (create_approval now id ref exp d s)
  | UpdateRequest now id st result error => update_request now id (status_fields st result error) s
  | CreateRequest now corr c tool op st => committed s (create_request now corr c tool op st s)
  end.

Definition run_ops (os : list store_op) (s : store) : store := foldl (fun s o => run_op o s) s os.

(** *** The invariant is preserved *)

Lemma ok_append_request s row :
  store_ok s -> r_id row = next_id (map r_id (s_requests s)) ->
  In (r_caller_id row) (map c_id (s_callers s)) ->
  (forall r key, In r (s_requests s) -> r_caller_id r = r_caller_id row -> r_key r = Some key ->
     r_key row <> Some key) ->
  (terminal (r_status row) = true -> r_arguments_json row = None /\ r_action_json row = None) ->
  store_ok (with_requests s (s_requests s ++ [row])).
Proof.
  intros Hs Hid Hfk Hkey Hpriv. keep_ok Hs; rewrite ?map_snoc.
  - rewrite Hid. by apply NoDup_snoc_fresh.
  - intros r [Hr | ->]%In_snoc; auto.
  - intros a Ha. apply in_app_iff. auto.
  - intros r1 r2 key [H1 | ->]%In_snoc [H2 | ->]%In_snoc Hc K1 K2; eauto.
    + destruct (Hkey _ _ H1 Hc K1 K2).
    + destruct (Hkey _ _ H2 (eq_sym Hc) K2 K1).
  - intros r [Hr | ->]%In_snoc; auto.
Qed.

Lemma caller_fk id s c : caller_by_id s id = Some c -> In id (map c_id (s_callers s)).
Proof. intros [Hc Hid]%select1_Some. to_prop. subst. by apply in_map. Qed.

Lemma live_caller id k s : _live id k s = true -> exists c, caller_by_id s id = Some c /\ c_revoked_at c = None.
Proof.
  unfold _live. destruct (caller_by_id s id) as [c|]; [|done]. intros Hl. exists c. to_prop.
  unfold live_row in *. by destruct (c_revoked_at c).
Qed.

(** What a reservation that created a row inserted. *)
Lemma reserve_created now nonce k corr tool op args reason gen key s row created conflict s' :
  reserve_action now nonce k corr tool op args reason gen key s = Ok (row, created, conflict, s') ->
  (created = false /\ s' = s /\ In row (s_requests s) /\ r_caller_id row = k_id k
    /\ exists key', key = JStr key' /\ r_key row = Some key')
  \/ (created = true /\ conflict = false /\ s' = with_requests s (s_requests s ++ [row])
      /\ r_id row = next_id (map r_id (s_requests s)) /\ r_status row = received
      /\ r_caller_id row = k_id k /\ _live (k_id k) (Some k) s = true
      /\ validate_idempotency_key key = Ok (r_key row)
      /\ (forall key', r_key row = Some key' -> select1 (by_key (k_id k) key') (s_requests s) = None)).
Proof.
  unfold reserve_action. intros Hr. inv_bind. destruct a1 as [action binding].
  inv_bind. to_prop. destruct (a ≫= _) as [prior|] eqn:Ep.
  - left. inv_bind. simplify_eq. destruct a as [key'|]; [|done]. simpl in Ep.
    apply select1_Some in Ep as [Hin Hk]. unfold by_key in Hk. to_prop.
    repeat (split; [done |]). exists key'. split; [|done].
    unfold validate_idempotency_key in E. destruct key; try done. case_match; by simplify_eq.
  - right. simplify_eq. repeat (split; [done |]). intros key' [= ->]. done.
Qed.

Lemma key_free c key l : select1 (by_key c key) l = None ->
  forall r, In r l -> r_caller_id r = c -> r_key r <> Some key.
Proof.
  intros Hn r Hr Hc Hk. pose proof (select1_None _ _ Hn r Hr) as Hb. unfold by_key in Hb.
  rewrite Hc, Z.eqb_refl in Hb. by rewrite bool_decide_eq_true_2 in Hb.
Qed.

Lemma effective_private f st r now :
  f_status f = Some st -> terminal st = true ->
  r_arguments_json (apply_fields (effective_fields f) now r) = None
  /\ r_action_json (apply_fields (effective_fields f) now r) = None.
Proof. intros Hf Ht. unfold effective_fields. by rewrite Hf, Ht. Qed.

Lemma effective_status f st : f_status f = Some st -> f_status (effective_fields f) = Some st.
Proof. intros Hf. unfold effective_fields. rewrite Hf. by destruct (terminal st). Qed.

Lemma update_request_eq now id st result error s :
  update_request now id (status_fields st result error) s
  = with_requests s (update_where (fun r => r_id r =? id)
      (apply_fields (effective_fields (status_fields st result error)) now) (s_requests s)).
Proof. unfold update_request, effective_fields. simpl. by destruct (terminal st). Qed.

Lemma ok_claim_received now id gen k d s : store_ok s -> store_ok (claim_received now id gen k d s).2.
Proof.
  intros Hs. unfold claim_received, set_request. repeat case_match; simpl; try done;
    by apply ok_update_requests.
Qed.

Lemma ok_claim_approval now id gen state k s : store_ok s -> store_ok (claim_approval id gen state now k s).2.
Proof.
  intros Hs. unfold claim_approval, set_request, set_approvals.
  repeat (case_match; simpl; try done); apply ok_update_approvals; try done;
    by apply ok_update_requests.
Qed.

Lemma run_op_ok o s : store_ok s -> store_ok (run_op o s).
Proof.
  intros Hs. destruct o; simpl.
  - by apply run_admin_ok.
  - destruct (reserve_action _ _ _ _ _ _ _ _ _ _ _) as [[[[row b] c] s']|] eqn:E; [|done].
    apply reserve_created in E as [(_ & -> & _) | (_ & _ & -> & Hid & Hst & Hc & Hl & _ & Hk)]; [done |].
    apply ok_append_request; try done.
    + rewrite Hc. apply live_caller in Hl as (x & Hx & _). by eapply caller_fk.
    + intros r key' Hr Hrc Hrk Heq. eapply key_free; [by apply Hk | done | congruence | done].
    + by rewrite Hst.
  - by apply ok_claim_received.
  - by apply ok_claim_approval.
  - unfold create_approval. destruct (request id s) eqn:E; simpl; [|done].
    keep_ok Hs; rewrite ?map_snoc; [by apply NoDup_snoc_fresh |].
    intros a [Ha | ->]%In_snoc; [auto |]. simpl.
    rewrite <- (request_id_eq _ _ _ E). by apply in_map, (select1_Some _ _ _ E).
  - rewrite update_request_eq. apply ok_update_requests; try done.
    intros r _ _ Ht. eapply effective_private; [done |].
      unfold effective_fields in Ht. simpl in Ht. destruct (terminal st) eqn:E; [done |]. simpl in Ht. congruence.
  - unfold create_request. destruct (caller_by_id s caller_id) eqn:E; simpl; [|done].
    apply ok_append_request; try done. by eapply caller_fk.
Qed.

Lemma run_ops_ok os s : store_ok s -> store_ok (run_ops os s).
Proof.
  revert s. induction os as [|o os IH]; simpl; [done |]. intros s Hs. by apply IH, run_op_ok.
Qed.

(** *** Rows keep their identity *)

Definition keeps (s s' : store) : Prop :=
  forall id r, request id s = Some r ->
  exists r', request id s' = Some r' /\ same_identity r r'.

Lemma keeps_refl s : keeps s s.
Proof. intros id r Hr. exists r. by repeat split. Qed.

Lemma keeps_trans s1 s2 s3 : keeps s1 s2 -> keeps s2 s3 -> keeps s1 s3.
Proof.
  intros H1 H2 id r Hr. destruct (H1 _ _ Hr) as (r1 & E1 & I1). destruct (H2 _ _ E1) as (r2 & E2 & I2).
  exists r2. split; [done |]. unfold same_identity in *. intuition congruence.
Qed.

Lemma keeps_update (p : request_row -> bool) f s0 s l :
  s_requests s = l -> s_requests s0 = l -> (forall r, same_identity r (f r)) ->
  keeps s0 (with_requests s (update_where p f l)).
Proof.
  intros Hl H0 Hf id r Hr.
  pose proof (rewrites_update same_identity p f id s0 s l Hl H0) as Hw. rewrite Hr in Hw.
  destruct (request id (with_requests s _)) as [r'|].
  - exists r'. split; [done |]. apply Hw; try (intros; apply Hf); by intros; repeat split.
  - destruct Hw; try (intros; apply Hf); by intros; repeat split.
Qed.

Lemma keeps_same s s' : s_requests s' = s_requests s -> keeps s s'.
Proof. intros E id r Hr. exists r. unfold request in *. rewrite E. by repeat split. Qed.

Lemma keeps_approvals s0 s l : keeps s0 s -> keeps s0 (with_approvals s l).
Proof. intros Hk. eapply keeps_trans; [done |]. by apply keeps_same. Qed.

Lemma keeps_append s row : keeps s (with_requests s (s_requests s ++ [row])).
Proof. intros id r Hr. exists r. rewrite request_app, Hr. by repeat split. Qed.

Lemma keeps_run_op o s : keeps s (run_op o s).
Proof.
  destruct o; simpl.
  - intros id r Hr. destruct (run_admins_some [o] s id r Hr) as (r' & ? & ? & _). by exists r'.
  - destruct (reserve_action _ _ _ _ _ _ _ _ _ _ _) as [[[[row b] c] s']|] eqn:E; [|apply keeps_refl].
    apply reserve_created in E as [(_ & -> & _) | (_ & _ & -> & _)]; [apply keeps_refl | apply keeps_append].
  - unfold claim_received, set_request. repeat (case_match; simpl; try apply keeps_refl);
      by apply keeps_update.
  - unfold claim_approval, set_request, set_approvals.
    repeat (case_match; simpl; try apply keeps_refl);
      by apply keeps_approvals, keeps_update.
  - unfold create_approval. case_match; simpl; [by apply keeps_same | apply keeps_refl].
  - rewrite update_request_eq. apply keeps_update; try done.
  - unfold create_request. case_match; simpl; [apply keeps_append | apply keeps_refl].
Qed.

Lemma keeps_run_ops os s : keeps s (run_ops os s).
Proof.
  revert s. induction os as [|o os IH]; intros s; simpl; [apply keeps_refl |].
  eapply keeps_trans; [apply keeps_run_op | apply IH].
Qed.

(** *** Revocation *)

Lemma run_op_grows o s :
  grows set_revoked_token (s_tokens s) (s_tokens (run_op o s))
  /\ grows set_revoked_caller (s_callers s) (s_callers (run_op o s)).
Proof.
  destruct o; simpl; [apply run_admin_grows | | | | | |].
  - destruct (reserve_action _ _ _ _ _ _ _ _ _ _ _) as [[[[row b] c] s']|] eqn:E; [|split; constructor].
    apply reserve_created in E as [(_ & -> & _) | (_ & _ & -> & _)]; split; constructor.
  - unfold claim_received. repeat case_match; split; constructor.
  - unfold claim_approval. repeat (case_match; simpl); split; constructor.
  - unfold create_approval. case_match; split; constructor.
  - rewrite update_request_eq. split; constructor.
  - unfold create_request. case_match; split; constructor.
Qed.

Definition dead_token (h : string) (s : store) : Prop :=
  exists t, In t (s_tokens s) /\ t_hash t = h /\ t_revoked_at t <> None.

Definition dead_caller (id : Z) (s : store) : Prop :=
  exists c, In c (s_callers s) /\ c_id c = id /\ c_revoked_at c <> None.

Lemma grows_In {A} revoke (l l' : list A) x :
  grows revoke l l' -> In x l -> In x l' \/ exists now, In (revoke now x) l'.
Proof.
  intros [| p now | y] Hx; [auto | | rewrite in_app_iff; auto].
  destruct (p x) eqn:Hp; [right; exists now | left]; apply update_where_In; exists x; by rewrite Hp.
Qed.

Lemma dead_token_run_ops os s h : dead_token h s -> dead_token h (run_ops os s).
Proof.
  revert s. induction os as [|o os IH]; intros s Hd; simpl; [done |]. apply IH.
  destruct Hd as (t & Ht & Hh & Hr).
  destruct (grows_In _ _ _ t (proj1 (run_op_grows o s)) Ht) as [Hi | [now Hi]];
    [by exists t | by exists (set_revoked_token now t)].
Qed.

Lemma dead_caller_run_ops os s id : dead_caller id s -> dead_caller id (run_ops os s).
Proof.
  revert s. induction os as [|o os IH]; intros s Hd; simpl; [done |]. apply IH.
  destruct Hd as (c & Hc & Hh & Hr).
  destruct (grows_In _ _ _ c (proj2 (run_op_grows o s)) Hc) as [Hi | [now Hi]];
    [by exists c | by exists (set_revoked_caller now c)].
Qed.

Lemma NoDup_map_eq {A B} (f : A -> B) l x y :
  NoDup (map f l) -> In x l -> In y l -> f x = f y -> x = y.
Proof.
  induction l as [|z l IH]; simpl; [done |]. rewrite NoDup_cons. intros [Hn Hd] Hx Hy E.
  destruct Hx as [-> | Hx], Hy as [-> | Hy]; auto; destruct Hn; apply list_elem_of_In, in_map_iff; eauto.
Qed.

Lemma dead_token_unauthenticated h s : store_ok s -> dead_token h s -> caller_by_token_hash h s = None.
Proof.
  intros Hs (t & Ht & <- & Hr). unfold caller_by_token_hash.
  destruct (select1 _ (s_tokens s)) as [t'|] eqn:E; simpl; [|done].
  apply select1_Some in E as [Hi Hp]. store_prop. destruct Hr.
  by rewrite <- (NoDup_map_eq t_hash _ t' t (ok_tokens _ Hs) Hi Ht).
Qed.

Lemma authenticated_live h s k :
  caller_by_token_hash h s = Some k ->
  (exists c, In c (s_callers s) /\ c_id c = k_id k /\ c_name c = k_name k /\ c_revoked_at c = None)
  /\ (exists t, In t (s_tokens s) /\ t_hash t = h /\ t_caller t = k_id k /\ t_revoked_at t = None).
Proof.
  unfold caller_by_token_hash.
  destruct (select1 _ (s_tokens s)) as [t|] eqn:E; simpl; [|done].
  destruct (select1 _ (s_callers s)) as [c|] eqn:E2; simpl; [|done]. intros [= <-]. simpl.
  apply select1_Some in E as [Hi Hp], E2 as [Hi2 Hp2]. store_prop.
  split; [by exists c | by exists t].
Qed.

(** Revoking a token is permanent: whatever transactions the broker, the
    admin app and brokerctl run afterwards (issuing tokens included), the
    bearer of a token revoked by [revoke_token] is never authenticated again. *)
Theorem token_revocation_permanent (os : list store_op) (now : Z) (h : string) (s : store) :
  store_ok s -> In h (map t_hash (s_tokens s)) ->
  caller_by_token_hash h (run_ops os (revoke_token now h s)) = None.
Proof.
  intros Hs (t & <- & Ht)%in_map_iff. apply dead_token_unauthenticated.
  - apply run_ops_ok. by apply (run_admin_ok (RevokeToken now (t_hash t))).
  - apply dead_token_run_ops.
    destruct (t_revoked_at t) as [z|] eqn:E.
    + exists t. split; [|by rewrite E]. apply update_where_In. exists t. split; [done |].
      unfold live_row. by rewrite E, andb_false_r.
    + exists (set_revoked_token now t). split; [|done]. apply update_where_In. exists t.
      unfold live_row. by rewrite E, String.eqb_refl.
Qed.

(** Revoking a caller is permanent and covers every token, also the ones
    issued later: no history authenticates any bearer as that caller. *)
Theorem caller_revocation_permanent (os : list store_op) (now : Z) (c : caller_row) (s : store) (h : string) (k : caller) :
  store_ok s -> In c (s_callers s) ->
  caller_by_token_hash h (run_ops os (revoke_caller now (c_name c) s)) = Some k -> k_id k <> c_id c.
Proof.
  intros Hs Hc Hk E.
  destruct (authenticated_live _ _ _ Hk) as ((c' & Hi & Hid & _ & Hr) & _).
  assert (dead_caller (c_id c) (revoke_caller now (c_name c) s)) as Hd.
  { destruct (c_revoked_at c) as [z|] eqn:Ec.
    - exists c. split; [|by rewrite Ec]. apply update_where_In. exists c. split; [done |].
      unfold live_row. by rewrite Ec, andb_false_r.
    - exists (set_revoked_caller now c). split; [|done]. apply update_where_In. exists c.
      unfold live_row. by rewrite Ec, String.eqb_refl. }
  apply (dead_caller_run_ops os) in Hd as (d & Hdi & Hdid & Hdr).
  destruct Hdr. rewrite <- Hr. f_equal.
  eapply (NoDup_map_eq c_id); [|done | done | congruence].
  apply ok_callers, run_ops_ok. by apply (run_admin_ok (RevokeCaller now (c_name c))).
Qed.

(** *** Idempotent reservation *)

Lemma reserve_digest now nonce k corr tool op args reason gen key s row created conflict s' :
  reserve_action now nonce k corr tool op args reason gen key s = Ok (row, created, conflict, s') ->
  exists payload, canonical (payload_json tool op args (jopt reason)) = Ok payload
    /\ (created = true -> r_payload_digest row = Some (sha256_hex payload))
    /\ (created = false -> conflict = negb (bool_decide (r_payload_digest row = Some (sha256_hex payload)))).
Proof.
  unfold reserve_action. intros Hr. inv_bind. destruct a1 as [action binding]. inv_bind.
  exists a0. split; [done |]. destruct (a ≫= _) as [prior|]; inv_bind; by simplify_eq.
Qed.

(** The same call: the same operation with the same arguments, as JSON up to
    the order of their keys, for the same reason. *)
Definition same_call (tool op : string) (args : json) (reason : option string) (tool2 op2 : string) (args2 : json)
    (reason2 : option string) : Prop :=
  tool = tool2 /\ op = op2 /\ norm args = norm args2 /\ reason = reason2.

Lemma payload_norm tool op args reason :
  norm (payload_json tool op args (jopt reason))
  = JObj [("arguments"%string, norm args); ("op"%string, JStr op); ("reason"%string, jopt reason); ("tool"%string, JStr tool)].
Proof. destruct reason; reflexivity. Qed.

Lemma payload_wf tool op args reason : json_wf args -> json_wf (payload_json tool op args (jopt reason)).
Proof.
  intros Ha. constructor.
  - unfold dict_wf. apply NoDup_ListNoDup. repeat constructor; simpl; intuition discriminate.
  - repeat constructor; [done |]. destruct reason; constructor.
Qed.

(** The text that is hashed determines the call, and the other way round. *)
Lemma payload_text tool op args reason tool2 op2 args2 reason2 p1 p2 :
  canonical (payload_json tool op args (jopt reason)) = Ok p1 ->
  canonical (payload_json tool2 op2 args2 (jopt reason2)) = Ok p2 ->
  (same_call tool op args reason tool2 op2 args2 reason2 -> p1 = p2)
  /\ (json_wf args -> json_wf args2 -> p1 = p2 -> same_call tool op args reason tool2 op2 args2 reason2).
Proof.
  intros [_ ->]%canonical_ok [_ ->]%canonical_ok. unfold canonical_text. split.
  - intros (<- & <- & E & <-). by rewrite !payload_norm, E.
  - intros Hw1 Hw2 E%dump_norm_inj; [|by left | by apply payload_wf | by apply payload_wf].
    rewrite !payload_norm in E. injection E as E1 E2 E3 E4. split_and!; try done.
    destruct reason, reason2; simpl in E3; congruence.
Qed.

(** C7. An idempotency key is bound to the first call for good: once a
    keyed reservation created a row, in every later state a reservation by
    the same caller under the same key that is not refused creates nothing,
    changes nothing and returns that row. It reports no conflict when the tool,
    the operation, the arguments and the reason are those of the first call,
    and when it reports none they are, unless two different texts are seen to
    have the same SHA-256. *)
Theorem reservation_idempotent (os : list store_op) now nonce k corr tool op args reason gen key s row s1
    now2 nonce2 k2 corr2 tool2 op2 args2 reason2 gen2 row2 created conflict s3 :
  store_ok s ->
  reserve_action now nonce k corr tool op args reason gen (JStr key) s = Ok (row, true, false, s1) ->
  k_id k2 = k_id k ->
  reserve_action now2 nonce2 k2 corr2 tool2 op2 args2 reason2 gen2 (JStr key) (run_ops os s1)
    = Ok (row2, created, conflict, s3) ->
  created = false /\ s3 = run_ops os s1 /\ same_identity row row2
  /\ (same_call tool op args reason tool2 op2 args2 reason2 -> conflict = false)
  /\ (json_wf args -> json_wf args2 -> conflict = false ->
       same_call tool op args reason tool2 op2 args2 reason2
       \/ exists p1 p2, canonical (payload_json tool op args (jopt reason)) = Ok p1
            /\ canonical (payload_json tool2 op2 args2 (jopt reason2)) = Ok p2
            /\ p1 <> p2 /\ sha256_hex p1 = sha256_hex p2).
Proof.
  intros Hs H1 Hk H2.
  pose proof (reserve_digest _ _ _ _ _ _ _ _ _ _ _ _ _ _ _ H1) as (p1 & Hp1 & Hd1 & _).
  pose proof (reserve_digest _ _ _ _ _ _ _ _ _ _ _ _ _ _ _ H2) as (p2 & Hp2 & _ & Hd2).
  assert (store_ok s1) as Hok1.
  { pose proof (run_op_ok (Reserve now nonce k corr tool op args reason gen (JStr key)) s Hs) as Hx.
    simpl in Hx. by rewrite H1 in Hx. }
  apply reserve_created in H1 as [(? & _) | (_ & _ & -> & Hid & _ & Hc & _ & Hv & _)]; [done |].
  assert (r_key row = Some key) as Hkey.
  { simpl in Hv. destruct (word_dash_bounded 1 128 key); [by injection Hv | done]. }
  destruct (keeps_run_ops os (with_requests s (s_requests s ++ [row])) (r_id row) row) as (r' & Hr' & Hsame).
  { apply request_In; [apply Hok1 |]. simpl. apply In_snoc. auto. }
  pose proof (run_ops_ok os _ Hok1) as Hok2.
  assert (In r' (s_requests (run_ops os (with_requests s (s_requests s ++ [row]))))) as Hin
    by by apply (select1_Some _ _ _ Hr').
  pose proof Hsame as (E1 & E2 & _ & _ & E5 & E6 & _).
  apply reserve_created in H2 as [(-> & -> & Hin2 & Hc2 & key' & Hkey' & Hk2) | (_ & _ & _ & _ & _ & _ & _ & Hv2 & Hfree)].
  - injection Hkey' as <-.
    assert (row2 = r') as -> by
      (apply (NoDup_map_eq r_id (s_requests (run_ops os (with_requests s (s_requests s ++ [row])))));
       [apply Hok2 | done | done |]; eapply (ok_keys _ Hok2); eauto; congruence).
    repeat (split; [done |]). destruct (payload_text _ _ _ _ _ _ _ _ _ _ Hp1 Hp2) as [Hsame1 Hsame2].
    rewrite (Hd2 eq_refl), E6, (Hd1 eq_refl), negb_false_iff, bool_decide_eq_true. split.
    + intros Hcall. by rewrite (Hsame1 Hcall).
    + intros Hw1 Hw2 [= Heq]. destruct (decide (p1 = p2)) as [Ep | Ep]; [left; by apply Hsame2 | right].
      by exists p1, p2.
  - exfalso. simpl in Hv2. destruct (word_dash_bounded 1 128 key); [|done]. injection Hv2 as Hv2.
    eapply (key_free (k_id k2)); [by apply Hfree | done | congruence | congruence].
Qed.

(** *** The commit points *)

Lemma action_norm c tool op gen args reason nonce :
  norm (action_obj c tool op gen args (jopt reason) (JStr nonce))
  = JObj [("arguments"%string, norm args); ("caller_id"%string, JInt c); ("nonce"%string, JStr nonce);
          ("op"%string, JStr op); ("operation_generation"%string, JStr gen);
          ("reason"%string, jopt reason); ("tool"%string, JStr tool)].
Proof. destruct reason; reflexivity. Qed.

Lemma canonical_text_nonempty v : json_wf v -> PyStr.empty (canonical_text v) = false.
Proof.
  intros Hw. pose proof (dump_starter compact (norm v) (norm_wf v Hw)) as Hs. unfold canonical_text.
  by destruct (dump compact (norm v)).
Qed.

Lemma action_wf c tool op gen args reason nonce :
  json_wf args -> json_wf (action_obj c tool op gen args (jopt reason) (JStr nonce)).
Proof.
  intros Hw. constructor.
  - unfold dict_wf. cbn [dkeys map fst]. by apply (bool_decide_unpack _).
  - repeat constructor; try done. destruct reason; constructor.
Qed.

Lemma text_or_null_canonical v : json_wf v -> text_or_null (Some (canonical_text v)) = canonical_text v.
Proof. intros Hw. unfold text_or_null. by rewrite canonical_text_nonempty. Qed.

(** The row a reservation inserts passes [_bound] under its own generation. *)
Lemma bound_fresh r gen args reason nonce action binding text :
  json_wf args ->
  bound_request (r_caller_id r) (r_tool r) (r_op r) gen args (jopt reason) (JStr nonce) = Ok (action, binding) ->
  canonical args = Ok text ->
  r_action_json r = Some action -> r_arguments_json r = Some text -> r_request_digest r = Some binding ->
  _bound r gen = true.
Proof.
  intros Hw Hb Ha Hact Hargs Hd. unfold bound_request in Hb. inv_bind.
  apply canonical_ok in E as [Hnan ->], Ha as [Hnan2 ->].
  unfold _bound. rewrite Hact, Hargs, Hd, !text_or_null_canonical by auto using action_wf.
  rewrite !loads_canonical by auto using action_wf.
  rewrite action_norm.
  change (jget _ "nonce") with (JStr nonce).
  change (jget _ "arguments") with (norm args). change (jget _ "reason") with (jopt reason).
  cbn [is_null]. change (Ok (norm args) ≫= canonical) with (canonical (norm args)). unfold bound_request.
  rewrite <- action_norm, !canonical_norm.
  assert (canonical (action_obj (r_caller_id r) (r_tool r) (r_op r) gen (norm args) (jopt reason) (JStr nonce))
    = canonical (action_obj (r_caller_id r) (r_tool r) (r_op r) gen args (jopt reason) (JStr nonce))) as ->.
  { rewrite <- (canonical_norm (action_obj _ _ _ _ (norm args) _ _)), action_norm, norm_idem,
      <- action_norm. apply canonical_norm. }
  unfold canonical. rewrite Hnan, Hnan2. cbn [mbind res_bind].
  rewrite !String.eqb_refl. by rewrite bool_decide_eq_true_2.
Qed.

Lemma fresh_row now nonce k corr tool op args reason gen key s row conflict s1 :
  reserve_action now nonce k corr tool op args reason gen key s = Ok (row, true, conflict, s1) ->
  json_wf args ->
  _bound row gen = true /\ r_status row = received /\ r_caller_id row = k_id k /\ r_tool row = tool
  /\ r_op row = op /\ r_generation row = Some gen
  /\ r_policy_binding row = Some (policy_text (policy_for (k_id k) s)).
Proof.
  unfold reserve_action. intros Hr Hw. inv_bind. destruct a1 as [action binding].
  inv_bind. destruct (a ≫= _) as [prior|]; [by inv_bind; simplify_eq |]. simplify_eq.
  repeat split. by eapply bound_fresh.
Qed.

Lemma truthy_nonempty gen : gen <> EmptyString -> truthy_str (Some gen) = true.
Proof. by destruct gen. Qed.

Lemma request_set id f s r :
  (forall r, r_id (f r) = r_id r) -> request id s = Some r -> request id (set_request id f s) = Some (f r).
Proof.
  intros Hf Hr. unfold set_request. rewrite request_update, Hr by done. simpl.
  by rewrite (request_id_eq _ _ _ Hr), Z.eqb_refl.
Qed.

(** A reserved action runs exactly when the authority it was reserved
    under is still there: whatever the other processes did in between, the
    commit point of an allowed action succeeds iff the caller and its token
    are live, the caller's policy is the one bound at reservation and it
    allows the operation.  On success the row is executing with its private
    arguments, otherwise it is denied and they are cleared. *)
Theorem fresh_action_claim (os : list admin_op) now nonce k corr tool op args reason gen key s row s1 now2 :
  store_ok s -> json_wf args -> gen <> EmptyString ->
  reserve_action now nonce k corr tool op args reason gen key s = Ok (row, true, false, s1) ->
  let s2 := run_admins os s1 in
  let claim := claim_received now2 (r_id row) (Some gen) (Some k) (r_request_digest row) s2 in
  (claim.1 = true <->
     _live (k_id k) (Some k) s2 = true
     /\ policy_text (policy_for (k_id k) s2) = policy_text (policy_for (k_id k) s)
     /\ decide_op (policy_for (k_id k) s2) tool op = ALLOW)
  /\ request (r_id row) claim.2
     = Some (if claim.1 then r_mark executing now2 row
             else r_finish denied (Some "authority_changed"%string) now2 row).
Proof.
  intros Hs Hw Hg Hres. destruct (fresh_row _ _ _ _ _ _ _ _ _ _ _ _ _ _ Hres Hw)
    as (Hb & Hst & Hc & Ht & Ho & Hgen & Hp).
  assert (request (r_id row) s1 = Some row) as Hrow.
  { pose proof (run_op_ok (Reserve now nonce k corr tool op args reason gen key) s Hs) as Hx.
    simpl in Hx. rewrite Hres in Hx.
    apply reserve_created in Hres as [(? & _) | (_ & _ & -> & _)]; [done |].
    apply request_In; [apply Hx | apply In_snoc; auto]. }
  simpl. set (s2 := run_admins os s1).
  assert (request (r_id row) s2 = Some row) as Hrow2.
  { apply run_admins_in_flight; [done | by rewrite Hst]. }
  unfold claim_received. rewrite Hrow2. unfold claim_received_valid.
  rewrite Hst, Hc, Ht, Ho, Hgen, truthy_nonempty, Hp by done. change (default EmptyString (Some gen)) with gen. rewrite Hb.
  rewrite !(bool_decide_eq_true_2 (_ = _)) by done. rewrite !andb_true_r. cbn [andb is_status].
  destruct (_live (k_id k) (Some k) s2); cbn [andb].
  - case_bool_decide as E1; cbn [andb]; [case_bool_decide as E2|].
    + split; [split; [intros _; split; [done | split; [congruence | done]] | done] |]. by apply request_set.
    + split; [split; [done | tauto] |]. by apply request_set.
    + split; [split; [done | intros (_ & E & _); by rewrite E in E1] |]. by apply request_set.
  - split; [split; [done | by intros []] |]. by apply request_set.
Qed.

(** *** What a successful claim certifies *)

(** The abstract meaning of [_live], [_bound] and the policy checks. *)
Record authority (s : store) (r : request_row) (k : option caller) (gen : string) (eff : effect) : Prop := {
  au_caller : exists c, In c (s_callers s) /\ c_id c = r_caller_id r /\ c_revoked_at c = None;
  au_token : exists t, In t (s_tokens s) /\ t_caller t = r_caller_id r /\ t_revoked_at t = None
    /\ (forall k' h, k = Some k' -> k_token_hash k' = Some h -> t_hash t = h);
  au_presented : forall k', k = Some k' -> k_id k' = r_caller_id r;
  au_generation : gen <> EmptyString /\ r_generation r = Some gen;
  au_action : exists action_json a arguments,
    r_action_json r = Some action_json /\ loads action_json = Ok (JObj a)
    /\ loads (text_or_null (r_arguments_json r)) = Ok arguments
    /\ canonical_text (JObj a) = canonical_text (action_obj (r_caller_id r) (r_tool r) (r_op r) gen
          (jget a "arguments") (jget a "reason") (jget a "nonce"))
    /\ r_request_digest r = Some (sha256_hex (canonical_text (JObj a)))
    /\ canonical_text arguments = canonical_text (jget a "arguments");
  au_policy : decide_op (policy_for (r_caller_id r) s) (r_tool r) (r_op r) = eff;
  au_unchanged : r_policy_binding r = Some (policy_text (policy_for (r_caller_id r) s)) }.

Lemma live_sound id k s : _live id k s = true ->
  (exists c, In c (s_callers s) /\ c_id c = id /\ c_revoked_at c = None)
  /\ (exists t, In t (s_tokens s) /\ t_caller t = id /\ t_revoked_at t = None
      /\ (forall k' h, k = Some k' -> k_token_hash k' = Some h -> t_hash t = h))
  /\ (forall k', k = Some k' -> k_id k' = id).
Proof.
  unfold _live. destruct (caller_by_id s id) as [c|] eqn:Ec; [|done].
  apply select1_Some in Ec as [Hc Hid]. intros [Hl Hwho]%andb_true_iff. store_prop.
  split; [by exists c |].
  assert (0 <? active_token_count id s = true -> exists t, In t (s_tokens s) /\ t_caller t = id /\ t_revoked_at t = None) as Hcount.
  { unfold active_token_count. intros Hp. to_prop.
    apply count_where_pos in Hp as (t & Ht & Hb). to_prop. store_prop. by exists t. }
  destruct k as [k|].
  - apply andb_true_iff in Hwho as [Hk Hwho]. to_prop. split; [|by intros k' [= <-]].
    destruct (k_token_hash k) as [h|] eqn:Eh.
    + apply bool_decide_eq_true_1 in Hwho as [t [Ht Hb]%select1_Some]. store_prop.
      exists t. repeat (split; [done |]). congruence.
    + destruct (Hcount Hwho) as (t & ? & ? & ?). exists t. repeat (split; [done |]). congruence.
  - split; [|done]. destruct (Hcount Hwho) as (t & ? & ? & ?). by exists t.
Qed.

Lemma text_or_null_obj o a : loads (text_or_null o) = Ok (JObj a) -> exists t, o = Some t /\ text_or_null o = t.
Proof.
  unfold text_or_null. destruct o as [t|]; [|done]. destruct (PyStr.empty t) eqn:E; [done |].
  intros _. by exists t.
Qed.

Lemma bound_sound r gen : _bound r gen = true ->
  exists action_json a arguments,
    r_action_json r = Some action_json /\ loads action_json = Ok (JObj a)
    /\ loads (text_or_null (r_arguments_json r)) = Ok arguments
    /\ canonical_text (JObj a) = canonical_text (action_obj (r_caller_id r) (r_tool r) (r_op r) gen
          (jget a "arguments") (jget a "reason") (jget a "nonce"))
    /\ r_request_digest r = Some (sha256_hex (canonical_text (JObj a)))
    /\ canonical_text arguments = canonical_text (jget a "arguments").
Proof.
  unfold _bound. destruct (loads (text_or_null (r_action_json r))) as [[]|] eqn:El; try done.
  destruct (text_or_null_obj _ _ El) as (t & Ht & Hte). rewrite Hte in El.
  destruct (is_null _); [done |].
  destruct (bound_request _ _ _ _ _ _ _) as [[expected digest]|] eqn:Eb; [|done].
  destruct (canonical (JObj d)) as [text|] eqn:E1; [|done].
  destruct (canonical (jget d "arguments")) as [a1|] eqn:E2; [|done].
  destruct (loads (text_or_null (r_arguments_json r))) as [args|] eqn:E3; [|done].
  cbn [mbind res_bind]. destruct (canonical args) as [a2|] eqn:E4; [|done]. intros Hb.
  unfold bound_request in Eb. inv_bind. store_prop. 
  repeat match goal with H : canonical _ = Ok _ |- _ => apply canonical_ok in H as [_ ->] end.
  eexists _, d, args. split; [exact Ht |]. repeat (split; [done || congruence |]). done || congruence.
Qed.

Lemma authority_of_checks s r k gen eff :
  _live (r_caller_id r) k s = true -> truthy_str gen = true -> r_generation r = gen ->
  _bound r (default EmptyString gen) = true ->
  decide_op (policy_for (r_caller_id r) s) (r_tool r) (r_op r) = eff ->
  r_policy_binding r = Some (policy_text (policy_for (r_caller_id r) s)) ->
  exists g, gen = Some g /\ authority s r k g eff.
Proof.
  intros Hl Hg Hgen Hb He Hp. destruct gen as [g|]; [|done]. exists g. split; [done |].
  destruct (live_sound _ _ _ Hl) as (? & ? & ?). constructor; try done.
  - by destruct g.
  - by apply bound_sound.
Qed.

Lemma claim_received_true now id generation k digest s s' :
  claim_received now id generation k digest s = (true, s') ->
  exists r gen, generation = Some gen /\ request id s = Some r /\ r_status r = received
    /\ r_request_digest r = digest /\ authority s r k gen ALLOW
    /\ s' = set_request id (r_mark executing now) s.
Proof.
  unfold claim_received. destruct (request id s) as [r|] eqn:Er; [|done].
  destruct (claim_received_valid r generation k digest s) eqn:Ev; [|by case_match].
  intros [= <-]. unfold claim_received_valid in Ev. store_prop.
  destruct (authority_of_checks s r k generation ALLOW) as (g & -> & Ha); try done.
  by exists r, g.
Qed.

Lemma claim_approval_true id generation state now k s s' :
  claim_approval id generation state now k s = (true, s') ->
  exists r a gen, generation = Some gen /\ request id s = Some r /\ r_status r = pending_approval
    /\ approval_for_request id s = Some a /\ a_status a = ap_pending /\ now < a_expires_at a
    /\ a_request_digest a = r_request_digest r /\ authority s r k gen REVIEW
    /\ s' = set_approvals (fun x => a_id x =? a_id a)
        (fun x => a_write x ap_approved (ss_approver state) (ss_note state) (ss_decided_at state))
        (set_request id (r_mark executing now) s).
Proof.
  unfold claim_approval. destruct (request id s) as [r|] eqn:Er; [|done].
  destruct (approval_for_request id s) as [a|]; simpl; [|by repeat case_match].
  destruct (claim_approval_valid r a generation now k s) eqn:Ev; [|by repeat case_match].
  intros [= <-]. unfold claim_approval_valid in Ev. store_prop.
  destruct (authority_of_checks s r k generation REVIEW) as (g & -> & Ha); try done.
  by exists r, a, g.
Qed.

(** Success of the commit point of an allowed action certifies the whole
    authority: the row was received, its digest is the one the caller
    reserved, caller and presented token are unrevoked, the generation is
    current, the private action and arguments are those the digest covers,
    and the policy is unchanged and allows the operation.  Only this row
    changes, and it becomes executing. *)
Theorem claim_received_sound (now id : Z) (generation : option string) (k : option caller)
    (digest : option string) (s s' : store) :
  claim_received now id generation k digest s = (true, s') ->
  exists r gen, generation = Some gen /\ request id s = Some r /\ r_status r = received
    /\ r_request_digest r = digest /\ authority s r k gen ALLOW
    /\ s' = set_request id (r_mark executing now) s.
Proof. apply claim_received_true. Qed.

(** C4. Success of the commit point of an approved action certifies the same
    authority under a review policy, and that the approval was still pending,
    strictly before its deadline, and made for the digest of this very
    action.  The row becomes executing and only that approval approved. *)
Theorem claim_approval_sound (id : Z) (generation : option string) (state : surface_state) (now : Z)
    (k : option caller) (s s' : store) :
  claim_approval id generation state now k s = (true, s') ->
  exists r a gen, generation = Some gen /\ request id s = Some r /\ r_status r = pending_approval
    /\ approval_for_request id s = Some a /\ a_status a = ap_pending /\ now < a_expires_at a
    /\ a_request_digest a = r_request_digest r /\ authority s r k gen REVIEW
    /\ s' = set_approvals (fun x => a_id x =? a_id a)
        (fun x => a_write x ap_approved (ss_approver state) (ss_note state) (ss_decided_at state))
        (set_request id (r_mark executing now) s).
Proof. apply claim_approval_true. Qed.

(** *** Exclusive claims *)

(** The operation is a claim on [id] that succeeds in [s]. *)
Definition claims (id : Z) (o : store_op) (s : store) : bool :=
  match o with
  | ClaimReceived now i gen k d => (i =? id) && (claim_received now i gen k d s).1
  | ClaimApproval now i gen state k => (i =? id) && (claim_approval i gen state now k s).1
  | _ => false
  end.

Fixpoint wins (id : Z) (os : list store_op) (s : store) : nat :=
  match os with
  | [] => 0
  | o :: os' => (if claims id o s then 1 else 0) + wins id os' (run_op o s)
  end%nat.

Definition stage_of (id : Z) (s : store) : Z :=
  match request id s with Some r => stage (r_status r) | None => -1 end.

(** [update_request] never moves a request back. *)
Fixpoint forward (id : Z) (os : list store_op) (s : store) : bool :=
  match os with
  | [] => true
  | o :: os' =>
      match o with
      | UpdateRequest _ i st _ _ => negb (i =? id) || (stage_of id s <=? stage st)
      | _ => true
      end && forward id os' (run_op o s)
  end.

Lemma stage_of_rewrites w s s' id :
  (forall r r', w r r' -> stage (r_status r) <= stage (r_status r')) ->
  rewrites w (request id s) (request id s') -> stage_of id s <= stage_of id s'.
Proof.
  unfold stage_of. intros Hw Hr. destruct (request id s), (request id s'); simpl in Hr; try done. auto.
Qed.

Lemma stage_update (p : request_row -> bool) f s0 s l id :
  s_requests s = l -> s_requests s0 = l -> (forall r, r_id (f r) = r_id r) ->
  (forall r, request id s0 = Some r -> p r = true -> stage (r_status r) <= stage (r_status (f r))) ->
  stage_of id s0 <= stage_of id (with_requests s (update_where p f l)).
Proof.
  intros Hl H0 Hf Hst.
  apply (stage_of_rewrites (fun r r' => stage (r_status r) <= stage (r_status r'))); [done |].
  apply rewrites_update; try done.
Qed.

Lemma stage_append s row id : stage_of id s <= stage_of id (with_requests s (s_requests s ++ [row])).
Proof.
  unfold stage_of. rewrite request_app. destruct (request id s); [lia |].
  destruct (r_id row =? id); [destruct (r_status row); simpl; lia | lia].
Qed.

Lemma stage_run_op o os s id : forward id (o :: os) s = true -> stage_of id s <= stage_of id (run_op o s).
Proof.
  simpl. intros [Hf _]%andb_true_iff. destruct o; simpl.
  - eapply stage_of_rewrites; [apply admin_write_stage | apply run_admin_rewrites].
  - destruct (reserve_action _ _ _ _ _ _ _ _ _ _ _) as [[[[row b] c] s']|] eqn:E; [|done].
    apply reserve_created in E as [(_ & -> & _) | (_ & _ & -> & _)]; [done | apply stage_append].
  - unfold claim_received, set_request. destruct (request id0 s) as [r|] eqn:Er; [|done].
    destruct (claim_received_valid _ _ _ _ _) eqn:Ev; simpl.
    + apply stage_update; try done. intros r' Hr' Hid. to_prop.
      rewrite (request_id_eq _ _ _ Hr') in Hid. subst. rewrite Er in Hr'. injection Hr' as <-.
      unfold claim_received_valid in Ev. store_prop. rewrite H0. simpl. lia.
    + destruct (is_status (r_status r) received) eqn:Es; simpl; [|done].
      apply stage_update; try done. intros r' Hr' Hid. simpl. by destruct (r_status r').
  - unfold claim_approval, set_request, set_approvals. destruct (request id0 s) as [r|] eqn:Er; [|done].
    assert (forall f l, (forall x, r_id (f x) = r_id x) ->
      stage (r_status r) <= stage (r_status (f r)) ->
      stage_of id s <= stage_of id (with_approvals (with_requests s
        (update_where (fun x => r_id x =? id0) f (s_requests s))) l)) as Hset.
    { intros f l Hf0 Hst. transitivity (stage_of id (with_requests s
        (update_where (fun x => r_id x =? id0) f (s_requests s)))); [|done].
      apply stage_update; try done. intros r' Hr' Hid. to_prop.
      rewrite (request_id_eq _ _ _ Hr') in Hid. subst. rewrite Er in Hr'. by injection Hr' as <-. }
    destruct (_ ≫= _) as [a|] eqn:Ea; simpl.
    + apply Hset; [done |].
      destruct (approval_for_request id0 s) as [a'|]; [|done]. simpl in Ea.
      destruct (claim_approval_valid _ _ _ _ _ _) eqn:Ev; [|done].
      unfold claim_approval_valid in Ev. store_prop. simpl.
      match goal with H : r_status r = pending_approval |- _ => rewrite H end. simpl. lia.
    + destruct (is_status (r_status r) pending_approval) eqn:Es; simpl; [|done].
      apply Hset; [done |]. simpl. store_prop. rewrite Es. by case_match.
  - unfold create_approval. case_match; simpl; done.
  - rewrite update_request_eq. apply stage_update; try done.
    intros r Hr Hid. to_prop. rewrite (request_id_eq _ _ _ Hr) in Hid. subst.
    rewrite Z.eqb_refl in Hf. simpl in Hf. to_prop. unfold stage_of in Hf. rewrite Hr in Hf.
    unfold effective_fields. simpl. by destruct (terminal st).
  - unfold create_request. case_match; simpl; [apply stage_append | done].
Qed.

Lemma claims_stage id o s : claims id o s = true ->
  stage_of id s < 2 /\ stage_of id (run_op o s) = 2.
Proof.
  destruct o as [| | now i gen k d | now i gen state k | | |]; simpl; try done;
    intros [Hi Hc]%andb_true_iff; to_prop; subst; unfold stage_of.
  - destruct (claim_received now id gen k d s) as [b s'] eqn:E. simpl in *. subst.
    unfold claim_received in E. destruct (request id s) as [r|] eqn:Er; [|done].
    destruct (claim_received_valid _ _ _ _ _) eqn:Ev; [|by case_match]. injection E as <-.
    rewrite (request_set id (r_mark executing now) s r (fun r => eq_refl) Er). unfold claim_received_valid in Ev. store_prop.
    match goal with H : r_status r = received |- _ => rewrite H end. done.
  - destruct (claim_approval id gen state now k s) as [b s'] eqn:E. simpl in *. subst.
    unfold claim_approval in E. destruct (request id s) as [r|] eqn:Er; [|done].
    destruct (approval_for_request id s) as [a|]; simpl in E; [|by repeat case_match].
    destruct (claim_approval_valid _ _ _ _ _ _) eqn:Ev; [|by repeat case_match]. injection E as <-.
    unfold claim_approval_valid in Ev. store_prop.
    assert (forall l s0, request id (with_approvals s0 l) = request id s0) as Hra by done.
    unfold set_approvals. rewrite Hra, (request_set id (r_mark executing now) s r (fun r => eq_refl) Er).
    match goal with H : r_status r = pending_approval |- _ => rewrite H end. done.
Qed.

Lemma wins_closed id os s : forward id os s = true -> 2 <= stage_of id s -> wins id os s = 0%nat.
Proof.
  revert s. induction os as [|o os IH]; intros s Hf Hs; [done |]. cbn [wins].
  destruct (claims id o s) eqn:E; [apply claims_stage in E; lia |].
  pose proof (stage_run_op _ _ _ _ Hf). simpl in Hf. apply andb_true_iff in Hf as [_ Hf].
  rewrite IH; [done | done | lia].
Qed.

(** At most one claim per request: in every interleaving of claims with
    the transactions of all processes, in which status updates never move
    the request back, at most one claim on it succeeds. *)
Theorem claim_exclusive (os : list store_op) (s : store) (id : Z) :
  forward id os s = true -> (wins id os s <= 1)%nat.
Proof.
  revert s. induction os as [|o os IH]; intros s Hf; [simpl; lia |]. cbn [wins].
  pose proof Hf as Hf'. simpl in Hf'. apply andb_true_iff in Hf' as [_ Hf'].
  destruct (claims id o s) eqn:E; [|by apply IH].
  rewrite wins_closed; [lia | done |]. apply claims_stage in E. lia.
Qed.

(** *** Deadlines, policy changes, pruning *)

Lemma approval_for_request_id id s a : approval_for_request id s = Some a -> In a (s_approvals s) /\ a_request_id a = id.
Proof. intros [Ha Hid]%select1_Some. by to_prop. Qed.

(** Past its deadline an approval fails closed: whatever the approval
    surface answers and whichever path closes it (the poll of an approved
    request, a rejection, a cancellation or a sweep), nothing is claimed,
    the request is expired with its private columns cleared and its approval
    is expired. *)
Theorem deadline_fails_closed (id : Z) (s : store) (r : request_row) (a : approval_row) (now : Z)
    (generation : option string) (state : surface_state) (k : option caller)
    (st : req_status) (ast : app_status) (error : option string) (sst : option surface_state) (dl : bool) :
  store_ok s -> request id s = Some r -> r_status r = pending_approval ->
  approval_for_request id s = Some a -> a_status a = ap_pending -> a_expires_at a <= now ->
  (claim_approval id generation state now k s).1 = false
  /\ request id (claim_approval id generation state now k s).2 = Some (r_finish expired None now r)
  /\ exists s', finish_pending now id st ast error sst dl s = Ok (true, s')
     /\ request id s' = Some (r_finish expired None now r)
     /\ (exists a', In a' (s_approvals s') /\ a_id a' = a_id a /\ a_status a' = ap_expired)
     /\ (exists a', In a' (s_approvals (claim_approval id generation state now k s).2)
           /\ a_id a' = a_id a /\ a_status a' = ap_expired).
Proof.
  intros Hs Hr Hst Ha Hap Hd. destruct (approval_for_request_id _ _ _ Ha) as [Hin Hid].
  assert (claim_approval_valid r a generation now k s = false) as Hv.
  { unfold claim_approval_valid. replace (now <? a_expires_at a) with false by (symmetry; by apply Z.ltb_ge).
    by rewrite andb_false_r. }
  assert (claim_approval id generation state now k s
    = (false, set_approvals (fun x => (a_request_id x =? id) && bool_decide (a_status x = ap_pending))
        (a_set_status ap_expired) (set_request id (r_finish expired None now) s))) as ->.
  { unfold claim_approval. rewrite Hr, Ha. cbn [mbind option_bind]. rewrite Hv.
    unfold is_status. rewrite Hst, !bool_decide_eq_true_2, (proj2 (Z.leb_le _ _) Hd) by done. done. }
  assert (finish_pending now id st ast error sst dl s
    = Ok (true, set_approvals (fun x => a_id x =? a_id a)
        (fun x => a_write x ap_expired (sst ≫= ss_approver) (sst ≫= ss_note) (sst ≫= ss_decided_at))
        (set_request id (r_finish expired None now) s))) as ->.
  { unfold finish_pending. rewrite Hr, Ha. unfold is_status.
    rewrite Hst, Hap, !bool_decide_eq_true_2, (proj2 (Z.leb_le _ _) Hd) by done.
    replace (now <? a_expires_at a) with false by (symmetry; by apply Z.ltb_ge). by rewrite andb_false_r. }
  simpl. split; [done |]. split; [by apply (request_set id (r_finish expired None now)) |].
  eexists. split; [done |]. split; [by apply (request_set id (r_finish expired None now)) |]. split.
  - exists (a_write a ap_expired (sst ≫= ss_approver) (sst ≫= ss_note) (sst ≫= ss_decided_at)).
    split; [|done]. apply update_where_In. exists a. by rewrite Z.eqb_refl.
  - exists (a_set_status ap_expired a). split; [|done]. apply update_where_In. exists a.
    by rewrite Hid, Z.eqb_refl, bool_decide_eq_true_2.
Qed.

Lemma closed_stays_closed (os : list admin_op) id s r :
  request id s = Some r -> terminal (r_status r) = true ->
  exists r', request id (run_admins os s) = Some r' /\ is_status (r_status r') pending_approval = false.
Proof.
  intros Hr Ht. destruct (run_admins_some os s id r Hr) as (r' & Hr' & _ & Hst).
  exists r'. split; [done |]. destruct (r_status r); try done; by destruct (r_status r').
Qed.

Lemma write_policy_for now caller_id p s s' : _write_policy now caller_id p s = Ok s' -> policy_for caller_id s' = p.
Proof.
  unfold _write_policy. destruct (caller_by_id s caller_id) eqn:Ec; [|done]. intros [= <-].
  unfold policy_for, upsert_policy. simpl.
  destruct (select1 (fun y => y_caller y =? caller_id) (s_policies s)) as [y|] eqn:Ey.
  - assert (forall l, select1 (fun y => y_caller y =? caller_id) l = Some y ->
      select1 (fun y => y_caller y =? caller_id)
        (update_where (fun y => y_caller y =? caller_id) (fun _ => PolicyRow caller_id p now) l)
      = Some (PolicyRow caller_id p now)) as Hsel; [|by rewrite (Hsel _ Ey)].
    clear. induction l as [|x l IH]; [done |]. simpl.
    destruct (y_caller x =? caller_id) eqn:E; simpl; [by rewrite Z.eqb_refl |]. by rewrite E.
  - by rewrite select1_app, Ey; simpl; rewrite Z.eqb_refl.
Qed.

(** What [_write_policy] does, whatever else its transaction writes. *)
Lemma write_policy_withdraws now caller_id p s s1 s' : store_ok s -> _write_policy now caller_id p s = Ok s1 ->
  s_requests s' = s_requests s1 -> s_approvals s' = s_approvals s1 ->
  forall r, In r (s_requests s) ->
     if owned_pending caller_id r then
       request (r_id r) s' = Some (r_finish denied (Some "approval_invalidated"%string) now r)
       /\ (forall a, In a (s_approvals s') -> a_request_id a = r_id r -> a_status a <> ap_pending)
       /\ (forall os generation state now' k,
             (claim_approval (r_id r) generation state now' k (run_admins os s')).1 = false)
     else request (r_id r) s' = Some r.
Proof.
  intros Hs Hp Er Ea r Hr. pose proof (request_In r s (ok_requests _ Hs) Hr) as Hreq.
  unfold _write_policy in Hp. destruct (caller_by_id s caller_id) eqn:Ec; [|done]. injection Hp as <-.
  cbn [s_requests s_approvals with_requests with_approvals with_policies] in Er, Ea.
  assert (request (r_id r) s' = Some (if owned_pending caller_id r
    then r_finish denied (Some "approval_invalidated"%string) now r else r)) as Hreq'.
  { unfold request. rewrite Er, select1_update_where by done. unfold request in Hreq. by rewrite Hreq. }
  destruct (owned_pending caller_id r) eqn:Eo; [|done]. split; [done |]. split.
  - intros a. rewrite Ea. intros (x & Hx & ->)%update_where_In Ha.
    destruct (bool_decide (a_status x = ap_pending)) eqn:Eb; simpl in *; [|by to_prop].
    destruct (existsb _ _) eqn:Ee; [done |]. exfalso.
    apply not_true_iff_false in Ee. apply Ee. apply existsb_exists. exists (r_id r).
    split; [|by apply Z.eqb_eq]. apply in_map, filter_In. done.
  - intros os generation state now' k.
    destruct (closed_stays_closed os _ _ _ Hreq' eq_refl) as (r' & Hr' & Hst).
    unfold claim_approval. rewrite Hr'. destruct (approval_for_request _ _) as [a|]; simpl; [|by rewrite Hst].
    unfold claim_approval_valid. by rewrite Hst.
Qed.

(** The two transactions that change a policy: [set_policy], and a
    [compare_and_set_policy] that found the policy it was told to replace. *)
Definition changes_policy (now caller_id : Z) (p : policy) (s s' : store) : Prop :=
  set_policy now caller_id p s = Ok s'
  \/ exists uuid before operator, compare_and_set_policy now uuid caller_id before p operator s = Ok (true, s').

(** C5. Changing a caller's policy withdraws every action parked under the
    old one: each pending request of that caller is denied, its arguments
    and its approvals are withdrawn, no later approval can be claimed for
    it, and no action in flight and no other caller's request is touched.  A
    compare and set that does not replace the policy changes nothing. *)
Theorem policy_change_withdraws (now caller_id : Z) (p : policy) (s s' : store) :
  store_ok s ->
  (changes_policy now caller_id p s s' ->
    policy_for caller_id s' = p
    /\ forall r, In r (s_requests s) ->
       if owned_pending caller_id r then
         request (r_id r) s' = Some (r_finish denied (Some "approval_invalidated"%string) now r)
         /\ (forall a, In a (s_approvals s') -> a_request_id a = r_id r -> a_status a <> ap_pending)
         /\ (forall os generation state now' k,
               (claim_approval (r_id r) generation state now' k (run_admins os s')).1 = false)
       else request (r_id r) s' = Some r)
  /\ forall uuid before operator, compare_and_set_policy now uuid caller_id before p operator s = Ok (false, s') -> s' = s.
Proof.
  intros Hs. split.
  - intros [Hp | (uuid & before & operator & Hp)].
    + split; [by eapply write_policy_for | by eapply write_policy_withdraws].
    + unfold compare_and_set_policy in Hp. destruct (caller_by_id s caller_id) as [c|]; [|done].
      destruct (_ && _); [|done]. destruct (_write_policy now caller_id p s) as [s1|] eqn:E; [|done].
      cbn [mbind res_bind] in Hp. injection Hp as <-. split; [exact (write_policy_for _ _ _ _ _ E) |].
      eapply write_policy_withdraws; [done | exact E | done | done].
  - intros uuid before operator. unfold compare_and_set_policy. destruct (caller_by_id s caller_id) as [c|]; [|by intros [= <-]].
    destruct (_ && _); [|by intros [= <-]]. by destruct (_write_policy now caller_id p s).
Qed.

(** Pruning keeps tombstones: no row disappears, every row keeps its
    caller, key and payload digest (so its key can never be reused for
    another payload), payloads older than seven days are wiped, a completed
    one is marked [result_expired], younger or live rows are untouched, and
    a second pruning at the same time changes nothing more. *)
Theorem prune_keeps_tombstones (now : Z) (s : store) (id : Z) (r : request_row) :
  store_ok s -> request id s = Some r ->
  exists r', request id (prune_payloads now s).2 = Some r' /\ same_identity r r'
    /\ (if prunable now r
        then r_result_json r' = None /\ r_arguments_json r' = None /\ r_action_json r' = None
             /\ r_status r' <> completed /\ terminal (r_status r') = true /\ r_pruned_at r' = Some now
             /\ r_updated_at r' = r_updated_at r
        else r' = r)
    /\ prunable now r' = false
    /\ (prune_payloads now (prune_payloads now s).2).1 = 0.
Proof.
  intros Hs Hr.
  assert (forall x, prunable now (if prunable now x then prune_row now x else x) = false) as Hagain.
  { intros x. destruct (prunable now x) eqn:E; [|done]. unfold prunable. simpl. by rewrite andb_false_r. }
  exists (if prunable now r then prune_row now r else r). split.
  { unfold prune_payloads, request in *. simpl. by rewrite select1_update_where, Hr. }
  split; [destruct (prunable now r); by repeat split |]. split; [|split; [done |]].
  - destruct (prunable now r) eqn:E; [|done]. unfold prunable in E. store_prop. simpl.
    repeat (split; [done |]). split; [by unfold is_status; case_bool_decide |].
    split; [|done]. by apply (terminal_prune now r).
  - apply count_where_zero. simpl. intros x (y & _ & ->)%update_where_In. apply Hagain.
Qed.

(** C6. The store's invariant in every history: primary keys, caller names,
    token hashes and (caller, key) pairs are unique, references resolve, and
    a request in a terminal state holds no private arguments or action. *)
Theorem store_invariant (uuid : string) (os : list store_op) : store_ok (run_ops os (empty_store uuid)).
Proof. apply run_ops_ok, empty_store_ok. Qed.
End Spec.

(** ** Concrete histories *)

#[local] Existing Instance echo_digest.

Definition w_policy : policy :=
  build_policy ["echo.ping"%string] ["mail.send"%string] ["mail.purge"%string].

Definition w_caller : caller := Caller 1 "bot" (Some "aa"%string).

Definition w_setup : list store_op :=
  [Admin (AddCaller 0 "bot"); Admin (AddToken 1 1 "aa"); Admin (AddToken 1 1 "bb");
   Admin (SetPolicy 2 1 w_policy)].

Definition w_args : json := JObj [("to"%string, JStr "ann"); ("n"%string, JInt 3)].

(** Request 1 is allowed, request 2 parked until time 100. *)
Definition w_reserved : list store_op :=
  w_setup ++
  [Reserve 3 "n1" w_caller "c1" "echo" "ping" w_args None "g1" (JStr "key-1");
   Reserve 4 "n2" w_caller "c2" "mail" "send" w_args (Some "please"%string) "g1" JNull].

Definition w_at (os : list store_op) : store := run_ops os (empty_store "u").

Definition w_digest (id : Z) : option string := request id (w_at w_reserved) ≫= r_request_digest.

Definition w_parked : list store_op :=
  w_reserved ++
  [CreateApproval 5 2 "ref" 100 (w_digest 2); UpdateRequest 6 2 pending_approval None None].

Definition w_state : surface_state := SurfaceState so_approved (Some "alice"%string) None None.

Lemma w_ok os : store_ok (w_at os).
Proof. apply run_ops_ok, empty_store_ok. Qed.

Lemma w_args_wf : json_wf w_args.
Proof.
  constructor; [|by repeat constructor].
  unfold dict_wf. cbn [dkeys map fst]. by apply (bool_decide_unpack _).
Qed.

Lemma token_revocation_permanent_witness :
  caller_by_token_hash "aa" (run_ops [Admin (AddToken 9 1 "aa"); Admin (AddToken 9 1 "cc")]
    (revoke_token 5 "aa" (w_at w_setup))) = None.
Proof. apply token_revocation_permanent; [apply w_ok | vm_compute; auto]. Defined.

Lemma caller_revocation_permanent_witness :
  exists k, caller_by_token_hash "dd" (run_ops [Admin (AddToken 9 1 "cc"); Admin (AddCaller 9 "eve"); Admin (AddToken 9 2 "dd")]
    (revoke_caller 5 "bot" (w_at w_setup))) = Some k /\ k_id k <> 1.
Proof.
  eexists. split; [vm_compute; reflexivity |].
  apply (caller_revocation_permanent [Admin (AddToken 9 1 "cc"); Admin (AddCaller 9 "eve"); Admin (AddToken 9 2 "dd")]
    5 (CallerRow 1 "bot" 0 None) (w_at w_setup) "dd"); [apply w_ok | vm_compute; auto | vm_compute; reflexivity].
Defined.

Definition w_args_reordered : json := JObj [("n"%string, JInt 3); ("to"%string, JStr "ann")].

Lemma reservation_idempotent_witness :
  exists row s1 row2 created conflict s3,
    reserve_action 3 "n1" w_caller "c1" "echo" "ping" w_args None "g1" (JStr "key-1") (w_at w_setup) = Ok (row, true, false, s1)
    /\ reserve_action 99 "n9" w_caller "c9" "echo" "ping" w_args_reordered None "g2" (JStr "key-1")
         (run_ops [Admin (Prune 50)] s1) = Ok (row2, created, conflict, s3)
    /\ created = false /\ s3 = run_ops [Admin (Prune 50)] s1 /\ conflict = false.
Proof.
  eassert (reserve_action 3 "n1" w_caller "c1" "echo" "ping" w_args None "g1" (JStr "key-1") (w_at w_setup)
    = Ok (_, true, false, _)) as H1 by (vm_compute; reflexivity).
  match type of H1 with _ = Ok (_, _, _, ?s1) =>
    eassert (reserve_action 99 "n9" w_caller "c9" "echo" "ping" w_args_reordered None "g2" (JStr "key-1")
      (run_ops [Admin (Prune 50)] s1) = Ok (_, _, _, _)) as H2 by (vm_compute; reflexivity)
  end.
  destruct (reservation_idempotent [Admin (Prune 50)] _ _ _ _ _ _ _ _ _ _ _ _ _ _ _ _ _ _ _ _ _ _ _ _ _ _
    (w_ok w_setup) H1 eq_refl H2) as (Hc & Hs & _ & Hsame & _).
  do 6 eexists. split; [exact H1 |]. split; [exact H2 |]. split; [exact Hc |]. split; [exact Hs |].
  apply Hsame. split_and!; reflexivity.
Defined.

Lemma fresh_action_claim_witness :
  exists row s1,
    reserve_action 3 "n1" w_caller "c1" "echo" "ping" w_args None "g1" JNull (w_at w_setup) = Ok (row, true, false, s1)
    /\ (claim_received 7 (r_id row) (Some "g1"%string) (Some w_caller) (r_request_digest row)
         (run_admins [RevokeToken 5 "bb"] s1)).1 = true.
Proof.
  do 2 eexists. split; [vm_compute; reflexivity |].
  edestruct (fresh_action_claim [RevokeToken 5 "bb"] 3 "n1" w_caller "c1" "echo" "ping" w_args None "g1" JNull (w_at w_setup))
    as [[_ Hclaim] _]; [apply w_ok | apply w_args_wf | done | vm_compute; reflexivity |].
  apply Hclaim. by vm_compute.
Defined.

Lemma claim_received_sound_witness :
  exists s' r gen, claim_received 7 1 (Some "g1"%string) (Some w_caller) (w_digest 1) (w_at w_reserved) = (true, s')
    /\ authority (w_at w_reserved) r (Some w_caller) gen ALLOW.
Proof.
  eexists. destruct (claim_received_sound 7 1 (Some "g1"%string) (Some w_caller) (w_digest 1) (w_at w_reserved)
    (claim_received 7 1 (Some "g1"%string) (Some w_caller) (w_digest 1) (w_at w_reserved)).2)
    as (r & gen & _ & _ & _ & _ & Ha & _); [vm_compute; reflexivity |].
  exists r, gen. split; [vm_compute; reflexivity | exact Ha].
Defined.

Lemma claim_approval_sound_witness :
  exists r a gen, approval_for_request 2 (w_at w_parked) = Some a
    /\ authority (w_at w_parked) r (Some w_caller) gen REVIEW.
Proof.
  destruct (claim_approval_sound 2 (Some "g1"%string) w_state 50 (Some w_caller) (w_at w_parked)
    (claim_approval 2 (Some "g1"%string) w_state 50 (Some w_caller) (w_at w_parked)).2)
    as (r & a & gen & _ & _ & _ & Hap & _ & _ & _ & Ha & _); [vm_compute; reflexivity |].
  exists r, a, gen. split; [exact Hap | exact Ha].
Defined.

Definition w_race : list store_op :=
  [ClaimApproval 50 2 (Some "g1"%string) w_state (Some w_caller);
   ClaimApproval 51 2 (Some "g1"%string) w_state None;
   UpdateRequest 60 2 completed (Some (Some "{}"%string)) None].

Lemma claim_exclusive_witness : wins 2 w_race (w_at w_parked) = 1%nat /\ (wins 2 w_race (w_at w_parked) <= 1)%nat.
Proof. split; [vm_compute; reflexivity | apply claim_exclusive; vm_compute; reflexivity]. Defined.

Lemma deadline_fails_closed_witness :
  exists r a, request 2 (w_at w_parked) = Some r /\ approval_for_request 2 (w_at w_parked) = Some a
    /\ (claim_approval 2 (Some "g1"%string) w_state 100 (Some w_caller) (w_at w_parked)).1 = false.
Proof.
  eassert (request 2 (w_at w_parked) = Some _) as H1 by (vm_compute; reflexivity).
  eassert (approval_for_request 2 (w_at w_parked) = Some _) as H2 by (vm_compute; reflexivity).
  destruct (deadline_fails_closed 2 _ _ _ 100 (Some "g1"%string) w_state (Some w_caller) denied ap_rejected None None
    false (w_ok _) H1 eq_refl H2 eq_refl ltac:(by vm_compute)) as [Hfail _].
  do 2 eexists. split; [exact H1 |]. split; [exact H2 | exact Hfail].
Defined.

Lemma policy_change_withdraws_witness :
  exists s1 s2, changes_policy 10 1 no_policy (w_at w_parked) s1 /\ policy_for 1 s1 = no_policy
    /\ changes_policy 10 1 no_policy (w_at w_parked) s2 /\ policy_for 1 s2 = no_policy /\ s1 <> s2.
Proof.
  eassert (set_policy 10 1 no_policy (w_at w_parked) = Ok _) as E1 by (vm_compute; reflexivity).
  eassert (compare_and_set_policy 10 "u" 1 w_policy no_policy "op" (w_at w_parked) = Ok (true, _)) as E2 by (vm_compute; reflexivity).
  do 2 eexists. split; [left; exact E1 |].
  split; [refine (proj1 (proj1 (policy_change_withdraws 10 1 no_policy (w_at w_parked) _ (w_ok _)) (or_introl E1))) |].
  split; [right; do 3 eexists; exact E2 |].
  split; [|discriminate].
  refine (proj1 (proj1 (policy_change_withdraws 10 1 no_policy (w_at w_parked) _ (w_ok _)) _)).
  right. do 3 eexists. exact E2.
Defined.

Lemma prune_keeps_tombstones_witness :
  exists r', request 1 (prune_payloads (retention + 100) (w_at (w_parked ++
      [UpdateRequest 60 1 completed (Some (Some "{}"%string)) None]))).2 = Some r' /\ r_status r' = result_expired.
Proof.
  edestruct (prune_keeps_tombstones (retention + 100) (w_at (w_parked ++
      [UpdateRequest 60 1 completed (Some (Some "{}"%string)) None])) 1) as (r' & Hr' & _);
    [apply w_ok | vm_compute; reflexivity |].
  exists r'. split; [exact Hr' |]. vm_compute in Hr'. injection Hr' as <-. reflexivity.
Defined.
