(* ===== verification/Ip.v ===== *)
(** [ipaddress.ip_address] of the standard library (before 3.13), as far as the
    program uses it: the two textual forms, the version and the loopback test. *)

From stdpp Require Import base tactics list strings.
From Stdlib Require Import ZArith Lia Ascii.
From S2P Require Import Prelude PyStr.

Inductive ip_addr := IPv4 (ip : Z) | IPv6 (ip : Z).

(** ** IPv4: four decimal octets without leading zeros *)

Definition parse_octet (s : string) : option Z :=
  if isascii s && isdigit s && (len s <=? 3)
     && (String.eqb s "0" || negb (starts_with "0" s)) && (digits_to_Z s <=? 255)
  then Some (digits_to_Z s) else None.

Definition parse_ipv4 (s : string) : option Z :=
  match split_char "." s with
  | [a; b; c; d] =>
      a ← parse_octet a; b ← parse_octet b; c ← parse_octet c; d ← parse_octet d;
      Some (((a * 256 + b) * 256 + c) * 256 + d)
  | _ => None
  end.

(** ** IPv6 *)

Definition hex_digit_val (c : ascii) : Z :=
  if is_digit c then code c - 48 else if is_lower c then code c - 87 else code c - 55.

Definition parse_hextet (s : string) : option Z :=
  if negb (PyStr.empty s) && all_chars is_hex s && (len s <=? 4)
  then Some (fold_left (fun acc c => acc * 16 + hex_digit_val c) (chars s) 0) else None.

(** One part between colons; a trailing IPv4 form counts as two parts. *)
Inductive part := Text (s : string) | Word (z : Z).

Definition part_empty (p : part) : bool := match p with Text s => PyStr.empty s | Word _ => false end.
Definition part_val (p : part) : option Z := match p with Text s => parse_hextet s | Word z => Some z end.

Definition has_dot (s : string) : bool := existsb (Ascii.eqb ".") (chars s).

Definition ipv6_parts (s : string) : option (list part) :=
  let texts := split_char ":" s in
  if (length texts <? 3)%nat then None
  else
    let last := List.last texts EmptyString in
    let parts := map Text (removelast texts) in
    if has_dot last then
      v4 ← parse_ipv4 last;
      Some (parts ++ [Word (v4 / 65536); Word (v4 mod 65536)])
    else Some (parts ++ [Text last]).

(** [(ip << 16) | hextet] over a list of parts. *)
Fixpoint hextets (l : list part) (ip : Z) : option Z :=
  match l with
  | [] => Some ip
  | p :: l' => h ← part_val p; hextets l' (ip * 65536 + h)
  end.

(** The inner indices that are empty. *)
Definition gaps (parts : list part) : list nat :=
  List.filter (fun i => match nth_error parts i with Some p => part_empty p | None => false end)
    (seq 1 (length parts - 2)).

Definition assemble (parts : list part) (hi lo skipped : nat) : option Z :=
  ip ← hextets (take hi parts) 0;
  hextets (drop (length parts - lo) parts) (ip * 2 ^ (16 * Z.of_nat skipped)).

Definition ipv6_int (s : string) : option Z :=
  if PyStr.empty s then None
  else
    parts ← ipv6_parts s;
    let n := length parts in
    if (9 <? n)%nat then None
    else
      let first_empty := match parts with p :: _ => part_empty p | [] => false end in
      let last_empty := part_empty (List.last parts (Text EmptyString)) in
      match gaps parts with
      | [] => if (n =? 8)%nat && negb first_empty && negb last_empty then assemble parts n 0 0 else None
      | [skip] =>
          let hi := if first_empty then (skip - 1)%nat else skip in
          let lo := if last_empty then (n - skip - 2)%nat else (n - skip - 1)%nat in
          if (first_empty && negb (hi =? 0)%nat) || (last_empty && negb (lo =? 0)%nat) then None
          else if (7 <? hi + lo)%nat then None
          else assemble parts hi lo (8 - (hi + lo))
      | _ => None
      end.

Definition parse_ipv6 (s : string) : option Z :=
  let '(addr, found, scope) := partition_char "%" s in
  if found && (PyStr.empty scope || existsb (Ascii.eqb "%") (chars scope)) then None else ipv6_int addr.

(** [ipaddress.ip_address(s)]; [None] is ValueError. *)
Definition ip_address (s : string) : option ip_addr :=
  if existsb (Ascii.eqb "/") (chars s) then None
  else match parse_ipv4 s with
       | Some ip => Some (IPv4 ip)
       | None => IPv6 <$> parse_ipv6 s
       end.

Definition is_loopback (a : ip_addr) : bool :=
  match a with IPv4 ip => ip / 2 ^ 24 =? 127 | IPv6 ip => ip =? 1 end.

Example ip_forms :
  ip_address "127.0.0.1" = Some (IPv4 2130706433) /\ ip_address "127.0.0.01" = None /\ ip_address "256.1.1.1" = None
  /\ ip_address "::1" = Some (IPv6 1) /\ ip_address "::" = Some (IPv6 0) /\ ip_address "1::2:3" = Some (IPv6 (2 ^ 112 + 2 * 65536 + 3))
  /\ ip_address "::ffff:1.2.3.4" = Some (IPv6 (65535 * 2 ^ 32 + 16909060)) /\ ip_address ":1::" = None
  /\ ip_address "1:2:3:4:5:6:7:8::" = None /\ ip_address "fe80::1%eth0" = Some (IPv6 (65152 * 2 ^ 112 + 1))
  /\ ip_address "1::2::3" = None /\ ip_address "localhost" = None /\ ip_address "::1%" = None.
Proof. by vm_compute. Qed.
