(* ===== verification/Url.v ===== *)
(** [urllib.parse.urlsplit] of the standard library, as far as the program
    uses it: scheme, host, port and credentials of a URL, and its path parts.

    A host in square brackets must be an IPv6 or an IPvFuture address. *)

From stdpp Require Import base tactics list strings.
From Stdlib Require Import ZArith Lia Ascii.
From S2P Require Import Prelude PyStr Ip.

(** [s.rpartition(c)]: head, found, tail. *)
Definition rpartition_char (c : ascii) (s : string) : string * bool * string :=
  let '(h, found, t) := partition_char c (of_chars (rev (chars s))) in
  if found then (of_chars (rev (chars t)), true, of_chars (rev (chars h)))
  else (EmptyString, false, s).

(** [s.find(c)], as the split at the first occurrence. *)
Definition cut (c : ascii) (s : string) : string * option string :=
  let '(h, found, t) := partition_char c s in (h, if found then Some t else None).

Definition scheme_char (c : ascii) : bool :=
  is_alnum c || is_char "+" c || is_char "-" c || is_char "." c.

Definition c0_or_space (c : ascii) : bool := code c <=? 32.

Definition unsafe_url_byte (c : ascii) : bool := (code c =? 9) || (code c =? 10) || (code c =? 13).

(** The prefix up to the first of [/?#], and the rest. *)
Fixpoint splitnetloc (s : string) : string * string :=
  match s with
  | EmptyString => (EmptyString, EmptyString)
  | String c s' =>
      if is_char "/" c || is_char "?" c || is_char "#" c then (EmptyString, s)
      else let '(n, r) := splitnetloc s' in (String c n, r)
  end.

Record split_result := SplitResult {
  u_scheme : string; u_netloc : string; u_path : string; u_query : string; u_fragment : string }.

Definition has_char (c : ascii) (s : string) : bool := existsb (Ascii.eqb c) (chars s).

(** [_userinfo] and [_hostinfo]. *)
Definition u_credentials (u : split_result) : option string * option string :=
  let '(info, have, _) := rpartition_char "@" (u_netloc u) in
  if have then
    let '(user, havep, pass) := partition_char ":" info in
    (Some user, if havep then Some pass else None)
  else (None, None).

Definition u_hostinfo (netloc : string) : string * option string :=
  let '(_, _, hostinfo) := rpartition_char "@" netloc in
  let '(_, br, bracketed) := partition_char "[" hostinfo in
  let '(host, port) :=
    if br then
      let '(h, _, p) := partition_char "]" bracketed in
      let '(_, _, p) := partition_char ":" p in (h, p)
    else let '(h, _, p) := partition_char ":" hostinfo in (h, p) in
  (host, if PyStr.empty port then None else Some port).

Definition u_hostname (u : split_result) : option string :=
  let host := (u_hostinfo (u_netloc u)).1 in
  if PyStr.empty host then None
  else
    let '(h, pct, zone) := partition_char "%" host in
    Some (if pct then lower h +:+ "%" +:+ zone else lower h).

Definition u_port (u : split_result) : res (option Z) :=
  match (u_hostinfo (u_netloc u)).2 with
  | None => Ok None
  | Some p =>
      if isdigit p && isascii p && (digits_to_Z p <=? 65535) then Ok (Some (digits_to_Z p))
      else Raise ValueError
  end.

(** [_check_bracketed_host] of the text between the brackets: an IPvFuture
    form [v], hexadecimal digits, a dot and at least one character that is no
    newline, or an IPv6 address. *)
Definition bracket_host_ok (netloc : string) : bool :=
  let '(_, _, rest) := partition_char "[" netloc in
  let '(host, _, _) := partition_char "]" rest in
  match host with
  | String "v" future =>
      let '(version, found, tail) := partition_char "." future in
      found && negb (PyStr.empty version) && all_chars is_hex version
      && negb (PyStr.empty tail) && all_chars (fun c => negb (code c =? 10)) tail
  | _ => match ip_address host with Some (IPv6 _) => true | _ => false end
  end.

Definition netloc_ok (netloc : string) : bool :=
  let op := has_char "[" netloc in
  let cl := has_char "]" netloc in
  if op && cl then bracket_host_ok netloc else negb (op || cl).

Definition urlsplit (url : string) : res split_result :=
  let url := of_chars (List.filter (fun c => negb (unsafe_url_byte c)) (drop_while c0_or_space (chars url))) in
  let '(scheme, url) :=
    match cut ":" url with
    | (String c h, Some rest) =>
        if (is_lower c || is_upper c) && all_chars scheme_char (String c h)
        then (lower (String c h), rest) else (EmptyString, url)
    | _ => (EmptyString, url)
    end in
  let '(netloc, url) :=
    if starts_with "//" url then splitnetloc (str_drop 2 url) else (EmptyString, url) in
  if negb (netloc_ok netloc) then Raise ValueError
  else
    let '(url, fragment) := match cut "#" url with (h, Some f) => (h, f) | (h, None) => (h, EmptyString) end in
    let '(url, query) := match cut "?" url with (h, Some q) => (h, q) | (h, None) => (h, EmptyString) end in
    Ok (SplitResult scheme netloc url query fragment).

(** [uses_netloc] and [urlunsplit]. *)
Definition uses_netloc : list string :=
  [EmptyString; "ftp"; "http"; "gopher"; "nntp"; "telnet"; "imap"; "wais"; "file"; "mms"; "https"; "shttp"; "snews";
   "prospero"; "rtsp"; "rtsps"; "rtspu"; "rsync"; "svn"; "svn+ssh"; "sftp"; "nfs"; "git"; "git+ssh"; "ws"; "wss";
   "itms-services"]%string.

Definition urlunsplit (scheme netloc url query fragment : string) : string :=
  let url :=
    if negb (PyStr.empty netloc) then
      "//" +:+ netloc +:+ (if PyStr.empty url || starts_with "/" url then url else "/" +:+ url)
    else if starts_with "//" url then "//" +:+ url
    else if negb (PyStr.empty scheme) && existsb (String.eqb scheme) uses_netloc
            && (PyStr.empty url || starts_with "/" url) then "//" +:+ url
    else url in
  let url := if PyStr.empty scheme then url else scheme +:+ ":" +:+ url in
  let url := if PyStr.empty query then url else url +:+ "?" +:+ query in
  if PyStr.empty fragment then url else url +:+ "#" +:+ fragment.
