(* ===== verification/UrlFacts.v ===== *)
(** What [urlsplit] answers, and that it undoes [urlunsplit]: the client that
    is handed a rebuilt URL sees the host it was built from. *)

From stdpp Require Import base tactics list strings.
From Stdlib Require Import ZArith Lia Ascii.
From S2P Require Import Prelude PyStr Ip Url.

Definition url_char (c : ascii) : bool := negb (unsafe_url_byte c).
Definition query_char (c : ascii) : bool := url_char c && negb (is_char "#" c).
Definition path_char (c : ascii) : bool := query_char c && negb (is_char "?" c).
Definition netloc_char (c : ascii) : bool := path_char c && negb (is_char "/" c).

(** An absolute path or none. *)
Definition rooted (p : string) : bool := PyStr.empty p || starts_with "/" p.

Record split_ok (u : split_result) : Prop := {
  so_netloc : all_chars netloc_char (u_netloc u) = true;
  so_brackets : netloc_ok (u_netloc u) = true;
  so_path : all_chars path_char (u_path u) = true;
  so_query : all_chars query_char (u_query u) = true;
  so_rooted : PyStr.empty (u_netloc u) = false -> rooted (u_path u) = true }.

Lemma all_chars_String p c s : all_chars p (String c s) = p c && all_chars p s.
Proof. done. Qed.

Lemma all_chars_in p s c : all_chars p s = true -> In c (chars s) -> p c = true.
Proof. rewrite all_chars_spec. auto. Qed.

Lemma cut_spec c s h t : cut c s = (h, t) ->
  ~ In c (chars h) /\ s = h +:+ match t with Some r => String c r | None => EmptyString end.
Proof.
  unfold cut. destruct (partition_char c s) as [[h0 f] t0] eqn:E. intros [= -> <-].
  apply partition_char_spec in E as [Hh Ht]. split; [done |].
  destruct f; [done |]. destruct Ht as [-> _]. by rewrite str_app_nil.
Qed.

Lemma cut_at c h t : ~ In c (chars h) -> cut c (h +:+ String c t) = (h, Some t).
Proof. intros H. unfold cut. by rewrite partition_char_at. Qed.

Lemma cut_none c s : ~ In c (chars s) -> cut c s = (s, None).
Proof. intros H. unfold cut. by rewrite partition_char_none. Qed.

(** Cutting keeps what is true of all characters, and frees the head of the
    separator. *)
Lemma cut_chars p c s h t : cut c s = (h, t) -> all_chars p s = true ->
  all_chars (fun d => p d && negb (is_char c d)) h = true /\ all_chars p (default EmptyString t) = true.
Proof.
  intros [Hh ->]%cut_spec. rewrite all_chars_app. intros [Hp Ht]%andb_true_iff. split.
  - apply all_chars_spec. intros d Hd. rewrite all_chars_spec in Hp. rewrite Hp by done. unfold is_char.
    destruct (Ascii.eqb_spec c d) as [-> |]; [by destruct Hh | done].
  - destruct t as [r|]; [|done]. rewrite all_chars_String in Ht. by apply andb_true_iff in Ht as [_ ?].
Qed.

Definition delimiter (c : ascii) : bool := is_char "/" c || is_char "?" c || is_char "#" c.

Definition stops (s : string) : Prop := match s with EmptyString => True | String c _ => delimiter c = true end.

Lemma splitnetloc_spec s n r : splitnetloc s = (n, r) ->
  s = n +:+ r /\ all_chars (fun c => negb (delimiter c)) n = true /\ stops r.
Proof.
  revert n r. induction s as [|c s IH]; intros n r; cbn [splitnetloc]; [by intros [= <- <-] |].
  fold (delimiter c). destruct (delimiter c) eqn:E; [by intros [= <- <-] |].
  destruct (splitnetloc s) as [n0 r0]. intros [= <- <-]. destruct (IH _ _ eq_refl) as (-> & Hn & Hr).
  split; [done |]. by rewrite all_chars_String, E.
Qed.

Lemma splitnetloc_at n r : all_chars (fun c => negb (delimiter c)) n = true -> stops r -> splitnetloc (n +:+ r) = (n, r).
Proof.
  intros Hn Hr. induction n as [|c n IH].
  - change (EmptyString +:+ r) with r. destruct r as [|c r]; [done |]. cbn [splitnetloc]. simpl in Hr.
    by fold (delimiter c); rewrite Hr.
  - rewrite all_chars_String in Hn. apply andb_true_iff in Hn as [Hc%negb_true_iff Hn].
    rewrite str_cons_app. cbn [splitnetloc]. fold (delimiter c). by rewrite Hc, IH.
Qed.

(** ** The shape of the answer *)

Definition clean (url : string) : string :=
  of_chars (List.filter (fun c => negb (unsafe_url_byte c)) (drop_while c0_or_space (chars url))).

Lemma clean_chars url : all_chars url_char (clean url) = true.
Proof.
  unfold all_chars, clean. rewrite chars_of_chars. apply forallb_forall. intros c [_ Hc]%filter_In. done.
Qed.

Definition split_scheme (url : string) : string * string :=
  match cut ":" url with
  | (String c h, Some rest) =>
      if (is_lower c || is_upper c) && all_chars scheme_char (String c h)
      then (lower (String c h), rest) else (EmptyString, url)
  | _ => (EmptyString, url)
  end.

Definition split_rest (scheme netloc url : string) : split_result :=
  let '(url, fragment) := match cut "#" url with (h, Some f) => (h, f) | (h, None) => (h, EmptyString) end in
  let '(url, query) := match cut "?" url with (h, Some q) => (h, q) | (h, None) => (h, EmptyString) end in
  SplitResult scheme netloc url query fragment.

Definition split_netloc (url : string) : string * string :=
  if starts_with "//" url then splitnetloc (str_drop 2 url) else (EmptyString, url).

(** [urlsplit] in stages. *)
Lemma urlsplit_eq url :
  urlsplit url
  = let '(scheme, rest) := split_scheme (clean url) in
    let '(netloc, rest) := split_netloc rest in
    if netloc_ok netloc then Ok (split_rest scheme netloc rest) else Raise ValueError.
Proof.
  unfold urlsplit, split_scheme, split_netloc, split_rest, clean.
  repeat (case_match; simplify_eq/=; try done).
Qed.

Lemma split_scheme_chars p url : all_chars p url = true -> all_chars p (split_scheme url).2 = true.
Proof.
  intros Hp. unfold split_scheme. destruct (cut ":" url) as [h t] eqn:E. pose proof (cut_chars p _ _ _ _ E Hp) as [_ Ht].
  destruct h as [|c h], t as [rest|]; simpl in *; try done. by case_match.
Qed.

Lemma drop_slashes t : str_drop 2 ("//" +:+ t) = t.
Proof. exact (of_chars_chars t). Qed.

Lemma str_drop_slashes url : starts_with "//" url = true -> url = "//" +:+ str_drop 2 url.
Proof. intros [t ->]%starts_with_spec. by rewrite drop_slashes. Qed.

Lemma split_netloc_spec url n r : split_netloc url = (n, r) -> all_chars url_char url = true ->
  all_chars netloc_char n = true /\ all_chars url_char r = true /\ (PyStr.empty n = false -> stops r).
Proof.
  unfold split_netloc. destruct (starts_with "//" url) eqn:E; [|by intros [= <- <-]].
  intros (Hs & Hn & Hr)%splitnetloc_spec Hu. rewrite (str_drop_slashes _ E), Hs, !all_chars_app in Hu.
  apply andb_true_iff in Hu as [_ [Hun Hur]%andb_true_iff]. split; [|done]. apply all_chars_spec. intros c Hc.
  assert (url_char c = true) as Huc by exact (all_chars_in _ _ _ Hun Hc).
  assert (negb (delimiter c) = true) as Hd by exact (all_chars_in _ _ _ Hn Hc).
  unfold netloc_char, path_char, query_char. rewrite Huc. unfold delimiter in Hd.
  by destruct (is_char "/" c), (is_char "?" c), (is_char "#" c).
Qed.

Lemma split_rest_ok scheme n r :
  all_chars netloc_char n = true -> netloc_ok n = true -> all_chars url_char r = true ->
  (PyStr.empty n = false -> stops r) -> split_ok (split_rest scheme n r).
Proof.
  intros Hn Hb Hr Hs. unfold split_rest.
  destruct (cut "#" r) as [h f] eqn:E1. destruct (cut_chars _ _ _ _ _ E1 Hr) as [Hh _].
  fold (all_chars query_char h) in Hh. destruct (cut "?" h) as [p q] eqn:E2.
  destruct (cut_chars _ _ _ _ _ E2 Hh) as [Hp Hq]. fold (all_chars path_char p) in Hp.
  assert (PyStr.empty n = false -> rooted p = true) as Hroot.
  { intros He. specialize (Hs He). apply cut_spec in E1 as [_ ->], E2 as [_ ->].
    destruct p as [|c p]; [done |]. rewrite !str_cons_app in Hs. simpl in Hs.
    rewrite all_chars_String in Hp. unfold path_char, query_char in Hp. unfold delimiter in Hs. to_prop.
    unfold rooted. simpl. rewrite andb_true_r.
    destruct (is_char "/" c) eqn:Ec; [done |]. by destruct (is_char "?" c), (is_char "#" c). }
  destruct f; rewrite E2; destruct q; by constructor.
Qed.

Lemma urlsplit_ok url u : urlsplit url = Ok u -> split_ok u.
Proof.
  rewrite urlsplit_eq. pose proof (split_scheme_chars _ _ (clean_chars url)) as Hr.
  destruct (split_scheme (clean url)) as [scheme rest]. simpl in Hr.
  destruct (split_netloc rest) as [n r] eqn:E. destruct (split_netloc_spec _ _ _ E Hr) as (? & ? & ?).
  destruct (netloc_ok n) eqn:Eb; [|done]. intros [= <-]. by apply split_rest_ok.
Qed.

(** ** The round trip *)

Lemma filter_all {A} (p : A -> bool) l : forallb p l = true -> List.filter p l = l.
Proof. induction l as [|x l IH]; simpl; [done |]. intros [-> H]%andb_true_iff. by rewrite IH. Qed.

Lemma clean_id c s : c0_or_space c = false -> all_chars url_char (String c s) = true -> clean (String c s) = String c s.
Proof.
  intros Hc Hs. unfold clean. simpl chars. cbn [drop_while]. rewrite Hc, filter_all by done. by rewrite <- (of_chars_chars (String c s)).
Qed.

Definition query_part (q : string) : string := if PyStr.empty q then EmptyString else "?" +:+ q.

Lemma split_rest_at scheme n p q :
  all_chars path_char p = true -> all_chars query_char q = true ->
  split_rest scheme n (p +:+ query_part q) = SplitResult scheme n p q EmptyString.
Proof.
  intros Hp Hq. unfold split_rest.
  assert (all_chars query_char (p +:+ query_part q) = true) as Hpq.
  { rewrite all_chars_app. apply andb_true_iff. split.
    - eapply all_chars_impl; [|exact Hp]. intros c. unfold path_char. by intros [? ?]%andb_true_iff.
    - unfold query_part. by destruct q. }
  rewrite cut_none by (by eapply all_chars_not_in).
  unfold query_part. destruct q as [|c q].
  - simpl. rewrite str_app_nil, cut_none; [done |]. by eapply all_chars_not_in.
  - simpl. change ("?" +:+ String c q) with (String "?" (String c q)). rewrite cut_at; [done |]. by eapply all_chars_not_in.
Qed.

Definition http_scheme (s : string) : Prop := s = "http"%string \/ s = "https"%string.

Lemma urlunsplit_eq scheme netloc p q :
  http_scheme scheme -> PyStr.empty netloc = false -> rooted p = true ->
  urlunsplit scheme netloc p q EmptyString = scheme +:+ String ":" ("//" +:+ (netloc +:+ (p +:+ query_part q))).
Proof.
  intros Hs Hn Hp. unfold urlunsplit. rewrite Hn. unfold rooted in Hp. rewrite Hp. cbn [negb].
  assert (PyStr.empty scheme = false) as -> by by destruct Hs as [-> | ->].
  unfold query_part. destruct (PyStr.empty q); cbn [PyStr.empty].
  - rewrite (str_app_nil p). done.
  - rewrite !str_assoc. done.
Qed.

Lemma urlsplit_unsplit scheme netloc p q :
  http_scheme scheme -> PyStr.empty netloc = false ->
  all_chars netloc_char netloc = true -> netloc_ok netloc = true ->
  all_chars path_char p = true -> rooted p = true -> all_chars query_char q = true ->
  urlsplit (urlunsplit scheme netloc p q EmptyString) = Ok (SplitResult scheme netloc p q EmptyString).
Proof.
  intros Hs Hn Hnc Hnb Hp Hr Hq. rewrite urlunsplit_eq by done.
  set (tail := p +:+ query_part q).
  assert (all_chars url_char (netloc +:+ tail) = true) as Hc.
  { unfold tail. rewrite !all_chars_app. apply andb_true_iff. split; [|apply andb_true_iff; split].
    - eapply all_chars_impl; [|exact Hnc]. unfold netloc_char, path_char, query_char. intros c ?. by to_prop.
    - eapply all_chars_impl; [|exact Hp]. unfold path_char, query_char. intros c ?. by to_prop.
    - unfold query_part. destruct (PyStr.empty q); [done |]. rewrite all_chars_app. apply andb_true_iff. split; [done |].
      eapply all_chars_impl; [|exact Hq]. unfold query_char. intros c ?. by to_prop. }
  rewrite urlsplit_eq.
  assert (clean (scheme +:+ String ":" ("//" +:+ (netloc +:+ tail))) = scheme +:+ String ":" ("//" +:+ (netloc +:+ tail))) as ->.
  { assert (all_chars url_char (scheme +:+ String ":" ("//" +:+ (netloc +:+ tail))) = true) as Ha.
    { rewrite all_chars_app, all_chars_String, all_chars_app, Hc. by destruct Hs as [-> | ->]. }
    destruct Hs as [-> | ->]; by apply clean_id. }
  assert (split_scheme (scheme +:+ String ":" ("//" +:+ (netloc +:+ tail))) = (scheme, "//" +:+ (netloc +:+ tail))) as ->.
  { unfold split_scheme. rewrite cut_at by (destruct Hs as [-> | ->]; simpl; intuition congruence). by destruct Hs as [-> | ->]. }
  unfold split_netloc. rewrite starts_with_app.
  rewrite drop_slashes, splitnetloc_at; [by rewrite Hnb; unfold tail; rewrite split_rest_at | |].
  - eapply all_chars_impl; [|exact Hnc]. unfold netloc_char, path_char, query_char, delimiter. intros c ?. to_prop.
    by destruct (is_char "/" c), (is_char "?" c), (is_char "#" c).
  - unfold tail. unfold rooted in Hr. destruct p as [|c p]; [unfold query_part; by destruct q |].
    apply starts_with_spec in Hr as [t ->]. done.
Qed.

(** ** Trailing slashes *)

Definition slash : string := "/".

Lemma app_slash_ne s : s +:+ slash <> EmptyString.
Proof. by destruct s. Qed.

Lemma cut_slash c s : c <> "/"%char ->
  cut c (s +:+ slash) = match cut c s with
                        | (h, Some r) => (h, Some (r +:+ slash))
                        | (h, None) => (h +:+ slash, None)
                        end.
Proof.
  intros Hc. destruct (cut c s) as [h [r|]] eqn:E; apply cut_spec in E as [Hh ->].
  - rewrite str_assoc, str_cons_app. by apply cut_at.
  - rewrite str_app_nil. apply cut_none. rewrite chars_app. intros [H | [H | []]]%in_app_iff; [done | congruence].
Qed.

Lemma drop_while_app {A} (p : A -> bool) l x : p x = false -> drop_while p (l ++ [x]) = drop_while p l ++ [x].
Proof. intros Hx. induction l as [|y l IH]; simpl; [by rewrite Hx |]. by destruct (p y). Qed.

Lemma clean_slash s : clean (s +:+ slash) = clean s +:+ slash.
Proof.
  unfold clean. rewrite chars_app. simpl (chars slash). rewrite drop_while_app by done. rewrite List.filter_app.
  rewrite <- (of_chars_chars (_ +:+ slash)). by rewrite chars_app, chars_of_chars.
Qed.

Lemma splitnetloc_slash t : splitnetloc (t +:+ slash) = let '(n, r) := splitnetloc t in (n, r +:+ slash).
Proof.
  destruct (splitnetloc t) as [n r] eqn:E. apply splitnetloc_spec in E as (-> & Hn & Hr).
  rewrite str_assoc. apply splitnetloc_at; [done |]. by destruct r.
Qed.

Definition same_site (u u' : split_result) : Prop :=
  u_scheme u' = u_scheme u /\ u_netloc u' = u_netloc u /\ u_query u' = EmptyString /\ u_fragment u' = EmptyString.

(** A host and neither query nor fragment. *)
Definition plain_base (u : split_result) : Prop :=
  http_scheme (u_scheme u) /\ PyStr.empty (u_netloc u) = false
  /\ u_query u = EmptyString /\ u_fragment u = EmptyString.

Lemma split_scheme_slash s sch rest :
  split_scheme (s +:+ slash) = (sch, rest) -> PyStr.empty sch = false ->
  exists r, rest = r +:+ slash /\ split_scheme s = (sch, r).
Proof.
  unfold split_scheme. rewrite cut_slash by done. destruct (cut ":" s) as [h [r|]].
  - destruct h as [|c h]; [by intros [= <- <-] |]. destruct (_ && _); [|by intros [= <- <-]].
    intros [= <- <-] _. by exists r.
  - destruct (h +:+ slash); by intros [= <- <-].
Qed.

Lemma split_netloc_slash r n rest :
  split_netloc (r +:+ slash) = (n, rest) -> PyStr.empty n = false ->
  exists t, rest = t +:+ slash /\ split_netloc r = (n, t).
Proof.
  unfold split_netloc. destruct (starts_with "//" (r +:+ slash)) eqn:E; [|by intros [= <- <-]].
  destruct (starts_with "//" r) eqn:Er.
  - rewrite (str_drop_slashes _ Er), str_assoc, !drop_slashes, splitnetloc_slash.
    destruct (splitnetloc _) as [n0 r0]. intros [= <- <-] _. by exists r0.
  - apply starts_with_spec in E as [t Ht]. rewrite Ht, drop_slashes.
    assert (t = EmptyString) as ->; [|by intros [= <- <-]].
    destruct r as [|a [|b r]]; [done | by destruct t as [|? []] |].
    rewrite !str_cons_app in Ht. injection Ht as -> -> _. done.
Qed.

Lemma split_rest_slash sch n r :
  u_query (split_rest sch n (r +:+ slash)) = EmptyString -> u_fragment (split_rest sch n (r +:+ slash)) = EmptyString ->
  u_query (split_rest sch n r) = EmptyString /\ u_fragment (split_rest sch n r) = EmptyString.
Proof.
  unfold split_rest. rewrite cut_slash by done. destruct (cut "#" r) as [h [f|]].
  - destruct (cut "?" h) as [p [q|]]; simpl; intros _ H; by apply app_slash_ne in H.
  - rewrite cut_slash by done. destruct (cut "?" h) as [p [q|]]; simpl; [|done].
    intros H. by apply app_slash_ne in H.
Qed.

Lemma split_rest_fields sch n r : u_scheme (split_rest sch n r) = sch /\ u_netloc (split_rest sch n r) = n.
Proof. unfold split_rest. by repeat case_match. Qed.

Lemma urlsplit_unslash s u : urlsplit (s +:+ slash) = Ok u -> plain_base u ->
  exists u', urlsplit s = Ok u' /\ same_site u u'.
Proof.
  rewrite !urlsplit_eq, clean_slash. intros H (Hs & Hn & Hq & Hf).
  destruct (split_scheme (clean s +:+ slash)) as [sch rest] eqn:E1.
  destruct (split_netloc rest) as [n r] eqn:E2. destruct (netloc_ok n) eqn:Eb; [|done]. injection H as <-.
  destruct (split_rest_fields sch n r) as [Es En]. rewrite Es in Hs. rewrite En in Hn.
  apply split_scheme_slash in E1 as (r1 & -> & E1); [|by destruct Hs as [-> | ->]].
  apply split_netloc_slash in E2 as (r2 & -> & E2); [|done].
  rewrite E1, E2, Eb. eexists. split; [done |]. destruct (split_rest_slash _ _ _ Hq Hf).
  unfold same_site. rewrite Es, En. by destruct (split_rest_fields sch n r2) as [-> ->].
Qed.

Lemma urlsplit_rstrip s u : urlsplit s = Ok u -> plain_base u ->
  exists u', urlsplit (rstrip_slash s) = Ok u' /\ same_site u u'.
Proof.
  destruct (rstrip_slash_spec s) as [k Hk]. revert Hk. generalize (rstrip_slash s). intros t ->. rename t into s.
  revert u. induction k as [|k IH]; intros u.
  - change (of_chars (repeat "/"%char 0)) with EmptyString. rewrite str_app_nil. intros Hu (? & ? & ? & ?). exists u. split; [exact Hu |]. by repeat split.
  - assert (of_chars (repeat "/"%char (S k)) = of_chars (repeat "/"%char k) +:+ slash) as ->.
    { change slash with (of_chars ["/"%char]). rewrite <- (of_chars_chars (_ +:+ _)), chars_app, !chars_of_chars.
      f_equal. apply (repeat_cons k "/"%char). }
    rewrite <- str_assoc. intros Hu Hb. destruct (urlsplit_unslash _ _ Hu Hb) as (u1 & H1 & Es & En & Eq & Ef).
    destruct (IH u1 H1) as (u2 & H2 & Es2 & En2 & Eq2 & Ef2).
    { destruct Hb as (? & ? & _). unfold plain_base. rewrite Es, En. done. }
    exists u2. split; [done |]. unfold same_site. by rewrite Es2, En2.
Qed.

(** ** Appending a path *)

(** A character urlsplit neither drops nor splits a query or fragment at. *)
Definition solid_char (c : ascii) : bool := negb (c0_or_space c) && path_char c.

Lemma clean_solid s : all_chars solid_char s = true -> clean s = s.
Proof.
  destruct s as [|c s]; [done |]. intros Hs. apply clean_id.
  - rewrite all_chars_String in Hs. unfold solid_char in Hs. to_prop. by destruct (c0_or_space c).
  - eapply all_chars_impl; [|exact Hs]. unfold solid_char, path_char, query_char. intros d Hd. by to_prop.
Qed.

Lemma split_scheme_app s sch rest p :
  split_scheme s = (sch, rest) -> PyStr.empty sch = false -> split_scheme (s +:+ p) = (sch, rest +:+ p).
Proof.
  unfold split_scheme. destruct (cut ":" s) as [h [r|]] eqn:E.
  - apply cut_spec in E as [Hh ->]. rewrite str_assoc, str_cons_app, cut_at by done.
    destruct h as [|c h]; [by intros [= <- <-] |]. destruct (_ && _); by intros [= <- <-].
  - destruct h; by intros [= <- <-].
Qed.

Lemma stops_rooted r p : stops r -> rooted p = true -> stops (r +:+ p).
Proof.
  destruct r as [|c r]; [|done]. intros _ Hp. change (EmptyString +:+ p) with p. unfold rooted in Hp.
  destruct p as [|c p]; [done |]. apply starts_with_spec in Hp as [t ->]. done.
Qed.

Lemma split_netloc_app s n rest p :
  split_netloc s = (n, rest) -> PyStr.empty n = false -> rooted p = true -> split_netloc (s +:+ p) = (n, rest +:+ p).
Proof.
  unfold split_netloc. destruct (starts_with "//" s) eqn:E; [|by intros [= <- <-]].
  rewrite (str_drop_slashes _ E), str_assoc, starts_with_app, !drop_slashes.
  destruct (splitnetloc (str_drop 2 s)) as [n0 r0] eqn:Es. apply splitnetloc_spec in Es as (-> & Hn & Hr).
  intros [= <- <-] _ Hp. rewrite str_assoc. apply splitnetloc_at; [done | by apply stops_rooted].
Qed.

Lemma all_chars_suffix p s t : all_chars p (s +:+ t) = true -> all_chars p t = true.
Proof. rewrite all_chars_app. by intros [_ ?]%andb_true_iff. Qed.

Lemma split_scheme_suffix q s sch rest : split_scheme s = (sch, rest) -> all_chars q s = true -> all_chars q rest = true.
Proof. intros E Hs. pose proof (split_scheme_chars q s Hs) as H. by rewrite E in H. Qed.

Lemma split_netloc_suffix q s n rest : split_netloc s = (n, rest) -> all_chars q s = true -> all_chars q rest = true.
Proof.
  unfold split_netloc. destruct (starts_with "//" s) eqn:E; [|by intros [= <- <-]].
  intros Hn Hs. rewrite (str_drop_slashes _ E) in Hs. apply splitnetloc_spec in Hn as (Hn & _). rewrite Hn in Hs.
  by apply all_chars_suffix in Hs as Hs%all_chars_suffix.
Qed.

Lemma split_rest_path sch n r : all_chars path_char r = true -> split_rest sch n r = SplitResult sch n r EmptyString EmptyString.
Proof.
  intros Hr. pose proof (split_rest_at sch n r EmptyString Hr eq_refl) as H.
  change (query_part EmptyString) with EmptyString in H. by rewrite str_app_nil in H.
Qed.

(** A path appended to a plain base stays at its site, below its path. *)
Lemma urlsplit_append s u p :
  urlsplit s = Ok u -> plain_base u -> all_chars solid_char s = true -> all_chars solid_char p = true -> rooted p = true ->
  urlsplit (s +:+ p) = Ok (SplitResult (u_scheme u) (u_netloc u) (u_path u +:+ p) EmptyString EmptyString).
Proof.
  intros Hu (Hsch & Hnet & _) Hs Hp Hr. rewrite urlsplit_eq in Hu |- *.
  rewrite clean_solid in Hu by done. rewrite clean_solid by by rewrite all_chars_app, Hs, Hp.
  assert (forall t, all_chars solid_char t = true -> all_chars path_char t = true) as Hsp.
  { intros t. apply all_chars_impl. unfold solid_char. by intros c [_ ?]%andb_true_iff. }
  destruct (split_scheme s) as [sch rest] eqn:E1. destruct (split_netloc rest) as [n r] eqn:E2.
  destruct (netloc_ok n) eqn:Eb; [|done]. injection Hu as <-.
  destruct (split_rest_fields sch n r) as [Fs Fn]. rewrite Fs in Hsch. rewrite Fn in Hnet.
  pose proof (Hsp _ (split_netloc_suffix _ _ _ _ E2 (split_scheme_suffix _ _ _ _ E1 Hs))) as Hrr.
  erewrite split_scheme_app by (exact E1 || by destruct Hsch as [-> | ->]).
  rewrite (split_netloc_app _ _ _ _ E2 Hnet Hr), Eb, (split_rest_path _ _ _ Hrr). f_equal. apply split_rest_path.
  cbn [u_path]. by rewrite all_chars_app, Hrr, Hsp.
Qed.
