(* ===== verification/Template.v ===== *)
(** Templates with references: the regular expressions of the forwarder with
    [re.sub] and [re.findall] over them, and [urllib.parse.quote], [unquote] and
    [parse_qs] of the standard library. *)

From stdpp Require Import base tactics list strings.
From Stdlib Require Import ZArith Lia Ascii.
From S2P Require Import Prelude PyStr Json.

(** ** Scanning

    A regular expression is a function that answers, when it matches at the
    start of the text, its group and the length of the match.  [scan] is the
    left-to-right search of [re.sub]: [skip] characters belong to the match
    before. *)

Inductive piece := Lit (c : ascii) | Ref (name : string).

Fixpoint scan (m : string -> option (string * nat)) (skip : nat) (s : string) : list piece :=
  match s with
  | EmptyString => []
  | String c s' =>
      match skip with
      | S k => scan m k s'
      | O =>
          match m s with
          | Some (name, n) => Ref name :: scan m (n - 1) s'
          | None => Lit c :: scan m 0 s'
          end
      end
  end.

Definition name_start (c : ascii) : bool := is_lower c || is_upper c || is_char "_" c.
Definition name_char (c : ascii) : bool := is_alnum c || is_char "_" c.

(** The match of a brace, an identifier (letters, digits, underscores) and a
    closing brace. *)
Definition _TEMPLATE_VAR (s : string) : option (string * nat) :=
  match s with
  | String "{" (String c s') =>
      if name_start c then
        let '(n, rest) := span name_char s' in
        match rest with
        | String "}" _ => Some (String c n, String.length n + 3)%nat
        | _ => None
        end
      else None
  | _ => None
  end.

Definition marker : string := "{{secret:".

(** The match of the marker, one or more of [A-Za-z0-9_-], and two closing
    braces. *)
Definition _SECRET_REF (s : string) : option (string * nat) :=
  if starts_with marker s then
    let '(n, rest) := span is_word_dash (str_drop 9 s) in
    if negb (PyStr.empty n) && starts_with "}}" rest then Some (n, String.length n + 11)%nat else None
  else None.

Definition pieces (m : string -> option (string * nat)) (s : string) : list piece := scan m 0 s.

(** [re.findall], [re.sub] with the empty text, and [re.sub] with a function
    that may raise. *)
Definition refs_of (l : list piece) : list string :=
  concat (map (fun p => match p with Ref n => [n] | Lit _ => [] end) l).

Definition literals (l : list piece) : string :=
  of_chars (concat (map (fun p => match p with Lit c => [c] | Ref _ => [] end) l)).

Fixpoint render {E} (f : string -> string + E) (l : list piece) : string + E :=
  match l with
  | [] => inl EmptyString
  | Lit c :: l' => match render f l' with inl s => inl (String c s) | inr e => inr e end
  | Ref n :: l' =>
      match f n with
      | inr e => inr e
      | inl v => match render f l' with inl s => inl (v +:+ s) | inr e => inr e end
      end
  end.

Example scan_forms :
  pieces _TEMPLATE_VAR "/a/{x}{1}{y_2" = map Lit (chars "/a/") ++ [Ref "x"] ++ map Lit (chars "{1}{y_2")
  /\ refs_of (pieces _SECRET_REF "Bearer {{{secret:k-1}}}{{secret:}}") = ["k-1"%string]
  /\ literals (pieces _SECRET_REF "{{{secret:k}}}") = "{}"%string.
Proof. by vm_compute. Qed.

(** ** Percent encoding *)

(** The UTF-8 bytes of a code point below U+0100. *)
Definition utf8_char (c : ascii) : list ascii :=
  if code c <? 128 then [c] else [chr (192 + code c / 64); chr (128 + code c mod 64)].
Definition utf8_encode (s : string) : string := of_chars (concat (map utf8_char (chars s))).

Definition unreserved (c : ascii) : bool := is_alnum c || existsb (Ascii.eqb c) ["_"; "."; "-"; "~"]%char.

Definition hex_upper (v : Z) : ascii := chr (if v <? 10 then 48 + v else 55 + v).
Definition quote_byte (c : ascii) : list ascii :=
  if unreserved c then [c] else ["%"%char; hex_upper (code c / 16); hex_upper (code c mod 16)].

(** [quote(s, safe="")]. *)
Definition quote (s : string) : string := of_chars (concat (map quote_byte (chars (utf8_encode s)))).

Definition hex_value (c : ascii) : Z :=
  if is_digit c then code c - 48 else if is_upper c then code c - 55 else code c - 87.

(** [unquote_to_bytes]. *)
Fixpoint unquote_l (l : list ascii) : list ascii :=
  match l with
  | "%"%char :: ((a :: b :: l') as l1) =>
      if is_hex a && is_hex b then chr (16 * hex_value a + hex_value b) :: unquote_l l' else "%"%char :: unquote_l l1
  | c :: l' => c :: unquote_l l'
  | [] => []
  end.
Definition unquote_to_bytes (s : string) : string := of_chars (unquote_l (chars s)).

Example quote_forms :
  quote "a/b c" = "a%2Fb%20c"%string /\ unquote_to_bytes "%2f%2%41%zz" = "/%2A%zz"%string.
Proof. by vm_compute. Qed.

(** What a reference is replaced by consists of unreserved characters and
    escapes, so it can neither end a path segment nor a query parameter. *)
Definition quoted_char (c : ascii) : bool := unreserved c || is_char "%" c.

Lemma forallb_concat {A B} (p : B -> bool) (f : A -> list B) l :
  (forall x, forallb p (f x) = true) -> forallb p (concat (map f l)) = true.
Proof. intros Hf. induction l as [|x l IH]; [done |]. simpl. by rewrite forallb_app, Hf, IH. Qed.

Lemma hex_upper_quoted v : 0 <= v < 16 -> quoted_char (hex_upper v) = true.
Proof.
  intros Hv. assert (forallb (fun k => quoted_char (hex_upper (Z.of_nat k))) (seq 0 16) = true) as H by by vm_compute.
  rewrite forallb_forall in H. specialize (H (Z.to_nat v)). rewrite Z2Nat.id in H by lia.
  apply H, in_seq. lia.
Qed.

Lemma quote_quoted s : all_chars quoted_char (quote s) = true.
Proof.
  unfold all_chars, quote. rewrite chars_of_chars. apply forallb_concat. intros c. unfold quote_byte.
  pose proof (code_range c). destruct (unreserved c) eqn:E; simpl.
  - unfold quoted_char. by rewrite E.
  - rewrite !hex_upper_quoted by (Z.to_euclidean_division_equations; lia). done.
Qed.

(** ** Rendering *)

Section Render.
Context {E : Type}.
Implicit Types (f : string -> string + E) (l : list piece).

Lemma render_app f l1 l2 :
  render f (l1 ++ l2)
  = match render f l1 with
    | inl a => match render f l2 with inl b => inl (a +:+ b) | inr e => inr e end
    | inr e => inr e
    end.
Proof.
  induction l1 as [|[c|n] l1 IH]; simpl; [by destruct (render f l2) | |].
  - rewrite IH. destruct (render f l1); [|done]. by destruct (render f l2).
  - destruct (f n); [|done]. rewrite IH. destruct (render f l1); [|done]. destruct (render f l2); [|done].
    by rewrite str_assoc.
Qed.

(** The result depends on the values of the references of the text only. *)
Lemma render_ext f g l : (forall n, In n (refs_of l) -> f n = g n) -> render f l = render g l.
Proof.
  induction l as [|[c|n] l IH]; simpl; intros H; [done | by rewrite IH |].
  rewrite H by by left. rewrite IH; [done |]. intros k Hk. apply H. by right.
Qed.

Lemma render_chars f l p s :
  (forall n v, In n (refs_of l) -> f n = inl v -> all_chars p v = true) -> all_chars p (literals l) = true ->
  render f l = inl s -> all_chars p s = true.
Proof.
  unfold literals, all_chars. rewrite chars_of_chars.
  revert s. induction l as [|[c|n] l IH]; intros s Hf; [by intros _ [= <-] | |]; simpl.
  - intros [Hc Hl]%andb_true_iff. destruct (render f l) as [r|]; [|done]. intros [= <-].
    simpl. rewrite Hc. by apply IH.
  - intros Hl. destruct (f n) as [v|] eqn:En; [|done]. destruct (render f l) as [r|]; [|done]. intros [= <-].
    rewrite chars_app, forallb_app. rewrite (Hf n v) by (by first [left | done]). apply IH; [|done | done].
    intros k w Hk. apply Hf. by right.
Qed.
End Render.

(** ** Scanning segment by segment *)

Lemma literals_chars m p s k : all_chars p s = true -> all_chars p (literals (scan m k s)) = true.
Proof.
  unfold literals, all_chars. rewrite chars_of_chars. revert k. induction s as [|c s IH]; intros k; [done |].
  intros [Hc Hs]%andb_true_iff. cbn [scan]. destruct k as [|k]; [|by apply IH].
  destruct (m (String c s)) as [[name n]|]; [by apply IH |]. simpl. rewrite Hc. by apply IH.
Qed.

Definition slash_free (s : string) : bool := all_chars (fun c => negb (is_char "/" c)) s.

(** A match that ends where the text does and does not look past a slash. *)
Record segmented (m : string -> option (string * nat)) : Prop := {
  seg_length : forall s name n, m s = Some (name, n) -> (0 < n <= String.length s)%nat;
  seg_slash : forall h t, h <> EmptyString -> m (h +:+ String "/" t) = m h;
  seg_start : forall t, m (String "/" t) = None }.

Lemma scan_slash m h t k : segmented m -> (k <= String.length h)%nat ->
  scan m k (h +:+ String "/" t) = scan m k h ++ Lit "/" :: scan m 0 t.
Proof.
  intros Hm. revert k. induction h as [|c h IH]; intros k Hk.
  - simpl in Hk. assert (k = 0%nat) as -> by lia. change (EmptyString +:+ ?x) with x. cbn [scan]. by rewrite (seg_start m Hm).
  - rewrite str_cons_app. cbn [scan]. simpl in Hk. destruct k as [|k]; [|apply IH; lia].
    rewrite <- str_cons_app, (seg_slash m Hm) by done.
    destruct (m (String c h)) as [[name n]|] eqn:E; [|by rewrite IH by lia].
    apply (seg_length m Hm) in E. simpl in E. rewrite IH by lia. done.
Qed.

Lemma span_slash p h t : p "/"%char = false ->
  span p (h +:+ String "/" t) = let '(a, r) := span p h in (a, r +:+ String "/" t).
Proof.
  intros Hp. induction h as [|c h IH]; [simpl; by rewrite Hp |].
  rewrite str_cons_app. cbn [span]. destruct (p c); [|done]. rewrite IH. by destruct (span p h).
Qed.

Lemma span_length p s a r : span p s = (a, r) -> (String.length a + String.length r = String.length s)%nat.
Proof.
  revert a r. induction s as [|c s IH]; intros a r; simpl; [by intros [= <- <-] |].
  destruct (p c); [|by intros [= <- <-]]. destruct (span p s) as [a0 r0]. intros [= <- <-]. simpl. by rewrite (IH _ _ eq_refl).
Qed.

Lemma template_var_segmented : segmented _TEMPLATE_VAR.
Proof.
  split.
  - intros s name n. unfold _TEMPLATE_VAR. repeat (case_match; try done). intros [= <- <-].
    match goal with H : span _ _ = _ |- _ => apply span_length in H end. simpl in *. lia.
  - intros [|a [|c h]] t Hne; [done | |].
    + rewrite str_cons_app. change (EmptyString +:+ ?x) with x. unfold _TEMPLATE_VAR. by repeat case_match.
    + rewrite !str_cons_app. unfold _TEMPLATE_VAR.
      assert (span name_char (h +:+ String "/" t) = let '(a, r) := span name_char h in (a, r +:+ String "/" t)) as ->
        by by apply span_slash.
      destruct (span name_char h) as [n r]. destruct r as [|d r]; [|by rewrite str_cons_app].
      change (EmptyString +:+ ?x) with x. by repeat case_match.
  - intros t. by unfold _TEMPLATE_VAR.
Qed.

Lemma split_char_at c h t : ~ In c (chars h) -> split_char c (h +:+ String c t) = h :: split_char c t.
Proof.
  induction h as [|x h IH]; intros Hn; [simpl; by rewrite Ascii.eqb_refl |]. rewrite str_cons_app. cbn [split_char].
  destruct (Ascii.eqb_spec c x) as [<- |]; [destruct Hn; by left |]. rewrite IH; [done |]. intros H. apply Hn. by right.
Qed.

Lemma split_char_none c h : ~ In c (chars h) -> split_char c h = [h].
Proof.
  induction h as [|x h IH]; intros Hn; [done |]. cbn [split_char].
  destruct (Ascii.eqb_spec c x) as [<- |]; [destruct Hn; by left |]. rewrite IH; [done |]. intros H. apply Hn. by right.
Qed.

Lemma slash_free_not_in s : slash_free s = true <-> ~ In "/"%char (chars s).
Proof.
  unfold slash_free. rewrite all_chars_spec. split.
  - intros H Hin. by apply H in Hin.
  - intros H c Hc. unfold is_char. by destruct (Ascii.eqb_spec "/" c) as [<- |].
Qed.

(** Filling in a template fills in its segments one by one: no value opens or
    closes a segment. *)
Lemma render_segments {E} (f : string -> string + E) s p :
  (forall n v, f n = inl v -> slash_free v = true) -> render f (pieces _TEMPLATE_VAR s) = inl p ->
  Forall2 (fun t x => render f (pieces _TEMPLATE_VAR t) = inl x) (split_char "/" s) (split_char "/" p).
Proof.
  intros Hf. rewrite <- (join_split "/" s) at 1.
  pose proof (fun h => split_char_free "/" s h) as Hfree. pose proof (split_char_ne "/" s) as Hne.
  revert p Hfree Hne. induction (split_char "/" s) as [|h l IH]; intros p Hfree Hne; [done |].
  assert (forall x, render f (pieces _TEMPLATE_VAR h) = inl x -> ~ In "/"%char (chars x)) as Hx.
  { intros x Hx. apply slash_free_not_in. eapply render_chars; [| |exact Hx].
    - intros n v _. by apply Hf.
    - apply literals_chars. by apply slash_free_not_in, Hfree; left. }
  destruct l as [|h' l].
  - cbn [join foldr]. rewrite str_app_nil. intros Hr. rewrite split_char_none by auto. by constructor.
  - assert (join "/" (h :: h' :: l) = h +:+ String "/" (join "/" (h' :: l))) as -> by done.
    unfold pieces at 1. rewrite scan_slash by (first [exact template_var_segmented | lia]).
    rewrite render_app. cbn [render]. fold (pieces _TEMPLATE_VAR h). fold (pieces _TEMPLATE_VAR (join "/" (h' :: l))).
    destruct (render f (pieces _TEMPLATE_VAR h)) as [x|] eqn:Ex; [|done].
    destruct (render f (pieces _TEMPLATE_VAR (join "/" (h' :: l)))) as [y|] eqn:Ey; [|done]. intros [= <-].
    rewrite split_char_at by auto. constructor; [done |]. apply IH; [|done | done]. intros k Hk. apply Hfree. by right.
Qed.
