(* ===== verification/Ingress.v ===== *)
(** What stands in front of a request: broker/identity.py, ratelimit.py,
    redaction.py, and the channel credentials of tool_state.py. *)

From stdpp Require Import base tactics list strings.
From Stdlib Require Import ZArith Lia Ascii.
From S2P Require Import Prelude PyStr Json Policy Action Store StoreFacts StoreSpec.

(** ** identity.py *)

Section Identity.
Context `{Digest}.

Definition bearer_token (authorization_header : option string) : option string :=
  match authorization_header with
  | Some h =>
      if PyStr.empty h then None else
      let '(scheme, _, value) := partition_char " " h in
      if negb (String.eqb (lower scheme) "bearer") || PyStr.empty (strip value) then None
      else Some (strip value)
  | None => None
  end.

Definition hash_token (token : string) : string := sha256_hex token.

Definition token_fingerprint (authorization_header : option string) : option string :=
  match bearer_token authorization_header with
  | Some token => if PyStr.empty token then None else Some (str_take 12 (hash_token token))
  | None => None
  end.

Definition authenticate (authorization_header : option string) (s : store) : option caller :=
  match bearer_token authorization_header with
  | Some token => caller_by_token_hash (hash_token token) s
  | None => None
  end.
End Identity.

(** ** ratelimit.py *)

(** The limiter's dictionary: caller id to window start and count. *)
Abbreviation rate_state := (list (Z * (Z * Z))).

Fixpoint rate_get (d : rate_state) (k : Z) : option (Z * Z) :=
  match d with
  | [] => None
  | (k', v) :: d' => if k' =? k then Some v else rate_get d' k
  end.

Fixpoint rate_set (d : rate_state) (k : Z) (v : Z * Z) : rate_state :=
  match d with
  | [] => [(k, v)]
  | (k', v') :: d' => if k' =? k then (k, v) :: d' else (k', v') :: rate_set d' k v
  end.

Definition window : Z := 60 * second.

Definition allow (limit caller_id now : Z) (d : rate_state) : bool * rate_state :=
  if limit <=? 0 then (true, d)
  else
    let '(start, count) := default (now, 0) (rate_get d caller_id) in
    let '(start, count) := if window <=? now - start then (now, 0) else (start, count) in
    if limit <=? count then (false, d)
    else (true, rate_set d caller_id (start, count + 1)).

(** ** redaction.py *)

Definition _MAX : nat := 280.

Fixpoint run_length {A} (p : A -> bool) (l : list A) : nat :=
  match l with x :: l' => if p x then S (run_length p l') else 0 | [] => 0 end%nat.

(** [bearer\s+\S+], case-insensitively: the number of characters matched. *)
Definition match_bearer (l : list ascii) : option nat :=
  if String.eqb (lower (of_chars (take 6 l))) "bearer" then
    let sp := run_length is_space (drop 6 l) in
    let tok := run_length (fun c => negb (is_space c)) (drop (6 + sp) l) in
    match sp, tok with S _, S _ => Some (6 + sp + tok)%nat | _, _ => None end
  else None.

Definition dot_follows (l : list ascii) : bool := match l with c :: _ => is_char "." c | [] => false end.

(** Three runs of word characters joined by dots. *)
Definition match_dotted (l : list ascii) : option nat :=
  let a := run_length is_word_dash l in
  let l1 := drop a l in
  let b := run_length is_word_dash (drop 1 l1) in
  let l2 := drop (1 + b) l1 in
  let c := run_length is_word_dash (drop 1 l2) in
  match a, b, c with
  | S _, S _, S _ => if dot_follows l1 && dot_follows l2 then Some (a + 1 + b + 1 + c)%nat else None
  | _, _, _ => None
  end.

Definition match_opaque (l : list ascii) : option nat :=
  let a := run_length is_word_dash l in if (32 <=? a)%nat then Some a else None.

Definition secretish (l : list ascii) : option nat :=
  match match_bearer l with
  | Some n => Some n
  | None => match match_dotted l with Some n => Some n | None => match_opaque l end
  end.

Definition REDACTED : list ascii := chars "[redacted]".

(** [_SECRETISH.sub("[redacted]", text)]; one step per character left. *)
Fixpoint redact_sub (fuel : nat) (l : list ascii) : list ascii :=
  match fuel, l with
  | S fuel, c :: l' =>
      match secretish l with
      | Some n => REDACTED ++ redact_sub fuel (drop n l)
      | None => c :: redact_sub fuel l'
      end
  | _, _ => []
  end.

Definition redact_text (text : string) : string :=
  let l := redact_sub (String.length text) (chars text) in
  if (_MAX <? length l)%nat then of_chars (take _MAX l) +:+ "..." else of_chars l.

Definition redact (text : option string) : option string := redact_text <$> text.

(** ** tool_state.py *)

Record tool_state := ToolState { ts_mtime : option Z; ts_by_id : dict string }.

(** What the file system answers: no file, or its mtime and parsed contents
    ([Raise] for an unreadable or invalid file). *)
Definition file_view : Type := option (Z * res json).

Definition channel_record (tid : string) (rec : json) : dict string :=
  match rec with
  | JObj d => match jget d "channel_secret" with
              | JStr s => if PyStr.empty (strip s) then [] else [(tid, s)]
              | _ => []
              end
  | _ => []
  end.

Definition refresh_if_stale (f : file_view) (t : tool_state) : tool_state :=
  match f with
  | None => ToolState None []
  | Some (mtime, contents) =>
      if bool_decide (ts_mtime t = Some mtime) then t
      else match contents with
           | Ok (JObj state) => ToolState (Some mtime) (flat_map (fun kv => channel_record kv.1 kv.2) state)
           | _ => ToolState (ts_mtime t) []
           end
  end.

Definition channel_secret_for (f : file_view) (tool_id : string) (t : tool_state) : option string * tool_state :=
  let t := refresh_if_stale f t in (dget (ts_by_id t) tool_id, t).

(** ** Properties of the limiter *)

Lemma rate_get_set d k v k' : rate_get (rate_set d k v) k' = if k =? k' then Some v else rate_get d k'.
Proof.
  induction d as [|[k0 v0] d IH]; simpl; [done |].
  destruct (Z.eqb_spec k0 k) as [-> | Hne]; simpl; [by destruct (k =? k') |].
  rewrite IH. destruct (Z.eqb_spec k0 k'), (Z.eqb_spec k k'); done || congruence.
Qed.

(** A run of calls by any callers: how many of [caller]'s were allowed. *)
Fixpoint admitted (limit caller : Z) (calls : list (Z * Z)) (d : rate_state) : Z :=
  match calls with
  | [] => 0
  | (c, now) :: calls' =>
      let '(ok, d') := allow limit c now d in
      (if ok && (c =? caller) then 1 else 0) + admitted limit caller calls' d'
  end.

Definition rate_ok (limit : Z) (d : rate_state) : Prop :=
  forall k start count, rate_get d k = Some (start, count) -> 0 <= count <= limit.

Lemma allow_other limit c now d ok d' k :
  allow limit c now d = (ok, d') -> k <> c -> rate_get d' k = rate_get d k.
Proof.
  unfold allow. intros Ha Hk. repeat case_match; simplify_eq; try done;
    rewrite rate_get_set, (proj2 (Z.eqb_neq c k)) by congruence; done.
Qed.

Lemma allow_same limit c now d ok d' :
  0 < limit -> allow limit c now d = (ok, d') ->
  exists start count,
    (start, count) = (match rate_get d c with
       | Some (s, n) => if window <=? now - s then (now, 0) else (s, n)
       | None => (now, 0) end)
    /\ ok = (count <? limit)
    /\ rate_get d' c = if count <? limit then Some (start, count + 1) else rate_get d c.
Proof.
  intros Hl. unfold allow. rewrite (proj2 (Z.leb_gt _ _)) by lia.
  set (p := match rate_get d c with Some (s, n) => if window <=? now - s then (now, 0) else (s, n) | None => (now, 0) end).
  assert ((let '(start, count) := default (now, 0) (rate_get d c) in
           if window <=? now - start then (now, 0) else (start, count)) = p) as Hp.
  { unfold p. destruct (rate_get d c) as [[s n]|]; simpl; [done |]. by case_match. }
  destruct (default (now, 0) (rate_get d c)) as [s0 n0]. rewrite Hp. destruct p as [start count].
  intros Ha. exists start, count. split; [done |].
  destruct (Z.leb_spec limit count); injection Ha as <- <-.
  - by rewrite (proj2 (Z.ltb_ge _ _)).
  - by rewrite (proj2 (Z.ltb_lt _ _)), rate_get_set, Z.eqb_refl.
Qed.

(** The calls happen at non-decreasing times, the first not before [t]. *)
Fixpoint timed (t : Z) (calls : list (Z * Z)) : Prop :=
  match calls with
  | [] => True
  | (_, now) :: calls' => t <= now /\ timed now calls'
  end.

Definition within (t1 : Z) (calls : list (Z * Z)) : Prop := Forall (fun cn => cn.2 < t1) calls.

Lemma timed_le t t' calls : timed t calls -> t' <= t -> timed t' calls.
Proof. destruct calls as [|[c n] calls]; simpl; [done |]. intros [? ?] ?. split; [lia | done]. Qed.

(** Inside the window that started at [start], only the rest of it is left. *)
Lemma admitted_same_window limit caller calls d t start count :
  0 < limit -> timed t calls -> within (start + window) calls ->
  rate_get d caller = Some (start, count) -> 0 <= count <= limit ->
  admitted limit caller calls d <= limit - count.
Proof.
  intros Hl. revert d t count. induction calls as [|[c now] calls IH]; intros d t count Ht Hw Hd Hc; simpl; [lia |].
  destruct Ht as [Ht Htc]. inversion Hw as [|? ? Hn Hwc]; subst. simpl in Hn.
  destruct (allow limit c now d) as [ok d'] eqn:Ha.
  destruct (Z.eqb_spec c caller) as [-> | Hne].
  - destruct (allow_same _ _ _ _ _ _ Hl Ha) as (s & n & Hsn & -> & Hd'). rewrite Hd in Hsn, Hd'.
    rewrite (proj2 (Z.leb_gt _ _)) in Hsn by lia. injection Hsn as -> ->.
    destruct (Z.ltb_spec count limit); simpl.
    + specialize (IH _ _ (count + 1) Htc Hwc Hd'). lia.
    + specialize (IH _ _ count Htc Hwc Hd'). lia.
  - rewrite andb_false_r. specialize (IH d' now count Htc Hwc).
    rewrite (allow_other _ _ _ _ _ _ caller Ha) in IH by congruence. specialize (IH Hd). lia.
Qed.

(** Before the next window starts at most the old window's rest is used, and
    within [window] of the first call only one more window can start. *)
Lemma admitted_bound limit caller calls d t :
  0 < limit -> rate_ok limit d -> timed t calls -> within (t + window) calls ->
  admitted limit caller calls d
  <= limit + match rate_get d caller with Some (_, count) => limit - count | None => 0 end.
Proof.
  intros Hl. revert d. induction calls as [|[c now] calls IH]; intros d Hd Ht Hw.
  { simpl. destruct (rate_get d caller) as [[s n]|] eqn:E; [apply Hd in E |]; lia. }
  destruct Ht as [Ht Htc]. inversion Hw as [|? ? Hn Hwc]; subst. simpl in Hn. simpl.
  destruct (allow limit c now d) as [ok d'] eqn:Ha.
  assert (rate_ok limit d') as Hd'.
  { intros k s n Hk. destruct (Z.eqb_spec c k) as [<- | Hne].
    - destruct (allow_same _ _ _ _ _ _ Hl Ha) as (s0 & n0 & Hsn & _ & Hg). rewrite Hk in Hg.
      destruct (rate_get d c) as [[s1 n1]|] eqn:E; [pose proof (Hd _ _ _ E) |];
        destruct (Z.ltb_spec n0 limit); simplify_eq; try lia; try (by apply Hd in E);
        repeat case_match; simplify_eq; lia.
    - rewrite (allow_other _ _ _ _ _ _ k Ha) in Hk by congruence. by apply Hd in Hk. }
  assert (timed t calls) as Htt by (by eapply timed_le).
  destruct (Z.eqb_spec c caller) as [-> | Hne].
  2: { rewrite andb_false_r. specialize (IH d' Hd' Htt Hwc).
       rewrite (allow_other _ _ _ _ _ _ caller Ha) in IH by congruence. lia. }
  destruct (allow_same _ _ _ _ _ _ Hl Ha) as (s & n & Hsn & -> & Hg).
  assert (within (now + window) calls) as Hwn.
  { eapply Forall_impl; [exact Hwc |]. simpl. intros [c0 n0]; simpl. lia. }
  destruct (rate_get d caller) as [[s0 n0]|] eqn:E.
  - pose proof (Hd _ _ _ E) as Hn0.
    destruct (Z.leb_spec window (now - s0)) as [Hnew | Hold]; injection Hsn as -> ->.
    + rewrite (proj2 (Z.ltb_lt 0 limit) Hl) in *.
      pose proof (admitted_same_window limit caller calls d' now now 1 Hl Htc Hwn Hg). simpl. lia.
    + specialize (IH d' Hd' Htt Hwc). rewrite Hg in IH.
      destruct (Z.ltb_spec n0 limit); simpl; lia.
  - injection Hsn as -> ->. rewrite (proj2 (Z.ltb_lt 0 limit) Hl) in *.
    pose proof (admitted_same_window limit caller calls d' now now 1 Hl Htc Hwn Hg). simpl. lia.
Qed.

(** The limiter bounds bursts: whatever other callers do, among calls at
    non-decreasing times that all fall within one minute of [t] it admits at
    most twice the limit of one caller, and at most the limit of a caller it
    has not seen before. *)
Theorem rate_limit_burst (limit caller t : Z) (calls : list (Z * Z)) (d : rate_state) :
  0 < limit -> rate_ok limit d -> timed t calls -> within (t + window) calls ->
  admitted limit caller calls d <= 2 * limit
  /\ (rate_get d caller = None -> admitted limit caller calls d <= limit).
Proof.
  intros Hl Hd Ht Hw. pose proof (admitted_bound limit caller calls d t Hl Hd Ht Hw) as Hb.
  split; [|intros Hn; rewrite Hn in Hb; lia].
  destruct (rate_get d caller) as [[s n]|] eqn:E; [apply Hd in E |]; lia.
Qed.

Lemma rate_limit_burst_witness :
  admitted 2 7 [(7, 0); (9, 1); (7, 2); (7, 3); (7, 59 * second)] [] <= 2 * 2.
Proof.
  apply (rate_limit_burst 2 7 0); [lia | by intros ? | | repeat constructor; simpl; unfold window, second; lia].
  simpl. unfold second. lia.
Defined.

(** ** Properties of redaction *)

Lemma run_length_cons {A} (p : A -> bool) x l : run_length p (x :: l) = if p x then S (run_length p l) else 0%nat.
Proof. done. Qed.

Lemma run_length_take {A} (p : A -> bool) n l : (run_length p (take n l) <= run_length p l)%nat.
Proof. revert n. induction l as [|x l IH]; intros [|n]; simpl; try lia. specialize (IH n). destruct (p x); lia. Qed.

Lemma run_length_app_stop {A} (p : A -> bool) l x r : p x = false ->
  run_length p (l ++ x :: r) = run_length p l.
Proof. intros Hx. induction l as [|y l IH]; simpl; [by rewrite Hx |]. by rewrite IH. Qed.

Lemma run_length_drop {A} (p : A -> bool) l x r : l = x :: r -> (run_length p r <= run_length p l \/ p x = false)%nat.
Proof. intros ->. simpl. destruct (p x); [left; lia | auto]. Qed.

(** Every run of word characters in a suffix is short. *)
Definition runs_short (l : list ascii) : Prop :=
  forall n, (run_length is_word_dash (drop n l) < 32)%nat.

Lemma runs_short_cons c l : runs_short l -> (run_length is_word_dash (c :: l) < 32)%nat -> runs_short (c :: l).
Proof. intros Hl Hc [|n]; [done | apply Hl]. Qed.

Lemma secretish_run l : secretish l = None -> (run_length is_word_dash l < 32)%nat.
Proof.
  unfold secretish, match_opaque. repeat case_match; try done. intros _.
  by apply Nat.leb_gt.
Qed.

Lemma run_length_le {A} (p : A -> bool) l : (run_length p l <= length l)%nat.
Proof. induction l as [|x l IH]; simpl; [lia |]. destruct (p x); lia. Qed.

(** The output's leading run is no longer than the input's. *)
Lemma redact_sub_run fuel l :
  (run_length is_word_dash (redact_sub fuel l) <= run_length is_word_dash l)%nat.
Proof.
  revert l. induction fuel as [|fuel IH]; intros l; [simpl; lia |].
  destruct l as [|c l]; [simpl; lia |]. cbn [redact_sub].
  destruct (secretish (c :: l)); [simpl; lia |].
  rewrite !run_length_cons. destruct (is_word_dash c); [|lia]. specialize (IH l). lia.
Qed.

Lemma redact_sub_short fuel l : runs_short (redact_sub fuel l).
Proof.
  revert l. induction fuel as [|fuel IH]; intros l; [by intros [|n]; simpl; lia |].
  destruct l as [|c l]; [by intros [|n]; simpl; lia |]. cbn [redact_sub].
  destruct (secretish (c :: l)) as [m|] eqn:E.
  - intros n. destruct (Nat.le_gt_cases 10 n) as [Hn | Hn].
    + rewrite drop_app_ge by (simpl; lia). apply IH.
    + rewrite drop_app_le by (simpl; lia).
      assert (exists q, drop n REDACTED = q ++ ["]"%char] /\ (length q < 10)%nat) as (q & Hq & Hl).
      { exists (take (9 - n) (drop n REDACTED)). do 10 (destruct n as [|n]; [split; simpl; [reflexivity | lia] |]). lia. }
      rewrite Hq, <- app_assoc. cbn [app]. rewrite run_length_app_stop by done.
      pose proof (run_length_le is_word_dash q). lia.
  - apply runs_short_cons; [apply IH |].
    apply secretish_run in E. rewrite run_length_cons in *.
    pose proof (redact_sub_run fuel l). destruct (is_word_dash c); lia.
Qed.

Lemma runs_short_take n l : runs_short l -> runs_short (take n l).
Proof.
  intros Hl k. rewrite skipn_firstn_comm. pose proof (run_length_take is_word_dash (n - k) (drop k l)).
  specialize (Hl k). lia.
Qed.

Lemma run_length_all {A} (p : A -> bool) tok suf :
  forallb p tok = true -> (length tok <= run_length p (tok ++ suf))%nat.
Proof.
  induction tok as [|x tok IH]; simpl; [lia |]. intros [-> Ht]%andb_true_iff. specialize (IH Ht). lia.
Qed.

Lemma run_length_dots l : (run_length is_word_dash (l ++ chars "...") = run_length is_word_dash l)%nat.
Proof. by apply (run_length_app_stop is_word_dash l "."%char (chars "..")). Qed.

Lemma runs_short_dots l : runs_short l -> runs_short (l ++ chars "...").
Proof.
  intros Hl n. destruct (Nat.le_gt_cases n (length l)) as [Hn | Hn].
  - rewrite drop_app_le, run_length_dots by done. apply Hl.
  - rewrite drop_app_ge by lia. pose proof (run_length_le is_word_dash (drop (n - length l) (chars "..."))) as Hr.
    rewrite length_drop in Hr. change (length (chars "...")) with 3%nat in Hr. lia.
Qed.

(** Redacted text is short and holds no token: its length is at most 283
    characters, and no run of 32 word characters (the shape of an opaque
    secret) survives anywhere in it. *)
Theorem redact_hides_tokens (text : string) :
  len (redact_text text) <= 283
  /\ forall pre tok suf, chars (redact_text text) = pre ++ tok ++ suf ->
     forallb is_word_dash tok = true -> (length tok < 32)%nat.
Proof.
  unfold redact_text. set (l := redact_sub (String.length text) (chars text)).
  assert (runs_short l) as Hl by apply redact_sub_short. split.
  - unfold len. rewrite <- length_chars.
    destruct (Nat.ltb_spec _MAX (length l)); rewrite ?chars_app, chars_of_chars.
    + rewrite length_app, length_take. change (length (chars "...")) with 3%nat. unfold _MAX in *. lia.
    + unfold _MAX in *. lia.
  - intros pre tok suf He Ht.
    assert (runs_short (chars (if (_MAX <? length l)%nat then of_chars (take _MAX l) +:+ "..." else of_chars l))) as Hs.
    { destruct (_MAX <? length l)%nat; rewrite ?chars_app, chars_of_chars; [|done].
      by apply runs_short_dots, runs_short_take. }
    specialize (Hs (length pre)). rewrite He, drop_app_length in Hs.
    pose proof (run_length_all is_word_dash tok suf Ht). lia.
Qed.

(** Authentication fails closed and only admits live bearers: a header
    authenticates exactly when it reads [Bearer <token>] with the hash of that
    token on an unrevoked token row of an unrevoked caller. *)
Theorem authenticate_live `{Digest} (header : option string) (s : store) (k : caller) :
  store_ok s ->
  (authenticate header s = Some k <->
   exists token t c, bearer_token header = Some token
     /\ In t (s_tokens s) /\ t_hash t = hash_token token /\ t_revoked_at t = None
     /\ In c (s_callers s) /\ c_id c = t_caller t /\ c_revoked_at c = None
     /\ k = Caller (c_id c) (c_name c) (Some (hash_token token))).
Proof.
  intros Hs. unfold authenticate. destruct (bearer_token header) as [token|].
  2: { split; [done | by intros (? & ? & ? & ? & _)]. }
  unfold caller_by_token_hash. split.
  - destruct (select1 _ (s_tokens s)) as [t|] eqn:Et; simpl; [|done].
    destruct (select1 _ (s_callers s)) as [c|] eqn:Ec; simpl; [|done]. intros [= <-].
    apply select1_Some in Et as [Ht Htp], Ec as [Hc Hcp]. store_prop. by exists token, t, c.
  - intros (token' & t & c & [= <-] & Ht & Hh & Hr & Hc & Hid & Hcr & ->).
    destruct (select1 _ (s_tokens s)) as [t'|] eqn:Et; simpl.
    2: { apply (select1_None _ _ Et) in Ht. unfold live_row in Ht. by rewrite Hh, Hr, String.eqb_refl in Ht. }
    apply select1_Some in Et as [Ht' Htp]. store_prop.
    assert (t' = t) as -> by (apply (NoDup_map_eq t_hash (s_tokens s)); [apply Hs | done | done | congruence]).
    destruct (select1 _ (s_callers s)) as [c'|] eqn:Ec; simpl.
    2: { apply (select1_None _ _ Ec) in Hc. unfold live_row in Hc. by rewrite Hid, Hcr, Z.eqb_refl in Hc. }
    apply select1_Some in Ec as [Hc' Hcp]. store_prop.
    by assert (c' = c) as -> by (apply (NoDup_map_eq c_id (s_callers s)); [apply Hs | done | done | congruence]).
Qed.

Lemma authenticate_live_witness :
  exists k, authenticate (H := echo_digest) (Some "Bearer  aa "%string) (w_at w_setup) = Some k /\ k_name k = "bot"%string.
Proof.
  exists (Caller 1 "bot" (Some "aa"%string)). split; [|done].
  apply (authenticate_live (H := echo_digest)); [apply w_ok |].
  exists "aa"%string, (TokenRow "aa" 1 1 None), (CallerRow 1 "bot" 0 None).
  repeat split; vm_compute; auto.
Defined.
