(* ===== verification/Registry.v ===== *)
(** The tool catalog: broker/registry.py.

    A manifest is parsed by tomllib into a dictionary, represented as [json]
    (TOML dates are outside the model); reading and parsing the file is the
    interface [Manifests].  [_add_toml] builds one catalog entry, [lookup]
    resolves an operation against the manifest now on disk. *)

From stdpp Require Import base tactics list strings.
From Stdlib Require Import ZArith Lia Ascii.
From S2P Require Import Prelude PyStr Json Policy Action Url.

(** ** Python access to parsed data *)

Definition AttributeError : exn := OtherExn "AttributeError".

(** [d.get(key, dflt)] where [d] need not be a dictionary. *)
Definition py_get (d : json) (key : string) (dflt : json) : res json :=
  match d with JObj m => Ok (default dflt (dget m key)) | _ => Raise AttributeError end.

(** The items of [for x in v]. *)
Definition py_iter (v : json) : res (list json) :=
  match v with
  | JArr l => Ok l
  | JStr s => Ok (map (fun c => JStr (String c EmptyString)) (chars s))
  | JObj m => Ok (map (fun kv => JStr kv.1) m)
  | _ => Raise TypeError
  end.

Definition is_id (v : json) : bool := match v with JStr s => id_fullmatch s | _ => false end.

Definition is_one_of (v : json) (l : list string) : bool :=
  match v with JStr s => mem_str s l | _ => false end.

(** Lists and dictionaries have no hash, so [v in {...}] raises. *)
Definition hashable (v : json) : bool := match v with JArr _ | JObj _ => false | _ => true end.

(** ** Catalog *)

Record rest_meta := RestMeta {
  m_verb : string; m_path_template : string; m_base_url_host : string; m_body_kind : string }.

Record op_meta := OpMeta {
  m_risk : json; m_description : json; m_args : json;
  m_approval_fields : option (list string); m_rest : option rest_meta }.

Record entry := Entry {
  en_port : Z; en_type : string; en_ops : dict op_meta;
  en_manifest_path : string; en_manifest_digest : string }.

Abbreviation catalog := (dict entry).

Record tool_op := ToolOp {
  o_tool : string; o_op : string; o_risk : json; o_port : Z; o_type : string;
  o_verb : option string; o_path_template : option string; o_base_url_host : option string;
  o_body_kind : option string; o_generation : string; o_approval_fields : list string }.

Definition TOOL_TYPES : list string := ["api"; "mcp"; "rest"]%string.

Definition op_meta_json (m : op_meta) : json :=
  JObj ([("risk"%string, m_risk m); ("description"%string, m_description m); ("args"%string, m_args m)]
    ++ match m_approval_fields m with Some l => [("approval_fields"%string, JArr (map JStr l))] | None => [] end
    ++ match m_rest m with
       | Some r => [("verb"%string, JStr (m_verb r)); ("path_template"%string, JStr (m_path_template r));
                    ("base_url_host"%string, JStr (m_base_url_host r)); ("body_kind"%string, JStr (m_body_kind r))]
       | None => [] end).

Definition entry_json (e : entry) : json :=
  JObj [("port"%string, JInt (en_port e)); ("type"%string, JStr (en_type e));
        ("ops"%string, JObj (map (fun kv => (kv.1, op_meta_json kv.2)) (en_ops e)));
        ("manifest_path"%string, JStr (en_manifest_path e));
        ("manifest_digest"%string, JStr (en_manifest_digest e))].

Definition rest_host_char (c : ascii) : bool := is_alnum c || is_char "." c || is_char "-" c.

Section Load.

Definition _rest_base_url_host (data : json) : res string :=
  base_url ← py_get data "base_url" JNull;
  match base_url with
  | JStr s =>
      _ ← raise_if (PyStr.empty s) ValueError;
      split ← urlsplit s;
      match u_hostname split with
      | Some host =>
          _ ← raise_if (negb (mem_str (u_scheme split) ["http"; "https"]%string) || PyStr.empty host) ValueError;
          _ ← raise_if (negb (bool_decide (u_credentials split = (None, None)))) ValueError;
          _ ← raise_if (negb (all_chars rest_host_char host)) ValueError;
          port ← u_port split;
          Ok match port with Some p => host +:+ ":" +:+ str_of_Z p | None => host end
      | None => Raise ValueError
      end
  | _ => Raise ValueError
  end.

(** The fields of one rest operation. *)
Definition rest_fields (rest_host : string) (o : json) : res rest_meta :=
  verb ← py_get o "verb" JNull;
  path ← py_get o "path" JNull;
  match verb, path with
  | JStr v, _ =>
      _ ← raise_if (negb (mem_str (upper v) ["GET"; "POST"; "PUT"; "PATCH"; "DELETE"]%string)) ValueError;
      match path with
      | JStr p =>
          _ ← raise_if (negb (starts_with "/" p) || starts_with "//" p) ValueError;
          kind ← py_get o "body_kind" JNull;
          let kind := if is_null kind
            then JStr (if mem_str (upper v) ["GET"; "DELETE"]%string then "none"%string else "text"%string)
            else kind in
          _ ← raise_if (negb (hashable kind)) TypeError;
          match kind with
          | JStr k =>
              _ ← raise_if (negb (mem_str k ["none"; "text"; "binary"]%string)) ValueError;
              Ok (RestMeta (upper v) p rest_host k)
          | _ => Raise ValueError
          end
      | _ => Raise ValueError
      end
  | _, _ => Raise ValueError
  end.

Definition add_op (tool_type : string) (rest_host : string) (ops : dict op_meta) (o : json)
    : res (dict op_meta) :=
  name ← py_get o "name" JNull;
  match name with
  | JStr n =>
      _ ← raise_if (negb (id_fullmatch n)) ValueError;
      _ ← raise_if (dmem ops n) ValueError;
      rest ← (if String.eqb tool_type "rest" then r ← rest_fields rest_host o; Ok (Some r) else Ok None);
      risk ← py_get o "risk" (JStr "unknown");
      description ← py_get o "description" (JStr EmptyString);
      args ← py_get o "args" (JArr []);
      raw ← py_get o "approval_fields" (JArr []);
      fields ← validate_fields raw;
      Ok (dset ops n (OpMeta risk description args (Some fields) rest))
  | _ => Raise ValueError
  end.

Definition refresh_meta : op_meta :=
  OpMeta (JStr "read")
    (JStr "Re-pull every declared secret from the backend into the tool's in-memory cache.")
    (JArr []) None None.

Definition refresh_one_meta : op_meta :=
  OpMeta (JStr "read") (JStr "Re-pull a single secret by name (arg: name).")
    (JArr [JObj [("name"%string, JStr "name"); ("type"%string, JStr "string");
                 ("required"%string, JBool true);
                 ("description"%string, JStr "Secret name to refresh.")]]) None None.

Definition declares_secrets (data : dict json) : bool :=
  match jget data "secrets" with
  | JArr l => existsb (fun s => match s with JObj d => truthy (jget d "name") | _ => false end) l
  | _ => false
  end.

Definition inject_refresh (data : dict json) (ops : dict op_meta) : res (dict op_meta) :=
  if declares_secrets data then
    _ ← raise_if (dmem ops "refresh" || dmem ops "refresh_one") ValueError;
    Ok (dset (dset ops "refresh" refresh_meta) "refresh_one" refresh_one_meta)
  else Ok ops.

Definition valid_port (v : json) : bool :=
  match v with JInt p => (1 <=? p) && (p <=? 65535) | _ => false end.

End Load.

(** tomllib.loads of a file's bytes and the SHA-256 of those bytes. *)
Class Manifests := { toml_loads : string -> res (dict json); file_digest : string -> string }.

Section Registry.
Context `{Manifests} `{Digest}.

(** The entry of one manifest: its absolute path, its bytes and what they
    parse to. *)
Definition add_manifest (cat : catalog) (path raw : string) (data : dict json) : res catalog :=
  match jget data "id" with
  | JStr tool_id =>
      _ ← raise_if (negb (id_fullmatch tool_id)) ValueError;
      match default (JStr "api") (dget data "type") with
      | JStr tool_type =>
          _ ← raise_if (negb (mem_str tool_type TOOL_TYPES)) ValueError;
          port ← py_get (default (JObj []) (dget data "entrypoint")) "port" JNull;
          match port with
          | JInt p =>
              _ ← raise_if (negb (valid_port port)) ValueError;
              rest_host ← (if String.eqb tool_type "rest" then _rest_base_url_host (JObj data)
                           else Ok EmptyString);
              items ← py_iter (default (JArr []) (dget data "operations"));
              ops ← foldM (add_op tool_type rest_host) [] items;
              ops ← inject_refresh data ops;
              Ok (dset cat tool_id (Entry p tool_type ops path (file_digest raw)))
          | _ => Raise ValueError
          end
      | _ => Raise ValueError
      end
  | _ => Raise ValueError
  end.

(** [read path] is [Path(path).read_bytes()], [None] an [OSError]. *)
Definition _add_toml (read : string -> option string) (cat : catalog) (path : string) : res catalog :=
  raw ← res_of_option (OtherExn "OSError") (read path);
  data ← toml_loads raw;
  add_manifest cat path raw data.

Definition manifest_of (root name : string) : string := root +:+ "/" +:+ name +:+ "/toolyard.toml".

(** The sub-directories of the root that hold a manifest, in sorted order. *)
Definition from_tools_root (read : string -> option string) (root : string) (names : list string) : res catalog :=
  foldM (_add_toml read) [] (map (manifest_of root) (sorted_set names)).

Definition from_sources (read : string -> option string) (root : option string) (names : list string)
    (tool_dirs : list string) : res catalog :=
  cat ← match root with
        | Some r => if PyStr.empty r then Ok [] else from_tools_root read r names
        | None => Ok []
        end;
  foldM (fun cat d =>
    let path := d +:+ "/toolyard.toml" in
    match read path with Some _ => _add_toml read cat path | None => Ok cat end) cat tool_dirs.

Definition generation_of (e : entry) : string := sha256_hex (dumps_sorted (entry_json e)).

Definition op_of (tool op : string) (e : entry) (m : op_meta) : tool_op :=
  ToolOp tool op (m_risk m) (en_port e) (en_type e)
    (m_verb <$> m_rest m) (m_path_template <$> m_rest m) (m_base_url_host <$> m_rest m)
    (m_body_kind <$> m_rest m) (generation_of e) (default [] (m_approval_fields m)).

Definition lookup (read : string -> option string) (cat : catalog) (tool op : string) : option tool_op :=
  e ← dget cat tool;
  m ← dget (en_ops e) op;
  raw ← read (en_manifest_path e);
  if String.eqb (file_digest raw) (en_manifest_digest e) then Some (op_of tool op e m) else None.

Definition tool_ids (cat : catalog) : list string := sorted_set (dkeys cat).

Definition describe (cat : catalog) (tool op : string) : option (dict json) :=
  e ← dget cat tool;
  m ← dget (en_ops e) op;
  Some [("tool"%string, JStr tool); ("op"%string, JStr op); ("risk"%string, m_risk m);
        ("description"%string, m_description m); ("args"%string, m_args m);
        ("approval_fields"%string, JArr (map JStr (default [] (m_approval_fields m))))].

(** One element of [list_ops]. *)
Record listed_op := ListedOp {
  l_tool : string; l_op : string; l_type : string; l_risk : json; l_description : json }.

Definition list_ops (cat : catalog) : list listed_op :=
  flat_map (fun te => map (fun om => ListedOp te.1 om.1 (en_type te.2) (m_risk om.2) (m_description om.2))
    (en_ops te.2)) cat.

Definition fingerprint_payload (root : option string) (tool_dirs : list string) (cat : catalog) : json :=
  JObj [("root"%string, jopt root); ("tool_dirs"%string, JArr (map JStr tool_dirs));
        ("catalog"%string, JObj (map (fun te =>
          (te.1, match entry_json te.2 with
                 | JObj d => JObj (dpop d "manifest_digest")
                 | v => v end)) cat))].

(** Paths are already resolved. *)
Definition observation_fingerprint (root : option string) (tool_dirs : list string) (cat : catalog) : string :=
  sha256_hex (dumps_sorted (fingerprint_payload root tool_dirs cat)).
End Registry.

(** ** Properties *)

(** What every entry of a loaded catalog satisfies. *)
Record op_ok (type : string) (name : string) (m : op_meta) : Prop := {
  oo_name : id_fullmatch name = true;
  oo_rest : match m_rest m with
    | Some r => type = "rest"%string /\ In (m_verb r) ["GET"; "POST"; "PUT"; "PATCH"; "DELETE"]%string
        /\ starts_with "/" (m_path_template r) = true /\ starts_with "//" (m_path_template r) = false
        /\ In (m_body_kind r) ["none"; "text"; "binary"]%string
    | None => type <> "rest"%string \/ m_approval_fields m = None
    end }.

Record entry_ok (tool : string) (e : entry) : Prop := {
  eo_id : id_fullmatch tool = true;
  eo_type : In (en_type e) TOOL_TYPES;
  eo_port : 1 <= en_port e <= 65535;
  eo_ops : dict_wf (en_ops e);
  eo_op : forall name m, In (name, m) (en_ops e) -> op_ok (en_type e) name m }.

Definition catalog_ok (cat : catalog) : Prop :=
  dict_wf cat /\ forall tool e, In (tool, e) cat -> entry_ok tool e.

Section Facts.
Context `{Manifests} `{Digest}.

Lemma rest_fields_ok host o r : rest_fields host o = Ok r ->
  In (m_verb r) ["GET"; "POST"; "PUT"; "PATCH"; "DELETE"]%string
  /\ starts_with "/" (m_path_template r) = true /\ starts_with "//" (m_path_template r) = false
  /\ In (m_body_kind r) ["none"; "text"; "binary"]%string.
Proof.
  unfold rest_fields. intros Hr. inv_bind. destruct a as [| | | |v| |]; try done. inv_bind.
  destruct a0 as [| | | |p| |]; try done. inv_bind.
  match goal with H : match ?k with _ => _ end = Ok r |- _ => destruct k as [| | | |kind| |]; try done end.
  inv_bind. to_prop. repeat match goal with H : mem_str _ _ = true |- _ => apply mem_str_In in H end. done.
Qed.

Definition ops_ok (type : string) (ops : dict op_meta) : Prop :=
  dict_wf ops /\ forall name m, In (name, m) ops -> op_ok type name m.

Lemma ops_ok_dset type ops n m : ops_ok type ops -> op_ok type n m -> ops_ok type (dset ops n m).
Proof.
  intros [Hw Ho] Hm. split; [by apply dict_wf_dset |].
  intros n' m' [[-> ->] | Hin]%In_dset; auto.
Qed.

Lemma add_op_ok type host ops o ops' : ops_ok type ops -> add_op type host ops o = Ok ops' -> ops_ok type ops'.
Proof.
  intros Hops. unfold add_op. intros Hr. inv_bind. destruct a as [| | | |n| |]; try done. inv_bind.
  to_prop. apply ops_ok_dset; [done |]. constructor; [done |]. simpl.
  destruct (String.eqb type "rest") eqn:Et.
  - inv_bind. apply String.eqb_eq in Et. split; [done |]. by eapply rest_fields_ok.
  - inv_bind. left. intros ->. done.
Qed.

Lemma add_manifest_ok cat path raw data cat' :
  catalog_ok cat -> add_manifest cat path raw data = Ok cat' -> catalog_ok cat'.
Proof.
  intros [Hw Hc]. unfold add_manifest. intros Hr.
  destruct (jget data "id") as [| | | |tool| |]; try done. inv_bind.
  destruct (default _ _) as [| | | |type| |] eqn:Et; try done. inv_bind.
  match goal with H : match ?k with _ => _ end = Ok cat' |- _ => destruct k as [| |p| | | |]; try done end.
  inv_bind. to_prop.
  match goal with H : foldM _ _ _ = Ok ?ops |- _ => assert (ops_ok type ops) as Hops end.
  1: { eapply (foldM_inv (ops_ok type)); [| |eassumption]; [split; [by apply NoDup_nil | done] |].
    intros ops o ops' Ho. by apply add_op_ok. }
  match goal with H : inject_refresh _ _ = Ok ?ops |- _ =>
    assert (ops_ok type ops) as [Hw2 Ho2]; [unfold inject_refresh in H |] end.
  1: { destruct (declares_secrets data); inv_bind; [|done].
    repeat apply ops_ok_dset; try done; constructor; simpl; auto. }
  split; [by apply dict_wf_dset |]. intros t e [[-> ->] | Hin]%In_dset; [|auto].
  constructor; try done.
  - by apply mem_str_In.
  - unfold valid_port in *. to_prop. simpl. lia.
Qed.

(** The names of the operations a manifest declares, in order. *)
Definition declared_ops (data : dict json) (names : list string) : Prop :=
  exists items, py_iter (default (JArr []) (dget data "operations")) = Ok items
    /\ Forall2 (fun o n => py_get o "name" JNull = Ok (JStr n)) items names.

Definition injected (data : dict json) : list string :=
  if declares_secrets data then ["refresh"; "refresh_one"]%string else [].

(** The operations of an entry are those its manifest declares, no name twice,
    and the two injected ones when it declares secrets, whose names no declared
    operation may take. *)
Definition ops_from (data : dict json) (ops : dict op_meta) : Prop :=
  exists names, declared_ops data names /\ dkeys ops = names ++ injected data /\ NoDup (names ++ injected data).

(** Every entry comes from a file that was read and parsed at load. *)
Definition loaded_from (read : string -> option string) (cat : catalog) : Prop :=
  forall tool e, In (tool, e) cat -> exists raw data,
    read (en_manifest_path e) = Some raw /\ toml_loads raw = Ok data
    /\ en_manifest_digest e = file_digest raw /\ jget data "id" = JStr tool /\ ops_from data (en_ops e).

Lemma dmem_In {A} (d : dict A) k : dmem d k = false -> ~ In k (dkeys d).
Proof. unfold dmem. intros Hm%bool_decide_eq_false. apply dget_None. destruct (dget d k); [destruct Hm; eauto | done]. Qed.

Lemma add_op_keys type host ops o ops' : add_op type host ops o = Ok ops' ->
  exists n, py_get o "name" JNull = Ok (JStr n) /\ ~ In n (dkeys ops) /\ dkeys ops' = dkeys ops ++ [n].
Proof.
  unfold add_op. intros Hr. inv_bind. destruct a as [| | | |n| |]; try done. exists n. split; [done |].
  inv_bind. to_prop. match goal with H : dmem _ _ = false |- _ => apply dmem_In in H as Hn end.
  split; [done |]. rewrite dset_app_new by done. unfold dkeys. by rewrite map_app.
Qed.

Lemma add_ops_keys type host items : forall ops ops', foldM (add_op type host) ops items = Ok ops' -> NoDup (dkeys ops) ->
  exists names, Forall2 (fun o n => py_get o "name" JNull = Ok (JStr n)) items names
    /\ dkeys ops' = dkeys ops ++ names /\ NoDup (dkeys ops ++ names).
Proof.
  induction items as [|o items IH]; intros ops ops'; cbn [foldM].
  - intros [= <-] Hn. exists []. rewrite !app_nil_r. by split_and!.
  - intros Hr Hn. apply res_bind_ok in Hr as (ops1 & E & Hr). destruct (add_op_keys _ _ _ _ _ E) as (n & Hname & Hfresh & Ek).
    destruct (IH _ _ Hr) as (names & Hf & Ek' & Hn').
    { rewrite Ek. apply NoDup_app. split; [done |]. split; [|apply NoDup_singleton].
      intros x Hx%list_elem_of_In ->%list_elem_of_singleton. by apply Hfresh. }
    exists (n :: names). split; [by constructor |]. rewrite Ek, <- app_assoc in Ek', Hn'. by split.
Qed.

Lemma inject_refresh_keys data ops ops' : inject_refresh data ops = Ok ops' -> NoDup (dkeys ops) ->
  dkeys ops' = dkeys ops ++ injected data /\ NoDup (dkeys ops ++ injected data).
Proof.
  unfold inject_refresh, injected. destruct (declares_secrets data); [|intros [= <-] Hn; by rewrite app_nil_r].
  intros Hi Hn. inv_bind. to_prop.
  match goal with H1 : dmem _ "refresh" = false, H2 : dmem _ "refresh_one" = false |- _ =>
    apply dmem_In in H1 as Hr; apply dmem_In in H2 as Hr1 end.
  rewrite (dset_app_new _ "refresh") by done. rewrite dset_app_new.
  - unfold dkeys in *. rewrite !map_app, <- app_assoc. split; [done |]. apply NoDup_app. split; [done |]. split.
    + intros x Hx%list_elem_of_In Hin%list_elem_of_In. destruct Hin as [<- | [<- | []]]; [by apply Hr | by apply Hr1].
    + apply NoDup_ListNoDup. repeat constructor; simpl; intuition discriminate.
  - unfold dkeys in *. rewrite map_app, in_app_iff. intros [? | [? | []]]; [by apply Hr1 | done].
Qed.

Lemma add_manifest_entry cat path raw data cat' :
  add_manifest cat path raw data = Ok cat' ->
  exists tool e, cat' = dset cat tool e /\ en_manifest_path e = path /\ en_manifest_digest e = file_digest raw
    /\ jget data "id" = JStr tool /\ ops_from data (en_ops e).
Proof.
  unfold add_manifest. intros Hr. destruct (jget data "id") as [| | | |tool| |] eqn:Ei; try done. inv_bind.
  destruct (default _ _) as [| | | |type| |]; try done. inv_bind.
  match goal with H : match ?k with _ => _ end = Ok cat' |- _ => destruct k as [| |p| | | |]; try done end.
  inv_bind. do 2 eexists. split_and!; try done. cbn [en_ops].
  match goal with H : py_iter _ = Ok ?l, H' : foldM _ _ ?l = Ok _, Hi : inject_refresh _ _ = Ok _ |- _ =>
    rename H into Hit; destruct (add_ops_keys _ _ _ _ _ H' NoDup_nil_2) as (names & Hf & Ek & Hn);
    rename Hi into Hinj end.
  cbn [dkeys map app] in Ek, Hn. rewrite <- Ek in Hn. apply inject_refresh_keys in Hinj as [Ek' Hn']; [|done].
  exists names. rewrite Ek in Ek', Hn'. split; [|by split]. by eexists.
Qed.

Definition load_ok (read : string -> option string) (cat : catalog) : Prop := catalog_ok cat /\ loaded_from read cat.

Lemma add_toml_ok read cat path cat' : load_ok read cat -> _add_toml read cat path = Ok cat' -> load_ok read cat'.
Proof.
  intros [Hc Hl]. unfold _add_toml. intros Hr. inv_bind.
  destruct (read path) as [raw|] eqn:Er; [|done]. simpl in *. inv_bind.
  split; [by eapply add_manifest_ok |].
  match goal with H : add_manifest _ _ _ _ = _ |- _ => destruct (add_manifest_entry _ _ _ _ _ H) as (tool & e & -> & Hp & Hd & Hid & Hops) end.
  intros t e' [[-> ->] | Hin]%In_dset; [|auto]. rewrite Hp. do 2 eexists. repeat (split; [eassumption |]). done.
Qed.

Lemma from_sources_load_ok read root names dirs cat :
  from_sources read root names dirs = Ok cat -> load_ok read cat.
Proof.
  unfold from_sources, from_tools_root. intros Hr. inv_bind.
  assert (load_ok read []) as Hnil by (split; [split; [by apply NoDup_nil | by intros ? ? []] | by intros ? ? []]).
  eapply (foldM_inv (load_ok read)); [| |eassumption].
  - destruct root as [r|]; [destruct (PyStr.empty r)|]; inv_bind; try done.
    eapply (foldM_inv (load_ok read)); [exact Hnil | |eassumption]. intros ? ? ? ?. by apply add_toml_ok.
  - intros c d c' Hc. cbv beta zeta; destruct (read (d +:+ "/toolyard.toml")) eqn:Er; [by apply add_toml_ok | by intros [= <-]].
Qed.

(** C10. Every catalog the broker loads is well formed, whatever the manifests
    contain: tool ids and operation names match the id charset, so that
    [tool.op] splits back into exactly that tool and operation (the policy and
    the REST route cannot be misdirected), types and ports are valid, and rest
    operations have a known verb, an absolute path and a known body kind. The
    operations of a tool are exactly those its manifest declares, in order and
    no name twice, followed by the two refresh operations when and only when it
    declares secrets. *)
Theorem loaded_catalog_ok (read : string -> option string) (root : option string)
    (names dirs : list string) (cat : catalog) :
  from_sources read root names dirs = Ok cat ->
  catalog_ok cat
  /\ (forall tool e, In (tool, e) cat -> exists raw data,
        read (en_manifest_path e) = Some raw /\ toml_loads raw = Ok data /\ jget data "id" = JStr tool
        /\ ops_from data (en_ops e))
  /\ forall tool e op m, In (tool, e) cat -> In (op, m) (en_ops e) ->
     partition_char "." (tool +:+ "." +:+ op) = (tool, true, op)
     /\ split_char "." (tool +:+ "." +:+ op) = [tool; op].
Proof.
  intros [Hc Hl]%from_sources_load_ok. split; [done |].
  split; [intros tool e Ht; destruct (Hl _ _ Ht) as (raw & data & ? & ? & _ & ? & ?); by exists raw, data |].
  intros tool e op m Ht Ho.
  destruct Hc as [_ Hc]. pose proof (Hc _ _ Ht) as He.
  pose proof (id_fullmatch_no_dot _ (eo_id _ _ He)) as Hnt.
  pose proof (id_fullmatch_no_dot _ (oo_name _ _ _ (eo_op _ _ He _ _ Ho))) as Hno.
  split; [by apply partition_join |]. clear -Hnt Hno.
  assert (forall s, ~ In "."%char (chars s) -> split_char "." s = [s]) as Hone.
  { induction s as [|c s IH]; [done |]. intros Hn. change (split_char "." (String c s)) with
      (if Ascii.eqb "." c then EmptyString :: split_char "." s
       else match split_char "." s with h :: t => String c h :: t | [] => [String c EmptyString] end).
    destruct (Ascii.eqb_spec "." c) as [<- | Hc]; [destruct Hn; by left |].
    rewrite IH; [done |]. intros Hin. apply Hn. by right. }
  induction tool as [|c tool IH].
  - change (EmptyString +:+ "." +:+ op) with (String "." op). cbn [split_char]. by rewrite Hone.
  - rewrite str_cons_app. cbn [split_char].
    destruct (Ascii.eqb_spec "." c) as [<- | Hc]; [destruct Hnt; by left |].
    rewrite IH; [done |]. intros Hin. apply Hnt. by right.
Qed.

(** A loaded operation runs only against the manifest it was loaded from:
    an operation resolved later (under whatever the files contain then) comes
    from an entry whose manifest file still has the digest of the bytes that
    were parsed at load; a deleted or edited manifest resolves to nothing. *)
Theorem lookup_manifest_current (read read' : string -> option string) (root : option string)
    (names dirs : list string) (cat : catalog) (tool op : string) (o : tool_op) :
  from_sources read root names dirs = Ok cat -> lookup read' cat tool op = Some o ->
  exists e m raw raw' data, dget cat tool = Some e /\ dget (en_ops e) op = Some m /\ o = op_of tool op e m
    /\ read (en_manifest_path e) = Some raw /\ toml_loads raw = Ok data /\ jget data "id" = JStr tool
    /\ read' (en_manifest_path e) = Some raw' /\ file_digest raw' = file_digest raw
    /\ o_generation o = sha256_hex (dumps_sorted (entry_json e)).
Proof.
  intros [_ Hl]%from_sources_load_ok. unfold lookup. intros Ho.
  destruct (dget cat tool) as [e|] eqn:Ee; simpl in Ho; [|done].
  destruct (dget (en_ops e) op) as [m|] eqn:Em; simpl in Ho; [|done].
  destruct (read' (en_manifest_path e)) as [raw'|] eqn:Er; simpl in Ho; [|done].
  destruct (String.eqb_spec (file_digest raw') (en_manifest_digest e)) as [Hd | Hd]; [|done]. injection Ho as <-.
  destruct (Hl _ _ (dget_In _ _ _ Ee)) as (raw & data & Hr & Hp & Hdig & Hid & _).
  exists e, m, raw, raw', data. repeat (split; [done || congruence |]). done.
Qed.
End Facts.

(** A root with one api tool and one rest tool. *)
Definition w_toml : string -> res (dict json) := fun raw =>
  if String.eqb raw "A" then Ok [("id"%string, JStr "echo"); ("entrypoint"%string, JObj [("port"%string, JInt 9000)]);
    ("operations"%string, JArr [JObj [("name"%string, JStr "ping")]]);
    ("secrets"%string, JArr [JObj [("name"%string, JStr "K")]])]
  else Ok [("id"%string, JStr "mail"); ("type"%string, JStr "rest"); ("base_url"%string, JStr "https://Mail.example:8443/v1");
    ("entrypoint"%string, JObj [("port"%string, JInt 9001)]);
    ("operations"%string, JArr [JObj [("name"%string, JStr "send"); ("verb"%string, JStr "post"); ("path"%string, JStr "/m/{id}")]])].

#[local] Instance w_manifests : Manifests := {| toml_loads := w_toml; file_digest := fun s => s |}.
#[local] Existing Instance echo_digest.

Definition w_read (path : string) : option string :=
  if String.eqb path "/t/a/toolyard.toml" then Some "A"%string
  else if String.eqb path "/t/b/toolyard.toml" then Some "B"%string else None.

Definition w_catalog : catalog :=
  match from_sources w_read (Some "/t"%string) ["b"; "a"]%string [] with Ok c => c | Raise _ => [] end.

Lemma loaded_catalog_ok_witness : catalog_ok w_catalog /\ dkeys w_catalog = ["echo"; "mail"]%string.
Proof.
  split; [|vm_compute; reflexivity].
  apply (loaded_catalog_ok w_read (Some "/t"%string) ["b"; "a"]%string []). vm_compute. reflexivity.
Defined.

Lemma lookup_manifest_current_witness :
  exists o e, lookup w_read w_catalog "mail" "send" = Some o /\ dget w_catalog "mail" = Some e.
Proof.
  destruct (lookup_manifest_current w_read w_read (Some "/t"%string) ["b"; "a"]%string [] w_catalog "mail" "send"
    (match lookup w_read w_catalog "mail" "send" with Some o => o | None => op_of "x" "x" (Entry 0 "x" [] "x" "x") (OpMeta JNull JNull JNull None None) end))
    as (e & m & _ & _ & _ & He & _); [vm_compute; reflexivity | vm_compute; reflexivity |].
  eexists _, e. split; [vm_compute; reflexivity | exact He].
Defined.
