(* ===== verification/Broker.v ===== *)
(** The world the broker runs in, and its effects.

    A handler is a function from a [world] (the shared database, the limiter's
    dictionary, a step counter and the trace of calls to other systems) to a
    result and a world; a Python exception keeps the effects made before it.
    Everything the code cannot control is an answer of [Env], indexed by the
    step: the clock, random values, the approval surface, the tool runtime, the
    manifest files, and the transactions other processes committed just before
    each of the broker's own ([e_admin]).  The server handles one request at a
    time, so no second broker thread interleaves. *)

From stdpp Require Import base tactics list strings.
From Stdlib Require Import ZArith Lia Ascii.
From S2P Require Import Prelude PyStr Json Policy Action Store StoreFacts Ingress Registry.

(** approval.OperationCard. *)
Record card := Card {
  oc_request_id : Z; oc_title : string; oc_caller : string; oc_tool : string; oc_op : string;
  oc_risk : json; oc_reason : string; oc_justification : option string; oc_details : option string;
  oc_endpoint : option string; oc_installation_id : option string; oc_request_digest : option string;
  oc_operation_generation : option string }.

Definition build_card (request_id : Z) (caller tool op : string) (risk : json) (reason : string)
    (justification details endpoint installation_id request_digest operation_generation : option string) : card :=
  Card request_id ("Approve " +:+ tool +:+ "." +:+ op +:+ " for caller " +:+ caller) caller tool op risk reason
    justification details endpoint installation_id request_digest operation_generation.

(** The calls that leave the broker. *)
Inductive event :=
| EvOpen (c : card)
| EvPoll (ref : string)
| EvCancel (ref : string)
| EvExecute (request_id : Z) (o : tool_op) (arguments : json) (caller_name : option string).

(** [w_seen] is a specification-only record of the database states in which
    the broker's transactions ran; no definition reads it. *)
Record world := World {
  w_store : store; w_rate : rate_state; w_tick : nat; w_trace : list event; w_seen : list store }.

Class Env := {
  e_time : nat -> Z;
  e_uuid : nat -> string;
  e_nonce : nat -> string;
  e_admin : nat -> list admin_op;
  e_read : nat -> string -> option string;
  e_open : nat -> card -> res string;
  e_poll : nat -> string -> res surface_state;
  e_cancel : nat -> string -> res unit;
  e_execute : nat -> tool_op -> json -> Z -> option string -> res json;
  py_str : json -> string }.

(** BrokerContext: the parts that do not change while a request is handled.
    [x_surface] tells whether an approval surface is configured. *)
Record ctx := Ctx {
  x_catalog : catalog; x_surface : bool; x_ttl : Z; x_limit : option Z; x_observation : option string;
  x_body_max : Z }.

(** ** The monad *)

Definition M (A : Type) : Type := world -> res A * world.

#[export] Instance M_ret : MRet M := fun _ a w => (Ok a, w).
#[export] Instance M_bind : MBind M := fun _ _ f m w =>
  match m w with (Ok a, w') => f a w' | (Raise e, w') => (Raise e, w') end.

Definition throw {A} (e : exn) : M A := fun w => (Raise e, w).
Definition lift {A} (r : res A) : M A := fun w => (r, w).

(** [try: m except Exception as exc: h(exc)]. *)
Definition catch {A} (m : M A) (h : exn -> M A) : M A := fun w =>
  match m w with (Raise e, w') => h e w' | r => r end.

(** The result of [m], an exception included, as a value: the [else] and the
    [except] branches of a [try] statement are a match on it. *)
Definition attempt {A} (m : M A) : M (res A) := fun w => let '(r, w') := m w in (Ok r, w').

(** [for x in l: m(x)], collecting the results. *)
Fixpoint each {A B} (f : A -> M B) (l : list A) : M (list B) :=
  match l with
  | [] => mret []
  | a :: l' => b ← f a; bs ← each f l'; mret (b :: bs)
  end.

Definition step (w : world) : world :=
  World (w_store w) (w_rate w) (S (w_tick w)) (w_trace w) (w_seen w).
Definition set_store (s s' : store) (w : world) : world :=
  World s' (w_rate w) (w_tick w) (w_trace w) (w_seen w ++ [s]).
Definition emit (e : event) (w : world) : world :=
  World (w_store w) (w_rate w) (w_tick w) (w_trace w ++ [e]) (w_seen w).
Definition set_rate (d : rate_state) (w : world) : world :=
  World (w_store w) d (w_tick w) (w_trace w) (w_seen w).

Section Effects.
Context `{Env}.

Definition time : M Z := fun w => (Ok (e_time (w_tick w)), step w).
Definition uuid4 : M string := fun w => (Ok (e_uuid (w_tick w)), step w).
Definition token_hex : M string := fun w => (Ok (e_nonce (w_tick w)), step w).
Definition read_files : M (string -> option string) := fun w => (Ok (e_read (w_tick w)), step w).

(** One transaction of the broker, after those other processes committed. *)
Definition tx {A} (f : store -> res (A * store)) : M A := fun w =>
  let s := run_admins (e_admin (w_tick w)) (w_store w) in
  match f s with
  | Ok (a, s') => (Ok a, step (set_store s s' w))
  | Raise e => (Raise e, step (set_store s s w))
  end.

Definition query {A} (f : store -> A) : M A := tx (fun s => Ok (f s, s)).
Definition update (f : store -> store) : M unit := tx (fun s => Ok (tt, f s)).

(** The calls to the surface and to the runtime. *)
Definition surface_open (c : card) : M string := fun w => (e_open (w_tick w) c, step (emit (EvOpen c) w)).
Definition surface_poll (ref : string) : M surface_state := fun w =>
  (e_poll (w_tick w) ref, step (emit (EvPoll ref) w)).
Definition surface_cancel (ref : string) : M unit := fun w =>
  (e_cancel (w_tick w) ref, step (emit (EvCancel ref) w)).
Definition runtime_execute (o : tool_op) (arguments : json) (request_id : Z) (caller_name : option string) : M json :=
  fun w => (e_execute (w_tick w) o arguments request_id caller_name,
            step (emit (EvExecute request_id o arguments caller_name) w)).

(** AuditLog.record; the stderr mirror is not part of the state. *)
Definition record (component event_type outcome correlation_id : string) (request_id : option Z)
    (details : json) : M Z :=
  at_ ← time;
  tx (fun s => Ok (append_audit at_ component event_type outcome (Some correlation_id) request_id details s)).

(** RateLimiter.allow in the context: [None] disables it. *)
Definition rate_allow (x : ctx) (caller_id : Z) : M bool :=
  match x_limit x with
  | None => mret true
  | Some limit =>
      now ← time;
      ((fun w => let '(ok, d) := allow limit caller_id now (w_rate w) in
               (Ok ok, set_rate d w)) : M bool)
  end.
End Effects.
