(* ===== verification/Lifecycle.v ===== *)
(** The request lifecycle: broker/request_lifecycle.py, with the REST argument
    check of broker/gateway.py it calls. *)

From stdpp Require Import base tactics list strings.
From Stdlib Require Import ZArith Lia Ascii.
From S2P Require Import Prelude PyStr Base64 Json Policy Action Store StoreFacts StoreSpec Ingress Url Registry Broker.

Inductive ostatus :=
| OK | PENDING | DENIED | NOT_FOUND | FAILED | EXPIRED | UNAVAILABLE | RECEIVED | EXECUTING
| UNKNOWN | CONFLICT | INVALID | RESULT_EXPIRED.

#[export] Instance ostatus_eq_dec : EqDecision ostatus.
Proof. solve_decision. Defined.

Definition ostatus_text (o : ostatus) : string :=
  match o with
  | OK => "ok" | PENDING => "pending_approval" | DENIED => "denied" | NOT_FOUND => "not_found"
  | FAILED => "failed" | EXPIRED => "expired" | UNAVAILABLE => "unavailable" | RECEIVED => "received"
  | EXECUTING => "executing" | UNKNOWN => "unknown" | CONFLICT => "conflict" | INVALID => "invalid"
  | RESULT_EXPIRED => "result_expired"
  end%string.

(** A field that is [None] is [None]; [result=None] is [JNull]. *)
Record outcome := Outcome {
  z_status : ostatus; z_request_id : option Z; z_result : json; z_reason : option string;
  z_error : option string; z_detail : option string; z_approver : option string; z_note : option string;
  z_decided_at : option string; z_idempotency_key : json; z_payloads_pruned : bool; z_reused : bool }.

Definition outcome_of (st : ostatus) (rid : option Z) (error : option string) : outcome :=
  Outcome st rid JNull None error None None None None JNull false false.

Definition with_reason (reason : string) (o : outcome) : outcome :=
  Outcome (z_status o) (z_request_id o) (z_result o) (Some reason) (z_error o) (z_detail o) (z_approver o)
    (z_note o) (z_decided_at o) (z_idempotency_key o) (z_payloads_pruned o) (z_reused o).

Definition with_detail (detail : string) (o : outcome) : outcome :=
  Outcome (z_status o) (z_request_id o) (z_result o) (z_reason o) (z_error o) (Some detail) (z_approver o)
    (z_note o) (z_decided_at o) (z_idempotency_key o) (z_payloads_pruned o) (z_reused o).

Definition with_result (result : json) (o : outcome) : outcome :=
  Outcome (z_status o) (z_request_id o) result (z_reason o) (z_error o) (z_detail o) (z_approver o)
    (z_note o) (z_decided_at o) (z_idempotency_key o) (z_payloads_pruned o) (z_reused o).

Definition with_key (key : json) (o : outcome) : outcome :=
  Outcome (z_status o) (z_request_id o) (z_result o) (z_reason o) (z_error o) (z_detail o) (z_approver o)
    (z_note o) (z_decided_at o) key (z_payloads_pruned o) (z_reused o).

Definition with_reused (o : outcome) : outcome :=
  Outcome (z_status o) (z_request_id o) (z_result o) (z_reason o) (z_error o) (z_detail o) (z_approver o)
    (z_note o) (z_decided_at o) (z_idempotency_key o) (z_payloads_pruned o) true.

Definition with_decision (state : surface_state) (o : outcome) : outcome :=
  Outcome (z_status o) (z_request_id o) (z_result o) (z_reason o) (z_error o) (z_detail o) (ss_approver state)
    (ss_note state) (ss_decided_at state) (z_idempotency_key o) (z_payloads_pruned o) (z_reused o).

Definition status_outcome (st : req_status) : ostatus :=
  match st with
  | completed => OK | denied => DENIED | expired => EXPIRED | failed => FAILED
  | pending_approval => PENDING | running => EXECUTING | executing => EXECUTING | received => RECEIVED
  | unknown => UNKNOWN | result_expired => RESULT_EXPIRED | not_found => NOT_FOUND | invalid => INVALID
  end.

Definition _outcome_from_request (r : request_row) (a : option approval_row) : res outcome :=
  result ← match r_result_json r with
           | Some t => if PyStr.empty t then Ok JNull else loads t
           | None => Ok JNull
           end;
  Ok (Outcome (status_outcome (r_status r)) (Some (r_id r)) result
    (if bool_decide (r_error r = Some "approval_rejected"%string) then Some "approval_rejected"%string else None)
    (r_error r) None (a ≫= a_approver) (a ≫= fun a => redact (a_note a)) (a ≫= a_decided_at)
    (jopt (r_key r)) (bool_decide (is_Some (r_pruned_at r))) false).

(** ** gateway._validate_rest_arguments *)

Definition string_map_error (arguments : dict json) (key : string) : option string :=
  match jget arguments key with
  | JNull => None
  | JObj d =>
      if forallb (fun kv => is_str kv.2) d then None
      else Some (key +:+ " must contain only string keys and values")
  | _ => Some (key +:+ " must be an object")
  end.

Definition is_rest (o : tool_op) : bool := String.eqb (o_type o) "rest".

Definition body_kind_of (o : tool_op) : string :=
  match o_body_kind o with Some k => if PyStr.empty k then "none"%string else k | None => "none"%string end.

Section Lifecycle.
Context `{Env} `{Digest} `{Manifests}.

Definition _validate_rest_arguments (body_max : Z) (o : tool_op) (arguments : dict json) : option string :=
  match string_map_error arguments "variables", string_map_error arguments "headers" with
  | Some e, _ => Some e
  | None, Some e => Some e
  | None, None =>
      let kind := body_kind_of o in
      if String.eqb kind "none" then
        if dmem arguments "body" then Some "body must be absent for this operation"%string else None
      else match jget arguments "body" with
           | JStr body =>
               let size := if String.eqb kind "binary" then len <$> b64decode true body else Some (utf8_len body) in
               match size with
               | None => Some "binary body must be base64"%string
               | Some size => if body_max <? size then Some "body exceeds TOOLSTACK_REST_BODY_MAX"%string else None
               end
           | _ => Some "body must be a string"%string
           end
  end.

Definition _rest_endpoint (o : tool_op) : option string :=
  if negb (is_rest o) then None
  else
    let bits := List.filter (fun b => negb (PyStr.empty b))
      [default EmptyString (o_verb o); default EmptyString (o_base_url_host o); default EmptyString (o_path_template o)] in
    let text := join " " bits in if PyStr.empty text then None else Some text.

Definition tool_details (tool op : string) (more : dict json) : json :=
  JObj ([("tool"%string, JStr tool); ("op"%string, JStr op)] ++ more).

Definition set_status (id : Z) (st : req_status) (error : option string) : M unit :=
  now ← time;
  update (update_request now id (status_fields st None (Some <$> error))).

Definition complete (id : Z) (result : json) : M unit :=
  now ← time;
  update (update_request now id (status_fields completed (Some (Some (dumps result))) None)).

Definition type_name (e : exn) : string :=
  match e with
  | ValueError => "ValueError" | TypeError => "TypeError" | KeyError => "KeyError"
  | LookupError => "LookupError" | PermissionError => "PermissionError" | IntegrityError => "IntegrityError"
  | RuntimeError => "RuntimeError" | NotDispatched => "NotDispatched" | ToolUnreachable => "ToolUnreachable"
  | OtherExn n => n
  end%string.

(** ** execute_request *)

(** The three ways [ctx.runtime.execute] ends. *)
Definition finish_execution (request_id : Z) (tool op correlation_id : string) (tool_op : tool_op)
    (result : res json) : M outcome :=
  match result with
  | Raise NotDispatched =>
      _ ← set_status request_id failed (Some "tool_unreachable"%string);
      _ ← record "runtime" "execution_failed" "failed" correlation_id (Some request_id)
        (tool_details tool op [("error"%string, JStr "unreachable"); ("detail"%string, JStr "NotDispatched")]);
      mret (with_detail "NotDispatched" (outcome_of FAILED (Some request_id) (Some "tool_unreachable"%string)))
  | Raise e =>
      _ ← set_status request_id unknown (Some "execution_outcome_unknown"%string);
      _ ← record "runtime" "execution_unknown" "unknown" correlation_id (Some request_id)
        (tool_details tool op [("error"%string, JStr (type_name e)); ("detail"%string, JStr (type_name e))]);
      mret (with_detail (type_name e)
        (outcome_of UNKNOWN (Some request_id) (Some "execution_outcome_unknown"%string)))
  | Ok result =>
      _ ← complete request_id result;
      _ ← record "runtime" "execution_completed" "ok" correlation_id (Some request_id)
        (tool_details tool op
          (if is_rest tool_op then
            [("outbound_host"%string, jopt (o_base_url_host tool_op)); ("outbound_verb"%string, jopt (o_verb tool_op));
             ("outbound_path_template"%string, jopt (o_path_template tool_op));
             ("outbound_status"%string, match result with JObj d => jget d "status" | _ => JNull end)]
           else []));
      mret (with_result result (outcome_of OK (Some request_id) None))
  end.

Definition execute_request (request_id : Z) (tool op : string) (arguments : json)
    (correlation_id : string) (caller_name : option string) (claimed_op : option tool_op) : M outcome :=
  req ← query (request request_id);
  match req, claimed_op with
  | Some r, Some tool_op =>
      if negb (is_status (r_status r) executing)
      then mret (outcome_of FAILED (Some request_id) (Some "execution_not_claimed"%string))
      else
        _ ← record "runtime" "execution_started" "accepted" correlation_id (Some request_id) (tool_details tool op []);
        result ← attempt (runtime_execute tool_op arguments request_id caller_name);
        finish_execution request_id tool op correlation_id tool_op result
  | _, _ => mret (outcome_of FAILED (Some request_id) (Some "execution_not_claimed"%string))
  end.

(** ** _open_approval *)

Definition _open_approval (x : ctx) (request_id : Z) (caller_name tool op : string) (tool_op : tool_op)
    (arguments : json) (correlation_id : string) : M outcome :=
  let unavailable := outcome_of UNAVAILABLE (Some request_id) (Some "approval_unavailable"%string) in
  if negb (x_surface x) then
    _ ← set_status request_id failed (Some "approval_unavailable"%string);
    _ ← record "approval" "unavailable" "unavailable" correlation_id (Some request_id) (tool_details tool op []);
    mret unavailable
  else
    req ← query (request request_id);
    match req with
    | None => throw TypeError
    | Some r =>
        details ← lift (summarize arguments (o_approval_fields tool_op));
        installation ← query s_installation;
        let c := build_card request_id caller_name tool op (o_risk tool_op) "policy review" None (Some details)
          (_rest_endpoint tool_op) (Some installation) (r_request_digest r) (Some (o_generation tool_op)) in
        opened ← attempt (surface_open c);
        match opened with
        | Raise e =>
            _ ← set_status request_id failed (Some "approval_unavailable"%string);
            _ ← record "approval" "open_failed" "unavailable" correlation_id (Some request_id)
              (tool_details tool op [("error"%string, JStr (type_name e))]);
            mret unavailable
        | Ok ref =>
            now ← time;
            created ← time;
            _ ← tx (create_approval created request_id ref (now + x_ttl x) (r_request_digest r));
            _ ← set_status request_id pending_approval None;
            _ ← record "approval" "opened" "pending_approval" correlation_id (Some request_id)
              (tool_details tool op [("risk"%string, o_risk tool_op)]);
            mret (outcome_of PENDING (Some request_id) None)
        end
    end.

(** ** _expire_approval and sweep_expired *)

Definition _expire_approval (x : ctx) (request_id : Z) (surface_ref tool op correlation_id : string) (now : Z) : M bool :=
  changed ← tx (finish_pending now request_id expired ap_expired None None true);
  if negb changed then mret false
  else
    _ ← (if x_surface x then catch (surface_cancel surface_ref) (fun _ => mret tt) else mret tt);
    _ ← record "approval" "expired" "expired" correlation_id (Some request_id) (tool_details tool op []);
    mret true.

Definition sweep_expired (x : ctx) : M Z :=
  now ← time;
  rows ← query (expired_pending_approvals now);
  done ← each (fun n => _expire_approval x (n_request_id n) (n_surface_ref n) (n_tool n) (n_op n)
                          (n_correlation_id n) now) rows;
  mret (count_where (fun b : bool => b) done).

(** ** submit *)

Definition find_op (x : ctx) (tool op : string) : M (option tool_op) :=
  read ← read_files;
  mret (lookup read (x_catalog x) tool op).

(** The outcome of the row as it is now; [ctx.store.request] may answer [None]. *)
Definition current_outcome (request_id : Z) (with_approval : bool) : M outcome :=
  req ← query (request request_id);
  a ← (if with_approval then query (approval_for_request request_id) else mret None);
  match req with
  | Some r => lift (_outcome_from_request r a)
  | None => throw TypeError
  end.

(** A reason that is neither [None] nor text is refused; a blank one is dropped. *)
Definition clean_reason (reason : json) : option (option string) :=
  match reason with
  | JNull => Some None
  | JStr s => Some (if PyStr.empty (strip s) then None else Some s)
  | _ => None
  end.

(** The policy decision for a freshly reserved request. *)
Definition decide_and_run (x : ctx) (k : caller) (tool op : string) (o : tool_op) (arguments : dict json)
    (correlation_id : string) (req : request_row) : M outcome :=
  let request_id := r_id req in
  p ← query (policy_for (k_id k));
  let decision := decide_op p tool op in
  if bool_decide (decision = DENY) then
    _ ← set_status request_id denied None;
    _ ← record "policy" "decision_deny" "denied" correlation_id (Some request_id) (tool_details tool op []);
    mret (with_reason "policy" (outcome_of DENIED (Some request_id) None))
  else
    match (if is_rest o then _validate_rest_arguments (x_body_max x) o arguments else None) with
    | Some detail =>
        _ ← set_status request_id invalid (Some "invalid_envelope"%string);
        mret (with_detail detail (outcome_of INVALID (Some request_id) (Some "invalid_envelope"%string)))
    | None =>
        if bool_decide (decision = REVIEW) then
          _ ← record "policy" "decision_review_required" "pending_approval" correlation_id (Some request_id)
            (tool_details tool op [("risk"%string, o_risk o)]);
          _open_approval x request_id (k_name k) tool op o (JObj arguments) correlation_id
        else
          _ ← record "policy" "decision_allow" "ok" correlation_id (Some request_id) (tool_details tool op []);
          current ← find_op x tool op;
          now ← time;
          claimed ← tx (fun s => Ok (claim_received now request_id (o_generation <$> current) (Some k)
                                       (r_request_digest req) s));
          if negb claimed then current_outcome request_id false
          else execute_request request_id tool op (JObj arguments) correlation_id (Some (k_name k)) current
    end.

(** What [_submit] does with the answer of [reserve_action]. *)
Definition after_reserve (x : ctx) (k : caller) (tool op : string) (found : option tool_op) (args : dict json)
    (correlation_id : string) (reason : option string) (key : json)
    (reserved : res (request_row * bool * bool)) : M outcome :=
  match reserved with
  | Raise ValueError | Raise TypeError =>
      mret (outcome_of INVALID None (Some "invalid_action_or_key"%string))
  | Raise PermissionError => mret (with_reason "authority" (outcome_of DENIED None None))
  | Raise e => throw e
  | Ok (req, created, conflict) =>
      let request_id := r_id req in
      if conflict then mret (outcome_of CONFLICT (Some request_id) (Some "idempotency_conflict"%string))
      else if negb created then
        a ← query (approval_for_request request_id);
        out ← lift (_outcome_from_request req a);
        mret (with_reused out)
      else
        match found with
        | None =>
            _ ← set_status request_id not_found None;
            mret (outcome_of NOT_FOUND (Some request_id) None)
        | Some o =>
            _ ← record "request" "received" "accepted" correlation_id (Some request_id)
              (JObj ([("tool"%string, JStr tool); ("op"%string, JStr op); ("risk"%string, o_risk o);
                      ("has_idempotency_key"%string, JBool (negb (is_null key)))]
                     ++ match reason with Some _ => [("reason_provided"%string, JBool true)] | None => [] end));
            decide_and_run x k tool op o args correlation_id req
        end
  end.

Definition _submit (x : ctx) (k : caller) (tool op : string) (arguments : json) (correlation_id : string)
    (reason key : json) : M outcome :=
  _ ← sweep_expired x;
  found ← find_op x tool op;
  if bool_decide (found = None) && is_null key then
    _ ← record "registry" "tool_lookup_failed" "not_found" correlation_id None (tool_details tool op []);
    mret (outcome_of NOT_FOUND None None)
  else
    match arguments, clean_reason reason with
    | JObj args, Some reason =>
        now ← time;
        nonce ← token_hex;
        reserved ← attempt (tx (reserve_action now nonce k correlation_id tool op arguments reason
          (match found with Some o => o_generation o | None => EmptyString end) key));
        after_reserve x k tool op found args correlation_id reason key reserved
    | _, _ => mret (outcome_of INVALID None (Some "invalid_action"%string))
    end.

Definition submit (x : ctx) (k : caller) (tool op : string) (arguments : json) (correlation_id : string)
    (reason key : json) : M outcome :=
  match validate_idempotency_key key with
  | Raise _ => mret (outcome_of INVALID None (Some "invalid_idempotency_key"%string))
  | Ok _ =>
      out ← _submit x k tool op arguments correlation_id reason key;
      mret (with_key key out)
  end.

(** ** resolve_request *)

(** [json.loads(req["arguments_json"] or "{}")]. *)
Definition stored_arguments (r : request_row) : res json :=
  loads (match r_arguments_json r with Some t => if PyStr.empty t then "{}"%string else t | None => "{}"%string end).

Definition decided_text (o : surface_outcome) : string :=
  match o with
  | so_pending => "pending" | so_approved => "approved" | so_rejected => "rejected"
  | so_expired => "expired" | so_cancelled => "cancelled"
  end%string.

Definition on_approved (x : ctx) (req : request_row) (state : surface_state) (now : Z) (k : option caller) : M outcome :=
  let request_id := r_id req in
  current ← find_op x (r_tool req) (r_op req);
  t ← time;
  claimed ← tx (fun s => Ok (claim_approval request_id (o_generation <$> current) state (Z.max now t) k s));
  if negb claimed then current_outcome request_id true
  else
    _ ← record "approval" "approved" "ok" (r_correlation_id req) (Some request_id)
      (tool_details (r_tool req) (r_op req) [("approver"%string, jopt (ss_approver state))]);
    args ← lift (stored_arguments req);
    name ← query (caller_name (r_caller_id req));
    out ← execute_request request_id (r_tool req) (r_op req) args (r_correlation_id req) name current;
    mret (with_decision state out).

Definition on_rejected (req : request_row) (state : surface_state) (now : Z) : M outcome :=
  let request_id := r_id req in
  t ← time;
  changed ← tx (finish_pending (Z.max now t) request_id denied ap_rejected (Some "approval_rejected"%string) (Some state) false);
  if negb changed then current_outcome request_id true
  else
    current ← query (approval_for_request request_id);
    row ← query (request request_id);
    match row, current with
    | Some r, Some a =>
        out ← lift (_outcome_from_request r (Some a));
        _ ← record "approval"
          (match a_status a with ap_pending => "pending" | ap_approved => "approved" | ap_rejected => "rejected"
             | ap_expired => "expired" | ap_cancelled => "cancelled" end)%string
          (ostatus_text (z_status out)) (r_correlation_id req) (Some request_id)
          (tool_details (r_tool req) (r_op req) [("approver"%string, jopt (ss_approver state))]);
        mret out
    | _, _ => throw TypeError
    end.

Definition on_withdrawn (req : request_row) (state : surface_state) (now : Z) : M outcome :=
  let request_id := r_id req in
  t ← time;
  changed ← tx (finish_pending (Z.max now t) request_id expired
    (if bool_decide (ss_outcome state = so_expired) then ap_expired else ap_cancelled) None None false);
  if negb changed then current_outcome request_id true
  else
    _ ← record "approval" "expired" "expired" (r_correlation_id req) (Some request_id)
      (tool_details (r_tool req) (r_op req) []);
    current_outcome request_id true.

Definition redact_note (state : surface_state) : surface_state :=
  SurfaceState (ss_outcome state) (ss_approver state) (redact (ss_note state)) (ss_decided_at state).

Definition resolve_request (x : ctx) (request_id : Z) (k : option caller) : M outcome :=
  now ← time;
  req ← query (request request_id);
  match req with
  | None => mret (outcome_of NOT_FOUND None None)
  | Some req =>
      a ← query (approval_for_request request_id);
      if negb (is_status (r_status req) pending_approval) then lift (_outcome_from_request req a)
      else
        match a with
        | None => mret (outcome_of PENDING (Some request_id) None)
        | Some a =>
            if a_expires_at a <=? now then
              _ ← _expire_approval x request_id (a_surface_ref a) (r_tool req) (r_op req) (r_correlation_id req) now;
              current_outcome request_id true
            else
              _ ← (if x_surface x then mret tt else throw AttributeError);
              polled ← surface_poll (a_surface_ref a);
              let state := redact_note polled in
              t ← time;
              let after_poll := Z.max now t in
              current_req ← query (request request_id);
              current_approval ← query (approval_for_request request_id);
              match current_req, current_approval with
              | Some cr, Some ca =>
                  if negb (is_status (r_status cr) pending_approval) || negb (bool_decide (a_status ca = ap_pending))
                  then lift (_outcome_from_request cr (Some ca))
                  else if a_expires_at ca <=? after_poll then
                    _ ← _expire_approval x request_id (a_surface_ref ca) (r_tool req) (r_op req)
                          (r_correlation_id req) after_poll;
                    current_outcome request_id true
                  else
                    _ ← (match ss_outcome state with
                         | so_approved | so_rejected =>
                             _ ← record "approval" "surface_decision_received" "ok" (r_correlation_id req)
                               (Some request_id)
                               (tool_details (r_tool req) (r_op req)
                                 [("outcome"%string, JStr (decided_text (ss_outcome state)))]);
                             mret tt
                         | _ => mret tt
                         end);
                    match ss_outcome state with
                    | so_approved => on_approved x req state now k
                    | so_rejected => on_rejected req state now
                    | so_expired | so_cancelled => on_withdrawn req state now
                    | so_pending => current_outcome request_id true
                    end
              | _, _ => throw TypeError
              end
        end
  end.
End Lifecycle.
