(* ===== verification/LifecycleFacts.v ===== *)
(** What the request lifecycle guarantees under any interference: every
    execution is certified by a commit point that saw the full authority, and
    no request is ever executed twice. *)

From stdpp Require Import base tactics list strings.
From Stdlib Require Import ZArith Lia Ascii.
From S2P Require Import Prelude PyStr Json JsonFacts Policy Action Store StoreFacts StoreSpec Ingress Url Registry Broker Lifecycle.

Section Facts.
Context `{Env} `{Digest} `{Manifests}.

(** ** Executions in a trace *)

Definition is_exec (id : Z) (ev : event) : bool :=
  match ev with EvExecute i _ _ _ => i =? id | _ => false end.

Definition execs (id : Z) (tr : list event) : nat := length (List.filter (is_exec id) tr).

Lemma execs_app id t1 t2 : execs id (t1 ++ t2) = (execs id t1 + execs id t2)%nat.
Proof. unfold execs. by rewrite List.filter_app, length_app. Qed.

(** The private columns of a row come together. *)
Definition args_ok (r : request_row) : Prop :=
  r_action_json r <> None -> exists t, r_arguments_json r = Some t /\ PyStr.empty t = false.

Definition rows_ok (s : store) : Prop := forall id r, request id s = Some r -> args_ok r.

(** What a commit point saw when it let an action run: [s] is the database in
    which its transaction ran. *)
Record certificate (s : store) (id : Z) (o : tool_op) (arguments : json) : Prop := {
  ce_row : exists r k eff a, request id s = Some r /\ authority s r k (o_generation o) eff
    /\ o_tool o = r_tool r /\ o_op o = r_op r
    /\ loads (text_or_null (r_action_json r)) = Ok (JObj a)
    /\ canonical_text arguments = canonical_text (jget a "arguments")
    /\ (eff = ALLOW /\ r_status r = received
        \/ eff = REVIEW /\ r_status r = pending_approval
           /\ exists ap t polled, approval_for_request id s = Some ap /\ a_status ap = ap_pending
              /\ a_request_digest ap = r_request_digest r
              /\ e_poll t (a_surface_ref ap) = Ok polled /\ ss_outcome polled = so_approved) }.

Definition certified (seen : list store) (ev : event) : Prop :=
  match ev with
  | EvExecute id o arguments _ => exists s, In s seen /\ certificate s id o arguments
  | _ => True
  end.

Record good (w : world) : Prop := {
  g_once : forall id, (execs id (w_trace w) <= 1)%nat;
  g_stage : forall id, (0 < execs id (w_trace w))%nat -> 2 <= stage_of id (w_store w);
  g_cert : forall ev, In ev (w_trace w) -> certified (w_seen w) ev;
  g_rows : rows_ok (w_store w) }.

Lemma certified_mono seen seen' ev : (forall s, In s seen -> In s seen') -> certified seen ev -> certified seen' ev.
Proof. intros Hs. destruct ev; simpl; try done. intros (s & Hi & Hc). exists s. auto. Qed.

(** ** Gentle transactions *)

(** A transaction that moves no row back, leaves rows in flight and rows still
    parked alone, and keeps what an approval was opened for. *)
Record gentle (s s' : store) : Prop := {
  ge_old : forall id r, request id s = Some r ->
    exists r', request id s' = Some r' /\ stage (r_status r) <= stage (r_status r')
      /\ (args_ok r -> args_ok r') /\ (in_flight (r_status r) = true -> r' = r)
      /\ (r_status r = pending_approval -> r_status r' = pending_approval -> r' = r)
      /\ same_identity r r';
  ge_new : forall id r', request id s = None -> request id s' = Some r' -> args_ok r';
  ge_approval : forall id a, approval_for_request id s = Some a ->
    exists a', approval_for_request id s' = Some a' /\ same_approval a a' }.

Lemma gentle_refl s : gentle s s.
Proof.
  constructor; [| intros; congruence |].
  - intros id r Hr. exists r. split; [done |]. split; [lia |]. by repeat split.
  - intros id a Ha. exists a. by repeat split.
Qed.

Lemma stage_pending st : stage st = 1 -> st = pending_approval.
Proof. by destruct st. Qed.

Lemma gentle_trans s1 s2 s3 : gentle s1 s2 -> gentle s2 s3 -> gentle s1 s3.
Proof.
  intros [O1 N1 A1] [O2 N2 A2]. constructor.
  - intros id r Hr. destruct (O1 _ _ Hr) as (r1 & E1 & S1 & R1 & F1 & P1 & I1).
    destruct (O2 _ _ E1) as (r2 & E2 & S2 & R2 & F2 & P2 & I2). exists r2. split; [done |]. split; [lia |].
    split; [auto |]. split; [intros Hf; specialize (F1 Hf); subst; auto |].
    split; [|unfold same_identity in *; intuition congruence].
    intros Hp Hp2. assert (r_status r1 = pending_approval) as Hp1.
    { apply stage_pending. rewrite Hp in S1. rewrite Hp2 in S2. simpl in *. lia. }
    rewrite (P2 Hp1 Hp2). auto.
  - intros id r' Hn Hr'. destruct (request id s2) as [r2|] eqn:E; [|by eapply N2].
    destruct (O2 _ _ E) as (r3 & E3 & _ & A3 & _). rewrite Hr' in E3. injection E3 as <-. eauto.
  - intros id a Ha. destruct (A1 _ _ Ha) as (a1 & E1 & I1). destruct (A2 _ _ E1) as (a2 & E2 & I2).
    exists a2. split; [done |]. unfold same_approval in *. intuition congruence.
Qed.

Lemma admin_write_args r r' : admin_write r r' -> args_ok r -> args_ok r'.
Proof. intros [-> | st err now _ _ -> | now _ ->]; [done | |]; intros _ Hn; by destruct Hn. Qed.

Lemma gentle_rewrites s s' :
  (forall id, rewrites admin_write (request id s) (request id s')) ->
  rewritten (s_approvals s) (s_approvals s') -> gentle s s'.
Proof.
  intros Hw Hap. constructor.
  - intros id r Hr. specialize (Hw id). rewrite Hr in Hw. simpl in Hw.
    destruct (request id s') as [r'|]; [|done]. exists r'. split; [done |].
    split; [by apply admin_write_stage |]. split; [by apply admin_write_args |]. split.
    + intros Hf. destruct Hw as [| st err now E | now E]; [done | |]; destruct (r_status r); done.
    + split; [|by apply admin_write_identity].
      intros Hp Hp'. destruct Hw as [| st err now E Ht -> | now E]; [done | |].
      * simpl in Hp'. by subst st.
      * by rewrite Hp in E.
  - intros id r' Hn Hr'. specialize (Hw id). by rewrite Hn, Hr' in Hw.
  - intros id a. by apply rewritten_approval.
Qed.

Lemma gentle_admins os s : gentle s (run_admins os s).
Proof.
  revert s. induction os as [|o os IH]; intros s; simpl; [apply gentle_refl |].
  eapply gentle_trans; [|apply IH]. apply gentle_rewrites; [|apply run_admin_approvals].
  intros id. apply run_admin_rewrites.
Qed.

Lemma gentle_same s s' :
  s_requests s' = s_requests s -> rewritten (s_approvals s) (s_approvals s') -> gentle s s'.
Proof. intros E Ha. apply gentle_rewrites; [|done]. intros id. by apply rewrites_same. Qed.

Lemma gentle_stage s s' id : gentle s s' -> stage_of id s <= stage_of id s'.
Proof.
  intros [Ho _]. unfold stage_of. destruct (request id s) as [r|] eqn:E.
  - destruct (Ho _ _ E) as (r' & -> & Hs & _). done.
  - destruct (request id s') as [r'|]; [by destruct (r_status r') | done].
Qed.

Lemma gentle_rows s s' : gentle s s' -> rows_ok s -> rows_ok s'.
Proof.
  intros [Ho Hn] Hr id r' Hr'. destruct (request id s) as [r|] eqn:E; [|by eapply Hn].
  destruct (Ho _ _ E) as (r2 & E2 & _ & Ha & _). rewrite Hr' in E2. injection E2 as <-. by eapply Ha, Hr.
Qed.

(** ** Mild computations

    They execute nothing, keep the invariant and leave rows in flight alone. *)

Record mild_step (w w' : world) : Prop := {
  ms_good : good w -> good w';
  ms_execs : forall id, execs id (w_trace w') = execs id (w_trace w);
  ms_gentle : gentle (w_store w) (w_store w');
  ms_seen : forall s, In s (w_seen w) -> In s (w_seen w') }.

Definition mild {A} (m : M A) : Prop := forall w, mild_step w (m w).2.

Lemma mild_refl w : mild_step w w.
Proof. constructor; auto using gentle_refl. Qed.

Lemma mild_trans w1 w2 w3 : mild_step w1 w2 -> mild_step w2 w3 -> mild_step w1 w3.
Proof.
  intros [G1 E1 F1 S1] [G2 E2 F2 S2]. constructor; auto.
  - intros id. by rewrite E2, E1.
  - by eapply gentle_trans.
Qed.

Lemma mild_ret {A} (a : A) : mild (mret a : M A).
Proof. intros w. apply mild_refl. Qed.

Lemma mild_throw {A} e : mild (throw e : M A).
Proof. intros w. apply mild_refl. Qed.

Lemma mild_lift {A} (r : res A) : mild (lift r).
Proof. intros w. apply mild_refl. Qed.

Lemma mild_bind {A B} (m : M A) (f : A -> M B) : mild m -> (forall a, mild (f a)) -> mild (m ≫= f).
Proof.
  intros Hm Hf w. specialize (Hm w). unfold mbind, M_bind.
  destruct (m w) as [[a|e] w1]; [|done]. eapply mild_trans; [done | apply Hf].
Qed.

Lemma mild_attempt {A} (m : M A) : mild m -> mild (attempt m).
Proof. intros Hm w. specialize (Hm w). unfold attempt. by destruct (m w). Qed.

Lemma mild_catch {A} (m : M A) h : mild m -> (forall e, mild (h e)) -> mild (catch m h).
Proof.
  intros Hm Hh w. specialize (Hm w). unfold catch. destruct (m w) as [[a|e] w1]; [done |].
  eapply mild_trans; [done | apply Hh].
Qed.

Lemma mild_each {A B} (f : A -> M B) l : (forall a, mild (f a)) -> mild (each f l).
Proof.
  intros Hf. induction l as [|a l IH]; simpl; [apply mild_ret |].
  apply mild_bind; [apply Hf |]. intros b. apply mild_bind; [done |]. intros bs. apply mild_ret.
Qed.

Lemma mild_tick w : mild_step w (step w).
Proof. constructor; [by intros [] | done | apply gentle_refl | done]. Qed.

Lemma mild_emit ev w : (forall id, is_exec id ev = false) -> mild_step w (step (emit ev w)).
Proof.
  intros He. assert (forall id, execs id (w_trace w ++ [ev]) = execs id (w_trace w)) as Hx.
  { intros id. rewrite execs_app. unfold execs at 2. simpl. rewrite He. simpl. lia. }
  constructor; [|done | apply gentle_refl | done].
  intros [Ho Hs Hc Hr]; constructor; simpl; try done.
  - intros id. by rewrite Hx.
  - intros id. rewrite Hx. auto.
  - intros e [Hi | ->]%In_snoc; [auto |]. simpl. destruct ev as [| | |i]; try done.
    specialize (He i). simpl in He. by rewrite Z.eqb_refl in He.
Qed.

Lemma mild_store s s' w : gentle (w_store w) s -> gentle s s' -> mild_step w (step (set_store s s' w)).
Proof.
  intros G1 G2. pose proof (gentle_trans _ _ _ G1 G2) as G. constructor.
  - intros [Ho Hs Hc Hr]. constructor; simpl; [done | | |].
    + intros id Hid. specialize (Hs id Hid). pose proof (gentle_stage _ _ id G). lia.
    + intros ev Hev. eapply certified_mono; [|by apply Hc]. intros s0 ?. apply In_snoc. auto.
    + by eapply gentle_rows.
  - done.
  - done.
  - intros s0 Hs. apply In_snoc. auto.
Qed.

Lemma mild_tx {A} (f : store -> res (A * store)) :
  (forall s a s', f s = Ok (a, s') -> gentle s s') -> mild (tx f).
Proof.
  intros Hf w. unfold tx. pose proof (gentle_admins (e_admin (w_tick w)) (w_store w)) as Ha.
  destruct (f _) as [[a s']|e] eqn:E; apply mild_store; eauto using gentle_refl.
Qed.

Lemma mild_query {A} (f : store -> A) : mild (query f).
Proof. apply mild_tx. intros s a s' [= _ <-]. apply gentle_refl. Qed.

Lemma mild_time : mild time.
Proof. intros w. apply mild_tick. Qed.

Lemma mild_record c e o corr rid d : mild (record c e o corr rid d).
Proof.
  apply mild_bind; [apply mild_time |]. intros at_. apply mild_tx. intros s a s' [= _ <-]. apply gentle_same; [done | constructor].
Qed.

Lemma mild_finish_pending now id st ast err state dl :
  terminal st = true -> mild (tx (finish_pending now id st ast err state dl)).
Proof.
  intros Hst. apply mild_tx. intros s b s' Hf.
  apply gentle_rewrites; [|by eapply finish_pending_approvals]. intros i. by eapply finish_pending_rewrites.
Qed.

Lemma mild_cancel ref : mild (surface_cancel ref).
Proof. intros w. by apply mild_emit. Qed.

Lemma mild_poll ref : mild (surface_poll ref).
Proof. intros w. by apply mild_emit. Qed.

Lemma mild_open c : mild (surface_open c).
Proof. intros w. by apply mild_emit. Qed.

Lemma mild_if {A} (b : bool) (m1 m2 : M A) : mild m1 -> mild m2 -> mild (if b then m1 else m2).
Proof. by destruct b. Qed.

Lemma mild_expire x id ref tool op corr now : mild (_expire_approval x id ref tool op corr now).
Proof.
  apply mild_bind; [by apply mild_finish_pending |]. intros [|]; [|apply mild_ret].
  apply mild_bind; [apply mild_if; [apply mild_catch; [apply mild_cancel |] |]; intros; apply mild_ret |].
  intros _. apply mild_bind; [apply mild_record |]. intros _. apply mild_ret.
Qed.

Lemma mild_sweep x : mild (sweep_expired x).
Proof.
  apply mild_bind; [apply mild_time |]. intros now. apply mild_bind; [apply mild_query |]. intros rows.
  apply mild_bind; [apply mild_each; intros; apply mild_expire |]. intros done. apply mild_ret.
Qed.

Lemma mild_find_op x tool op : mild (find_op x tool op).
Proof. apply mild_bind; [intros w; apply mild_tick |]. intros. apply mild_ret. Qed.

Lemma mild_current_outcome id b : mild (current_outcome id b).
Proof.
  apply mild_bind; [apply mild_query |]. intros req.
  apply mild_bind; [apply mild_if; [apply mild_query | apply mild_ret] |]. intros a.
  destruct req; [apply mild_lift | apply mild_throw].
Qed.

(** ** The steps that move a request *)

Definition goods {A} (m : M A) : Prop := forall w, good w -> good (m w).2.

Lemma mild_goods {A} (m : M A) : mild m -> goods m.
Proof. intros Hm w. apply (ms_good _ _ (Hm w)). Qed.

Lemma good_store s s' w :
  good w -> gentle (w_store w) s ->
  (forall i, (0 < execs i (w_trace w))%nat -> 2 <= stage_of i s -> 2 <= stage_of i s') ->
  (rows_ok s -> rows_ok s') -> good (step (set_store s s' w)).
Proof.
  intros [Ho Hs Hc Hr] G Hst Hrows. constructor; simpl; [done | | |].
  - intros i Hi. apply Hst; [done |]. pose proof (gentle_stage _ _ i G). specialize (Hs i Hi). lia.
  - intros ev Hev. eapply certified_mono; [|by apply Hc]. intros s0 ?. apply In_snoc. auto.
  - apply Hrows. by eapply gentle_rows.
Qed.

Lemma effective_status_eq st result error now r :
  r_status (apply_fields (effective_fields (status_fields st result error)) now r) = st.
Proof. unfold effective_fields. simpl. by destruct (terminal st). Qed.

Lemma request_update_request now id st result error s i :
  request i (update_request now id (status_fields st result error) s)
  = (fun r => if r_id r =? id then apply_fields (effective_fields (status_fields st result error)) now r else r)
      <$> request i s.
Proof. rewrite update_request_eq. by apply request_update. Qed.

Lemma good_update_request now id st result error w :
  good w -> 2 <= stage st \/ execs id (w_trace w) = 0%nat ->
  good (update (update_request now id (status_fields st result error)) w).2.
Proof.
  intros Hg Hst. unfold update, tx. simpl. apply good_store; [done | apply gentle_admins | |].
  - intros i Hi. unfold stage_of. rewrite request_update_request.
    destruct (request i _) as [r|] eqn:Er; simpl; [|done].
    destruct (r_id r =? id) eqn:E; [|done]. to_prop. rewrite effective_status_eq. intros _.
    destruct Hst as [Hst | Hst]; [done |]. rewrite (request_id_eq _ _ _ Er) in E. subst. lia.
  - intros Hr i r'. rewrite request_update_request.
    destruct (request i _) as [r|] eqn:Er; simpl; [|done]. intros [= <-].
    destruct (r_id r =? id); [|by eapply Hr]. unfold effective_fields. simpl.
    specialize (Hr _ _ Er). destruct (terminal st); [intros Hn; by destruct Hn | done].
Qed.

Lemma good_set_status id st error w :
  good w -> 2 <= stage st \/ execs id (w_trace w) = 0%nat -> good (set_status id st error w).2.
Proof. intros Hg Hst. apply (good_update_request _ _ _ _ _ (step w)); [by apply (ms_good _ _ (mild_tick w)) | done]. Qed.

Lemma good_complete id result w : good w -> good (complete id result w).2.
Proof. intros Hg. apply (good_update_request _ _ _ _ _ (step w)); [by apply (ms_good _ _ (mild_tick w)) | left; done]. Qed.

Lemma bind_ok {A B} (m : M A) (f : A -> M B) w a w1 : m w = (Ok a, w1) -> (m ≫= f) w = f a w1.
Proof. unfold mbind, M_bind. by intros ->. Qed.

(** Sequencing after a step of known effect. *)
Lemma good_bind {A B} (m : M A) (f : A -> M B) w :
  good (m w).2 -> (forall a, good (m w).2 -> (m w).1 = Ok a -> good (f a (m w).2).2) -> good ((m ≫= f) w).2.
Proof.
  intros Hm Hf. unfold mbind, M_bind. destruct (m w) as [[a|e] w1] eqn:E; [|done]. by apply Hf.
Qed.

Lemma goods_bind {A B} (m : M A) (f : A -> M B) : goods m -> (forall a, goods (f a)) -> goods (m ≫= f).
Proof. intros Hm Hf w Hg. apply good_bind; [by apply Hm |]. intros a Hg' _. by apply Hf. Qed.

Lemma goods_terminal id st error : terminal st = true -> goods (set_status id st error).
Proof. intros Ht w Hg. apply good_set_status; [done |]. left. by destruct st. Qed.

(** *** Execution *)

(** The row is executing, has not run yet and is certified. *)
Record claimed (id : Z) (o : tool_op) (arguments : json) (w : world) : Prop := {
  cl_good : good w;
  cl_fresh : execs id (w_trace w) = 0%nat;
  cl_row : exists r, request id (w_store w) = Some r /\ r_status r = executing;
  cl_cert : exists s, In s (w_seen w) /\ certificate s id o arguments }.

Lemma claimed_mild id o args w w' : mild_step w w' -> claimed id o args w -> claimed id o args w'.
Proof.
  intros [G E F S] [Hg Hf (r & Hr & Hst) (s & Hs & Hc)]. constructor.
  - auto.
  - by rewrite E.
  - destruct (ge_old _ _ F _ _ Hr) as (r' & Hr' & _ & _ & E' & _). exists r'. split; [done |].
    rewrite E'; [done | by rewrite Hst].
  - exists s. auto.
Qed.

Lemma good_runtime_execute id o args name w :
  claimed id o args w -> good (runtime_execute o args id name w).2.
Proof.
  intros [[Ho Hs Hc Hr] Hf (r & Hreq & Hst) Hcert]. unfold runtime_execute. simpl.
  assert (forall i, execs i (w_trace w ++ [EvExecute id o args name])
    = (execs i (w_trace w) + if (id =? i)%Z then 1 else 0)%nat) as Hx.
  { intros i. rewrite execs_app. unfold execs at 2. simpl. by destruct (id =? i). }
  constructor; simpl; try done.
  - intros i. rewrite Hx. destruct (Z.eqb_spec id i) as [<- | _]; [lia |]. specialize (Ho i). lia.
  - intros i. rewrite Hx. destruct (Z.eqb_spec id i) as [<- | _].
    + intros _. unfold stage_of. rewrite Hreq, Hst. simpl. lia.
    + intros Hi. apply Hs. lia.
  - intros ev [Hi | ->]%In_snoc; [auto |]. done.
Qed.

Lemma good_execute_request id tool op args corr name o w :
  (forall o', o = Some o' -> claimed id o' args w) -> good w ->
  good (execute_request id tool op args corr name o w).2.
Proof.
  intros Hc Hg. unfold execute_request.
  apply good_bind; [by apply (mild_goods _ (mild_query _)) |]. intros req Hg1 _.
  pose proof (claimed_mild id) as Hm.
  destruct req as [r|], o as [o|]; try exact Hg1.
  destruct (negb (is_status (r_status r) executing)); [done |].
  specialize (Hc o eq_refl).
  assert (claimed id o args (query (request id) w).2) as Hc1 by (eapply Hm; [apply mild_query | done]).
  set (w1 := (query (request id) w).2) in *. clearbody w1.
  apply good_bind; [by apply (mild_goods _ (mild_record _ _ _ _ _ _)) |]. intros _ _ _.
  assert (claimed id o args (record "runtime" "execution_started" "accepted" corr (Some id) (tool_details tool op []) w1).2) as Hc2
    by (eapply Hm; [apply mild_record | done]).
  match type of Hc2 with claimed _ _ _ ?x => set (w2 := x) in * end. clearbody w2.
  apply good_bind.
  { unfold attempt. pose proof (good_runtime_execute _ _ _ name _ Hc2) as He.
    by destruct (runtime_execute o args id name w2). }
  intros result Hg3 _. generalize dependent (attempt (runtime_execute o args id name) w2).2. intros w3 Hg3.
  assert (forall st error c e out rid d (z : outcome), terminal st = true ->
    good ((_ ← set_status id st error; _ ← record c e out corr rid d; mret z) w3).2) as Hend.
  { intros. apply (goods_bind (set_status id st error)); [by apply goods_terminal | | done].
    intros _. apply mild_goods, mild_bind; [apply mild_record | intros; apply mild_ret]. }
  unfold finish_execution. destruct result as [v|e].
  - apply (goods_bind (complete id v)); [intros w' ?; by apply good_complete | | done].
    intros _. apply mild_goods, mild_bind; [apply mild_record | intros; apply mild_ret].
  - destruct e; by apply Hend.
Qed.

(** *** Claims *)

Lemma rows_update (p : request_row -> bool) f s l :
  s_requests s = l -> (forall r, r_id (f r) = r_id r) -> (forall r, args_ok r -> args_ok (f r)) ->
  rows_ok s -> rows_ok (with_requests s (update_where p f l)).
Proof.
  intros <- Hi Hf Hr id r'. rewrite request_update by done.
  destruct (request id s) as [r|] eqn:E; simpl; [|done]. intros [= <-].
  specialize (Hr _ _ E). destruct (p r); auto.
Qed.

Lemma rows_set_approvals p f s : rows_ok s -> rows_ok (set_approvals p f s).
Proof. done. Qed.

Lemma claim_received_rows now id gen k d s : rows_ok s -> rows_ok (claim_received now id gen k d s).2.
Proof.
  intros Hr. unfold claim_received, set_request. repeat (case_match; simpl; try done);
    apply rows_update; try done; by intros ? ? Hn; destruct Hn.
Qed.

Lemma claim_approval_rows now id gen state k s : rows_ok s -> rows_ok (claim_approval id gen state now k s).2.
Proof.
  intros Hr. unfold claim_approval, set_request.
  repeat (case_match; simpl; try done); apply rows_set_approvals, rows_update; try done;
    by intros ? ? Hn; destruct Hn.
Qed.

(** Both commit points never move a row back. *)
Lemma good_claim (f : store -> bool * store) o w :
  (forall s, (f s).2 = run_op o s) -> (forall s i, forward i [o] s = true) ->
  (forall s, rows_ok s -> rows_ok (f s).2) ->
  good w -> good (tx (fun s => Ok (f s)) w).2.
Proof.
  intros Hf Hfw Hrows Hg. unfold tx. set (s := run_admins _ _). specialize (Hrows s).
  pose proof (Hf s) as Hs. destruct (f s) as [b s'] eqn:E. simpl in *. subst s'.
  apply good_store; [done | apply gentle_admins | | done].
  intros i _ Hi. pose proof (stage_run_op o [] s i (Hfw s i)). fold s in Hi. lia.
Qed.

(** What the transaction of a successful claim leaves. *)
Lemma claimed_tx (f : store -> bool * store) id o args w :
  good (tx (fun s => Ok (f s)) w).2 -> execs id (w_trace w) = 0%nat ->
  (forall s s', s = run_admins (e_admin (w_tick w)) (w_store w) -> f s = (true, s') ->
     (exists r, request id s' = Some r /\ r_status r = executing) /\ certificate s id o args) ->
  (tx (fun s => Ok (f s)) w).1 = Ok true -> claimed id o args (tx (fun s => Ok (f s)) w).2.
Proof.
  unfold tx. set (s := run_admins _ _). intros Hg Hx Hf Ht.
  specialize (Hf s). destruct (f s) as [b s'] eqn:E. simpl in *. injection Ht as ->.
  destruct (Hf s' eq_refl eq_refl) as [Hrow Hc]. constructor; try done.
  exists s. split; [|done]. apply In_snoc. auto.
Qed.

Lemma tx_true (f : store -> bool * store) w :
  (tx (fun s => Ok (f s)) w).1 = Ok true ->
  exists s', f (run_admins (e_admin (w_tick w)) (w_store w)) = (true, s').
Proof. unfold tx. destruct (f _) as [b s']. simpl. intros [= ->]. by exists s'. Qed.

Lemma lookup_names read cat tool op o : lookup read cat tool op = Some o -> o_tool o = tool /\ o_op o = op.
Proof.
  unfold lookup. destruct (dget cat tool) as [e|]; simpl; [|done].
  destruct (dget (en_ops e) op) as [m|]; simpl; [|done].
  destruct (read _); simpl; [|done]. case_match; [|done]. by intros [= <-].
Qed.

(** *** submit *)

Record ready (r : request_row) (w : world) : Prop := {
  rd_good : good w;
  rd_fresh : execs (r_id r) (w_trace w) = 0%nat;
  rd_row : request (r_id r) (w_store w) = Some r;
  rd_received : r_status r = received }.

Lemma ready_mild r w w' : mild_step w w' -> ready r w -> ready r w'.
Proof.
  intros [G E F S] [Hg Hf Hr Hst]. constructor; [auto | by rewrite E | | done].
  destruct (ge_old _ _ F _ _ Hr) as (r' & Hr' & _ & _ & Eq & _). rewrite Hr'. f_equal. apply Eq. by rewrite Hst.
Qed.

(** Steps that execute nothing, from a ready row. *)
Lemma ready_bind {A B} r (m : M A) (f : A -> M B) w :
  mild m -> ready r w -> (forall a, ready r (m w).2 -> (m w).1 = Ok a -> good (f a (m w).2).2) ->
  good ((m ≫= f) w).2.
Proof.
  intros Hm Hr Hf. pose proof (ready_mild _ _ _ (Hm w) Hr) as Hr'.
  apply good_bind; [apply Hr' |]. intros a _ Ha. by apply Hf.
Qed.

(** The request was reserved for this action. *)
Record reserved_for (r : request_row) (tool op : string) (arguments : json) : Prop := {
  rf_tool : r_tool r = tool;
  rf_op : r_op r = op;
  rf_args : r_arguments_json r = Some (canonical_text arguments);
  rf_wf : json_wf arguments }.

Lemma claim_received_certificate r tool op args now k current w s' o :
  reserved_for r tool op args -> ready r w ->
  (forall o, current = Some o -> o_tool o = tool /\ o_op o = op) -> current = Some o ->
  let s := run_admins (e_admin (w_tick w)) (w_store w) in
  claim_received now (r_id r) (o_generation <$> current) k (r_request_digest r) s = (true, s') ->
  (exists r', request (r_id r) s' = Some r' /\ r_status r' = executing) /\ certificate s (r_id r) o args.
Proof.
  intros [Ht Ho Ha Hw] [Hg Hf Hr Hst] Hcur -> s Hc.
  destruct (claim_received_true _ _ _ _ _ _ _ Hc) as (r' & gen & Hgen & Hr' & Hst' & _ & Hau & ->).
  assert (request (r_id r) s = Some r) as Hrs by (apply run_admins_in_flight; [done | by rewrite Hst]).
  rewrite Hrs in Hr'. injection Hr' as <-. injection Hgen as <-.
  destruct (Hcur o eq_refl) as [Hot Hoo]. split.
  - exists (r_mark executing now r). split; [|done]. by apply (request_set (r_id r) (r_mark executing now)).
  - pose proof (au_action _ _ _ _ _ Hau) as (aj & a & arguments & Haj & Hla & Hlargs & _ & _ & Hcan).
    constructor. exists r, k, ALLOW, a. split; [done |]. split; [done |].
    split; [congruence |]. split; [congruence |]. split.
    + rewrite Haj. unfold text_or_null. by destruct (PyStr.empty aj) eqn:E; [destruct aj |].
    + split; [|by left]. rewrite Ha, text_or_null_canonical, loads_canonical in Hlargs by done.
      injection Hlargs as <-. rewrite <- Hcan. unfold canonical_text. by rewrite norm_idem.
Qed.

Lemma good_open_approval x r k tool op o args corr w :
  ready r w -> good (_open_approval x (r_id r) k tool op o args corr w).2.
Proof.
  intros Hr. unfold _open_approval. cbv zeta.
  assert (forall error c e out rid d (z : outcome) w, good w ->
    good ((_ ← set_status (r_id r) failed error; _ ← record c e out corr rid d; mret z) w).2) as Hend.
  { intros error c e out rid d z w0 Hg. apply (goods_bind (set_status (r_id r) failed error)); [by apply goods_terminal | | done].
    intros _. apply mild_goods, mild_bind; [apply mild_record | intros; apply mild_ret]. }
  destruct (negb (x_surface x)); [apply Hend, Hr |].
  eapply ready_bind; [apply mild_query | done |]. intros req Hr1 _.
  destruct req as [row|]; [|apply Hr1].
  eapply ready_bind; [apply mild_lift | done |]. intros details Hr2 _.
  eapply ready_bind; [apply mild_query | done |]. intros inst Hr3 _.
  eapply ready_bind; [apply mild_attempt, mild_open | done |]. intros opened Hr4 _.
  destruct opened as [ref|e]; [|apply Hend, Hr4].
  eapply ready_bind; [apply mild_time | done |]. intros now Hr5 _.
  eapply ready_bind; [apply mild_time | done |]. intros created Hr6 _.
  eapply ready_bind; [| done |].
  { apply mild_tx. intros s a s'. unfold create_approval. destruct (request (r_id r) s); [|done].
    intros [= _ <-]. apply gentle_same; [done | apply rw_append]. }
  intros _ Hr7 _. apply good_bind; [apply good_set_status; [apply Hr7 | right; apply Hr7] |].
  intros _ Hg _. apply (mild_goods (_ ← record _ _ _ _ _ _; mret _)); [|done].
  apply mild_bind; [apply mild_record | intros; apply mild_ret].
Qed.

Lemma good_decide_and_run x k tool op o args corr r w :
  reserved_for r tool op (JObj args) -> ready r w ->
  good (decide_and_run x k tool op o args corr r w).2.
Proof.
  intros Hrf Hr. unfold decide_and_run. cbv zeta.
  eapply ready_bind; [apply mild_query | done |]. intros p Hr1 _.
  destruct (bool_decide (decide_op p tool op = DENY)).
  { apply (goods_bind (set_status (r_id r) denied None)); [by apply goods_terminal | | apply Hr1].
    intros _. apply mild_goods, mild_bind; [apply mild_record | intros; apply mild_ret]. }
  destruct (if is_rest o then _ else _) as [detail|].
  { apply (goods_bind (set_status (r_id r) invalid _)); [by apply goods_terminal | | apply Hr1].
    intros _. apply mild_goods, mild_ret. }
  destruct (bool_decide (decide_op p tool op = REVIEW)).
  { eapply ready_bind; [apply mild_record | done |]. intros _ Hr2 _. by apply good_open_approval. }
  eapply ready_bind; [apply mild_record | done |]. intros _ Hr2 _.
  eapply ready_bind; [apply (mild_find_op x tool op) | done |]. intros current Hr3 Hcur.
  assert (forall o', current = Some o' -> o_tool o' = tool /\ o_op o' = op) as Hnames.
  { unfold find_op, read_files, mbind, M_bind in Hcur. simpl in Hcur. injection Hcur as <-.
    intros o'. apply lookup_names. }
  eapply ready_bind; [apply mild_time | done |]. intros now Hr4 _.
  set (f := claim_received now (r_id r) (o_generation <$> current) (Some k) (r_request_digest r)).
  match goal with |- good ((mbind ?g (tx ?h)) ?w0).2 =>
    assert (good (tx h w0).2) as Hgood; [|set (w1 := w0) in *] end.
  { apply (good_claim f (ClaimReceived now (r_id r) (o_generation <$> current) (Some k) (r_request_digest r)));
      [done | done | intros; by apply claim_received_rows | apply Hr4]. }
  apply good_bind; [done |]. intros won _ Hwon.
  destruct won; simpl negb; cbv iota; [|by apply (mild_goods _ (mild_current_outcome _ _))].
  apply good_execute_request; [|done]. intros o' Ho'.
  eapply (claimed_tx f); [done | apply Hr4 | | done].
  intros s s' -> Hs. eapply (claim_received_certificate r tool op (JObj args)); eauto.
Qed.

Lemma reserve_row now nonce k corr tool op args reason gen key s row conflict s1 :
  reserve_action now nonce k corr tool op args reason gen key s = Ok (row, true, conflict, s1) ->
  json_wf args -> reserved_for row tool op args /\ args_ok row.
Proof.
  unfold reserve_action. intros Hr Hw. inv_bind. destruct a1 as [action binding].
  inv_bind. destruct (a ≫= _) as [prior|]; [by inv_bind; simplify_eq |]. simplify_eq.
  match goal with H : canonical args = Ok ?t |- _ => apply canonical_ok in H as [_ ->] end.
  split; [by constructor |]. intros _. eexists. split; [done |]. by apply canonical_text_nonempty.
Qed.

Lemma mild_reserve now nonce k corr tool op args reason gen key :
  json_wf args -> mild (tx (reserve_action now nonce k corr tool op args reason gen key)).
Proof.
  intros Hw. apply mild_tx. intros s [[row created] conflict] s' Hres.
  pose proof Hres as Hc. apply reserve_created in Hc as [(-> & -> & _) | (-> & -> & -> & Hid & _)];
    [apply gentle_refl |].
  destruct (reserve_row _ _ _ _ _ _ _ _ _ _ _ _ _ _ Hres Hw) as [_ Hok]. constructor.
  - intros id r Hr. exists r. rewrite request_app, Hr. split; [done |]. split; [lia |]. by repeat split.
  - intros id r'. rewrite request_app. intros ->. by case_match; [intros [= <-] |].
  - intros id a Ha. exists a. by repeat split.
Qed.

(** A created reservation leaves a ready row. *)
Lemma ready_reserved now nonce k corr tool op args reason gen key w row conflict :
  json_wf args -> good w ->
  (tx (reserve_action now nonce k corr tool op args reason gen key) w).1 = Ok (row, true, conflict) ->
  ready row (tx (reserve_action now nonce k corr tool op args reason gen key) w).2
  /\ reserved_for row tool op args.
Proof.
  intros Hw Hg. pose proof (ms_good _ _ (mild_reserve now nonce k corr tool op args reason gen key Hw w) Hg) as Hg'.
  unfold tx in *. set (s := run_admins _ _) in *.
  destruct (reserve_action now nonce k corr tool op args reason gen key s) as [[[[row' c] cf] s']|e] eqn:E; [|done].
  simpl in *. intros [= -> -> ->]. pose proof E as Hc.
  apply reserve_created in Hc as [(? & _) | (_ & -> & -> & Hid & Hst & _)]; [done |].
  split; [|by destruct (reserve_row _ _ _ _ _ _ _ _ _ _ _ _ _ _ E Hw)].
  assert (request (r_id row) s = None) as Hnone by (apply request_None; rewrite Hid; apply next_id_not_in).
  constructor; [done | | | done].
  - simpl. destruct (execs (r_id row) (w_trace w)) as [|n] eqn:Ex; [done |].
    pose proof (g_stage _ Hg (r_id row)) as Hs. pose proof (gentle_stage _ _ (r_id row) (gentle_admins (e_admin (w_tick w)) (w_store w))) as Hge.
    fold s in Hge. unfold stage_of in Hge at 2. rewrite Hnone in Hge. lia.
  - simpl. by rewrite request_app, Hnone, Z.eqb_refl.
Qed.

Lemma good_after_reserve x k tool op found args corr reason key reserved w :
  good w ->
  (forall row conflict, reserved = Ok (row, true, conflict) -> ready row w /\ reserved_for row tool op (JObj args)) ->
  good (after_reserve x k tool op found args corr reason key reserved w).2.
Proof.
  intros Hg Hr. unfold after_reserve. destruct reserved as [[[row created] conflict]|e].
  2: { by destruct e. }
  cbv zeta. destruct conflict; [done |]. destruct created; simpl negb; cbv iota.
  2: { apply (mild_goods (a ← query _; out ← lift (_outcome_from_request row a); mret (with_reused out))); [|done].
       apply mild_bind; [apply mild_query |]. intros a. apply mild_bind; [apply mild_lift | intros; apply mild_ret]. }
  destruct (Hr row false eq_refl) as [Hready Hrf]. destruct found as [o|].
  - eapply ready_bind; [apply mild_record | done |]. intros _ Hr1 _. by apply good_decide_and_run.
  - apply (goods_bind (set_status (r_id row) not_found None)); [by apply goods_terminal | | done].
    intros _. apply mild_goods, mild_ret.
Qed.

Lemma good_submit x k tool op arguments corr reason key w :
  json_wf arguments -> good w -> good (submit x k tool op arguments corr reason key w).2.
Proof.
  intros Hw Hg. unfold submit. destruct (validate_idempotency_key key); [|done].
  apply good_bind; [|intros; done]. unfold _submit.
  apply good_bind; [by apply (mild_goods _ (mild_sweep x)) |]. intros _ Hg1 _.
  apply good_bind; [by apply (mild_goods _ (mild_find_op x tool op)) |]. intros found Hg2 _.
  destruct (bool_decide (found = None) && is_null key).
  { apply (mild_goods (_ ← record _ _ _ _ _ _; mret _)); [|done].
    apply mild_bind; [apply mild_record | intros; apply mild_ret]. }
  destruct arguments as [| | | | | |args]; try exact Hg2.
  destruct (clean_reason reason) as [reason'|]; [|exact Hg2].
  apply good_bind; [by apply (mild_goods _ mild_time) |]. intros now Hg3 _.
  apply good_bind; [by apply (ms_good _ _ (mild_tick _)) |]. intros nonce Hg4 _.
  set (f := reserve_action now nonce k corr tool op (JObj args) reason' _ key).
  apply good_bind; [by apply (mild_goods _ (mild_attempt _ (mild_reserve _ _ _ _ _ _ _ _ _ _ Hw))) |].
  intros reserved Hg5 Hres. apply good_after_reserve; [done |].
  intros row conflict ->. unfold attempt in *.
  pose proof (ready_reserved now nonce k corr tool op (JObj args) reason'
    (match found with Some o => o_generation o | None => EmptyString end) key _ row conflict Hw Hg4) as Hready.
  fold f in Hready. destruct (tx f _) as [r w1] eqn:E. simpl in *. injection Hres as ->. by apply Hready.
Qed.

(** *** resolve_request *)

(** The request was read as [r], parked with an approval shown under [ref]; it
    may have been closed since. *)
Record parked (r : request_row) (ref : string) (w : world) : Prop := {
  pk_good : good w;
  pk_args : args_ok r;
  pk_row : exists r', request (r_id r) (w_store w) = Some r' /\ 1 <= stage (r_status r')
    /\ (r_status r' = pending_approval -> r' = r);
  pk_approval : exists a, approval_for_request (r_id r) (w_store w) = Some a /\ a_surface_ref a = ref }.

Lemma parked_gentle r s s' :
  gentle s s' ->
  (exists r', request (r_id r) s = Some r' /\ 1 <= stage (r_status r') /\ (r_status r' = pending_approval -> r' = r)) ->
  exists r', request (r_id r) s' = Some r' /\ 1 <= stage (r_status r') /\ (r_status r' = pending_approval -> r' = r).
Proof.
  intros G (r1 & E1 & S1 & P1). destruct (ge_old _ _ G _ _ E1) as (r2 & E2 & S2 & _ & _ & P2 & _).
  exists r2. split; [done |]. split; [lia |]. intros Hp.
  assert (r_status r1 = pending_approval) as Hp1.
  { apply stage_pending. rewrite Hp in S2. simpl in S2. lia. }
  rewrite (P2 Hp1 Hp). auto.
Qed.

Lemma parked_mild r ref w w' : mild_step w w' -> parked r ref w -> parked r ref w'.
Proof.
  intros [G E F S] [Hg Ha Hr (a & Hap & Href)]. constructor; [auto | done | by eapply parked_gentle |].
  destruct (ge_approval _ _ F _ _ Hap) as (a' & Ha' & _ & _ & Hr' & _). exists a'. split; [done | congruence].
Qed.

Lemma parked_bind {A B} r ref (m : M A) (f : A -> M B) w :
  mild m -> parked r ref w -> (forall a, parked r ref (m w).2 -> (m w).1 = Ok a -> good (f a (m w).2).2) ->
  good ((m ≫= f) w).2.
Proof.
  intros Hm Hr Hf. pose proof (parked_mild _ _ _ _ (Hm w) Hr) as Hr'.
  apply good_bind; [apply Hr' |]. intros a _ Ha. by apply Hf.
Qed.

Lemma stored_arguments_bound r v : args_ok r -> r_action_json r <> None ->
  loads (text_or_null (r_arguments_json r)) = Ok v -> stored_arguments r = Ok v.
Proof.
  intros Ha Hn. destruct (Ha Hn) as (t & Ht & He). unfold stored_arguments, text_or_null. by rewrite Ht, He.
Qed.

Lemma claim_approval_certificate r ref now k current state polled tick w s' o :
  parked r ref w ->
  (forall o, current = Some o -> o_tool o = r_tool r /\ o_op o = r_op r) -> current = Some o ->
  e_poll tick ref = Ok polled -> ss_outcome polled = so_approved ->
  let s := run_admins (e_admin (w_tick w)) (w_store w) in
  claim_approval (r_id r) (o_generation <$> current) state now k s = (true, s') ->
  (exists r', request (r_id r) s' = Some r' /\ r_status r' = executing)
  /\ exists args, stored_arguments r = Ok args /\ certificate s (r_id r) o args.
Proof.
  intros [Hg Hargs Hrow Hap] Hcur -> Hpoll Hout s Hc.
  pose proof (gentle_admins (e_admin (w_tick w)) (w_store w)) as G. fold s in G.
  destruct (claim_approval_true _ _ _ _ _ _ _ Hc)
    as (r' & ap & gen & Hgen & Hr' & Hst & Ha & Hast & _ & Hdig & Hau & ->).
  destruct (parked_gentle r _ _ G Hrow) as (r2 & E2 & _ & P2). rewrite Hr' in E2. injection E2 as <-.
  specialize (P2 Hst). subst r'. injection Hgen as <-. destruct (Hcur o eq_refl) as [Hot Hoo].
  pose proof (au_action _ _ _ _ _ Hau) as (aj & a & arguments & Haj & Hla & Hlargs & _ & _ & Hcan).
  split.
  { exists (r_mark executing now r). split; [|done]. by apply (request_set (r_id r) (r_mark executing now)). }
  exists arguments. split; [apply stored_arguments_bound; [done | by rewrite Haj | done] |].
  destruct Hap as (a0 & Ha0 & Href). destruct (ge_approval _ _ G _ _ Ha0) as (a1 & Ha1 & _ & _ & Href1 & _).
  rewrite Ha in Ha1. injection Ha1 as <-.
  constructor. exists r, k, REVIEW, a. repeat (split; [done |]). split.
  { rewrite Haj. unfold text_or_null. by destruct (PyStr.empty aj) eqn:E; [destruct aj |]. }
  split; [done |]. right. split; [done |]. split; [done |]. exists ap, tick, polled.
  rewrite Href1, Href. done.
Qed.

Lemma good_on_approved x r state now k polled tick ref w :
  parked r ref w -> e_poll tick ref = Ok polled -> ss_outcome polled = so_approved ->
  good (on_approved x r state now k w).2.
Proof.
  intros Hp Hpoll Hout. unfold on_approved. cbv zeta.
  eapply parked_bind; [apply (mild_find_op x (r_tool r) (r_op r)) | done |]. intros current Hp1 Hcur.
  assert (forall o', current = Some o' -> o_tool o' = r_tool r /\ o_op o' = r_op r) as Hnames.
  { unfold find_op, read_files, mbind, M_bind in Hcur. simpl in Hcur. injection Hcur as <-.
    intros o'. apply lookup_names. }
  eapply parked_bind; [apply mild_time | done |]. intros t Hp2 _.
  set (f := claim_approval (r_id r) (o_generation <$> current) state (Z.max now t) k).
  match goal with |- good ((mbind ?g (tx ?h)) ?w0).2 =>
    assert (good (tx h w0).2) as Hgood; [|set (w1 := w0) in *] end.
  { apply (good_claim f (ClaimApproval (Z.max now t) (r_id r) (o_generation <$> current) state k));
      [done | done | intros; by apply claim_approval_rows | apply Hp2]. }
  apply good_bind; [done |]. intros won _ Hwon.
  destruct won; simpl negb; cbv iota; [|by apply (mild_goods _ (mild_current_outcome _ _))].
  set (w2 := (tx (fun s => Ok (f s)) w1).2) in *.
  assert (forall o args, current = Some o -> stored_arguments r = Ok args -> claimed (r_id r) o args w2) as Hcl.
  { intros o args Ho Hsa. eapply (claimed_tx f); [done | | | done].
    - destruct (execs (r_id r) (w_trace w1)) as [|n] eqn:Ex; [done |].
      destruct (tx_true f w1 Hwon) as [s' Ef].
      destruct (claim_approval_true _ _ _ _ _ _ _ Ef) as (r' & ap & gen & _ & Hr' & Hst & _).
      pose proof (g_stage _ (pk_good _ _ _ Hp2) (r_id r)) as Hs. rewrite Ex in Hs.
      pose proof (gentle_stage _ _ (r_id r) (gentle_admins (e_admin (w_tick w1)) (w_store w1))) as Hge.
      unfold stage_of in Hge at 2. rewrite Hr', Hst in Hge. change (stage pending_approval) with 1 in Hge. lia.
    - intros s s' -> Hs.
      destruct (claim_approval_certificate r ref _ k current state polled tick w1 s' o Hp2 Hnames Ho Hpoll Hout Hs)
        as [Hrow (args' & Hsa' & Hcert)].
      rewrite Hsa in Hsa'. injection Hsa' as <-. done. }
  clearbody w2.
  apply good_bind; [by apply (mild_goods _ (mild_record _ _ _ _ _ _)) |]. intros _ Hg3 _.
  match goal with |- good ((mbind _ _) ?w0).2 => assert (mild_step w2 w0) as Hm3 by apply mild_record end.
  apply good_bind; [done |]. intros args Hg4 Hargs. simpl in Hargs.
  apply good_bind; [by apply (mild_goods _ (mild_query _)) |]. intros name Hg5 _.
  apply good_bind; [|intros; done]. apply good_execute_request; [|done].
  intros o Ho. eapply claimed_mild; [eapply mild_trans; [exact Hm3 |]; apply mild_query |]. by apply Hcl.
Qed.

Lemma mild_on_rejected r state now : mild (on_rejected r state now).
Proof.
  apply mild_bind; [apply mild_time |]. intros t.
  apply mild_bind; [by apply mild_finish_pending |]. intros [|]; [|apply mild_current_outcome].
  apply mild_bind; [apply mild_query |]. intros current. apply mild_bind; [apply mild_query |]. intros row.
  destruct row as [row|], current as [current|]; try apply mild_throw.
  apply mild_bind; [apply mild_lift |]. intros out.
  apply mild_bind; [apply mild_record |]. intros _. apply mild_ret.
Qed.

Lemma mild_on_withdrawn r state now : mild (on_withdrawn r state now).
Proof.
  apply mild_bind; [apply mild_time |]. intros t.
  apply mild_bind; [by apply mild_finish_pending |]. intros [|]; [|apply mild_current_outcome].
  apply mild_bind; [apply mild_record |]. intros _. apply mild_current_outcome.
Qed.

Lemma query_value {A} (f : store -> A) w v : (query f w).1 = Ok v -> v = f (w_store (query f w).2).
Proof. unfold query, tx. simpl. by intros [= <-]. Qed.

Lemma mild_if_surface (b : bool) : mild (if b then mret tt else throw AttributeError : M unit).
Proof. destruct b; [apply mild_ret | apply mild_throw]. Qed.

Lemma good_resolve_request x id k w : good w -> good (resolve_request x id k w).2.
Proof.
  intros Hg. unfold resolve_request.
  apply good_bind; [by apply (mild_goods _ mild_time) |]. intros now Hg1 _.
  apply good_bind; [by apply (mild_goods _ (mild_query _)) |]. intros req Hg2 Hreq.
  apply query_value in Hreq. destruct req as [r|]; [|exact Hg2].
  match goal with |- good ((mbind _ _) ?w0).2 => set (w1 := w0) in *; clearbody w1 end.
  symmetry in Hreq. pose proof (request_id_eq _ _ _ Hreq) as Hid.
  apply good_bind; [by apply (mild_goods _ (mild_query _)) |]. intros a Hg3 Ha.
  apply query_value in Ha. pose proof (mild_query (approval_for_request id) w1) as Hm.
  set (w2 := (query (approval_for_request id) w1).2) in *. clearbody w2.
  destruct (is_status (r_status r) pending_approval) eqn:Est; simpl negb; cbv iota; [|done].
  destruct a as [a|]; [|exact Hg3].
  assert (parked r (a_surface_ref a) w2) as Hp.
  { constructor; [done | by eapply (g_rows _ Hg2) | |].
    - eapply parked_gentle; [apply Hm |]. exists r. rewrite Hid. split; [done |].
      unfold is_status in Est. to_prop. rewrite Est. simpl. split; [lia | done].
    - exists a. by rewrite Hid. }
  destruct (a_expires_at a <=? now).
  { apply (mild_goods (_ ← _expire_approval x id (a_surface_ref a) (r_tool r) (r_op r) (r_correlation_id r) now;
      current_outcome id true)); [|done].
    apply mild_bind; [apply mild_expire | intros; apply mild_current_outcome]. }
  eapply parked_bind; [apply mild_if_surface | done |]. intros _ Hp1 _.
  eapply parked_bind; [apply mild_poll | done |]. intros polled Hp2 Hpoll.
  cbv zeta. unfold surface_poll in Hpoll. simpl in Hpoll.
  eapply parked_bind; [apply mild_time | done |]. intros t Hp3 _.
  eapply parked_bind; [apply mild_query | done |]. intros cr Hp4 _.
  eapply parked_bind; [apply mild_query | done |]. intros ca Hp5 _.
  destruct cr as [cr|]; [|apply Hp5]. destruct ca as [ca|]; [|apply Hp5].
  destruct (negb _ || negb _); [apply Hp5 |].
  destruct (a_expires_at ca <=? _).
  { apply (mild_goods (_ ← _expire_approval x id (a_surface_ref ca) (r_tool r) (r_op r) (r_correlation_id r) (Z.max now t);
      current_outcome id true)); [|apply Hp5].
    apply mild_bind; [apply mild_expire | intros; apply mild_current_outcome]. }
  eapply parked_bind; [| done |].
  { destruct (ss_outcome (redact_note polled)); try apply mild_ret;
      (apply mild_bind; [apply mild_record | intros; apply mild_ret]). }
  intros _ Hp6 _. destruct (ss_outcome (redact_note polled)) eqn:Eo.
  - apply (mild_goods _ (mild_current_outcome id true)), Hp6.
  - eapply good_on_approved; [exact Hp6 | exact Hpoll | exact Eo].
  - apply (mild_goods _ (mild_on_rejected r _ now)), Hp6.
  - apply (mild_goods _ (mild_on_withdrawn r _ now)), Hp6.
  - apply (mild_goods _ (mild_on_withdrawn r _ now)), Hp6.
Qed.

Definition start (s : store) : world := World s [] 0 [] [].

Lemma good_start s : rows_ok s -> good (start s).
Proof. intros Hr. constructor; simpl; unfold execs; simpl; try done; lia. Qed.

(** ** Retries *)

Definition keyed (c : Z) (key : string) (s : store) : Prop :=
  exists r, request (r_id r) s = Some r /\ r_caller_id r = c /\ r_key r = Some key.

Lemma keyed_gentle c key s s' : gentle s s' -> keyed c key s -> keyed c key s'.
Proof.
  intros G (r & Hr & Hc & Hk). destruct (ge_old _ _ G _ _ Hr) as (r' & Hr' & _ & _ & _ & _ & I).
  destruct I as (Hid & Hc' & _ & _ & Hk' & _). exists r'. split; [congruence |]. split; congruence.
Qed.

Lemma keyed_select c key s : keyed c key s -> select1 (by_key c key) (s_requests s) <> None.
Proof.
  intros (r & Hr & Hc & Hk) Hn. apply select1_Some in Hr as [Hin _].
  pose proof (select1_None _ _ Hn r Hin) as Hb. unfold by_key in Hb.
  rewrite Hc, Z.eqb_refl in Hb. by rewrite bool_decide_eq_true_2 in Hb.
Qed.

Lemma mild_after_reserve x k tool op found args corr reason key reserved :
  (forall row conflict, reserved <> Ok (row, true, conflict)) ->
  mild (after_reserve x k tool op found args corr reason key reserved).
Proof.
  intros Hr. unfold after_reserve. destruct reserved as [[[row created] conflict]|e].
  2: { destruct e; apply mild_ret || apply mild_throw. }
  cbv zeta. destruct conflict; [apply mild_ret |].
  destruct created; [by destruct (Hr row false) |]. simpl.
  apply mild_bind; [apply mild_query |]. intros a. apply mild_bind; [apply mild_lift | intros; apply mild_ret].
Qed.

(** C8. A retry never acts: once a row carries an idempotency key of the
    caller, no submission under that key calls the runtime, whatever its tool,
    operation and arguments are and whatever happened to the row (pruning and
    pending approvals included). *)
Theorem keyed_retry_never_executes (x : ctx) (k : caller) (tool op : string) (arguments : json)
    (corr : string) (reason : json) (key : string) (w : world) (id : Z) :
  json_wf arguments -> keyed (k_id k) key (w_store w) ->
  execs id (w_trace (submit x k tool op arguments corr reason (JStr key) w).2) = execs id (w_trace w).
Proof.
  intros Hw Hk. unfold submit. destruct (validate_idempotency_key (JStr key)) as [o|] eqn:Ev; [|done].
  assert (o = Some key) as -> by (simpl in Ev; by case_match; simplify_eq).
  assert (mild_step w (_submit x k tool op arguments corr reason (JStr key) w).2) as Hm.
  2: { unfold mbind, M_bind. destruct (_submit x k tool op arguments corr reason (JStr key) w) as [[out|e] w'];
       apply (ms_execs _ _ Hm). }
  assert (forall {A B} (m : M A) (f : A -> M B) w, mild m -> keyed (k_id k) key (w_store w) ->
    (forall a w', keyed (k_id k) key (w_store w') -> (m w).1 = Ok a -> mild_step w' (f a w').2) ->
    mild_step w ((m ≫= f) w).2) as Hbind.
  { intros A B m f w0 Hmm Hk0 Hf. specialize (Hmm w0). unfold mbind, M_bind.
    destruct (m w0) as [[a|e] w1]; [|done]. eapply mild_trans; [exact Hmm |]. apply Hf; [|done].
    by eapply keyed_gentle; [apply Hmm |]. }
  unfold _submit. apply Hbind; [apply mild_sweep | done |]. intros _ w1 Hk1 _.
  apply Hbind; [apply mild_find_op | done |]. intros found w2 Hk2 _.
  destruct (bool_decide (found = None) && is_null (JStr key)) eqn:E; [by rewrite andb_false_r in E |].
  destruct arguments as [| | | | | |args]; try apply mild_refl.
  destruct (clean_reason reason) as [reason'|]; [|apply mild_refl].
  apply Hbind; [apply mild_time | done |]. intros now w3 Hk3 _.
  apply Hbind; [intros w4; apply mild_tick | done |]. intros nonce w4 Hk4 _.
  unfold mbind, M_bind, attempt.
  set (f := reserve_action now nonce k corr tool op (JObj args) reason' _ (JStr key)).
  pose proof (mild_reserve now nonce k corr tool op (JObj args) reason'
    (match found with Some o => o_generation o | None => EmptyString end) (JStr key) Hw w4) as Hmr.
  fold f in Hmr. destruct (tx f w4) as [reserved w5] eqn:Et. simpl in Hmr.
  eapply mild_trans; [exact Hmr |]. apply mild_after_reserve. intros row conflict ->.
  unfold tx in Et. destruct (f _) as [[[[row' c] cf] s']|e] eqn:Ef; [|done]. injection Et as -> -> -> <-.
  apply reserve_created in Ef as [(? & _) | (_ & _ & _ & _ & _ & _ & _ & Hv & Hfree)]; [done |].
  rewrite Ev in Hv. injection Hv as Hv. symmetry in Hv.
  eapply keyed_select; [|by apply Hfree]. eapply keyed_gentle; [apply gentle_admins | done].
Qed.

(** ** The end of an execution *)

Definition settled (st : req_status) (id : Z) (s : store) : Prop :=
  exists r, request id s = Some r /\ (r_status r = st \/ st = completed /\ r_status r = result_expired)
    /\ r_arguments_json r = None /\ r_action_json r = None.

Lemma settled_admin st id s o : terminal st = true -> settled st id s -> settled st id (run_admin o s).
Proof.
  intros Ht (r & Hr & Hst & Ha & Hact). pose proof (run_admin_rewrites o s id) as Hw. rewrite Hr in Hw.
  simpl in Hw. destruct (request id (run_admin o s)) as [r'|] eqn:E; [|done]. exists r'. split; [done |].
  destruct Hw as [-> | st' err now Hp _ _ | now Hp ->]; [done | |].
  - destruct Hst as [<- | [-> Hre]]; [by rewrite Hp in Ht | by rewrite Hp in Hre].
  - simpl. split; [|done]. unfold is_status. case_bool_decide as Ec; [|done].
    rewrite Ec in Hst. destruct Hst as [<- | [_ ?]]; [by right | done].
Qed.

Lemma settled_admins st id os s : terminal st = true -> settled st id s -> settled st id (run_admins os s).
Proof.
  intros Ht. revert s. induction os as [|o os IH]; simpl; [done |]. intros s Hs. by apply IH, settled_admin.
Qed.

Lemma settled_record st id c e out corr rid d w :
  terminal st = true -> settled st id (w_store w) -> settled st id (w_store (record c e out corr rid d w).2).
Proof. intros Ht Hs. exact (settled_admins st id (e_admin (S (w_tick w))) _ Ht Hs). Qed.

Lemma settles_update now id st result error w r :
  terminal st = true -> request id (w_store w) = Some r ->
  settled st id (w_store (update (update_request now id (status_fields st result error)) w).2).
Proof.
  intros Ht Hr. unfold update, tx. simpl.
  destruct (run_admins_some (e_admin (w_tick w)) _ _ _ Hr) as (r1 & Hr1 & _).
  exists (apply_fields (effective_fields (status_fields st result error)) now r1).
  rewrite request_update_request, Hr1. simpl. rewrite (request_id_eq _ _ _ Hr1), Z.eqb_refl.
  split; [done |]. unfold effective_fields. simpl. rewrite Ht. simpl. split; [by left | done].
Qed.

(** The answer of the runtime decides the outcome and the final status. *)
Definition verdict (answer : res json) : ostatus * req_status :=
  match answer with
  | Ok _ => (OK, completed)
  | Raise NotDispatched => (FAILED, failed)
  | Raise _ => (UNKNOWN, unknown)
  end.

(** C9. An execution always settles: called on an executing row with its
    claimed operation, [execute_request] returns an outcome that tells exactly
    what the runtime answered (success with its result, failure only with
    positive evidence that nothing was dispatched, otherwise an unknown
    outcome), and the row is then terminal with its private columns cleared,
    whatever other processes did meanwhile. *)
Theorem execution_settles (id : Z) (tool op corr : string) (args : json) (name : option string)
    (o : tool_op) (w : world) (r : request_row) :
  request id (w_store w) = Some r -> r_status r = executing ->
  let answer := e_execute (w_tick w + 3) o args id name in
  exists out w', execute_request id tool op args corr name (Some o) w = (Ok out, w')
    /\ z_status out = (verdict answer).1 /\ z_request_id out = Some id
    /\ z_result out = match answer with Ok v => v | Raise _ => JNull end
    /\ settled (verdict answer).2 id (w_store w').
Proof.
  intros Hr Hst answer.
  assert (is_status (r_status r) executing = true) as Hex by (unfold is_status; by rewrite Hst).
  assert (in_flight (r_status r) = true) as Hfl by (by rewrite Hst).
  pose proof (run_admins_in_flight (e_admin (w_tick w)) _ _ _ Hr Hfl) as Hr1.
  unfold execute_request.
  rewrite (bind_ok (query (request id)) _ _ (Some r) (query (request id) w).2)
    by (unfold query, tx; simpl; by rewrite Hr1).
  cbv beta iota. rewrite Hex. cbv beta iota delta [negb]. set (w1 := (query (request id) w).2).
  assert (exists i w2, record "runtime" "execution_started" "accepted" corr (Some id) (tool_details tool op []) w1
    = (Ok i, w2) /\ request id (w_store w2) = Some r /\ w_tick w2 = (w_tick w + 3)%nat) as (i & w2 & Hrec & Hr2 & Htick).
  { do 2 eexists. split; [reflexivity |]. split; [|simpl; lia].
    exact (run_admins_in_flight (e_admin (S (S (w_tick w)))) _ _ _ Hr1 Hfl). }
  rewrite (bind_ok _ _ _ _ _ Hrec). cbv beta.
  rewrite (bind_ok (attempt (runtime_execute o args id name)) _ w2 answer (runtime_execute o args id name w2).2)
    by (unfold attempt, runtime_execute; rewrite Htick; done).
  set (w3 := (runtime_execute o args id name w2).2).
  assert (request id (w_store w3) = Some r) as Hr3 by done. clearbody w3.
  assert (forall st c ev txt d (z : outcome) result error, terminal st = true ->
    exists w', ((now ← time; update (update_request now id (status_fields st result error))) ≫=
      (fun _ => _ ← record c ev txt corr (Some id) d; mret z)) w3 = (Ok z, w') /\ settled st id (w_store w')) as Hend.
  { intros st c ev txt d z result error Ht.
    pose proof (settles_update (e_time (w_tick w3)) id st result error (step w3) r Ht Hr3) as Hs.
    eapply (settled_record st id c ev txt corr (Some id) d) in Hs; [|done].
    eexists. split; [|exact Hs]. reflexivity. }
  unfold finish_execution, set_status, complete. destruct answer as [v|e]; [|destruct e].
  all: edestruct Hend as (w' & Hrun & Hset);
    [| eexists _, w'; split; [exact Hrun |]; repeat split; exact Hset]; done.
Qed.
End Facts.

(** ** A concrete deployment *)

#[local] Existing Instance echo_digest.
#[local] Existing Instance w_manifests.

#[local] Instance w_env : Env := {|
  e_time := fun n => Z.of_nat n; e_uuid := fun n => str_of_Z (Z.of_nat n); e_nonce := fun n => "nonce"%string;
  e_admin := fun n => if (n =? 9)%nat then [RevokeToken 9 "bb"] else [];
  e_read := fun _ => w_read;
  e_open := fun _ _ => Ok "ref"%string;
  e_poll := fun _ _ => Ok (SurfaceState so_approved (Some "alice"%string) None None);
  e_cancel := fun _ _ => Ok tt;
  e_execute := fun _ _ _ _ _ => Ok (JObj [("done"%string, JBool true)]);
  py_str := dumps |}.

Definition w_ctx : ctx := Ctx w_catalog true 1000 (Some 60) None 1000.

Definition w_mail_args : json := JObj [("body"%string, JStr "hi")].

Lemma keyed_retry_never_executes_witness :
  execs 1 (w_trace (submit w_ctx w_caller "mail" "send" w_mail_args "c" JNull (JStr "key-1")
    (start (w_at w_parked))).2) = 0%nat.
Proof.
  rewrite (keyed_retry_never_executes w_ctx w_caller "mail" "send" w_mail_args "c" JNull "key-1"); [done | |].
  - constructor; [|by repeat constructor]. unfold dict_wf. cbn [dkeys map fst]. by apply (bool_decide_unpack _).
  - eassert (request 1 (w_at w_parked) = Some _) as Hr by (vm_compute; reflexivity).
    match type of Hr with _ = Some ?r => exists r end. split; [exact Hr |]. split; reflexivity.
Defined.

Definition w_claimed : store :=
  (claim_approval 2 (Some "g1"%string) w_state 50 (Some w_caller) (w_at w_parked)).2.

Lemma execution_settles_witness :
  exists out w', execute_request 2 "mail" "send" w_mail_args "c" None
      (Some (op_of "mail" "send" (Entry 1 "api" [] "p" "d") refresh_meta)) (start w_claimed) = (Ok out, w')
    /\ z_status out = OK.
Proof.
  eassert (request 2 w_claimed = Some _) as Hr by (vm_compute; reflexivity).
  destruct (execution_settles 2 "mail" "send" "c" w_mail_args None
    (op_of "mail" "send" (Entry 1 "api" [] "p" "d") refresh_meta) (start w_claimed) _ Hr eq_refl)
    as (out & w' & Hrun & Hst & _).
  exists out, w'. split; [exact Hrun | exact Hst].
Defined.
