(* ===== verification/Receipt.v ===== *)
(** How an outcome is shown and audited: the parts of broker/gateway.py that
    the HTTP and the MCP framing share. *)

From stdpp Require Import base tactics list strings.
From Stdlib Require Import ZArith Lia Ascii.
From S2P Require Import Prelude PyStr Json Policy Action Store Ingress Registry Broker Lifecycle.

(** [_OUTCOME_STATUS]. *)
Definition http_status (o : ostatus) : Z :=
  match o with
  | OK => 200 | PENDING => 202 | DENIED => 403 | NOT_FOUND => 404 | EXPIRED => 200 | FAILED => 502
  | UNAVAILABLE => 503 | RECEIVED => 202 | EXECUTING => 202 | UNKNOWN => 502 | RESULT_EXPIRED => 200
  | CONFLICT => 409 | INVALID => 400
  end.

(** [_REQUEST_TERMINAL.get(status)]. *)
Definition request_terminal (o : ostatus) : option (string * string) :=
  match o with
  | OK => Some ("completed", "ok")
  | DENIED => Some ("denied", "denied")
  | FAILED => Some ("failed", "failed")
  | UNAVAILABLE => Some ("failed", "failed")
  | EXPIRED => Some ("expired", "expired")
  | UNKNOWN => Some ("unknown", "unknown")
  | _ => None
  end%string.

(** [_AUDIT_OUTCOME.get(status, "failed")]. *)
Definition audit_outcome (status : Z) : string :=
  match status with
  | 200 => "ok" | 202 => "accepted" | 400 => "invalid" | 401 => "denied" | 403 => "denied"
  | 404 => "not_found" | 409 => "conflict" | 429 => "rate_limited" | 502 => "failed"
  | 503 => "unavailable" | _ => "failed"
  end%string.

Definition opt_field (key : string) (o : option string) : dict json :=
  match o with Some v => [(key, JStr v)] | None => [] end.

Definition json_field (key : string) (v : json) : dict json := if is_null v then [] else [(key, v)].

Definition flag_field (key : string) (b : bool) : dict json := if b then [(key, JBool true)] else [].

Definition _outcome_body (o : outcome) : json :=
  JObj ([("status"%string, JStr (ostatus_text (z_status o)))]
    ++ json_field "idempotency_key" (z_idempotency_key o)
    ++ flag_field "payloads_pruned" (z_payloads_pruned o)
    ++ flag_field "reused" (z_reused o)
    ++ match z_request_id o with Some i => [("request_id"%string, JInt i)] | None => [] end
    ++ json_field "result" (z_result o)
    ++ opt_field "reason" (z_reason o)
    ++ opt_field "error" (z_error o)
    ++ opt_field "detail" (z_detail o)
    ++ opt_field "approver" (z_approver o)
    ++ opt_field "note" (z_note o)
    ++ opt_field "decided_at" (z_decided_at o)).

Section Receipt.
Context `{Env}.

Definition _audit_request_terminal (o : outcome) (correlation_id tool op : string) : M unit :=
  if z_reused o then
    _ ← record "request" "receipt_reused" (ostatus_text (z_status o)) correlation_id (z_request_id o)
      (tool_details tool op []);
    mret tt
  else
    match request_terminal (z_status o), z_request_id o with
    | Some (event_type, word), Some rid =>
        _ ← record "request" event_type word correlation_id (Some rid) (tool_details tool op []);
        mret tt
    | _, _ => mret tt
    end.
End Receipt.
