(* ===== verification/Mcp.v ===== *)
(** The broker's MCP endpoint: broker/mcp.py. *)

From stdpp Require Import base tactics list strings.
From Stdlib Require Import ZArith Lia Ascii.
From S2P Require Import Prelude PyStr Json Policy Action Store Ingress Url Registry Broker Lifecycle Receipt.

Definition PROTOCOL_VERSION : string := "2024-11-05".

Definition _JSON_TYPES : list string := ["string"; "integer"; "number"; "boolean"; "object"; "array"]%string.

(** [_MCP_FAIL]. *)
Definition mcp_fail (o : ostatus) : bool :=
  match o with
  | DENIED | FAILED | UNAVAILABLE | EXPIRED | RECEIVED | EXECUTING | UNKNOWN | CONFLICT | INVALID
  | RESULT_EXPIRED => true
  | OK | PENDING | NOT_FOUND => false
  end.

(** The exceptions of the module, as the ways a dispatched call can end. *)
Inductive mcp_end :=
| Done (result : json)
| MethodNotFound
| InvalidParams (msg : string)
| RateLimited
| IdempotencyConflict (result : json).

(** ** Tool schemas *)

(** A dictionary key as json.dumps prints it. *)
Definition key_text (v : json) : string := match v with JStr s => s | v => dump spaced v end.

(** One argument: its property and whether it is required. *)
Definition arg_step (acc : dict json * list json) (a : json) : res (dict json * list json) :=
  jtype ← py_get a "type" (JStr "string");
  name ← (match a with JObj d => res_of_option KeyError (dget d "name") | _ => Raise TypeError end);
  description ← py_get a "description" (JStr EmptyString);
  required ← py_get a "required" JNull;
  _ ← raise_if (negb (hashable jtype)) TypeError;
  _ ← raise_if (negb (hashable name)) TypeError;
  let prop := JObj [("type"%string, if is_one_of jtype _JSON_TYPES then jtype else JStr "string");
                    ("description"%string, description)] in
  Ok (dset acc.1 (key_text name) prop, if truthy required then acc.2 ++ [name] else acc.2).

Definition _input_schema (args : json) : res (dict json) :=
  items ← py_iter args;
  '(props, required) ← foldM arg_step ([], []) items;
  Ok match props with
     | [] => [("type"%string, JStr "object")]
     | _ => [("type"%string, JStr "object"); ("properties"%string, JObj props)]
            ++ match required with [] => [] | _ => [("required"%string, JArr required)] end
     end.

Definition reason_prop : json :=
  JObj [("type"%string, JStr "string");
        ("description"%string, JStr
          "Legacy private request metadata; omitted from approval and audit text. Not passed to the tool. Do not include secrets.")].

Definition _with_reason (schema : dict json) : dict json :=
  let props := match jget schema "properties" with JObj d => d | _ => [] end in
  dset (dset schema "type" (JStr "object")) "properties" (JObj (dset props "_reason" reason_prop)).

Definition _result (text : string) (is_error : bool) : json :=
  JObj [("content"%string, JArr [JObj [("type"%string, JStr "text"); ("text"%string, JStr text)]]);
        ("isError"%string, JBool is_error)].

Definition mcp_name (tool op : string) : string := tool +:+ "__" +:+ op.

Definition callable_ops (cat : catalog) : list listed_op :=
  List.filter (fun o => negb (String.eqb (l_type o) "rest")) (list_ops cat).

(** The operations this caller may use. *)
Definition _allowed (cat : catalog) (p : policy) : list (string * string * effect) :=
  flat_map (fun o =>
    let e := decide_op p (l_tool o) (l_op o) in
    if bool_decide (e = DENY) then [] else [(l_tool o, l_op o, e)]) (callable_ops cat).

Definition listed_tool (cat : catalog) (toe : string * string * effect) : res json :=
  let '(tool, op, e) := toe in
  let described := default [] (describe cat tool op) in
  schema ← _input_schema (default (JArr []) (dget described "args"));
  description ← Ok (default (JStr EmptyString) (dget described "description"));
  if bool_decide (e = REVIEW) then
    match description with
    | JStr d =>
        Ok (JObj [("name"%string, JStr (mcp_name tool op));
                  ("description"%string, JStr (strip (d +:+ " (requires human approval)")));
                  ("inputSchema"%string, JObj (_with_reason schema))])
    | _ => Raise TypeError
    end
  else Ok (JObj [("name"%string, JStr (mcp_name tool op)); ("description"%string, description);
                 ("inputSchema"%string, JObj schema)]).

Fixpoint mapM_res {A B} (f : A -> res B) (l : list A) : res (list B) :=
  match l with [] => Ok [] | x :: l' => y ← f x; ys ← mapM_res f l'; Ok (y :: ys) end.

Definition _list_tools (cat : catalog) (p : policy) : res (list json) :=
  mapM_res (listed_tool cat) (_allowed cat p).

(** ** Names *)

Definition _registered_ops (cat : catalog) : list (string * string) :=
  map (fun o => (l_tool o, l_op o)) (callable_ops cat).

(** The dictionary of MCP names; a later operation wins. *)
Definition registered_names (cat : catalog) : dict (string * string) :=
  fold_left (fun d to => dset d (mcp_name to.1 to.2) to) (_registered_ops cat) [].

(** [name.partition("__")] when the separator occurs. *)
Fixpoint partition_dunder (s : string) : option (string * string) :=
  match s with
  | EmptyString => None
  | String c s' =>
      if starts_with "__" s then Some (EmptyString, str_drop 2 s)
      else match partition_dunder s' with Some (h, t) => Some (String c h, t) | None => None end
  end.

Definition _resolve_name (cat : catalog) (name : string) : option (string * string) :=
  match dget (registered_names cat) name with
  | Some to => Some to
  | None =>
      match partition_dunder name with
      | Some (tool, op) => if id_fullmatch tool && id_fullmatch op then Some (tool, op) else None
      | None => None
      end
  end.

(** json.dumps(v, indent=2). *)
Fixpoint dump_indent (level : string) (v : json) : string :=
  let inner := level +:+ "  " in
  let nl := String newline EmptyString in
  match v with
  | JArr [] => "[]"
  | JArr l => "[" +:+ nl +:+ inner +:+ join ("," +:+ nl +:+ inner) (map (dump_indent inner) l) +:+ nl +:+ level +:+ "]"
  | JObj [] => "{}"
  | JObj d => "{" +:+ nl +:+ inner
      +:+ join ("," +:+ nl +:+ inner) (map (fun kv => dump_str kv.1 +:+ ": " +:+ dump_indent inner kv.2) d)
      +:+ nl +:+ level +:+ "}"
  | v => dump spaced v
  end%string.

Definition unknown_tool (name : string) : mcp_end :=
  Done (_result ("unknown tool " +:+ String dquote (name +:+ String dquote EmptyString)) true).

Section Mcp.
Context `{Env} `{Digest} `{Manifests}.

Definition is_error_result (v : json) : bool :=
  match v with JObj d => bool_decide (jget d "isError" = JBool true) | _ => false end.

(** The submission and what its outcome reads like to the MCP caller. *)
Definition call_submitted (x : ctx) (k : caller) (correlation_id tool op : string) (args : json)
    (reason key : json) (name : string) : M mcp_end :=
  out ← submit x k tool op args correlation_id reason key;
  _ ← _audit_request_terminal out correlation_id tool op;
  mret match z_status out with
       | DENIED | NOT_FOUND => unknown_tool name
       | CONFLICT => IdempotencyConflict (_result (dumps (_outcome_body out)) true)
       | st => Done (_result (dump_indent EmptyString (_outcome_body out))
                      (mcp_fail st || is_error_result (z_result out)))
       end.

(** [_call_tool] once the name is known. *)
Definition call_resolved (x : ctx) (k : caller) (correlation_id : string) (params arguments : dict json)
    (name tool op : string) (header_key : option string) : M mcp_end :=
  resolved ← find_op x tool op;
  if match resolved with Some o => is_rest o | None => false end then mret (unknown_tool name)
  else
    let reason := match jget arguments "_reason" with
      | JStr r => if PyStr.empty (strip r) then JNull else JStr r
      | _ => JNull end in
    let args := JObj (dpop arguments "_reason") in
    match default (JObj []) (dget params "_meta") with
    | JObj meta =>
        let key := jget meta "toolstack/idempotency-key" in
        match header_key with
        | Some h =>
            if negb (is_null key) && negb (bool_decide (key = JStr h))
            then mret (InvalidParams "conflicting idempotency metadata")
            else call_submitted x k correlation_id tool op args reason (JStr h) name
        | None => call_submitted x k correlation_id tool op args reason key name
        end
    | _ => mret (InvalidParams "_meta must be an object")
    end.

Definition _call_tool (x : ctx) (k : caller) (correlation_id : string) (params : dict json)
    (header_key : option string) : M mcp_end :=
  match (match jget params "arguments" with JNull => JObj [] | v => v end) with
  | JObj arguments =>
      ok ← rate_allow x (k_id k);
      if negb ok then mret RateLimited
      else
        match default (JStr EmptyString) (dget params "name") with
        | JStr name =>
            match _resolve_name (x_catalog x) name with
            | Some (tool, op) => call_resolved x k correlation_id params arguments name tool op header_key
            | None => mret (unknown_tool name)
            end
        | JArr _ | JObj _ => throw TypeError
        | _ => throw AttributeError
        end
  | _ => mret (InvalidParams "arguments must be an object")
  end.

Definition instructions : string :=
  "Supply tools/call params._meta[" +:+ String dquote ("toolstack/idempotency-key" +:+ String dquote
  "] (1-128 letters/digits/_/-). Matching retries return the same receipt, never replay. Poll the request receipt; unknown is not retry permission.").

Definition _dispatch (x : ctx) (k : caller) (correlation_id : string) (method : json) (params : dict json)
    (header_key : option string) : M mcp_end :=
  match method with
  | JStr m =>
      if String.eqb m "initialize" then
        mret (Done (JObj [("protocolVersion"%string, default (JStr PROTOCOL_VERSION) (dget params "protocolVersion"));
          ("capabilities"%string, JObj [("tools"%string, JObj [])]);
          ("serverInfo"%string, JObj [("name"%string, JStr "toolstack-broker"); ("version"%string, JStr "0.1.0")]);
          ("instructions"%string, JStr instructions)]))
      else if String.eqb m "ping" then mret (Done (JObj []))
      else if String.eqb m "tools/list" then
        p ← query (policy_for (k_id k));
        tools ← lift (_list_tools (x_catalog x) p);
        mret (Done (JObj [("tools"%string, JArr tools)]))
      else if String.eqb m "tools/call" then _call_tool x k correlation_id params header_key
      else mret MethodNotFound
  | _ => mret MethodNotFound
  end.

Definition _error (mid : json) (code : Z) (message : string) : json :=
  JObj [("jsonrpc"%string, JStr "2.0"); ("id"%string, mid);
        ("error"%string, JObj [("code"%string, JInt code); ("message"%string, JStr message)])].

Definition reply (mid result : json) : json :=
  JObj [("jsonrpc"%string, JStr "2.0"); ("id"%string, mid); ("result"%string, result)].

(** The text of [str(exc)] for a method name. *)
Definition method_text (method : json) : string :=
  match method with
  | JStr m => m
  | JNull => "None"%string
  | JBool b => if b then "True"%string else "False"%string
  | JArr _ | JObj _ => py_str method
  | v => dumps v
  end.

(** [handle]: HTTP status and body.  A notification has no id and gets [{}]. *)
Definition mcp_handle (body : json) (x : ctx) (k : caller) (correlation_id : string)
    (header_key : option string) : M (Z * json) :=
  match body with
  | JNull => mret (200, _error JNull (-32700) "parse error: body is not valid JSON")
  | JArr _ => mret (200, _error JNull (-32600) "invalid request: batch is not supported")
  | JObj b =>
      let mid := jget b "id" in
      let answer v := if is_null mid then JObj [] else v in
      let method := default (JStr EmptyString) (dget b "method") in
      match (let p := jget b "params" in if truthy p then p else JObj []) with
      | JObj params =>
          e ← attempt (_dispatch x k correlation_id method params header_key);
          mret match e with
               | Ok (Done result) => (200, answer (reply mid result))
               | Ok RateLimited => (429, answer (_error mid (-32000) "rate_limited"))
               | Ok (IdempotencyConflict result) => (409, answer (reply mid result))
               | Ok MethodNotFound => (200, answer (_error mid (-32601) ("method not found: " +:+ method_text method)))
               | Ok (InvalidParams msg) => (200, answer (_error mid (-32602) msg))
               | Raise _ => (500, answer (_error mid (-32603)
                   ("internal error (correlation id " +:+ correlation_id +:+ ")")))
               end
      | _ => mret (200, answer (_error mid (-32602) "params must be an object"))
      end
  | _ => mret (200, _error JNull (-32600) "invalid request: expected a JSON-RPC object")
  end.
End Mcp.
