(* ===== verification/Gateway.v ===== *)
(** The gateway: broker/gateway.py, with the limits and the results of the body
    reader of broker/server.py in front of it, which is in Transport.v. *)

From stdpp Require Import base tactics list strings.
From Stdlib Require Import ZArith Lia Ascii.
From S2P Require Import Prelude PyStr Json Policy Action Store Ingress Url Registry Broker Lifecycle Receipt Mcp.

Definition HEALTH_PATH : string := "/v1/health".
Definition ACTIONS_PREFIX : string := "/v1/actions/".
Definition REQUESTS_PREFIX : string := "/v1/requests/".
Definition TOOLS_PATH : string := "/v1/tools".
Definition TOOLS_PREFIX : string := "/v1/tools/".
Definition MCP_PATH : string := "/mcp".

(** [path[len(prefix):]]. *)
Definition after_prefix (prefix path : string) : string := str_drop (String.length prefix) path.

Record response := Response { p_status : Z; p_body : json; p_correlation_id : string }.

Definition err (e : string) : json := JObj [("error"%string, JStr e)].
Definition err_detail (e d : string) : json := JObj [("error"%string, JStr e); ("detail"%string, JStr d)].

(** [{k.lower(): v for k, v in headers.items()}]. *)
Definition lower_headers (headers : dict string) : dict string :=
  fold_left (fun d kv => dset d (lower kv.1) kv.2) headers [].

(** [int(text)] as a row id: at most 4300 digits, and within SQLite's integers. *)
Definition OverflowError : exn := OtherExn "OverflowError".

Definition row_id (text : string) : res Z :=
  if 4300 <? len text then Raise ValueError
  else
    n ← int_of_str text;
    if n <? 2 ^ 63 then Ok n else Raise OverflowError.

Definition two_ids (spec : string) : option (string * string) :=
  match split_char "." spec with
  | [tool; op] => if id_fullmatch tool && id_fullmatch op then Some (tool, op) else None
  | _ => None
  end.

Definition effect_json (e : effect) : json := JStr (effect_text e).

(** One listed operation with the caller's effect. *)
Definition listed_json (o : listed_op) (e : effect) : json :=
  JObj [("tool"%string, JStr (l_tool o)); ("op"%string, JStr (l_op o)); ("type"%string, JStr (l_type o));
        ("risk"%string, l_risk o); ("description"%string, l_description o); ("effect"%string, effect_json e)].

Definition visible_tools (cat : catalog) (p : policy) : list json :=
  flat_map (fun o =>
    let e := decide_op p (l_tool o) (l_op o) in
    if bool_decide (e = DENY) then [] else [listed_json o e]) (list_ops cat).

Section Gateway.
Context `{Env} `{Digest} `{Manifests}.

Definition make_correlation_id (headers : dict string) : M string :=
  let supplied := strip (default EmptyString (dget headers "x-correlation-id")) in
  if word_dash_bounded 1 64 supplied then mret supplied else uuid4.

Definition _list_tools (x : ctx) (k : caller) (correlation_id : string) : M response :=
  p ← query (policy_for (k_id k));
  mret (Response 200 (JObj [("caller"%string, JStr (k_name k));
                            ("tools"%string, JArr (visible_tools (x_catalog x) p))]) correlation_id).

Definition _describe_tool (path : string) (x : ctx) (k : caller) (correlation_id : string) : M response :=
  match split_char "." (after_prefix TOOLS_PREFIX path) with
  | [tool; op] =>
      if PyStr.empty tool || PyStr.empty op
      then mret (Response 400 (err_detail "invalid" "expected /v1/tools/<tool>.<op>") correlation_id)
      else
        p ← query (policy_for (k_id k));
        let e := decide_op p tool op in
        if bool_decide (e = DENY) then mret (Response 404 (err "not_found") correlation_id)
        else match describe (x_catalog x) tool op with
             | None => mret (Response 404 (err "not_found") correlation_id)
             | Some d => mret (Response 200 (JObj (dset d "effect" (effect_json e))) correlation_id)
             end
  | _ => mret (Response 400 (err_detail "invalid" "expected /v1/tools/<tool>.<op>") correlation_id)
  end.

Definition no_authority (correlation_id : string) : response :=
  Response 403 (JObj [("status"%string, JStr "denied"); ("error"%string, JStr "authority")]) correlation_id.

Definition _request_status (path : string) (x : ctx) (k : caller) (correlation_id : string) : M response :=
  let rid := after_prefix REQUESTS_PREFIX path in
  if negb (isdigit rid) then mret (Response 400 (err "invalid") correlation_id)
  else
    id ← lift (row_id rid);
    req ← query (request id);
    match req with
    | Some r =>
        if negb (r_caller_id r =? k_id k) then mret (Response 404 (err "not_found") correlation_id)
        else
          let was_pending := is_status (r_status r) pending_approval in
          before ← query (authorized_request k id);
          if bool_decide (before = None) then mret (no_authority correlation_id)
          else
            out ← resolve_request x id (Some k);
            after ← query (authorized_request k id);
            if bool_decide (after = None) then mret (no_authority correlation_id)
            else
              _ ← (if was_pending then _audit_request_terminal out correlation_id (r_tool r) (r_op r) else mret tt);
              mret (Response 200 (_outcome_body out) correlation_id)
    | None => mret (Response 404 (err "not_found") correlation_id)
    end.

Definition _action (path : string) (body : json) (x : ctx) (k : caller) (correlation_id : string)
    (header_key : option string) : M response :=
  match two_ids (after_prefix ACTIONS_PREFIX path) with
  | None => mret (Response 400 (err_detail "invalid" "expected /v1/actions/<tool>.<op>") correlation_id)
  | Some (tool, op) =>
      match body with
      | JObj b =>
          match default (JObj []) (dget b "arguments") with
          | JObj arguments =>
              out ← submit x k tool op (JObj arguments) correlation_id (jget b "reason") (jopt header_key);
              _ ← _audit_request_terminal out correlation_id tool op;
              mret (Response (http_status (z_status out)) (_outcome_body out) correlation_id)
          | _ => mret (Response 400 (err_detail "invalid" "arguments must be an object") correlation_id)
          end
      | _ => mret (Response 400 (err_detail "invalid" "body must be a JSON object") correlation_id)
      end
  end.

(** The routes of an authenticated caller. *)
Definition _routed (meth path : string) (headers : dict string) (body : json) (x : ctx) (k : caller)
    (correlation_id : string) : M response :=
  let key := dget headers "idempotency-key" in
  if String.eqb meth "POST" && starts_with ACTIONS_PREFIX path then
    ok ← rate_allow x (k_id k);
    if negb ok then mret (Response 429 (err "rate_limited") correlation_id)
    else _action path body x k correlation_id key
  else if String.eqb meth "POST" && String.eqb path MCP_PATH then
    '(status, b) ← mcp_handle body x k correlation_id key;
    mret (Response status b correlation_id)
  else if String.eqb meth "GET" && String.eqb path TOOLS_PATH then _list_tools x k correlation_id
  else if String.eqb meth "GET" && starts_with TOOLS_PREFIX path then _describe_tool path x k correlation_id
  else if String.eqb meth "GET" && starts_with REQUESTS_PREFIX path then
    ok ← rate_allow x (k_id k);
    if negb ok then mret (Response 429 (err "rate_limited") correlation_id)
    else _request_status path x k correlation_id
  else mret (Response 404 (err "not_found") correlation_id).

Definition _route (meth path : string) (headers : dict string) (body : json) (x : ctx) (correlation_id : string)
    : M response :=
  if String.eqb meth "GET" && String.eqb path HEALTH_PATH then
    mret (Response 200 (JObj ([("status"%string, JStr "ok")] ++
      match x_observation x with
      | Some o => if PyStr.empty o then [] else [("catalog_observation_id"%string, JStr o)]
      | None => [] end)) correlation_id)
  else
    let bearer := dget headers "authorization" in
    k ← query (authenticate bearer);
    match k with
    | None =>
        _ ← record "identity" "token_rejected" "denied" correlation_id None
          (JObj [("has_bearer"%string, JBool (truthy_str bearer)); ("token_fp"%string, jopt (token_fingerprint bearer))]);
        mret (Response 401 (err "unauthorized") correlation_id)
    | Some k =>
        _ ← record "identity" "token_validated" "ok" correlation_id None
          (JObj [("caller"%string, JStr (k_name k)); ("token_fp"%string, jopt (token_fingerprint bearer))]);
        _routed meth path headers body x k correlation_id
    end.

Definition audit_path (path : string) : string :=
  if starts_with ACTIONS_PREFIX path then
    match two_ids (after_prefix ACTIONS_PREFIX path) with
    | Some _ => path
    | None => ACTIONS_PREFIX +:+ "<invalid>"
    end
  else path.

Definition handle (meth path : string) (headers : dict string) (body : json) (x : ctx) : M response :=
  let headers := lower_headers headers in
  correlation_id ← make_correlation_id headers;
  let audited := negb (String.eqb meth "GET" && String.eqb path HEALTH_PATH) in
  _ ← (if audited then
         _ ← record "gateway" "request_received" "accepted" correlation_id None
           (JObj [("method"%string, JStr meth); ("path"%string, JStr (audit_path path));
                  ("has_bearer"%string, JBool (dmem headers "authorization"))]);
         mret tt
       else mret tt);
  resp ← _route meth path headers body x correlation_id;
  _ ← (if audited then
         _ ← record "gateway" "response_returned" (audit_outcome (p_status resp)) correlation_id None
           (JObj [("status"%string, JInt (p_status resp))]);
         mret tt
       else mret tt);
  mret resp.

(** ** server.py: the limits of a body *)

Definition DEFAULT_REST_BODY_MAX : Z := 20 * 1024 * 1024.
Definition MAX_BODY_BYTES : Z := 64 * 1024.

(** [rest_max] is the integer of TOOLSTACK_REST_BODY_MAX, or its default. *)
Definition _body_cap (path : string) (rest_max : Z) : Z :=
  if starts_with "/v1/actions/" path
  then Z.max 0 (Z.min rest_max DEFAULT_REST_BODY_MAX) * 4 / 3 + 64 * 1024
  else MAX_BODY_BYTES.

(** What [_read_body] answers. *)
Inductive read_end :=
| Body (v : json)
| TooLarge (limit : Z)
| BadRequest
| Unauthorized.
End Gateway.
