(* ===== verification/GatewayFacts.v ===== *)
(** What the gateway guarantees: sessions of HTTP and MCP requests execute
    nothing uncertified and nothing twice, and every route fails closed. *)

From stdpp Require Import base tactics list strings.
From Stdlib Require Import ZArith Lia Ascii.
From S2P Require Import Prelude PyStr Json JsonFacts Policy Action Store StoreFacts StoreSpec Ingress Url Registry Broker Lifecycle LifecycleFacts Receipt Mcp Gateway.

Section Facts.
Context `{Env} `{Digest} `{Manifests}.

(** ** Everything that is not a submission or a poll is mild *)

Lemma mild_uuid4 : mild uuid4.
Proof. intros w. apply mild_tick. Qed.

Lemma mild_rate_allow x id : mild (rate_allow x id).
Proof.
  unfold rate_allow. destruct (x_limit x) as [limit|]; [|apply mild_ret].
  apply mild_bind; [apply mild_time |]. intros now w. destruct (allow limit id now (w_rate w)) as [ok d].
  constructor; [by intros [] | done | apply gentle_refl | done].
Qed.

Lemma mild_audit_request_terminal o corr tool op : mild (_audit_request_terminal o corr tool op).
Proof.
  unfold _audit_request_terminal. destruct (z_reused o).
  - apply mild_bind; [apply mild_record | intros; apply mild_ret].
  - destruct (request_terminal (z_status o)) as [[ev word]|]; [|apply mild_ret].
    destruct (z_request_id o); [|apply mild_ret].
    apply mild_bind; [apply mild_record | intros; apply mild_ret].
Qed.

Lemma mild_make_correlation_id headers : mild (make_correlation_id headers).
Proof. unfold make_correlation_id. apply mild_if; [apply mild_ret | apply mild_uuid4]. Qed.

Lemma mild_list_tools x k corr : mild (Gateway._list_tools x k corr).
Proof. apply mild_bind; [apply mild_query | intros; apply mild_ret]. Qed.

Lemma mild_describe_tool path x k corr : mild (_describe_tool path x k corr).
Proof.
  unfold _describe_tool. destruct (split_char _ _) as [|t [|o [|? ?]]]; try apply mild_ret.
  apply mild_if; [apply mild_ret |]. apply mild_bind; [apply mild_query |]. intros p. cbv zeta.
  apply mild_if; [apply mild_ret |]. destruct (describe _ _ _); apply mild_ret.
Qed.

(** ** Well-formed bodies *)

Lemma json_wf_field b key v : json_wf (JObj b) -> dget b key = Some v -> json_wf v.
Proof.
  intros Hw Hd%dget_In. inversion Hw as [| | | | | | ? _ Hall]; subst.
  rewrite Forall_forall in Hall. apply (Hall (key, v)). by apply list_elem_of_In.
Qed.

Lemma json_wf_dpop b key : json_wf (JObj b) -> json_wf (JObj (dpop b key)).
Proof.
  intros Hw. inversion Hw as [| | | | | | ? Hd Hall]; subst. constructor.
  - unfold dict_wf, dpop in *. clear Hall Hw. induction b as [|[k v] b IH]; simpl in *; [done |].
    apply NoDup_cons in Hd as [Hn Hd]. destruct (negb _); simpl; [|by apply IH].
    apply NoDup_cons. split; [|by apply IH]. intros Hin. apply Hn.
    apply list_elem_of_In in Hin. apply list_elem_of_In. unfold dkeys in *. apply in_map_iff in Hin as (kv & Hk & Hkv).
    apply filter_In in Hkv as [Hkv _]. apply in_map_iff. by exists kv.
  - rewrite Forall_forall in *. intros kv Hkv. apply Hall. unfold dpop in Hkv.
    apply list_elem_of_In in Hkv. apply list_elem_of_In. by apply filter_In in Hkv as [Hkv _].
Qed.

Lemma json_wf_empty : json_wf (JObj []).
Proof. constructor; [by apply NoDup_nil | constructor]. Qed.

Lemma json_wf_default b key d : json_wf (JObj b) -> json_wf d -> json_wf (default d (dget b key)).
Proof. intros Hw Hd. destruct (dget b key) eqn:E; simpl; [by eapply json_wf_field | done]. Qed.

(** ** The invariant through the routes *)

Lemma goods_if {A} (b : bool) (m1 m2 : M A) : goods m1 -> goods m2 -> goods (if b then m1 else m2).
Proof. by destruct b. Qed.

Lemma goods_ret {A} (a : A) : goods (mret a : M A).
Proof. by intros w. Qed.

Lemma goods_throw {A} e : goods (throw e : M A).
Proof. by intros w. Qed.

Lemma goods_attempt {A} (m : M A) : goods m -> goods (attempt m).
Proof. intros Hm w Hg. specialize (Hm w Hg). unfold attempt. by destruct (m w). Qed.

Lemma goods_call_submitted x k corr tool op args reason key name :
  json_wf args -> goods (call_submitted x k corr tool op args reason key name).
Proof.
  intros Hw. apply goods_bind; [intros w; by apply good_submit |]. intros out.
  apply goods_bind; [apply mild_goods, mild_audit_request_terminal | intros; apply goods_ret].
Qed.

Lemma goods_call_tool x k corr params key : json_wf (JObj params) -> goods (_call_tool x k corr params key).
Proof.
  intros Hw. unfold _call_tool.
  assert (json_wf (match jget params "arguments" with JNull => JObj [] | v => v end)) as Ha.
  { unfold jget. destruct (dget params "arguments") as [v|] eqn:E; simpl; [|apply json_wf_empty].
    pose proof (json_wf_field _ _ _ Hw E). destruct v; try done. apply json_wf_empty. }
  destruct (match jget params "arguments" with JNull => JObj [] | v => v end) as [| | | | | |arguments];
    try apply goods_ret.
  apply goods_bind; [apply mild_goods, mild_rate_allow |]. intros ok. apply goods_if; [apply goods_ret |].
  destruct (default _ _); try apply goods_throw.
  destruct (_resolve_name _ _) as [[tool op]|]; [|apply goods_ret]. unfold call_resolved.
  apply goods_bind; [apply mild_goods, mild_find_op |]. intros resolved. apply goods_if; [apply goods_ret |].
  cbv zeta. destruct (default _ _); try apply goods_ret.
  destruct key; [apply goods_if; [apply goods_ret |] |]; apply goods_call_submitted; by apply json_wf_dpop.
Qed.

Lemma goods_mcp_handle x k corr body key : json_wf body -> goods (mcp_handle body x k corr key).
Proof.
  intros Hw. unfold mcp_handle. destruct body as [| | | | | |b]; try apply goods_ret. cbv zeta.
  assert (json_wf (if truthy (jget b "params") then jget b "params" else JObj [])) as Hp.
  { destruct (truthy (jget b "params")) eqn:E; [|apply json_wf_empty].
    unfold jget in *. destruct (dget b "params") eqn:Ed; [by eapply json_wf_field | done]. }
  destruct (if truthy (jget b "params") then jget b "params" else JObj []) as [| | | | | |params]; try apply goods_ret.
  apply goods_bind; [|intros; apply goods_ret]. apply goods_attempt.
  unfold _dispatch. destruct (default _ (dget b "method")); try apply goods_ret.
  repeat (apply goods_if; [apply goods_ret || idtac |]); try apply goods_ret.
  - apply mild_goods, mild_bind; [apply mild_query |]. intros p.
    apply mild_bind; [apply mild_lift | intros; apply mild_ret].
  - by apply goods_call_tool.
Qed.

Lemma goods_request_status path x k corr : goods (_request_status path x k corr).
Proof.
  unfold _request_status. cbv zeta. apply goods_if; [apply goods_ret |].
  apply goods_bind; [by intros w |]. intros id.
  apply goods_bind; [apply mild_goods, mild_query |]. intros [r|]; [|apply goods_ret].
  apply goods_if; [apply goods_ret |].
  apply goods_bind; [apply mild_goods, mild_query |]. intros before. apply goods_if; [apply goods_ret |].
  apply goods_bind; [intros w; apply good_resolve_request |]. intros out.
  apply goods_bind; [apply mild_goods, mild_query |]. intros after. apply goods_if; [apply goods_ret |].
  apply goods_bind; [|intros; apply goods_ret].
  apply goods_if; [apply mild_goods, mild_audit_request_terminal | apply goods_ret].
Qed.

Lemma goods_action path x k corr body key : json_wf body -> goods (_action path body x k corr key).
Proof.
  intros Hw. unfold _action. destruct (two_ids _) as [[tool op]|]; [|apply goods_ret].
  destruct body as [| | | | | |b]; try apply goods_ret.
  pose proof (json_wf_default b "arguments" _ Hw json_wf_empty) as Ha.
  destruct (default _ _) as [| | | | | |arguments]; try apply goods_ret.
  apply goods_bind; [intros w; by apply good_submit |]. intros out.
  apply goods_bind; [apply mild_goods, mild_audit_request_terminal | intros; apply goods_ret].
Qed.

Lemma goods_handle meth path headers body x : json_wf body -> goods (handle meth path headers body x).
Proof.
  intros Hw. unfold handle. cbv zeta.
  assert (forall (b : bool) c e o corr rid d, mild (if b then _ ← record c e o corr rid d; mret tt else mret tt)) as Hrec.
  { intros. apply mild_if; [|apply mild_ret]. apply mild_bind; [apply mild_record | intros; apply mild_ret]. }
  apply goods_bind; [apply mild_goods, mild_make_correlation_id |]. intros corr.
  apply goods_bind; [apply mild_goods, Hrec |]. intros _.
  apply goods_bind; [|intros resp; apply goods_bind; [apply mild_goods, Hrec | intros; apply goods_ret]].
  unfold _route. apply goods_if; [apply goods_ret |]. cbv zeta.
  apply goods_bind; [apply mild_goods, mild_query |]. intros [k|].
  2: { apply mild_goods, mild_bind; [apply mild_record | intros; apply mild_ret]. }
  apply goods_bind; [apply mild_goods, mild_record |]. intros _. unfold _routed. cbv zeta.
  apply goods_if.
  { apply goods_bind; [apply mild_goods, mild_rate_allow |]. intros ok.
    apply goods_if; [apply goods_ret | by apply goods_action]. }
  apply goods_if.
  { apply goods_bind; [by apply goods_mcp_handle |]. intros [status b]. apply goods_ret. }
  apply goods_if; [apply mild_goods, mild_list_tools |].
  apply goods_if; [apply mild_goods, mild_describe_tool |].
  apply goods_if; [|apply goods_ret].
  apply goods_bind; [apply mild_goods, mild_rate_allow |]. intros ok.
  apply goods_if; [apply goods_ret | apply goods_request_status].
Qed.

(** ** Sessions *)

(** What reaches the broker, in any order: HTTP requests (the MCP endpoint is
    one of the routes) and sweeps of expired approvals. *)
Inductive call :=
| Http (meth path : string) (headers : dict string) (body : json)
| Sweep.

Definition run_call (x : ctx) (c : call) (w : world) : world :=
  match c with
  | Http meth path headers body => (handle meth path headers body x w).2
  | Sweep => (sweep_expired x w).2
  end.

Definition run_calls (x : ctx) (cs : list call) (w : world) : world := foldl (fun w c => run_call x c w) w cs.

Definition call_wf (c : call) : Prop := match c with Http _ _ _ body => json_wf body | Sweep => True end.

Lemma good_run_calls x cs w : Forall call_wf cs -> good w -> good (run_calls x cs w).
Proof.
  intros Hw. revert w. induction Hw as [|c cs Hc Hcs IH]; intros w Hg; simpl; [done |]. apply IH.
  destruct c; [by apply goods_handle | by apply (mild_goods _ (mild_sweep x))].
Qed.

(** C1. No request is executed twice: in every sequence of HTTP and MCP
    requests and sweeps, by any callers, under every behaviour of the clock,
    the approval surface, the tools, the manifest files and every transaction
    of other processes in between, the runtime is called at most once per
    request. *)
Theorem executed_at_most_once (x : ctx) (cs : list call) (s : store) (id : Z) :
  rows_ok s -> Forall call_wf cs ->
  (execs id (w_trace (run_calls x cs (start s))) <= 1)%nat.
Proof. intros Hr Hw. by apply g_once, good_run_calls; [|apply good_start]. Qed.

(** C2. Every execution is certified: whenever the runtime is called, some
    transaction of the broker ran in a database state in which the request was
    unclaimed, its caller and token were live, the tool's manifest generation
    was the one the request was bound to, the policy was unchanged, and the
    executed tool, operation and arguments are those of the canonical action
    the digest covers.  Under a review policy the approval of exactly this
    digest was pending and the surface had answered that it was approved. *)
Theorem execution_certified (x : ctx) (cs : list call) (s : store) (id : Z) (o : tool_op)
    (arguments : json) (name : option string) :
  rows_ok s -> Forall call_wf cs ->
  In (EvExecute id o arguments name) (w_trace (run_calls x cs (start s))) ->
  exists seen, In seen (w_seen (run_calls x cs (start s))) /\ certificate seen id o arguments.
Proof.
  intros Hr Hw Hin.
  by apply (g_cert _ (good_run_calls x cs _ Hw (good_start s Hr)) _ Hin).
Qed.

(** ** Histories only grow *)

(** Every database state a transaction ran in stays recorded, and the trace is
    only extended. *)
Definition extends (w w' : world) : Prop :=
  (forall s, In s (w_seen w) -> In s (w_seen w')) /\ exists more, w_trace w' = w_trace w ++ more.

Definition growing {A} (m : M A) : Prop := forall w, extends w (m w).2.

Lemma extends_refl w : extends w w.
Proof. split; [done | exists []; by rewrite app_nil_r]. Qed.

Lemma extends_trans w1 w2 w3 : extends w1 w2 -> extends w2 w3 -> extends w1 w3.
Proof.
  intros [S1 [m1 E1]] [S2 [m2 E2]]. split; [auto |]. exists (m1 ++ m2). by rewrite E2, E1, app_assoc.
Qed.

Lemma growing_ret {A} (a : A) : growing (mret a : M A).
Proof. intros w. apply extends_refl. Qed.

Lemma growing_throw {A} e : growing (throw e : M A).
Proof. intros w. apply extends_refl. Qed.

Lemma growing_lift {A} (r : res A) : growing (lift r).
Proof. intros w. apply extends_refl. Qed.

Lemma growing_bind {A B} (m : M A) (f : A -> M B) : growing m -> (forall a, growing (f a)) -> growing (m ≫= f).
Proof.
  intros Hm Hf w. specialize (Hm w). unfold mbind, M_bind.
  destruct (m w) as [[a|e] w1]; [|done]. eapply extends_trans; [done | apply Hf].
Qed.

Lemma growing_attempt {A} (m : M A) : growing m -> growing (attempt m).
Proof. intros Hm w. specialize (Hm w). unfold attempt. by destruct (m w). Qed.

Lemma growing_catch {A} (m : M A) h : growing m -> (forall e, growing (h e)) -> growing (catch m h).
Proof.
  intros Hm Hh w. specialize (Hm w). unfold catch. destruct (m w) as [[a|e] w1]; [done |].
  eapply extends_trans; [done | apply Hh].
Qed.

Lemma growing_each {A B} (f : A -> M B) l : (forall a, growing (f a)) -> growing (each f l).
Proof.
  intros Hf. induction l as [|a l IH]; simpl; [apply growing_ret |].
  apply growing_bind; [apply Hf |]. intros b. apply growing_bind; [done |]. intros bs. apply growing_ret.
Qed.

Lemma growing_tx {A} (f : store -> res (A * store)) : growing (tx f).
Proof.
  intros w. unfold tx. destruct (f _) as [[a s']|e]; split; simpl; auto using in_or_app; exists []; by rewrite app_nil_r.
Qed.

Lemma growing_step {A} (g : nat -> res A) : growing (fun w => (g (w_tick w), step w)).
Proof. intros w. split; [done | exists []; simpl; by rewrite app_nil_r]. Qed.

Lemma growing_emit {A} (g : nat -> res A) ev : growing (fun w => (g (w_tick w), step (emit ev w))).
Proof. intros w. split; [done | by exists [ev]]. Qed.

Lemma growing_rate_allow x id : growing (rate_allow x id).
Proof.
  unfold rate_allow. destruct (x_limit x) as [limit|]; [|apply growing_ret].
  apply growing_bind; [apply (growing_step (fun n => Ok (e_time n))) |]. intros now w.
  destruct (allow limit id now (w_rate w)) as [ok d]. split; [done | exists []; by rewrite app_nil_r].
Qed.

Create HintDb growing.
#[local] Hint Resolve growing_ret growing_throw growing_lift growing_attempt growing_catch growing_tx
  growing_rate_allow : growing.

(** One step of a proof that a handler only extends its history. *)
Ltac grow :=
  match goal with
  | |- growing (mbind _ _) => apply growing_bind
  | |- growing (each _ _) => apply growing_each
  | |- growing (catch _ _) => apply growing_catch
  | |- growing (attempt _) => apply growing_attempt
  | |- growing time => exact (growing_step (fun n => Ok (e_time n)))
  | |- growing uuid4 => exact (growing_step (fun n => Ok (e_uuid n)))
  | |- growing token_hex => exact (growing_step (fun n => Ok (e_nonce n)))
  | |- growing read_files => exact (growing_step (fun n => Ok (e_read n)))
  | |- growing (surface_open ?c) => exact (growing_emit (fun n => e_open n c) _)
  | |- growing (surface_poll ?r) => exact (growing_emit (fun n => e_poll n r) _)
  | |- growing (surface_cancel ?r) => exact (growing_emit (fun n => e_cancel n r) _)
  | |- growing (runtime_execute ?o ?a ?i ?n) => exact (growing_emit (fun t => e_execute t o a i n) _)
  | |- growing (query _) => apply growing_tx
  | |- growing (update _) => apply growing_tx
  | |- forall _, _ => intros ?
  | |- growing (if ?b then _ else _) => destruct b
  | |- growing (match ?x with _ => _ end) => destruct x
  | |- growing (let _ := _ in _) => cbv zeta
  | |- _ => progress auto with growing
  end.

Lemma growing_record c e o corr rid d : growing (record c e o corr rid d).
Proof. unfold record. repeat grow. Qed.
#[local] Hint Resolve growing_record : growing.

Lemma growing_find_op x tool op : growing (find_op x tool op).
Proof. unfold find_op. repeat grow. Qed.

Lemma growing_current_outcome id b : growing (current_outcome id b).
Proof. unfold current_outcome. repeat grow. Qed.

Lemma growing_set_status id st e : growing (set_status id st e).
Proof. unfold set_status. repeat grow. Qed.

Lemma growing_expire x id ref tool op corr now : growing (_expire_approval x id ref tool op corr now).
Proof. unfold _expire_approval. repeat grow. Qed.
#[local] Hint Resolve growing_find_op growing_current_outcome growing_set_status growing_expire : growing.

Lemma growing_execute_request id tool op args corr name o : growing (execute_request id tool op args corr name o).
Proof. unfold execute_request, finish_execution, complete. repeat grow. Qed.

Lemma growing_open_approval x id name tool op o args corr : growing (_open_approval x id name tool op o args corr).
Proof. unfold _open_approval. repeat grow. Qed.
#[local] Hint Resolve growing_execute_request growing_open_approval : growing.

Lemma growing_submit x k tool op args corr reason key : growing (submit x k tool op args corr reason key).
Proof.
  assert (forall o arguments req, growing (decide_and_run x k tool op o arguments corr req)) as Hd.
  { intros. unfold decide_and_run. repeat grow. }
  unfold submit, _submit, sweep_expired, after_reserve. repeat grow.
Qed.

Lemma growing_resolve_request x id k : growing (resolve_request x id k).
Proof. unfold resolve_request, on_approved, on_rejected, on_withdrawn. repeat grow. Qed.

Lemma growing_audit_request_terminal o corr tool op : growing (_audit_request_terminal o corr tool op).
Proof. unfold _audit_request_terminal. repeat grow. Qed.
#[local] Hint Resolve growing_submit growing_resolve_request growing_audit_request_terminal : growing.

Lemma growing_mcp_handle x k corr body key : growing (mcp_handle body x k corr key).
Proof. unfold mcp_handle, _dispatch, _call_tool, call_resolved, call_submitted. repeat grow. Qed.
#[local] Hint Resolve growing_mcp_handle : growing.

Lemma growing_routed meth path headers body x k corr : growing (_routed meth path headers body x k corr).
Proof.
  unfold _routed, _action, Gateway._list_tools, _describe_tool, _request_status. repeat grow.
Qed.
#[local] Hint Resolve growing_routed : growing.
(** ** Fail closed *)

Definition is_health (meth path : string) : bool := String.eqb meth "GET" && String.eqb path HEALTH_PATH.

Definition bearer_of (headers : dict string) : option string := dget (lower_headers headers) "authorization".

(** The only writes of the broker between the two stores are audit records;
    the others are transactions that other processes committed. *)
Inductive only_audits : store -> store -> Prop :=
| oa_refl s : only_audits s s
| oa_foreign n s s' : only_audits (run_admins (e_admin n) s) s' -> only_audits s s'
| oa_audit at_ component event_type outcome corr rid details s s' :
    only_audits (append_audit at_ component event_type outcome corr rid details s).2 s' -> only_audits s s'.

Lemma only_audits_trans s1 s2 s3 : only_audits s1 s2 -> only_audits s2 s3 -> only_audits s1 s3.
Proof. induction 1; [done | intros; eapply oa_foreign; eauto | intros; eapply oa_audit; eauto]. Qed.

(** When no other process writes, no row of any other table is changed. *)
Lemma only_audits_alone s s' : (forall n, e_admin n = []) -> only_audits s s' ->
  s_callers s' = s_callers s /\ s_tokens s' = s_tokens s /\ s_policies s' = s_policies s /\ s_requests s' = s_requests s
  /\ s_approvals s' = s_approvals s.
Proof.
  intros Hn. induction 1 as [|n s s' _ IH | at_ c e o corr rid d s s' _ IH]; [done | by rewrite Hn in IH | done].
Qed.

(** Steps that call no other system and write nothing but audit records. *)
Record quiet (w w' : world) : Prop := {
  q_trace : w_trace w' = w_trace w;
  q_store : only_audits (w_store w) (w_store w') }.

Lemma quiet_trans w1 w2 w3 : quiet w1 w2 -> quiet w2 w3 -> quiet w1 w3.
Proof. intros [T1 G1] [T2 G2]. constructor; [congruence | by eapply only_audits_trans]. Qed.

Lemma correlation_ok headers w :
  exists corr w', make_correlation_id headers w = (Ok corr, w') /\ quiet w w'.
Proof.
  unfold make_correlation_id. case_match; do 2 eexists; (split; [reflexivity |]);
    (constructor; [done | constructor]).
Qed.

Lemma record_ok c e o corr rid d w : exists i w', record c e o corr rid d w = (Ok i, w') /\ quiet w w'.
Proof.
  do 2 eexists. split; [reflexivity |]. constructor; [done |].
  eapply oa_foreign, oa_audit, oa_refl.
Qed.

Lemma query_ok {A} (f : store -> A) w :
  exists w', query f w = (Ok (f (run_admins (e_admin (w_tick w)) (w_store w))), w') /\ quiet w w'
    /\ In (run_admins (e_admin (w_tick w)) (w_store w)) (w_seen w').
Proof.
  eexists. split; [reflexivity |]. split; [|apply In_snoc; by right].
  constructor; [done | eapply oa_foreign, oa_refl].
Qed.

Lemma route_cases meth path headers body x corr w :
  is_health meth path = false ->
  let bearer := dget headers "authorization" in
  (exists s k, In s (w_seen (_route meth path headers body x corr w).2) /\ authenticate bearer s = Some k)
  \/ exists resp w', _route meth path headers body x corr w = (Ok resp, w') /\ p_status resp = 401 /\ quiet w w'.
Proof.
  intros Hh bearer. unfold _route. unfold is_health in Hh. rewrite Hh. cbv zeta. fold bearer.
  destruct (query_ok (authenticate bearer) w) as (w1 & Hq & Q1 & Hin). rewrite (bind_ok _ _ _ _ _ Hq). cbv beta.
  set (s := run_admins _ _) in *. destruct (authenticate bearer s) as [k|] eqn:Ek.
  - left. exists s, k. split; [|done].
    assert (forall A (m : M A) w, growing m -> In s (w_seen w) -> In s (w_seen (m w).2)) as Hg.
    { intros A m w0 Hm. by apply Hm. }
    apply Hg; [repeat grow | done].
  - right. edestruct (record_ok "identity" "token_rejected" "denied" corr None) as (i & w2 & Hr & Q2).
    rewrite (bind_ok _ _ _ _ _ Hr). do 2 eexists. split; [reflexivity |]. split; [done | by eapply quiet_trans].
Qed.

(** C3. Nothing is served without a live caller: a request other than the
    health probe either authenticated in a database state the broker read, or
    it is answered 401, having reached no surface and no tool and having written
    nothing to the database but audit records: what else has changed there is
    the work of other processes. *)
Theorem gateway_fails_closed (meth path : string) (headers : dict string) (body : json) (x : ctx) (w : world) :
  is_health meth path = false ->
  let w' := (handle meth path headers body x w).2 in
  (exists s k, In s (w_seen w') /\ authenticate (bearer_of headers) s = Some k)
  \/ (exists resp, (handle meth path headers body x w).1 = Ok resp /\ p_status resp = 401)
     /\ w_trace w' = w_trace w /\ only_audits (w_store w) (w_store w').
Proof.
  intros Hh w'. subst w'. unfold handle, is_health, bearer_of in *. cbv zeta. rewrite Hh.
  set (hs := lower_headers headers).
  destruct (correlation_ok hs w) as (corr & w1 & Hc & Q1). rewrite (bind_ok _ _ _ _ _ Hc). cbv beta iota delta [negb].
  edestruct (record_ok "gateway" "request_received" "accepted" corr None) as (i & w2 & Hr & Q2).
  rewrite (bind_ok (_ ← record _ _ _ _ _ _; mret tt) _ w1 tt w2) by (by rewrite (bind_ok _ _ _ _ _ Hr)). cbv beta.
  destruct (route_cases meth path hs body x corr w2 Hh) as [(s & k & Hin & Hk) | (resp & w3 & Hroute & Hst & Q3)].
  - left. exists s, k. split; [|done]. unfold mbind at 1, M_bind at 1.
    destruct (_route _ _ _ _ _ _ w2) as [[resp|e] w3]; [|done].
    eassert (growing _) as Hg; [|apply (Hg w3); exact Hin]. repeat grow.
  - right. rewrite (bind_ok _ _ _ _ _ Hroute). cbv beta.
    edestruct (record_ok "gateway" "response_returned") as (n & w4 & Hr4 & Q4).
    rewrite (bind_ok (_ ← record _ _ _ _ _ _; mret tt) _ w3 tt w4) by (by rewrite (bind_ok _ _ _ _ _ Hr4)).
    destruct (quiet_trans _ _ _ Q1 (quiet_trans _ _ _ Q2 (quiet_trans _ _ _ Q3 Q4))). by eauto.
Qed.
End Facts.

(** ** A concrete session

    The caller runs an allowed operation, submits one that needs approval,
    polls it (the surface has approved) and polls again. *)

#[local] Existing Instance echo_digest.
#[local] Existing Instance w_manifests.
#[local] Existing Instance w_env.

Definition w_headers : dict string := [("Authorization", "Bearer aa")]%string.

Definition w_post (path : string) (arguments : json) : call :=
  Http "POST" path w_headers (JObj [("arguments"%string, arguments)]).

Definition w_calls : list call :=
  [w_post "/v1/actions/echo.ping" (JObj []); w_post "/v1/actions/mail.send" w_mail_args; Sweep;
   Http "GET" "/v1/requests/2" w_headers JNull; Http "GET" "/v1/requests/2" w_headers JNull].

Notation w_session := (run_calls w_ctx w_calls (start (w_at w_setup))) (only parsing).

Lemma w_field_wf key v : json_wf v -> json_wf (JObj [(key, v)]).
Proof.
  intros Hv. constructor; [|by repeat constructor].
  apply NoDup_singleton.
Qed.

Lemma w_calls_wf : Forall call_wf w_calls.
Proof.
  pose proof (json_wf_empty). unfold w_calls, w_post, w_mail_args.
  repeat apply Forall_cons_2; simpl; auto; repeat apply w_field_wf; auto; constructor.
Qed.

Lemma w_setup_rows : rows_ok (w_at w_setup).
Proof. intros id r Hr. assert (request id (w_at w_setup) = None) as E by reflexivity. congruence. Qed.

Lemma executed_at_most_once_witness :
  execs 2 (w_trace w_session) = 1%nat /\ (execs 2 (w_trace w_session) <= 1)%nat.
Proof.
  split; [vm_compute; reflexivity |].
  exact (executed_at_most_once w_ctx w_calls (w_at w_setup) 2 w_setup_rows w_calls_wf).
Defined.

Lemma execution_certified_witness :
  exists o seen, In seen (w_seen w_session) /\ certificate seen 2 o w_mail_args.
Proof.
  eassert (nth_error (w_trace w_session) 3 = Some (EvExecute 2 _ w_mail_args _)) as Hn by (vm_compute; reflexivity).
  apply nth_error_In in Hn. eexists.
  exact (execution_certified w_ctx w_calls (w_at w_setup) 2 _ _ _ w_setup_rows w_calls_wf Hn).
Defined.

Definition w_stranger : world := start (w_at w_setup).

Lemma gateway_fails_closed_witness :
  let r := handle "POST" "/mcp" [] JNull w_ctx w_stranger in
  (exists resp, r.1 = Ok resp /\ p_status resp = 401)
  /\ ((exists s k, In s (w_seen r.2) /\ authenticate None s = Some k)
      \/ (exists resp, r.1 = Ok resp /\ p_status resp = 401)
         /\ w_trace r.2 = [] /\ only_audits (w_store w_stranger) (w_store r.2)).
Proof.
  intros r. split; [eexists; split; [vm_compute; reflexivity | reflexivity] |].
  exact (gateway_fails_closed "POST" "/mcp" [] JNull w_ctx w_stranger eq_refl).
Defined.
