(* ===== verification/RouteFacts.v ===== *)
(** The routes of an authenticated caller: what a policy hides, whose requests
    can be polled, which operation an MCP name means, and the limits of a body. *)

From stdpp Require Import base tactics list strings.
From Stdlib Require Import ZArith Lia Ascii.
From S2P Require Import Prelude PyStr Json JsonFacts Policy Action Store StoreFacts StoreSpec Ingress Url Registry Broker Lifecycle LifecycleFacts Receipt Mcp Gateway GatewayFacts.

Section Facts.
Context `{Env} `{Digest} `{Manifests}.

(** The database the next transaction of the broker will see. *)
Definition read_at (w : world) : store := run_admins (e_admin (w_tick w)) (w_store w).

Lemma query_at {A} (f : store -> A) w :
  exists w', query f w = (Ok (f (read_at w)), w') /\ quiet w w' /\ w_tick w' = S (w_tick w)
    /\ w_store w' = read_at w.
Proof.
  eexists. split; [reflexivity |]. split; [constructor; [done | eapply oa_foreign, oa_refl] |]. by split.
Qed.

(** ** Polling *)

(** A caller cannot tell another caller's request from one that does not
    exist: polling either answers 404, reaches neither the approval surface nor
    a tool, and moves no request. *)
Theorem foreign_request_hidden (path : string) (x : ctx) (k : caller) (corr : string) (w : world) (id : Z) :
  isdigit (after_prefix REQUESTS_PREFIX path) = true ->
  row_id (after_prefix REQUESTS_PREFIX path) = Ok id ->
  (forall r, request id (read_at w) = Some r -> r_caller_id r <> k_id k) ->
  exists w', _request_status path x k corr w = (Ok (Response 404 (err "not_found") corr), w') /\ quiet w w'.
Proof.
  intros Hd Hid Hr. unfold _request_status. cbv zeta. rewrite Hd. cbv beta iota delta [negb].
  rewrite (bind_ok (lift _) _ w id w) by (by rewrite Hid). cbv beta.
  destruct (query_at (request id) w) as (w' & Hq & Hw & _). rewrite (bind_ok _ _ _ _ _ Hq). cbv beta.
  exists w'. split; [|done]. destruct (request id (read_at w)) as [r|] eqn:E; [|done].
  specialize (Hr r eq_refl). by rewrite (proj2 (Z.eqb_neq _ _) Hr).
Qed.

(** A request id is not validated by [isdigit] alone: every id whose
    characters [isdigit] accepts and [int] does not (a superscript digit) makes
    the poll raise ValueError instead of answering 400. *)
Theorem poll_superscript_raises (path : string) (x : ctx) (k : caller) (corr : string) (w : world) :
  let rid := after_prefix REQUESTS_PREFIX path in
  isdigit rid = true -> all_chars is_digit rid = false -> len rid <= 4300 ->
  _request_status path x k corr w = (Raise ValueError, w).
Proof.
  intros rid Hd Hnd Hl. unfold _request_status. cbv zeta. fold rid. rewrite Hd. cbv beta iota delta [negb].
  unfold mbind, M_bind, lift, row_id. rewrite (proj2 (Z.ltb_ge _ _) Hl). unfold int_of_str. rewrite Hnd, andb_false_r. done.
Qed.

(** ** What a policy hides *)

Lemma visible_tools_In cat p v :
  In v (visible_tools cat p) <->
  exists o, In o (list_ops cat) /\ decide_op p (l_tool o) (l_op o) <> DENY
    /\ v = listed_json o (decide_op p (l_tool o) (l_op o)).
Proof.
  unfold visible_tools. rewrite in_flat_map. split; intros (o & Hin & Ho); exists o; (split; [done |]).
  - revert Ho. case_bool_decide as E; [done |]. intros [<- | []]. done.
  - destruct Ho as [Hn ->]. rewrite bool_decide_eq_false_2 by done. by left.
Qed.

Lemma allowed_In cat p tool op e :
  In (tool, op, e) (_allowed cat p) <->
  exists o, In o (list_ops cat) /\ l_type o <> "rest"%string /\ tool = l_tool o /\ op = l_op o
    /\ e = decide_op p tool op /\ e <> DENY.
Proof.
  unfold _allowed, callable_ops. rewrite in_flat_map. split.
  - intros (o & [Hin Hr]%filter_In & Ho). exists o. apply negb_true_iff, String.eqb_neq in Hr.
    revert Ho. case_bool_decide as E; [done |]. intros [[= <- <- <-] | []]. done.
  - intros (o & Hin & Hr & -> & -> & -> & Hn). exists o. split.
    + apply filter_In. split; [done |]. by apply negb_true_iff, String.eqb_neq.
    + rewrite bool_decide_eq_false_2 by done. by left.
Qed.

(** A denied operation does not exist for the caller: describing it is
    answered like an unknown operation, and neither the HTTP listing nor the
    MCP listing names it. *)
Theorem denied_tool_hidden (path : string) (x : ctx) (k : caller) (corr tool op : string) (w : world) :
  split_char "." (after_prefix TOOLS_PREFIX path) = [tool; op] ->
  PyStr.empty tool = false -> PyStr.empty op = false ->
  let p := policy_for (k_id k) (read_at w) in
  decide_op p tool op = DENY ->
  (exists w', _describe_tool path x k corr w = (Ok (Response 404 (err "not_found") corr), w') /\ quiet w w')
  /\ (exists tools w', Gateway._list_tools x k corr w
        = (Ok (Response 200 (JObj [("caller"%string, JStr (k_name k)); ("tools"%string, JArr tools)]) corr), w')
      /\ forall v, In v tools -> exists o, v = listed_json o (decide_op p (l_tool o) (l_op o))
           /\ In o (list_ops (x_catalog x)) /\ (l_tool o, l_op o) <> (tool, op))
  /\ forall e, ~ In (tool, op, e) (_allowed (x_catalog x) p).
Proof.
  intros Hs Ht Ho p Hp. destruct (query_at (policy_for (k_id k)) w) as (w' & Hq & Hw & _).
  split; [|split].
  - exists w'. split; [|done]. unfold _describe_tool. rewrite Hs, Ht, Ho. cbv beta iota delta [orb].
    rewrite (bind_ok _ _ _ _ _ Hq). cbv beta zeta. fold p. rewrite Hp. done.
  - exists (visible_tools (x_catalog x) p), w'. unfold Gateway._list_tools.
    rewrite (bind_ok _ _ _ _ _ Hq). split; [done |]. intros v (o & Hin & Hn & ->)%visible_tools_In.
    exists o. split; [done |]. split; [done |]. intros [= <- <-]. done.
  - intros e (o & _ & _ & _ & _ & -> & Hn)%allowed_In. done.
Qed.

(** ** MCP names *)

Lemma registered_names_In l d name t o :
  dget (fold_left (fun d to => dset d (mcp_name to.1 to.2) to) l d) name = Some (t, o) ->
  dget d name = Some (t, o) \/ In (t, o) l /\ mcp_name t o = name.
Proof.
  revert d. induction l as [|[t' o'] l IH]; intros d; simpl; [by left |]. intros [Hd | [Hi Hn]]%IH; [|by auto].
  rewrite dget_dset in Hd. destruct (decide _) as [E|E]; [|by left]. injection Hd as -> ->. subst. auto.
Qed.

Lemma registered_names_mem l d t o :
  In (t, o) l -> exists to, dget (fold_left (fun d to => dset d (mcp_name to.1 to.2) to) l d) (mcp_name t o) = Some to.
Proof.
  assert (forall l d name, (exists to, dget d name = Some to) ->
    exists to, dget (fold_left (fun d to => dset d (mcp_name to.1 to.2) to) l d) name = Some to) as Hk.
  { clear. induction l as [|[t o] l IH]; intros d name (to & Hd); simpl; [by exists to |]. apply IH.
    rewrite dget_dset. destruct (decide _); eauto. }
  revert d. induction l as [|[t' o'] l IH]; intros d; [by intros [] |]. intros [[= -> ->] | Hin]; simpl; [|by apply IH].
  apply Hk. rewrite dget_dset_eq. by eexists.
Qed.

Lemma partition_dunder_spec s h t : partition_dunder s = Some (h, t) -> s = h +:+ "__" +:+ t.
Proof.
  revert h t. induction s as [|c s IH]; intros h t; [done |]. cbn [partition_dunder].
  destruct (starts_with "__" (String c s)) eqn:E.
  - apply starts_with_spec in E as [u E]. rewrite E, (starts_with_drop "__"). intros [= <- <-]. done.
  - destruct (partition_dunder s) as [[h' t']|] eqn:Ep; [|done]. intros [= <- <-].
    by rewrite (IH _ _ eq_refl), str_cons_app.
Qed.

(** An MCP name means an operation of that name: the operation a
    [tools/call] is resolved to has the very name the caller sent, and every
    listed operation resolves to an operation of its name, to itself when no
    other listed operation shares it. *)
Theorem resolve_name_exact (cat : catalog) (name : string) :
  (forall tool op, _resolve_name cat name = Some (tool, op) -> mcp_name tool op = name)
  /\ forall tool op, In (tool, op) (_registered_ops cat) -> mcp_name tool op = name ->
     exists to, _resolve_name cat name = Some to /\ In to (_registered_ops cat)
       /\ ((forall to', In to' (_registered_ops cat) -> mcp_name to'.1 to'.2 = name -> to' = (tool, op))
           -> to = (tool, op)).
Proof.
  split.
  - intros tool op. unfold _resolve_name. destruct (dget _ name) as [to|] eqn:E.
    + intros [= ->]. by apply registered_names_In in E as [? | [_ ?]].
    + destruct (partition_dunder name) as [[t o]|] eqn:Ep; [|done]. destruct (_ && _); [|done]. intros [= <- <-].
      symmetry. by apply partition_dunder_spec.
  - intros tool op Hin <-. destruct (registered_names_mem _ [] _ _ Hin) as [[t o] Hto]. exists (t, o).
    unfold _resolve_name, registered_names. rewrite Hto. split; [done |].
    apply registered_names_In in Hto as [? | [Hi Hn]]; [done |]. split; [done |]. intros Hu. by apply Hu.
Qed.

(** ** Bodies *)

Lemma body_cap_max path rest_max : 64 * 1024 <= _body_cap path rest_max <= 20 * 1024 * 1024 * 4 / 3 + 64 * 1024.
Proof.
  unfold _body_cap, MAX_BODY_BYTES, DEFAULT_REST_BODY_MAX. destruct (starts_with _ _).
  - set (m := Z.max _ _). assert (0 <= m <= 20 * 1024 * 1024) by lia. clearbody m.
    pose proof (Z.div_pos (m * 4) 3). pose proof (Z.div_le_mono (m * 4) (20 * 1024 * 1024 * 4) 3). lia.
  - split; [lia | by vm_compute].
Qed.
End Facts.

(** ** Concrete requests *)

#[local] Existing Instance echo_digest.
#[local] Existing Instance w_manifests.
#[local] Existing Instance w_env.

Definition w_other : caller := Caller 7 "eve" (Some "ee"%string).

Lemma foreign_request_hidden_witness :
  exists r w', request 2 (read_at (start (w_at w_parked))) = Some r
    /\ _request_status "/v1/requests/2" w_ctx w_other "c" (start (w_at w_parked))
       = (Ok (Response 404 (err "not_found") "c"), w').
Proof.
  eassert (request 2 (read_at (start (w_at w_parked))) = Some _) as Hr by (vm_compute; reflexivity).
  destruct (foreign_request_hidden "/v1/requests/2" w_ctx w_other "c" (start (w_at w_parked)) 2) as (w' & Hs & _);
    [reflexivity | reflexivity | |].
  - intros r E. rewrite Hr in E. injection E as <-. discriminate.
  - eexists _, w'. split; [exact Hr | exact Hs].
Defined.

Definition w_superscript : string := "/v1/requests/" +:+ String (chr 178) EmptyString.

Lemma poll_superscript_raises_witness :
  _request_status w_superscript w_ctx w_caller "c" (start (w_at w_parked)) = (Raise ValueError, start (w_at w_parked)).
Proof. apply (poll_superscript_raises w_superscript); vm_compute; [reflexivity | reflexivity | discriminate]. Defined.

Lemma denied_tool_hidden_witness :
  exists w', _describe_tool "/v1/tools/echo.refresh" w_ctx w_caller "c" (start (w_at w_setup))
    = (Ok (Response 404 (err "not_found") "c"), w').
Proof.
  destruct (denied_tool_hidden "/v1/tools/echo.refresh" w_ctx w_caller "c" "echo" "refresh" (start (w_at w_setup)))
    as ((w' & Hd & _) & _); [reflexivity .. |]. exists w'. exact Hd.
Defined.

(** Two operations whose MCP names coincide: the later one answers for both. *)
Definition w_twins : catalog :=
  [("a"%string, Entry 1 "api" [("b__c"%string, refresh_meta)] "p" "d");
   ("a__b"%string, Entry 2 "api" [("c"%string, refresh_meta)] "p" "d")].

(** MCP names are not unique: [a.b__c] and [a__b.c] are both offered as
    [a__b__c], and every call of that name runs the one loaded later. *)
Example mcp_names_collide :
  mcp_name "a" "b__c" = mcp_name "a__b" "c"
  /\ _registered_ops w_twins = [("a", "b__c"); ("a__b", "c")]%string
  /\ _resolve_name w_twins (mcp_name "a" "b__c") = Some ("a__b", "c")%string.
Proof. repeat split. Qed.
