(* ===== verification/SpsWire.v ===== *)
(** The JSON-line protocol of the secret service: sps/wire.py.

    Bytes are strings of characters below U+0100.  [decode] is the UTF-8
    decoder; the proofs only use that it maps ASCII to itself. *)

From stdpp Require Import base tactics list strings.
From Stdlib Require Import ZArith Lia Ascii DecimalString.
From S2P Require Import Prelude PyStr Json JsonFacts.

Definition MAX_BODY_BYTES : Z := 1048576.
Definition READLINE_LIMIT : Z := MAX_BODY_BYTES + 1.

Definition MESSAGE_SET : list string :=
  ["Bad request"; "Unauthorized"; "Not found"; "Not writable"; "Backend error"]%string.

Definition OversizedBodyError : exn := ValueError.
Definition TimeoutError : exn := OtherExn "TimeoutError".

(** [hmac.compare_digest] of the encoded texts. *)
Definition constant_time_eq (a b : string) : bool := String.eqb a b.

(** [bytes.strip()] leaves nothing. *)
Definition is_byte_space (c : ascii) : bool := between 9 13 c || (code c =? 32).
Definition blank_bytes (s : string) : bool := all_chars is_byte_space s.

Fixpoint ends_newline (s : string) : bool :=
  match s with
  | EmptyString => false
  | String c EmptyString => Ascii.eqb c newline
  | String _ s' => ends_newline s'
  end.

Class Utf8 := { utf8_decode : string -> option string }.

Definition ascii_decoder (u : Utf8) : Prop := forall s, isascii s = true -> utf8_decode s = Some s.

Section Wire.
Context `{Utf8}.

(** [raw] is the line that [readline(READLINE_LIMIT)] returned. *)
Definition read_one_json (raw : string) : res json :=
  if PyStr.empty raw then Ok (JObj [])
  else if MAX_BODY_BYTES <? len raw then Raise OversizedBodyError
  else if negb (ends_newline raw) then Raise ValueError
  else if blank_bytes raw then Ok (JObj [])
  else
    text ← res_of_option ValueError (utf8_decode raw);
    loads text.

(** What the successive [recv] calls answer: bytes, none of them at the end of
    the stream, or nothing before the deadline. *)
Inductive recv_answer := Chunk (c : string) | Late.

(** What a [recv] may return at most, after [raw] was read. *)
Definition recv_size (raw : string) : Z := Z.min 65536 (READLINE_LIMIT - len raw).

(** The receive loop: the bytes up to and including the first newline, or
    everything received when the limit is passed or the stream ends. *)
Fixpoint receive (answers : list recv_answer) (raw : string) : res string :=
  if MAX_BODY_BYTES <? len raw then Ok raw
  else
    match answers with
    | [] => Ok raw
    | Late :: _ => Raise TimeoutError
    | Chunk c :: answers' =>
        if PyStr.empty c then Ok raw
        else
          let '(line, separator, _) := partition_char newline c in
          if separator then Ok (raw +:+ line +:+ String newline EmptyString)
          else receive answers' (raw +:+ line)
    end.

Definition read_socket_json (answers : list recv_answer) : res json :=
  raw ← receive answers EmptyString;
  if MAX_BODY_BYTES <? len raw then Raise OversizedBodyError else read_one_json raw.

Definition write_one_json (v : json) : string := dumps v +:+ String newline EmptyString.

Definition err_envelope (message : string) : res json :=
  if existsb (String.eqb message) MESSAGE_SET
  then Ok (JObj [("status"%string, JStr "error"); ("message"%string, JStr message)])
  else Raise ValueError.
End Wire.

(** ** Printed JSON is one line of printable ASCII *)

Definition printable (c : ascii) : bool := between 32 126 c.

Lemma printable_all p s : (forall c, p c = true -> printable c = true) -> all_chars p s = true -> all_chars printable s = true.
Proof. rewrite !all_chars_spec. auto. Qed.

Lemma digit_printable c : is_digit c = true -> printable c = true.
Proof. unfold is_digit, printable, between. intros H. to_prop. apply andb_true_iff. split; apply Z.leb_le; lia. Qed.

Lemma span_all p s : all_chars p (span p s).1 = true.
Proof.
  induction s as [|c s IH]; simpl; [done |]. destruct (p c) eqn:E; [|done].
  destruct (span p s) as [a b]. unfold all_chars in *. simpl in *. by rewrite E.
Qed.

Lemma span_printable s : all_chars printable (span is_digit s).1 = true.
Proof. apply (printable_all is_digit); [apply digit_printable | apply span_all]. Qed.

Lemma int_part_printable s : all_chars printable (int_part s).1 = true.
Proof. destruct s as [|c s]; simpl; [done |]. destruct (Ascii.eqb_spec c "0"); [by subst | apply (span_printable (String c s))]. Qed.

Lemma frac_part_printable s : all_chars printable (frac_part s).1 = true.
Proof.
  destruct s as [|c s]; simpl; [done |]. destruct (Ascii.eqb_spec c "."); [subst | done].
  pose proof (span_printable s) as Hs. destruct (span is_digit s) as [ds r]. by destruct (PyStr.empty ds).
Qed.

Lemma exp_part_printable s : all_chars printable (exp_part s).1 = true.
Proof.
  destruct s as [|c s]; simpl; [done |]. destruct (is_exp c) eqn:E; [|done].
  assert (printable c = true) as Hc.
  { unfold is_exp, is_char in E. apply orb_true_iff in E as [<-%Ascii.eqb_eq | <-%Ascii.eqb_eq]; done. }
  assert (all_chars printable (sign_part s).1 = true) as Hs.
  { destruct s as [|d s]; simpl; [done |]. unfold is_sign, is_char. destruct (_ || _) eqn:Ed; [|done].
    apply orb_true_iff in Ed as [<-%Ascii.eqb_eq | <-%Ascii.eqb_eq]; done. }
  destruct (sign_part s) as [sg r1]. pose proof (span_printable r1) as Hd.
  destruct (span is_digit r1) as [ds r2]. destruct (PyStr.empty ds); [done |].
  cbn [fst] in *. change (String c (sg +:+ ds)) with (String c EmptyString +:+ (sg +:+ ds)).
  rewrite !all_chars_app, Hs, Hd. unfold all_chars. simpl. by rewrite Hc.
Qed.

Lemma minus_part_printable s : all_chars printable (minus_part s).1 = true.
Proof.
  destruct s as [|c s]; simpl; [done |]. unfold is_char. destruct (Ascii.eqb_spec "-" c); [by subst | done].
Qed.

Lemma minus_part_split s : (minus_part s).1 +:+ (minus_part s).2 = s.
Proof. destruct s as [|c s]; simpl; [done |]. by destruct (is_char _ _). Qed.

Lemma pnum_float_printable s r rest : pnum s = Some (JFloat r, rest) -> all_chars printable r = true.
Proof.
  unfold pnum. pose proof (minus_part_printable s) as Hm. destruct (minus_part s) as [m s0].
  pose proof (int_part_printable s0) as Hi. destruct (int_part s0) as [ip s1].
  pose proof (frac_part_printable s1) as Hf. destruct (frac_part s1) as [fp s2].
  pose proof (exp_part_printable s2) as He. destruct (exp_part s2) as [ep s3]. cbn [fst] in *.
  destruct (PyStr.empty ip); [done |]. destruct (_ && _).
  - destruct (NilZero.int_of_string _); simpl; congruence.
  - intros [= <- _]. by rewrite !all_chars_app, Hm, Hi, Hf, He.
Qed.

Lemma str_of_Z_printable z : all_chars printable (str_of_Z z) = true.
Proof.
  unfold str_of_Z, NilZero.string_of_int. destruct (Z.to_int z) as [d|d].
  - apply (printable_all is_digit); [apply digit_printable | apply nilzero_uint_digits].
  - change (all_chars printable (String "-" EmptyString +:+ NilZero.string_of_uint d) = true).
    rewrite all_chars_app. apply andb_true_iff. split; [done |].
    apply (printable_all is_digit); [apply digit_printable | apply nilzero_uint_digits].
Qed.

Lemma hex_digit_printable z : 0 <= z < 16 -> printable (hex_digit z) = true.
Proof.
  intros Hz. unfold hex_digit, printable, between. destruct (z <? 10) eqn:E; to_prop; rewrite code_chr by lia;
    apply andb_true_iff; split; apply Z.leb_le; lia.
Qed.

Lemma esc_char_printable c : all_chars printable (esc_char c) = true.
Proof.
  pose proof (code_range c). unfold esc_char. repeat case_match; try reflexivity.
  - unfold all_chars. simpl. rewrite andb_true_r. done.
  - unfold all_chars. cbn [chars String.list_ascii_of_string forallb].
    rewrite !hex_digit_printable; [done | |]; [apply Z.mod_pos_bound; lia |].
    split; [apply Z.div_pos | apply Z.div_lt_upper_bound]; lia.
Qed.

Lemma escape_printable s : all_chars printable (escape s) = true.
Proof. induction s as [|c s IH]; [done |]. cbn [escape]. by rewrite all_chars_app, esc_char_printable, IH. Qed.

Lemma dump_str_printable s : all_chars printable (dump_str s) = true.
Proof.
  unfold dump_str. change (String dquote ?t) with (String dquote EmptyString +:+ t).
  by rewrite !all_chars_app, escape_printable.
Qed.

Lemma join_printable sep l :
  all_chars printable sep = true -> Forall (fun s => all_chars printable s = true) l ->
  all_chars printable (join sep l) = true.
Proof.
  intros Hs Hl. induction Hl as [|x [|y l] Hx Hl IH]; [done | unfold join; simpl; by rewrite str_app_nil |].
  by rewrite join_cons2, !all_chars_app, Hx, Hs, IH.
Qed.

Lemma dump_printable st v : style_ok st -> json_wf v -> all_chars printable (dump st v) = true.
Proof.
  intros Hst. assert (all_chars printable (item_sep st) = true /\ all_chars printable (key_sep st) = true) as [Hi Hk].
  { by destruct Hst as [-> | ->]. }
  revert v. fix IH 2. intros v Hv. destruct Hv as [| b | z | r Hr | s | l Hl | d Hd Hl].
  - done.
  - by destruct b.
  - apply str_of_Z_printable.
  - simpl. unfold dump_float. repeat case_bool_decide; try done. unfold float_ok, nan_repr in Hr.
    rewrite !(bool_decide_eq_false_2 (r = _)) in Hr by done. simpl in Hr. to_prop. by eapply pnum_float_printable.
  - apply dump_str_printable.
  - cbn [dump]. rewrite !all_chars_app. apply andb_true_iff. split; [done |]. apply andb_true_iff. split; [|done].
    apply join_printable; [done |]. apply Forall_map. induction Hl; constructor; auto.
  - cbn [dump]. rewrite !all_chars_app. apply andb_true_iff. split; [done |]. apply andb_true_iff. split; [|done].
    apply join_printable; [done |]. apply Forall_map. clear Hd. induction Hl as [|[k v'] d Hv Hl IHl]; constructor; auto.
    cbn [fst snd]. by rewrite !all_chars_app, dump_str_printable, Hk, IH.
Qed.

(** ** Framing *)

Lemma printable_partition s t :
  all_chars printable s = true -> partition_char newline (s +:+ String newline t) = (s, true, t).
Proof. intros Hs. by apply partition_char_at, (all_chars_not_in printable). Qed.

Lemma printable_partition_none s :
  all_chars printable s = true -> partition_char newline s = (s, false, EmptyString).
Proof. intros Hs. by apply partition_char_none, (all_chars_not_in printable). Qed.

Lemma ends_newline_app s : ends_newline (s +:+ String newline EmptyString) = true.
Proof. induction s as [|c s IH]; [done |]. rewrite str_cons_app. cbn [ends_newline]. rewrite IH. by destruct (s +:+ _). Qed.

Lemma blank_starter s t : all_chars printable s = true -> starter s -> blank_bytes (s +:+ t) = false.
Proof.
  destruct s as [|c s]; [done |]. unfold all_chars. intros [Hp _]%andb_true_iff [Hw _]. rewrite str_cons_app.
  unfold blank_bytes, all_chars. cbn [chars String.list_ascii_of_string forallb].
  apply andb_false_iff. left. revert Hp Hw. destruct c as [[] [] [] [] [] [] [] []]; done.
Qed.

Definition concat (l : list string) : string := foldr String.append EmptyString l.

(** ** Segmentation

    The reference: the line of the whole text, read at once. *)
Definition first_line (s : string) : string :=
  let '(line, found, _) := partition_char newline s in
  if found then line +:+ String newline EmptyString else line.

Definition read_whole `{Utf8} (s : string) : res json :=
  if MAX_BODY_BYTES <? len (first_line s) then Raise OversizedBodyError else read_one_json (first_line s).

Lemma first_line_at h t : ~ In newline (chars h) -> first_line (h +:+ String newline t) = h +:+ String newline EmptyString.
Proof. intros Hn. unfold first_line. by rewrite partition_char_at. Qed.

Lemma first_line_app h t : ~ In newline (chars h) -> first_line (h +:+ t) = h +:+ first_line t.
Proof.
  intros Hn. unfold first_line. destruct (partition_char newline t) as [[l f] u] eqn:E.
  apply partition_char_spec in E as [Hl Ht].
  assert (~ In newline (chars (h +:+ l))) as Hhl by (rewrite chars_app; intros [?|?]%in_app_iff; done).
  destruct f.
  - rewrite Ht, <- str_assoc, partition_char_at by done. by rewrite str_assoc.
  - destruct Ht as [-> _]. by rewrite partition_char_none.
Qed.

(** Receiving yields the first line, or something as much over the limit. *)
Lemma receive_whole l raw :
  Forall (fun c => PyStr.empty c = false) l -> ~ In newline (chars raw) ->
  exists r, receive (map Chunk l) raw = Ok r
    /\ (r = raw +:+ first_line (concat l)
        \/ MAX_BODY_BYTES < len r /\ MAX_BODY_BYTES < len (raw +:+ first_line (concat l))).
Proof.
  intros Hl. revert raw. induction Hl as [|c l Hc Hl IH]; intros raw Hraw; cbn [map receive].
  { exists raw. split; [by case_match | left]. change (concat []) with EmptyString.
    change (first_line EmptyString) with EmptyString. by rewrite str_app_nil. }
  destruct (MAX_BODY_BYTES <? len raw) eqn:El.
  { exists raw. split; [done | right]. apply Z.ltb_lt in El. rewrite len_app.
    pose proof (len_nonneg (first_line (concat (c :: l)))). lia. }
  rewrite Hc. change (concat (c :: l)) with (c +:+ concat l).
  destruct (partition_char newline c) as [[line f] u] eqn:E. apply partition_char_spec in E as [Hline Hu]. destruct f.
  - eexists. split; [reflexivity | left]. rewrite Hu, str_assoc, str_cons_app, first_line_at by done. done.
  - destruct Hu as [-> ->]. rewrite first_line_app by done. destruct (IH (raw +:+ line)) as (r & Hr & Hor).
    { rewrite chars_app. intros [?|?]%in_app_iff; done. }
    exists r. split; [done |]. by rewrite str_assoc in Hor.
Qed.

Lemma read_segments `{Utf8} l : Forall (fun c => PyStr.empty c = false) l -> read_socket_json (map Chunk l) = read_whole (concat l).
Proof.
  intros Hl. unfold read_socket_json, read_whole.
  destruct (receive_whole l EmptyString Hl) as (r & -> & Hor); [by intros [] |].
  cbn [mbind res_bind]. change (EmptyString +:+ ?s) with s in Hor.
  destruct Hor as [-> | [H1%Z.ltb_lt H2%Z.ltb_lt]]; [done |]. by rewrite H1, H2.
Qed.

(** Reading incrementally is reading at once: whatever pieces the network
    delivers, the capped reader answers what the reference answers on their
    concatenation, its refusals of oversized and malformed lines included. *)
Theorem read_segmentation `{Utf8} (pieces : list string) :
  Forall (fun c => PyStr.empty c = false) pieces ->
  read_socket_json (map Chunk pieces) = read_whole (concat pieces).
Proof. apply read_segments. Qed.

Lemma write_ascii v : json_wf v -> isascii (write_one_json v) = true.
Proof.
  intros Hv. assert (style_ok spaced) as Hst by by right. pose proof (dump_printable _ v Hst Hv) as Hpr.
  unfold isascii, write_one_json. rewrite all_chars_app. apply andb_true_iff. split; [|done].
  revert Hpr. unfold dumps. rewrite !all_chars_spec. intros Hpr c Hin. specialize (Hpr c Hin).
  unfold printable, between in Hpr. to_prop. apply Z.ltb_lt. lia.
Qed.

Lemma read_written `{Utf8} (v : json) (pieces : list string) (rest : string) :
  ascii_decoder _ -> json_wf v -> len (write_one_json v) <= MAX_BODY_BYTES ->
  Forall (fun c => PyStr.empty c = false) pieces -> concat pieces = write_one_json v +:+ rest ->
  read_socket_json (map Chunk pieces) = Ok v.
Proof.
  intros Hdec Hv Hlen Hp Heq. assert (style_ok spaced) as Hst by by right.
  pose proof (dump_printable _ v Hst Hv) as Hpr. unfold write_one_json in *. rewrite str_assoc, str_cons_app in Heq.
  assert (len (String newline EmptyString) = 1) as H1 by done. rewrite len_app, H1 in Hlen.
  rewrite read_segments by done. unfold read_whole. rewrite Heq, first_line_at by by apply (all_chars_not_in printable).
  rewrite len_app, H1. unfold dumps in *.
  rewrite (proj2 (Z.ltb_ge _ _)) by lia. unfold read_one_json.
  pose proof (dump_starter spaced v Hv) as Hstart.
  destruct (PyStr.empty _) eqn:E; [by destruct (dump spaced v) |]. rewrite len_app, H1, (proj2 (Z.ltb_ge _ _)) by lia.
  rewrite ends_newline_app. cbn [negb]. rewrite blank_starter by done. rewrite Hdec.
  - cbn [res_of_option mbind res_bind]. by apply loads_dump_blank.
  - by apply (write_ascii v).
Qed.

(** C15. The secret service's framing is a round trip: what one side writes the
    other reads, whatever the pieces the bytes arrive in and whatever follows
    the line, as long as the line fits the limit. *)
Theorem wire_roundtrip `{Utf8} (v : json) (pieces : list string) (rest : string) :
  ascii_decoder _ -> json_wf v -> len (write_one_json v) <= MAX_BODY_BYTES ->
  Forall (fun c => PyStr.empty c = false) pieces -> concat pieces = write_one_json v +:+ rest ->
  read_socket_json (map Chunk pieces) = Ok v.
Proof. apply read_written. Qed.

#[local] Instance w_utf8 : Utf8 := {| utf8_decode := fun s => if isascii s then Some s else None |}.

Lemma w_utf8_ascii : ascii_decoder w_utf8.
Proof. intros s Hs. simpl. by rewrite Hs. Qed.

Lemma wire_roundtrip_witness :
  read_socket_json (map Chunk ["{"; dump_str "op" +:+ ": " +:+ dump_str "ping" +:+ "}" ; String newline "more"]%string)
  = Ok (JObj [("op"%string, JStr "ping")]).
Proof.
  apply (wire_roundtrip _ _ "more" w_utf8_ascii).
  - constructor; [apply NoDup_singleton | repeat constructor].
  - by vm_compute.
  - repeat constructor.
  - reflexivity.
Defined.

Lemma read_segmentation_witness :
  read_socket_json (map Chunk ["{}"%string; String newline "x"]) = Ok (JObj []).
Proof. rewrite read_segmentation; [by vm_compute | by repeat constructor]. Defined.
