(* ===== verification/Sps.v ===== *)
(** The secret service: sps/store.py, sps/handlers.py and the request path of
    sps/server.py.

    The backend is an interface ([Plugin], sps/plugins/base.py) over a state of
    its own; so is the audit log ([AuditSink]).  The registration pool is read
    at most once by each operation and every access holds its lock, so an
    operation is atomic on the pool; the backend interface is arbitrary, so
    other threads' backend calls are part of its state. *)

From stdpp Require Import base tactics list strings.
From Stdlib Require Import ZArith Lia Ascii.
From S2P Require Import Prelude PyStr Json Action SpsWire.

(** ** Interfaces *)

Class Plugin (B : Type) := {
  plugin_get : B -> string -> string -> res string * B;
  plugin_write : B -> string -> string -> string -> res unit * B }.

(** What a backend promises: in its own states a write that succeeds is what
    the next read of that field returns. *)
Class PluginLaws (B : Type) `{Plugin B} := {
  plugin_inv : B -> Prop;
  inv_after_write : forall b b' field item value r,
    plugin_inv b -> plugin_write b field item value = (r, b') -> plugin_inv b';
  read_after_write : forall b b' field item value,
    plugin_inv b -> plugin_write b field item value = (Ok tt, b') -> (plugin_get b' field item).1 = Ok value }.

(** The arguments of [audit.event]. *)
Record audit_event := AuditEvent {
  ev_action : string; ev_tool_id : string; ev_secret_name : string; ev_outcome : string;
  ev_count : option Z; ev_entries : option (list (string * string) * Z * Z) }.

Class AuditSink (A : Type) := { audit_write : A -> audit_event -> res unit * A }.

(** ** Registrations *)

Record cs_tuple := CsTuple { cs_name : string; cs_field : string; cs_item : option string; cs_writable : bool }.

Record registration := Registration { rg_esecret : string; rg_entries : list cs_tuple }.

(** config.Config, the part the handlers read. *)
Record sps_config := SpsConfig {
  c_sp_secret : string; c_grants : dict (list string); c_max_value : Z }.

(** The exceptions of the module; [Failed] is any other. *)
Inductive sps_exn :=
| AuthError | BadRegistration | ToolNotFound | SecretNotFound | NotWritable | BackendError | Failed (e : exn).

#[export] Instance sps_exn_eq_dec : EqDecision sps_exn.
Proof. solve_decision. Defined.

(** The calls a handler makes to the backend, for the trace. *)
Inductive backend_call :=
| BGet (tool_id field item : string)
| BWrite (tool_id field item value : string).

Record reject_counts := Rejects { rj_admission : Z; rj_transport : Z; rj_ping : Z; rj_invalid : Z }.

(** [sp_calls] and [sp_events] are the backend calls and the audit records so
    far. *)
Record sps (B A : Type) := Sps {
  sp_pool : dict registration; sp_backend : B; sp_calls : list backend_call;
  sp_audit : A; sp_events : list audit_event; sp_rejects : reject_counts }.
Arguments Sps {B A}.
Arguments sp_pool {B A}.
Arguments sp_backend {B A}.
Arguments sp_calls {B A}.
Arguments sp_audit {B A}.
Arguments sp_events {B A}.
Arguments sp_rejects {B A}.

Section Server.
Context {B A : Type} `{Plugin B} `{AuditSink A} `{Digest}.
Implicit Types (s : sps B A) (c : sps_config) (msg : dict json).

(** A handler: the answer or the exception, and the state. *)
Definition SM (T : Type) : Type := sps B A -> (T + sps_exn) * sps B A.

#[local] Instance SM_ret : MRet SM := fun _ a s => (inl a, s).
#[local] Instance SM_bind : MBind SM := fun _ _ f m s =>
  match m s with (inl a, s') => f a s' | (inr e, s') => (inr e, s') end.

Definition fail {T} (e : sps_exn) : SM T := fun s => (inr e, s).
Definition fail_if (b : bool) (e : sps_exn) : SM unit := fun s => (if b then inr e else inl tt, s).
Definition pool : SM (dict registration) := fun s => (inl (sp_pool s), s).
Definition set_pool (p : dict registration) : SM unit := fun s =>
  (inl tt, Sps p (sp_backend s) (sp_calls s) (sp_audit s) (sp_events s) (sp_rejects s)).

(** [ctx.plugin.get_secret] and [write_secret]; any exception is a backend error. *)
Definition backend_get (tool_id field item : string) : SM string := fun s =>
  let '(r, b) := plugin_get (sp_backend s) field item in
  (match r with Ok v => inl v | Raise _ => inr BackendError end,
   Sps (sp_pool s) b (sp_calls s ++ [BGet tool_id field item]) (sp_audit s) (sp_events s) (sp_rejects s)).

Definition backend_write (tool_id field item value : string) : SM unit := fun s =>
  let '(r, b) := plugin_write (sp_backend s) field item value in
  (match r with Ok _ => inl tt | Raise _ => inr BackendError end,
   Sps (sp_pool s) b (sp_calls s ++ [BWrite tool_id field item value]) (sp_audit s) (sp_events s) (sp_rejects s)).

(** *** Fields and authentication *)

Definition text_field (msg : dict json) (key : string) : option string :=
  match jget msg key with JStr v => if PyStr.empty v then None else Some v | _ => None end.

Definition _field (msg : dict json) (key : string) : SM string :=
  match text_field msg key with Some v => mret v | None => fail BadRegistration end.

Definition check_sp (c : sps_config) (msg : dict json) : SM unit :=
  match text_field msg "spsecret" with
  | Some v => fail_if (negb (constant_time_eq v (c_sp_secret c))) AuthError
  | None => fail AuthError
  end.

Definition zeros : string := of_chars (repeat "0"%char 64).

Definition check_es (tool_id : string) (msg : dict json) : SM registration :=
  match text_field msg "esecret" with
  | Some v =>
      p ← pool;
      let rec_ := dget p tool_id in
      let matched := constant_time_eq v (match rec_ with Some r => rg_esecret r | None => zeros end) in
      match rec_ with
      | Some r => if matched then mret r else fail AuthError
      | None => fail AuthError
      end
  | None => fail AuthError
  end.

(** *** Registration *)

(** One entry, given the names before it. *)
Definition parse_entry (names : list string) (e : json) : option cs_tuple :=
  match e with
  | JObj d =>
      match text_field d "name", text_field d "field" with
      | Some name, Some field =>
          if existsb (String.eqb name) names then None
          else
            match (match jget d "item" with
                   | JNull => Some None
                   | JStr i => if PyStr.empty i then None else Some (Some i)
                   | _ => None end),
                  (match default (JBool false) (dget d "writable") with JBool w => Some w | _ => None end) with
            | Some item, Some writable => Some (CsTuple name field item writable)
            | _, _ => None
            end
      | _, _ => None
      end
  | _ => None
  end.

Fixpoint parse_entries (names : list string) (l : list json) : option (list cs_tuple) :=
  match l with
  | [] => Some []
  | e :: l' =>
      t ← parse_entry names e;
      ts ← parse_entries (cs_name t :: names) l';
      Some (t :: ts)
  end.

Definition parse_cs_tuples (entries : json) : option (list cs_tuple) :=
  match entries with JArr l => parse_entries [] l | _ => None end.

(** [entry["item"] or tool_id]. *)
Definition item_of (tool_id : string) (e : cs_tuple) : string :=
  match cs_item e with Some i => if PyStr.empty i then tool_id else i | None => tool_id end.

Definition granted (c : sps_config) (tool_id : string) (e : cs_tuple) : bool :=
  String.eqb (item_of tool_id e) tool_id
  || existsb (String.eqb (item_of tool_id e)) (default [] (dget (c_grants c) tool_id)).

Definition esecret_ok (v : string) : bool := all_chars is_hex v && (32 <=? len v).

Definition ok_reply (more : dict json) : json := JObj (("status"%string, JStr "ok") :: more).

Definition handle_ping (boot_id : string) (pid : Z) (msg : dict json) : SM json :=
  mret (ok_reply [("boot_id"%string, JStr boot_id); ("pid"%string, JInt pid)]).

Definition handle_register (c : sps_config) (msg : dict json) : SM json :=
  _ ← check_sp c msg;
  tool_id ← _field msg "toolid";
  match jget msg "esecret" with
  | JStr esecret =>
      if negb (esecret_ok esecret) then fail BadRegistration
      else
        match parse_cs_tuples (jget msg "secrets") with
        | None => fail BadRegistration
        | Some entries =>
            _ ← fail_if (existsb (fun e => negb (granted c tool_id e)) entries) AuthError;
            p ← pool;
            _ ← set_pool (dset p tool_id (Registration esecret entries));
            mret (ok_reply [])
        end
  | _ => fail BadRegistration
  end.

Definition handle_unregister (c : sps_config) (msg : dict json) : SM json :=
  _ ← check_sp c msg;
  tool_id ← _field msg "toolid";
  p ← pool;
  _ ← set_pool (dpop p tool_id);
  mret (ok_reply []).

(** *** Secrets *)

Fixpoint read_entries (tool_id : string) (l : list cs_tuple) (body : dict json) : SM (dict json) :=
  match l with
  | [] => mret body
  | e :: l' =>
      v ← backend_get tool_id (cs_field e) (item_of tool_id e);
      read_entries tool_id l' (dset body (cs_name e) (JStr v))
  end.

Definition handle_get_secrets (msg : dict json) : SM json :=
  tool_id ← _field msg "toolid";
  r ← check_es tool_id msg;
  body ← read_entries tool_id (rg_entries r) [];
  mret (ok_reply [("secrets"%string, JObj body)]).

Definition find_entry (name : string) (l : list cs_tuple) : option cs_tuple :=
  List.find (fun e => String.eqb (cs_name e) name) l.

Definition handle_get_secret (msg : dict json) : SM json :=
  tool_id ← _field msg "toolid";
  name ← _field msg "name";
  r ← check_es tool_id msg;
  match find_entry name (rg_entries r) with
  | None => fail SecretNotFound
  | Some e =>
      v ← backend_get tool_id (cs_field e) (item_of tool_id e);
      mret (ok_reply [("secrets"%string, JObj [(name, JStr v)])])
  end.

Definition handle_write_secret (c : sps_config) (msg : dict json) : SM json :=
  tool_id ← _field msg "toolid";
  name ← _field msg "name";
  r ← check_es tool_id msg;
  match find_entry name (rg_entries r) with
  | None => fail SecretNotFound
  | Some e =>
      if negb (cs_writable e) then fail NotWritable
      else
        match jget msg "value" with
        | JStr value =>
            if c_max_value c <? utf8_len value then fail BadRegistration
            else
              _ ← backend_write tool_id (cs_field e) (item_of tool_id e) value;
              mret (ok_reply [("name"%string, JStr name)])
        | _ => fail BadRegistration
        end
  end.

(** ** server.py: one connection *)

Inductive sps_op := Ping | Register | Unregister | GetSecrets | GetSecret | WriteSecret.

#[export] Instance sps_op_eq_dec : EqDecision sps_op.
Proof. solve_decision. Defined.

(** [_HANDLER_BY_OP.get]. *)
Definition op_named (name : string) : option sps_op :=
  if String.eqb name "ping" then Some Ping
  else if String.eqb name "register" then Some Register
  else if String.eqb name "unregister" then Some Unregister
  else if String.eqb name "get_secrets" then Some GetSecrets
  else if String.eqb name "get_secret" then Some GetSecret
  else if String.eqb name "write_secret" then Some WriteSecret
  else None.

Definition op_text (o : option sps_op) : string :=
  match o with
  | Some Ping => "ping" | Some Register => "register" | Some Unregister => "unregister"
  | Some GetSecrets => "get_secrets" | Some GetSecret => "get_secret" | Some WriteSecret => "write_secret"
  | None => "invalid"
  end%string.

Definition run_op (boot_id : string) (pid : Z) (c : sps_config) (o : sps_op) (msg : dict json) : SM json :=
  match o with
  | Ping => handle_ping boot_id pid msg
  | Register => handle_register c msg
  | Unregister => handle_unregister c msg
  | GetSecrets => handle_get_secrets msg
  | GetSecret => handle_get_secret msg
  | WriteSecret => handle_write_secret c msg
  end.

(** The [except] clauses. *)
Definition exn_message (e : sps_exn) : string :=
  match e with
  | AuthError => "Unauthorized"
  | BadRegistration => "Bad request"
  | ToolNotFound | SecretNotFound => "Not found"
  | NotWritable => "Not writable"
  | BackendError => "Backend error"
  | Failed ValueError => "Bad request"
  | Failed (OtherExn n) =>
      if existsb (String.eqb n) ["TimeoutError"; "OSError"]%string then "Bad request" else "Backend error"
  | Failed _ => "Backend error"
  end%string.

Definition err_reply (message : string) : json :=
  JObj [("status"%string, JStr "error"); ("message"%string, JStr message)].

Definition hashed (v : string) : string := "sha256:" +:+ sha256_hex v.

Definition identity (msg : dict json) (key : string) : string :=
  match text_field msg key with Some v => hashed v | None => EmptyString end.

(** The metadata of a registration that succeeded; [msg] passed [parse_cs_tuples]. *)
Definition register_extra (msg : dict json) : option (list (string * string) * Z * Z) :=
  let tool_id := default EmptyString (text_field msg "toolid") in
  entries ← parse_cs_tuples (jget msg "secrets");
  Some (map (fun e => (hashed (cs_field e), hashed (item_of tool_id e))) entries,
        Z.of_nat (length entries), count_where cs_writable entries).

Definition saturate (n : Z) : Z := Z.min (n + 1) (2 ^ 31 - 1).

Inductive reject_kind := RAdmission | RTransport | RPing | RInvalid.

Definition _record_reject (k : reject_kind) (r : reject_counts) : reject_counts :=
  match k with
  | RAdmission => Rejects (saturate (rj_admission r)) (rj_transport r) (rj_ping r) (rj_invalid r)
  | RTransport => Rejects (rj_admission r) (saturate (rj_transport r)) (rj_ping r) (rj_invalid r)
  | RPing => Rejects (rj_admission r) (rj_transport r) (saturate (rj_ping r)) (rj_invalid r)
  | RInvalid => Rejects (rj_admission r) (rj_transport r) (rj_ping r) (saturate (rj_invalid r))
  end.

Definition count_reject (k : reject_kind) (s : sps B A) : sps B A :=
  Sps (sp_pool s) (sp_backend s) (sp_calls s) (sp_audit s) (sp_events s) (_record_reject k (sp_rejects s)).

Definition audit (e : audit_event) (s : sps B A) : res unit * sps B A :=
  let '(r, a) := audit_write (sp_audit s) e in
  (r, Sps (sp_pool s) (sp_backend s) (sp_calls s) a (sp_events s ++ [e]) (sp_rejects s)).

(** The operation of an envelope that was read. *)
Definition envelope (read : res json) : res (dict json * string) :=
  match read with
  | Ok (JObj msg) => match jget msg "op" with JStr name => Ok (msg, name) | _ => Raise ValueError end
  | Ok _ => Raise ValueError
  | Raise e => Raise e
  end.

(** The first [try] statement of [handle]: the message as far as it is known,
    the audited operation and the response. *)
Definition dispatch (boot_id : string) (pid : Z) (c : sps_config) (read : res json) (s : sps B A)
    : dict json * option sps_op * json * sps B A :=
  let msg := match read with Ok (JObj m) => m | _ => [] end in
  match envelope read with
  | Raise e => (msg, None, err_reply (exn_message (Failed e)), s)
  | Ok (msg, name) =>
      match op_named name with
      | None => (msg, None, err_reply (exn_message (Failed ValueError)), s)
      | Some o =>
          let '(r, s') := run_op boot_id pid c o msg s in
          (msg, Some o,
           match r with
           | inl reply => reply
           | inr (Failed ValueError) => err_reply (exn_message BackendError)
           | inr e => err_reply (exn_message e)
           end, s')
      end
  end.

(** [response.get("status") == "ok"], else its message. *)
Definition outcome_of (response : json) : string :=
  match response with
  | JObj d =>
      if bool_decide (jget d "status" = JStr "ok") then "ok"
      else match jget d "message" with
           | JStr m => if existsb (String.eqb m) MESSAGE_SET then m else "Backend error"
           | _ => "Backend error"
           end
  | _ => "Backend error"
  end%string.

(** [_StreamHandler.handle]: the response is released only once it is audited. *)
Definition handle (boot_id : string) (pid : Z) (c : sps_config) (read : res json) (s : sps B A) : json * sps B A :=
  let '(msg, op, response, s1) := dispatch boot_id pid c read s in
  let outcome := outcome_of response in
  if bool_decide (op = Some Ping) || bool_decide (op = None)
     || String.eqb outcome "Bad request" || String.eqb outcome "Unauthorized"
  then (response, count_reject (if bool_decide (op = Some Ping) then RPing else RInvalid) s1)
  else
    let extra := if bool_decide (op = Some Register) && String.eqb outcome "ok" then register_extra msg else None in
    let '(r, s2) := audit (AuditEvent (op_text op) (identity msg "toolid") (identity msg "name") outcome None extra) s1 in
    match r with
    | Ok _ => (response, s2)
    | Raise _ => (err_reply "Backend error", s2)
    end.
End Server.
