(* ===== verification/SpsFacts.v ===== *)
(** What the secret service guarantees: a tool reaches exactly the backend
    values it was registered for with its own secret, nothing is released
    unaudited, and refusals tell nothing. *)

From stdpp Require Import base tactics list strings.
From Stdlib Require Import ZArith Lia Ascii.
From S2P Require Import Prelude PyStr Json JsonFacts Action SpsWire Sps.

Section Facts.
Context {B A : Type} `{Plugin B} `{AuditSink A} `{Digest}.
Implicit Types (s : sps B A) (c : sps_config) (msg : dict json).

#[local] Existing Instance SM_ret.
#[local] Existing Instance SM_bind.

(** ** What one operation may do *)

(** A backend call made for the message [msg] when the pool was [p]. *)
Inductive authorized (c : sps_config) (msg : dict json) (p : dict registration) : backend_call -> Prop :=
| auth_get tool_id r e :
    text_field msg "toolid" = Some tool_id -> dget p tool_id = Some r ->
    text_field msg "esecret" = Some (rg_esecret r) -> In e (rg_entries r) ->
    authorized c msg p (BGet tool_id (cs_field e) (item_of tool_id e))
| auth_write tool_id r e value :
    text_field msg "toolid" = Some tool_id -> dget p tool_id = Some r ->
    text_field msg "esecret" = Some (rg_esecret r) -> In e (rg_entries r) ->
    text_field msg "name" = Some (cs_name e) -> cs_writable e = true ->
    jget msg "value" = JStr value -> utf8_len value <= c_max_value c ->
    authorized c msg p (BWrite tool_id (cs_field e) (item_of tool_id e) value).

(** What the operator's message may do to the pool. *)
Definition registration_ok (c : sps_config) (tool_id : string) (r : registration) : Prop :=
  esecret_ok (rg_esecret r) = true /\ NoDup (map cs_name (rg_entries r))
  /\ Forall (fun e => granted c tool_id e = true) (rg_entries r).

Inductive pool_step (c : sps_config) (msg : dict json) (p : dict registration) : dict registration -> Prop :=
| pool_same : pool_step c msg p p
| pool_register tool_id r :
    text_field msg "spsecret" = Some (c_sp_secret c) -> registration_ok c tool_id r ->
    pool_step c msg p (dset p tool_id r)
| pool_unregister tool_id :
    text_field msg "spsecret" = Some (c_sp_secret c) -> pool_step c msg p (dpop p tool_id).

(** The effects of an operation: pool and backend calls only. *)
Record acts (c : sps_config) (msg : dict json) (s s' : sps B A) : Prop := {
  ac_pool : pool_step c msg (sp_pool s) (sp_pool s');
  ac_calls : exists more, sp_calls s' = sp_calls s ++ more /\ Forall (authorized c msg (sp_pool s)) more;
  ac_audit : sp_audit s' = sp_audit s;
  ac_events : sp_events s' = sp_events s;
  ac_rejects : sp_rejects s' = sp_rejects s }.

Lemma acts_refl c msg s : acts c msg s s.
Proof. constructor; try done; [constructor | exists []; by rewrite app_nil_r]. Qed.

(** Only backend calls, all authorized under the pool [p]. *)
Definition calls_only (c : sps_config) (msg : dict json) (s s' : sps B A) : Prop :=
  acts c msg s s' /\ sp_pool s' = sp_pool s.

Lemma calls_only_refl c msg s : calls_only c msg s s.
Proof. split; [apply acts_refl | done]. Qed.

Lemma calls_only_trans c msg s1 s2 s3 : calls_only c msg s1 s2 -> calls_only c msg s2 s3 -> calls_only c msg s1 s3.
Proof.
  intros [[_ (m1 & C1 & F1) A1 E1 R1] P1] [[_ (m2 & C2 & F2) A2 E2 R2] P2]. split; [|congruence].
  constructor; try congruence; [rewrite P2, P1; constructor |].
  exists (m1 ++ m2). rewrite C2, C1, app_assoc. split; [done |]. rewrite P1 in F2. by apply Forall_app.
Qed.

Lemma backend_get_calls c msg tool_id field item s :
  authorized c msg (sp_pool s) (BGet tool_id field item) ->
  calls_only c msg s (backend_get tool_id field item s).2.
Proof.
  intros Ha. unfold backend_get. destruct (plugin_get _ _ _) as [r b].
  split; [|done]. constructor; simpl; try done; [constructor |]. exists [BGet tool_id field item]. auto.
Qed.

Lemma backend_write_calls c msg tool_id field item value s :
  authorized c msg (sp_pool s) (BWrite tool_id field item value) ->
  calls_only c msg s (backend_write tool_id field item value s).2.
Proof.
  intros Ha. unfold backend_write. destruct (plugin_write _ _ _ _) as [r b].
  split; [|done]. constructor; simpl; try done; [constructor |]. exists [BWrite tool_id field item value]. auto.
Qed.

Lemma check_es_true tool_id msg s r s' :
  check_es tool_id msg s = (inl r, s') ->
  s' = s /\ dget (sp_pool s) tool_id = Some r /\ text_field msg "esecret" = Some (rg_esecret r).
Proof.
  unfold check_es, mbind, SM_bind, pool, fail, mret, SM_ret. destruct (text_field msg "esecret") as [v|]; [|done]. unfold constant_time_eq.
  destruct (dget (sp_pool s) tool_id) as [r'|]; [|done].
  destruct (String.eqb_spec v (rg_esecret r')); [|done]. intros [= <- <-]. by subst.
Qed.

Lemma check_es_state tool_id msg s : (check_es tool_id msg s).2 = s.
Proof.
  unfold check_es, mbind, SM_bind, pool, fail, mret, SM_ret. destruct (text_field msg "esecret") as [v|]; [|done].
  destruct (dget (sp_pool s) tool_id) as [r'|]; [|done]. by destruct (constant_time_eq _ _).
Qed.

Lemma read_entries_calls c msg tool_id r l body s :
  text_field msg "toolid" = Some tool_id -> dget (sp_pool s) tool_id = Some r ->
  text_field msg "esecret" = Some (rg_esecret r) -> (forall e, In e l -> In e (rg_entries r)) ->
  calls_only c msg s (read_entries tool_id l body s).2.
Proof.
  intros Ht Hr He. revert body s Hr. induction l as [|e l IH]; intros body s Hr Hl; [apply calls_only_refl |].
  cbn [read_entries]. unfold mbind, SM_bind.
  pose proof (backend_get_calls c msg tool_id (cs_field e) (item_of tool_id e) s) as Hc.
  destruct (backend_get tool_id (cs_field e) (item_of tool_id e) s) as [[v|x] s1]; simpl in Hc.
  - eapply calls_only_trans; [apply Hc; econstructor; eauto; apply Hl; by left |].
    apply IH; [|intros; apply Hl; by right]. destruct Hc as [_ ->]; [|done]. econstructor; eauto. apply Hl. by left.
  - apply Hc. econstructor; eauto. apply Hl. by left.
Qed.

Lemma find_entry_In name l e : find_entry name l = Some e -> In e l /\ cs_name e = name.
Proof. intros [Hi Hn]%find_some. split; [done |]. by apply String.eqb_eq. Qed.

(** *** The entries of a registration *)

Lemma parse_entry_name names e t : parse_entry names e = Some t -> ~ In (cs_name t) names.
Proof.
  unfold parse_entry. destruct e as [| | | | | |d]; try done.
  destruct (text_field d "name") as [name|], (text_field d "field") as [field|]; try done.
  destruct (existsb _ names) eqn:Ex; [done |].
  assert (~ In name names) as Hn.
  { intros Hin. assert (existsb (String.eqb name) names = true) as Hc; [|congruence].
    apply existsb_exists. exists name. split; [done | apply String.eqb_refl]. }
  destruct (jget d "item"); try done; repeat (case_match; try done); by intros [= <-].
Qed.

Lemma parse_entries_names names l ts :
  parse_entries names l = Some ts -> NoDup (map cs_name ts) /\ (forall t, In t ts -> ~ In (cs_name t) names).
Proof.
  revert names ts. induction l as [|e l IH]; intros names ts; cbn [parse_entries].
  { intros [= <-]. split; [by apply NoDup_nil | by intros ? []]. }
  destruct (parse_entry names e) as [t|] eqn:Et; [|done]. cbn [mbind option_bind].
  destruct (parse_entries (cs_name t :: names) l) as [ts'|] eqn:El; [|done]. intros [= <-].
  apply parse_entry_name in Et. apply IH in El as [Hn Hi]. split.
  - cbn [map]. apply NoDup_cons. split; [|done]. intros Hin%list_elem_of_In.
    apply in_map_iff in Hin as (t' & Heq & Hin). apply (Hi _ Hin). left. by rewrite Heq.
  - intros t' [<- | Hin]; [done |]. intros Hc. apply (Hi _ Hin). by right.
Qed.

Lemma handle_register_acts c msg s : acts c msg s (handle_register c msg s).2.
Proof.
  unfold handle_register, check_sp, _field, mbind, SM_bind, fail_if, fail, pool, set_pool, mret, SM_ret.
  destruct (text_field msg "spsecret") as [sp|] eqn:Esp; [|apply acts_refl].
  unfold constant_time_eq. destruct (String.eqb_spec sp (c_sp_secret c)); [|apply acts_refl]. cbn [negb]. subst sp.
  destruct (text_field msg "toolid") as [tool_id|]; [|apply acts_refl].
  destruct (jget msg "esecret") as [| | | |esecret| |] eqn:Ees; try apply acts_refl.
  destruct (esecret_ok esecret) eqn:Eok; [|apply acts_refl]. cbn [negb].
  destruct (parse_cs_tuples _) as [entries|] eqn:Ep; [|apply acts_refl].
  destruct (existsb _ entries) eqn:Ex; [apply acts_refl |].
  constructor; simpl; try done; [|exists []; by rewrite app_nil_r]. apply pool_register; [done |].
  split; [done |]. split.
  - unfold parse_cs_tuples in Ep. destruct (jget msg "secrets") as [| | | | |l|]; try done.
    by apply parse_entries_names in Ep as [? _].
  - apply Forall_forall. intros e He%list_elem_of_In. destruct (granted c tool_id e) eqn:Eg; [done |].
    assert (existsb (fun e => negb (granted c tool_id e)) entries = true) as Hc; [|congruence].
    apply existsb_exists. exists e. by rewrite Eg.
Qed.

Lemma handle_unregister_acts c msg s : acts c msg s (handle_unregister c msg s).2.
Proof.
  unfold handle_unregister, check_sp, _field, mbind, SM_bind, fail_if, fail, pool, set_pool, mret, SM_ret.
  destruct (text_field msg "spsecret") as [sp|] eqn:Esp; [|apply acts_refl].
  unfold constant_time_eq. destruct (String.eqb_spec sp (c_sp_secret c)); [|apply acts_refl]. cbn [negb]. subst sp.
  destruct (text_field msg "toolid") as [tool_id|]; [|apply acts_refl].
  constructor; simpl; try done; [by apply pool_unregister | exists []; by rewrite app_nil_r].
Qed.

(** Runs a handler up to its registration. *)
Ltac reach_registration s :=
  unfold _field, mbind, SM_bind, fail, mret, SM_ret;
  repeat match goal with
  | |- context [text_field ?m ?k] =>
      let v := fresh "v" in destruct (text_field m k) as [v|] eqn:?; [|apply calls_only_refl]
  end;
  match goal with
  | |- context [check_es ?t ?m s] =>
      let Es := fresh "Es" in pose proof (check_es_state t m s) as Es;
      let r := fresh "r" in let s' := fresh "after" in let E := fresh "Ees" in
      destruct (check_es t m s) as [[r|] s'] eqn:E;
      [apply check_es_true in E as (-> & ?Hr & ?He) | simpl in Es; subst s'; apply calls_only_refl]
  end.

Lemma handle_get_secrets_calls c msg s : calls_only c msg s (handle_get_secrets msg s).2.
Proof.
  unfold handle_get_secrets. reach_registration s.
  pose proof (read_entries_calls c msg _ r (rg_entries r) [] s ltac:(eassumption) Hr He (fun _ h => h)) as Hc.
  by destruct (read_entries _ _ _ s) as [[body|x] s2].
Qed.

Lemma handle_get_secret_calls c msg s : calls_only c msg s (handle_get_secret msg s).2.
Proof.
  unfold handle_get_secret. reach_registration s.
  destruct (find_entry _ _) as [e|] eqn:Ef; [|apply calls_only_refl]. apply find_entry_In in Ef as [Hin Hn].
  pose proof (backend_get_calls c msg v (cs_field e) (item_of v e) s) as Hc.
  destruct (backend_get _ _ _ s) as [[w|x] s2]; apply Hc; econstructor; eauto.
Qed.

Lemma handle_write_secret_calls c msg s : calls_only c msg s (handle_write_secret c msg s).2.
Proof.
  unfold handle_write_secret. reach_registration s.
  destruct (find_entry _ _) as [e|] eqn:Ef; [|apply calls_only_refl]. apply find_entry_In in Ef as [Hin Hn].
  destruct (cs_writable e) eqn:Ew; [|apply calls_only_refl]. cbn [negb].
  destruct (jget msg "value") as [| | | |value| |] eqn:Ev; try apply calls_only_refl.
  destruct (_ <? _) eqn:Ez; [apply calls_only_refl |]. to_prop.
  pose proof (backend_write_calls c msg v (cs_field e) (item_of v e) value s) as Hc.
  destruct (backend_write _ _ _ _ s) as [[w|x] s2]; apply Hc; econstructor; eauto; congruence.
Qed.

Lemma run_op_acts boot_id pid c o msg s : acts c msg s (run_op boot_id pid c o msg s).2.
Proof.
  destruct o; simpl.
  - apply acts_refl.
  - apply handle_register_acts.
  - apply handle_unregister_acts.
  - apply handle_get_secrets_calls.
  - apply handle_get_secret_calls.
  - apply handle_write_secret_calls.
Qed.

(** ** One connection *)

Definition message_of (read : res json) : dict json := match read with Ok (JObj m) => m | _ => [] end.

Lemma dispatch_acts boot_id pid c read s :
  let '(msg, _, _, s') := dispatch boot_id pid c read s in msg = message_of read /\ acts c msg s s'.
Proof.
  unfold dispatch, envelope. destruct read as [[| | | | | |m]|e]; try (split; [done | apply acts_refl]).
  destruct (jget m "op"); try (split; [done | apply acts_refl]).
  destruct (op_named _) as [o|]; [|split; [done | apply acts_refl]].
  pose proof (run_op_acts boot_id pid c o m s) as Ha. by destruct (run_op _ _ _ _ _ _) as [r s'].
Qed.

(** What [handle] adds to [dispatch]: at most one audit record. *)
Lemma handle_eq boot_id pid c read s :
  let '(msg, op, response, s1) := dispatch boot_id pid c read s in
  sp_pool (handle boot_id pid c read s).2 = sp_pool s1 /\ sp_calls (handle boot_id pid c read s).2 = sp_calls s1.
Proof.
  unfold handle. destruct (dispatch _ _ _ _ _) as [[[msg op] response] s1].
  case_match; [done |]. unfold audit. by destruct (audit_write _ _) as [[] ?].
Qed.

Lemma handle_acts boot_id pid c read s :
  let s' := (handle boot_id pid c read s).2 in
  pool_step c (message_of read) (sp_pool s) (sp_pool s')
  /\ exists more, sp_calls s' = sp_calls s ++ more /\ Forall (authorized c (message_of read) (sp_pool s)) more.
Proof.
  pose proof (dispatch_acts boot_id pid c read s) as Hd. pose proof (handle_eq boot_id pid c read s) as Hh.
  destruct (dispatch _ _ _ _ _) as [[[msg op] response] s1]. destruct Hd as [-> [Hp Hc _ _ _]].
  destruct Hh as [Ep Ec]. cbv zeta. rewrite Ep, Ec. by split.
Qed.

(** C11. Every backend access is authorized by the message that causes it: the
    calls a connection makes are for the tool id the message names, by the
    secret that tool is registered with, for entries of that registration; a
    write moreover names a writable entry and stays within the size limit. *)
Theorem backend_access_authorized boot_id pid c read s :
  exists more, sp_calls (handle boot_id pid c read s).2 = sp_calls s ++ more
    /\ Forall (authorized c (message_of read) (sp_pool s)) more.
Proof. apply (handle_acts boot_id pid c read s). Qed.

(** ** Sessions *)

Definition serve (boot_id : string) (pid : Z) (c : sps_config) (reads : list (res json)) (s : sps B A) : sps B A :=
  foldl (fun s read => (handle boot_id pid c read s).2) s reads.

Definition pool_ok (c : sps_config) (p : dict registration) : Prop :=
  forall tool_id r, dget p tool_id = Some r -> registration_ok c tool_id r.

(** A backend call within what the configuration grants the tool. *)
Definition within_grants (c : sps_config) (call : backend_call) : Prop :=
  let ok tool_id item :=
    item = tool_id \/ In item (default [] (dget (c_grants c) tool_id)) in
  match call with
  | BGet tool_id _ item => ok tool_id item
  | BWrite tool_id _ item value => ok tool_id item /\ utf8_len value <= c_max_value c
  end.

Lemma pool_step_ok c msg p p' : pool_step c msg p p' -> pool_ok c p -> pool_ok c p'.
Proof.
  intros [| t r _ Hr | t _] Hp; [done | |]; intros t' r'.
  - rewrite dget_dset. destruct (decide (t = t')) as [<-|]; [by intros [= <-] | apply Hp].
  - rewrite dget_dpop. case_match; [done | apply Hp].
Qed.

Lemma granted_within c tool_id e :
  granted c tool_id e = true ->
  item_of tool_id e = tool_id \/ In (item_of tool_id e) (default [] (dget (c_grants c) tool_id)).
Proof.
  unfold granted. intros [->%String.eqb_eq | (i & Hi & ->%String.eqb_eq)%existsb_exists]%orb_true_iff; [by left | by right].
Qed.

Lemma authorized_within c msg p call : pool_ok c p -> authorized c msg p call -> within_grants c call.
Proof.
  intros Hp [t r e _ Hr _ Hin | t r e value _ Hr _ Hin _ _ _ Hlen]; destruct (Hp _ _ Hr) as (_ & _ & Hg);
    rewrite Forall_forall in Hg; pose proof (granted_within c t e (Hg e ltac:(by apply list_elem_of_In))); by simpl.
Qed.

(** C12. Tools are isolated from each other: starting from an empty pool (as
    the service always does), in every sequence of connections every backend
    call is for an item of the tool's own, or for one the operator's grants
    list for that tool, and no written value exceeds the limit. *)
Theorem tool_isolation boot_id pid c reads s :
  sp_pool s = [] -> sp_calls s = [] ->
  Forall (within_grants c) (sp_calls (serve boot_id pid c reads s)).
Proof.
  intros Hp Hc. assert (pool_ok c (sp_pool s) /\ Forall (within_grants c) (sp_calls s)) as Hinv.
  { rewrite Hp, Hc. by split; [intros ? ?|]. }
  clear Hp Hc. revert s Hinv. induction reads as [|read reads IH]; intros s [Hp Hc]; [done |]. simpl. apply IH.
  destruct (handle_acts boot_id pid c read s) as [Hs (more & -> & Hm)]. split; [by eapply pool_step_ok |].
  apply Forall_app. split; [done |]. eapply Forall_impl; [exact Hm |]. intros call. by apply authorized_within.
Qed.

(** ** Refusals *)

(** The operations a tool calls with its own secret. *)
Definition tool_op_name (name : string) : bool :=
  existsb (String.eqb name) ["get_secrets"; "get_secret"; "write_secret"]%string.

(** A wrong secret and an unknown tool cannot be told apart: whatever the
    message holds besides, the answer is the same fixed error, no backend is
    called and no audit record names the tool. *)
Theorem wrong_secret_uniform boot_id pid c msg name s :
  jget msg "op" = JStr name -> tool_op_name name = true -> text_field msg "name" <> None ->
  (forall tool_id r, text_field msg "toolid" = Some tool_id -> dget (sp_pool s) tool_id = Some r ->
     text_field msg "esecret" <> Some (rg_esecret r)) ->
  text_field msg "toolid" <> None ->
  handle boot_id pid c (Ok (JObj msg)) s = (err_reply "Unauthorized", count_reject RInvalid s).
Proof.
  intros Hop Hname Hn Hw Ht. destruct (text_field msg "toolid") as [tool_id|] eqn:Et; [|done].
  destruct (text_field msg "name") as [nm|] eqn:En; [|done].
  assert (check_es tool_id msg s = (inr AuthError, s)) as He.
  { destruct (check_es tool_id msg s) as [[r|x] s'] eqn:E.
    - apply check_es_true in E as (_ & Hr & He). by destruct (Hw _ _ eq_refl Hr).
    - revert E. unfold check_es, mbind, SM_bind, pool, fail, mret, SM_ret.
      repeat (case_match; simplify_eq; try done); by intros [= <- <-]. }
  assert (exists o, op_named name = Some o /\ run_op boot_id pid c o msg s = (inr AuthError, s)
    /\ o <> Ping) as (o & Ho & Hr & Hp).
  { unfold tool_op_name in Hname. apply existsb_exists in Hname as (n & Hin & ->%String.eqb_eq).
    destruct Hin as [<- | [<- | [<- | []]]]; eexists; (split; [reflexivity |]); (split; [|done]); simpl;
      unfold handle_get_secrets, handle_get_secret, handle_write_secret, _field, mbind, SM_bind, mret, SM_ret;
      rewrite ?En, Et; by rewrite He. }
  unfold handle, dispatch, envelope. rewrite Hop, Ho, Hr. cbv beta iota zeta.
  rewrite (bool_decide_eq_false_2 (Some o = Some Ping)) by congruence. done.
Qed.

Lemma op_named_text name o : op_named name = Some o -> op_text (Some o) = name.
Proof.
  unfold op_named.
  repeat match goal with
  | |- context [String.eqb ?a ?b] => destruct (String.eqb_spec a b) as [->|]; [by intros [= <-] |]
  end. done.
Qed.

(** C14. Nothing is released unaudited: when the answer carries a success other
    than to a probe, the audit log has accepted a record of exactly that
    operation and tool with outcome ok; so when the log refuses the record no
    value and no success is answered, whatever the backend returned. *)
Theorem release_is_audited boot_id pid c msg s d :
  (handle boot_id pid c (Ok (JObj msg)) s).1 = JObj d -> jget d "status" = JStr "ok" ->
  jget msg "op" <> JStr "ping" ->
  exists name ev a, jget msg "op" = JStr name /\ ev_action ev = name /\ ev_outcome ev = "ok"%string
    /\ ev_tool_id ev = identity msg "toolid" /\ ev_secret_name ev = identity msg "name"
    /\ audit_write (sp_audit s) ev = (Ok tt, a)
    /\ sp_events (handle boot_id pid c (Ok (JObj msg)) s).2 = sp_events s ++ [ev].
Proof.
  unfold handle, dispatch, envelope. intros Hr Hst Hping. revert Hr.
  destruct (jget msg "op") as [| | | |name| |] eqn:Hop; try (intros [= <-]; done).
  destruct (op_named name) as [o|] eqn:Ho; [|intros [= <-]; done].
  pose proof (run_op_acts boot_id pid c o msg s) as [_ _ Ea Ee _].
  destruct (run_op boot_id pid c o msg s) as [r s1]. cbn [snd] in Ea, Ee. cbv beta iota zeta.
  set (response := match r with inl reply => reply | inr _ => _ end). set (outcome := outcome_of response).
  assert (o <> Ping) as Hp. { intros ->. apply op_named_text in Ho. simpl in Ho. congruence. }
  rewrite (bool_decide_eq_false_2 (Some o = Some Ping)) by congruence. cbn [orb].
  destruct (_ || _) eqn:Eo; cbn [fst].
  { intros Hr. assert (outcome = "ok"%string) as Hout; [|by rewrite Hout in Eo].
    unfold outcome, outcome_of. rewrite Hr. by rewrite bool_decide_eq_true_2. }
  unfold audit. set (ev := AuditEvent _ _ _ _ _ _). destruct (audit_write (sp_audit s1) ev) as [[[]|e] a] eqn:Ew.
  2: { intros [= <-]. done. }
  cbn [fst]. intros Hr. exists name, ev, a. split; [done |]. split; [by apply op_named_text |].
  split; [|rewrite <- Ea, <- Ee; done].
  change (outcome = "ok"%string). unfold outcome, outcome_of. rewrite Hr. by rewrite bool_decide_eq_true_2.
Qed.
End Facts.
