(* ===== verification/Vault.v ===== *)
(** The encrypted local vault: sps/plugins/localfile.py, an implementation of
    the secret service's backend interface.

    scrypt and Fernet are parameters ([Crypto]); the file is its JSON envelope.
    Each operation holds the vault's locks from reading to writing, so it is
    atomic.  A decrypted text that is not an object of objects, which the vault
    never writes, counts as a failure. *)

From stdpp Require Import base tactics list strings.
From Stdlib Require Import ZArith Lia Ascii.
From S2P Require Import Prelude PyStr Base64 Json JsonFacts Sps.

Class Crypto := {
  scrypt : string -> string -> Z -> Z -> Z -> option string;
  fernet_encrypt : nat -> string -> string -> string;
  fernet_decrypt : string -> string -> option string;
  py_repr : json -> string }.

(** Fernet's contract: a token decrypts to its text under its key. *)
Definition crypto_ok (c : Crypto) : Prop := forall n k t, fernet_decrypt k (fernet_encrypt n k t) = Some t.

Definition _VAULT_VERSION : Z := 1.
Definition _SCRYPT_N : Z := 2 ^ 16.
Definition _SCRYPT_R : Z := 8.
Definition _SCRYPT_P : Z := 1.

Abbreviation vault_data := (dict (dict json)).

Record vault := Vault { v_salt : string; v_params : Z * Z * Z; v_key : string; v_data : vault_data }.

(** How [atomic_write] fails: before [os.replace], or after it, when the
    directory cannot be opened or synchronised and the new file is in place. *)
Inductive fault := BeforeReplace | AfterReplace.

(** The file, the number of writes so far, and which writes fail. *)
Record disk := Disk { d_file : option json; d_tick : nat; d_fault : nat -> option fault }.

Definition data_json (d : vault_data) : json := JObj (map (fun kv => (kv.1, JObj kv.2)) d).

Definition data_of_json (v : json) : res vault_data :=
  match v with
  | JObj d =>
      (fix go (l : dict json) : res vault_data :=
        match l with
        | [] => Ok []
        | (k, JObj fields) :: l' => r ← go l'; Ok ((k, fields) :: r)
        | _ => Raise TypeError
        end) d
  | _ => Raise TypeError
  end.

Section Vault.
Context `{Crypto}.

Definition _vault_key (passphrase salt : string) (n r p : Z) : res string :=
  dk ← res_of_option RuntimeError (scrypt passphrase salt n r p);
  Ok (urlsafe_b64encode dk).

Definition envelope_json (salt key : string) (params : Z * Z * Z) (nonce : nat) (data : vault_data) : json :=
  let '(n, r, p) := params in
  JObj [("version"%string, JInt _VAULT_VERSION); ("kdf"%string, JStr "scrypt");
        ("salt"%string, JStr (urlsafe_b64encode salt)); ("n"%string, JInt n); ("r"%string, JInt r);
        ("p"%string, JInt p); ("ciphertext"%string, JStr (fernet_encrypt nonce key (dumps (data_json data))))].

(** [atomic_write]: the file is replaced as a whole or left alone, and when it
    raises either may be the case. *)
Definition atomic_write (content : json) (f : disk) : res unit * disk :=
  let file v := Disk v (S (d_tick f)) (d_fault f) in
  match d_fault f (d_tick f) with
  | Some BeforeReplace => (Raise (OtherExn "OSError"), file (d_file f))
  | Some AfterReplace => (Raise (OtherExn "OSError"), file (Some content))
  | None => (Ok tt, file (Some content))
  end.

Definition _write_vault (salt key : string) (params : Z * Z * Z) (data : vault_data) (f : disk) : res unit * disk :=
  atomic_write (envelope_json salt key params (d_tick f) data) f.

Definition _decrypt (key token : string) : res vault_data :=
  text ← res_of_option RuntimeError (fernet_decrypt key token);
  v ← loads text;
  data_of_json v.

(** [int(envelope[k])] for the integers the vault writes. *)
Definition param (e : dict json) (key : string) : res Z :=
  match dget e key with
  | Some (JInt z) => Ok z
  | Some (JStr s) => int_of_str s
  | Some _ => Raise TypeError
  | None => Raise KeyError
  end.

Definition params_of (e : dict json) : res (Z * Z * Z) :=
  n ← param e "n"; r ← param e "r"; p ← param e "p"; Ok (n, r, p).

Definition salt_of (e : dict json) : res string :=
  match dget e "salt" with
  | Some (JStr s) => res_of_option ValueError (urlsafe_b64decode s)
  | Some _ => Raise TypeError
  | None => Raise KeyError
  end.

Definition token_of (e : dict json) : res string :=
  match dget e "ciphertext" with Some (JStr t) => Ok t | Some _ => Raise (OtherExn "AttributeError") | None => Raise KeyError end.

Definition envelope_of (f : disk) : res (dict json) :=
  match d_file f with
  | Some (JObj e) => Ok e
  | Some _ => Raise (OtherExn "AttributeError")
  | None => Raise (OtherExn "FileNotFoundError")
  end.

(** [_Vault.__init__]. *)
Definition open_vault (passphrase : string) (f : disk) : res vault :=
  e ← envelope_of f;
  _ ← raise_if (negb (bool_decide (jget e "version" = JInt _VAULT_VERSION))) RuntimeError;
  salt ← salt_of e;
  params ← params_of e;
  key ← _vault_key passphrase salt params.1.1 params.1.2 params.2;
  token ← token_of e;
  data ← _decrypt key token;
  Ok (Vault salt params key data).

(** [_Vault.init]; [salt] is the random salt. *)
Definition init_vault (passphrase salt : string) (f : disk) : res vault * disk :=
  if PyStr.empty passphrase then (Raise ValueError, f)
  else match d_file f with
       | Some _ => (Raise (OtherExn "FileExistsError"), f)
       | None =>
           match _vault_key passphrase salt _SCRYPT_N _SCRYPT_R _SCRYPT_P with
           | Raise e => (Raise e, f)
           | Ok key =>
               let '(r, f') := _write_vault salt key (_SCRYPT_N, _SCRYPT_R, _SCRYPT_P) [] f in
               (_ ← r; open_vault passphrase f', f')
           end
       end.

Definition _reload (v : vault) (f : disk) : res vault :=
  e ← envelope_of f;
  salt ← salt_of e;
  version ← res_of_option KeyError (dget e "version");
  params ← params_of e;
  _ ← raise_if (negb (String.eqb salt (v_salt v)) || negb (bool_decide (version = JInt _VAULT_VERSION))
                || negb (bool_decide (params = v_params v))) RuntimeError;
  token ← token_of e;
  data ← _decrypt (v_key v) token;
  Ok (Vault (v_salt v) (v_params v) (v_key v) data).

Definition vault_get (tool_id field : string) (v : vault) (f : disk) : res json * vault :=
  match _reload v f with
  | Ok v' => (Ok (jget (default [] (dget (v_data v') tool_id)) field), v')
  | Raise e => (Raise e, v)
  end.

Definition list_fields (tool_id : string) (v : vault) (f : disk) : res (list string) * vault :=
  match _reload v f with
  | Ok v' => (Ok (dkeys (default [] (dget (v_data v') tool_id))), v')
  | Raise e => (Raise e, v)
  end.

(** [candidate.setdefault(tool_id, {})[field] = value]. *)
Definition data_set (d : vault_data) (tool_id field value : string) : vault_data :=
  dset d tool_id (dset (default [] (dget d tool_id)) field (JStr value)).

Definition vault_set (tool_id field value : string) (v : vault) (f : disk) : res unit * vault * disk :=
  match _reload v f with
  | Raise e => (Raise e, v, f)
  | Ok v' =>
      let candidate := data_set (v_data v') tool_id field value in
      let '(r, f') := _write_vault (v_salt v') (v_key v') (v_params v') candidate f in
      match r with
      | Ok _ => (Ok tt, Vault (v_salt v') (v_params v') (v_key v') candidate, f')
      | Raise e => (Raise e, v', f')
      end
  end.

(** *** The plugin *)

(** [str(value)]. *)
Definition str_of_json (v : json) : string :=
  match v with
  | JStr s => s
  | JInt z => str_of_Z z
  | JBool b => if b then "True"%string else "False"%string
  | JFloat r => r
  | JNull => "None"%string
  | v => py_repr v
  end.

Definition get_secret (b : vault * disk) (field item : string) : res string * (vault * disk) :=
  let '(r, v) := vault_get item field b.1 b.2 in
  (match r with
   | Ok JNull => Raise KeyError
   | Ok value => Ok (str_of_json value)
   | Raise e => Raise e
   end, (v, b.2)).

Definition write_secret (b : vault * disk) (field item value : string) : res unit * (vault * disk) :=
  let '(r, v, f) := vault_set item field value b.1 b.2 in (r, (v, f)).

#[export] Instance LocalFilePlugin : Plugin (vault * disk) :=
  {| plugin_get := get_secret; plugin_write := write_secret |}.

(** ** Reading back what was written *)

(** The data a vault may hold. *)
Definition data_wf (d : vault_data) : Prop := dict_wf d /\ Forall (fun kv => json_wf (JObj kv.2)) d.

Lemma data_json_wf d : data_wf d -> json_wf (data_json d).
Proof.
  intros [Hd Hf]. constructor.
  - unfold dict_wf, dkeys in *. by rewrite map_map.
  - apply Forall_map. eapply Forall_impl; [exact Hf |]. by intros [k v].
Qed.

Lemma data_of_data_json d : data_of_json (data_json d) = Ok d.
Proof.
  unfold data_json. cbn [data_of_json]. induction d as [|[k v] d IH]; [done |]. cbn [map fst snd]. by rewrite IH.
Qed.

Lemma data_wf_set d tool_id field value : data_wf d -> data_wf (data_set d tool_id field value).
Proof.
  intros [Hd Hf]. split; [by apply dict_wf_dset |].
  assert (json_wf (JObj (default [] (dget d tool_id)))) as Hold.
  { destruct (dget d tool_id) as [fs|] eqn:E; simpl; [|constructor; [by apply NoDup_nil | constructor]].
    apply dget_In in E. rewrite Forall_forall in Hf. apply (Hf (tool_id, fs)). by apply list_elem_of_In. }
  assert (forall A (P : string * A -> Prop) (l : dict A) k v, Forall P l -> P (k, v) -> Forall P (dset l k v)) as Hset.
  { clear. intros A P l k v Hl Hv. induction Hl as [|[k' v'] l Hx Hl IH]; simpl; [by constructor |].
    case_decide; [by subst; constructor | by constructor]. }
  apply Hset; [done |]. simpl. inversion Hold as [| | | | | | ? Hn Hv]; subst.
  constructor; [by apply dict_wf_dset |]. apply Hset; [done | constructor].
Qed.

(** The vault [v] is the open view of the file of [f]. *)
Record synced (v : vault) (f : disk) : Prop := {
  sy_file : exists nonce, d_file f = Some (envelope_json (v_salt v) (v_key v) (v_params v) nonce (v_data v));
  sy_data : data_wf (v_data v) }.

Lemma envelope_fields salt key n r p nonce data :
  exists e, envelope_json salt key (n, r, p) nonce data = JObj e
    /\ salt_of e = Ok salt /\ params_of e = Ok (n, r, p) /\ dget e "version" = Some (JInt _VAULT_VERSION)
    /\ token_of e = Ok (fernet_encrypt nonce key (dumps (data_json data))).
Proof.
  eexists. split; [reflexivity |]. split; [|done]. unfold salt_of.
  cbn [dget]. simpl. by rewrite urlsafe_b64decode_encode.
Qed.

Lemma decrypt_encrypt key nonce data :
  crypto_ok _ -> data_wf data -> _decrypt key (fernet_encrypt nonce key (dumps (data_json data))) = Ok data.
Proof.
  intros Hc Hd. unfold _decrypt. rewrite Hc. cbn [res_of_option mbind res_bind].
  unfold dumps. rewrite loads_dump; [|by right | by apply data_json_wf]. apply data_of_data_json.
Qed.

Lemma reload_synced v f : crypto_ok _ -> synced v f -> _reload v f = Ok v.
Proof.
  intros Hc [[nonce Hf] Hd]. destruct v as [salt [[n r] p] key data]. cbn [v_salt v_key v_params v_data] in *.
  destruct (envelope_fields salt key n r p nonce data) as (e & He & Hs & Hp & Hv & Ht).
  unfold _reload, envelope_of. rewrite Hf, He. cbn [mbind res_bind]. rewrite Hs. cbn [mbind res_bind].
  rewrite Hv. cbn [res_of_option mbind res_bind]. rewrite Hp. cbn [mbind res_bind v_salt v_params v_key].
  rewrite String.eqb_refl, !bool_decide_eq_true_2 by done. cbn [negb orb raise_if mbind res_bind].
  rewrite Ht. cbn [mbind res_bind]. rewrite decrypt_encrypt by done. done.
Qed.

(** A plugin whose keys fit the file behaves as if it had the current data,
    [data], whatever it read before. *)
Definition fresh (v : vault) (data : vault_data) : vault := Vault (v_salt v) (v_params v) (v_key v) data.

Definition holds (v : vault) (f : disk) (data : vault_data) : Prop := synced (fresh v data) f.

Lemma reload_fresh v f data : crypto_ok _ -> holds v f data -> _reload v f = Ok (fresh v data).
Proof. intros Hc Hs. pose proof (reload_synced _ _ Hc Hs) as Hr. exact Hr. Qed.

(** A write: the new data when it succeeds, and when it fails the new data or
    the old. *)
Lemma vault_set_holds tool_id field value v f data r v' f' :
  crypto_ok _ -> holds v f data -> vault_set tool_id field value v f = (r, v', f') ->
  v_salt v' = v_salt v /\ v_params v' = v_params v /\ v_key v' = v_key v
  /\ (holds v' f' (data_set data tool_id field value) \/ r <> Ok tt /\ holds v' f' data).
Proof.
  intros Hc Hs. unfold vault_set. rewrite (reload_fresh _ _ data) by done. unfold _write_vault, atomic_write. destruct Hs as [Hf Hd].
  assert (data_wf (data_set data tool_id field value)) as Hd' by by apply data_wf_set.
  destruct (d_fault f (d_tick f)) as [[]|]; intros [= <- <- <-]; split_and!; try done.
  - right. split; [done |]. by constructor.
  - left. constructor; simpl; [by eexists | done].
  - left. constructor; simpl; [by eexists | done].
Qed.

Lemma jget_dset d k k' x : jget (dset d k x) k' = if decide (k = k') then x else jget d k'.
Proof. unfold jget. rewrite dget_dset. by destruct (decide (k = k')). Qed.

(** The value a field has in the data of the file. *)
Definition read_at (data : vault_data) (item field : string) : res string :=
  match jget (default [] (dget data item)) field with JNull => Raise KeyError | value => Ok (str_of_json value) end.

Lemma get_secret_holds v f data field item : crypto_ok _ -> holds v f data ->
  (get_secret (v, f) field item).1 = read_at data item field.
Proof.
  intros Hc Hs. unfold get_secret, vault_get. cbn [fst snd]. rewrite (reload_fresh _ _ data) by done. cbn [fst v_data fresh].
  unfold read_at. by destruct (jget _ field).
Qed.

Lemma read_at_set data item field value item' field' :
  read_at (data_set data item field value) item' field'
  = if decide (item' = item /\ field' = field) then Ok value else read_at data item' field'.
Proof.
  unfold read_at, data_set. rewrite dget_dset. destruct (decide (item = item')) as [<-|Hi].
  - change (default ?d (Some ?x)) with x. rewrite jget_dset. destruct (decide (field = field')) as [<-|Hf].
    + by rewrite decide_True.
    + rewrite decide_False by (intros [_ ?]; congruence). done.
  - rewrite decide_False by (intros [? _]; congruence). done.
Qed.

(** The vault is a backend that keeps its promise. *)
Definition vault_laws (Hc : crypto_ok _) : PluginLaws (vault * disk).
Proof.
  refine {| plugin_inv b := exists data, holds b.1 b.2 data |}.
  - intros [v f] b' field item value r [data Hs]. cbn [fst snd plugin_write LocalFilePlugin]. unfold write_secret. cbn [fst snd].
    destruct (vault_set _ _ _ _ _) as [[r0 v0] f0] eqn:E. intros [= <- <-].
    apply (vault_set_holds _ _ _ _ _ data) in E as (_ & _ & _ & [?|[_ ?]]); eauto.
  - intros [v f] b' field item value [data Hs]. cbn [fst snd plugin_write plugin_get LocalFilePlugin]. unfold write_secret. cbn [fst snd].
    destruct (vault_set _ _ _ _ _) as [[r0 v0] f0] eqn:E. intros [= -> <-].
    apply (vault_set_holds _ _ _ _ _ data) in E as (_ & _ & _ & [Hs'|[Hr _]]); [| by destruct Hr | done | done].
    rewrite (get_secret_holds _ _ _ _ _ Hc Hs'), read_at_set. by rewrite decide_True.
Defined.

(** The vault keeps what is written: a write that reports success is what
    every later read of that field returns, in this process and after
    reopening the file with the same passphrase; every other field keeps its
    value. A write that fails has all of its effect or none. *)
Theorem vault_write_read (passphrase item field value : string) (v : vault) (f : disk) data r v' f' :
  crypto_ok _ -> holds v f data ->
  _vault_key passphrase (v_salt v) (v_params v).1.1 (v_params v).1.2 (v_params v).2 = Ok (v_key v) ->
  write_secret (v, f) field item value = (r, (v', f')) ->
  exists data', (data' = data_set data item field value \/ r <> Ok tt /\ data' = data)
  /\ open_vault passphrase f' = Ok (fresh v' data')
  /\ forall item' field', (get_secret (v', f') field' item').1 = read_at data' item' field'.
Proof.
  intros Hc Hs Hk Hw. unfold write_secret in Hw. cbn [fst snd] in Hw.
  destruct (vault_set item field value v f) as [[r0 v0] f0] eqn:E. injection Hw as -> -> ->.
  apply (vault_set_holds _ _ _ _ _ data) in E as (Hsalt & Hpar & Hkey & Hor); [|done | done].
  assert (exists data', (data' = data_set data item field value \/ r <> Ok tt /\ data' = data) /\ holds v' f' data') as (data' & Hd' & Hs').
  { destruct Hor as [?|[? ?]]; eauto. }
  exists data'. split; [done |]. split; [|intros; by apply get_secret_holds].
  destruct Hs' as [[nonce Hf] Hd]. destruct v' as [salt [[n r'] p] key old]. unfold fresh in *. cbn [v_salt v_key v_params v_data] in *.
  destruct (envelope_fields salt key n r' p nonce data') as (e & He & Hsa & Hp & Hv & Ht).
  unfold open_vault, envelope_of. rewrite Hf, He. cbn [mbind res_bind]. unfold jget. rewrite Hv.
  change (default JNull (Some ?x)) with x. rewrite bool_decide_eq_true_2 by done.
  cbn [negb raise_if mbind res_bind]. rewrite Hsa. cbn [mbind res_bind]. rewrite Hp. cbn [mbind res_bind fst snd].
  rewrite <- Hsalt, <- Hpar, <- Hkey in Hk. cbn [fst snd] in Hk. rewrite Hk. cbn [mbind res_bind].
  rewrite Ht. cbn [mbind res_bind]. by rewrite decrypt_encrypt.
Qed.
End Vault.

(** ** A concrete vault *)

Definition w_crypto : Crypto := {|
  scrypt := fun pass salt _ _ _ => Some (pass +:+ salt); fernet_encrypt := fun _ _ t => t;
  fernet_decrypt := fun _ t => Some t; py_repr := dumps |}.

#[local] Existing Instance w_crypto.

Lemma w_crypto_ok : crypto_ok w_crypto.
Proof. by intros n k t. Qed.

Definition w_vault : vault :=
  Vault "salt" (_SCRYPT_N, _SCRYPT_R, _SCRYPT_P) (urlsafe_b64encode "pwsalt") [("mail"%string, [("token"%string, JStr "old")])].

Definition w_disk : disk :=
  Disk (Some (envelope_json (v_salt w_vault) (v_key w_vault) (v_params w_vault) 0 (v_data w_vault))) 1 (fun _ => None).

Lemma w_synced : synced w_vault w_disk.
Proof.
  constructor; [by exists 0%nat |]. split; [apply NoDup_singleton |].
  constructor; [|constructor]. constructor; [apply NoDup_singleton | repeat constructor].
Qed.

Lemma w_holds : holds w_vault w_disk (v_data w_vault).
Proof. exact w_synced. Qed.

Lemma vault_write_read_witness :
  exists v' f', write_secret (w_vault, w_disk) "token" "mail" "new" = (Ok tt, (v', f'))
    /\ (get_secret (v', f') "token" "mail").1 = Ok "new"%string.
Proof.
  destruct (write_secret (w_vault, w_disk) "token" "mail" "new") as [r [v' f']] eqn:E.
  assert (r = Ok tt) as -> by (vm_compute in E; by injection E as <- _ _).
  destruct (vault_write_read "pw" "mail" "token" "new" w_vault w_disk _ (Ok tt) v' f' w_crypto_ok w_holds eq_refl E)
    as (data' & [-> | [? _]] & Ho & Hg); [|done].
  exists v', f'. split; [done |]. rewrite (Hg "mail"%string "token"%string). reflexivity.
Defined.
