(* ===== verification/VaultSpec.v ===== *)
(** The encrypted vault refines a map from items and fields to texts, also when
    several processes have it open: every operation holds the file lock and
    reloads, so each is one atomic step on the shared file. *)

From stdpp Require Import base tactics list strings gmap.
From Stdlib Require Import ZArith Lia Ascii.
From S2P Require Import Prelude PyStr Base64 Json JsonFacts Sps Vault.

(** ** The specification *)

Abbreviation secrets := (gmap (string * string) string).

Inductive vault_op := VGet (item field : string) | VSet (item field value : string).

(** What a caller may observe: a read gives the value, or KeyError when there
    is none; a write takes effect and reports it, or reports a failure and has
    all of its effect or none. *)
Inductive spec_step (m : secrets) : vault_op -> res string -> secrets -> Prop :=
| spec_hit item field v : m !! (item, field) = Some v -> spec_step m (VGet item field) (Ok v) m
| spec_miss item field : m !! (item, field) = None -> spec_step m (VGet item field) (Raise KeyError) m
| spec_set item field value : spec_step m (VSet item field value) (Ok EmptyString) (<[(item, field) := value]> m)
| spec_fail item field value e : spec_step m (VSet item field value) (Raise e) m
| spec_fail_late item field value e : spec_step m (VSet item field value) (Raise e) (<[(item, field) := value]> m).

Inductive spec_run (m : secrets) : list (nat * vault_op) -> list (res string) -> secrets -> Prop :=
| spec_done : spec_run m [] [] m
| spec_more i o r m1 ops rs m2 : spec_step m o r m1 -> spec_run m1 ops rs m2 -> spec_run m ((i, o) :: ops) (r :: rs) m2.

(** ** The implementation *)

(** The plugins that have the file open, and the file. *)
Record system := System { sys_views : list vault; sys_disk : disk }.

Section Refinement.
Context `{Crypto}.

Definition run_op (o : vault_op) (b : vault * disk) : res string * (vault * disk) :=
  match o with
  | VGet item field => Vault.get_secret b field item
  | VSet item field value =>
      let '(r, b') := Vault.write_secret b field item value in ((_ ← r; Ok EmptyString), b')
  end.

(** An operation of the [i]th plugin; none when there is no such plugin. *)
Definition step (i : nat) (o : vault_op) (s : system) : option (res string * system) :=
  v ← sys_views s !! i;
  let '(r, (v', f')) := run_op o (v, sys_disk s) in
  Some (r, System (<[i := v']> (sys_views s)) f').

Fixpoint run (ops : list (nat * vault_op)) (s : system) : option (list (res string) * system) :=
  match ops with
  | [] => Some ([], s)
  | (i, o) :: ops' =>
      '(r, s1) ← step i o s;
      '(rs, s2) ← run ops' s1;
      Some (r :: rs, s2)
  end.

(** ** The simulation *)

Definition text_at (d : vault_data) (item field : string) : option string :=
  match jget (default [] (dget d item)) field with JNull => None | v => Some (str_of_json v) end.

Record abstracts (s : system) (m : secrets) : Prop := {
  ab_file : exists data, (exists nonce v, d_file (sys_disk s) = Some (envelope_json (v_salt v) (v_key v) (v_params v) nonce data)
                /\ Forall (fun w => v_salt w = v_salt v /\ v_key w = v_key v /\ v_params w = v_params v) (sys_views s))
              /\ data_wf data /\ forall item field, m !! (item, field) = text_at data item field }.

Lemma text_at_set d item field value item' field' :
  text_at (data_set d item field value) item' field'
  = if decide ((item, field) = (item', field')) then Some value else text_at d item' field'.
Proof.
  unfold text_at, data_set. rewrite dget_dset. destruct (decide (item = item')) as [<- | Hi].
  - change (default [] (Some ?x)) with x. rewrite jget_dset. destruct (decide (field = field')) as [<- | Hf].
    + by rewrite decide_True.
    + rewrite decide_False by congruence. done.
  - rewrite decide_False by congruence. done.
Qed.

Lemma insert_views (P : vault -> Prop) i v' l : Forall P l -> P v' -> Forall P (<[i := v']> l).
Proof. intros Hl Hv. by apply Forall_insert. Qed.

Lemma step_refines i o s r s' m : crypto_ok _ -> abstracts s m -> step i o s = Some (r, s') ->
  exists m', spec_step m o r m' /\ abstracts s' m'.
Proof.
  intros Hc [(data & (nonce & v0 & Hf & Hall) & Hd & Hm)]. unfold step.
  destruct (sys_views s !! i) as [v|] eqn:Ei; [|done]. cbn [mbind option_bind].
  assert (v_salt v = v_salt v0 /\ v_key v = v_key v0 /\ v_params v = v_params v0) as (Es & Ek & Ep).
  { rewrite Forall_lookup in Hall. by apply (Hall i). }
  assert (_reload v (sys_disk s) = Ok (fresh v data)) as Hr.
  { apply reload_fresh; [done |]. constructor; [|done]. exists nonce. cbn [v_salt v_key v_params v_data fresh]. by rewrite Es, Ek, Ep. }
  destruct o as [item field | item field value]; cbn [run_op].
  - unfold Vault.get_secret, vault_get. cbn [fst snd]. rewrite Hr. cbn [v_data fresh fst snd].
    intros [= <- <-]. exists m. split.
    + specialize (Hm item field). unfold text_at in Hm. destruct (jget _ field); by constructor.
    + constructor. exists data. split; [|done]. exists nonce, v0. split; [done |]. by apply insert_views.
  - unfold Vault.write_secret, vault_set. cbn [fst snd]. rewrite Hr. cbn [v_data v_salt v_key v_params fresh].
    assert (forall t, abstracts (System (<[i := t]> (sys_views s)) (Disk (Some (envelope_json (v_salt v) (v_key v) (v_params v)
      (d_tick (sys_disk s)) (data_set data item field value))) (S (d_tick (sys_disk s))) (d_fault (sys_disk s))))
      (<[(item, field) := value]> m) \/ ~ (v_salt t = v_salt v0 /\ v_key t = v_key v0 /\ v_params t = v_params v0)) as Hnew.
    { intros t. destruct (decide (v_salt t = v_salt v0)) as [Et1|]; [|right; by intros (? & _)].
      destruct (decide (v_key t = v_key v0)) as [Et2|]; [|right; by intros (_ & ? & _)].
      destruct (decide (v_params t = v_params v0)) as [Et3|]; [|right; by intros (_ & _ & ?)]. left.
      constructor. exists (data_set data item field value). split; [|split; [by apply data_wf_set |]].
      - exists (d_tick (sys_disk s)), v0. cbn [sys_disk d_file]. rewrite Es, Ek, Ep. split; [done |]. by apply insert_views.
      - intros item' field'. rewrite text_at_set. destruct (decide ((item, field) = (item', field'))) as [<- | Hn].
        + apply lookup_insert_eq.
        + by rewrite lookup_insert_ne. }
    unfold _write_vault, atomic_write. destruct (d_fault (sys_disk s) (d_tick (sys_disk s))) as [[]|]; intros [= <- <-].
    + exists m. split; [apply spec_fail |]. constructor. exists data. split; [|done]. exists nonce, v0. split; [done |].
      by apply insert_views.
    + exists (<[(item, field) := value]> m). split; [apply spec_fail_late |].
      by destruct (Hnew (Vault (v_salt v) (v_params v) (v_key v) data)) as [|[]].
    + exists (<[(item, field) := value]> m). split; [apply spec_set |].
      by destruct (Hnew (Vault (v_salt v) (v_params v) (v_key v) (data_set data item field value))) as [|[]].
Qed.

(** C22. The vault refines a map: however many plugins have the file open and
    however their operations interleave, what they are answered is what one map
    shared by all would answer, where a write that fails, before or after it has
    replaced the file, has all of its effect or none. *)
Theorem vault_refines_map ops s rs s' m :
  crypto_ok _ -> abstracts s m -> run ops s = Some (rs, s') ->
  exists m', spec_run m ops rs m' /\ abstracts s' m'.
Proof.
  intros Hc. revert s rs m. induction ops as [|[i o] ops IH]; intros s rs m Hs; cbn [run].
  { intros [= <- <-]. exists m. split; [constructor | done]. }
  destruct (step i o s) as [[r s1]|] eqn:E; [|done]. cbn [mbind option_bind].
  destruct (run ops s1) as [[rs1 s2]|] eqn:Er; [|done]. cbn [mbind option_bind]. intros [= <- <-].
  destruct (step_refines _ _ _ _ _ _ Hc Hs E) as (m1 & Hm1 & Hs1).
  destruct (IH _ _ _ Hs1 Er) as (m2 & Hm2 & Hs2). exists m2. split; [by econstructor | done].
Qed.
End Refinement.

(** ** Two plugins on one file *)

#[local] Existing Instance w_crypto.

Definition w_system : system := System [w_vault; w_vault] w_disk.
Definition w_map : secrets := {[ ("mail"%string, "token"%string) := "old"%string ]}.

Lemma w_abstracts : abstracts w_system w_map.
Proof.
  constructor. exists (v_data w_vault). split; [|split; [apply w_synced |]].
  - exists 0%nat, w_vault. split; [reflexivity |]. by repeat constructor.
  - intros item field. unfold w_map, text_at, w_vault. cbn [v_data dget].
    destruct (decide ("mail"%string = item)) as [<- | Hi].
    + change (default [] (Some ?x)) with x. unfold jget. cbn [dget].
      destruct (decide ("token"%string = field)) as [<- | Hf]; [by rewrite lookup_singleton_eq |].
      rewrite lookup_singleton_ne by congruence. done.
    + rewrite lookup_singleton_ne by congruence. done.
Qed.

(** A plugin whose write replaced the file and then failed: the other one reads
    the new value. *)
Definition w_late : disk := Disk (d_file w_disk) 1 (fun _ => Some AfterReplace).

Example w_late_effect : fst <$> run [(0%nat, VSet "mail" "token" "new"); (1%nat, VGet "mail" "token")] (System [w_vault; w_vault] w_late)
  = Some [Raise (OtherExn "OSError"); Ok "new"%string].
Proof. by vm_compute. Qed.

Lemma vault_refines_map_witness :
  exists rs s' m', run [(0%nat, VSet "mail" "token" "new"); (1%nat, VGet "mail" "token"); (1%nat, VGet "mail" "nope")] w_system = Some (rs, s')
    /\ rs = [Ok EmptyString; Ok "new"%string; Raise KeyError] /\ spec_run w_map [(0%nat, VSet "mail" "token" "new"); (1%nat, VGet "mail" "token"); (1%nat, VGet "mail" "nope")] rs m'.
Proof.
  eassert (run [(0%nat, VSet "mail" "token" "new"); (1%nat, VGet "mail" "token"); (1%nat, VGet "mail" "nope")] w_system = Some (_, _)) as Hr
    by (vm_compute; reflexivity).
  destruct (vault_refines_map _ _ _ _ _ w_crypto_ok w_abstracts Hr) as (m' & Hm & _).
  do 3 eexists. split; [exact Hr |]. split; [reflexivity | exact Hm].
Defined.
