(* ===== verification/SpsClient.v ===== *)
(** The tools' side of the secret service: sps/client.py and sps/tool_sdk.py.

    A connection is the interface [Channel]: it takes the line that is sent and
    answers with the line that is received.  [Served] is the connection to the
    service of Sps.v; the end-to-end theorem is about the two together. *)

From stdpp Require Import base tactics list strings.
From Stdlib Require Import ZArith Lia Ascii.
From S2P Require Import Prelude PyStr Json JsonFacts Action SpsWire Sps SpsFacts.

Inductive client_exn :=
| CSPSError | CAuthError | CNotFound | CNotWritable | CBackendError | CBadResponse | CTransportError
| CKeyError | CAttributeError | CValueError.

#[export] Instance client_exn_eq_dec : EqDecision client_exn.
Proof. solve_decision. Defined.

(** A socket, TLS or deadline failure raises OSError; otherwise the bytes of
    the line, at most the limit plus one. *)
Class Channel (N : Type) := { exchange : N -> string -> option string * N }.

(** [_ERROR_MAP.get]. *)
Definition error_class (message : string) : option client_exn :=
  if String.eqb message "Unauthorized" then Some CAuthError
  else if String.eqb message "Not found" then Some CNotFound
  else if String.eqb message "Not writable" then Some CNotWritable
  else if String.eqb message "Backend error" then Some CBackendError
  else if String.eqb message "Bad request" then Some CBadResponse
  else None.

Record sps_client := SPSClient { cl_sp_secret : option string; cl_esecret : option string; cl_max : Z }.

(** [_validate_secrets]: a dictionary of texts. *)
Fixpoint text_dict (d : dict json) : option (dict string) :=
  match d with
  | [] => Some []
  | (k, JStr v) :: d' => r ← text_dict d'; Some ((k, v) :: r)
  | _ => None
  end.

Definition _validate_secrets (body : dict json) : option (dict string) :=
  if negb (bool_decide (jget body "status" = JStr "ok")) then None
  else match jget body "secrets" with JObj d => text_dict d | _ => None end.

(** tool_sdk.SecretClient; [sc_cli] is [None] for the test fixture. *)
Record secret_client := SecretClient { sc_tool_id : string; sc_cli : option sps_client; sc_cache : dict string }.

Definition cache_get (s : secret_client) (name : string) : option string := dget (sc_cache s) name.

Definition get (s : secret_client) (name : string) : string + client_exn :=
  match dget (sc_cache s) name with Some v => inl v | None => inr CKeyError end.

Definition set_cache (d : dict string) (s : secret_client) : secret_client :=
  SecretClient (sc_tool_id s) (sc_cli s) d.

Definition names (s : secret_client) : list string := dkeys (sc_cache s).

Section Client.
Context {N : Type} `{Channel N} `{Utf8}.

(** A call: the exception or the value, and the connection's other side. *)
Definition CM (T : Type) : Type := N -> (T + client_exn) * N.

#[local] Instance CM_ret : MRet CM := fun _ a n => (inl a, n).
#[local] Instance CM_bind : MBind CM := fun _ _ f m n =>
  match m n with (inl a, n') => f a n' | (inr e, n') => (inr e, n') end.

Definition cfail {T} (e : client_exn) : CM T := fun n => (inr e, n).

(** The reading of the response line. *)
Definition parse_response (c : sps_client) (line : string) : dict json + client_exn :=
  if cl_max c <? len line then inr CBadResponse
  else if negb (ends_newline line) then inr CBadResponse
  else
    match utf8_decode line with
    | None => inr CBadResponse
    | Some text =>
        match loads text with
        | Ok (JObj resp) =>
            match jget resp "status" with
            | JStr st =>
                if String.eqb st "ok" then inl resp
                else if String.eqb st "error" then
                  match jget resp "message" with
                  | JStr m => match error_class m with Some e => inr e | None => inr CBadResponse end
                  | _ => inr CBadResponse
                  end
                else inr CBadResponse
            | _ => inr CBadResponse
            end
        | _ => inr CBadResponse
        end
    end.

Definition _call (c : sps_client) (msg : dict json) : CM (dict json) := fun n =>
  let '(answer, n') := exchange n (write_one_json (JObj msg)) in
  (match answer with None => inr CTransportError | Some line => parse_response c line end, n').

Definition _require (o : option string) : CM string :=
  match o with Some v => mret v | None => cfail CSPSError end.

Definition cs_json (e : cs_tuple) : json :=
  JObj [("name"%string, JStr (cs_name e)); ("field"%string, JStr (cs_field e));
        ("item"%string, jopt (cs_item e)); ("writable"%string, JBool (cs_writable e))].

Definition register (c : sps_client) (tool_id esecret : string) (entries : list cs_tuple) : CM unit :=
  sp ← _require (cl_sp_secret c);
  _ ← _call c [("op"%string, JStr "register"); ("spsecret"%string, JStr sp); ("toolid"%string, JStr tool_id);
               ("esecret"%string, JStr esecret); ("secrets"%string, JArr (map cs_json entries))];
  mret tt.

Definition unregister (c : sps_client) (tool_id : string) : CM unit :=
  sp ← _require (cl_sp_secret c);
  _ ← _call c [("op"%string, JStr "unregister"); ("spsecret"%string, JStr sp); ("toolid"%string, JStr tool_id)];
  mret tt.

Definition get_secrets (c : sps_client) (tool_id : string) : CM (dict string) :=
  es ← _require (cl_esecret c);
  body ← _call c [("op"%string, JStr "get_secrets"); ("toolid"%string, JStr tool_id); ("esecret"%string, JStr es)];
  match _validate_secrets body with Some d => mret d | None => cfail CBadResponse end.

Definition get_secret (c : sps_client) (tool_id name : string) : CM string :=
  es ← _require (cl_esecret c);
  body ← _call c [("op"%string, JStr "get_secret"); ("toolid"%string, JStr tool_id); ("name"%string, JStr name);
                  ("esecret"%string, JStr es)];
  match _validate_secrets body with
  | None => cfail CBadResponse
  | Some d => match dget d name with Some v => mret v | None => cfail CBadResponse end
  end.

Definition write_secret (c : sps_client) (tool_id name value : string) : CM unit :=
  es ← _require (cl_esecret c);
  _ ← _call c [("op"%string, JStr "write_secret"); ("toolid"%string, JStr tool_id); ("name"%string, JStr name);
               ("value"%string, JStr value); ("esecret"%string, JStr es)];
  mret tt.

Definition ping (c : sps_client) : CM (dict json) := _call c [("op"%string, JStr "ping")].

(** ** tool_sdk.SecretClient *)

Definition connect (tool_id : string) (c : sps_client) : CM secret_client :=
  d ← get_secrets c tool_id;
  mret (SecretClient tool_id (Some c) d).

Definition with_cli {T} (s : secret_client) (f : sps_client -> CM T) : CM T :=
  match sc_cli s with Some c => f c | None => cfail CAttributeError end.

Definition refresh (name : string) (s : secret_client) : CM (string * secret_client) :=
  value ← with_cli s (fun c => get_secret c (sc_tool_id s) name);
  mret (value, set_cache (dset (sc_cache s) name value) s).

Definition refresh_all (s : secret_client) : CM secret_client :=
  d ← with_cli s (fun c => get_secrets c (sc_tool_id s));
  mret (set_cache d s).

Definition writeback (name value : string) (s : secret_client) : CM secret_client :=
  _ ← with_cli s (fun c => write_secret c (sc_tool_id s) name value);
  mret (set_cache (dset (sc_cache s) name value) s).
End Client.
