(* ===== verification/SpsService.v ===== *)
(** The secret service and its clients together: a tool that writes a secret
    back reads the same value afterwards. *)

From stdpp Require Import base tactics list strings.
From Stdlib Require Import ZArith Lia Ascii.
From S2P Require Import Prelude PyStr Json JsonFacts Action SpsWire Sps SpsFacts Base64 Vault SpsClient.

(** ** Lengths of printed texts *)

Lemma esc_char_len c : 1 <= len (esc_char c) <= 6.
Proof. unfold esc_char. repeat case_match; unfold len; simpl; lia. Qed.

Lemma dump_str_len s : len (dump_str s) <= 6 * len s + 2.
Proof.
  assert (len (escape s) <= 6 * len s) as He.
  { induction s as [|c s IH]; [done |]. cbn [escape]. rewrite len_app. pose proof (esc_char_len c).
    change (String c s) with (String c EmptyString +:+ s). rewrite len_app. change (len (String c EmptyString)) with 1. lia. }
  unfold dump_str. change (String dquote ?t) with (String dquote EmptyString +:+ t). rewrite !len_app.
  change (len (String dquote EmptyString)) with 1. lia.
Qed.

Section Service.
Context {B A : Type} `{Plugin B} `{!PluginLaws B} `{AuditSink A} `{Digest} `{Utf8}.
Variables (boot_id : string) (pid : Z) (c : sps_config).
(** How the network cuts a line into pieces. *)
Variable segments : string -> list string.
Hypothesis segments_ok : forall s,
  concat (segments s) = s /\ Forall (fun p => PyStr.empty p = false) (segments s).
Hypothesis decoder : ascii_decoder _.
Hypothesis audit_accepts : forall (a : A) ev, (audit_write a ev).1 = Ok tt.

#[local] Existing Instance SM_ret.
#[local] Existing Instance SM_bind.
#[local] Existing Instance CM_ret.
#[local] Existing Instance CM_bind.

(** The connection to the service of Sps.v. *)
#[local] Instance Served : Channel (sps B A) := {|
  exchange n line :=
    let '(resp, n') := handle boot_id pid c (read_socket_json (map Chunk (segments line))) n in
    (Some (write_one_json resp), n') |}.

Lemma exchange_eq msg n :
  json_wf (JObj msg) -> len (write_one_json (JObj msg)) <= MAX_BODY_BYTES ->
  exchange n (write_one_json (JObj msg))
  = (let '(resp, n') := handle boot_id pid c (Ok (JObj msg)) n in (Some (write_one_json resp), n')).
Proof.
  intros Hw Hl. simpl. destruct (segments_ok (write_one_json (JObj msg))) as [Hc Hp].
  rewrite (read_written (JObj msg) _ EmptyString); [done | done | done | done | done |]. by rewrite str_app_nil.
Qed.

Lemma parse_response_ok cl d :
  json_wf (JObj d) -> jget d "status" = JStr "ok" -> len (write_one_json (JObj d)) <= cl_max cl ->
  parse_response cl (write_one_json (JObj d)) = inl d.
Proof.
  intros Hw Hs Hl. unfold parse_response. rewrite (proj2 (Z.ltb_ge _ _)) by lia.
  unfold write_one_json at 1. rewrite ends_newline_app. cbn [negb].
  assert (style_ok spaced) as Hst by by right.
  rewrite decoder.
  - unfold write_one_json, dumps. rewrite loads_dump_blank by done. by rewrite Hs.
  - apply write_ascii. done.
Qed.

(** ** Messages of texts *)

Definition texts (d : dict string) : dict json := map (fun kv => (kv.1, JStr kv.2)) d.

Lemma texts_wf d : dict_wf d -> json_wf (JObj (texts d)).
Proof.
  intros Hd. constructor; [unfold dict_wf, dkeys, texts in *; by rewrite map_map |].
  unfold texts. apply Forall_map, Forall_forall. intros [k v] _. constructor.
Qed.

(** The budget of a printed dictionary of texts. *)
Definition texts_budget (d : dict string) : Z := foldr (fun kv n => 6 * (len kv.1 + len kv.2) + 8 + n) 4 d.

Lemma join_len sep l : len (join sep l) <= foldr (fun x n => len x + len sep + n) 0 l.
Proof.
  pose proof (len_nonneg sep). induction l as [|x [|y l] IH]; [done | |].
  - unfold join. simpl. rewrite str_app_nil. lia.
  - rewrite join_cons2, !len_app. simpl in *. lia.
Qed.

Lemma texts_len d : len (write_one_json (JObj (texts d))) <= texts_budget d.
Proof.
  unfold write_one_json, dumps. cbn [dump]. rewrite !len_app.
  change (len "{") with 1. change (len "}") with 1. change (len (String newline EmptyString)) with 1.
  match goal with |- context [join ?sep ?l] => pose proof (join_len sep l) as Hj end.
  assert (forall l, foldr (fun x n => len x + len (item_sep spaced) + n) 0
      (map (fun kv => dump_str kv.1 +:+ key_sep spaced +:+ dump spaced kv.2) (texts l)) <= texts_budget l - 4) as Hb.
  { clear Hj. induction l as [|[k v] l IHl]; [simpl; lia |]. cbn [texts map foldr fst snd dump texts_budget] in *.
    unfold texts in IHl. rewrite !len_app. change (len (key_sep spaced)) with 2. change (len (item_sep spaced)) with 2.
    pose proof (dump_str_len k). pose proof (dump_str_len v). unfold texts_budget in *.
    change (len (item_sep spaced)) with 2 in IHl. lia. }
  specialize (Hb d). lia.
Qed.

Lemma jget_texts d k : jget (texts d) k = match dget d k with Some v => JStr v | None => JNull end.
Proof.
  unfold jget, texts. induction d as [|[k' v] d IH]; [done |]. simpl. by destruct (decide (k' = k)).
Qed.

(** ** The two operations on a registered tool *)

Lemma check_es_ok tool_id r msg (n : sps B A) :
  dget (sp_pool n) tool_id = Some r -> text_field msg "esecret" = Some (rg_esecret r) ->
  check_es tool_id msg n = (inl r, n).
Proof.
  intros Hr He. unfold check_es, mbind, SM_bind, pool, mret, SM_ret. rewrite He, Hr.
  unfold constant_time_eq. by rewrite String.eqb_refl.
Qed.

(** A success other than to a probe is answered once it is audited. *)
Lemma handle_ok msg name o d (n n1 : sps B A) :
  jget msg "op" = JStr name -> op_named name = Some o -> o <> Ping ->
  run_op boot_id pid c o msg n = (inl (ok_reply d), n1) ->
  exists n2, handle boot_id pid c (Ok (JObj msg)) n = (ok_reply d, n2)
    /\ sp_pool n2 = sp_pool n1 /\ sp_backend n2 = sp_backend n1.
Proof.
  intros Hop Ho Hp Hr. unfold handle, dispatch, envelope. rewrite Hop, Ho, Hr. cbv beta iota zeta.
  rewrite (bool_decide_eq_false_2 (Some o = Some Ping)) by congruence.
  change (outcome_of (ok_reply d)) with "ok"%string. cbn [orb]. unfold audit.
  pose proof (audit_accepts (sp_audit n1)) as Ha.
  set (ev := AuditEvent _ _ _ _ _ _). specialize (Ha ev).
  destruct (audit_write (sp_audit n1) ev) as [r a]. simpl in Ha. subst r. by eexists.
Qed.

Lemma text_field_texts d k v : dget d k = Some v -> PyStr.empty v = false -> text_field (texts d) k = Some v.
Proof. intros Hk Hv. unfold text_field. by rewrite jget_texts, Hk, Hv. Qed.

(** A call whose answer is a success. *)
Lemma call_ok cl md reply (n n2 : sps B A) :
  dict_wf md -> texts_budget md <= MAX_BODY_BYTES ->
  handle boot_id pid c (Ok (JObj (texts md))) n = (ok_reply reply, n2) ->
  json_wf (ok_reply reply) -> len (write_one_json (ok_reply reply)) <= cl_max cl ->
  _call cl (texts md) n = (inl (("status"%string, JStr "ok") :: reply), n2).
Proof.
  intros Hd Hb Hh Hw Hl. pose proof (texts_len md). unfold _call.
  rewrite exchange_eq by (try lia; by apply texts_wf). rewrite Hh. f_equal. by apply parse_response_ok.
Qed.

Section Tool.
Variables (tool_id name es : string) (e : cs_tuple) (r : registration).
Hypothesis names_given : PyStr.empty tool_id = false /\ PyStr.empty name = false /\ PyStr.empty es = false.
Hypothesis registered : rg_esecret r = es /\ find_entry name (rg_entries r) = Some e /\ cs_writable e = true.

Definition write_msg (value : string) : dict string :=
  [("op", "write_secret"); ("toolid", tool_id); ("name", name); ("value", value); ("esecret", es)]%string.

Definition get_msg : dict string :=
  [("op", "get_secret"); ("toolid", tool_id); ("name", name); ("esecret", es)]%string.

Lemma write_run value (n : sps B A) b' :
  dget (sp_pool n) tool_id = Some r -> utf8_len value <= c_max_value c ->
  plugin_write (sp_backend n) (cs_field e) (item_of tool_id e) value = (Ok tt, b') ->
  exists n1, run_op boot_id pid c WriteSecret (texts (write_msg value)) n
      = (inl (ok_reply [("name"%string, JStr name)]), n1)
    /\ sp_pool n1 = sp_pool n /\ sp_backend n1 = b'.
Proof.
  destruct names_given as (Ht & Hn & He). destruct registered as (Hes & Hf & Hw). intros Hr Hv Hp.
  cbn [run_op]. unfold handle_write_secret, _field, mbind, SM_bind, mret, SM_ret.
  rewrite (text_field_texts (write_msg value) "toolid" tool_id), (text_field_texts (write_msg value) "name" name) by done.
  rewrite (check_es_ok tool_id r) by (try done; rewrite Hes; by apply text_field_texts).
  rewrite Hf, Hw. cbn [negb]. rewrite jget_texts. cbn [write_msg dget decide]. simpl.
  rewrite (proj2 (Z.ltb_ge _ _)) by done. unfold backend_write. rewrite Hp. by eexists.
Qed.

Lemma get_run value (n : sps B A) :
  dget (sp_pool n) tool_id = Some r ->
  (plugin_get (sp_backend n) (cs_field e) (item_of tool_id e)).1 = Ok value ->
  exists n1, run_op boot_id pid c GetSecret (texts get_msg) n
      = (inl (ok_reply [("secrets"%string, JObj (texts [(name, value)]))]), n1)
    /\ sp_pool n1 = sp_pool n.
Proof.
  destruct names_given as (Ht & Hn & He). destruct registered as (Hes & Hf & Hw). intros Hr Hg.
  cbn [run_op]. unfold handle_get_secret, _field, mbind, SM_bind, mret, SM_ret.
  rewrite (text_field_texts get_msg "toolid" tool_id), (text_field_texts get_msg "name" name) by done.
  rewrite (check_es_ok tool_id r) by (try done; rewrite Hes; by apply text_field_texts).
  rewrite Hf. unfold backend_get. destruct (plugin_get _ _ _) as [v b]. simpl in Hg. subst v. by eexists.
Qed.

(** The client's budget: what its requests and the answers need at most. *)
Definition budget (value : string) : Z := 6 * (len tool_id + len name + len value + len es) + 400.

Lemma write_wf value : dict_wf (write_msg value).
Proof. by apply (bool_decide_unpack _). Qed.

Lemma get_wf : dict_wf get_msg.
Proof. by apply (bool_decide_unpack _). Qed.

Lemma two_wf : dict_wf [("status"%string, "ok"%string); ("name"%string, name)].
Proof. by apply (bool_decide_unpack _). Qed.

Lemma write_budget value : budget value <= MAX_BODY_BYTES -> texts_budget (write_msg value) <= MAX_BODY_BYTES.
Proof.
  unfold budget, texts_budget, write_msg. cbn [foldr fst snd]. repeat match goal with
  | |- context [len (String ?a ?b)] => let n := eval vm_compute in (len (String a b)) in change (len (String a b)) with n
  end. lia.
Qed.

Lemma get_budget value : budget value <= MAX_BODY_BYTES -> texts_budget get_msg <= MAX_BODY_BYTES.
Proof.
  pose proof (len_nonneg value).
  unfold budget, texts_budget, get_msg. cbn [foldr fst snd]. repeat match goal with
  | |- context [len (String ?a ?b)] => let n := eval vm_compute in (len (String a b)) in change (len (String a b)) with n
  end. lia.
Qed.

Lemma reply_wf value : json_wf (ok_reply [("secrets"%string, JObj (texts [(name, value)]))]).
Proof.
  constructor; [by apply (bool_decide_unpack _) |]. constructor; [constructor |]. constructor; [|constructor].
  apply (texts_wf [(name, value)]). apply NoDup_singleton.
Qed.

Lemma reply_len value :
  len (write_one_json (ok_reply [("secrets"%string, JObj (texts [(name, value)]))])) <= 6 * (len name + len value) + 100.
Proof.
  unfold write_one_json, dumps, ok_reply, texts. cbn [dump map fst snd join foldr]. rewrite !len_app.
  pose proof (dump_str_len name). pose proof (dump_str_len value).
  repeat match goal with
  | |- context [len ?t] =>
      lazymatch t with
      | dump_str ?u => lazymatch u with String _ _ => let n := eval vm_compute in (len t) in change (len t) with n end
      | _ => let n := eval vm_compute in (len t) in lazymatch n with Z0 => idtac | Zpos _ => idtac end; change (len t) with n
      end
  end. lia.
Qed.

(** C13. A secret that is written back is the secret that is read: when the
    backend accepts the write, the tool's write-back succeeds, its cache holds
    the value, and a later refresh over the same service fetches exactly that
    value from the backend; through both encodings of the wire, the service's
    authentication and its audit log. *)
Theorem writeback_then_refresh (cl : sps_client) (cache : dict string) (value : string) (n : sps B A) b' :
  plugin_inv (sp_backend n) -> cl_esecret cl = Some es -> budget value <= MAX_BODY_BYTES -> budget value <= cl_max cl ->
  dget (sp_pool n) tool_id = Some r -> utf8_len value <= c_max_value c ->
  plugin_write (sp_backend n) (cs_field e) (item_of tool_id e) value = (Ok tt, b') ->
  exists s1 n1, writeback name value (SecretClient tool_id (Some cl) cache) n = (inl s1, n1)
    /\ SpsClient.get s1 name = inl value /\ sp_backend n1 = b'
    /\ exists s2 n2, refresh name s1 n1 = (inl (value, s2), n2) /\ SpsClient.get s2 name = inl value.
Proof.
  intros Hinv Hcl HbM Hbc Hr Hv Hp. unfold budget in *.
  destruct (write_run value n b' Hr Hv Hp) as (n1 & Hrun & Hpool & Hback).
  destruct (handle_ok (texts (write_msg value)) "write_secret" WriteSecret _ n n1 eq_refl eq_refl ltac:(done) Hrun)
    as (n2 & Hh & Hpool2 & Hback2).
  assert (_call cl (texts (write_msg value)) n
    = (inl [("status"%string, JStr "ok"); ("name"%string, JStr name)], n2)) as Hw.
  { eapply call_ok; [apply write_wf | apply write_budget; unfold budget; lia | exact Hh
      | apply (texts_wf [("status"%string, "ok"%string); ("name"%string, name)]); apply two_wf |].
    pose proof (texts_len [("status"%string, "ok"%string); ("name"%string, name)]) as Hl. unfold texts_budget in Hl.
    cbn [foldr fst snd] in Hl. change (len "status") with 6 in Hl. change (len "ok") with 2 in Hl.
    change (len "name") with 4 in Hl. pose proof (len_nonneg tool_id). pose proof (len_nonneg value).
    pose proof (len_nonneg es). unfold texts in Hl. cbn [map fst snd] in Hl. unfold ok_reply. lia. }
  set (s1 := set_cache (dset cache name value) (SecretClient tool_id (Some cl) cache)).
  exists s1, n2. split; [|split; [|split; [congruence |]]].
  - unfold writeback, with_cli, SpsClient.write_secret, mbind, CM_bind, mret, CM_ret. cbn [sc_cli sc_tool_id].
    rewrite Hcl. unfold _require, mret, CM_ret.
    change [("op"%string, JStr "write_secret"); _; _; _; _] with (texts (write_msg value)). rewrite Hw. done.
  - unfold SpsClient.get, s1. simpl. by rewrite dget_dset_eq.
  - destruct (get_run value n2) as (n3 & Hrun3 & _).
    { by rewrite Hpool2, Hpool. }
    { rewrite Hback2, Hback. exact (read_after_write _ _ _ _ _ Hinv Hp). }
    destruct (handle_ok (texts get_msg) "get_secret" GetSecret _ n2 n3 eq_refl eq_refl ltac:(done) Hrun3)
      as (n4 & Hh4 & _ & _).
    assert (_call cl (texts get_msg) n2
      = (inl [("status"%string, JStr "ok"); ("secrets"%string, JObj (texts [(name, value)]))], n4)) as Hg.
    { eapply call_ok; [apply get_wf | apply (get_budget value); unfold budget; lia | exact Hh4 | apply reply_wf |].
      pose proof (reply_len value). pose proof (len_nonneg tool_id). pose proof (len_nonneg es). lia. }
    eexists _, n4. split.
    + unfold refresh, with_cli, SpsClient.get_secret, mbind, CM_bind, mret, CM_ret. cbn [sc_cli sc_tool_id s1 set_cache].
      rewrite Hcl. unfold _require, mret, CM_ret.
      change [("op"%string, JStr "get_secret"); _; _; _] with (texts get_msg). rewrite Hg.
      unfold _validate_secrets. simpl. rewrite decide_True by done. done.
    + unfold SpsClient.get. simpl. by rewrite dget_dset_eq.
Qed.
End Tool.
End Service.

(** ** A concrete service over the encrypted vault *)

#[local] Existing Instance w_crypto.
#[local] Existing Instance echo_digest.
#[local] Existing Instance w_utf8.

(** An audit log in memory. *)
#[local] Instance w_audit : AuditSink (list audit_event) := {| audit_write a e := (Ok tt, a ++ [e]) |}.
#[local] Instance w_laws : PluginLaws (vault * disk) := vault_laws w_crypto_ok.

Definition w_entry : cs_tuple := CsTuple "api" "token" None true.
Definition w_registration : registration := Registration (of_chars (repeat "a"%char 32)) [w_entry].
Definition w_service : sps (vault * disk) (list audit_event) :=
  Sps [("mail"%string, w_registration)] (w_vault, w_disk) [] [] [] (Rejects 0 0 0 0).
Definition w_config : sps_config := SpsConfig "sp" [] 65536.
Definition w_segments (s : string) : list string := if PyStr.empty s then [] else [s].

Lemma w_segments_ok s : concat (w_segments s) = s /\ Forall (fun p => PyStr.empty p = false) (w_segments s).
Proof. destruct s; [split; [done | constructor] |]. split; [apply str_app_nil | repeat constructor]. Qed.

Lemma w_service_inv : plugin_inv (sp_backend w_service).
Proof. exists (v_data w_vault). exact w_synced. Qed.

Lemma w_audit_accepts (a : list audit_event) ev : (audit_write a ev).1 = Ok tt.
Proof. done. Qed.

Lemma writeback_then_refresh_witness :
  exists s1 n1 s2 n2,
    writeback (H := Served "boot" 1 w_config w_segments) "api" "new"
      (SecretClient "mail" (Some (SPSClient None (Some (rg_esecret w_registration)) 8388608)) []) w_service = (inl s1, n1)
    /\ refresh (H := Served "boot" 1 w_config w_segments) "api" s1 n1 = (inl ("new"%string, s2), n2).
Proof.
  eassert (plugin_write (sp_backend w_service) "token" "mail" "new" = (Ok tt, _)) as Hw by (vm_compute; reflexivity).
  destruct (writeback_then_refresh "boot" 1 w_config w_segments w_segments_ok w_utf8_ascii w_audit_accepts
    "mail" "api" (rg_esecret w_registration) w_entry w_registration
    (conj eq_refl (conj eq_refl eq_refl)) (conj eq_refl (conj eq_refl eq_refl))
    (SPSClient None (Some (rg_esecret w_registration)) 8388608) [] "new" w_service _ w_service_inv eq_refl
    ltac:(vm_compute; discriminate) ltac:(vm_compute; discriminate) eq_refl ltac:(vm_compute; discriminate) Hw)
    as (s1 & n1 & Hwb & _ & _ & s2 & n2 & Hrf & _).
  exists s1, n1, s2, n2. split; [exact Hwb | exact Hrf].
Defined.

(** ** The security of the concrete service *)

Definition w_read (secret : string) : dict json :=
  [("op"%string, JStr "get_secret"); ("toolid"%string, JStr "mail"); ("esecret"%string, JStr secret);
   ("name"%string, JStr "api")].

Lemma tool_isolation_witness :
  let s0 := Sps [] (w_vault, w_disk) [] ([] : list audit_event) [] (Rejects 0 0 0 0) in
  Forall (within_grants w_config) (sp_calls (serve "boot" 1 w_config [Ok (JObj (w_read "x"))] s0)).
Proof. apply tool_isolation; reflexivity. Defined.

Lemma wrong_secret_uniform_witness :
  handle "boot" 1 w_config (Ok (JObj (w_read "guess"))) w_service
  = (err_reply "Unauthorized", count_reject RInvalid w_service).
Proof.
  apply (wrong_secret_uniform _ _ _ (w_read "guess") "get_secret"); [reflexivity | reflexivity | by vm_compute | | by vm_compute].
  intros tool_id r0. vm_compute. intros [= <-] [= <-]. done.
Defined.

Lemma release_is_audited_witness :
  exists d name ev, (handle "boot" 1 w_config (Ok (JObj (w_read (rg_esecret w_registration)))) w_service).1 = JObj d
    /\ jget d "status" = JStr "ok" /\ ev_action ev = name /\ ev_outcome ev = "ok"%string
    /\ sp_events (handle "boot" 1 w_config (Ok (JObj (w_read (rg_esecret w_registration)))) w_service).2 = [ev].
Proof.
  eassert ((handle "boot" 1 w_config (Ok (JObj (w_read (rg_esecret w_registration)))) w_service).1 = JObj _) as Hr
    by (vm_compute; reflexivity).
  destruct (release_is_audited _ _ _ _ _ _ Hr eq_refl ltac:(by vm_compute)) as (name & ev & a & _ & Hn & Ho & _ & _ & _ & He).
  eexists _, name, ev. split; [exact Hr |]. split; [reflexivity |]. split; [exact Hn |]. split; [exact Ho | exact He].
Defined.
