(* ===== verification/SpsConfig.v ===== *)
(** The configuration of the secret service: sps/config.py.

    The TOML text is already parsed; [load_config] gets its table, whether the
    file exists, and its mode bits.  [mode_bits] is [st_mode & 0o777] and
    [file_kind] what [stat] says of the type. *)

From stdpp Require Import base tactics list strings.
From Stdlib Require Import ZArith Lia Ascii.
From S2P Require Import Prelude PyStr Json Ip Url Sps.

(** [strict_bool]: a boolean, or one of the eight words after stripping and
    lowering. *)
Definition TRUE_WORDS : list string := ["1"; "true"; "yes"; "on"]%string.
Definition FALSE_WORDS : list string := ["0"; "false"; "no"; "off"]%string.

Definition strict_bool (v : json) : res bool :=
  match v with
  | JBool b => Ok b
  | JStr s =>
      let normalized := lower (strip s) in
      if existsb (String.eqb normalized) TRUE_WORDS then Ok true
      else if existsb (String.eqb normalized) FALSE_WORDS then Ok false
      else Raise ValueError
  | _ => Raise ValueError
  end.

(** [parse_bool] names the setting in its message. *)
Definition parse_bool (v : json) : res bool := strict_bool v.

Definition loopback_host (host : string) : bool :=
  String.eqb host "localhost"
  || match ip_address host with Some a => is_loopback a | None => false end.

Definition truthy_opt (o : option string) : bool := match o with Some s => negb (PyStr.empty s) | None => false end.

Definition validate_provider_url (value : string) : res string :=
  parsed ← urlsplit value;
  let host := u_hostname parsed in
  let local := loopback_host (default EmptyString host) in
  let '(user, password) := u_credentials parsed in
  if negb (truthy_opt host) || truthy_opt user || truthy_opt password
     || negb (PyStr.empty (u_query parsed)) || negb (PyStr.empty (u_fragment parsed))
     || negb (String.eqb (u_scheme parsed) "https" || String.eqb (u_scheme parsed) "http")
     || (String.eqb (u_scheme parsed) "http" && negb local)
  then Raise ValueError
  else Ok (rstrip_slash value).

Definition validate_listener (host : string) (allow_nonloopback : bool) : res unit :=
  raise_if (negb (loopback_host host) && negb allow_nonloopback) ValueError.

(** ** The file *)

Inductive file_kind := RegularFile | Directory | OtherKind.

Definition ConfigModeError : exn := OtherExn "ConfigModeError".

Definition _check_mode (kind : file_kind) (mode_bits : Z) : res unit :=
  match kind with
  | RegularFile => raise_if (negb (mode_bits =? 384)) ConfigModeError
  | _ => Raise ConfigModeError
  end.

Definition _ALLOWED_PLUGINS : list string := ["infisical"; "hashicorp_vault"; "localfile"]%string.

Record infisical_block := InfisicalBlock {
  i_host : json; i_vault : json; i_environment : json; i_organization_slug : json;
  i_client_id : json; i_client_secret : json }.
Record vault_block := VaultBlock { vb_url : json; vb_token : json; vb_mount : json }.
Record localfile_block := LocalFileBlock { lf_vault_file : json }.

Record config := Config {
  cf_host : string; cf_port : Z; cf_secret : string; cf_tls_cert : json; cf_tls_key : json; cf_tls_ca : json;
  cf_audit_log : json; cf_plugin : string; cf_infisical : option infisical_block; cf_vault : option vault_block;
  cf_localfile : option localfile_block; cf_grants : dict (list string); cf_max_value : Z;
  cf_allow_nonloopback : bool }.

(** What the handlers read of it. *)
Definition handler_config (c : config) : sps_config := SpsConfig (cf_secret c) (cf_grants c) (cf_max_value c).

Definition _need (data : dict json) (key : string) : res string :=
  match jget data key with
  | JStr v => if PyStr.empty v then Raise ValueError else Ok v
  | _ => Raise ValueError
  end.

Definition grant_items (v : json) : option (list string) :=
  match v with
  | JArr l =>
      foldr (fun x acc => match x with
                          | JStr s => if PyStr.empty s then None else (fun r => s :: r) <$> acc
                          | _ => None end) (Some []) l
  | _ => None
  end.

Fixpoint grants_of (d : dict json) : option (dict (list string)) :=
  match d with
  | [] => Some []
  | (tool, items) :: d' => l ← grant_items items; r ← grants_of d'; Some ((tool, l) :: r)
  end.

(** [d[k]] of a block. *)
Definition required (d : dict json) (key : string) : res json := res_of_option KeyError (dget d key).
Definition optional (d : dict json) (key : string) (dflt : json) : json := default dflt (dget d key).

Definition infisical_of (v : json) : res (option infisical_block) :=
  match v with
  | JObj d =>
      host ← required d "HOST"; vault ← required d "VAULT";
      Ok (Some (InfisicalBlock host vault (optional d "ENVIRONMENT" (JStr "prod")) (jget d "ORGANIZATION_SLUG")
                  (optional d "CLIENT_ID" (JStr EmptyString)) (optional d "CLIENT_SECRET" (JStr EmptyString))))
  | _ => Ok None
  end.

Definition vault_block_of (v : json) : res (option vault_block) :=
  match v with
  | JObj d =>
      url ← required d "URL"; token ← required d "TOKEN";
      Ok (Some (VaultBlock url token (optional d "MOUNT" (JStr "secret"))))
  | _ => Ok None
  end.

Definition localfile_of (v : json) : res (option localfile_block) :=
  match v with
  | JObj d => f ← required d "VAULT_FILE"; Ok (Some (LocalFileBlock f))
  | _ => Ok None
  end.

Definition FileNotFoundError : exn := OtherExn "FileNotFoundError".

Definition load_config (present : bool) (kind : file_kind) (mode_bits : Z) (data : dict json) : res config :=
  _ ← raise_if (negb present) FileNotFoundError;
  _ ← _check_mode kind mode_bits;
  sp_host ← _need data "SP_HOST";
  allow_nonloopback ← strict_bool (optional data "SP_ALLOW_NONLOOPBACK" (JBool false));
  _ ← validate_listener sp_host allow_nonloopback;
  grants ← (match optional data "grants" (JObj []) with
            | JObj d => res_of_option ValueError (grants_of d)
            | _ => Raise ValueError end);
  max_value ← (match optional data "SP_MAX_VALUE_BYTES" (JInt 65536) with
               | JInt z => if z <? 1 then Raise ValueError else Ok z
               | _ => Raise ValueError end);
  port_text ← _need data "SP_PORT";
  sp_port ← py_int port_text;
  sp_secret ← _need data "SP_SECRET";
  let field key := optional data key (JStr EmptyString) in
  sp_plugin ← (match field "SP_PLUGIN"%string with
               | JStr p => if existsb (String.eqb p) _ALLOWED_PLUGINS then Ok p else Raise ValueError
               | _ => Raise ValueError end);
  infisical ← infisical_of (jget data "infisical");
  vault ← vault_block_of (jget data "hashicorp_vault");
  localfile ← localfile_of (jget data "localfile");
  Ok (Config sp_host sp_port sp_secret (field "SP_TLS_CERT"%string) (field "SP_TLS_KEY"%string)
        (field "SP_TLS_CA"%string) (field "SP_AUDIT_LOG"%string) sp_plugin infisical vault localfile grants
        max_value allow_nonloopback).

(** plugins/loader.py: which plugin the configuration selects. *)
Inductive plugin_choice :=
| UseInfisical (b : infisical_block) | UseVault (b : vault_block) | UseLocalFile (b : localfile_block).

Definition load_plugin (c : config) : res plugin_choice :=
  if String.eqb (cf_plugin c) "infisical" then UseInfisical <$> res_of_option ValueError (cf_infisical c)
  else if String.eqb (cf_plugin c) "hashicorp_vault" then UseVault <$> res_of_option ValueError (cf_vault c)
  else if String.eqb (cf_plugin c) "localfile" then UseLocalFile <$> res_of_option ValueError (cf_localfile c)
  else Raise ValueError.

(** server.build_server: the checks before the socket is bound. *)
Definition build_server (host : string) (c : config) (tls plaintext_for_tests : bool) : res unit :=
  _ ← raise_if (negb tls && negb plaintext_for_tests) ValueError;
  validate_listener host (cf_allow_nonloopback c).

(** ** Properties *)

Lemma grant_items_nonempty v l : grant_items v = Some l -> Forall (fun s => PyStr.empty s = false) l.
Proof.
  destruct v as [| | | | |items|]; try done. simpl. revert l. induction items as [|x items IH]; intros l; simpl.
  { intros [= <-]. constructor. }
  destruct x as [| | | |s| |]; try done. destruct (PyStr.empty s) eqn:E; [done |].
  destruct (foldr _ (Some []) items) as [r|]; simpl; [|done]. intros [= <-]. constructor; [done | by apply IH].
Qed.

(** A configuration that loads is safe to serve: its file was a regular
    file of mode 0600, its listener is a loopback address unless the operator
    said otherwise in so many words, its secret is not empty, its value limit
    is positive, and the plugin it names is one of the three. *)
Theorem loaded_config_safe (present : bool) (kind : file_kind) (mode_bits : Z) (data : dict json) (c : config) :
  load_config present kind mode_bits data = Ok c ->
  present = true /\ kind = RegularFile /\ mode_bits = 384
  /\ (loopback_host (cf_host c) = true \/ strict_bool (optional data "SP_ALLOW_NONLOOPBACK" (JBool false)) = Ok true)
  /\ PyStr.empty (cf_secret c) = false /\ 1 <= cf_max_value c /\ In (cf_plugin c) _ALLOWED_PLUGINS
  /\ build_server (cf_host c) c true false = Ok tt.
Proof.
  unfold load_config. intros Hl.
  assert (forall key v, _need data key = Ok v -> PyStr.empty v = false) as Hneed.
  { intros key v. unfold _need. destruct (jget data key); try done. destruct (PyStr.empty s) eqn:E; [done |].
    intros [= <-]. done. }
  inv_bind. cbn [cf_host cf_secret cf_max_value cf_plugin cf_allow_nonloopback].
  unfold build_server. cbn [cf_allow_nonloopback negb andb raise_if mbind res_bind].
  assert (kind = RegularFile /\ mode_bits = 384) as [-> ->].
  { unfold _check_mode in E0. destruct kind; [|done | done]. destruct (mode_bits =? 384) eqn:Em; [by to_prop | done]. }
  split; [by to_prop |]. split; [done |]. split; [done |]. split; [|split; [by eapply Hneed | split; [|split]]].
  - unfold validate_listener in E3. destruct (loopback_host a1); [by left | right].
    destruct a2; [done | by simpl in E3].
  - destruct (optional data "SP_MAX_VALUE_BYTES" (JInt 65536)); try done.
    destruct (z <? 1) eqn:Ez; [done |]. injection E5 as <-. to_prop. lia.
  - destruct (optional data "SP_PLUGIN" (JStr EmptyString)); try done.
    destruct (existsb (String.eqb s) _ALLOWED_PLUGINS) eqn:Ep; [|done]. injection E9 as <-.
    apply existsb_exists in Ep as (p & Hin & ->%String.eqb_eq). done.
  - by rewrite E3; destruct a3.
Qed.

Definition w_sps_env : dict json :=
  [("SP_HOST", JStr "127.0.0.1"); ("SP_PORT", JStr "8743"); ("SP_SECRET", JStr "s"); ("SP_PLUGIN", JStr "localfile");
   ("localfile", JObj [("VAULT_FILE", JStr "/v")]); ("grants", JObj [("mail", JArr [JStr "shared"])])]%string.

Lemma loaded_config_safe_witness :
  exists c, load_config true RegularFile 384 w_sps_env = Ok c /\ loopback_host (cf_host c) = true
    /\ 1 <= cf_max_value c.
Proof.
  eassert (load_config true RegularFile 384 w_sps_env = Ok _) as Hl by (vm_compute; reflexivity).
  eexists. split; [exact Hl |]. split; [reflexivity |].
  apply (loaded_config_safe _ _ _ _ _ Hl).
Defined.

(** A provider URL that is accepted keeps credentials off the wire: its
    scheme is https, or http with a loopback host, and it carries no user, no
    password, no query and no fragment. *)
Theorem provider_url_confidential (value url : string) :
  validate_provider_url value = Ok url ->
  exists parsed host, urlsplit value = Ok parsed /\ u_hostname parsed = Some host /\ PyStr.empty host = false
    /\ (u_scheme parsed = "https"%string \/ u_scheme parsed = "http"%string /\ loopback_host host = true)
    /\ u_query parsed = EmptyString /\ u_fragment parsed = EmptyString
    /\ truthy_opt (u_credentials parsed).1 = false /\ truthy_opt (u_credentials parsed).2 = false.
Proof.
  unfold validate_provider_url. intros Hv. apply res_bind_ok in Hv as (parsed & Hp & Hv). exists parsed.
  destruct (u_credentials parsed) as [user password]. cbn [fst snd].
  destruct (_ || _) eqn:E; [done |]. to_prop.
  destruct (u_hostname parsed) as [host|]; [|done]. exists host. cbn [truthy_opt default] in *.
  destruct (PyStr.empty host) eqn:Eh; [done |]. split; [done |]. split; [done |]. split; [done |].
  assert (forall s, PyStr.empty s = true -> s = EmptyString) as Hem by by intros [].
  split; [|auto].
  change (from_option id EmptyString (Some host)) with host in *.
  destruct (String.eqb (u_scheme parsed) "https") eqn:E1; [left; by apply String.eqb_eq |].
  destruct (String.eqb (u_scheme parsed) "http") eqn:E2; [right | done].
  split; [by apply String.eqb_eq |]. change (id host) with host in *. by destruct (loopback_host host).
Qed.

Lemma provider_url_confidential_witness :
  exists parsed, urlsplit "http://[::1]:8200/v1/" = Ok parsed /\ u_query parsed = EmptyString.
Proof.
  destruct (provider_url_confidential "http://[::1]:8200/v1/" "http://[::1]:8200/v1" eq_refl)
    as (parsed & host & Hp & _ & _ & _ & Hq & _).
  exists parsed. split; [exact Hp | exact Hq].
Defined.
