(* ===== verification/SpsAudit.v ===== *)
(** The audit log of the secret service (sps/audit.py), an implementation of
    [AuditSink], and the admission of connections and the reject summaries of
    sps/server.py.

    A log file is the list of its lines; [lg_old] holds the rotated generations
    [path.1], [path.2] and so on.  Which calls find an unsafe path or a failing
    disk is [lg_bad]; such a call raises before anything is renamed. *)

From stdpp Require Import base tactics list strings.
From Stdlib Require Import ZArith Lia Ascii.
From S2P Require Import Prelude PyStr Json SpsWire Sps.

Definition log_file : Type := list string.
Definition file_size (f : log_file) : Z := foldr (fun l n => len l + n) 0 f.

Record logger := Logger {
  lg_max : Z; lg_current : log_file; lg_old : list (option log_file); lg_clock : nat -> Z;
  lg_bad : nat -> bool; lg_tick : nat }.

(** [AuditLogger.__init__] over an empty directory. *)
Definition new_logger (max_bytes : Z) (generations : nat) (clock : nat -> Z) (bad : nat -> bool) : res logger :=
  if max_bytes <? 1024 then Raise ValueError
  else if (generations <? 1)%nat then Raise ValueError
  else Ok (Logger max_bytes [] (repeat None generations) clock bad 0).

(** [re.fullmatch(r"sha256:[0-9a-f]{64}", v)]. *)
Definition is_hashed (v : string) : bool :=
  starts_with "sha256:" v && lower_hex_bounded 64 64 (str_drop 7 v).

Definition clip (n : nat) (s : string) : string := str_take n s.

Definition optional_text (key : string) (n : nat) (v : string) : dict json :=
  if PyStr.empty v then [] else [(key, JStr (clip n v))].

Definition entry_json (e : string * string) : json :=
  JObj [("field"%string, JStr e.1); ("item"%string, JStr e.2)].

(** The record of an event, refused when an entry is not hashed. *)
Definition event_json (now : Z) (e : audit_event) : res json :=
  match ev_entries e with
  | Some (entries, entry_count, writable_count) =>
      if forallb (fun e => is_hashed e.1 && is_hashed e.2) entries
      then Ok [("entries"%string, JArr (map entry_json entries)); ("entry_count"%string, JInt entry_count);
               ("writable_count"%string, JInt writable_count)]
      else Raise ValueError
  | None => Ok []
  end ≫= fun more : dict json =>
  Ok (JObj ([("ts"%string, JInt now); ("action"%string, JStr (clip 64 (ev_action e)));
             ("outcome"%string, JStr (clip 64 (ev_outcome e)))]
            ++ optional_text "tool_id" 128 (ev_tool_id e)
            ++ optional_text "secret_name" 128 (ev_secret_name e)
            ++ match ev_count e with Some n => [("count"%string, JInt (Z.max 0 (Z.min n (2 ^ 31 - 1))))] | None => [] end
            ++ more)).

(** The loop over [generations - 1 .. 1]: an existing [path.i] replaces
    [path.(i+1)]. *)
Fixpoint shift (l : list (option log_file)) : list (option log_file) :=
  match l with
  | f :: l' =>
      match shift l' with
      | g :: r => match f with Some _ => None :: f :: r | None => None :: g :: r end
      | [] => [f]
      end
  | [] => []
  end.

Definition rotate (l : logger) : logger :=
  let old := match shift (lg_old l) with _ :: r => Some (lg_current l) :: r | [] => [] end in
  Logger (lg_max l) [] old (lg_clock l) (lg_bad l) (lg_tick l).

Definition append_line (line : string) (l : logger) : logger :=
  Logger (lg_max l) (lg_current l ++ [line]) (lg_old l) (lg_clock l) (lg_bad l) (lg_tick l).

Definition log_tick (l : logger) : logger :=
  Logger (lg_max l) (lg_current l) (lg_old l) (lg_clock l) (lg_bad l) (S (lg_tick l)).

Definition log_event (l : logger) (e : audit_event) : res unit * logger :=
  let l' := log_tick l in
  match event_json (lg_clock l (lg_tick l)) e with
  | Raise x => (Raise x, l')
  | Ok v =>
      let payload := write_one_json v in
      if lg_max l <? len payload then (Raise ValueError, l')
      else if lg_bad l (lg_tick l) then (Raise (OtherExn "OSError"), l')
      else (Ok tt, append_line payload
                     (if lg_max l <? file_size (lg_current l) + len payload then rotate l' else l'))
  end.

#[export] Instance AuditLogger : AuditSink logger := {| audit_write := log_event |}.

(** ** Retention *)

Definition file_ok (max : Z) (f : log_file) : Prop := file_size f <= max.

Record log_ok (generations : nat) (l : logger) : Prop := {
  lo_max : 1024 <= lg_max l;
  lo_count : length (lg_old l) = generations;
  lo_current : file_ok (lg_max l) (lg_current l);
  lo_old : forall f, In (Some f) (lg_old l) -> file_ok (lg_max l) f }.

Lemma shift_length l : length (shift l) = length l.
Proof.
  induction l as [|f l IH]; [done |]. cbn [shift]. destruct (shift l) as [|g r]; simpl in *; [by rewrite <- IH |].
  destruct f; simpl; lia.
Qed.

Lemma shift_In l f : In (Some f) (shift l) -> In (Some f) l.
Proof.
  induction l as [|x l IH]; [done |]. cbn [shift]. destruct (shift l) as [|g r]; simpl in *; [intuition |].
  destruct x as [x|]; simpl.
  - intros [? | [[= ->] | Hi]]; [done | by left | right; apply IH; by right].
  - intros [? | [-> | Hi]]; [done | right; apply IH; by left | right; apply IH; by right].
Qed.

Lemma file_size_nonneg f : 0 <= file_size f.
Proof. induction f as [|x f IH]; [done |]. simpl. pose proof (len_nonneg x). lia. Qed.

Lemma file_size_snoc f x : file_size (f ++ [x]) = file_size f + len x.
Proof. induction f as [|y f IH]; simpl; lia. Qed.

Lemma rotate_ok n l : (0 < n)%nat -> log_ok n l -> log_ok n (rotate l) /\ lg_current (rotate l) = [].
Proof.
  intros Hn [Hm Hc Hcur Hold]. split; [|done]. unfold rotate. constructor; simpl.
  - done.
  - pose proof (shift_length (lg_old l)). destruct (shift (lg_old l)); simpl in *; lia.
  - unfold file_ok. simpl. lia.
  - intros f. pose proof (shift_length (lg_old l)). destruct (shift (lg_old l)) as [|g r] eqn:Es; [done |].
    intros [[= <-] | Hi]; [done |]. apply Hold, shift_In. rewrite Es. by right.
Qed.

Lemma log_event_ok n l e : (0 < n)%nat -> log_ok n l ->
  log_ok n (log_event l e).2
  /\ (is_ok (log_event l e).1 = true -> exists line, List.last (lg_current (log_event l e).2) EmptyString = line
        /\ exists v, event_json (lg_clock l (lg_tick l)) e = Ok v /\ line = write_one_json v)
  /\ (is_ok (log_event l e).1 = false -> lg_current (log_event l e).2 = lg_current l
        /\ lg_old (log_event l e).2 = lg_old l).
Proof.
  intros Hn Hl. assert (log_ok n (log_tick l)) as Ht by by destruct Hl. unfold log_event.
  destruct (event_json _ e) as [v|x]; [|done]. cbv zeta.
  destruct (lg_max l <? len (write_one_json v)) eqn:Ep; [done |].
  destruct (lg_bad l (lg_tick l)); [done |]. to_prop. cbn [fst snd is_ok].
  set (base := if _ <? _ then _ else _).
  assert (log_ok n base /\ file_size (lg_current base) + len (write_one_json v) <= lg_max base /\ lg_max base = lg_max l)
    as (Hb & Hsz & Hmx).
  { unfold base. destruct (_ <? _) eqn:Er; to_prop.
    - destruct (rotate_ok n (log_tick l) Hn Ht) as [Hr Hc]. split; [done |]. rewrite Hc. simpl. lia.
    - split; [done |]. simpl. lia. }
  split; [|split; [|done]].
  - destruct Hb as [Hm Hc Hcur Hold]. constructor; simpl; try done. unfold file_ok. rewrite file_size_snoc. lia.
  - intros _. simpl. eexists. split; [reflexivity |]. exists v. split; [done |]. by rewrite last_last.
Qed.

Definition log_events (es : list audit_event) (l : logger) : logger := foldl (fun l e => (log_event l e).2) l es.

Lemma log_events_ok n es l : (0 < n)%nat -> log_ok n l -> log_ok n (log_events es l).
Proof.
  intros Hn. revert l. induction es as [|e es IH]; intros l Hl; [done |]. simpl. apply IH. by apply log_event_ok.
Qed.

(** The audit log is bounded and durable: after every sequence of events,
    with any failures in between, each of its files is within the byte limit
    and there are never more than the configured generations; an event that is
    accepted is the last line of the current file, and one that is refused
    changes no file. *)
Theorem audit_log_bounded (max_bytes : Z) (generations : nat) clock bad (es : list audit_event) (e : audit_event) l :
  new_logger max_bytes generations clock bad = Ok l ->
  let l1 := log_events es l in
  let '(r, l2) := log_event l1 e in
  (length (lg_old l2) = generations
   /\ file_size (lg_current l2) <= max_bytes
   /\ forall f, In (Some f) (lg_old l2) -> file_size f <= max_bytes)
  /\ match r with
     | Ok _ => exists v, event_json (lg_clock l1 (lg_tick l1)) e = Ok v
                 /\ List.last (lg_current l2) EmptyString = write_one_json v
     | Raise _ => lg_current l2 = lg_current l1 /\ lg_old l2 = lg_old l1
     end.
Proof.
  unfold new_logger. destruct (max_bytes <? 1024) eqn:Em; [done |]. destruct (generations <? 1)%nat eqn:Eg; [done |].
  intros [= <-]. to_prop. apply Nat.ltb_ge in Eg.
  set (l := Logger _ _ _ _ _ _).
  assert (log_ok generations l) as Hl.
  { constructor; simpl; [done | apply repeat_length | unfold file_ok; simpl; lia |].
    intros f Hf. by apply repeat_spec in Hf. }
  cbv zeta. pose proof (log_events_ok generations es l ltac:(lia) Hl) as H1.
  pose proof (log_event_ok generations (log_events es l) e ltac:(lia) H1) as (H2 & Ha & Hr).
  assert (lg_max (log_event (log_events es l) e).2 = max_bytes) as Hmax.
  { assert (forall l e, lg_max (log_event l e).2 = lg_max l) as Hone.
    { intros l0 e0. unfold log_event. destruct (event_json _ e0); [|done]. cbv zeta. repeat case_match; done. }
    rewrite Hone. clear -Hone. change max_bytes with (lg_max l) at 1. generalize l.
    induction es as [|x es IH]; intros l1; [done |]. simpl. by rewrite IH, Hone. }
  destruct (log_event (log_events es l) e) as [r l2]. cbn [fst snd] in *. destruct H2 as [_ Hc Hcur Hold].
  unfold file_ok in *. rewrite Hmax in *. split; [done |]. destruct r as [u|x]; simpl in *.
  - destruct (Ha eq_refl) as (line & Hlast & v & Hv & Hline). exists v. split; [done | by rewrite Hlast].
  - by apply Hr.
Qed.

Definition w_event : audit_event := AuditEvent "get_secret" EmptyString EmptyString "ok" None None.

Lemma audit_log_bounded_witness :
  exists l, new_logger 1024 2 (fun n => Z.of_nat n) (fun _ => false) = Ok l
    /\ length (lg_old (log_event (log_events [w_event] l) w_event).2) = 2%nat
    /\ length (lg_current (log_event (log_events [w_event] l) w_event).2) = 2%nat.
Proof.
  eassert (new_logger 1024 2 (fun n => Z.of_nat n) (fun _ => false) = Ok _) as Hl by reflexivity.
  pose proof (audit_log_bounded _ _ _ _ [w_event] w_event _ Hl) as Ha. cbv zeta in Ha.
  eexists. split; [exact Hl |].
  destruct (log_event _ w_event) as [r l2] eqn:E in Ha. destruct Ha as [(Hc & _) _].
  split; [rewrite E; exact Hc | vm_compute; reflexivity].
Defined.
