(* ===== verification/Slots.v ===== *)
(** Bounded admission of connections: [ThreadingTCPServer] of sps/server.py and
    [BoundedProxyServer] of toolyard/egress_proxy.py.

    The accepting thread and the worker threads interleave as the steps of
    [step], which leaves open in which order a worker takes them; its program is
    in SlotWorkers.v.  Each semaphore operation is atomic.  A connection is a
    number. *)

From stdpp Require Import base tactics list.
From Stdlib Require Import ZArith Lia.
From S2P Require Import Prelude Sps.

(** ** The summaries of rejections

    [_flush_rejects]: [last] is the time of the last flush ([None] is minus
    infinity); the answer lists the kinds and counts to be audited.  Times are
    microseconds. *)
Definition second : Z := 1000000.

Definition rejects_of (r : reject_counts) : list (reject_kind * Z) :=
  [(RAdmission, rj_admission r); (RTransport, rj_transport r); (RPing, rj_ping r); (RInvalid, rj_invalid r)].

Definition _flush_rejects (now : Z) (last : option Z) (r : reject_counts)
    : list (reject_kind * Z) * option Z * reject_counts :=
  let recent := match last with Some t => now - t <? second | None => false end in
  if recent || negb (existsb (fun kn => negb (kn.2 =? 0)) (rejects_of r)) then ([], last, r)
  else (List.filter (fun kn => negb (kn.2 =? 0)) (rejects_of r), Some now, Rejects 0 0 0 0).

(** ** The semaphore and the workers

    [sl_free] is the semaphore, [sl_workers] the connections whose worker
    thread has not finished, [sl_refused] those refused at admission, [sl_done]
    those served, [sl_lines] the summaries audited, newest first, with their
    times. *)
Record slots := Slots {
  sl_free : Z; sl_workers : list Z; sl_refused : list Z; sl_done : list Z;
  sl_counts : reject_counts; sl_last : option Z; sl_lines : list (Z * list (reject_kind * Z)) }.

(** [__init__]; [None] is the ValueError. *)
Definition open_slots (max_workers : Z) : option slots :=
  if max_workers <? 1 then None else Some (Slots max_workers [] [] [] (Rejects 0 0 0 0) None []).

(** [process_request]: [started] tells whether the worker thread could be
    started; when not, the slot is released and the exception propagates. *)
Definition process_request (conn : Z) (started : bool) (s : slots) : slots :=
  let 'Slots free ws refused finished r last lines := s in
  if free <=? 0 then Slots free ws (conn :: refused) finished (_record_reject RAdmission r) last lines
  else if started then Slots (free - 1) (conn :: ws) refused finished r last lines
  else Slots (free - 1 + 1) ws refused finished r last lines.

Definition flush (now : Z) (s : slots) : slots :=
  let 'Slots free ws refused finished r last lines := s in
  let '(audited, last', r') := _flush_rejects now last r in
  Slots free ws refused finished r' last' (match audited with [] => lines | _ => (now, audited) :: lines end).

(** The handler's and the worker's calls of [_record_reject]. *)
Definition reject (k : reject_kind) (s : slots) : slots :=
  let 'Slots free ws refused finished r last lines := s in
  Slots free ws refused finished (_record_reject k r) last lines.

(** The [finally] of [process_request_thread], after its flush. *)
Definition release (conn : Z) (s : slots) : slots :=
  let 'Slots free ws refused finished r last lines := s in
  Slots (free + 1) (List.filter (fun c => negb (c =? conn)) ws) refused (conn :: finished) r last lines.

(** One atomic action of the accepting thread ([step_accept]) or of a worker:
    the flush it starts and ends with, the rejects it counts, its release. *)
Inductive step : slots -> slots -> Prop :=
| step_accept conn started s : ~ In conn (sl_workers s ++ sl_refused s ++ sl_done s) ->
    step s (process_request conn started s)
| step_flush conn now s : In conn (sl_workers s) -> (forall t, sl_last s = Some t -> t <= now) -> step s (flush now s)
| step_reject conn k s : In conn (sl_workers s) -> step s (reject k s)
| step_release conn s : In conn (sl_workers s) -> step s (release conn s).

Inductive reachable (max_workers : Z) : slots -> Prop :=
| reach_open s : open_slots max_workers = Some s -> reachable max_workers s
| reach_step s s' : reachable max_workers s -> step s s' -> reachable max_workers s'.

Definition count_ok (n : Z) : Prop := 0 <= n <= 2 ^ 31 - 1.
Definition counts_ok (r : reject_counts) : Prop :=
  count_ok (rj_admission r) /\ count_ok (rj_transport r) /\ count_ok (rj_ping r) /\ count_ok (rj_invalid r).

(** Each summary comes at least a second after the one before it. *)
Fixpoint spaced (last : option Z) (lines : list (Z * list (reject_kind * Z))) : Prop :=
  match lines with
  | [] => last = None
  | (t, audited) :: lines' =>
      last = Some t /\ (length audited <= 4)%nat
      /\ match lines' with [] => True | (t', _) :: _ => t' + second <= t end
      /\ spaced (fst <$> head lines') lines'
  end.

Record slots_ok (max_workers : Z) (s : slots) : Prop := {
  so_balance : sl_free s + Z.of_nat (length (sl_workers s)) = max_workers;
  so_free : 0 <= sl_free s;
  so_workers : NoDup (sl_workers s);
  so_counts : counts_ok (sl_counts s);
  so_lines : spaced (sl_last s) (sl_lines s) }.

Lemma saturate_ok n : count_ok n -> count_ok (saturate n).
Proof. unfold count_ok, saturate. lia. Qed.

Lemma record_reject_ok k r : counts_ok r -> counts_ok (_record_reject k r).
Proof.
  unfold counts_ok. intros (? & ? & ? & ?). destruct k; simpl; repeat split_and; by try apply saturate_ok.
Qed.

Lemma filter_absent (l : list Z) c : ~ In c l -> List.filter (fun x => negb (x =? c)) l = l.
Proof.
  induction l as [|y l IH]; [done |]. simpl. intros Hn. destruct (y =? c) eqn:E; to_prop; simpl.
  - destruct Hn. by left.
  - f_equal. apply IH. intros Hin. apply Hn. by right.
Qed.

Lemma filter_remove (l : list Z) c :
  NoDup l -> In c l -> S (length (List.filter (fun x => negb (x =? c)) l)) = length l.
Proof.
  induction l as [|x l IH]; [done |]. intros [Hn Hd]%NoDup_cons. simpl. destruct (x =? c) eqn:E; to_prop; simpl.
  - subst. intros _. by rewrite filter_absent by (by rewrite <- list_elem_of_In).
  - intros [-> | Hin]; [done |]. f_equal. by apply IH.
Qed.

Lemma filter_le {A} (f : A -> bool) l : (length (List.filter f l) <= length l)%nat.
Proof. induction l as [|x l IH]; simpl; [lia |]. destruct (f x); simpl; lia. Qed.

Lemma flush_counts_ok now last r audited last' r' :
  _flush_rejects now last r = (audited, last', r') -> counts_ok r -> counts_ok r'.
Proof.
  unfold _flush_rejects. destruct (_ || _); intros [= <- <- <-]; [done |]. unfold counts_ok, count_ok. simpl. lia.
Qed.

Lemma flush_nonempty now last r audited last' r' :
  _flush_rejects now last r = (audited, last', r') ->
  audited = [] /\ last' = last
  \/ audited <> [] /\ last' = Some now /\ (length audited <= 4)%nat /\ (forall t, last = Some t -> t + second <= now).
Proof.
  unfold _flush_rejects. destruct (_ || _) eqn:E; intros [= <- <- <-]; [by left | right].
  apply orb_false_iff in E as [E1 E2]. apply negb_false_iff, existsb_exists in E2 as (kn & Hin & Hn).
  pose proof (proj2 (filter_In (fun kn => negb (kn.2 =? 0)) kn (rejects_of r)) (conj Hin Hn)) as Hk.
  split; [intros Hnil; exact (in_nil (eq_ind _ (In kn) Hk [] Hnil)) |]. split; [done |]. split; [exact (filter_le (fun kn => negb (kn.2 =? 0)) (rejects_of r)) |]. intros t ->. to_prop. lia.
Qed.

Lemma flush_ok m now s :
  slots_ok m s -> slots_ok m (flush now s).
Proof.
  destruct s as [f ws rf dn r last lines]. intros [Hb Hf Hw Hc Hl]. simpl in *.
  destruct (_flush_rejects now last r) as [[audited last'] r'] eqn:E.
  pose proof (flush_counts_ok _ _ _ _ _ _ E Hc). constructor; simpl; try done.
  destruct (flush_nonempty _ _ _ _ _ _ E) as [[-> ->] | (Hne & -> & Hlen & Hgap)]; [done |].
  destruct audited as [|a audited]; [done |]. cbn [spaced]. split; [done |]. split; [done |].
  destruct lines as [|[t l] lines]; [by split |]. destruct Hl as (-> & ? & ? & ?).
  split; [by apply Hgap |]. by cbn.
Qed.

Lemma step_ok m s s' : slots_ok m s -> step s s' -> slots_ok m s'.
Proof.
  intros Hok Hs. destruct Hs as [conn started s0 Hfresh | conn now s0 Hin _ | conn k s0 Hin | conn s0 Hin]; [| by apply flush_ok | |];
    destruct Hok as [Hb Hf Hw Hc Hl]; destruct s0 as [f ws rf dn r last lines]; simpl in *.
  - destruct (f <=? 0) eqn:E; to_prop; [constructor; [done.. | exact (record_reject_ok RAdmission _ Hc) | done] |].
    destruct started; constructor; simpl; try done; try lia.
    apply NoDup_cons. split; [|done]. intros Hc1%list_elem_of_In. apply Hfresh. apply in_app_iff. by left.
  - constructor; [done.. | exact (record_reject_ok k _ Hc) | done].
  - pose proof (filter_remove _ conn Hw Hin). constructor; simpl; try done; try lia.
    by apply NoDup_ListNoDup, List.NoDup_filter, NoDup_ListNoDup.
Qed.

Lemma reachable_ok m s : reachable m s -> slots_ok m s.
Proof.
  induction 1 as [s Ho | s s' _ IH Hs]; [|by eapply step_ok].
  unfold open_slots in Ho. destruct (m <? 1) eqn:E; [done |]. injection Ho as <-. to_prop.
  constructor; simpl; try lia; [by apply NoDup_nil | unfold counts_ok, count_ok; simpl; lia | done].
Qed.

(** C16. Admission is bounded: in every reachable state of the server, however
    accepting and worker threads interleave, the slots that are free and the
    workers that run add up to the limit, so there are never more workers than
    the limit and no slot is lost or doubled; no counter overflows; and the
    audit gets at most four lines of summaries, at least a second apart. *)
Theorem workers_bounded (max_workers : Z) (s : slots) :
  reachable max_workers s ->
  sl_free s + Z.of_nat (length (sl_workers s)) = max_workers
  /\ Z.of_nat (length (sl_workers s)) <= max_workers /\ NoDup (sl_workers s) /\ counts_ok (sl_counts s)
  /\ spaced (sl_last s) (sl_lines s).
Proof. intros [Hb Hf Hw Hc Hl]%reachable_ok. split; [done |]. split; [lia |]. done. Qed.

Definition w_two : slots := Slots 0 [1] [2] [] (Rejects 1 0 0 0) None [].

Lemma w_two_reachable : reachable 1 w_two.
Proof.
  assert (reachable 1 (Slots 1 [] [] [] (Rejects 0 0 0 0) None [])) as H0 by by apply reach_open.
  assert (reachable 1 (process_request 1 true (Slots 1 [] [] [] (Rejects 0 0 0 0) None []))) as H1.
  { eapply reach_step; [exact H0 | apply step_accept]. by intros []. }
  eapply (reach_step 1 _ w_two); [exact H1 | apply (step_accept 2 true)]. simpl. intuition congruence.
Qed.

Lemma workers_bounded_witness :
  reachable 1 w_two /\ Z.of_nat (length (sl_workers w_two)) <= 1.
Proof. split; [exact w_two_reachable |]. apply (workers_bounded 1 _ w_two_reachable). Defined.
