(* ===== verification/SlotWorkers.v ===== *)
(** The worker threads of sps/server.py: [process_request_thread] with its
    [try], [except] and [finally], as the program of atomic actions it performs
    on the state of Slots.v, and the interleaving of all workers with the
    accepting thread.

    What a worker's blocking calls answer ([Outcomes]) is free: each returns or
    raises.  That each does one of the two is the sockets' timeouts', which are
    not modelled here. *)

From stdpp Require Import base tactics list strings.
From Stdlib Require Import ZArith Lia.
From S2P Require Import Prelude Sps Slots.

(** ** The program of a worker *)

Inductive action := AFlush | AReject (k : reject_kind) | ARelease.

#[export] Instance reject_kind_eq_dec : EqDecision reject_kind.
Proof. solve_decision. Defined.
#[export] Instance action_eq_dec : EqDecision action.
Proof. solve_decision. Defined.

(** The actions performed, in order, and how it ends. *)
Definition W (A : Type) : Type := list action * res A.

#[export] Instance W_ret : MRet W := fun _ a => ([], Ok a).
#[export] Instance W_bind : MBind W := fun _ _ f m =>
  match m with (l, Ok a) => let '(l', r) := f a in (l ++ l', r) | (l, Raise e) => (l, Raise e) end.
Definition does_action (a : action) : W unit := ([a], Ok tt).
Definition returns (r : res unit) : W unit := ([], r).
Definition wcatch (m : W unit) (h : exn -> W unit) : W unit :=
  match m with (l, Raise e) => let '(l', r) := h e in (l ++ l', r) | _ => m end.
Definition wfinally (m f : W unit) : W unit :=
  let '(l, r) := m in
  match f with (l', Ok _) => (l ++ l', r) | (l', Raise e) => (l ++ l', Raise e) end.

(** What the calls of one worker answer: [settimeout], [wrap_socket] and
    [handshake_with_deadline] when the server has TLS, the handler with the
    rejects it counts, and [shutdown_request] after it and after a failure. *)
Record outcomes := Outcomes {
  oc_settimeout : res unit; oc_tls : option (res unit * res unit); oc_rejects : list reject_kind; oc_handler : res unit;
  oc_shutdown : res unit; oc_shutdown_failed : res unit }.

(** socketserver's [process_request_thread]. *)
Definition finish_request (o : outcomes) : W unit :=
  wfinally (wcatch (map AReject (oc_rejects o), oc_handler o) (fun _ => mret tt)) (returns (oc_shutdown o)).

(** OSError with its subclasses, ssl.SSLError among them. *)
Definition is_os_error (e : exn) : bool :=
  existsb (fun x => bool_decide (e = x)) [OtherExn "OSError"; OtherExn "ssl.SSLError"; OtherExn "TimeoutError"; OtherExn "ConnectionError"; PermissionError].

Definition process_request_thread (o : outcomes) : W unit :=
  wfinally
    (wcatch
      (_ ← does_action AFlush;
       _ ← returns (oc_settimeout o);
       _ ← match oc_tls o with
           | Some (wrapped, handshake) => _ ← returns wrapped; returns handshake
           | None => mret tt
           end;
       finish_request o)
      (fun e => if is_os_error e then _ ← does_action (AReject RTransport); returns (oc_shutdown_failed o) else returns (Raise e)))
    (_ ← does_action AFlush; does_action ARelease).

(** ** The server with its threads

    [sy_threads]: every worker started, with the actions it has left; a thread
    that ended has none. *)
Record system := System { sy_slots : slots; sy_threads : list (Z * list action) }.

Inductive performs (conn : Z) : action -> slots -> slots -> Prop :=
| performs_flush now s : (forall t, sl_last s = Some t -> t <= now) -> performs conn AFlush s (flush now s)
| performs_reject k s : performs conn (AReject k) s (reject k s)
| performs_release s : performs conn ARelease s (release conn s).

(** A step of some worker. *)
Inductive work : system -> system -> Prop :=
| work_step before conn a l after s s' : performs conn a s s' ->
    work (System s (before ++ (conn, a :: l) :: after)) (System s' (before ++ (conn, l) :: after)).

(** A connection arrives; its worker starts when it was admitted. *)
Definition arrive (conn : Z) (started : bool) (o : outcomes) (y : system) : system :=
  System (process_request conn started (sy_slots y))
    (if (0 <? sl_free (sy_slots y)) && started then (conn, fst (process_request_thread o)) :: sy_threads y else sy_threads y).

Inductive served (max_workers : Z) : system -> Prop :=
| served_open s : open_slots max_workers = Some s -> served max_workers (System s [])
| served_arrive conn started o y : served max_workers y ->
    ~ In conn (sl_workers (sy_slots y) ++ sl_refused (sy_slots y) ++ sl_done (sy_slots y)) ->
    served max_workers (arrive conn started o y)
| served_work y y' : served max_workers y -> work y y' -> served max_workers y'.

(** [n] steps of workers, in any order. *)
Inductive works : nat -> system -> system -> Prop :=
| works_none y : works 0 y y
| works_step n y y' y'' : work y y' -> works n y' y'' -> works (S n) y y''.

(** The actions all workers have left. *)
Definition left_over (y : system) : nat := list_sum (map (fun t => length t.2) (sy_threads y)).

(** ** Facts *)

(** A program that releases its slot once, at its end. *)
Definition releases (l : list action) : Prop := exists body, l = body ++ [ARelease] /\ ~ In ARelease body.

Definition quiet (m : W unit) : Prop := ~ In ARelease (fst m).

Lemma quiet_finally_w m f : quiet m -> quiet f -> quiet (wfinally m f).
Proof. unfold quiet, wfinally. destruct m as [l r], f as [l' [?|?]]; simpl; intros Hm Hf [?|?]%in_app_iff; auto. Qed.

Lemma quiet_catch_w m h : quiet m -> (forall e, quiet (h e)) -> quiet (wcatch m h).
Proof.
  unfold quiet, wcatch. destruct m as [l [?|e]]; simpl; intros Hm Hh; [done |]. specialize (Hh e).
  destruct (h e) as [l' r]. simpl in *. intros [?|?]%in_app_iff; auto.
Qed.

Lemma quiet_bind_w (m : W unit) (f : unit -> W unit) : quiet m -> quiet (f tt) -> quiet (m ≫= f).
Proof.
  unfold quiet, mbind, W_bind. destruct m as [l [[]|e]]; simpl; intros Hm Hf; [|done].
  destruct (f tt) as [l' r]. simpl in *. intros [?|?]%in_app_iff; auto.
Qed.

Lemma quiet_finish o : quiet (finish_request o).
Proof.
  apply quiet_finally_w; [|by intros []]. apply quiet_catch_w; [|by intros e []].
  unfold quiet. simpl. intros (k & [=] & _)%in_map_iff.
Qed.

(** Whatever its calls answer, a worker releases its slot exactly once, as the
    last thing it does. *)
Lemma worker_releases o : releases (fst (process_request_thread o)).
Proof.
  unfold process_request_thread, wfinally. match goal with |- context [wcatch ?m ?h] => assert (quiet (wcatch m h)) as Hq end.
  - apply quiet_catch_w.
    + apply quiet_bind_w; [by intros [[=]|[]] |]. apply quiet_bind_w; [by intros [] |]. apply quiet_bind_w; [|apply quiet_finish].
      destruct (oc_tls o) as [[? ?]|]; [apply quiet_bind_w |]; by intros [].
    + intros e. destruct (is_os_error e); [apply quiet_bind_w; [by intros [[=]|[]] |] |]; by intros [].
  - destruct (wcatch _ _) as [l r]. simpl. exists (l ++ [AFlush]). split; [by rewrite <- app_assoc |].
    intros [?|[[=]|[]]]%in_app_iff. by apply Hq.
Qed.

Lemma releases_step a l : releases (a :: l) -> a = ARelease /\ l = [] \/ a <> ARelease /\ releases l.
Proof.
  intros ([|b body] & [= -> E] & Hn); [by left |]. right. split; [intros ->; apply Hn; by left |].
  exists body. split; [done |]. intros Hi. apply Hn. by right.
Qed.

(** The threads that run are the workers of the slots. *)
Record system_ok (max_workers : Z) (y : system) : Prop := {
  so_slots : reachable max_workers (sy_slots y);
  so_conns : NoDup (map fst (sy_threads y));
  so_threads : forall c l, In (c, l) (sy_threads y) ->
    l = [] /\ In c (sl_done (sy_slots y)) \/ releases l /\ In c (sl_workers (sy_slots y));
  so_running : forall c, In c (sl_workers (sy_slots y)) -> exists l, In (c, l) (sy_threads y) /\ releases l }.

Lemma performs_quiet conn a s s' : performs conn a s s' -> a <> ARelease -> sl_workers s' = sl_workers s /\ sl_done s' = sl_done s.
Proof.
  intros [now s0 _ | k s0 | s0] Hn; [| |done]; destruct s0; simpl; [|done]. unfold flush.
  by destruct (_flush_rejects _ _ _) as [[? ?] ?].
Qed.

Lemma release_parts conn s c : (In c (sl_workers (release conn s)) <-> In c (sl_workers s) /\ c <> conn)
  /\ (In c (sl_done (release conn s)) <-> c = conn \/ In c (sl_done s)).
Proof.
  destruct s as [f ws rf dn r last lines]. simpl. rewrite filter_In, negb_true_iff, Z.eqb_neq. split; [done |]. by split; intros [-> | ?]; auto.
Qed.

Lemma performs_step m conn a s s' : reachable m s -> In conn (sl_workers s) -> performs conn a s s' -> reachable m s'.
Proof.
  intros Hr Hin Hp. eapply reach_step; [exact Hr |]. destruct Hp as [now s Hn | k s | s];
    [by apply (step_flush conn) | by apply (step_reject conn) | by apply step_release].
Qed.

(** A thread that has something left runs: its program still ends with the
    release. *)
Lemma running_thread m y c a l : system_ok m y -> In (c, a :: l) (sy_threads y) -> releases (a :: l) /\ In c (sl_workers (sy_slots y)).
Proof. intros Hok Hin. by destruct (so_threads _ _ Hok _ _ Hin) as [[? _] | ?]. Qed.

Lemma nodup_middle (before after : list (Z * list action)) c l l' :
  NoDup (map fst (before ++ (c, l) :: after)) -> In (c, l') (before ++ after) -> False.
Proof.
  rewrite map_app. simpl. intros Hn Hi. apply NoDup_app in Hn as (_ & Hb & [Ha _]%NoDup_cons).
  apply in_app_iff in Hi as [Hi|Hi]; apply (in_map fst) in Hi; simpl in Hi; apply list_elem_of_In in Hi.
  - apply (Hb c Hi). by left.
  - done.
Qed.

Lemma in_middle {A} (before after : list A) x y : In x (before ++ y :: after) <-> x = y \/ In x (before ++ after).
Proof. rewrite !in_app_iff. simpl. split; intros; intuition congruence. Qed.

Lemma system_work m y y' : system_ok m y -> work y y' -> system_ok m y'.
Proof.
  intros Hok Hstep. revert Hok. destruct Hstep as [before conn a l after s s' Hp]. intros Hok. destruct (running_thread m _ conn a l Hok) as [Hrel Hw]; [by apply (in_middle before after (conn, a :: l)); left |].
  destruct Hok as [Hr Hn Ht Hrun]. cbn [sy_slots sy_threads] in *.
  assert (forall c' l', In (c', l') (before ++ after) -> c' <> conn) as Hother.
  { intros c' l' Hi ->. by eapply nodup_middle. }
  destruct (releases_step _ _ Hrel) as [[-> ->] | [Ha Hl]].
  - inversion Hp as [| | s0]; subst. split; cbn [sy_slots sy_threads].
    + by eapply performs_step.
    + rewrite map_app in *. exact Hn.
    + intros c' l' [[= -> ->] | Hi]%in_middle; [left; split; [done | apply release_parts; by left] |].
      destruct (Ht c' l' (proj2 (in_middle before after _ _) (or_intror Hi))) as [[-> ?] | [? ?]].
      * left. split; [done | apply release_parts; by right].
      * right. split; [done |]. apply release_parts. eauto.
    + intros c' [Hc Hne]%release_parts. destruct (Hrun c' Hc) as (l' & [[= -> _] | Hi]%in_middle & ?); [done |].
      exists l'. split; [apply in_middle; by right | done].
  - destruct (performs_quiet _ _ _ _ Hp Ha) as [Ew Ed]. split; cbn [sy_slots sy_threads].
    + by eapply performs_step.
    + rewrite map_app in *. exact Hn.
    + rewrite Ew, Ed. intros c' l' [[= -> ->] | Hi]%in_middle; [by right |]. apply Ht, in_middle. by right.
    + rewrite Ew. intros c' Hc. destruct (Hrun c' Hc) as (l' & [[= -> ->] | Hi]%in_middle & ?); [exists l; split; [apply in_middle; by left | done] |].
      exists l'. split; [apply in_middle; by right | done].
Qed.

Lemma process_request_parts conn started s :
  let s' := process_request conn started s in
  sl_done s' = sl_done s
  /\ sl_workers s' = if (0 <? sl_free s) && started then conn :: sl_workers s else sl_workers s.
Proof.
  destruct s as [f ws rf dn r last lines]. simpl. destruct (Z.leb_spec f 0), (Z.ltb_spec 0 f), started; simpl; lia || done.
Qed.

Lemma system_arrive m conn started o y : system_ok m y ->
  ~ In conn (sl_workers (sy_slots y) ++ sl_refused (sy_slots y) ++ sl_done (sy_slots y)) -> system_ok m (arrive conn started o y).
Proof.
  intros [Hr Hn Ht Hrun] Hfresh. unfold arrive. destruct (process_request_parts conn started (sy_slots y)) as [Ed Ew].
  assert (reachable m (process_request conn started (sy_slots y))) as Hr' by (eapply reach_step; [exact Hr | by apply step_accept]).
  destruct (_ && started); split; cbn [sy_slots sy_threads]; rewrite ?Ed, ?Ew; try done.
  - apply NoDup_cons. split; [|done]. intros ((c, l) & Hc & Hi)%list_elem_of_In%in_map_iff. simpl in Hc. subst c.
    apply Hfresh. destruct (Ht conn l Hi) as [[_ ?] | [_ ?]]; rewrite !in_app_iff; auto.
  - intros c l [[= -> <-] | Hi]; [right; split; [apply worker_releases | by left] |].
    destruct (Ht c l Hi) as [? | [? ?]]; [by left | right; split; [done | by right]].
  - intros c [<- | Hc]; [exists (fst (process_request_thread o)); split; [by left | apply worker_releases] |].
    destruct (Hrun c Hc) as (l & ? & ?). exists l. split; [by right | done].
Qed.

Lemma served_ok m y : served m y -> system_ok m y.
Proof.
  induction 1 as [s Ho | conn started o y _ IH Hf | y y' _ IH Hw]; [|by apply system_arrive |by eapply system_work].
  pose proof Ho as Ho'. unfold open_slots in Ho. destruct (m <? 1); [done |]. injection Ho as <-.
  split; cbn [sy_slots sy_threads]; [by apply reach_open | by apply NoDup_nil | done | done].
Qed.

Lemma works_served n m y y' : works n y y' -> served m y -> served m y'.
Proof. induction 1 as [|n y y' y'' Hw _ IH]; [done |]. intros Hs. by apply IH, (served_work m y). Qed.

Lemma left_over_work y y' : work y y' -> S (left_over y') = left_over y.
Proof.
  intros [before conn a l after s s' _]. unfold left_over. cbn [sy_threads]. rewrite !map_app, !list_sum_app. simpl. lia.
Qed.

Lemma left_over_works n y y' : works n y y' -> (n + left_over y')%nat = left_over y.
Proof. induction 1 as [|n y y' y'' Hw _ IH]; [done |]. apply left_over_work in Hw. lia. Qed.

(** A worker that has something left can do it. *)
Lemma work_enabled y : left_over y <> 0%nat -> exists y', work y y'.
Proof.
  intros Hl. assert (exists before conn a l after, sy_threads y = before ++ (conn, a :: l) :: after) as (b & c & a & l & af & E).
  { unfold left_over in Hl. induction (sy_threads y) as [|[c [|a l]] ts IH]; [done | | by exists [], c, a, l, ts].
    destruct (IH Hl) as (b & c' & a & l & af & ->). by exists ((c, []) :: b), c', a, l, af. }
  destruct y as [s ts]. simpl in E. subst ts.
  assert (exists s', performs c a s s') as [s' Hp] by (destruct a; eexists; [|constructor..]; apply (performs_flush c (default 0 (sl_last s))); by intros t ->).
  exists (System s' (b ++ (c, l) :: af)). by constructor.
Qed.

Lemma idle_workers m y : system_ok m y -> left_over y = 0%nat -> sl_workers (sy_slots y) = [].
Proof.
  intros [_ _ _ Hrun] Hl. destruct (sl_workers (sy_slots y)) as [|c ws]; [done |].
  destruct (Hrun c (or_introl eq_refl)) as (l & Hi & body & -> & _). exfalso. clear Hrun. revert Hi Hl. unfold left_over.
  induction (sy_threads y) as [|t ts IH]; [done |]. simpl. intros [-> | Hi]; [simpl; rewrite length_app; simpl; lia |].
  intros Hl. apply (IH Hi). lia.
Qed.

(** A connection being served is served until it is done. *)
Lemma work_serves m y y' c : system_ok m y -> work y y' -> In c (sl_workers (sy_slots y) ++ sl_done (sy_slots y)) ->
  In c (sl_workers (sy_slots y') ++ sl_done (sy_slots y')).
Proof.
  intros Hok Hstep. revert Hok. destruct Hstep as [before conn a l after s s' Hp]. intros _. cbn [sy_slots]. rewrite !in_app_iff.
  destruct (decide (a = ARelease)) as [-> | Hn]; [|by destruct (performs_quiet _ _ _ _ Hp Hn) as [-> ->]].
  inversion Hp as [| | s0]; subst.
  rewrite (proj1 (release_parts conn s c)), (proj2 (release_parts conn s c)). destruct (decide (c = conn)); tauto.
Qed.

Lemma works_serve n m y y' c : works n y y' -> served m y -> In c (sl_workers (sy_slots y) ++ sl_done (sy_slots y)) ->
  In c (sl_workers (sy_slots y') ++ sl_done (sy_slots y')).
Proof.
  induction 1 as [|n y y' y'' Hw _ IH]; [done |]. intros Hs Hc. apply IH; [by apply (served_work m y) |].
  eapply work_serves; [by apply (served_ok m) | done | done].
Qed.

Lemma open_positive m y : served m y -> 1 <= m.
Proof. induction 1 as [s Ho | |]; [|done|done]. unfold open_slots in Ho. destruct (m <? 1) eqn:E; [done |]. to_prop. lia. Qed.

(** C17. The server does not wedge, whatever the blocking calls of its workers
    answer and however the workers interleave: as long as no connection
    arrives, every schedule of the workers ends, since each step uses up one of
    the finitely many actions they have left; no schedule gets stuck before;
    and at its end every slot is free again, every connection that was being
    served is done, and the next new connection is admitted. *)
Theorem server_recovers (max_workers conn : Z) (y : system) :
  served max_workers y ->
  forall n y', works n y y' ->
    (n + left_over y')%nat = left_over y
    /\ (left_over y' <> 0%nat -> exists y'', work y' y'')
    /\ (left_over y' = 0%nat ->
        sl_workers (sy_slots y') = [] /\ sl_free (sy_slots y') = max_workers
        /\ (forall c, In c (sl_workers (sy_slots y)) -> In c (sl_done (sy_slots y')))
        /\ sl_workers (process_request conn true (sy_slots y')) = [conn]).
Proof.
  intros Hs n y' Hw. split; [by apply left_over_works |]. split; [apply work_enabled |]. intros Hl.
  pose proof (works_served _ _ _ _ Hw Hs) as Hs'. pose proof (served_ok _ _ Hs') as Hok. pose proof (idle_workers _ _ Hok Hl) as Hidle.
  pose proof (so_balance _ _ (reachable_ok _ _ (so_slots _ _ Hok))) as Hb. rewrite Hidle in Hb. simpl in Hb.
  pose proof (open_positive _ _ Hs). split; [done |]. split; [lia |]. split.
  - intros c Hc. pose proof (works_serve n max_workers y y' c Hw Hs) as Hc'. rewrite Hidle in Hc'. apply Hc', in_app_iff. by left.
  - rewrite (proj2 (process_request_parts conn true (sy_slots y'))), Hidle, (proj2 (Z.ltb_lt 0 _)) by lia. done.
Qed.

(** ** Examples *)

(** A handshake that fails, and a served ping. *)
Definition w_failed : outcomes := Outcomes (Ok tt) (Some (Ok tt, Raise (OtherExn "ssl.SSLError"))) [] (Ok tt) (Ok tt) (Ok tt).
Definition w_ping : outcomes := Outcomes (Ok tt) None [RPing] (Raise ValueError) (Ok tt) (Ok tt).
Definition w_odd : outcomes := Outcomes (Raise ValueError) None [] (Ok tt) (Ok tt) (Ok tt).

Example worker_actions :
  process_request_thread w_failed = ([AFlush; AReject RTransport; AFlush; ARelease], Ok tt)
  /\ process_request_thread w_ping = ([AFlush; AReject RPing; AFlush; ARelease], Ok tt)
  /\ process_request_thread w_odd = ([AFlush; AFlush; ARelease], Raise ValueError).
Proof. by vm_compute. Qed.

Definition w_open : slots := Slots 1 [] [] [] (Rejects 0 0 0 0) None [].
Definition w_serving : system := arrive 1 true w_failed (System w_open []).

Lemma server_recovers_witness :
  exists y y', served 1 y /\ sl_workers (sy_slots y) = [1] /\ sl_free (sy_slots y) = 0 /\ works 4 y y'
    /\ sl_free (sy_slots y') = 1 /\ sl_workers (process_request 2 true (sy_slots y')) = [2].
Proof.
  assert (served 1 w_serving) as Hs by (apply served_arrive; [by apply served_open | by intros []]).
  eassert (works 4 w_serving _) as Hw.
  { eapply works_step; [apply (work_step []), (performs_flush 1 0); done |].
    eapply works_step; [apply (work_step []), performs_reject |].
    eapply works_step; [apply (work_step []), (performs_flush 1 0); intros t; vm_compute; congruence |].
    eapply works_step; [apply (work_step []), performs_release |]. apply works_none. }
  destruct (server_recovers 1 2 w_serving Hs _ _ Hw) as (_ & _ & Hend). destruct Hend as (_ & Hf & _ & Hn); [done |].
  exists w_serving. eexists. repeat (split; [first [exact Hs | reflexivity | exact Hw | exact Hf] |]). exact Hn.
Defined.
