(* ===== verification/FwdConfig.v ===== *)
(** toolstack_forwarder/config.py: the manifest of a rest tool.

    The parsed TOML file is a parameter; a TOML value is a [json] value that is
    never null. *)

From stdpp Require Import base tactics list strings.
From Stdlib Require Import ZArith Lia Ascii.
From S2P Require Import Prelude PyStr Json Url Template.

Definition ConfigError : exn := OtherExn "ConfigError".

Definition is_graph (c : ascii) : bool := between 33 126 c.
Definition _PATH_PRINTABLE (c : ascii) : bool := is_graph c.
Definition _QUERY_PRINTABLE (c : ascii) : bool := _PATH_PRINTABLE c || existsb (Ascii.eqb c) [" "; "'"]%char.
Definition _HEADER_RE (s : string) : bool := id_fullmatch s.
Definition _SECRET_RE (s : string) : bool := negb (PyStr.empty s) && all_chars is_word_dash s.

Definition VERBS : list string := ["GET"; "POST"; "PUT"; "PATCH"; "DELETE"]%string.
Definition BODY_KINDS : list string := ["none"; "text"; "binary"]%string.
Definition RULE_RESPONSE_TYPES : list string := ["json"; "xml"; "form"; "plaintext"]%string.
Definition one_of (l : list string) (s : string) : bool := existsb (String.eqb s) l.

Lemma one_of_In l s : one_of l s = true <-> In s l.
Proof.
  unfold one_of. rewrite existsb_exists. split; [intros (x & Hx & ->%String.eqb_eq); done |].
  intros H. exists s. by rewrite String.eqb_refl.
Qed.

Record secret_decl := SecretDecl { sd_name : string; sd_field : string; sd_writable : bool }.

Record update_rule := SecretUpdateRule {
  ru_secret : string; ru_type : string; ru_path : string; ru_status : string }.

(** The sets [allowed_headers] and [allowed_secrets] are lists. *)
Record operation := Operation {
  op_name : string; op_risk : string; op_description : string; op_verb : string; op_path : string;
  op_allowed_headers : list string; op_body_kind : string; op_content_type : option string;
  op_body_substitution : bool; op_redact_body : bool; op_redact_headers : bool;
  op_rules : list update_rule; op_headers : dict string; op_allowed_secrets : list string;
  op_body_template : option string }.

Record rest_config := RestConfig {
  rc_tool_id : string; rc_port : option Z; rc_base_url : string;
  rc_operations : dict operation; rc_secrets : dict secret_decl }.

(** ** Helpers *)

Definition _string (data : dict json) (key : string) : res string :=
  match jget data key with
  | JStr v => if PyStr.empty v then Raise ConfigError else Ok v
  | _ => Raise ConfigError
  end.

(** [data.get(key, default)]. *)
Definition field_or (data : dict json) (key : string) (dflt : json) : json := default dflt (dget data key).

Definition as_list (v : json) : res (list json) := match v with JArr l => Ok l | _ => Raise ConfigError end.
Definition as_dict (v : json) : res (dict json) := match v with JObj d => Ok d | _ => Raise ConfigError end.
Definition as_bool (v : json) : res bool := match v with JBool b => Ok b | _ => Raise ConfigError end.

(** A list all of whose elements satisfy [isinstance(h, str)]. *)
Fixpoint as_texts (l : list json) : res (list string) :=
  match l with
  | [] => Ok []
  | JStr s :: l' => r ← as_texts l'; Ok (s :: r)
  | _ :: _ => Raise ConfigError
  end.

Definition control_free (s : string) : bool := all_chars (fun c => negb ((code c <? 32) || (code c =? 127))) s.

(** ** Sections of the manifest *)

Definition load_secret (secrets : dict secret_decl) (item : json) : res (dict secret_decl) :=
  item ← as_dict item;
  name ← _string item "name";
  _ ← raise_if (negb (_SECRET_RE name)) ConfigError;
  _ ← raise_if (dmem secrets name) ConfigError;
  field ← _string item "field";
  writable ← as_bool (field_or item "writable" (JBool false));
  Ok (dset secrets name (SecretDecl name field writable)).

Definition _load_secrets (raw : json) : res (dict secret_decl) :=
  l ← as_list raw; foldM load_secret [] l.

Definition load_rule (writable : list string) (rules : list update_rule) (item : json) : res (list update_rule) :=
  item ← as_dict item;
  secret_name ← _string item "secret_name";
  _ ← raise_if (negb (one_of writable secret_name)) ConfigError;
  response_type ← _string item "response_type";
  _ ← raise_if (negb (one_of RULE_RESPONSE_TYPES response_type)) ConfigError;
  extract_path ← _string item "extract_path";
  match_status ← _string item "match_status";
  Ok (rules ++ [SecretUpdateRule secret_name response_type extract_path match_status]).

Definition _load_rules (raw : json) (writable : list string) : res (list update_rule) :=
  l ← as_list raw; foldM (load_rule writable) [] l.

Definition _validate_base_url (value : string) : res unit :=
  split ← urlsplit value;
  _ ← raise_if (negb (one_of ["http"; "https"]%string (u_scheme split))) ConfigError;
  _ ← raise_if (match u_hostname split with Some h => PyStr.empty h | None => true end) ConfigError;
  let '(username, password) := u_credentials split in
  _ ← raise_if (negb (bool_decide (username = None) && bool_decide (password = None))) ConfigError;
  raise_if (negb (PyStr.empty (u_query split) && PyStr.empty (u_fragment split))) ConfigError.

Definition _validate_path_template (value : string) : res unit :=
  let '(path_part, _, query_part) := partition_char "?" value in
  _ ← raise_if (negb (starts_with "/" path_part) || starts_with "//" path_part) ConfigError;
  _ ← raise_if (contains "#" value) ConfigError;
  _ ← raise_if (negb (all_chars _PATH_PRINTABLE path_part)) ConfigError;
  _ ← raise_if (negb (all_chars _QUERY_PRINTABLE query_part)) ConfigError;
  let stripped := literals (pieces _TEMPLATE_VAR value) in
  raise_if (contains "{" stripped || contains "}" stripped) ConfigError.

(** [validate_secret_placement]. *)
Fixpoint operator_headers (seen : list string) (d : dict json) : res (dict string) :=
  match d with
  | [] => Ok []
  | (name, value) :: d' =>
      _ ← raise_if (negb (_HEADER_RE name) || one_of seen (lower name)) ConfigError;
      match value with
      | JStr v =>
          _ ← raise_if (negb (control_free v)) ConfigError;
          r ← operator_headers (lower name :: seen) d';
          Ok ((name, v) :: r)
      | _ => Raise ConfigError
      end
  end.

Definition refs_declared (allowed : list string) (text : string) : bool :=
  negb (contains marker (literals (pieces _SECRET_REF text)))
  && forallb (one_of allowed) (refs_of (pieces _SECRET_REF text)).

Definition validate_secret_placement (item : dict json) (declared : list string) (body_kind : string)
    : res (dict string * list string * option string) :=
  l ← as_list (field_or item "allowed_secrets" (JArr []));
  allowed ← as_texts l;
  _ ← raise_if (negb (forallb (one_of declared) allowed)) ConfigError;
  d ← as_dict (field_or item "headers" (JObj []));
  headers ← operator_headers [] d;
  template ← match jget item "body_template" with
             | JNull => Ok None
             | JStr t => if String.eqb body_kind "text" then Ok (Some t) else Raise ConfigError
             | _ => Raise ConfigError
             end;
  let texts := map snd headers ++ match template with Some t => [t] | None => [] end in
  _ ← raise_if (negb (forallb (refs_declared allowed) texts)) ConfigError;
  Ok (headers, allowed, template).

(** ** Operations *)

Definition body_kind_of (verb : string) (v : json) : res string :=
  match v with
  | JNull => Ok (if one_of ["GET"; "DELETE"]%string verb then "none" else "text")%string
  | JStr k => if one_of BODY_KINDS k then Ok k else Raise ConfigError
  | JArr _ | JObj _ => Raise TypeError
  | _ => Raise ConfigError
  end.

Definition content_type_of (body_kind : string) (v : json) : res (option string) :=
  declared ← match v with JNull => Ok None | JStr t => Ok (Some t) | _ => Raise ConfigError end;
  if String.eqb body_kind "none" then Ok None
  else match declared with
       | Some (String _ _) => Ok declared
       | _ => Ok (Some (if String.eqb body_kind "text" then "application/json" else "application/octet-stream")%string)
       end.

Definition text_or (v : json) (dflt : string) : string := match v with JStr s => s | _ => dflt end.

Definition load_operation (secrets : dict secret_decl) (operations : dict operation) (item : json)
    : res (dict operation) :=
  item ← as_dict item;
  name ← _string item "name";
  _ ← raise_if (negb (id_match name)) ConfigError;
  _ ← raise_if (one_of ["refresh"; "refresh_one"]%string name) ConfigError;
  _ ← raise_if (dmem operations name) ConfigError;
  verb ← upper <$> _string item "verb";
  _ ← raise_if (negb (one_of VERBS verb)) ConfigError;
  path ← _string item "path";
  _ ← _validate_path_template path;
  l ← as_list (field_or item "allowed_headers" (JArr []));
  allowed ← as_texts l;
  _ ← raise_if (negb (forallb _HEADER_RE allowed)) ConfigError;
  let allowed := map lower allowed in
  body_kind ← body_kind_of verb (jget item "body_kind");
  content_type ← content_type_of body_kind (jget item "body_content_type");
  body_substitution ← as_bool (field_or item "body_substitution" (JBool false));
  _ ← raise_if body_substitution ConfigError;
  hst ← validate_secret_placement item (dkeys secrets) body_kind;
  let '(headers, allowed_secrets, body_template) := hst in
  _ ← raise_if (existsb (fun h => one_of allowed (lower h)) (dkeys headers)) ConfigError;
  redact_body ← as_bool (field_or item "redact_response_body" (JBool false));
  redact_headers ← as_bool (field_or item "redact_response_headers" (JBool false));
  let writable := dkeys (List.filter (fun kv => sd_writable kv.2) secrets) in
  rules ← _load_rules (field_or item "secret_update_rules" (JArr [])) writable;
  _ ← raise_if (negb (bool_decide (rules = []))
                && negb (dmem item "redact_response_body" && dmem item "redact_response_headers")) ConfigError;
  Ok (dset operations name
        (Operation name (text_or (field_or item "risk" (JStr "unknown")) "unknown")
           (text_or (field_or item "description" (JStr EmptyString)) EmptyString)
           verb path allowed body_kind content_type body_substitution redact_body redact_headers rules
           headers allowed_secrets body_template)).

Definition _load_operations (raw : json) (secrets : dict secret_decl) : res (dict operation) :=
  l ← as_list raw; foldM (load_operation secrets) [] l.

Definition port_of (v : json) : res (option Z) :=
  match v with
  | JNull => Ok None
  | JInt p => if (1 <=? p) && (p <=? 65535) then Ok (Some p) else Raise ConfigError
  | _ => Raise ConfigError
  end.

Definition load_config (data : dict json) : res rest_config :=
  tool_id ← match jget data "id" with JStr s => if id_match s then Ok s else Raise ConfigError | _ => Raise ConfigError end;
  _ ← raise_if (negb (bool_decide (jget data "type" = JStr "rest"))) ConfigError;
  entry ← as_dict (field_or data "entrypoint" (JObj []));
  port ← port_of (jget entry "port");
  base_url ← _string data "base_url";
  _ ← _validate_base_url base_url;
  secrets ← _load_secrets (field_or data "secrets" (JArr []));
  operations ← _load_operations (field_or data "operations" (JArr [])) secrets;
  _ ← raise_if (bool_decide (operations = [])) ConfigError;
  Ok (RestConfig tool_id port (rstrip_slash base_url) operations secrets).
