(* ===== verification/FwdRequest.v ===== *)
(** toolstack_forwarder/request_builder.py: the outbound request of an
    operation. *)

From stdpp Require Import base tactics list strings.
From Stdlib Require Import ZArith Lia Ascii.
From S2P Require Import Prelude PyStr Base64 Json Url Template FwdConfig SpsClient.

(** A RequestBuildError, or any other exception. *)
Record build_error := RequestBuildError { be_code : string; be_detail : string; be_fields : dict json }.
Inductive build_exn := Refused (e : build_error) | Crashed (e : exn).

Definition BM (T : Type) : Type := (T + build_exn)%type.
#[local] Instance BM_ret : MRet BM := fun _ a => inl a.
#[local] Instance BM_bind : MBind BM := fun _ _ f m => match m with inl a => f a | inr e => inr e end.
#[local] Instance BM_fmap : FMap BM := fun _ _ f m => match m with inl a => inl (f a) | inr e => inr e end.

Definition refuse {T} (code detail : string) (fields : dict json) : BM T := inr (Refused (RequestBuildError code detail fields)).
Definition refuse_if (b : bool) (code detail : string) (fields : dict json) : BM unit :=
  if b then refuse code detail fields else mret tt.
Definition of_res {T} (r : res T) : BM T := match r with Ok a => inl a | Raise e => inr (Crashed e) end.

(** [envelope]. *)
Definition envelope (e : build_error) : json :=
  JObj (foldl (fun d kv => dset d kv.1 kv.2)
    ([("error"%string, JStr (be_code e))] ++ (if PyStr.empty (be_detail e) then [] else [("detail"%string, JStr (be_detail e))]))
    (be_fields e)).

Record outbound_request := OutboundRequest {
  rq_method : string; rq_url : string; rq_headers : dict string; rq_body : option string }.

Definition _HEADER_NAME (s : string) : bool := id_fullmatch s.
Definition _FORBIDDEN_PATH_VARIABLE_CHARS (c : ascii) : bool := is_char "/" c || is_char "\" c.
Definition _PATH_VALUE_CHARS (c : ascii) : bool := between 33 126 c.
Definition _QUERY_VALUE_CHARS (c : ascii) : bool := _PATH_VALUE_CHARS c || existsb (Ascii.eqb c) [" "; "'"]%char.

Definition name_field (name : string) : dict json := [("name"%string, JStr name)].

(** [str.encode("utf-8")] raises UnicodeEncodeError on a text with a lone
    surrogate, which JSON can spell. The characters above U+007F of a model text
    stand for any that are not ASCII, so which texts can be encoded is left open
    but for those that are ASCII. *)
Class Encodes := {
  encodable : string -> bool;
  ascii_encodable s : isascii s = true -> encodable s = true }.

Definition UnicodeEncodeError : exn := OtherExn "UnicodeEncodeError".

Section Build.
Context `{ENC : Encodes}.

Definition encoded (s : string) : BM string :=
  if encodable s then mret (utf8_encode s) else inr (Crashed UnicodeEncodeError).

(** ** Variables *)

Definition _validate_variable_common (name raw context : string) : BM string :=
  let value := strip raw in
  _ ← refuse_if (PyStr.empty value) "invalid_variable" (context +:+ " variable is empty") (name_field name);
  data ← encoded value;
  _ ← refuse_if (4096 <? len data) "invalid_variable" (context +:+ " variable exceeds 4096 bytes") (name_field name);
  _ ← refuse_if (negb (isascii value)) "invalid_variable" (context +:+ " variable must be ASCII") (name_field name);
  mret value.

(** The value is ASCII when it is unquoted; a byte above 0x7F decodes to
    characters that are no printable ASCII, whatever they are, so the first
    check of the decoded text can be made on its bytes. *)
Definition _validate_path_variable (name raw : string) : BM string :=
  value ← _validate_variable_common name raw "path";
  _ ← refuse_if (negb (all_chars _PATH_VALUE_CHARS value)) "invalid_variable"
        "path variable contains whitespace or control characters" (name_field name);
  _ ← refuse_if (negb (all_chars (fun c => negb (_FORBIDDEN_PATH_VARIABLE_CHARS c)) value)) "invalid_variable"
        "path variable contains a forbidden character" (name_field name);
  _ ← refuse_if (contains ".." value) "invalid_variable" "path variable contains '..'" (name_field name);
  let decoded := unquote_to_bytes value in
  _ ← refuse_if (negb (all_chars _PATH_VALUE_CHARS decoded)) "invalid_variable"
        "path variable contains an encoded forbidden character" (name_field name);
  _ ← refuse_if (negb (all_chars (fun c => negb (_FORBIDDEN_PATH_VARIABLE_CHARS c)) decoded)) "invalid_variable"
        "path variable contains an encoded forbidden character" (name_field name);
  _ ← refuse_if (contains ".." decoded) "invalid_variable" "path variable contains '..'" (name_field name);
  mret value.

Definition _validate_query_variable (name raw : string) : BM string :=
  value ← _validate_variable_common name raw "query";
  _ ← refuse_if (negb (all_chars _QUERY_VALUE_CHARS value)) "invalid_variable"
        "query variable contains a control character" (name_field name);
  mret value.

(** [repr] of a placeholder's name, which is an identifier. *)
Definition quoted_name (name : string) : string := "'" +:+ name +:+ "'".

(** [_make_path_fill]: it is only used on the text before the question mark,
    where no match starts after [query_at]. *)
Definition path_fill (variables : dict json) (name : string) : BM string :=
  match jget variables name with
  | JStr value => quote <$> _validate_path_variable name value
  | _ => refuse "missing_variable" ("missing path variable " +:+ quoted_name name) (name_field name)
  end.

Definition query_fill (variables : dict json) (name : string) : BM string :=
  match jget variables name with
  | JStr value => quote <$> _validate_query_variable name value
  | _ => refuse "missing_variable" ("missing query variable " +:+ quoted_name name) (name_field name)
  end.

(** One pair of the query: [None] when it is dropped. *)
Definition hydrate_pair (variables : dict json) (pair : string) : BM (option string) :=
  let ps := pieces _TEMPLATE_VAR pair in
  if PyStr.empty pair then mret None
  else if bool_decide (refs_of ps = []) then mret (Some pair)
  else if negb (forallb (dmem variables) (refs_of ps)) then mret None
  else
    match List.find (fun name => match jget variables name with JStr _ => false | _ => true end) (refs_of ps) with
    | Some name => refuse "missing_variable" ("missing query variable " +:+ quoted_name name) (name_field name)
    | None => r ← render (query_fill variables) ps; mret (Some r)
    end.

Fixpoint hydrate_pairs (variables : dict json) (l : list string) : BM (list string) :=
  match l with
  | [] => mret []
  | kv :: l' =>
      p ← hydrate_pair variables kv;
      ps ← hydrate_pairs variables l';
      mret (match p with Some x => x :: ps | None => ps end)
  end.

(** [query_suffix[1:]] is the argument. *)
Definition _hydrate_query (query : string) (variables : dict json) : BM string :=
  ps ← hydrate_pairs variables (split_char "&" query);
  mret (join "&" ps).

Definition _hydrate_path (op : operation) (arguments : dict json) : BM string :=
  variables ← match jget arguments "variables" with
              | JNull => mret []
              | JObj d => mret d
              | _ => refuse "invalid_variables" "variables must be an object" []
              end;
  match cut "?" (op_path op) with
  | (path_prefix, None) => render (path_fill variables) (pieces _TEMPLATE_VAR path_prefix)
  | (path_prefix, Some query) =>
      rendered_prefix ← render (path_fill variables) (pieces _TEMPLATE_VAR path_prefix);
      rendered_query ← _hydrate_query query variables;
      mret (if PyStr.empty rendered_query then rendered_prefix else rendered_prefix +:+ "?" +:+ rendered_query)
  end.

Definition _join_url (base_url path : string) : BM string :=
  base ← of_res (urlsplit base_url);
  rel ← of_res (urlsplit path);
  let base_path := rstrip_slash (u_path base) in
  let full_path := if PyStr.empty base_path then u_path rel else base_path +:+ u_path rel in
  mret (urlunsplit (u_scheme base) (u_netloc base) full_path (u_query rel) EmptyString).

(** ** Secrets *)

Definition read_secret (secrets : secret_client) (name : string) : BM string :=
  match get secrets name with
  | inl v => mret v
  | inr _ => refuse "missing_secret" "configured secret is unavailable" []
  end.

Definition _refuse_caller_refs (text : string) : BM unit :=
  refuse_if (contains marker text) "caller_secret_reference"
    "caller secret references are not supported; configure operator headers or body_template with allowed_secrets" [].

Definition secret_fill (secrets : secret_client) (allowed : list string) (name : string) : BM string :=
  if one_of allowed name then read_secret secrets name
  else refuse "secret_not_allowed" "configured secret is not allowed for this operation" [].

Definition _substitute_secrets (text : string) (secrets : secret_client) (allowed : list string) : BM string :=
  out ← render (secret_fill secrets allowed) (pieces _SECRET_REF text);
  _ ← refuse_if (contains marker out) "invalid_secret_ref" "secret reference must be {{secret:NAME}}" [];
  mret out.

(** ** Headers *)

Definition caller_header (op : operation) (headers : dict string) (name : string) (value : json) : BM (dict string) :=
  _ ← refuse_if (negb (_HEADER_NAME name)) "invalid_header" "header name is invalid" (name_field name);
  _ ← refuse_if (negb (one_of (op_allowed_headers op) (lower name))) "header_not_allowed"
        "header is not allowed for this operation" (name_field name);
  match value with
  | JStr v =>
      _ ← _refuse_caller_refs v;
      _ ← refuse_if (one_of (map lower (dkeys (op_headers op))) (lower name)) "header_not_allowed"
            "operator-owned headers cannot be overridden" [];
      _ ← refuse_if (negb (control_free v)) "invalid_header" "header value contains a control character" (name_field name);
      mret (dset headers name v)
  | _ => refuse "invalid_header" "header value must be a string" (name_field name)
  end.

Definition operator_header (op : operation) (secrets : secret_client) (headers : dict string) (name template : string)
    : BM (dict string) :=
  value ← _substitute_secrets template secrets (op_allowed_secrets op);
  _ ← refuse_if (negb (control_free value)) "invalid_header" "configured header contains a control character" [];
  mret (dset headers name value).

Fixpoint each {A} (step : dict string -> string -> A -> BM (dict string)) (headers : dict string) (d : dict A)
    : BM (dict string) :=
  match d with
  | [] => mret headers
  | (k, v) :: d' => headers' ← step headers k v; each step headers' d'
  end.

Definition _build_headers (op : operation) (arguments : dict json) (secrets : secret_client) : BM (dict string) :=
  raw ← match jget arguments "headers" with
        | JNull => mret []
        | JObj d => mret d
        | _ => refuse "invalid_headers" "headers must be an object" []
        end;
  headers ← each (caller_header op) [] raw;
  each (operator_header op secrets) headers (op_headers op).

(** ** Body *)

Definition _build_body (op : operation) (arguments : dict json) (secrets : secret_client) (max_body : Z)
    : BM (option string) :=
  let present := dmem arguments "body" in
  let body := jget arguments "body" in
  _ ← match body with JStr b => _refuse_caller_refs b | _ => mret tt end;
  body ← match op_body_template op with
         | Some template =>
             _ ← refuse_if present "body_not_allowed" "operator-owned body cannot be overridden" [];
             JStr <$> _substitute_secrets template secrets (op_allowed_secrets op)
         | None => mret body
         end;
  if String.eqb (op_body_kind op) "none" then
    _ ← refuse_if present "body_not_allowed" "this operation does not accept a body" [];
    mret None
  else
    match body with
    | JStr b =>
        data ← (if String.eqb (op_body_kind op) "text" then encoded b
                else match b64decode true b with
                     | None => refuse "invalid_body" "binary body must be base64" []
                     | Some data => _ ← _refuse_caller_refs data; mret data
                     end);
        _ ← refuse_if (max_body <? len data) "body_too_large" "body exceeds configured limit" [("limit_bytes"%string, JInt max_body)];
        mret (Some data)
    | _ => refuse "missing_body" "this operation requires body as a string" []
    end.

Definition build_request (config : rest_config) (op_name : string) (arguments : json) (secrets : secret_client)
    (max_body : Z) : BM outbound_request :=
  match arguments with
  | JObj arguments =>
      match dget (rc_operations config) op_name with
      | None => refuse "unknown_op" "unknown rest operation" [("op"%string, JStr op_name)]
      | Some op =>
          path ← _hydrate_path op arguments;
          url ← _join_url (rc_base_url config) path;
          headers ← _build_headers op arguments secrets;
          body ← _build_body op arguments secrets max_body;
          let headers :=
            match body, op_content_type op with
            | Some _, Some (String _ _ as ct) => dset headers "Content-Type" ct
            | _, _ => headers
            end in
          mret (OutboundRequest (op_verb op) url headers body)
      end
  | _ => refuse "invalid_arguments" "arguments must be an object" []
  end.
End Build.
