(* ===== verification/FwdFacts.v ===== *)
(** What the forwarder's loader guarantees, and what the requests it builds
    can be: their address, headers and body, and the secrets they depend on. *)

From stdpp Require Import base tactics list strings.
From Stdlib Require Import ZArith Lia Ascii.
From S2P Require Import Prelude PyStr Base64 Json Url UrlFacts Template FwdConfig FwdRequest SpsClient.

(** ** The loader *)

Definition header_ok (allowed : list string) (kv : string * string) : Prop :=
  _HEADER_RE kv.1 = true /\ control_free kv.2 = true /\ refs_declared allowed kv.2 = true.

Record operation_ok (declared : list string) (o : operation) : Prop := {
  oo_path : _validate_path_template (op_path o) = Ok tt;
  oo_verb : one_of VERBS (op_verb o) = true;
  oo_kind : one_of BODY_KINDS (op_body_kind o) = true;
  oo_headers : Forall (header_ok (op_allowed_secrets o)) (op_headers o);
  oo_disjoint : forall h, In h (dkeys (op_headers o)) -> one_of (op_allowed_headers o) (lower h) = false;
  oo_template : forall t, op_body_template o = Some t ->
    op_body_kind o = "text"%string /\ refs_declared (op_allowed_secrets o) t = true;
  oo_secrets : forallb (one_of declared) (op_allowed_secrets o) = true;
  oo_substitution : op_body_substitution o = false }.

Record rest_ok (c : rest_config) : Prop := {
  ro_base : exists u, urlsplit (rc_base_url c) = Ok u /\ plain_base u;
  ro_operations : forall name o, dget (rc_operations c) name = Some o -> operation_ok (dkeys (rc_secrets c)) o }.

Lemma hostname_netloc u h : u_hostname u = Some h -> PyStr.empty (u_netloc u) = false.
Proof. unfold u_hostname, u_hostinfo. destruct (u_netloc u) as [|c n]; [done | done]. Qed.

Lemma validate_base_url_ok v w : _validate_base_url v = Ok w -> exists u, urlsplit v = Ok u /\ plain_base u.
Proof.
  unfold _validate_base_url. intros H. inv_bind. exists a. split; [done |].
  destruct (u_credentials a) as [user password]. inv_bind. to_prop.
  match goal with H : one_of _ _ = true |- _ => apply one_of_In in H as Hsch end.
  unfold plain_base. split; [destruct Hsch as [<- | [<- | []]]; [by left | by right] |].
  split; [destruct (u_hostname a) eqn:E'; [by eapply hostname_netloc | done] |].
  by destruct (u_query a), (u_fragment a).
Qed.

Lemma operator_headers_ok seen d hs : operator_headers seen d = Ok hs ->
  Forall (fun kv => _HEADER_RE kv.1 = true /\ control_free kv.2 = true) hs.
Proof.
  revert seen hs. induction d as [|[name v] d IH]; intros seen hs; simpl; [by intros [= <-] |].
  intros H. inv_bind. destruct v as [| | | |s| |]; try done. inv_bind. to_prop. constructor; [done | by eapply IH].
Qed.

Lemma placement_ok item declared kind hs allowed template :
  validate_secret_placement item declared kind = Ok (hs, allowed, template) ->
  Forall (header_ok allowed) hs /\ forallb (one_of declared) allowed = true
  /\ forall t, template = Some t -> kind = "text"%string /\ refs_declared allowed t = true.
Proof.
  unfold validate_secret_placement. intros H. inv_bind.
  to_prop.
  match goal with H : forallb (refs_declared _) _ = true |- _ => rewrite forallb_app in H; apply andb_true_iff in H as [Hrefs Ht] end.
  match goal with H : operator_headers _ _ = _ |- _ => apply operator_headers_ok in H as Hops end.
  split; [|split; [done |]].
  - rewrite Forall_forall in Hops |- *. intros kv Hin. destruct (Hops kv Hin). split; [done |]. split; [done |].
    rewrite forallb_forall in Hrefs. apply Hrefs, in_map, list_elem_of_In. done.
  - intros t ->. simpl in Ht. rewrite andb_true_r in Ht. split; [|done].
    match goal with H : match jget item "body_template" with _ => _ end = _ |- _ => revert H end.
    repeat case_match; try done. intros _. by apply String.eqb_eq.
Qed.

Definition operations_ok (declared : list string) (ops : dict operation) : Prop :=
  forall name o, dget ops name = Some o -> operation_ok declared o.

Lemma body_kind_of_ok verb v k : body_kind_of verb v = Ok k -> one_of BODY_KINDS k = true.
Proof.
  unfold body_kind_of. destruct v; try done.
  - intros [= <-]. by case_match.
  - destruct (one_of BODY_KINDS s) eqn:E; [by intros [= <-] | done].
Qed.

Lemma load_operation_ok secrets ops item ops' :
  operations_ok (dkeys secrets) ops -> load_operation secrets ops item = Ok ops' -> operations_ok (dkeys secrets) ops'.
Proof.
  unfold load_operation. intros Hops H. inv_bind.
  match goal with H : (let '(_, _) := ?x in _) = _ |- _ => destruct x as [[headers allowed] template] end. inv_bind.
  match goal with H : validate_secret_placement _ _ _ = _ |- _ => apply placement_ok in H as (? & ? & ?) end.
  match goal with H : body_kind_of _ _ = _ |- _ => apply body_kind_of_ok in H end.
  match goal with H : existsb _ _ = false |- _ => rename H into Hd end. to_prop.
  intros name o. rewrite dget_dset. case_decide; [|apply Hops]. intros [= <-].
  match goal with H : _validate_path_template _ = Ok ?u |- _ => destruct u end.
  constructor; simpl; try done.
  intros h Hh. destruct (one_of _ (lower h)) eqn:E'; [|done]. rewrite <- Hd. symmetry. apply existsb_exists. by exists h.
Qed.

Lemma load_config_ok data c : load_config data = Ok c -> rest_ok c.
Proof.
  unfold load_config. intros H. inv_bind.
  match goal with H : _validate_base_url _ = _ |- _ => apply validate_base_url_ok in H as (u & Hu & Hp) end.
  match goal with H : _load_operations _ _ = _ |- _ => unfold _load_operations in H; inv_bind;
    rename H into Hload end.
  constructor; cbn [rc_base_url rc_operations rc_secrets].
  - destruct (urlsplit_rstrip _ _ Hu Hp) as (u' & Hu' & Hs & Hn & Hq & Hf). exists u'. split; [done |].
    destruct Hp as (? & ? & _). unfold plain_base. by rewrite Hs, Hn.
  - refine (foldM_inv (operations_ok _) _ _ _ _ _ _ Hload); [done |]. intros ops x ops'. apply load_operation_ok.
Qed.

(** ** The address *)

#[local] Existing Instance BM_ret.
#[local] Existing Instance BM_bind.
#[local] Existing Instance BM_fmap.

Lemma bm_bind_ok {A B} (m : BM A) (f : A -> BM B) b : m ≫= f = inl b -> exists a, m = inl a /\ f a = inl b.
Proof. unfold mbind, BM_bind. destruct m as [a|]; [by exists a | done]. Qed.

Lemma refuse_if_ok b c d f u : refuse_if b c d f = inl u -> b = false.
Proof. by destruct b. Qed.

(** Splits every bind that is known to have succeeded. *)
Ltac inv_bm :=
  repeat match goal with
  | H : (_ ≫= _) = inl _ |- _ =>
      let a := fresh "a" in let E := fresh "E" in apply bm_bind_ok in H as (a & E & H); cbn beta in H
  | H : refuse_if _ _ _ _ = inl _ |- _ => apply refuse_if_ok in H
  | H : mret _ = inl _ |- _ => unfold mret, BM_ret in H
  | H : inl _ = inl _ |- _ => injection H as H; try subst
  | H : inr _ = inl _ |- _ => discriminate H
  | H : refuse _ _ _ = inl _ |- _ => discriminate H
  end.

Section Facts.
Context `{ENC : Encodes}.

Lemma encoded_ok s d : encoded s = inl d -> d = utf8_encode s.
Proof. unfold encoded. destruct (encodable s); [by intros [= <-] | done]. Qed.

Lemma quoted_slash_free s : all_chars quoted_char s = true -> slash_free s = true.
Proof. apply all_chars_impl. intros c. unfold quoted_char, unreserved, is_char. destruct (Ascii.eqb_spec "/" c) as [<- |]; [done | done]. Qed.

Lemma quoted_path s : all_chars quoted_char s = true -> all_chars path_char s = true.
Proof.
  apply all_chars_impl. intros c Hc. unfold path_char, query_char, url_char, unsafe_url_byte, is_char.
  assert (forall d, quoted_char d = false -> c <> d) as Hne by by intros d Hd ->; rewrite Hd in Hc.
  destruct (Ascii.eqb_spec "#" c) as [<- | _]; [done |]. destruct (Ascii.eqb_spec "?" c) as [<- | _]; [done |].
  assert (forall k, 0 <= k < 256 -> quoted_char (chr k) = false -> code c =? k = false) as Hk.
  { intros k Hr Hf. apply Z.eqb_neq. intros He. apply (Hne (chr k) Hf). by rewrite <- He, chr_code. }
  by rewrite !Hk.
Qed.

Lemma path_fill_quoted vars n v : path_fill vars n = inl v -> all_chars quoted_char v = true.
Proof.
  unfold path_fill. destruct (jget vars n); try done. unfold fmap, BM_fmap.
  destruct (_validate_path_variable _ _); [intros [= <-]; apply quote_quoted | done].
Qed.

Lemma query_fill_quoted vars n v : query_fill vars n = inl v -> all_chars quoted_char v = true.
Proof.
  unfold query_fill. destruct (jget vars n); try done. unfold fmap, BM_fmap.
  destruct (_validate_query_variable _ _); [intros [= <-]; apply quote_quoted | done].
Qed.

(** The two halves of a valid template. *)
Definition template_path (o : operation) : string := (cut "?" (op_path o)).1.
Definition template_query (o : operation) : string := default EmptyString (cut "?" (op_path o)).2.

Lemma graph_url c : _QUERY_PRINTABLE c = true -> url_char c = true.
Proof.
  unfold _QUERY_PRINTABLE, _PATH_PRINTABLE, is_graph, url_char, unsafe_url_byte, between. intros [H | H]%orb_true_iff.
  - to_prop. apply negb_true_iff. rewrite !orb_false_iff. repeat split; apply Z.eqb_neq; lia.
  - apply existsb_exists in H as (d & Hd & ->%Ascii.eqb_eq). by destruct Hd as [<- | [<- | []]].
Qed.

Lemma template_ok o : _validate_path_template (op_path o) = Ok tt ->
  starts_with "/" (template_path o) = true /\ starts_with "//" (template_path o) = false
  /\ all_chars path_char (template_path o) = true /\ all_chars query_char (template_query o) = true.
Proof.
  unfold _validate_path_template, template_path, template_query, cut.
  destruct (partition_char "?" (op_path o)) as [[h f] t] eqn:E. apply partition_char_spec in E as [Hh Ht].
  intros H. inv_bind. to_prop. cbn [fst snd].
  match goal with H : contains "#" _ = false |- _ => apply contains_not_in in H as Hhash end.
  assert (~ In "#"%char (chars h) /\ ~ In "#"%char (chars t)) as [Hh2 Ht2].
  { destruct f; [rewrite Ht, chars_app in Hhash | destruct Ht as [<- ->]]; [|split; [done | intros []]].
    split; intros Hin; apply Hhash, in_app_iff; [by left | right; by right]. }
  assert (forall c s, ~ In c (chars s) -> forall d, In d (chars s) -> is_char c d = false) as Hchar.
  { intros c s Hn d Hd. unfold is_char. by destruct (Ascii.eqb_spec c d) as [<- |]. }
  repeat split; try done.
  - apply all_chars_spec. intros c Hc. unfold path_char, query_char.
    rewrite (Hchar "#"%char h), (Hchar "?"%char h), graph_url by (done || (unfold _QUERY_PRINTABLE; apply orb_true_iff; left;
      match goal with H : all_chars _PATH_PRINTABLE _ = true |- _ => exact (all_chars_in _ _ _ H Hc) end)). done.
  - assert (all_chars query_char t = true) as Hq; [|by destruct f].
    apply all_chars_spec. intros c Hc. unfold query_char. rewrite (Hchar "#"%char t), graph_url; [done | | done | done].
    match goal with H : all_chars _QUERY_PRINTABLE _ = true |- _ => exact (all_chars_in _ _ _ H Hc) end.
Qed.

Lemma quote_nonempty s : PyStr.empty s = false -> PyStr.empty (quote s) = false.
Proof.
  destruct s as [|c s]; [done |]. intros _. unfold quote, utf8_encode. rewrite chars_of_chars. simpl. unfold utf8_char, quote_byte.
  destruct (code c <? 128); simpl; by case_match.
Qed.

Lemma common_value name raw context v : _validate_variable_common name raw context = inl v -> PyStr.empty v = false.
Proof. unfold _validate_variable_common. intros H'. inv_bm. done. Qed.

Lemma path_variable_value name raw v : _validate_path_variable name raw = inl v -> PyStr.empty v = false.
Proof. unfold _validate_path_variable. intros H. inv_bm. by eapply common_value. Qed.

Lemma path_fill_nonempty vars n v : path_fill vars n = inl v -> PyStr.empty v = false.
Proof.
  unfold path_fill. destruct (jget vars n); try done. unfold fmap, BM_fmap.
  destruct (_validate_path_variable _ _) eqn:E; [intros [= <-] | done]. by apply quote_nonempty, (path_variable_value _ _ _ E).
Qed.

(** A path that starts with exactly one slash. *)
Definition single_slash (p : string) : Prop := starts_with "/" p = true /\ starts_with "//" p = false.

Lemma render_single_slash vars t p : single_slash t -> render (path_fill vars) (pieces _TEMPLATE_VAR t) = inl p -> single_slash p.
Proof.
  intros [Hs Hd]. apply starts_with_spec in Hs as [r ->]. change ("/" +:+ r) with (String "/" r) in *.
  unfold pieces. cbn [scan]. change (_TEMPLATE_VAR (String "/" r)) with (@None (string * nat)). cbn [render].
  destruct (render (path_fill vars) (scan _TEMPLATE_VAR 0 r)) as [x|] eqn:E; [|done]. intros [= <-]. split; [done |].
  assert (starts_with "/" x = false) as Hx; [|done].
  destruct r as [|c r]; [by injection E as <- |].
  assert (starts_with "/" (String c r) = false) as Hc by done. cbn [scan] in E.
  destruct (_TEMPLATE_VAR (String c r)) as [[n k]|]; cbn [render] in E.
  - destruct (path_fill vars n) as [v|] eqn:Ev; [|done]. destruct (render _ _) as [y|]; [|done]. injection E as <-.
    pose proof (path_fill_nonempty _ _ _ Ev) as Hne. pose proof (path_fill_quoted _ _ _ Ev) as Hq.
    destruct v as [|d v]; [done |]. rewrite str_cons_app. apply quoted_slash_free, slash_free_not_in in Hq.
    cbn [starts_with]. destruct (Ascii.eqb_spec "/" d) as [<- |]; [destruct Hq; by left | done].
  - destruct (render _ _) as [y|]; [|done]. injection E as <-. exact Hc.
Qed.

Lemma hydrate_pair_chars vars kv r :
  all_chars query_char kv = true -> hydrate_pair vars kv = inl (Some r) -> all_chars query_char r = true.
Proof.
  unfold hydrate_pair. intros Hk. destruct (PyStr.empty kv); [done |]. case_bool_decide; [by intros [= <-] |].
  destruct (negb _); [done |]. destruct (List.find _ _); [done |]. intros H'. inv_bm. eapply render_chars; [| | exact E].
  - intros n v _ Hv. apply query_fill_quoted, quoted_path in Hv. eapply all_chars_impl; [|exact Hv].
    unfold path_char. by intros c [? ?]%andb_true_iff.
  - by apply literals_chars.
Qed.

Lemma hydrate_pairs_chars vars l ps :
  Forall (fun kv => all_chars query_char kv = true) l -> hydrate_pairs vars l = inl ps ->
  Forall (fun kv => all_chars query_char kv = true) ps.
Proof.
  intros Hl. revert ps. induction Hl as [|kv l Hk Hl IH]; intros ps; cbn [hydrate_pairs]; [by intros [= <-] |].
  intros H. inv_bm. destruct a as [r|]; [constructor |]; [by eapply hydrate_pair_chars | by apply IH | by apply IH].
Qed.

Lemma join_chars p sep l : all_chars p sep = true -> Forall (fun s => all_chars p s = true) l -> all_chars p (join sep l) = true.
Proof.
  intros Hs Hl. destruct Hl as [|x l Hx Hl]; [done |]. cbn [join]. rewrite all_chars_app, Hx.
  induction Hl as [|y l Hy Hl IH]; [done |]. cbn [foldr]. by rewrite !all_chars_app, Hs, Hy.
Qed.

Lemma split_chars p sep s : all_chars p s = true -> Forall (fun x => all_chars p x = true) (split_char sep s).
Proof.
  induction s as [|c s IH]; [by repeat constructor |]. rewrite all_chars_String. intros [Hc Hs]%andb_true_iff.
  cbn [split_char]. specialize (IH Hs). destruct (Ascii.eqb sep c); [by constructor |].
  destruct (split_char sep s) as [|h l]; [by repeat constructor; rewrite ?all_chars_String, ?Hc |].
  apply Forall_cons in IH as [Hh Hl]. constructor; [|done]. by rewrite all_chars_String, Hc.
Qed.

Lemma hydrate_query_chars vars q r :
  all_chars query_char q = true -> _hydrate_query q vars = inl r -> all_chars query_char r = true.
Proof.
  unfold _hydrate_query. intros Hq H. inv_bm. apply join_chars; [done |]. eapply hydrate_pairs_chars; [|exact E].
  by apply split_chars.
Qed.

(** The path that is asked for: the template's path filled in segment by
    segment, and a query. *)
Record hydrated (o : operation) (arguments : dict json) (path p q : string) : Prop := {
  hy_eq : path = p +:+ query_part q;
  hy_segments : exists vars, (jget arguments "variables" = JObj vars \/ vars = [])
    /\ Forall2 (fun t x => render (path_fill vars) (pieces _TEMPLATE_VAR t) = inl x)
         (split_char "/" (template_path o)) (split_char "/" p);
  hy_single : single_slash p;
  hy_path : all_chars path_char p = true;
  hy_query : all_chars query_char q = true }.

Lemma hydrate_path_ok o arguments path : _validate_path_template (op_path o) = Ok tt ->
  _hydrate_path o arguments = inl path -> exists p q, hydrated o arguments path p q.
Proof.
  intros Ht. destruct (template_ok o Ht) as (Hs & Hd & Hp & Hq). unfold _hydrate_path. intros H. inv_bm. rename a into vars.
  assert (jget arguments "variables" = JObj vars \/ vars = []) as Hv.
  { destruct (jget arguments "variables"); try done; inv_bm; first [by left | by right]. }
  assert (forall p, render (path_fill vars) (pieces _TEMPLATE_VAR (template_path o)) = inl p ->
    Forall2 (fun t x => render (path_fill vars) (pieces _TEMPLATE_VAR t) = inl x)
      (split_char "/" (template_path o)) (split_char "/" p) /\ single_slash p /\ all_chars path_char p = true) as Hr.
  { intros p Hr. split; [|split].
    - apply render_segments; [|done]. intros n v Hf. by eapply quoted_slash_free, path_fill_quoted.
    - by eapply render_single_slash.
    - eapply render_chars; [| |exact Hr]; [|by apply literals_chars]. intros n v _ Hf. by eapply quoted_path, path_fill_quoted. }
  assert (template_path o = (cut "?" (op_path o)).1) as Etp by done.
  assert (template_query o = default EmptyString (cut "?" (op_path o)).2) as Etq by done.
  destruct (cut "?" (op_path o)) as [t [q|]]; cbn [fst snd default] in Etp, Etq; subst t.
  - change (template_query o = q) in Etq. subst q. inv_bm. destruct (Hr _ E0) as (? & ? & ?). exists a, a0. constructor; try done.
    + unfold query_part. destruct (PyStr.empty a0); [by rewrite str_app_nil | done].
    + by exists vars.
    + by eapply hydrate_query_chars.
  - destruct (Hr _ H) as (? & ? & ?). exists path, EmptyString. constructor; try done; [by rewrite str_app_nil | by exists vars].
Qed.

(** A relative URL has no scheme, whatever colons it holds. *)
Lemma urlsplit_relative o arguments path p q : hydrated o arguments path p q ->
  urlsplit path = Ok (SplitResult EmptyString EmptyString p q EmptyString).
Proof.
  intros [-> _ [Hs Hd] Hp Hq]. apply starts_with_spec in Hs as [r ->]. change ("/" +:+ r) with (String "/" r) in *.
  rewrite urlsplit_eq. rewrite str_cons_app, clean_id; [|done |].
  2: { rewrite <- str_cons_app, all_chars_app. apply andb_true_iff. split.
       - eapply all_chars_impl; [|exact Hp]. unfold path_char, query_char. intros c ?. by to_prop.
       - unfold query_part. destruct (PyStr.empty q); [done |]. rewrite all_chars_app. apply andb_true_iff. split; [done |].
         eapply all_chars_impl; [|exact Hq]. unfold query_char. intros c ?. by to_prop. }
  assert (forall t, split_scheme (String "/" t) = (EmptyString, String "/" t)) as ->.
  { intros t. unfold split_scheme, cut. cbn [partition_char].
    change (Ascii.eqb ":" "/") with false. cbn [andb]. destruct (partition_char ":" t) as [[h [|]] t0]; done. }
  assert (split_netloc (String "/" (r +:+ query_part q)) = (EmptyString, String "/" (r +:+ query_part q))) as ->.
  { unfold split_netloc. assert (starts_with "//" (String "/" (r +:+ query_part q)) = false) as ->; [|done].
    destruct r as [|c r]; [unfold query_part; by destruct q | exact Hd]. }
  change (netloc_ok EmptyString) with true. cbv iota. rewrite <- str_cons_app. by rewrite split_rest_at.
Qed.

Lemma rooted_app a b : rooted a = true -> single_slash b -> rooted (a +:+ b) = true.
Proof.
  intros Ha [[t ->]%starts_with_spec _]. destruct a as [|c a]; [done |]. unfold rooted in *. rewrite str_cons_app.
  simpl in *. done.
Qed.

Lemma rstrip_chars p s : all_chars p s = true -> all_chars p (rstrip_slash s) = true.
Proof.
  destruct (rstrip_slash_spec s) as [k Hk]. intros Hs. rewrite Hk, all_chars_app in Hs. by apply andb_true_iff in Hs as [? _].
Qed.

Lemma rstrip_rooted s : rooted s = true -> rooted (rstrip_slash s) = true.
Proof.
  destruct (rstrip_slash_spec s) as [k Hk]. destruct (rstrip_slash s) as [|c r] eqn:E; [done |].
  rewrite Hk, str_cons_app. unfold rooted. simpl. done.
Qed.

Lemma join_url_ok base u o arguments path p q :
  urlsplit base = Ok u -> plain_base u -> hydrated o arguments path p q ->
  _join_url base path
  = inl (urlunsplit (u_scheme u) (u_netloc u) (rstrip_slash (u_path u) +:+ p) q EmptyString)
  /\ urlsplit (urlunsplit (u_scheme u) (u_netloc u) (rstrip_slash (u_path u) +:+ p) q EmptyString)
  = Ok (SplitResult (u_scheme u) (u_netloc u) (rstrip_slash (u_path u) +:+ p) q EmptyString).
Proof.
  intros Hu (Hs & Hn & _) Hh. pose proof (urlsplit_ok _ _ Hu) as [? ? ? _ Hr]. split.
  - unfold _join_url. rewrite Hu. rewrite (urlsplit_relative _ _ _ _ _ Hh). unfold mbind, BM_bind, of_res, mret, BM_ret.
    cbn [u_path u_query]. destruct (PyStr.empty (rstrip_slash (u_path u))) eqn:E; [|done].
    by destruct (rstrip_slash (u_path u)).
  - destruct Hh as [_ _ Hsl Hp Hq]. apply urlsplit_unsplit; try done.
    + rewrite all_chars_app. by rewrite rstrip_chars, Hp.
    + apply rooted_app; [|done]. by apply rstrip_rooted, Hr.
Qed.

(** C18. A caller cannot move a request to another place: for a manifest that
    loads, whatever the arguments are, the URL that is sent is parsed by its
    receiver as the configured scheme and authority, and its path is the
    configured base path followed by the operation's template with exactly the
    template's segments, each filled in by itself. *)
Theorem url_confined data cfg name arguments secrets max_body rq :
  load_config data = Ok cfg -> build_request cfg name (JObj arguments) secrets max_body = inl rq ->
  exists o u path p q, dget (rc_operations cfg) name = Some o /\ rq_method rq = op_verb o
    /\ urlsplit (rc_base_url cfg) = Ok u /\ http_scheme (u_scheme u) /\ hydrated o arguments path p q
    /\ urlsplit (rq_url rq) = Ok (SplitResult (u_scheme u) (u_netloc u) (rstrip_slash (u_path u) +:+ p) q EmptyString).
Proof.
  intros [(u & Hu & Hb) Hops]%load_config_ok H. unfold build_request in H.
  destruct (dget (rc_operations cfg) name) as [o|] eqn:Eo; [|done]. inv_bm. cbn [rq_method rq_url].
  destruct (hydrate_path_ok o arguments a (oo_path _ _ (Hops _ _ Eo)) E) as (p & q & Hh).
  destruct (join_url_ok _ _ _ _ _ _ _ Hu Hb Hh) as [Hj Hs]. rewrite Hj in E0. injection E0 as <-.
  exists o, u, a, p, q. by destruct Hb as [? _].
Qed.

(** ** The secrets *)

Lemma substitute_ext text s1 s2 allowed :
  (forall n, In n allowed -> get s1 n = get s2 n) ->
  _substitute_secrets text s1 allowed = _substitute_secrets text s2 allowed.
Proof.
  intros Hs. unfold _substitute_secrets. rewrite (render_ext (secret_fill s1 allowed) (secret_fill s2 allowed)); [done |].
  intros n _. unfold secret_fill, read_secret. destruct (one_of allowed n) eqn:E; [|done].
  apply one_of_In in E. by rewrite Hs.
Qed.

Lemma each_ext {A} (f g : dict string -> string -> A -> BM (dict string)) hs d :
  (forall hs k v, f hs k v = g hs k v) -> each f hs d = each g hs d.
Proof.
  intros Hf. revert hs. induction d as [|[k v] d IH]; intros hs; cbn [each]; [done |]. rewrite Hf.
  unfold mbind, BM_bind. destruct (g hs k v); [apply IH | done].
Qed.

(** C19. An operation sees its own secrets only: the request that is built, or
    the refusal, depends on the values of the secrets its manifest allows and
    on no other, whatever the arguments say. *)
Theorem secrets_scoped cfg name arguments s1 s2 max_body :
  (forall o n, dget (rc_operations cfg) name = Some o -> In n (op_allowed_secrets o) -> get s1 n = get s2 n) ->
  build_request cfg name arguments s1 max_body = build_request cfg name arguments s2 max_body.
Proof.
  intros Hs. unfold build_request. destruct arguments as [| | | | | |args]; try done.
  destruct (dget (rc_operations cfg) name) as [o|]; [|done]. specialize (Hs o).
  assert (forall t, _substitute_secrets t s1 (op_allowed_secrets o) = _substitute_secrets t s2 (op_allowed_secrets o)) as Ht.
  { intros t. apply substitute_ext. intros n. by apply Hs. }
  assert (_build_headers o args s1 = _build_headers o args s2) as ->.
  { assert (forall hs, each (operator_header o s1) hs (op_headers o) = each (operator_header o s2) hs (op_headers o)) as He.
    { intros hs. apply each_ext. intros hs0 k v. unfold operator_header. by rewrite Ht. }
    unfold _build_headers, mbind, BM_bind. repeat (case_match; try done); apply He. }
  assert (_build_body o args s1 max_body = _build_body o args s2 max_body) as ->; [|done].
  unfold _build_body. destruct (op_body_template o); [by rewrite Ht | done].
Qed.

(** ** Headers and body *)

Definition caller_part (o : operation) (arguments : dict json) (h v : string) : Prop :=
  exists raw, jget arguments "headers" = JObj raw /\ In (h, JStr v) raw /\ _HEADER_NAME h = true
    /\ one_of (op_allowed_headers o) (lower h) = true /\ one_of (map lower (dkeys (op_headers o))) (lower h) = false
    /\ contains marker v = false /\ control_free v = true.

Definition operator_part (o : operation) (secrets : secret_client) (h v : string) : Prop :=
  exists t, In (h, t) (op_headers o) /\ _substitute_secrets t secrets (op_allowed_secrets o) = inl v /\ control_free v = true.

Lemma each_inv {A} (P : string -> string -> Prop) (step : dict string -> string -> A -> BM (dict string)) hs d hs' :
  (forall h v, In (h, v) hs -> P h v) ->
  (forall hs k x hs', In (k, x) d -> step hs k x = inl hs' -> exists v, hs' = dset hs k v /\ P k v) ->
  each step hs d = inl hs' -> forall h v, In (h, v) hs' -> P h v.
Proof.
  revert hs. induction d as [|[k x] d IH]; intros hs Hh Hs; cbn [each]; [by intros [= <-] |]. intros H. inv_bm.
  destruct (Hs hs k x a (or_introl eq_refl) E) as (v0 & -> & Hv). eapply IH; [| |exact H].
  - intros h v [[-> ->] | Hin]%In_dset; [done | by apply Hh].
  - intros hs1 k1 x1 hs2 Hin. apply Hs. by right.
Qed.

Lemma caller_header_ok o hs k x hs' : caller_header o hs k x = inl hs' ->
  exists v, x = JStr v /\ hs' = dset hs k v /\ _HEADER_NAME k = true
    /\ one_of (op_allowed_headers o) (lower k) = true /\ one_of (map lower (dkeys (op_headers o))) (lower k) = false
    /\ contains marker v = false /\ control_free v = true.
Proof.
  unfold caller_header. intros H. inv_bm. destruct x as [| | | |v| |]; try done. unfold _refuse_caller_refs in H. inv_bm.
  to_prop. by exists v.
Qed.

Lemma build_headers_ok o arguments secrets hs : _build_headers o arguments secrets = inl hs ->
  forall h v, In (h, v) hs -> caller_part o arguments h v \/ operator_part o secrets h v.
Proof.
  set (P h v := caller_part o arguments h v \/ operator_part o secrets h v).
  intros H. change (forall h v, In (h, v) hs -> P h v). unfold _build_headers in H. inv_bm. eapply (each_inv P); [| |exact H].
  - eapply (each_inv P); [| |exact E0]; [by intros ? ? [] |]. intros hs0 k x hs1 Hin Hk.
    destruct (caller_header_ok _ _ _ _ _ Hk) as (v & -> & -> & ? & ? & ? & ? & ?). exists v. split; [done |]. left.
    destruct (jget arguments "headers") as [| | | | | |raw] eqn:Er; try done; inv_bm; [done |]. by exists a.
  - intros hs0 k t hs1 Hin Hk. unfold operator_header in Hk. inv_bm. exists a1. split; [done |]. right. exists t.
    to_prop. by split; [|split].
Qed.

(** What a body is made of. *)
Definition body_part (o : operation) (arguments : dict json) (secrets : secret_client) (data : string) : Prop :=
  match op_body_template o with
  | Some t => exists b, _substitute_secrets t secrets (op_allowed_secrets o) = inl b /\ dmem arguments "body" = false
      /\ data = if String.eqb (op_body_kind o) "text" then utf8_encode b else default EmptyString (b64decode true b)
  | None => exists b, jget arguments "body" = JStr b /\ contains marker b = false
      /\ if String.eqb (op_body_kind o) "text" then data = utf8_encode b
         else b64decode true b = Some data /\ contains marker data = false
  end.

Lemma build_body_ok o arguments secrets max_body data : _build_body o arguments secrets max_body = inl (Some data) ->
  op_body_kind o <> "none"%string /\ len data <= max_body /\ body_part o arguments secrets data.
Proof.
  unfold _build_body, body_part. intros H. inv_bm. rename E0 into Hbody. revert Hbody H.
  destruct (String.eqb_spec (op_body_kind o) "none") as [Hk | Hk]; [intros _ H; by inv_bm |]. intros Hbody H.
  destruct a0 as [| | | |b| |]; try done. inv_bm. split; [done |].
  match goal with H : (_ <? _) = false |- _ => apply Z.ltb_ge in H end. split; [done |].
  destruct (op_body_template o) as [t|].
  - inv_bm. unfold fmap, BM_fmap in Hbody. destruct (_substitute_secrets t _ _) as [b'|] eqn:Es; [|done].
    injection Hbody as ->. exists b. split; [done |]. split; [done |].
    destruct (String.eqb (op_body_kind o) "text"); [by apply encoded_ok |]. destruct (b64decode true b); [by inv_bm | done].
  - injection Hbody as Hb. rewrite Hb in E |- *. unfold _refuse_caller_refs in E. inv_bm. exists b. split; [done |].
    split; [done |]. destruct (String.eqb (op_body_kind o) "text"); [by apply encoded_ok |].
    destruct (b64decode true b) as [d|]; [|done]. unfold _refuse_caller_refs in *. by inv_bm.
Qed.

(** What a request carries: every header is one the caller may set, with
    the text the caller gave (which names no secret), or an operator header
    with its own template's value, or the configured content type; no value but
    the content type holds a control character, so none can start another
    header. The body is within the limit and is the operator's template or the
    caller's text, never a mixture. *)
Theorem request_contents cfg name arguments secrets max_body rq :
  build_request cfg name (JObj arguments) secrets max_body = inl rq ->
  exists o, dget (rc_operations cfg) name = Some o
    /\ (forall h v, In (h, v) (rq_headers rq) ->
          h = "Content-Type"%string /\ op_content_type o = Some v
          \/ caller_part o arguments h v \/ operator_part o secrets h v)
    /\ forall data, rq_body rq = Some data ->
         op_body_kind o <> "none"%string /\ len data <= max_body /\ body_part o arguments secrets data.
Proof.
  unfold build_request. intros H. destruct (dget (rc_operations cfg) name) as [o|]; [|done]. inv_bm. exists o.
  split; [done |]. cbn [rq_headers rq_body]. pose proof (build_headers_ok _ _ _ _ E1) as Hh. split.
  - intros h v Hin. destruct a2 as [data|]; [|right; by apply Hh].
    destruct (op_content_type o) as [[|c ct]|]; [right; by apply Hh | | right; by apply Hh].
    apply In_dset in Hin as [[-> ->] | Hin]; [by left | right; by apply Hh].
  - intros data ->. by apply build_body_ok.
Qed.

(** ** No crash but one *)

(** The computation raises nothing but a refusal, or UnicodeEncodeError when
    [P]. *)
Definition graceful (P : Prop) {A} (m : BM A) : Prop := forall e, m = inr (Crashed e) -> e = UnicodeEncodeError /\ P.

Lemma graceful_ret P {A} (a : A) : graceful P (mret a).
Proof. done. Qed.

Lemma graceful_inl P {A} (a : A) : @graceful P A (inl a).
Proof. done. Qed.

Lemma graceful_refuse P {A} c d f : graceful P (@refuse A c d f).
Proof. done. Qed.

Lemma graceful_refuse_if P b c d f : graceful P (refuse_if b c d f).
Proof. by destruct b. Qed.

Lemma graceful_encoded P s : (encodable s = false -> P) -> graceful P (encoded s).
Proof. intros Hp. unfold encoded. destruct (encodable s); [done |]. intros e [= <-]. auto. Qed.


Lemma graceful_bind P {A B} (m : BM A) (f : A -> BM B) : graceful P m -> (forall a, m = inl a -> graceful P (f a)) -> graceful P (m ≫= f).
Proof.
  unfold graceful, mbind, BM_bind. intros Hm Hf. destruct m as [a|x]; [by apply Hf |]. intros e [= ->]. by apply (Hm e).
Qed.

Lemma graceful_fmap P {A B} (m : BM A) (f : A -> B) : graceful P m -> graceful P (f <$> m).
Proof. unfold graceful, fmap, BM_fmap. intros Hm. destruct m as [a|x]; [done |]. intros e [= ->]. by apply (Hm e). Qed.

Lemma graceful_render P f l : (forall n, graceful P (f n)) -> graceful P (render f l).
Proof.
  unfold graceful. intros Hf. induction l as [|[c|n] l IH]; simpl; [done | |]; intros e.
  - destruct (render f l) as [s|x]; [done |]. intros [= ->]. by apply (IH e).
  - destruct (f n) as [v|x] eqn:E; [|intros [= ->]; by apply (Hf n e)].
    destruct (render f l) as [s|x]; [done |]. intros [= ->]. by apply (IH e).
Qed.

Lemma graceful_each P {A} (step : dict string -> string -> A -> BM (dict string)) hs d :
  (forall hs k v, graceful P (step hs k v)) -> graceful P (each step hs d).
Proof.
  intros Hs. revert hs. induction d as [|[k v] d IH]; intros hs; cbn [each]; [apply graceful_ret |].
  apply graceful_bind; [apply Hs |]. intros a _. apply IH.
Qed.

Create HintDb graceful discriminated.
#[local] Hint Resolve graceful_ret graceful_inl graceful_refuse graceful_refuse_if graceful_fmap graceful_render graceful_each graceful_encoded : graceful.

(** Descends through binds, tests and matches. *)
Ltac graceful :=
  repeat first
    [ match goal with |- forall _, _ => intro end
    | solve [eauto with graceful]
    | apply graceful_bind
    | apply graceful_fmap
    | apply graceful_render
    | apply graceful_each
    | match goal with |- graceful _ (match ?x with _ => _ end) => destruct x eqn:? end ].

Lemma graceful_common P n r c : (encodable (strip r) = false -> P) -> graceful P (_validate_variable_common n r c).
Proof. intros Hp. unfold _validate_variable_common. graceful. Qed.
#[local] Hint Resolve graceful_common : graceful.

Lemma graceful_path_variable P n r : (encodable (strip r) = false -> P) -> graceful P (_validate_path_variable n r).
Proof. intros Hp. unfold _validate_path_variable. graceful. Qed.

Lemma graceful_query_variable P n r : (encodable (strip r) = false -> P) -> graceful P (_validate_query_variable n r).
Proof. intros Hp. unfold _validate_query_variable. graceful. Qed.
#[local] Hint Resolve graceful_path_variable graceful_query_variable : graceful.

(** Some variable cannot be encoded. *)
Definition bad_variable (vars : dict json) : Prop := exists n v, jget vars n = JStr v /\ encodable (strip v) = false.

Lemma graceful_hydrate_pairs (P : Prop) vars l : (bad_variable vars -> P) -> graceful P (hydrate_pairs vars l).
Proof.
  intros Hp. assert (forall n v, jget vars n = JStr v -> encodable (strip v) = false -> P) as Hv by (intros n v ? ?; apply Hp; by exists n, v).
  clear Hp. induction l as [|kv l IH]; cbn [hydrate_pairs]; [apply graceful_ret |].
  unfold hydrate_pair, query_fill. graceful; try exact IH.
Qed.

#[local] Hint Resolve graceful_hydrate_pairs : graceful.

Lemma graceful_hydrate_path (P : Prop) o args :
  (forall vars, jget args "variables" = JObj vars -> bad_variable vars -> P) -> graceful P (_hydrate_path o args).
Proof.
  intros Hp. unfold _hydrate_path, _hydrate_query, path_fill.
  apply graceful_bind; [graceful |]. intros vars Hv.
  assert (bad_variable vars -> P) as Hb.
  { destruct (jget args "variables"); try done; injection Hv as <-; [by intros (n & v & [=] & _) | by apply Hp]. }
  assert (forall n v, jget vars n = JStr v -> encodable (strip v) = false -> P) as Hn by (intros n v ? ?; apply Hb; by exists n, v).
  graceful.
Qed.

Lemma graceful_substitute P t s allowed : graceful P (_substitute_secrets t s allowed).
Proof. unfold _substitute_secrets, secret_fill, read_secret. graceful. Qed.
#[local] Hint Resolve graceful_substitute : graceful.

Lemma graceful_build_headers P o args s : graceful P (_build_headers o args s).
Proof. unfold _build_headers, caller_header, operator_header, _refuse_caller_refs. graceful. Qed.

(** The text body of the operation, the caller's or the operator's with its
    secrets, cannot be encoded. *)
Definition bad_body (o : operation) (args : dict json) (s : secret_client) : Prop :=
  exists b, encodable b = false /\ op_body_kind o = "text"%string
    /\ match op_body_template o with
       | Some t => _substitute_secrets t s (op_allowed_secrets o) = inl b
       | None => jget args "body" = JStr b
       end.

Lemma graceful_build_body (P : Prop) o args s max : (bad_body o args s -> P) -> graceful P (_build_body o args s max).
Proof.
  intros Hp. unfold _build_body, _refuse_caller_refs. apply graceful_bind; [graceful |]. intros _ _.
  apply graceful_bind; [graceful |]. intros body Hbody.
  destruct (String.eqb (op_body_kind o) "none"); [graceful |]. destruct body as [| | | |b| |]; try done.
  apply graceful_bind; [|graceful]. destruct (String.eqb_spec (op_body_kind o) "text"); [|graceful].
  apply graceful_encoded. intros Hb. apply Hp. exists b. split; [done |]. split; [done |].
  destruct (op_body_template o) as [t|]; [|by injection Hbody].
  apply bm_bind_ok in Hbody as (u & _ & Hbody). unfold fmap, BM_fmap in Hbody.
  destruct (_substitute_secrets t _ _) as [b'|]; [|done]. by injection Hbody as ->.
Qed.

(** C20. Building a request fails by a refusal, with one exception: for a
    manifest that loads, every operation name and every arguments value, of
    whatever JSON type, give a request or a RequestBuildError, or, only when a
    variable of the caller or the text of the body cannot be encoded in UTF-8,
    a UnicodeEncodeError. *)
Theorem build_total data cfg name arguments secrets max_body :
  load_config data = Ok cfg ->
  (exists rq, build_request cfg name arguments secrets max_body = inl rq)
  \/ (exists e, build_request cfg name arguments secrets max_body = inr (Refused e))
  \/ build_request cfg name arguments secrets max_body = inr (Crashed UnicodeEncodeError)
     /\ exists args o, arguments = JObj args /\ dget (rc_operations cfg) name = Some o
        /\ ((exists vars, jget args "variables" = JObj vars /\ bad_variable vars) \/ bad_body o args secrets).
Proof.
  intros [(u & Hu & Hb) Hops]%load_config_ok.
  assert (graceful (exists args o, arguments = JObj args /\ dget (rc_operations cfg) name = Some o
    /\ ((exists vars, jget args "variables" = JObj vars /\ bad_variable vars) \/ bad_body o args secrets))
    (build_request cfg name arguments secrets max_body)) as Hg.
  { unfold build_request. destruct arguments as [| | | | | |args]; auto with graceful.
    destruct (dget (rc_operations cfg) name) as [o|] eqn:Eo; auto with graceful.
    apply graceful_bind.
    { apply graceful_hydrate_path. intros vars Hv Hbad. exists args, o. split; [done |]. split; [done |]. left. by exists vars. }
    intros path Hpath. destruct (hydrate_path_ok o args path (oo_path _ _ (Hops _ _ Eo)) Hpath) as (p & q & Hh).
    destruct (join_url_ok _ _ _ _ _ _ _ Hu Hb Hh) as [-> _]. apply graceful_bind; [apply graceful_inl |]. intros url _.
    apply graceful_bind; [apply graceful_build_headers |]. intros hs _.
    apply graceful_bind; [|graceful]. apply graceful_build_body. intros Hbad. exists args, o. by split_and!; [| |right]. }
  destruct (build_request _ _ _ _ _) as [rq|[e|e]] eqn:E; [left; by exists rq | right; left; by exists e | right; right].
  destruct (Hg e) as [-> Hbad]; [done |]. by split.
Qed.
End Facts.

#[local] Instance w_encodes : Encodes := {| encodable := isascii; ascii_encodable := fun _ Hs => Hs |}.

(** ** A concrete manifest *)

Definition w_manifest : dict json :=
  [("id"%string, JStr "notes"); ("type"%string, JStr "rest"); ("base_url"%string, JStr "https://api.example.com/v1/");
   ("secrets"%string, JArr [JObj [("name"%string, JStr "token"); ("field"%string, JStr "value"); ("writable"%string, JBool true)]]);
   ("operations"%string, JArr [
     JObj [("name"%string, JStr "list"); ("verb"%string, JStr "get"); ("path"%string, JStr "/users/{id}/notes?limit={n}&all");
           ("allowed_headers"%string, JArr [JStr "X-Trace"]); ("allowed_secrets"%string, JArr [JStr "token"]);
           ("headers"%string, JObj [("Authorization"%string, JStr "Bearer {{secret:token}}")])];
     JObj [("name"%string, JStr "login"); ("verb"%string, JStr "POST"); ("path"%string, JStr "/login");
           ("allowed_secrets"%string, JArr [JStr "token"]); ("body_template"%string, JStr "old={{secret:token}}");
           ("redact_response_body"%string, JBool true); ("redact_response_headers"%string, JBool true);
           ("secret_update_rules"%string, JArr [JObj [("secret_name"%string, JStr "token"); ("response_type"%string, JStr "json");
              ("extract_path"%string, JStr "data.0"); ("match_status"%string, JStr "2xx")]])]])].

Definition w_rest : rest_config := match load_config w_manifest with Ok c => c | Raise _ => RestConfig EmptyString None EmptyString [] [] end.
Definition w_arguments : dict json :=
  [("variables"%string, JObj [("id"%string, JStr "a b"); ("n"%string, JStr "1&2")]);
   ("headers"%string, JObj [("x-trace"%string, JStr "t1")])].
Definition w_good_arguments : dict json :=
  [("variables"%string, JObj [("id"%string, JStr "a?b"); ("n"%string, JStr "1&2")]);
   ("headers"%string, JObj [("x-trace"%string, JStr "t1")])].
Definition w_secrets : secret_client := SecretClient "notes" None [("token"%string, "s3"%string)].

Lemma w_rest_loads : load_config w_manifest = Ok w_rest.
Proof. by vm_compute. Qed.

Example w_refused : build_request w_rest "list" (JObj w_arguments) w_secrets 1024
  = refuse "invalid_variable" "path variable contains whitespace or control characters" (name_field "id").
Proof. by vm_compute. Qed.

Definition w_request : outbound_request :=
  OutboundRequest "GET" "https://api.example.com/v1/users/a%3Fb/notes?limit=1%262&all"
    [("x-trace"%string, "t1"%string); ("Authorization"%string, "Bearer s3"%string)] None.

Lemma w_built : build_request w_rest "list" (JObj w_good_arguments) w_secrets 1024 = inl w_request.
Proof. by vm_compute. Qed.

Lemma url_confined_witness :
  exists o u path p q, dget (rc_operations w_rest) "list" = Some o /\ urlsplit (rc_base_url w_rest) = Ok u
    /\ hydrated o w_good_arguments path p q
    /\ urlsplit (rq_url w_request) = Ok (SplitResult (u_scheme u) (u_netloc u) (rstrip_slash (u_path u) +:+ p) q EmptyString).
Proof.
  destruct (url_confined w_manifest w_rest "list" w_good_arguments w_secrets 1024 w_request w_rest_loads w_built)
    as (o & u & path & p & q & ? & _ & ? & _ & ? & ?).
  by exists o, u, path, p, q.
Defined.

Lemma secrets_scoped_witness :
  build_request w_rest "list" (JObj w_good_arguments) w_secrets 1024
  = build_request w_rest "list" (JObj w_good_arguments)
      (SecretClient "notes" None [("token"%string, "s3"%string); ("other"%string, "x"%string)]) 1024.
Proof. apply secrets_scoped. intros o n. vm_compute. intros [= <-] [<- | []]. done. Defined.

Lemma request_contents_witness :
  exists o, dget (rc_operations w_rest) "list" = Some o
    /\ forall h v, In (h, v) (rq_headers w_request) ->
         h = "Content-Type"%string /\ op_content_type o = Some v
         \/ caller_part o w_good_arguments h v \/ operator_part o w_secrets h v.
Proof.
  destruct (request_contents w_rest "list" w_good_arguments w_secrets 1024 w_request w_built) as (o & ? & ? & _).
  by exists o.
Defined.

(** A variable that cannot be encoded: the instance of the examples encodes
    ASCII only. *)
Definition w_surrogate : dict json :=
  [("variables"%string, JObj [("id"%string, JStr (String (chr 237) EmptyString)); ("n"%string, JStr "1")])].

Lemma build_total_witness :
  build_request w_rest "list" (JObj w_surrogate) w_secrets 1024 = inr (Crashed UnicodeEncodeError)
  /\ ((exists vars, jget w_surrogate "variables" = JObj vars /\ bad_variable vars)
      \/ exists o, dget (rc_operations w_rest) "list" = Some o /\ bad_body o w_surrogate w_secrets).
Proof.
  assert (build_request w_rest "list" (JObj w_surrogate) w_secrets 1024 = inr (Crashed UnicodeEncodeError)) as E by (vm_compute; reflexivity).
  split; [exact E |].
  destruct (build_total w_manifest w_rest "list" (JObj w_surrogate) w_secrets 1024 w_rest_loads)
    as [[rq Hr] | [[e Hr] | (_ & args & o & Ea & Eo & Hb)]]; [rewrite E in Hr; discriminate Hr | rewrite E in Hr; discriminate Hr |].
  injection Ea as <-. destruct Hb as [Hb | Hb]; [left; exact Hb | right; exists o; split; [exact Eo | exact Hb]].
Defined.
