(* ===== verification/FwdRules.v ===== *)
(** toolstack_forwarder/rules.py: secrets that are updated from responses.

    Regular expressions, the XML parser and UTF-8 decoding belong to the
    standard library and are parameters. *)

From stdpp Require Import base tactics list strings.
From Stdlib Require Import ZArith Lia Ascii.
From S2P Require Import Prelude PyStr Json Template FwdConfig SpsWire SpsClient.

Definition _MAX_SECRET_VALUE : Z := 8 * 1024.

(** A RuleError, or any other exception, by its class name. *)
Record rule_error := RuleError { re_code : string; re_detail : string; re_fields : dict json }.
Inductive rule_exn := Rule (e : rule_error) | Unforeseen (class_name : string).

(** [re_search] answers the groups of the first match; [decode_replace] is
    [bytes.decode("utf-8", "replace")]. *)
Class Parsers := {
  re_search : string -> string -> list (option string) + unit + string;
  xml_node : Type;
  xml_fromstring : string -> xml_node + string;
  xml_findall : xml_node -> string -> list xml_node + string;
  xml_get : xml_node -> string -> option string;
  xml_text : xml_node -> option string;
  decode_replace : string -> string }.

Definition RM (T : Type) : Type := (T + rule_exn)%type.
#[export] Instance RM_ret : MRet RM := fun _ a => inl a.
#[export] Instance RM_bind : MBind RM := fun _ _ f m => match m with inl a => f a | inr e => inr e end.

Definition rule_fail {T} (detail : string) (fields : dict json) : RM T :=
  inr (Rule (RuleError "rule_extraction_failed" detail fields)).
Definition secret_field (name : string) : dict json := [("secret"%string, JStr name)].

(** ** Statuses *)

(** One alternative of the specification. *)
Definition match_part (part : string) (status : Z) : res bool :=
  let part := lower (strip part) in
  match part with
  | EmptyString => Ok false
  | String c rest =>
      if (len part =? 3) && isdigit_char c && String.eqb rest "xx" then
        d ← py_int (String c EmptyString);
        Ok (status / 100 =? d)
      else if isdigit part then
        d ← py_int part;
        Ok (status =? d)
      else Ok false
  end.

Fixpoint match_parts (parts : list string) (status : Z) : res bool :=
  match parts with
  | [] => Ok false
  | part :: parts' => b ← match_part part status; if (b : bool) then Ok true else match_parts parts' status
  end.

Definition match_status (spec : string) (status : Z) : res bool := match_parts (split_char "|" spec) status.

Example match_status_forms :
  match_status "2xx| 304 |abc" 204 = Ok true /\ match_status "2xx| 304 |abc" 304 = Ok true
  /\ match_status "2xx| 304 |abc" 404 = Ok false /\ match_status (String (chr 178) "xx") 200 = Raise ValueError.
Proof. by vm_compute. Qed.

(** ** Extraction *)

Fixpoint json_walk (cur : json) (parts : list string) : RM json :=
  match parts with
  | [] => mret cur
  | part :: parts' =>
      match cur, isdigit part with
      | JArr l, true =>
          match py_int part with
          | Raise _ => inr (Unforeseen "ValueError")
          | Ok idx =>
              match l !! Z.to_nat idx with
              | Some v => json_walk v parts'
              | None => rule_fail "json index not found" []
              end
          end
      | JObj d, _ =>
          match dget d part with
          | Some v => json_walk v parts'
          | None => rule_fail "json path not found" []
          end
      | _, _ => rule_fail "json path not found" []
      end
  end.

Definition _extract_json (body path : string) : RM string :=
  match loads body with
  | Raise _ => rule_fail "invalid json" []
  | Ok v =>
      cur ← json_walk v (split_char "." path);
      match cur with JStr s => mret s | _ => rule_fail "json path did not yield a string" [] end
  end.

Section Extract.
Context `{Parsers}.

(** [unquote]: each run of ASCII characters is decoded by itself. *)
Fixpoint unquote_runs (l : list ascii) (run : list ascii) : string :=
  match l with
  | [] => decode_replace (unquote_to_bytes (of_chars (rev run)))
  | c :: l' =>
      if code c <? 128 then unquote_runs l' (c :: run)
      else decode_replace (unquote_to_bytes (of_chars (rev run))) +:+ String c (unquote_runs l' [])
  end.
Definition unquote (s : string) : string := if contains "%" s then unquote_runs (chars s) [] else s.

Definition plus_to_space (s : string) : string := of_chars (map (fun c => if is_char "+" c then " "%char else c) (chars s)).

(** [parse_qs(body, keep_blank_values=True)] as its list of pairs. *)
Definition parse_pair (pair : string) : list (string * string) :=
  if PyStr.empty pair then []
  else let '(name, _, value) := partition_char "=" pair in [(unquote (plus_to_space name), unquote (plus_to_space value))].
Definition parse_qsl (body : string) : list (string * string) := List.concat (map parse_pair (split_char "&" body)).

(** [path.rsplit("/@", 1)]. *)
Fixpoint rsplit_attr (s : string) : option (string * string) :=
  match s with
  | EmptyString => None
  | String c s' =>
      match rsplit_attr s' with
      | Some (h, t) => Some (String c h, t)
      | None => if starts_with "/@" s then Some (EmptyString, str_drop 2 s) else None
      end
  end.

Definition _extract_xml (body path secret_name : string) : RM (option string) :=
  let '(elem_path, attr) := match rsplit_attr path with Some (h, t) => (h, Some t) | None => (path, None) end in
  match attr with
  | Some EmptyString => rule_fail "xml attribute is empty" (secret_field secret_name)
  | _ =>
      match xml_fromstring body with
      | inr cls =>
          if String.eqb cls "ParseError" then rule_fail "invalid xml" (secret_field secret_name) else inr (Unforeseen cls)
      | inl root =>
          match xml_findall root elem_path with
          | inr cls =>
              if String.eqb cls "SyntaxError" then rule_fail "invalid xml path" (secret_field secret_name)
              else inr (Unforeseen cls)
          | inl [] => rule_fail "xml path not found" (secret_field secret_name)
          | inl (found :: _) =>
              match attr with
              | Some a => match xml_get found a with
                          | Some v => mret (Some v)
                          | None => rule_fail "xml attribute not found" (secret_field secret_name)
                          end
              | None => match xml_text found with
                        | Some v => mret (Some v)
                        | None => rule_fail "xml element has no text" (secret_field secret_name)
                        end
              end
          end
      end
  end.

(** [None] is the value of a group that did not take part in the match. *)
Definition extract_value (rule : update_rule) (body : string) : RM (option string) :=
  let name := secret_field (ru_secret rule) in
  if String.eqb (ru_type rule) "json" then v ← _extract_json body (ru_path rule); mret (Some v)
  else if String.eqb (ru_type rule) "form" then
    match List.find (fun kv => String.eqb kv.1 (ru_path rule)) (parse_qsl body) with
    | Some kv => mret (Some kv.2)
    | None => rule_fail "form field not found" name
    end
  else if String.eqb (ru_type rule) "plaintext" then
    match re_search (ru_path rule) body with
    | inr cls => inr (Unforeseen cls)
    | inl (inr _) => rule_fail "regex group not found" name
    | inl (inl groups) =>
        if forallb (fun g => match g with None => true | Some _ => false end) groups
        then rule_fail "regex group not found" name
        else match groups with g :: _ => mret g | [] => mret None end
    end
  else if String.eqb (ru_type rule) "xml" then _extract_xml body (ru_path rule) (ru_secret rule)
  else rule_fail "unsupported response type" name.

Fixpoint extract_all (rules : list update_rule) (body : string) : RM (list (string * string)) :=
  match rules with
  | [] => mret []
  | rule :: rules' =>
      value ← extract_value rule body;
      match value with
      | None => inr (Unforeseen "AttributeError")
      | Some v =>
          if _MAX_SECRET_VALUE <? utf8_len v
          then rule_fail "extracted secret value exceeds 8KB" (secret_field (ru_secret rule))
          else extracted ← extract_all rules' body; mret ((ru_secret rule, v) :: extracted)
      end
  end.

(** [except RuleError: raise], [except Exception]. *)
Definition rule_error_of (e : rule_exn) : rule_error :=
  match e with Rule e => e | Unforeseen cls => RuleError "rule_extraction_failed" cls [] end.

Fixpoint matching (rules : list update_rule) (status : Z) : res (list update_rule) :=
  match rules with
  | [] => Ok []
  | rule :: rules' =>
      b ← match_status (ru_status rule) status;
      rest ← matching rules' status;
      Ok (if (b : bool) then rule :: rest else rest)
  end.

(** ** Writing *)

Context {N : Type} `{Channel N} `{Utf8}.

Definition client_exn_name (e : client_exn) : string :=
  match e with
  | CSPSError => "SPSError" | CAuthError => "AuthError" | CNotFound => "NotFound" | CNotWritable => "NotWritable"
  | CBackendError => "BackendError" | CBadResponse => "BadResponse" | CTransportError => "TransportError"
  | CKeyError => "KeyError" | CAttributeError => "AttributeError" | CValueError => "ValueError"
  end%string.

(** The client is the caller's object: what was written before a failure stays
    in its cache. *)
Fixpoint write_all (extracted : list (string * string)) (secrets : secret_client) (n : N)
    : option rule_error * secret_client * N :=
  match extracted with
  | [] => (None, secrets, n)
  | (name, value) :: rest =>
      match writeback name value secrets n with
      | (inl secrets', n') => write_all rest secrets' n'
      | (inr e, n') => (Some (RuleError "secret_update_failed" (client_exn_name e) (secret_field name)), secrets, n')
      end
  end.

(** [None] on success; [Raise] is an exception that is no RuleError. *)
Definition apply_secret_update_rules (rules : list update_rule) (status : Z) (body : string)
    (secrets : secret_client) (n : N) : res (option rule_error) * secret_client * N :=
  match matching rules status with
  | Raise e => (Raise e, secrets, n)
  | Ok rules =>
      match extract_all rules body with
      | inr e => (Ok (Some (rule_error_of e)), secrets, n)
      | inl extracted => let '(r, secrets', n') := write_all extracted secrets n in (Ok r, secrets', n')
      end
  end.
End Extract.
