(* ===== verification/Forwarder.v ===== *)
(** The forwarder of a rest tool: toolstack_forwarder/outbound.py and
    server.py.

    The network and the secret service are a state [N]; [fetch] is urllib's
    opener, which follows no redirect and uses no proxy. *)

From stdpp Require Import base tactics list strings.
From Stdlib Require Import ZArith Lia Ascii.
From S2P Require Import Prelude PyStr Json Url Template FwdConfig FwdRequest FwdRules SpsWire SpsClient.

(** ** outbound.py *)

(** What a read of the response answers; at the end of the stream there are no
    more answers. *)
Inductive read_answer := Got (c : string) | ReadFails (e : exn).

(** A response (an HTTPError is one), a URLError, or another exception. *)
Inductive upstream_answer :=
| Answered (status : Z) (headers : list (string * string)) (body : list read_answer)
| Unreachable (reason : string)
| Broken (e : exn).

Class Upstream (N : Type) := { fetch : N -> outbound_request -> upstream_answer * N }.

Definition _HOP_BY_HOP : list string :=
  ["connection"; "keep-alive"; "proxy-authenticate"; "proxy-authorization"; "te"; "trailer"; "transfer-encoding"; "upgrade"]%string.

(** The loop, after [total] bytes: [None] is a body over the limit. *)
Fixpoint read_capped (max_body total : Z) (answers : list read_answer) : res (option string) :=
  match answers with
  | [] => Ok (Some EmptyString)
  | ReadFails e :: _ => Raise e
  | Got chunk :: answers' =>
      if PyStr.empty chunk then Ok (Some EmptyString)
      else
        let total := total + len chunk in
        if max_body <? total then Ok None
        else
          match read_capped max_body total answers' with
          | Ok (Some rest) => Ok (Some (chunk +:+ rest))
          | r => r
          end
  end.

Definition _read_capped (answers : list read_answer) (max_body : Z) : res (option string) := read_capped max_body 0 answers.

Definition clean_headers (headers : list (string * string)) : dict json :=
  foldl (fun d kv =>
    let lname := lower kv.1 in
    if String.eqb lname "set-cookie" || one_of _HOP_BY_HOP lname then d else dset d lname (JStr kv.2)) [] headers.

Section Forwarder.
Context `{Parsers} {N : Type} `{Channel N} `{Upstream N} `{Utf8} `{ENC : Encodes}.
(** [json.loads] of bytes: the decoding of the bytes. *)
Variable decode_json : string -> option string.

Definition _response_envelope (status : Z) (headers : list (string * string)) (body : option string) (max_body : Z) : dict json :=
  match body with
  | None => [("error"%string, JStr "response_too_large"); ("limit_bytes"%string, JInt max_body)]
  | Some body => [("status"%string, JInt status); ("headers"%string, JObj (clean_headers headers));
                  ("body"%string, JStr (decode_replace body))]
  end.

Definition send (request : outbound_request) (max_body : Z) (n : N) : res (dict json) * N :=
  let '(answer, n') := fetch n request in
  (match answer with
   | Answered status headers body =>
       body ← _read_capped body max_body;
       Ok (_response_envelope status headers body max_body)
   | Unreachable reason =>
       u ← urlsplit (rq_url request);
       Ok [("error"%string, JStr "outbound_unreachable"); ("host"%string, JStr (default EmptyString (u_hostname u)));
           ("reason"%string, JStr reason)]
   | Broken e => Raise e
   end, n').

(** ** server.py *)

Definition _REDACTED_BODY_TEXT : string := "response redacted for this operation due to config in toolserver".
Definition _REDACTED_BODY_JSON : string :=
  dump compact (JObj [("message"%string, JStr _REDACTED_BODY_TEXT)]).
Definition _REDACTED_HEADERS : dict json :=
  [("X-ToolStack-Security"%string, JStr "headers redacted for this operation due to config in toolserver")].

(** [result.get("headers", {}).get("content-type", "")]. *)
Definition content_type_text (result : dict json) : string :=
  match jget result "headers" with
  | JObj d => match jget d "content-type" with JStr s => lower s | _ => EmptyString end
  | _ => EmptyString
  end.

Definition redact_response (op : operation) (result : dict json) : dict json :=
  let result1 :=
    if op_redact_body op then
      dset result "body" (JStr (if contains "json" (content_type_text result) then _REDACTED_BODY_JSON else _REDACTED_BODY_TEXT))
    else result in
  if op_redact_headers op then dset result1 "headers" (JObj _REDACTED_HEADERS) else result1.

(** The request as it arrives: the path, the two headers that are read, and
    the bytes that follow. *)
Record post := Post { po_path : string; po_secret : option string; po_length : option string; po_bytes : string }.

(** The secret client and the network, and the requests sent so far. *)
Record fwd := Fwd { fw_secrets : secret_client; fw_net : N; fw_sent : list outbound_request }.

(** A reply, or an exception that ends the connection without one. *)
Inductive outcome := Reply (status : Z) (obj : json) | NoReply.

Definition error_obj (code : string) : json := JObj [("error"%string, JStr code)].
Definition invalid_envelope (detail : string) : json :=
  JObj [("error"%string, JStr "invalid_envelope"); ("detail"%string, JStr detail)].
Definition status_ok : json := JObj [("status"%string, JStr "ok")].

(** [_verify_channel_secret]: [None] when it is accepted; [expected] is the
    environment's. *)
Definition _verify_channel_secret (expected : option string) (presented : option string) : option string :=
  let expected := default EmptyString expected in
  if PyStr.empty expected then Some "channel_secret_missing"%string
  else
    let presented := strip (default EmptyString presented) in
    if negb (isascii presented) || negb (isascii expected) || negb (String.eqb presented expected)
    then Some "channel_secret_mismatch"%string else None.

Definition envelope_max (max_body : Z) : Z := Z.max (max_body * 2 + 65536) (1024 * 1024).

Definition content_length (header : option string) : res Z :=
  match header with
  | None | Some EmptyString => Ok 0
  | Some text => py_int text
  end.

(** The operations of the broker's catalog that never leave the forwarder. *)
Definition handle_refresh (s : fwd) : outcome * fwd :=
  match refresh_all (fw_secrets s) (fw_net s) with
  | (inl secrets, n) => (Reply 200 status_ok, Fwd secrets n (fw_sent s))
  | (inr _, n) => (NoReply, Fwd (fw_secrets s) n (fw_sent s))
  end.

Definition handle_refresh_one (arguments : json) (s : fwd) : outcome * fwd :=
  match (match arguments with JObj d => jget d "name" | _ => JNull end) with
  | JStr (String _ _ as target) =>
      match refresh target (fw_secrets s) (fw_net s) with
      | (inl (_, secrets), n) => (Reply 200 status_ok, Fwd secrets n (fw_sent s))
      | (inr CKeyError, n) =>
          (Reply 404 (JObj [("error"%string, JStr "unknown_secret"); ("detail"%string, JStr "configured secret is unavailable")]),
           Fwd (fw_secrets s) n (fw_sent s))
      | (inr _, n) => (NoReply, Fwd (fw_secrets s) n (fw_sent s))
      end
  | _ => (Reply 400 (invalid_envelope "refresh_one: 'name' argument is required"), s)
  end.

Definition status_of (result : dict json) : Z := match jget result "status" with JInt z => z | _ => 0 end.
Definition body_of (result : dict json) : string := match jget result "body" with JStr b => b | _ => EmptyString end.
Definition final_status (result : dict json) : Z := if dmem result "error" then 502 else 200.

(** The dispatch of any other operation. *)
Definition handle_send (config : rest_config) (max_body : Z) (op : string) (arguments : json) (s : fwd) : outcome * fwd :=
  match build_request config op arguments (fw_secrets s) max_body with
  | inr (Refused e) =>
      (Reply (if String.eqb (be_code e) "unknown_op" then 404 else 400) (envelope e), s)
  | inr (Crashed _) => (NoReply, s)
  | inl req =>
      let '(r, n) := send req max_body (fw_net s) in
      let s := Fwd (fw_secrets s) n (fw_sent s ++ [req]) in
      match r, dget (rc_operations config) op with
      | Ok result, Some o =>
          if dmem result "status" then
            let '(r, secrets, n) :=
              apply_secret_update_rules (op_rules o) (status_of result) (body_of result) (fw_secrets s) (fw_net s) in
            let s := Fwd secrets n (fw_sent s) in
            match r with
            | Raise _ => (NoReply, s)
            | Ok (Some e) =>
                (Reply 502 (envelope (RequestBuildError (re_code e) (re_detail e) (re_fields e))), s)
            | Ok None =>
                let result := redact_response o result in (Reply (final_status result) (JObj result), s)
            end
          else (Reply (final_status result) (JObj result), s)
      | _, _ => (NoReply, s)
      end
  end.

Definition do_POST (config : rest_config) (max_body : Z) (expected : option string) (p : post) (s : fwd) : outcome * fwd :=
  if negb (String.eqb (po_path p) "/sendrequest") then (Reply 404 (error_obj "not_found"), s)
  else
    match _verify_channel_secret expected (po_secret p) with
    | Some err => (Reply 401 (error_obj err), s)
    | None =>
        match content_length (po_length p) with
        | Raise _ => (Reply 400 (error_obj "invalid_content_length"), s)
        | Ok length =>
            if (length <? 0) || (envelope_max max_body <? length)
            then (Reply 413 (JObj [("error"%string, JStr "body_too_large"); ("limit_bytes"%string, JInt (envelope_max max_body))]), s)
            else
              let raw := str_take (Z.to_nat length) (po_bytes p) in
              match decode_json (if PyStr.empty raw then "{}" else raw) with
              | None => (NoReply, s)
              | Some text =>
                  match loads text with
                  | Raise _ => (Reply 400 (error_obj "invalid_json"), s)
                  | Ok (JObj envelope) =>
                      match jget envelope "op" with
                      | JStr op =>
                          let arguments := default (JObj []) (dget envelope "arguments") in
                          if String.eqb op "refresh" then handle_refresh s
                          else if String.eqb op "refresh_one" then handle_refresh_one arguments s
                          else handle_send config max_body op arguments s
                      | _ => (Reply 400 (invalid_envelope "op must be a string"), s)
                      end
                  | Ok _ => (Reply 400 (invalid_envelope "body must be a JSON object"), s)
                  end
              end
        end
    end.

Definition do_GET (s : fwd) : outcome * fwd := (Reply 405 (error_obj "method_not_allowed"), s).
End Forwarder.
Arguments Fwd {N}.
Arguments fw_secrets {N}.
Arguments fw_net {N}.
Arguments fw_sent {N}.
