(* ===== verification/ForwarderFacts.v ===== *)
(** The forwarder's server: what reaches the upstream, what is written back,
    and what a caller is shown. *)

From stdpp Require Import base tactics list strings.
From Stdlib Require Import ZArith Lia Ascii.
From S2P Require Import Prelude PyStr Base64 Json Url UrlFacts Template FwdConfig FwdRequest FwdFacts FwdRules SpsWire SpsClient Forwarder.

Section Facts.
Context `{Parsers} {N : Type} `{Channel N} `{Upstream N} `{Utf8} `{ENC : Encodes}.
Variable decode_json : string -> option string.
Implicit Types (s : fwd (N := N)).

(** ** One request at most *)

Lemma send_sent config max_body op arguments s out s' :
  handle_send config max_body op arguments s = (out, s') ->
  fw_sent s' = fw_sent s
  \/ exists rq, build_request config op arguments (fw_secrets s) max_body = inl rq /\ fw_sent s' = fw_sent s ++ [rq].
Proof.
  unfold handle_send. destruct (build_request _ _ _ _ _) as [rq|[e|e]]; [|intros [= _ <-]; by left..].
  destruct (send rq max_body (fw_net s)) as [r n]. intros Hs. right. exists rq. split; [done |]. revert Hs.
  destruct r as [result|]; [|by intros [= _ <-]]. destruct (dget _ op) as [o|]; [|by intros [= _ <-]].
  destruct (dmem result "status"); [|by intros [= _ <-]].
  destruct (apply_secret_update_rules _ _ _ _ _) as [[[[e|]|] secrets] n1]; by intros [= _ <-].
Qed.

Lemma refresh_sent s out s' : handle_refresh s = (out, s') -> fw_sent s' = fw_sent s.
Proof. unfold handle_refresh. destruct (refresh_all _ _) as [[?|?] ?]; by intros [= _ <-]. Qed.

Lemma refresh_one_sent arguments s out s' : handle_refresh_one arguments s = (out, s') -> fw_sent s' = fw_sent s.
Proof.
  unfold handle_refresh_one. destruct (match arguments with JObj d => jget d "name" | _ => JNull end) as [| | | |[|c t]| |];
    try (by intros [= _ <-]).
  destruct (refresh _ _ _) as [[[v secrets]|e] n]; [by intros [= _ <-] |]. destruct e; by intros [= _ <-].
Qed.

(** Nothing leaves the forwarder on its own account: a post sends at most
    one request, only on the right path with the channel's secret, and that
    request is the one its operation builds; a post that is not authenticated
    is refused with neither the upstream nor the secret service having been
    called. *)
Theorem forward_authenticated config max_body expected p s out s' :
  do_POST decode_json config max_body expected p s = (out, s') ->
  (fw_sent s' = fw_sent s
   \/ exists rq op arguments, build_request config op arguments (fw_secrets s) max_body = inl rq
        /\ fw_sent s' = fw_sent s ++ [rq]
        /\ po_path p = "/sendrequest"%string /\ _verify_channel_secret expected (po_secret p) = None)
  /\ (_verify_channel_secret expected (po_secret p) <> None ->
        s' = s /\ exists err, out = Reply 401 (error_obj err) \/ out = Reply 404 (error_obj err)).
Proof.
  unfold do_POST. destruct (String.eqb_spec (po_path p) "/sendrequest") as [Hp | Hp]; cbn [negb].
  2: { intros [= <- <-]. split; [by left |]. intros _. split; [done |]. eexists. by right. }
  destruct (_verify_channel_secret expected (po_secret p)) as [err|] eqn:Ev.
  { intros [= <- <-]. split; [by left |]. intros _. split; [done |]. exists err. by left. }
  intros Hs. split; [|done]. revert Hs.
  destruct (content_length _) as [length|]; [|intros [= _ <-]; by left].
  destruct (_ || _); [intros [= _ <-]; by left |]. destruct (decode_json _) as [text|]; [|intros [= _ <-]; by left].
  destruct (loads text) as [[| | | | | |env]|]; try (intros [= _ <-]; by left).
  destruct (jget env "op") as [| | | |op| |]; try (intros [= _ <-]; by left). cbv zeta.
  destruct (String.eqb op "refresh"); [intros Hs; left; by eapply refresh_sent |].
  destruct (String.eqb op "refresh_one"); [intros Hs; left; by eapply refresh_one_sent |].
  intros [Hs | (rq & Hb & Hs)]%send_sent; [by left | right]. by eexists rq, op, _.
Qed.

(** ** What the caller sees *)

Lemma envelope_status status hs body max_body :
  dmem (_response_envelope status hs body max_body) "status" = negb (dmem (_response_envelope status hs body max_body) "error").
Proof. by destruct body. Qed.

Lemma send_status rq max_body n result n' : send rq max_body n = (Ok result, n') -> dmem result "status" = negb (dmem result "error").
Proof.
  unfold send. destruct (fetch n rq) as [[status hs body|reason|e] n0].
  - destruct (_read_capped body max_body) as [b|]; [|done]. intros [= <- _]. apply envelope_status.
  - destruct (urlsplit _); [|done]. by intros [= <- _].
  - done.
Qed.

Lemma dmem_dset {A} (d : dict A) k v k' : dmem (dset d k v) k' = bool_decide (k = k') || dmem d k'.
Proof.
  unfold dmem. rewrite dget_dset. case_decide as E.
  - by rewrite (bool_decide_eq_true_2 (k = k')).
  - by rewrite (bool_decide_eq_false_2 (k = k')).
Qed.

Lemma redact_error o result : dmem (redact_response o result) "error" = dmem result "error".
Proof.
  unfold redact_response. cbv zeta. by destruct (op_redact_body o), (op_redact_headers o); rewrite ?dmem_dset.
Qed.

Lemma redact_shows o result :
  (op_redact_body o = true -> jget (redact_response o result) "body" = JStr _REDACTED_BODY_JSON
     \/ jget (redact_response o result) "body" = JStr _REDACTED_BODY_TEXT)
  /\ (op_redact_headers o = true -> jget (redact_response o result) "headers" = JObj _REDACTED_HEADERS).
Proof.
  unfold redact_response, jget. split; intros ->.
  - assert (forall v, dget (dset result "body" v) "body" = Some v) as Hb by (intros v; apply dget_dset_eq).
    destruct (op_redact_headers o); [rewrite dget_dset_ne by done|]; rewrite Hb;
      (destruct (contains "json" _); [by left | by right]).
  - by rewrite dget_dset_eq.
Qed.

(** A redacted operation shows nothing of the response: when it answers
    with success, the body is one of two fixed texts and the headers are a fixed
    notice, as far as the operation asks for it, whatever the upstream sent and
    the rules extracted from it. *)
Theorem redaction_hides config max_body op o arguments s result s' :
  dget (rc_operations config) op = Some o ->
  handle_send config max_body op arguments s = (Reply 200 (JObj result), s') ->
  (op_redact_body o = true -> jget result "body" = JStr _REDACTED_BODY_JSON \/ jget result "body" = JStr _REDACTED_BODY_TEXT)
  /\ (op_redact_headers o = true -> jget result "headers" = JObj _REDACTED_HEADERS).
Proof.
  intros Ho. unfold handle_send. rewrite Ho. destruct (build_request _ _ _ _ _) as [rq|[e|e]]; [| |done].
  2: { destruct (String.eqb _ _); done. }
  destruct (send rq max_body (fw_net s)) as [[r|] n] eqn:Es; [|done]. apply send_status in Es.
  destruct (dmem r "status").
  - destruct (apply_secret_update_rules _ _ _ _ _) as [[[[e|]|] secrets] n1]; try done.
    intros [= _ <- _]. apply redact_shows.
  - unfold final_status. rewrite <- (negb_involutive (dmem r "error")), <- Es. done.
Qed.

(** ** Writing back *)

Definition store (cache : dict string) (extracted : list (string * string)) : dict string :=
  foldl (fun c kv => dset c kv.1 kv.2) cache extracted.

Lemma writeback_cache name value c c' (n n' : N) : writeback name value c n = (inl c', n') ->
  sc_cache c' = dset (sc_cache c) name value.
Proof.
  unfold writeback, mbind, CM_bind. destruct (with_cli _ _ _) as [[?|?] ?]; [|done]. by intros [= <- _].
Qed.

Lemma write_all_cache extracted c (n : N) r c' n' : write_all extracted c n = (r, c', n') ->
  exists k, sc_cache c' = store (sc_cache c) (take k extracted) /\ (r = None -> k = length extracted).
Proof.
  revert c n. induction extracted as [|[name value] l IH]; intros c n; cbn [write_all].
  { intros [= <- <- _]. by exists 0%nat. }
  destruct (writeback name value c n) as [[c1|e] n1] eqn:E.
  - intros Hw. destruct (IH _ _ Hw) as (k & Hc & Hk). exists (S k). rewrite Hc. cbn [take].
    rewrite (writeback_cache _ _ _ _ _ _ E). split; [done |]. intros Hr. by rewrite (Hk Hr).
  - intros [= <- <- _]. by exists 0%nat.
Qed.

Lemma extract_all_ok rules body l : extract_all rules body = inl l ->
  Forall2 (fun rule kv => kv.1 = ru_secret rule /\ extract_value rule body = inl (Some kv.2) /\ utf8_len kv.2 <= _MAX_SECRET_VALUE) rules l.
Proof.
  revert l. induction rules as [|rule rules IH]; intros l; cbn [extract_all]; [intros [= <-]; constructor |].
  unfold mbind, RM_bind, mret, RM_ret. destruct (extract_value rule body) as [[v|]|] eqn:Ev; try done.
  destruct (_ <? _) eqn:El; [done |]. destruct (extract_all rules body) as [l0|]; [|done]. intros [= <-].
  apply Z.ltb_ge in El. constructor; [done | by apply IH].
Qed.

(** C21. Secrets are updated from a response only as a whole: when one of the
    matching rules extracts nothing, no secret is written and the secret service
    is not called; otherwise the values written are exactly those the rules
    extracted, each within 8 KB, in the order of the rules, and all of them when
    no failure is reported. *)
Theorem rules_all_or_nothing rules status body c (n : N) r c' n' :
  apply_secret_update_rules rules status body c n = (r, c', n') ->
  (c' = c /\ n' = n /\ r <> Ok None)
  \/ exists matched extracted k, matching rules status = Ok matched
       /\ Forall2 (fun rule kv => kv.1 = ru_secret rule /\ extract_value rule body = inl (Some kv.2)
                     /\ utf8_len kv.2 <= _MAX_SECRET_VALUE) matched extracted
       /\ sc_cache c' = store (sc_cache c) (take k extracted)
       /\ (r = Ok None -> k = length extracted).
Proof.
  unfold apply_secret_update_rules. destruct (matching rules status) as [matched|]; [|intros [= <- <- <-]; by left].
  destruct (extract_all matched body) as [extracted|] eqn:Ee; [|intros [= <- <- <-]; by left].
  destruct (write_all extracted c n) as [[r0 c0] n0] eqn:Ew. intros [= <- <- <-]. right.
  destruct (write_all_cache _ _ _ _ _ _ Ew) as (k & Hc & Hk). exists matched, extracted, k.
  split; [done |]. split; [by apply extract_all_ok |]. split; [done |]. intros [= Hr]. by apply Hk.
Qed.

(** ** A refresh that cannot be answered *)

(** Refreshing one secret never answers that the secret is unknown: the
    client raises KeyError nowhere, so a name the secret service does not know
    ends the connection without a reply. *)
Theorem refresh_one_never_unknown arguments s out s' :
  handle_refresh_one arguments s = (out, s') -> forall obj, out <> Reply 404 obj.
Proof.
  unfold handle_refresh_one. destruct (match arguments with JObj d => jget d "name" | _ => JNull end) as [| | | |[|c t]| |];
    try (by intros [= <- _]).
  destruct (refresh _ _ _) as [[[v secrets]|e] n] eqn:E; [by intros [= <- _] |].
  enough (e <> CKeyError) as He by (destruct e; by intros [= <- _]). revert E.
  unfold refresh, with_cli, get_secret, _require, _call, cfail, mbind, CM_bind, mret, CM_ret.
  destruct (sc_cli (fw_secrets s)) as [cl|]; [|by intros [= <- _]].
  destruct (cl_esecret cl); [|by intros [= <- _]]. destruct (exchange _ _) as [[line|] n1]; [|by intros [= <- _]].
  destruct (parse_response cl line) as [d|e1] eqn:Ep.
  - destruct (_validate_secrets d) as [d1|]; [|by intros [= <- _]]. destruct (dget d1 _); [done | by intros [= <- _]].
  - intros [= <- _]. revert Ep. unfold parse_response, error_class. repeat (case_match; try done); congruence.
Qed.
End Facts.

(** ** A concrete forwarder *)

#[local] Existing Instance w_utf8.
#[local] Existing Instance w_encodes.

#[local] Instance w_parsers : Parsers := {|
  re_search _ _ := inl (inr tt); xml_node := unit; xml_fromstring _ := inr "ParseError"%string;
  xml_findall _ _ := inl []; xml_get _ _ := None; xml_text _ := None; decode_replace s := s |}.

(** A secret service that accepts everything, and an upstream that answers a
    new token; the state counts the exchanges. *)
#[local] Instance w_channel : Channel Z := {| exchange n _ := (Some (write_one_json (JObj [("status"%string, JStr "ok")])), n + 1) |}.
#[local] Instance w_upstream : Upstream Z := {|
  fetch n _ := (Answered 200 [("Content-Type"%string, "application/json"%string)]
                  [Got (dumps (JObj [("data"%string, JArr [JStr "new"])]))], n) |}.

Definition w_client : secret_client := SecretClient "notes" (Some (SPSClient None (Some "e"%string) 4096)) [("token"%string, "s3"%string)].
Definition w_fwd : fwd := Fwd w_client 0 [].
Definition w_post (secret : string) : post :=
  let bytes := dumps (JObj [("op"%string, JStr "login"); ("arguments"%string, JObj [])]) in
  Post "/sendrequest" (Some secret) (Some (str_of_Z (len bytes))) bytes.

Lemma forward_authenticated_witness :
  (do_POST Some w_rest 1024 (Some "k"%string) (w_post "k") w_fwd).1
    = Reply 200 (JObj [("status"%string, JInt 200); ("headers"%string, JObj _REDACTED_HEADERS);
                       ("body"%string, JStr _REDACTED_BODY_JSON)])
  /\ (do_POST Some w_rest 1024 (Some "k"%string) (w_post "guess") w_fwd).2 = w_fwd.
Proof.
  split; [by vm_compute |].
  eassert (do_POST Some w_rest 1024 (Some "k"%string) (w_post "guess") w_fwd = (_, _)) as Hp by (vm_compute; reflexivity).
  rewrite Hp. apply (forward_authenticated _ _ _ _ _ _ _ _ Hp). by vm_compute.
Defined.

Lemma redaction_hides_witness :
  exists result, (handle_send w_rest 1024 "login" (JObj []) w_fwd).1 = Reply 200 (JObj result)
    /\ jget result "headers" = JObj _REDACTED_HEADERS.
Proof.
  eassert (dget (rc_operations w_rest) "login" = Some _) as Ho by (vm_compute; reflexivity).
  eassert (handle_send w_rest 1024 "login" (JObj []) w_fwd = (Reply 200 (JObj _), _)) as Hs by (vm_compute; reflexivity).
  rewrite Hs. eexists. split; [reflexivity |]. by apply (redaction_hides _ _ _ _ _ _ _ _ Ho Hs).
Defined.

Definition w_rules : list update_rule := [SecretUpdateRule "token" "json" "data.0" "2xx"].

Lemma rules_all_or_nothing_witness :
  exists r c' n', apply_secret_update_rules w_rules 200 "{}" w_client 0 = (r, c', n')
    /\ (c' = w_client /\ n' = 0 /\ r <> Ok None
        \/ exists matched extracted k, matching w_rules 200 = Ok matched
             /\ sc_cache c' = store (sc_cache w_client) (take k extracted)).
Proof.
  eassert (apply_secret_update_rules w_rules 200 "{}" w_client 0 = (_, _, _)) as Ha by (vm_compute; reflexivity).
  do 3 eexists. split; [exact Ha |].
  destruct (rules_all_or_nothing _ _ _ _ _ _ _ _ Ha) as [Hl | (matched & extracted & k & Hm & _ & Hc & _)]; [by left | right].
  exists matched, extracted, k. by split.
Defined.

Example rules_written :
  (apply_secret_update_rules w_rules 200 (dumps (JObj [("data"%string, JArr [JStr "new"])])) w_client 0).1
  = (Ok None, SecretClient "notes" (sc_cli w_client) [("token"%string, "new"%string)]).
Proof. by vm_compute. Qed.

Lemma refresh_one_never_unknown_witness :
  exists out s', handle_refresh_one (JObj [("name"%string, JStr "nope")]) w_fwd = (out, s') /\ out = NoReply
    /\ forall obj, out <> Reply 404 obj.
Proof.
  eassert (handle_refresh_one (JObj [("name"%string, JStr "nope")]) w_fwd = (_, _)) as Hr by (vm_compute; reflexivity).
  do 2 eexists. split; [exact Hr |]. split; [reflexivity |]. apply (refresh_one_never_unknown _ _ _ _ Hr).
Defined.
