(* ===== verification/Egress.v ===== *)
(** toolyard/egress_proxy.py: the forward proxy of a sandboxed tool.

    Name resolution, sockets and the clock are the interface [Dial]; reads and
    writes of the spliced sockets are lists of what they answer. *)

From stdpp Require Import base tactics list strings.
From Stdlib Require Import ZArith Lia Ascii.
From S2P Require Import Prelude PyStr Json Url UrlFacts FwdConfig.

Definition _MAX_BODY : Z := 1024 * 1024.
Definition _MAX_RESPONSE : Z := 4 * 1024 * 1024.

(** ** The tunnel *)

(** What [recv] answers; the empty chunk is the end of the stream. *)
Inductive recv_result := Received (c : string) | RecvError.

(** One round of [select]: the time is up, an error or nothing to read, or the
    sockets that are readable, [true] for the tool's side, with what they
    answer; [fails] tells that the write of the chunk fails. *)
Inductive round := Expired | Quiet | Readable (l : list (bool * recv_result * bool)).

Record tunnel := Tunnel { tn_to_upstream : string; tn_to_tool : string; tn_total : Z }.

Definition deliver (from_tool : bool) (c : string) (t : tunnel) : tunnel :=
  if from_tool then Tunnel (tn_to_upstream t +:+ c) (tn_to_tool t) (tn_total t + len c)
  else Tunnel (tn_to_upstream t) (tn_to_tool t +:+ c) (tn_total t + len c).

(** The inner loop; [true] when it goes on. *)
Fixpoint pump_round (l : list (bool * recv_result * bool)) (t : tunnel) : tunnel * bool :=
  match l with
  | [] => (t, true)
  | (from_tool, r, fails) :: l' =>
      match r with
      | RecvError => (t, false)
      | Received c =>
          if PyStr.empty c then (t, false)
          else if _MAX_RESPONSE <? tn_total t + len c then (t, false)
          else if fails then (t, false)
          else pump_round l' (deliver from_tool c t)
      end
  end.

Fixpoint _pump (rounds : list round) (t : tunnel) : tunnel :=
  match rounds with
  | [] => t
  | Expired :: _ | Quiet :: _ => t
  | Readable l :: rounds' => let '(t', go) := pump_round l t in if go then _pump rounds' t' else t'
  end.

(** ** Destinations *)

Inductive connect_decision := Deny (authority : string) | Open (host : string) (port : Z).

Definition authority_of (host : string) (port : Z) : string :=
  if contains ":" host then "[" +:+ host +:+ "]:" +:+ str_of_Z port else host +:+ ":" +:+ str_of_Z port.

(** The destination a CONNECT names, or [None] for an invalid one. *)
Definition connect_target (path : string) : option (string * Z) :=
  match urlsplit ("//" +:+ path) with
  | Raise _ => None
  | Ok target =>
      match u_port target with
      | Raise _ => None
      | Ok port =>
          let port := match port with Some p => p | None => 443 end in
          let '(username, password) := u_credentials target in
          match u_hostname target with
          | Some (String _ _ as host) =>
              if negb ((1 <=? port) && (port <=? 65535))
                 || negb (bool_decide (username = None)) || negb (bool_decide (password = None))
                 || negb (PyStr.empty (u_path target)) || negb (PyStr.empty (u_query target)) || negb (PyStr.empty (u_fragment target))
              then None else Some (host, port)
          | _ => None
          end
      end
  end.

Definition connect_allowed (allow : list string) (host : string) (port : Z) : bool :=
  one_of allow (authority_of host port) || ((port =? 443) && one_of allow host).

Definition decide_connect (allow : list string) (path : string) : connect_decision :=
  match connect_target path with
  | None => Deny "invalid destination"
  | Some (host, port) => if connect_allowed allow host port then Open host port else Deny (authority_of host port)
  end.

(** ** Plain HTTP requests *)

Record proxy_request := ProxyRequest {
  px_method : string; px_path : string; px_headers : list (string * string); px_bytes : string }.

(** [headers.get_all] and [headers.get]. *)
Definition get_all (headers : list (string * string)) (name : string) : list string :=
  map snd (List.filter (fun kv => String.eqb (lower kv.1) (lower name)) headers).

Inductive forward_decision :=
| FDeny (host : string)
| FError (status : Z) (reason : string)
| FCrash
| FForward (host : string) (port : res Z) (origin_path : string) (headers : dict string) (body : option string).

Definition isdecimal (s : string) : bool := negb (PyStr.empty s) && all_chars is_digit s.

(** The framing checks: the body, or the error. *)
Definition request_body (r : proxy_request) : option string + Z * string :=
  let lengths := get_all (px_headers r) "Content-Length" in
  let encoded := match get_all (px_headers r) "Transfer-Encoding" with String _ _ :: _ => true | _ => false end in
  if encoded || (1 <? Z.of_nat (length lengths)) then inr (400, "unsupported request framing"%string)
  else
    let raw_length := match lengths with l :: _ => l | [] => "0"%string end in
    if negb (isascii raw_length) || negb (isdecimal raw_length) then inr (400, "invalid content length"%string)
    else if (10 <? len raw_length) || (_MAX_BODY <? digits_to_Z raw_length) then inr (413, "request too large"%string)
    else
      let n := digits_to_Z raw_length in
      let body := str_take (Z.to_nat n) (px_bytes r) in
      if n =? 0 then inl None
      else if negb (len body =? n) then inr (400, "incomplete request body"%string)
      else inl (Some body).

Definition dropped_header (name : string) : bool := one_of ["proxy-connection"; "connection"; "host"]%string (lower name).

(** [None] and the empty text are falsy. *)
Definition given (o : option string) : bool := match o with Some (String _ _) => true | _ => false end.

Definition decide_forward (allow : list string) (r : proxy_request) : forward_decision :=
  match urlsplit (px_path r) with
  | Raise _ => FCrash
  | Ok parts =>
      match u_hostname parts with
      | Some (String _ _ as host) =>
          if negb (one_of allow host) then FDeny host
          else
            match request_body r with
            | inr (status, reason) => FError status reason
            | inl body =>
                let '(username, password) := u_credentials parts in
                if negb (String.eqb (u_scheme parts) "http") || given username || given password
                then FError 400 "HTTP absolute URL required"
                else
                  let origin_path := urlunsplit EmptyString EmptyString
                    (if PyStr.empty (u_path parts) then "/" else u_path parts) (u_query parts) EmptyString in
                  let headers := foldl (fun d kv => if dropped_header kv.1 then d else dset d kv.1 kv.2) [] (px_headers r) in
                  let port := match u_port parts with
                              | Ok (Some 0) | Ok None => Ok 80
                              | Ok (Some p) => Ok p
                              | Raise e => Raise e
                              end in
                  FForward host port origin_path headers body
            end
      | _ => FDeny "?"
      end
  end.

(** The relay of the response: each read is asked for what may still be
    passed on and one byte more. *)
Definition read_size (total : Z) : Z := Z.min 65536 (_MAX_RESPONSE - total + 1).

Fixpoint relay (chunks : list string) (total : Z) : string :=
  match chunks with
  | [] => EmptyString
  | chunk :: chunks' =>
      if PyStr.empty chunk then EmptyString
      else if _MAX_RESPONSE <? total + len chunk then EmptyString
      else chunk +:+ relay chunks' (total + len chunk)
  end.

Definition relayed_header (name : string) : bool :=
  negb (one_of ["transfer-encoding"; "connection"; "content-length"; "keep-alive"; "upgrade"; "trailer"]%string (lower name)).

(** What the upstream answers: nothing, or a response with its announced
    length. *)
Inductive upstream := Failed | Response (status : Z) (announced : option string) (headers : list (string * string)) (chunks : list string).

Class Dial (W : Type) := {
  dial : W -> string -> Z -> bool * W;
  tunnel_rounds : W -> list round;
  exchange : W -> string -> string -> dict string -> option string -> upstream }.

(** What the tool is answered. *)
Inductive proxy_reply :=
| Error (status : Z) (reason : string)
| Denied
| Established (t : tunnel)
| Relayed (status : Z) (headers : list (string * string)) (body : string)
| Dropped.

Section Proxy.
Context {W : Type} `{Dial W}.
Variable allow : list string.

(** [pr_dialled] is the trace of the connections that were attempted, [true]
    for a tunnel. *)
Record proxy := Proxy { pr_world : W; pr_dialled : list (bool * string * Z) }.

Definition do_CONNECT (path : string) (s : proxy) : proxy_reply * proxy :=
  match decide_connect allow path with
  | Deny _ => (Denied, s)
  | Open host port =>
      let '(connected, w) := dial (pr_world s) host port in
      let s := Proxy w (pr_dialled s ++ [(true, host, port)]) in
      if connected then (Established (_pump (tunnel_rounds w) (Tunnel EmptyString EmptyString 0)), s)
      else (Error 502 "upstream failed", s)
  end.

Definition announced_ok (announced : option string) : bool :=
  match announced with
  | Some (String _ _ as a) => isdecimal a && (digits_to_Z a <=? _MAX_RESPONSE)
  | _ => true
  end.

Definition _forward (r : proxy_request) (s : proxy) : proxy_reply * proxy :=
  match decide_forward allow r with
  | FDeny _ => (Denied, s)
  | FError status reason => (Error status reason, s)
  | FCrash => (Dropped, s)
  | FForward _ (Raise _) _ _ _ => (Error 502 "upstream failed", s)
  | FForward host (Ok port) origin_path headers body =>
      let '(connected, w) := dial (pr_world s) host port in
      let s := Proxy w (pr_dialled s ++ [(false, host, port)]) in
      if negb connected then (Error 502 "upstream failed", s)
      else
        match exchange w (px_method r) origin_path headers body with
        | Failed => (Error 502 "upstream failed", s)
        | Response status announced hs chunks =>
            if announced_ok announced then
              (Relayed status (List.filter (fun kv => relayed_header kv.1) hs)
                 (if String.eqb (px_method r) "HEAD" then EmptyString else relay chunks 0), s)
            else (Error 502 "upstream response too large", s)
        end
  end.

(** A sequence of requests of the tool. *)
Inductive tool_request := ToolConnect (path : string) | ToolForward (r : proxy_request).

Definition handle (q : tool_request) (s : proxy) : proxy_reply * proxy :=
  match q with ToolConnect path => do_CONNECT path s | ToolForward r => _forward r s end.
Definition serve (qs : list tool_request) (s : proxy) : proxy := foldl (fun s q => (handle q s).2) s qs.
End Proxy.

(** ** Confinement *)

Section Facts.
Context {W : Type} `{Dial W}.
Variable allow : list string.

(** What the operator's list permits: a tunnel to a listed authority, or to
    port 443 of a listed host; a plain request to a listed host. *)
Definition permitted (d : bool * string * Z) : Prop :=
  let '(is_tunnel, host, port) := d in
  if is_tunnel : bool then In (authority_of host port) allow \/ port = 443 /\ In host allow else In host allow.

Lemma decide_connect_open path host port : decide_connect allow path = Open host port ->
  permitted (true, host, port) /\ 1 <= port <= 65535.
Proof.
  unfold decide_connect, connect_target. destruct (urlsplit _) as [target|]; [|done].
  destruct (u_port target) as [po|]; [|done]. destruct (u_credentials target) as [user password].
  destruct (u_hostname target) as [[|c h]|]; try done. destruct (_ || _) eqn:E; [done |].
  destruct (connect_allowed _ _ _) eqn:Ea; [|done]. intros [= <- <-]. to_prop. split; [|lia].
  unfold connect_allowed in Ea. apply orb_true_iff in Ea as [Ea | Ea]; [left; by apply one_of_In | right].
  to_prop. by split; [|apply one_of_In].
Qed.

Lemma decide_forward_open r host port path hs body :
  decide_forward allow r = FForward host port path hs body -> In host allow.
Proof.
  unfold decide_forward. destruct (urlsplit _) as [parts|]; [|done].
  destruct (u_hostname parts) as [[|c h]|]; try done. destruct (one_of allow _) eqn:Ea; cbn [negb]; [|done].
  destruct (request_body r) as [b|[st re]]; [|done]. destruct (u_credentials parts) as [user password].
  destruct (_ || _); [done |]. intros [= <- _ _ _ _]. by apply one_of_In.
Qed.

Lemma handle_permitted q (s : proxy (W := W)) : Forall permitted (pr_dialled s) -> Forall permitted (pr_dialled (handle allow q s).2).
Proof.
  intros Hs. destruct q as [path|r]; cbn [handle].
  - unfold do_CONNECT. destruct (decide_connect allow path) as [|host port] eqn:E; [done |].
    destruct (dial _ _ _) as [[] w]; simpl; apply Forall_app; (split; [done |]);
      (constructor; [apply (decide_connect_open _ _ _ E) | constructor]).
  - unfold _forward. destruct (decide_forward allow r) as [| | |host [port|e] path hs body] eqn:E; try done.
    assert (permitted (false, host, port)) as Hp by exact (decide_forward_open _ _ _ _ _ _ E).
    destruct (dial _ _ _) as [[] w]; simpl; [|apply Forall_app; by repeat constructor].
    destruct (Egress.exchange _ _ _ _ _) as [|st an hs0 chunks]; simpl; [apply Forall_app; by repeat constructor |].
    destruct (announced_ok an); simpl; apply Forall_app; by repeat constructor.
Qed.

(** C23. The proxy connects nowhere but where the operator's list says: over
    every sequence of requests, whatever their bytes are and whatever is
    answered, each connection that is attempted is to a permitted destination. *)
Theorem egress_confined qs (s : proxy (W := W)) :
  pr_dialled s = [] -> Forall permitted (pr_dialled (serve allow qs s)).
Proof.
  intros Hs. assert (Forall permitted (pr_dialled s)) as Hp by by rewrite Hs. clear Hs. revert s Hp.
  induction qs as [|q qs IH]; intros s Hp; [done |]. simpl. by apply IH, handle_permitted.
Qed.
End Facts.

(** ** The tunnel's budget *)

Definition from_side (from_tool : bool) (l : list (bool * recv_result * bool)) : string :=
  foldr (fun x acc => match x with
    | (side, Received c, _) => if Bool.eqb side from_tool then c +:+ acc else acc
    | _ => acc end) EmptyString l.

(** Everything a side ever had to say. *)
Definition said (from_tool : bool) (rounds : list round) : string :=
  foldr (fun r acc => match r with Readable l => from_side from_tool l +:+ acc | _ => acc end) EmptyString rounds.

Record tunnel_ok (t : tunnel) : Prop := {
  to_count : tn_total t = len (tn_to_upstream t) + len (tn_to_tool t);
  to_limit : tn_total t <= _MAX_RESPONSE }.

Lemma pump_round_ok l t t' go : tunnel_ok t -> pump_round l t = (t', go) ->
  tunnel_ok t'
  /\ (exists a b, from_side true l = a +:+ b /\ tn_to_upstream t' = tn_to_upstream t +:+ a /\ (go = true -> b = EmptyString))
  /\ (exists a b, from_side false l = a +:+ b /\ tn_to_tool t' = tn_to_tool t +:+ a /\ (go = true -> b = EmptyString)).
Proof.
  assert (forall u l0, from_side u l0 = EmptyString +:+ from_side u l0) as Hnil by done.
  revert t. induction l as [|[[side r] fails] l IH]; intros t Ht; cbn [pump_round].
  { intros [= <- <-]. split; [done |]. split; exists EmptyString, EmptyString; by rewrite ?str_app_nil. }
  assert (forall u, (t, false) = (t', go) ->
    tunnel_ok t'
    /\ (exists a b, u true = a +:+ b /\ tn_to_upstream t' = tn_to_upstream t +:+ a /\ (go = true -> b = EmptyString))
    /\ (exists a b, u false = a +:+ b /\ tn_to_tool t' = tn_to_tool t +:+ a /\ (go = true -> b = EmptyString))) as Hstop.
  { intros u [= <- <-]. split; [done |]. split; exists EmptyString; eexists; (split; [reflexivity |]); by rewrite ?str_app_nil. }
  destruct r as [c|]; [|apply (Hstop (fun b => from_side b _))].
  destruct (PyStr.empty c); [apply (Hstop (fun b => from_side b _)) |].
  destruct (_MAX_RESPONSE <? _) eqn:El; [apply (Hstop (fun b => from_side b _)) |].
  destruct fails; [apply (Hstop (fun b => from_side b _)) |]. apply Z.ltb_ge in El. intros Hl.
  destruct Ht as [Hc Hm]. apply IH in Hl as (Ht' & (a & b & Ha & Hu & Hb) & (a2 & b2 & Ha2 & Hu2 & Hb2)).
  2: { destruct side; constructor; simpl; rewrite ?len_app; lia. }
  split; [done |]. destruct side; simpl in *; (split; do 2 eexists).
  - rewrite Ha, <- str_assoc. split; [reflexivity |]. split; [by rewrite Hu, str_assoc | done].
  - by split; [exact Ha2 |].
  - by split; [exact Ha |].
  - rewrite Ha2, <- str_assoc. split; [reflexivity |]. split; [by rewrite Hu2, str_assoc | done].
Qed.

(** A tunnel is bounded and faithful: at most four megabytes pass in both
    directions together, and what either side is sent is the beginning of what
    the other side said, in order, without a byte added or lost between. *)
Theorem tunnel_bounded rounds :
  let t := _pump rounds (Tunnel EmptyString EmptyString 0) in
  len (tn_to_upstream t) + len (tn_to_tool t) <= _MAX_RESPONSE
  /\ (exists rest, said true rounds = tn_to_upstream t +:+ rest)
  /\ (exists rest, said false rounds = tn_to_tool t +:+ rest).
Proof.
  enough (forall t, tunnel_ok t ->
    tunnel_ok (_pump rounds t)
    /\ (exists a b, said true rounds = a +:+ b /\ tn_to_upstream (_pump rounds t) = tn_to_upstream t +:+ a)
    /\ (exists a b, said false rounds = a +:+ b /\ tn_to_tool (_pump rounds t) = tn_to_tool t +:+ a)) as Hg.
  { cbv zeta. destruct (Hg (Tunnel EmptyString EmptyString 0)) as ([Hc Hm] & (a & b & Ha & Hu) & (a2 & b2 & Ha2 & Hu2)); [done |].
    split; [lia |]. rewrite Hu, Hu2. split; [by exists b | by exists b2]. }
  induction rounds as [|r rounds IH]; intros t Ht.
  { split; [done |]. split; exists EmptyString, EmptyString; by rewrite ?str_app_nil. }
  destruct r as [| |l]; cbn [_pump].
  1,2: split; [done |]; split; exists EmptyString; eexists; (split; [reflexivity |]); by rewrite ?str_app_nil.
  destruct (pump_round l t) as [t' go] eqn:E.
  destruct (pump_round_ok _ _ _ _ Ht E) as (Ht' & (a & b & Ha & Hu & Hb) & (a2 & b2 & Ha2 & Hu2 & Hb2)).
  destruct go; simpl said; rewrite Ha, Ha2.
  - rewrite Hb, Hb2, !str_app_nil by done. destruct (IH t' Ht') as (Hk & (x & y & Hx & Hxu) & (x2 & y2 & Hx2 & Hxu2)).
    split; [done |]. split; do 2 eexists.
    + rewrite Hx, <- str_assoc. split; [reflexivity |]. by rewrite Hxu, Hu, str_assoc.
    + rewrite Hx2, <- str_assoc. split; [reflexivity |]. by rewrite Hxu2, Hu2, str_assoc.
  - split; [done |]. split; do 2 eexists; rewrite str_assoc; (split; [reflexivity | done]).
Qed.

(** ** A listed authority can be reached *)

(** Host names as the operator writes them: lower case, no colon. *)
Definition host_char (c : ascii) : bool := is_lower c || is_digit c || is_char "." c || is_char "-" c.
Definition plain_host (h : string) : Prop := PyStr.empty h = false /\ all_chars host_char h = true.

Lemma host_char_ne c d : host_char c = true -> host_char d = false -> c <> d.
Proof. by intros H1 H2 ->; rewrite H1 in H2. Qed.

Lemma plain_not_in h c : plain_host h -> host_char c = false -> ~ In c (chars h).
Proof. intros [_ Hh]. by apply all_chars_not_in. Qed.

Lemma rpartition_none c s : ~ In c (chars s) -> rpartition_char c s = (EmptyString, false, s).
Proof.
  intros Hn. unfold rpartition_char. rewrite partition_char_none; [done |].
  rewrite chars_of_chars. intros Hin%in_rev. done.
Qed.

Lemma lower_plain h : all_chars host_char h = true -> lower h = h.
Proof.
  unfold lower, all_chars. intros Hh. rewrite <- (of_chars_chars h) at 2. f_equal. rewrite <- (map_id (chars h)) at 2.
  apply map_ext_in. intros c Hc. rewrite forallb_forall in Hh. apply Hh in Hc. unfold lower_char.
  assert (is_upper c = false /\ between 192 222 c = false) as [-> ->]; [|done].
  unfold host_char, is_upper, is_lower, is_digit, between, is_char in *. rewrite !andb_false_iff, !Z.leb_gt.
  apply orb_true_iff in Hc as [Hc | Hc]; [apply orb_true_iff in Hc as [Hc | Hc]; [apply orb_true_iff in Hc as [Hc | Hc]; to_prop; lia |] |];
    apply Ascii.eqb_eq in Hc as <-; vm_compute; intuition discriminate || (split; left; reflexivity).
Qed.

Definition destination (h : string) (port : Z) : string := h +:+ ":" +:+ str_of_Z port.

Lemma destination_chars h port c : plain_host h -> 0 <= port -> In c (chars (destination h port)) -> host_char c = true \/ c = ":"%char.
Proof.
  intros [_ Hh] Hp. unfold destination. rewrite !chars_app, !in_app_iff. intros [Hc | [[<- | []] | Hc]].
  - left. by eapply all_chars_in.
  - by right.
  - left. destruct (str_of_Z_digits port Hp) as [Hd _]. pose proof (all_chars_in _ _ _ Hd Hc) as Hdc.
    unfold host_char. by rewrite Hdc, orb_true_r.
Qed.

Lemma urlsplit_authority netloc : all_chars netloc_char netloc = true -> netloc_ok netloc = true ->
  urlsplit ("//" +:+ netloc) = Ok (SplitResult EmptyString netloc EmptyString EmptyString EmptyString).
Proof.
  intros Hc Hn. rewrite urlsplit_eq.
  assert (clean ("//" +:+ netloc) = "//" +:+ netloc) as ->.
  { change ("//" +:+ netloc) with (String "/" (String "/" netloc)). apply clean_id; [done |].
    change (all_chars url_char netloc = true). eapply all_chars_impl; [|exact Hc].
    unfold netloc_char, path_char, query_char. intros c ?. by to_prop. }
  assert (split_scheme ("//" +:+ netloc) = (EmptyString, "//" +:+ netloc)) as ->.
  { unfold split_scheme, cut. change ("//" +:+ netloc) with (String "/" (String "/" netloc)). cbn [partition_char].
    change (Ascii.eqb ":" "/") with false. cbv iota. by destruct (partition_char ":" netloc) as [[h [|]] t]. }
  unfold split_netloc. rewrite starts_with_app, drop_slashes. rewrite <- (str_app_nil netloc) at 1.
  rewrite splitnetloc_at; [by rewrite Hn | | done]. eapply all_chars_impl; [|exact Hc].
  unfold netloc_char, path_char, query_char, delimiter. intros c ?. to_prop.
  by destruct (is_char "/" c), (is_char "?" c), (is_char "#" c).
Qed.

Lemma destination_split h port : plain_host h -> 1 <= port <= 65535 ->
  connect_target (destination h port) = Some (h, port).
Proof.
  intros Hh Hp. assert (forall c, host_char c = false -> c <> ":"%char -> ~ In c (chars (destination h port))) as Hfree.
  { intros c Hc Hne Hin. apply destination_chars in Hin as [Hin | Hin]; [congruence | done | done | lia]. }
  unfold connect_target. rewrite urlsplit_authority.
  - unfold u_port, u_credentials, u_hostname, u_hostinfo. cbn [u_netloc u_path u_query u_fragment].
    rewrite !rpartition_none by by apply Hfree.
    rewrite !(partition_char_none "[") by by apply Hfree.
    assert (partition_char ":" (destination h port) = (h, true, str_of_Z port)) as ->.
    { apply partition_char_at. by apply plain_not_in. }
    destruct (str_of_Z_digits port ltac:(lia)) as [Hd Hne].
    assert (PyStr.empty (str_of_Z port) = false) as -> by by destruct (str_of_Z port).
    cbn [fst snd]. assert (isdigit (str_of_Z port) = true) as ->.
    { unfold isdigit. destruct (str_of_Z port); [done |]. cbn [PyStr.empty negb andb].
      eapply all_chars_impl; [|exact Hd]. intros c Hc. unfold isdigit_char. by rewrite Hc. }
    assert (isascii (str_of_Z port) = true) as ->.
    { eapply all_chars_impl; [|exact Hd]. unfold is_digit, between. intros c Hc. to_prop. apply Z.ltb_lt. lia. }
    rewrite digits_str_of_Z by lia. rewrite (proj2 (Z.leb_le port 65535)) by lia. cbn [andb].
    destruct Hh as [Hhe Hhc]. rewrite Hhe. rewrite (partition_char_none "%") by by apply (plain_not_in h).
    rewrite (lower_plain h) by done. destruct h as [|c h]; [done |].
    rewrite (proj2 (Z.leb_le 1 port)), (proj2 (Z.leb_le port 65535)) by lia. done.
  - apply all_chars_spec. intros c Hc. apply destination_chars in Hc as [Hc | ->]; [|done | done | lia].
    unfold netloc_char, path_char, query_char, url_char, unsafe_url_byte, is_char.
    assert (forall d, host_char d = false -> Ascii.eqb d c = false) as Hd.
    { intros d Hd. destruct (Ascii.eqb_spec d c) as [-> |]; [congruence | done]. }
    rewrite !Hd by done. assert (forall k, 0 <= k < 256 -> host_char (chr k) = false -> code c =? k = false) as Hk.
    { intros k Hr Hf. apply Z.eqb_neq. intros He. assert (c = chr k) as -> by by rewrite <- He, chr_code. congruence. }
    by rewrite !Hk.
  - unfold netloc_ok, has_char.
    assert (forall d, host_char d = false -> d <> ":"%char -> existsb (Ascii.eqb d) (chars (destination h port)) = false) as Hd.
    { intros d H1 H2. destruct (existsb _ _) eqn:E; [|done]. apply existsb_exists in E as (x & Hx & ->%Ascii.eqb_eq).
      by destruct (Hfree x H1 H2). }
    by rewrite !Hd.
Qed.

(** A listed authority is read back as itself: asking for [host:port] with
    a host name as operators write it is a request for that host and port, so
    it is granted exactly when the list names it, or the host with port 443. *)
Theorem connect_roundtrip allow h port :
  plain_host h -> 1 <= port <= 65535 ->
  decide_connect allow (destination h port)
  = if connect_allowed allow h port then Open h port else Deny (destination h port).
Proof.
  intros Hh Hp. unfold decide_connect. rewrite destination_split by done.
  assert (authority_of h port = destination h port) as ->; [|done].
  unfold authority_of. assert (contains ":" h = false) as ->; [|done]. by apply contains_absent, plain_not_in.
Qed.

(** ** Witnesses *)

#[local] Instance w_dial : Dial nat := {|
  dial w _ _ := (true, S w); tunnel_rounds _ := []; exchange _ _ _ _ _ := Failed |}.

Lemma egress_confined_witness :
  let qs := [ToolConnect "api.example.com:443"; ToolConnect "evil.example:443"; ToolConnect "api.example.com:22"] in
  let s := serve ["api.example.com"%string] qs (Proxy 0%nat []) in
  pr_dialled s = [(true, "api.example.com"%string, 443)] /\ Forall (permitted ["api.example.com"%string]) (pr_dialled s).
Proof. cbv zeta. split; [by vm_compute |]. by apply egress_confined. Defined.

Lemma connect_roundtrip_witness :
  decide_connect ["db.internal:5432"%string] (destination "db.internal" 5432) = Open "db.internal" 5432.
Proof. rewrite connect_roundtrip; [by vm_compute | by split; vm_compute | lia]. Defined.
