(* ===== verification/Runtime.v ===== *)
(** broker/bounds.py and broker/runtime.py: how an approved call reaches its
    tool.

    The loopback transport is the interface [Transport]: what opening a request
    answers, and whether the operation's deadline has passed.  The branch of
    [_parse_jsonrpc] for event streams is never taken (its caller reads streams
    with [_read_sse]) and is not modelled. *)

From stdpp Require Import base tactics list strings.
From Stdlib Require Import ZArith Lia Ascii.
From S2P Require Import Prelude PyStr Json Registry SpsWire.

(** ** bounds.py *)

(** One [read1]: bytes, or the exception it raises. *)
Inductive read1 := Bytes (c : string) | Fails (e : exn).

Definition LimitExceeded : exn := OtherExn "LimitExceeded".

(** The chunks of a response read to its end, and the budget left. *)
Fixpoint read_response (answers : list read1) (budget : Z) : res string * Z :=
  match answers with
  | [] => (Ok EmptyString, budget)
  | Fails e :: _ => (Raise e, budget)
  | Bytes c :: answers' =>
      if PyStr.empty c then (Ok EmptyString, budget)
      else
        let budget := budget - len c in
        if budget <? 0 then (Raise LimitExceeded, budget)
        else let '(r, b) := read_response answers' budget in (rest ← r; Ok (c +:+ rest), b)
  end.

(** ** The transport *)

Record http_request := HttpRequest { hq_url : string; hq_headers : dict string; hq_body : string }.

(** A response, an HTTPError, a URLError whose reason is a refused connection
    or another one, or an exception of another kind. *)
Inductive opened :=
| Resp (content_type : string) (session : option string) (body : list read1)
| HttpError (code : Z) (body : list read1)
| Refused
| UrlError (reason : string)
| OpenFails (e : exn).

Class Transport (N : Type) := {
  open : N -> http_request -> opened * N;
  past_deadline : N -> bool;
  decode_bytes : string -> option string }.

(** [rt_trace] holds the requests that were opened and whether the connection
    was refused. *)
Record rt (N : Type) := Rt { rt_net : N; rt_budget : Z; rt_trace : list (http_request * bool) }.
Arguments Rt {N}.
Arguments rt_net {N}.
Arguments rt_budget {N}.
Arguments rt_trace {N}.

Definition MCP_PROTOCOL_VERSION : string := "2025-06-18".

(** [_env_tool_secret], given what the channel state holds. *)
Definition _env_tool_secret (channel : option string) : option string :=
  match channel with Some (String _ _ as v) => Some (strip v) | _ => None end.

Definition present (secret : option string) : dict string :=
  match secret with Some (String _ _ as v) => [("X-Toolstack-Secret"%string, v)] | _ => [] end.

Definition tool_url (o : tool_op) (path : string) : string := "http://127.0.0.1:" +:+ str_of_Z (o_port o) +:+ path.

Section Runtime.
Context {N : Type} `{Transport N}.
Implicit Types (s : rt N) (o : tool_op).

Definition RT (T : Type) : Type := rt N -> res T * rt N.
#[local] Instance RT_ret : MRet RT := fun _ a s => (Ok a, s).
#[local] Instance RT_bind : MBind RT := fun _ _ f m s =>
  match m s with (Ok a, s') => f a s' | (Raise e, s') => (Raise e, s') end.
Definition raise {T} (e : exn) : RT T := fun s => (Raise e, s).

Definition is_refused (a : opened) : bool := match a with Refused => true | _ => false end.

Definition send (req : http_request) : RT opened := fun s =>
  let '(a, n) := open (rt_net s) req in (Ok a, Rt n (rt_budget s) (rt_trace s ++ [(req, is_refused a)])).

Definition receive_body (answers : list read1) : RT string := fun s =>
  let '(r, b) := read_response answers (rt_budget s) in (r, Rt (rt_net s) b (rt_trace s)).

(** [json.loads] of bytes; bytes that do not decode raise another subclass of
    ValueError than text that does not parse. *)
Inductive loaded := Loaded (v : json) | NotJson | NotText.
Definition loads_bytes (body : string) : loaded :=
  match decode_bytes body with
  | None => NotText
  | Some text => match loads text with Ok v => Loaded v | Raise _ => NotJson end
  end.

Definition parse_reply (body : string) : RT json :=
  match loads_bytes body with
  | Loaded v => mret v
  | NotJson => raise RuntimeError
  | NotText => raise ValueError
  end.

Definition call_body (op : string) (fields : dict json) (arguments : json) (request_id : Z) (caller_name : json) : string :=
  dumps (JObj (fields ++ [("arguments"%string, arguments); ("broker_request_id"%string, JInt request_id);
                          ("caller"%string, JObj [("name"%string, caller_name)])])).

(** ** api *)

Definition _execute_api (secret : option string) o (arguments : json) (request_id : Z) (caller_name : json) : RT json :=
  a ← send (HttpRequest (tool_url o ("/v1/actions/" +:+ o_op o))
              (("Content-Type"%string, "application/json"%string) :: present secret)
              (call_body (o_op o) [] arguments request_id caller_name));
  match a with
  | Resp _ _ answers => body ← receive_body answers; parse_reply body
  | HttpError _ _ => raise RuntimeError
  | Refused => raise NotDispatched
  | UrlError _ => raise ToolUnreachable
  | OpenFails e => raise e
  end.

(** ** rest *)

Definition rest_envelope (v : json) : RT json :=
  match v with
  | JObj parsed =>
      if dmem parsed "status" then mret v
      else if bool_decide (jget parsed "error" = JStr "outbound_unreachable") then raise ToolUnreachable
      else raise RuntimeError
  | _ => raise RuntimeError
  end.

Definition _execute_rest (secret : option string) o (arguments : json) (request_id : Z) (caller_name : json) : RT json :=
  a ← send (HttpRequest (tool_url o "/sendrequest")
              (("Content-Type"%string, "application/json"%string) :: present secret)
              (call_body (o_op o) [("op"%string, JStr (o_op o))] arguments request_id caller_name));
  match a with
  | Resp _ _ answers | HttpError _ answers => body ← receive_body answers; v ← parse_reply body; rest_envelope v
  | Refused => raise NotDispatched
  | UrlError _ => raise ToolUnreachable
  | OpenFails e => raise e
  end.

(** ** mcp *)

(** Whether a message is the answer to [msg_id]. *)
Definition answers_id (msg_id : Z) (m : dict json) : bool :=
  bool_decide (jget m "jsonrpc" = JStr "2.0") && bool_decide (jget m "id" = JInt msg_id).

Definition rstrip_cr (l : list ascii) : list ascii := rev (drop_while (fun c => code c =? 13) (rev l)).
Definition data_line (line : string) : option string :=
  if starts_with "data:" line
  then Some (of_chars (drop_while is_byte_space (chars (str_drop 5 line)))) else None.

(** One complete line: the matching message, or the data of the open event. *)
Definition sse_line (msg_id : Z) (data : list string) (line : string) : dict json + list string :=
  let line := of_chars (rstrip_cr (chars line)) in
  match data_line line with
  | Some d => inr (data ++ [d])
  | None =>
      if PyStr.empty line then
        match data with
        | [] => inr []
        | _ =>
            match loads_bytes (join (String newline EmptyString) data) with
            | Loaded (JObj m) => if answers_id msg_id m && (dmem m "result" || dmem m "error") then inl m else inr []
            | _ => inr []
            end
        end
      else inr data
  end.

Fixpoint sse_lines (msg_id : Z) (data : list string) (lines : list string) : dict json + list string :=
  match lines with
  | [] => inr data
  | line :: lines' =>
      match sse_line msg_id data line with
      | inl m => inl m
      | inr data' => sse_lines msg_id data' lines'
      end
  end.

(** The complete lines of a text and what follows the last newline. *)
Definition cut_lines (text : string) : list string * string :=
  let l := split_char newline text in (removelast l, List.last l EmptyString).

(** [_read_sse]: the response is read no further than the matching event. *)
Fixpoint _read_sse (msg_id : Z) (answers : list read1) (pending : string) (data : list string) (budget : Z)
    : res (dict json) * Z :=
  match answers with
  | [] => (Raise RuntimeError, budget)
  | Fails e :: _ => (Raise e, budget)
  | Bytes c :: answers' =>
      if PyStr.empty c then (Raise RuntimeError, budget)
      else
        let budget := budget - len c in
        if budget <? 0 then (Raise LimitExceeded, budget)
        else
          let '(lines, pending) := cut_lines (pending +:+ c) in
          match sse_lines msg_id data lines with
          | inl m => (Ok m, budget)
          | inr data => _read_sse msg_id answers' pending data budget
          end
  end.

Definition read_sse (msg_id : Z) (answers : list read1) : RT (dict json) := fun s =>
  let '(r, b) := _read_sse msg_id answers EmptyString [] (rt_budget s) in (r, Rt (rt_net s) b (rt_trace s)).

Definition _parse_jsonrpc (raw : string) : RT (dict json) :=
  v ← parse_reply raw;
  match v with JObj m => mret m | _ => raise RuntimeError end.

Definition opt_header (name : string) (v : option string) : dict string :=
  match v with Some (String _ _ as t) => [(name, t)] | _ => [] end.

(** A header value as http.client writes it: texts and integers only. *)
Definition header_text (v : json) : res (option string) :=
  if negb (truthy v) then Ok None
  else match v with
       | JStr t => Ok (Some t)
       | JInt z => Ok (Some (str_of_Z z))
       | JBool b => Ok (Some (if b then "True" else "False")%string)
       | _ => Raise TypeError
       end.

Definition mcp_headers (secret session protocol : option string) : dict string :=
  [("Content-Type"%string, "application/json"%string); ("Accept"%string, "application/json, text/event-stream"%string)]
  ++ present secret ++ opt_header "Mcp-Session-Id" session ++ opt_header "MCP-Protocol-Version" protocol.

(** [base], [secret] and the negotiated version come from the caller. *)
Definition _mcp_request (base : string) (secret session : option string) (protocol : json) (msg_id : Z)
    (method : string) (params : json) : RT (json * option string) :=
  match header_text protocol with
  | Raise e => raise e
  | Ok protocol =>
      a ← send (HttpRequest base (mcp_headers secret session protocol)
                  (dumps (JObj [("jsonrpc"%string, JStr "2.0"); ("id"%string, JInt msg_id);
                                ("method"%string, JStr method); ("params"%string, params)])));
      match a with
      | Resp ctype new_session answers =>
          message ← (if contains "text/event-stream" ctype then read_sse msg_id answers
                     else raw ← receive_body answers; _parse_jsonrpc raw);
          if negb (answers_id msg_id message) then raise RuntimeError
          else if dmem message "error" then
            (if truthy (jget message "error")
             then match jget message "error" with JObj _ => raise RuntimeError | _ => raise (OtherExn "AttributeError") end
             else raise RuntimeError)
          else mret (jget message "result", match new_session with Some (String _ _) => new_session | _ => session end)
      | HttpError _ _ => raise RuntimeError
      | Refused | UrlError _ => raise ToolUnreachable
      | OpenFails e => raise e
      end
  end.

Definition _mcp_notify (base : string) (secret session : option string) (protocol : json) (method : string) (params : json)
    : RT unit :=
  match header_text protocol with
  | Raise e => raise e
  | Ok protocol =>
      a ← send (HttpRequest base (mcp_headers secret session protocol)
                  (dumps (JObj [("jsonrpc"%string, JStr "2.0"); ("method"%string, JStr method); ("params"%string, params)])));
      match a with
      | Resp _ _ answers => _ ← receive_body answers; mret tt
      | HttpError _ _ | Refused | UrlError _ => mret tt
      | OpenFails e => raise e
      end
  end.

Definition initialize_params : json :=
  JObj [("protocolVersion"%string, JStr MCP_PROTOCOL_VERSION); ("capabilities"%string, JObj []);
        ("clientInfo"%string, JObj [("name"%string, JStr "toolstack-broker"); ("version"%string, JStr "0.1.0")])].

Definition _execute_mcp (secret : option string) o (arguments : json) (request_id : Z) (caller_name : json) : RT json :=
  let base := tool_url o "/mcp" in
  '(init_result, session) ← _mcp_request base secret None JNull 1 "initialize" initialize_params;
  match init_result with
  | JObj init =>
      let protocol := if truthy (jget init "protocolVersion") then jget init "protocolVersion" else JStr MCP_PROTOCOL_VERSION in
      _ ← _mcp_notify base secret session protocol "notifications/initialized" (JObj []);
      '(result, _) ← _mcp_request base secret session protocol 2 "tools/call"
        (JObj [("name"%string, JStr (o_op o)); ("arguments"%string, arguments);
               ("_meta"%string, JObj [("broker_request_id"%string, JInt request_id);
                                      ("caller"%string, JObj [("name"%string, caller_name)])])]);
      match result with JNull => raise RuntimeError | _ => mret result end
  | _ => raise RuntimeError
  end.

(** ** execute *)

Definition _execute (secret : option string) o (arguments : json) (request_id : Z) (caller_name : json) : RT json :=
  if String.eqb (o_type o) "api" then _execute_api secret o arguments request_id caller_name
  else if String.eqb (o_type o) "mcp" then _execute_mcp secret o arguments request_id caller_name
  else if String.eqb (o_type o) "rest" then _execute_rest secret o arguments request_id caller_name
  else raise RuntimeError.

Definition RESPONSE_MAX : Z := 32 * 1024 * 1024.

(** [execute] under [operation_bounds]: a fresh budget, and a result that comes
    too late is an exception. *)
Definition execute (secret : option string) o (arguments : json) (request_id : Z) (caller_name : json) (n : N)
    : res json * rt N :=
  let '(r, s) := _execute secret o arguments request_id caller_name (Rt n RESPONSE_MAX []) in
  match r with
  | Ok _ => if past_deadline (rt_net s) then (Raise TimeoutError, s) else (r, s)
  | Raise _ => (r, s)
  end.
End Runtime.
