(* ===== verification/RuntimeFacts.v ===== *)
(** What an execution may put on the wire: loopback only, the arguments at most
    once, and [NotDispatched] only when nothing left the broker; and that a
    streamed MCP answer does not depend on how the network cuts it. *)

From stdpp Require Import base tactics list strings.
From Stdlib Require Import ZArith Lia Ascii.
From S2P Require Import Prelude PyStr Json Registry SpsWire Runtime.

(** ** One tool, one secret *)

Definition channel_header (secret : option string) : option string :=
  match secret with Some (String _ _ as v) => Some v | _ => None end.

Record addressed (secret : option string) (o : tool_op) (req : http_request) : Prop := {
  ad_url : starts_with (tool_url o "/") (hq_url req) = true;
  ad_secret : dget (hq_headers req) "X-Toolstack-Secret" = channel_header secret }.

(** The two messages of the MCP handshake are the same for every call. *)
Definition handshake : list string :=
  [dumps (JObj [("jsonrpc"%string, JStr "2.0"); ("id"%string, JInt 1); ("method"%string, JStr "initialize");
                ("params"%string, initialize_params)]);
   dumps (JObj [("jsonrpc"%string, JStr "2.0"); ("method"%string, JStr "notifications/initialized"); ("params"%string, JObj [])])].

Definition is_handshake (req : http_request) : bool := existsb (String.eqb (hq_body req)) handshake.

Lemma tool_url_prefix o path : starts_with "/" path = true -> starts_with (tool_url o "/") (tool_url o path) = true.
Proof.
  intros [t ->]%starts_with_spec. unfold tool_url.
  rewrite <- (str_assoc _ (str_of_Z _) ("/" +:+ t)), <- (str_assoc _ "/" t), !str_assoc. rewrite <- !str_assoc.
  apply starts_with_app.
Qed.

Section Facts.
Context {N : Type} `{Transport N}.
Implicit Types (s : rt N) (o : tool_op).

#[local] Existing Instance RT_ret.
#[local] Existing Instance RT_bind.

(** What running [m] adds to the trace. *)
Definition adds {T} (m : RT T) (P : list (http_request * bool) -> Prop) : Prop :=
  forall s, exists more, rt_trace (m s).2 = rt_trace s ++ more /\ P more.

Lemma adds_none {T} (m : RT T) : (forall s, rt_trace (m s).2 = rt_trace s) -> adds m (eq []).
Proof. intros Hm s. exists []. by rewrite app_nil_r. Qed.

Lemma adds_weaken {T} (m : RT T) (P Q : list (http_request * bool) -> Prop) :
  (forall l, P l -> Q l) -> adds m P -> adds m Q.
Proof. intros HPQ Hm s. destruct (Hm s) as (more & ? & ?). eauto. Qed.

Lemma adds_bind {T U} (m : RT T) (f : T -> RT U) (P Q R : list (http_request * bool) -> Prop) :
  adds m P -> (forall a, adds (f a) Q) ->
  (forall l, P l -> R l) -> (forall l l', P l -> Q l' -> R (l ++ l')) -> adds (m ≫= f) R.
Proof.
  intros Hm Hf HPR HPQ s. destruct (Hm s) as (l & E & Hl). unfold mbind, RT_bind.
  destruct (m s) as [[a | e] s1]; simpl in *; [|eauto].
  destruct (Hf a s1) as (l' & -> & Hl'). exists (l ++ l'). rewrite E, app_assoc. auto.
Qed.

(** Continuing with steps that send nothing. *)
Lemma adds_then {T U} (m : RT T) (f : T -> RT U) P : adds m P -> (forall a, adds (f a) (eq [])) -> adds (m ≫= f) P.
Proof. intros Hm Hf. eapply adds_bind; [done | done | done |]. intros l l' Hl <-. by rewrite app_nil_r. Qed.

Lemma quiet_ret {T} (a : T) : adds (mret a) (eq []).
Proof. by apply adds_none. Qed.
Lemma quiet_raise {T} e : adds (raise e : RT T) (eq []).
Proof. by apply adds_none. Qed.
Lemma quiet_receive l : adds (receive_body l) (eq []).
Proof. apply adds_none. intros s. unfold receive_body. by destruct (read_response _ _). Qed.
Lemma quiet_parse body : adds (parse_reply body) (eq []).
Proof. unfold parse_reply. destruct (loads_bytes body); auto using quiet_ret, quiet_raise. Qed.
Lemma quiet_bind {T U} (m : RT T) (f : T -> RT U) : adds m (eq []) -> (forall a, adds (f a) (eq [])) -> adds (m ≫= f) (eq []).
Proof. apply adds_then. Qed.
Lemma quiet_sse i l : adds (read_sse i l) (eq []).
Proof. apply adds_none. intros s. unfold read_sse. by destruct (_read_sse _ _ _ _ _). Qed.

Lemma adds_send req : adds (send req) (fun l => exists b, l = [(req, b)]).
Proof. intros s. unfold send. destruct (open _ _) as [a n]. simpl. eauto. Qed.

Ltac quiet := repeat (first [apply quiet_bind | apply quiet_ret | apply quiet_raise | apply quiet_receive
  | apply quiet_parse | apply quiet_sse] || match goal with |- forall _, _ => intro end || case_match).

(** At most one request, and it is [req]. *)
Definition only (req : http_request) (l : list (http_request * bool)) : Prop := l = [] \/ exists b, l = [(req, b)].

Lemma only_sent {T} req (f : opened -> RT T) : (forall a, adds (f a) (eq [])) -> adds (send req ≫= f) (only req).
Proof. intros Hf. eapply adds_weaken; [|apply adds_then; [apply adds_send | done]]. intros l [b ->]. right. eauto. Qed.

Lemma only_raise {T} req e : adds (raise e : RT T) (only req).
Proof. eapply adds_weaken; [|apply quiet_raise]. intros l <-. by left. Qed.

Lemma api_sends secret o args id who :
  adds (_execute_api secret o args id who)
    (only (HttpRequest (tool_url o ("/v1/actions/" +:+ o_op o))
       (("Content-Type"%string, "application/json"%string) :: present secret) (call_body (o_op o) [] args id who))).
Proof. apply only_sent. intros a. quiet. Qed.

Lemma rest_sends secret o args id who :
  adds (_execute_rest secret o args id who)
    (only (HttpRequest (tool_url o "/sendrequest")
       (("Content-Type"%string, "application/json"%string) :: present secret)
       (call_body (o_op o) [("op"%string, JStr (o_op o))] args id who))).
Proof. apply only_sent. intros a. unfold rest_envelope. quiet. Qed.

(** An MCP message: its URL, its secret and its text are fixed, the session
    and the version come from the tool. *)
Definition one_message (base : string) (secret : option string) (body : string) (l : list (http_request * bool)) : Prop :=
  l = [] \/ exists session protocol b, l = [(HttpRequest base (mcp_headers secret session protocol) body, b)].

Lemma mcp_request_sends base secret session protocol id meth params :
  adds (_mcp_request base secret session protocol id meth params)
    (one_message base secret (dumps (JObj [("jsonrpc"%string, JStr "2.0"); ("id"%string, JInt id);
       ("method"%string, JStr meth); ("params"%string, params)]))).
Proof.
  unfold _mcp_request. destruct (header_text protocol) as [p | e].
  - eapply adds_weaken; [|apply only_sent; intros a; unfold _parse_jsonrpc; quiet].
    intros l [-> | [b ->]]; [by left | right; eauto].
  - eapply adds_weaken; [|apply quiet_raise]. intros l <-. by left.
Qed.

Lemma mcp_notify_sends base secret session protocol meth params :
  adds (_mcp_notify base secret session protocol meth params)
    (one_message base secret (dumps (JObj [("jsonrpc"%string, JStr "2.0"); ("method"%string, JStr meth); ("params"%string, params)]))).
Proof.
  unfold _mcp_notify. destruct (header_text protocol) as [p | e].
  - eapply adds_weaken; [|apply only_sent; intros a; quiet].
    intros l [-> | [b ->]]; [by left | right; eauto].
  - eapply adds_weaken; [|apply quiet_raise]. intros l <-. by left.
Qed.

(** ** Every execution *)

Definition wire_ok secret o (l : list (http_request * bool)) : Prop :=
  Forall (addressed secret o) (map fst l)
  /\ (length (List.filter (fun q => negb (is_handshake q.1)) l) <= 1)%nat.

Lemma wire_ok_nil secret o : wire_ok secret o [].
Proof. split; [constructor | simpl; lia]. Qed.

Lemma wire_ok_one secret o req b : addressed secret o req -> wire_ok secret o [(req, b)].
Proof. intros Ha. split; [by constructor |]. simpl. case_match; simpl; lia. Qed.

Lemma present_secret secret : dget (present secret) "X-Toolstack-Secret" = channel_header secret.
Proof. by destruct secret as [[|a v]|]. Qed.

Lemma mcp_headers_secret secret session protocol :
  dget (mcp_headers secret session protocol) "X-Toolstack-Secret" = channel_header secret.
Proof. by destruct secret as [[|a v]|], session as [[|c u]|], protocol as [[|d w]|]. Qed.

Lemma only_wire_ok secret o req l : addressed secret o req -> only req l -> wire_ok secret o l.
Proof. intros Ha [-> | [b ->]]; [apply wire_ok_nil | by apply wire_ok_one]. Qed.

Lemma message_addressed secret o session protocol body :
  addressed secret o (HttpRequest (tool_url o "/mcp") (mcp_headers secret session protocol) body).
Proof. constructor; simpl; [by apply tool_url_prefix | apply mcp_headers_secret]. Qed.

Lemma message_wire_ok secret o body l : one_message (tool_url o "/mcp") secret body l -> wire_ok secret o l.
Proof. intros [-> | (x & y & b & ->)]; [apply wire_ok_nil | apply wire_ok_one, message_addressed]. Qed.

Lemma wire_ok_handshake secret o body l l' : In body handshake ->
  one_message (tool_url o "/mcp") secret body l -> wire_ok secret o l' -> wire_ok secret o (l ++ l').
Proof.
  intros Hin [-> | (x & y & b & ->)] [Ha Hl]; [done |]. split.
  - simpl. constructor; [apply message_addressed | done].
  - assert (is_handshake (HttpRequest (tool_url o "/mcp") (mcp_headers secret x y) body) = true) as E.
    { apply existsb_exists. exists body. split; [done | apply String.eqb_refl]. }
    rewrite List.filter_app, length_app. cbn [List.filter fst]. rewrite E. simpl. lia.
Qed.

Lemma mcp_sends secret o args id who : adds (_execute_mcp secret o args id who) (wire_ok secret o).
Proof.
  unfold _execute_mcp. eapply adds_bind; [apply mcp_request_sends | | apply message_wire_ok |].
  2: { intros l l' Hl Hl'. eapply wire_ok_handshake; [by left | exact Hl | exact Hl']. }
  intros [init session]. cbn beta iota. destruct init; try (eapply adds_weaken; [|apply quiet_raise]; intros ? <-; apply wire_ok_nil).
  eapply adds_bind; [apply mcp_notify_sends | | apply message_wire_ok |].
  2: { intros l l' Hl Hl'. eapply wire_ok_handshake; [by right; left | exact Hl | exact Hl']. }
  intros _. eapply adds_weaken; [apply message_wire_ok |]. apply adds_then; [apply mcp_request_sends |].
  intros [r x]. quiet.
Qed.

Lemma execute_sends secret o args id who : adds (_execute secret o args id who) (wire_ok secret o).
Proof.
  unfold _execute.
  case_match; [|case_match; [apply mcp_sends | case_match]].
  - eapply adds_weaken; [|apply api_sends]. intros l. apply only_wire_ok.
    constructor; simpl; [by apply tool_url_prefix | apply present_secret].
  - eapply adds_weaken; [|apply rest_sends]. intros l. apply only_wire_ok.
    constructor; simpl; [by apply tool_url_prefix | apply present_secret].
  - eapply adds_weaken; [|apply quiet_raise]. intros l <-. apply wire_ok_nil.
Qed.

(** Every request of an execution goes to the loopback port of its tool
    and carries exactly the channel secret of that tool, and at most one
    request is other than the two fixed messages of the MCP handshake: the
    arguments of an approved call leave the broker at most once. *)
Theorem execution_stays_home secret o args id who n :
  Forall (addressed secret o) (map fst (rt_trace (execute secret o args id who n).2))
  /\ (length (List.filter (fun q => negb (is_handshake q.1)) (rt_trace (execute secret o args id who n).2)) <= 1)%nat.
Proof.
  destruct (execute_sends secret o args id who (Rt n RESPONSE_MAX [])) as (l & E & Hl).
  assert (rt_trace (execute secret o args id who n).2 = l) as ->; [|done].
  rewrite <- (app_nil_l l). change (@nil (http_request * bool)) with (rt_trace (Rt n RESPONSE_MAX [])). rewrite <- E.
  unfold execute. destruct (_execute _ _ _ _ _ _) as [[v | e] s]; [|done]. by destruct (past_deadline _).
Qed.

(** ** When NotDispatched is answered *)

Definition honest_read (a : read1) : Prop := match a with Fails e => e <> NotDispatched | Bytes _ => True end.

(** The exceptions of urllib and of the sockets are not the runtime's own. *)
Definition honest (a : opened) : Prop :=
  match a with
  | Resp _ _ l | HttpError _ l => Forall honest_read l
  | OpenFails e => e <> NotDispatched
  | Refused | UrlError _ => True
  end.

(** [m] never raises NotDispatched. *)
Definition dispatches {T} (m : RT T) : Prop := forall s, (m s).1 <> Raise NotDispatched.

Lemma dispatches_bind {T U} (m : RT T) (f : T -> RT U) : dispatches m -> (forall a, dispatches (f a)) -> dispatches (m ≫= f).
Proof.
  intros Hm Hf s. specialize (Hm s). unfold mbind, RT_bind. destruct (m s) as [[a | e] s1]; simpl in *; [apply Hf | congruence].
Qed.
Lemma dispatches_ret {T} (a : T) : dispatches (mret a).
Proof. done. Qed.
Lemma dispatches_raise {T} e : e <> NotDispatched -> dispatches (raise e : RT T).
Proof. intros He s. simpl. congruence. Qed.
Lemma dispatches_parse body : dispatches (parse_reply body).
Proof. unfold parse_reply. destruct (loads_bytes body); [apply dispatches_ret | by apply dispatches_raise ..]. Qed.

Lemma read_response_honest l : Forall honest_read l -> forall b, (read_response l b).1 <> Raise NotDispatched.
Proof.
  induction 1 as [|a l Ha _ IH]; intros b; simpl; [done |]. destruct a as [c | e]; simpl in *; [|congruence].
  case_match; [done |]. case_match; [done |]. specialize (IH (b - len c)).
  destruct (read_response l _) as [[r | e] b']; simpl in *; [done | congruence].
Qed.
Lemma dispatches_receive l : Forall honest_read l -> dispatches (receive_body l).
Proof.
  intros Hl s. unfold receive_body. pose proof (read_response_honest l Hl (rt_budget s)) as Hr.
  by destruct (read_response _ _).
Qed.

Lemma sse_honest i l : Forall honest_read l -> forall p d b, (_read_sse i l p d b).1 <> Raise NotDispatched.
Proof.
  induction 1 as [|a l Ha _ IH]; intros p d b; simpl; [done |]. destruct a as [c | e]; simpl in *; [|congruence].
  case_match; [done |]. case_match; [done |]. by destruct (sse_lines _ _ _).
Qed.
Lemma dispatches_sse i l : Forall honest_read l -> dispatches (read_sse i l).
Proof.
  intros Hl s. unfold read_sse. pose proof (sse_honest i l Hl EmptyString [] (rt_budget s)) as Hr. by destruct (_read_sse _ _ _ _ _).
Qed.

Ltac dispatch := repeat (first [apply dispatches_bind | apply dispatches_ret | (apply dispatches_raise; done)
  | apply dispatches_parse | (apply dispatches_receive; assumption) | (apply dispatches_sse; assumption)]
  || match goal with |- forall _, _ => intro end || case_match).

Context (Hhonest : forall n req, honest (open n req).1).

(** Sending, then continuing: the rest sees an honest answer. *)
Lemma send_cases {T} req (f : opened -> RT T) s :
  exists a n, honest a /\ (send req ≫= f) s = f a (Rt n (rt_budget s) (rt_trace s ++ [(req, is_refused a)])).
Proof.
  pose proof (Hhonest (rt_net s) req) as Hh. unfold mbind, RT_bind, send.
  destruct (open _ _) as [a n]. exists a, n. auto.
Qed.

Lemma dispatches_send {T} req (f : opened -> RT T) : (forall a, honest a -> dispatches (f a)) -> dispatches (send req ≫= f).
Proof. intros Hf s. destruct (send_cases req f s) as (a & n & Ha & ->). by apply Hf. Qed.

Lemma mcp_request_dispatches base secret session protocol id meth params :
  dispatches (_mcp_request base secret session protocol id meth params).
Proof.
  unfold _mcp_request, _parse_jsonrpc. destruct (header_text protocol) as [p | e] eqn:E.
  - apply dispatches_send. intros [ct ns l | c l | | r | e] Ha; simpl in Ha; dispatch.
  - apply dispatches_raise. intros ->. unfold header_text in E. by repeat case_match.
Qed.

Lemma mcp_notify_dispatches base secret session protocol meth params :
  dispatches (_mcp_notify base secret session protocol meth params).
Proof.
  unfold _mcp_notify. destruct (header_text protocol) as [p | e] eqn:E.
  - apply dispatches_send. intros [ct ns l | c l | | r | e] Ha; simpl in Ha; dispatch.
  - apply dispatches_raise. intros ->. unfold header_text in E. by repeat case_match.
Qed.

Lemma mcp_dispatches secret o args id who : dispatches (_execute_mcp secret o args id who).
Proof.
  unfold _execute_mcp. apply dispatches_bind; [apply mcp_request_dispatches |]. intros [init session].
  destruct init; try (by apply dispatches_raise).
  apply dispatches_bind; [apply mcp_notify_dispatches |]. intros _.
  apply dispatches_bind; [apply mcp_request_dispatches |]. intros [r x]. dispatch.
Qed.

(** One request, whose answer decides. *)
Lemma one_request_refused {T} req (f : opened -> RT T) s :
  (forall a, honest a -> a <> Refused -> dispatches (f a)) -> (forall a, adds (f a) (eq [])) ->
  ((send req ≫= f) s).1 = Raise NotDispatched -> rt_trace ((send req ≫= f) s).2 = rt_trace s ++ [(req, true)].
Proof.
  intros Hf Hq. destruct (send_cases req f s) as (a & n & Ha & ->). intros E.
  assert (a = Refused \/ a <> Refused) as [-> | Hne] by (destruct a; auto).
  - destruct (Hq Refused (Rt n (rt_budget s) (rt_trace s ++ [(req, true)]))) as (l & El & <-). by rewrite app_nil_r in El.
  - by destruct (Hf a Ha Hne (Rt n (rt_budget s) (rt_trace s ++ [(req, is_refused a)]))).
Qed.

Lemma execute_refused secret o args id who s :
  (_execute secret o args id who s).1 = Raise NotDispatched ->
  exists req, addressed secret o req /\ rt_trace (_execute secret o args id who s).2 = rt_trace s ++ [(req, true)].
Proof.
  unfold _execute. destruct (String.eqb _ "api"); [|destruct (String.eqb _ "mcp"); [|destruct (String.eqb _ "rest")]].
  - intros E. apply one_request_refused in E; [eexists; split; [|exact E] | |].
    + constructor; simpl; [by apply tool_url_prefix | apply present_secret].
    + intros [ct ns l | c l | | r | e] Ha Hne; simpl in Ha; [.. | by apply dispatches_raise]; dispatch; done.
    + intros a. quiet.
  - intros E. by destruct (mcp_dispatches _ _ _ _ _ _ E).
  - intros E. apply one_request_refused in E; [eexists; split; [|exact E] | |].
    + constructor; simpl; [by apply tool_url_prefix | apply present_secret].
    + intros [ct ns l | c l | | r | e] Ha Hne; simpl in Ha; unfold rest_envelope; [.. | by apply dispatches_raise]; dispatch; done.
    + intros a. unfold rest_envelope. quiet.
  - done.
Qed.

(** C24. When an execution says NotDispatched, one request was made, to that
    tool, and its connection was refused: nothing of the call reached the
    tool.  The lifecycle relies on this to call such an execution failed
    rather than unknown. *)
Theorem not_dispatched_sound secret o args id who n :
  (execute secret o args id who n).1 = Raise NotDispatched ->
  exists req, addressed secret o req /\ rt_trace (execute secret o args id who n).2 = [(req, true)].
Proof.
  intros E. pose proof (execute_refused secret o args id who (Rt n RESPONSE_MAX [])) as Hr. revert E Hr. unfold execute.
  destruct (_execute _ _ _ _ _ _) as [[v | e] s]; [by destruct (past_deadline _) |].
  simpl. intros E Hr. exact (Hr E).
Qed.
End Facts.

(** ** Reading a stream *)

Section Stream.
Context {N : Type} `{Transport N}.

(** The answer of a stream, read from its whole text. *)
Definition sse_whole (msg_id : Z) (text : string) : res (dict json) :=
  match sse_lines msg_id [] (cut_lines text).1 with inl m => Ok m | inr _ => Raise RuntimeError end.

Lemma split_char_app sep a b :
  split_char sep (a +:+ b) =
  removelast (split_char sep a) ++ split_char sep (List.last (split_char sep a) EmptyString +:+ b).
Proof.
  induction a as [|c a IH]; [done |]. rewrite str_cons_app. cbn [split_char]. rewrite IH. clear IH.
  pose proof (split_char_ne sep a) as Ha. destruct (split_char sep a) as [|h t]; [done |].
  destruct (Ascii.eqb sep c) eqn:E; [done |]. destruct t as [|h' t'].
  - cbn [removelast List.last app]. rewrite str_cons_app. cbn [split_char]. by rewrite E.
  - done.
Qed.

Lemma last_app_ne {A} (l l' : list A) d : l' <> [] -> List.last (l ++ l') d = List.last l' d.
Proof.
  intros Hne. destruct (exists_last Hne) as (l1 & x & ->). by rewrite app_assoc, !List.last_last.
Qed.

Lemma cut_lines_app a b :
  cut_lines (a +:+ b) =
  let '(l1, r1) := cut_lines a in let '(l2, r2) := cut_lines (r1 +:+ b) in (l1 ++ l2, r2).
Proof.
  unfold cut_lines. rewrite split_char_app.
  pose proof (split_char_ne newline (List.last (split_char newline a) EmptyString +:+ b)) as Hne.
  rewrite removelast_app, last_app_ne by done. done.
Qed.

Lemma cut_lines_rest a : (cut_lines (cut_lines a).2).1 = [] /\ (cut_lines (cut_lines a).2).2 = (cut_lines a).2.
Proof.
  unfold cut_lines. cbn [snd]. assert (~ In newline (chars (List.last (split_char newline a) EmptyString))) as Hn.
  { pose proof (split_char_ne newline a) as Hne. pose proof (split_char_free newline a) as Hf.
    destruct (exists_last Hne) as (l & x & E). rewrite E in *. rewrite List.last_last. apply Hf, in_app_iff. right. by left. }
  assert (split_char newline (List.last (split_char newline a) EmptyString) = [List.last (split_char newline a) EmptyString]) as ->; [|done].
  revert Hn. generalize (List.last (split_char newline a) EmptyString) as u. induction u as [|c u IH]; intros Hn; [done |].
  cbn [split_char]. destruct (Ascii.eqb newline c) eqn:E; [apply Ascii.eqb_eq in E; destruct Hn; left; congruence |].
  rewrite IH; [done |]. intros Hin. apply Hn. by right.
Qed.

Lemma sse_lines_app i d l1 l2 :
  sse_lines i d (l1 ++ l2) = match sse_lines i d l1 with inl m => inl m | inr d' => sse_lines i d' l2 end.
Proof. revert d. induction l1 as [|x l1 IH]; intros d; simpl; [done |]. by destruct (sse_line i d x). Qed.

Lemma read_sse_pieces i pieces : Forall (fun c => PyStr.empty c = false) pieces -> forall p d b,
  len (concat pieces) <= b -> (cut_lines p).1 = [] -> (cut_lines p).2 = p ->
  (_read_sse i (map Bytes pieces) p d b).1 =
  match sse_lines i d (cut_lines (p +:+ concat pieces)).1 with inl m => Ok m | inr _ => Raise RuntimeError end.
Proof.
  induction 1 as [|c pieces Hc _ IH]; intros p d b Hb H1 H2.
  - cbn [map _read_sse concat foldr]. rewrite str_app_nil, H1. done.
  - cbn [map _read_sse]. rewrite Hc. change (concat (c :: pieces)) with (c +:+ concat pieces) in *. rewrite len_app in Hb. pose proof (len_nonneg (concat pieces)).
    assert (b - len c <? 0 = false) as -> by (apply Z.ltb_ge; lia).
    rewrite <- str_assoc, (cut_lines_app (p +:+ c)). pose proof (cut_lines_rest (p +:+ c)) as [R1 R2].
    destruct (cut_lines (p +:+ c)) as [lines rest]. cbn [snd] in R1, R2.
    destruct (cut_lines (rest +:+ concat pieces)) as [l2 r2] eqn:E2. cbn [fst]. rewrite sse_lines_app.
    destruct (sse_lines i d lines) as [m | d']; [done |].
    rewrite IH by (done || lia). by rewrite E2.
Qed.

(** C25. Reading a streamed answer piece by piece is reading it at once:
    however the network cuts a stream that is within the budget of bytes, the
    message taken from it, or the failure to find one, is that of the whole
    text. *)
Theorem sse_segmentation (i : Z) (pieces : list string) (budget : Z) :
  Forall (fun c => PyStr.empty c = false) pieces -> len (concat pieces) <= budget ->
  (_read_sse i (map Bytes pieces) EmptyString [] budget).1 = sse_whole i (concat pieces).
Proof. intros Hp Hb. by apply read_sse_pieces. Qed.

(** What is taken from a stream is the answer to that request. *)
Lemma sse_lines_answer i l : forall d m, sse_lines i d l = inl m ->
  answers_id i m = true /\ dmem m "result" || dmem m "error" = true.
Proof.
  induction l as [|x l IH]; intros d m; [done |]. cbn [sse_lines].
  destruct (sse_line i d x) as [m0 | d'] eqn:E; [|apply IH]. intros [= ->].
  unfold sse_line in E. repeat case_match; try discriminate E.
  injection E as ->. match goal with Hc : _ && _ = true |- _ => by apply andb_true_iff in Hc end.
Qed.

Lemma read_response_ok l : forall b body b', read_response l b = (Ok body, b') -> b' = b - len body /\ (0 <= b -> 0 <= b').
Proof.
  induction l as [|[c | e] l IH]; intros b body b'; cbn [read_response].
  - intros [= <- <-]. change (len EmptyString) with 0. lia.
  - destruct (PyStr.empty c) eqn:E; [intros [= <- <-]; change (len EmptyString) with 0; lia |].
    destruct (b - len c <? 0) eqn:Eb; [done |]. apply Z.ltb_ge in Eb.
    destruct (read_response l (b - len c)) as [[r | e] b1] eqn:Er; [|done].
    intros [= <- <-]. apply IH in Er as [-> Hr]. rewrite len_app. pose proof (len_nonneg c). lia.
  - done.
Qed.
End Stream.

(** ** Witnesses *)

(** A tool that refuses some connections and lets the others time out. *)
Definition w_open (n : list opened) : opened * list opened :=
  match n with Refused :: n' => (Refused, n') | _ => (UrlError "timed out", n) end.

#[local] Instance w_transport : Transport (list opened) := {
  open n _ := w_open n;
  past_deadline _ := false;
  decode_bytes := Some }.

Definition w_op : tool_op := ToolOp "demo" "run" JNull 9100 "api" None None None None "g" [].

Lemma not_dispatched_sound_witness :
  (exists req, addressed (Some "k"%string) w_op req
     /\ rt_trace (execute (Some "k"%string) w_op (JObj []) 7 (JStr "ann") [Refused]).2 = [(req, true)])
  /\ (execute (Some "k"%string) w_op (JObj []) 7 (JStr "ann") [UrlError "timed out"]).1 = Raise ToolUnreachable.
Proof.
  split; [|vm_compute; reflexivity].
  apply (not_dispatched_sound (N := list opened)); [|vm_compute; reflexivity].
  intros [|[] n] req; exact I.
Defined.

Lemma sse_segmentation_witness :
  (_read_sse 2 [Bytes "data:"; Bytes " {}"; Bytes (String newline "")] EmptyString [] 100).1 = Raise RuntimeError.
Proof.
  change [Bytes "data:"; Bytes " {}"; Bytes (String newline "")] with (map Bytes ["data:"; " {}"; String newline ""]%string).
  rewrite (sse_segmentation (N := list opened)); [vm_compute; reflexivity | by repeat constructor | by vm_compute].
Defined.
