(* ===== verification/Nod.v ===== *)
(** broker/surface_nod.py: the approval surface over HTTP.

    The HTTP opener is the interface [NodTransport]; [sent] records the
    requests that were opened.  Times are the transport's: the timeout of the
    surface is not a part of the model. *)

From stdpp Require Import base tactics list strings.
From Stdlib Require Import ZArith Lia Ascii.
From S2P Require Import Prelude PyStr Json Url Store Broker SpsWire Runtime.

(** ** Identifiers *)

Definition _reference (ref : json) : res string :=
  match ref with
  | JStr t => if word_dash_bounded 1 128 t then Ok t else Raise ValueError
  | _ => Raise ValueError
  end.

Fixpoint _matching_ids (v : json) (ref : string) : bool :=
  match v with
  | JObj d =>
      forallb (fun kv =>
        negb (String.eqb kv.1 "request_id" && negb (bool_decide (kv.2 = JStr ref)))
        && negb (String.eqb kv.1 "request"
                 && match kv.2 with JObj r => dmem r "id" && negb (bool_decide (jget r "id" = JStr ref)) | _ => false end)
        && _matching_ids kv.2 ref) d
  | JArr l => forallb (fun child => _matching_ids child ref) l
  | _ => true
  end.

(** [s.replace(p, "")] for a non-empty [p]. *)
Fixpoint erase (p : string) (skip : nat) (s : string) : string :=
  match s with
  | EmptyString => EmptyString
  | String c s' =>
      match skip with
      | S k => erase p k s'
      | O => if starts_with p s then erase p (String.length p - 1) s' else String c (erase p 0 s')
      end
  end.

(** [int(s, 16)]. *)
Fixpoint underscored16 (l : list ascii) : option (list ascii) :=
  match l with
  | [] => None
  | [c] => if is_hex c then Some [c] else None
  | c :: ("_"%char :: l') as l1 => if is_hex c then (fun r => c :: r) <$> underscored16 l' else None
  | c :: l1 => if is_hex c then (fun r => c :: r) <$> underscored16 l1 else None
  end.

Definition without_prefix (l : list ascii) : list ascii :=
  match l with
  | "0"%char :: ("x" | "X")%char :: "_"%char :: l' => l'
  | "0"%char :: ("x" | "X")%char :: l' => l'
  | _ => l
  end.

Definition int16 (s : string) : res Z :=
  let '(sign, body) := match chars (strip s) with
    | "-"%char :: l => (-1, l) | "+"%char :: l => (1, l) | l => (1, l) end in
  match underscored16 (without_prefix body) with
  | Some ds => Ok (sign * fold_left (fun acc c => acc * 16 + default 0 (hex_val c)) ds 0)
  | None => Raise ValueError
  end.

Fixpoint hex_fixed (n : nat) (z : Z) : string :=
  match n with
  | O => EmptyString
  | S n' => hex_fixed n' (z / 16) +:+ String (hex_digit (z mod 16)) EmptyString
  end.

(** [uuid.UUID(s)] as its number, and [str] of it. *)
Definition is_brace (c : ascii) : bool := is_char "{" c || is_char "}" c.
Definition strip_braces (s : string) : string :=
  of_chars (rev (drop_while is_brace (rev (drop_while is_brace (chars s))))).

Definition uuid_of (s : string) : res Z :=
  let h := erase "-" 0 (strip_braces (erase "uuid:" 0 (erase "urn:" 0 s))) in
  if negb (len h =? 32) then Raise ValueError
  else
    z ← int16 h;
    if (0 <=? z) && (z <? 2 ^ 128) then Ok z else Raise ValueError.

Definition uuid_text (z : Z) : string :=
  hex_fixed 8 (z / 2 ^ 96) +:+ "-" +:+ hex_fixed 4 (z / 2 ^ 80) +:+ "-" +:+ hex_fixed 4 (z / 2 ^ 64) +:+ "-"
  +:+ hex_fixed 4 (z / 2 ^ 48) +:+ "-" +:+ hex_fixed 12 z.

Example uuid_forms :
  uuid_text <$> uuid_of "{12345678-1234-ABCD-1234-567812345678}" = Ok "12345678-1234-abcd-1234-567812345678"%string
  /\ uuid_text <$> uuid_of "urn:uuid:12345678123456781234567812345678" = Ok "12345678-1234-5678-1234-567812345678"%string
  /\ uuid_of "1234" = Raise ValueError.
Proof. by vm_compute. Qed.

(** ** The surface *)

Record nod_surface := NodSurface { n_base : string; n_token : string; n_channel : string }.

Definition nod_url_ok (base_url : string) (url : split_result) : bool :=
  (String.eqb (u_scheme url) "http" || String.eqb (u_scheme url) "https")
  && match u_hostname url with Some h => negb (PyStr.empty h) | None => false end
  && bool_decide (u_credentials url = (None, None))
  && negb (has_char "?" base_url || has_char "#" base_url || has_char "\" base_url)
  && match u_port url with Ok None => true | Ok (Some p) => (0 <? p) && (p <=? 65535) | Raise _ => false end.

Definition init (base_url issuer_token channel : string) : res nod_surface :=
  if existsb (fun c => is_space c || (code c <? 32)) (chars base_url) then Raise ValueError
  else match urlsplit base_url with
       | Ok url => if nod_url_ok base_url url then Ok (NodSurface (rstrip_slash base_url) issuer_token channel)
                   else Raise ValueError
       | Raise _ => Raise ValueError
       end.

Definition from_env (env : dict string) : res (option nod_surface) :=
  match dget env "TOOLSTACK_NOD_URL", dget env "TOOLSTACK_NOD_TOKEN" with
  | Some (String _ _ as url), Some (String _ _ as token) =>
      Some <$> init url token (default "default"%string (dget env "TOOLSTACK_NOD_CHANNEL"))
  | _, _ => Ok None
  end.

Record nod_request := NodRequest { nr_method : string; nr_url : string; nr_token : string; nr_body : option string }.

Class NodTransport (N : Type) := {
  nod_open : N -> nod_request -> opened * N;
  nod_late : N -> bool;
  nod_decode : string -> option string }.

Record nod (N : Type) := NodState { nd_net : N; nd_sent : list nod_request }.
Arguments NodState {N}.
Arguments nd_net {N}.
Arguments nd_sent {N}.

(** An HTTPError, a URLError, and every other exception of a call. *)
Inductive failure := HttpFail (code : Z) | UrlFail | Fail (e : exn).

Definition exn_of (f : failure) : exn :=
  match f with HttpFail _ => OtherExn "HTTPError" | UrlFail => OtherExn "URLError" | Fail e => e end.

(** What a decision says; its fields are the surface's JSON. *)
Record nod_state := NodAnswer { na_outcome : surface_outcome; na_approver : json; na_note : json; na_decided_at : json }.
Definition bare (o : surface_outcome) : nod_state := NodAnswer o JNull JNull JNull.

Definition _to_state (data : dict json) : nod_state :=
  let status := default (JStr "pending") (dget data "status") in
  if bool_decide (status = JStr "expired") then bare so_expired
  else if bool_decide (status = JStr "cancelled") then bare so_cancelled
  else match bool_decide (status = JStr "resolved"), jget data "decision" with
       | true, JObj decision =>
           let pair' := (jget decision "option_id", jget decision "option_kind") in
           let answer o := NodAnswer o (jget decision "actor_user_id") (jget decision "text") (jget decision "resolved_at") in
           if bool_decide (pair' = (JStr "approve", JStr "approve")) then answer so_approved
           else if bool_decide (pair' = (JStr "reject", JStr "reject_with_text")) then answer so_rejected
           else bare so_pending
       | _, _ => bare so_pending
       end.

(** ** The card *)

Definition field (label : string) (value : json) : json := JObj [("label"%string, JStr label); ("value"%string, value)].

Definition opt_field (label : string) (v : option string) : list json :=
  match v with Some (String _ _ as t) => [field label (JStr t)] | _ => [] end.

Definition nl : string := String newline EmptyString.

Definition body_markdown (details : string) : string :=
  "**Allowlisted summary (not the complete request):**" +:+ nl +:+ "```json" +:+ nl +:+ details +:+ nl +:+ "```".

Definition dedupe_key (namespace : Z) (request_id : Z) : string :=
  "toolstack:" +:+ uuid_text namespace +:+ ":" +:+ str_of_Z request_id.

Section Nod.
Context {N : Type} `{NodTransport N}.
(** [str] of a risk that is not a text. *)
Context (py_str : json -> string).

Definition str (v : json) : string := match v with JStr t => t | _ => py_str v end.

Definition payload_of (srf : nod_surface) (c : card) (namespace : Z) : dict json :=
  [("channel_id"%string, JStr (n_channel srf)); ("title"%string, JStr (oc_title c));
   ("summary"%string, JStr (oc_tool c +:+ "." +:+ oc_op c +:+ " " +:+ String (chr 183) (" risk " +:+ str (oc_risk c))));
   ("fields"%string, JArr ([field "Caller" (JStr (oc_caller c)); field "Tool" (JStr (oc_tool c));
      field "Operation" (JStr (oc_op c)); field "Risk" (oc_risk c); field "Policy" (JStr (oc_reason c))]
      ++ opt_field "Endpoint" (oc_endpoint c) ++ opt_field "Full request SHA-256" (oc_request_digest c)
      ++ opt_field "Operation generation" (oc_operation_generation c)));
   ("options"%string, JArr [
      JObj [("id"%string, JStr "approve"); ("label"%string, JStr "Approve"); ("kind"%string, JStr "approve")];
      JObj [("id"%string, JStr "reject"); ("label"%string, JStr "Reject"); ("kind"%string, JStr "reject_with_text");
            ("destructive"%string, JBool true)]]);
   ("dedupe_key"%string, JStr (dedupe_key namespace (oc_request_id c)));
   ("notification"%string, JObj [("redact"%string, JBool true)])]
  ++ match oc_details c with Some (String _ _ as d) => [("body_markdown"%string, JStr (body_markdown d))] | _ => [] end.

(** ** Calls *)

Definition NM (T : Type) : Type := nod N -> (T + failure) * nod N.
#[local] Instance NM_ret : MRet NM := fun _ a s => (inl a, s).
#[local] Instance NM_bind : MBind NM := fun _ _ f m s =>
  match m s with (inl a, s') => f a s' | (inr e, s') => (inr e, s') end.
Definition fail {T} (f : failure) : NM T := fun s => (inr f, s).
Definition of_result {T} (r : res T) : NM T := fun s => (match r with Ok a => inl a | Raise e => inr (Fail e) end, s).

Definition NOD_MAX : Z := 1024 * 1024.

(** The whole body of a response, within the bounds of one operation. *)
Definition nod_read (answers : list read1) : NM string := fun s =>
  match (read_response answers NOD_MAX).1 with
  | Raise e => (inr (Fail e), s)
  | Ok raw => if nod_late (nd_net s) then (inr (Fail TimeoutError), s) else (inl raw, s)
  end.

Definition _call (srf : nod_surface) (method path : string) (body : option json) : NM (dict json) := fun s =>
  let req := NodRequest method (n_base srf +:+ path) (n_token srf) (dumps <$> body) in
  let '(a, n) := nod_open (nd_net s) req in
  (match a with
   | Resp _ _ answers =>
       raw ← nod_read answers;
       if PyStr.empty raw then mret []
       else match nod_decode raw with
            | None => fail (Fail (OtherExn "UnicodeDecodeError"))
            | Some text =>
                match loads text with
                | Raise _ => fail (Fail (OtherExn "JSONDecodeError"))
                | Ok (JObj result) => mret result
                | Ok _ => fail (Fail ValueError)
                end
            end
   | HttpError code _ => fail (HttpFail code)
   | Refused | UrlError _ => fail UrlFail
   | OpenFails e => fail (Fail e)
   end : NM (dict json)) (NodState n (nd_sent s ++ [req])).

Definition open (srf : nod_surface) (c : card) : NM string :=
  match oc_installation_id c with
  | Some (String _ _ as id) =>
      namespace ← of_result (uuid_of id);
      result ← _call srf "POST" "/api/v1/requests" (Some (JObj (payload_of srf c namespace)));
      ref ← of_result (_reference (jget result "request_id"));
      if _matching_ids (JObj result) ref then mret ref else fail (Fail ValueError)
  | _ => fail (Fail ValueError)
  end.

Definition decision_path (ref : string) : string := "/api/v1/requests/" +:+ ref +:+ "/decision".
Definition cancel_path (ref : string) : string := "/api/v1/requests/" +:+ ref +:+ "/cancel".

Definition answer_of (ref : string) (data : dict json) : NM nod_state :=
  if bool_decide (jget data "request_id" = JStr ref) && _matching_ids (JObj data) ref
  then mret (_to_state data) else fail (Fail ValueError).

Definition poll (srf : nod_surface) (ref : string) : NM nod_state :=
  _ ← of_result (_reference (JStr ref));
  ((fun s =>
    match _call srf "GET" (decision_path ref) None s with
    | (inl data, s') => answer_of ref data s'
    | (inr (HttpFail 404), s') => (inl (bare so_expired), s')
    | (inr (HttpFail _), s') | (inr UrlFail, s') => (inr (Fail RuntimeError), s')
    | (inr (Fail e), s') => (inr (Fail e), s')
    end) : NM nod_state).

Definition cancel (srf : nod_surface) (ref : string) : NM unit := fun s =>
  match _reference (JStr ref) with
  | Raise _ => (inl tt, s)
  | Ok _ => let '(_, s') := _call srf "POST" (cancel_path ref) None s in (inl tt, s')
  end.

(** The requests of a broker to its surface. *)
Inductive nod_op := OpOpen (c : card) | OpPoll (ref : string) | OpCancel (ref : string).

Definition run_op (srf : nod_surface) (o : nod_op) (s : nod N) : nod N :=
  match o with
  | OpOpen c => (open srf c s).2
  | OpPoll ref => (poll srf ref s).2
  | OpCancel ref => (cancel srf ref s).2
  end.

Definition run_ops (srf : nod_surface) (os : list nod_op) (s : nod N) : nod N := fold_left (fun s o => run_op srf o s) os s.
End Nod.
