(* ===== verification/NodFacts.v ===== *)
(** What the approval surface guarantees: an approval is the exact answer of
    the service about the request that was asked for, every message goes to the
    configured service, and a dedupe key stands for one request of one
    installation. *)

From stdpp Require Import base tactics list strings.
From Stdlib Require Import ZArith Lia Ascii.
From S2P Require Import Prelude PyStr Json Url UrlFacts Store Broker SpsWire Runtime Nod.

(** ** Identifiers *)

(** The identifiers a reply mentions, at any depth. *)
Inductive mentions : json -> json -> Prop :=
| mention_request_id d id : In ("request_id"%string, id) d -> mentions (JObj d) id
| mention_request d r id : In ("request"%string, JObj r) d -> dget r "id" = Some id -> mentions (JObj d) id
| mention_field d k v id : In (k, v) d -> mentions v id -> mentions (JObj d) id
| mention_item l v id : In v l -> mentions v id -> mentions (JArr l) id.

Lemma request_id_ok r ref :
  dmem r "id" && negb (bool_decide (jget r "id" = JStr ref)) = false <-> (forall id, dget r "id" = Some id -> id = JStr ref).
Proof.
  unfold dmem, jget. destruct (dget r "id") as [v|].
  - rewrite bool_decide_eq_true_2 by eauto. cbn [andb default from_option]. rewrite negb_false_iff, bool_decide_eq_true. split.
    + intros E id [= ->]. done.
    + intros Hv. by apply Hv.
  - rewrite bool_decide_eq_false_2 by by intros [? ?]. done.
Qed.

Lemma field_ids_ok k v ref :
  negb (String.eqb k "request_id" && negb (bool_decide (v = JStr ref)))
  && negb (String.eqb k "request" && match v with JObj r => dmem r "id" && negb (bool_decide (jget r "id" = JStr ref)) | _ => false end) = true
  <-> (k = "request_id"%string -> v = JStr ref) /\ (forall r id, k = "request"%string -> v = JObj r -> dget r "id" = Some id -> id = JStr ref).
Proof.
  rewrite andb_true_iff, !negb_true_iff. split.
  - intros [H1 H2]. split.
    + intros ->. rewrite String.eqb_refl in H1. cbn [andb] in H1. by rewrite negb_false_iff, bool_decide_eq_true in H1.
    + intros r id -> ->. rewrite String.eqb_refl in H2. cbn [andb] in H2. by apply request_id_ok.
  - intros [H1 H2]. split.
    + destruct (String.eqb_spec k "request_id"); [|done]. rewrite bool_decide_eq_true_2 by auto. done.
    + destruct (String.eqb_spec k "request"); [|done]. destruct v; try done. cbn [andb]. apply request_id_ok. eauto.
Qed.

Lemma matching_ids_iff v ref : _matching_ids v ref = true <-> forall id, mentions v id -> id = JStr ref.
Proof.
  induction v as [| b | z | f | t | l IH | d IH] using json_ind'; cbn [_matching_ids].
  1-5: split; [intros _ id Hm; inversion Hm | done].
  - rewrite forallb_forall. rewrite Forall_forall in IH. split.
    + intros H id Hm. inversion Hm; subst. eapply IH; [by apply list_elem_of_In | by apply H | done].
    + intros H v Hv. apply IH; [by apply list_elem_of_In |]. intros id Hm. apply H. by econstructor.
  - rewrite forallb_forall. rewrite Forall_forall in IH. split.
    + intros H id Hm. inversion Hm as [? ? Hin | ? r ? Hin Hg | ? k v ? Hin Hv |]; subst; specialize (H _ Hin); cbn [fst snd] in H;
        apply andb_true_iff in H as [H Hrec]; apply field_ids_ok in H as [H1 H2].
      * by apply H1.
      * by eapply H2.
      * eapply (IH (k, v)); [by apply list_elem_of_In | done | done].
    + intros H [k v] Hin. cbn [fst snd]. apply andb_true_iff. split.
      * apply field_ids_ok. split; [intros -> | intros r id -> -> Hg]; apply H; [by constructor | by eapply mention_request].
      * eapply (IH (k, v)); [by apply list_elem_of_In |]. intros id Hm. apply H. by eapply mention_field.
Qed.

Section Facts.
Context {N : Type} `{NodTransport N}.
Context (py_str : json -> string).
Implicit Types (s : nod N) (srf : nod_surface).

#[local] Existing Instance NM_ret.
#[local] Existing Instance NM_bind.

(** ** Approvals *)

(** The reply [data] approves the request [ref]: it is resolved with the
    issued pair, and names no other request. *)
Record approves (ref : string) (data : dict json) (st : nod_state) : Prop := {
  ap_status : jget data "status" = JStr "resolved";
  ap_decision : exists decision, jget data "decision" = JObj decision
    /\ jget decision "option_id" = JStr "approve" /\ jget decision "option_kind" = JStr "approve"
    /\ st = NodAnswer so_approved (jget decision "actor_user_id") (jget decision "text") (jget decision "resolved_at");
  ap_id : jget data "request_id" = JStr ref;
  ap_ids : forall id, mentions (JObj data) id -> id = JStr ref }.

Lemma to_state_approved data st : _to_state data = st -> na_outcome st = so_approved ->
  jget data "status" = JStr "resolved" /\ exists decision, jget data "decision" = JObj decision
    /\ jget decision "option_id" = JStr "approve" /\ jget decision "option_kind" = JStr "approve"
    /\ st = NodAnswer so_approved (jget decision "actor_user_id") (jget decision "text") (jget decision "resolved_at").
Proof.
  intros <-. unfold _to_state. destruct (dget data "status") as [status|] eqn:Es.
  2: { change (default (JStr "pending") None) with (JStr "pending"). by repeat case_match. }
  change (default (JStr "pending") (Some status)) with status. cbv zeta.
  destruct (bool_decide (status = JStr "expired")); [done |]. destruct (bool_decide (status = JStr "cancelled")); [done |].
  destruct (bool_decide_reflect (status = JStr "resolved")) as [->|]; [|done].
  destruct (jget data "decision") as [| | | | | | decision]; try done.
  cbv zeta. destruct (bool_decide_reflect ((jget decision "option_id", jget decision "option_kind") = (JStr "approve", JStr "approve"))) as [Hp|];
    [|by destruct (bool_decide _)]. injection Hp as H1 H2. intros _. split; [by unfold jget; rewrite Es |].
  exists decision. done.
Qed.

(** C26. A poll answers approved only when the service itself replied so: the
    reply to exactly that poll is a resolved decision with the option and the
    kind that were issued for approval, and every request identifier in it, at
    any depth, is the one that was polled.  An error, a missing request, or
    any other reply never approves. *)
Theorem approval_is_exact srf ref s st s' :
  poll srf ref s = (inl st, s') -> na_outcome st = so_approved ->
  exists data, (_call srf "GET" (decision_path ref) None s).1 = inl data /\ approves ref data st.
Proof.
  unfold poll. unfold mbind, NM_bind, of_result. destruct (_reference (JStr ref)) as [r | e]; [|done].
  destruct (_call srf "GET" (decision_path ref) None s) as [[data | [code | | e]] s1]; cbn [fst].
  - unfold answer_of. destruct (bool_decide_reflect (jget data "request_id" = JStr ref)) as [Hid|]; [|done].
    destruct (_matching_ids (JObj data) ref) eqn:Em; [|done]. cbn [andb]. intros [= Est _] Ho.
    destruct (to_state_approved data st Est Ho) as [? ?]. exists data. split; [done |]. constructor; try done.
    by apply matching_ids_iff.
  - destruct (Z.eq_dec code 404) as [-> | Hne]; [by intros [= <- _] |].
    intros E. exfalso. revert E. repeat (case_match; try done).
  - done.
  - done.
Qed.

(** ** Where the messages go *)

Lemma call_sends srf meth path body s :
  nd_sent (_call srf meth path body s).2
  = nd_sent s ++ [NodRequest meth (n_base srf +:+ path) (n_token srf) (dumps <$> body)].
Proof.
  unfold _call. destruct (nod_open _ _) as [[ct ns l | c l | | r | e] n]; try done.
  unfold mbind, NM_bind, nod_read. destruct (read_response l NOD_MAX).1; [|done].
  destruct (nod_late _); [done |]. by repeat case_match.
Qed.

Lemma word_dash_solid c : is_word_dash c = true -> solid_char c = true.
Proof. destruct c as [[] [] [] [] [] [] [] []]; done. Qed.

Lemma reference_solid v ref : _reference v = Ok ref -> v = JStr ref /\ all_chars solid_char ref = true.
Proof.
  unfold _reference. destruct v as [| | | | t | |]; try done. destruct (word_dash_bounded 1 128 t) eqn:E; [|done].
  intros [= <-]. split; [done |]. unfold word_dash_bounded in E. to_prop.
  eapply all_chars_impl; [apply word_dash_solid | done].
Qed.

Definition requests_path : string := "/api/v1/requests".

(** A request to the service found at [u]. *)
Record at_site srf (u : split_result) (rq : nod_request) : Prop := {
  at_token : nr_token rq = n_token srf;
  at_url : exists p, starts_with requests_path p = true
    /\ urlsplit (nr_url rq) = Ok (SplitResult (u_scheme u) (u_netloc u) (u_path u +:+ p) EmptyString EmptyString) }.

Definition site srf (u : split_result) : Prop :=
  urlsplit (n_base srf) = Ok u /\ plain_base u /\ all_chars solid_char (n_base srf) = true.

Lemma sent_at_site srf u meth p body :
  site srf u -> all_chars solid_char p = true ->
  at_site srf u (NodRequest meth (n_base srf +:+ (requests_path +:+ p)) (n_token srf) body).
Proof.
  intros (Hu & Hb & Hs) Hp. constructor; [done |]. cbn [nr_url]. exists (requests_path +:+ p). split; [apply starts_with_app |].
  apply urlsplit_append; try done.
Qed.

(** [m] sends requests to the site only. *)
Definition stays {T} srf u (m : NM T) : Prop :=
  forall s, Forall (at_site srf u) (nd_sent s) -> Forall (at_site srf u) (nd_sent (m s).2).

Lemma stays_bind {T U} srf u (m : NM T) (f : T -> NM U) :
  stays srf u m -> (forall a, stays srf u (f a)) -> stays srf u (m ≫= f).
Proof.
  intros Hm Hf s Hs. specialize (Hm s Hs). unfold mbind, NM_bind. destruct (m s) as [[a | e] s']; [by apply Hf | done].
Qed.
Lemma stays_pure {T} srf u (m : NM T) : (forall s, (m s).2 = s) -> stays srf u m.
Proof. intros Hm s. by rewrite Hm. Qed.
Lemma stays_call srf u meth p body : site srf u -> all_chars solid_char p = true ->
  stays srf u (_call srf meth (requests_path +:+ p) body).
Proof.
  intros Hu Hp s Hs. rewrite call_sends. apply Forall_app. split; [done |]. apply Forall_singleton. by apply sent_at_site.
Qed.

Lemma path_solid ref t : all_chars solid_char ref = true -> all_chars solid_char t = true ->
  all_chars solid_char ("/" +:+ ref +:+ t) = true.
Proof. intros Hr Ht. rewrite !all_chars_app, Hr, Ht. done. Qed.

Lemma run_op_stays srf u o s : site srf u -> Forall (at_site srf u) (nd_sent s) ->
  Forall (at_site srf u) (nd_sent (run_op py_str srf o s)).
Proof.
  intros Hu Hs. destruct o as [c | ref | ref]; cbn [run_op].
  - revert s Hs. change (stays srf u (open py_str srf c)). unfold open.
    destruct (oc_installation_id c) as [[|a id]|]; [by apply stays_pure | | by apply stays_pure].
    apply stays_bind; [by apply stays_pure |]. intros ns. apply stays_bind; [by apply (stays_call _ _ _ EmptyString) |].
    intros result. apply stays_bind; [by apply stays_pure |]. intros ref. apply stays_pure. intros s. by case_match.
  - revert s Hs. change (stays srf u (poll srf ref)). unfold poll. destruct (_reference (JStr ref)) as [r|e] eqn:Er.
    2: by apply stays_pure.
    destruct (reference_solid _ _ Er) as [[= <-] Hr]. apply stays_bind; [by apply stays_pure |]. intros _ s Hs.
    pose proof (stays_call srf u "GET" ("/" +:+ ref +:+ "/decision") None Hu (path_solid ref "/decision" Hr eq_refl) s Hs) as Hc.
    change (requests_path +:+ _) with (decision_path ref) in Hc.
    destruct (_call srf "GET" (decision_path ref) None s) as [[data | [code | | e]] s1]; cbn [snd] in Hc |- *; try done.
    + unfold answer_of. by case_match.
    + by repeat (case_match; try done).
  - unfold cancel. destruct (_reference (JStr ref)) as [r|e] eqn:Er; [|done].
    destruct (reference_solid _ _ Er) as [[= <-] Hr].
    pose proof (stays_call srf u "POST" ("/" +:+ ref +:+ "/cancel") None Hu (path_solid ref "/cancel" Hr eq_refl) s Hs) as Hc.
    change (requests_path +:+ _) with (cancel_path ref) in Hc. by destruct (_call _ _ _ _ _).
Qed.

(** What a base URL that was accepted is. *)
Lemma solid_base base : existsb (fun c => is_space c || (code c <? 32)) (chars base) = false ->
  has_char "?" base || has_char "#" base = false -> all_chars solid_char base = true.
Proof.
  intros Hsp [Hq Hh]%orb_false_iff. apply all_chars_spec. intros c Hc.
  assert (is_space c || (code c <? 32) = false) as Hs.
  { destruct (_ || _) eqn:E; [|done]. rewrite <- Hsp. symmetry. apply existsb_exists. eauto. }
  assert (forall d, has_char d base = false -> is_char d c = false) as Hne.
  { intros d Hd. destruct (is_char d c) eqn:E; [|done]. rewrite <- Hd. symmetry. apply existsb_exists. eauto. }
  unfold solid_char, path_char, query_char. rewrite (Hne _ Hq), (Hne _ Hh). clear -Hs.
  destruct c as [[] [] [] [] [] [] [] []]; done.
Qed.

Lemma urlsplit_solid url u : urlsplit url = Ok u -> all_chars solid_char url = true -> u_query u = EmptyString /\ u_fragment u = EmptyString.
Proof.
  intros Hu Hs. rewrite urlsplit_eq, clean_solid in Hu by done.
  destruct (split_scheme url) as [sch rest] eqn:E1. destruct (split_netloc rest) as [n r] eqn:E2.
  destruct (netloc_ok n); [|done]. injection Hu as <-. rewrite split_rest_path; [done |].
  pose proof (split_netloc_suffix _ _ _ _ E2 (split_scheme_suffix _ _ _ _ E1 Hs)) as Hr.
  eapply all_chars_impl; [|exact Hr]. unfold solid_char. by intros c [_ ?]%andb_true_iff.
Qed.

Lemma init_site base token channel srf : init base token channel = Ok srf ->
  exists u0 u, urlsplit base = Ok u0 /\ n_token srf = token
    /\ u_scheme u = u_scheme u0 /\ u_netloc u = u_netloc u0 /\ site srf u.
Proof.
  unfold init. destruct (existsb _ (chars base)) eqn:Esp; [done |]. destruct (urlsplit base) as [u0 | e] eqn:Eu; [|done].
  destruct (nod_url_ok base u0) eqn:Eok; [|done]. intros [= <-]. unfold nod_url_ok in Eok.
  apply andb_true_iff in Eok as [Eok _]. apply andb_true_iff in Eok as [Eok Hch]. apply andb_true_iff in Eok as [Eok _].
  apply andb_true_iff in Eok as [Hsch Hhost]. apply negb_true_iff, orb_false_iff in Hch as [Hch _].
  pose proof (solid_base _ Esp Hch) as Hs. destruct (urlsplit_solid _ _ Eu Hs) as [Hq Hf].
  assert (plain_base u0) as Hb.
  { split; [|split; [|done]].
    - apply orb_true_iff in Hsch as [?%String.eqb_eq | ?%String.eqb_eq]; [by left | by right].
    - destruct (u_netloc u0) eqn:En; [|done]. unfold u_hostname in Hhost. by rewrite En in Hhost. }
  destruct (urlsplit_rstrip _ _ Eu Hb) as (u & Hu & Es & En & Eq & Ef). exists u0, u.
  split; [done |]. split; [done |]. split; [done |]. split; [done |]. split; [done |]. split.
  - unfold plain_base. rewrite Es, En. by destruct Hb as (? & ? & _).
  - cbn [n_base]. destruct (rstrip_slash_spec base) as [k Hk]. rewrite Hk, all_chars_app in Hs.
    by apply andb_true_iff in Hs as [? _].
Qed.

(** Every request of a surface goes to the service it was configured
    for: over any sequence of openings, polls and cancellations, with any
    identifiers, each URL is parsed by its receiver as the scheme and authority
    of the configured base URL and a path below it, and carries the issuer's
    token. *)
Theorem surface_stays_home base token channel srf (os : list nod_op) n :
  init base token channel = Ok srf ->
  exists u0 u, urlsplit base = Ok u0 /\ u_scheme u = u_scheme u0 /\ u_netloc u = u_netloc u0 /\ n_token srf = token
    /\ Forall (at_site srf u) (nd_sent (run_ops py_str srf os (NodState n []))).
Proof.
  intros Hi. destruct (init_site _ _ _ _ Hi) as (u0 & u & H0 & Ht & Es & En & Hu). exists u0, u.
  split; [done |]. split; [done |]. split; [done |]. split; [done |]. unfold run_ops.
  assert (Forall (at_site srf u) (nd_sent (NodState n []))) as Hs by constructor. revert Hs.
  generalize (NodState n (@nil nod_request)) as s. induction os as [|o os IH]; intros s Hs; [done |].
  cbn [fold_left]. apply IH. by apply run_op_stays.
Qed.
End Facts.

(** ** Dedupe keys *)

Lemma hex_digit_inj a b : 0 <= a < 16 -> 0 <= b < 16 -> hex_digit a = hex_digit b -> a = b.
Proof.
  intros Ha Hb E. apply (f_equal code) in E. unfold hex_digit in E.
  destruct (Z.ltb_spec a 10), (Z.ltb_spec b 10); rewrite !code_chr in E by lia; lia.
Qed.

Lemma string_app_inj (a b c d : string) : String.length a = String.length b -> a +:+ c = b +:+ d -> a = b /\ c = d.
Proof.
  revert b. induction a as [|x a IH]; intros [|y b] Hl; try done.
  rewrite !str_cons_app. intros [= -> E]. injection Hl as Hl. by destruct (IH b Hl E) as [-> ->].
Qed.

Lemma hex_fixed_length n z : String.length (hex_fixed n z) = n.
Proof.
  revert z. induction n as [|n IH]; intros z; [done |]. cbn [hex_fixed].
  rewrite <- length_chars, chars_app, length_app, length_chars, IH. simpl. lia.
Qed.

Lemma hex_fixed_inj n a b : hex_fixed n a = hex_fixed n b -> a mod 16 ^ Z.of_nat n = b mod 16 ^ Z.of_nat n.
Proof.
  revert a b. induction n as [|n IH]; intros a b E; [by rewrite !Z.mod_1_r |]. cbn [hex_fixed] in E.
  apply string_app_inj in E as [E1%IH [= E2]]; [|by rewrite !hex_fixed_length].
  apply hex_digit_inj in E2; [|by apply Z.mod_pos_bound ..].
  rewrite Nat2Z.inj_succ, Z.pow_succ_r by lia. rewrite !Z.rem_mul_r by lia. by rewrite E1, E2.
Qed.

Lemma uuid_text_length z : String.length (uuid_text z) = 36%nat.
Proof.
  unfold uuid_text. rewrite <- !length_chars, !chars_app, !length_app, !length_chars, !hex_fixed_length. done.
Qed.

Lemma mod_split z a b : 0 <= a -> 0 <= b -> z mod 2 ^ (a + b) = z mod 2 ^ a + 2 ^ a * ((z / 2 ^ a) mod 2 ^ b).
Proof. intros Ha Hb. rewrite Z.pow_add_r by done. apply Z.rem_mul_r; lia. Qed.

Lemma uuid_text_inj x y : 0 <= x < 2 ^ 128 -> 0 <= y < 2 ^ 128 -> uuid_text x = uuid_text y -> x = y.
Proof.
  intros Hx Hy E. unfold uuid_text in E.
  apply string_app_inj in E as [E1%hex_fixed_inj E%str_app_inj_l]; [|by rewrite !hex_fixed_length].
  apply string_app_inj in E as [E2%hex_fixed_inj E%str_app_inj_l]; [|by rewrite !hex_fixed_length].
  apply string_app_inj in E as [E3%hex_fixed_inj E%str_app_inj_l]; [|by rewrite !hex_fixed_length].
  apply string_app_inj in E as [E4%hex_fixed_inj E%str_app_inj_l]; [|by rewrite !hex_fixed_length].
  apply hex_fixed_inj in E as E5. clear E.
  assert (forall z, 0 <= z < 2 ^ 128 -> z = z mod 2 ^ 48 + 2 ^ 48 * ((z / 2 ^ 48) mod 2 ^ 16)
    + 2 ^ 64 * ((z / 2 ^ 64) mod 2 ^ 16) + 2 ^ 80 * ((z / 2 ^ 80) mod 2 ^ 16) + 2 ^ 96 * ((z / 2 ^ 96) mod 2 ^ 32)) as Hz.
  { intros z Hz. pose proof (mod_split z 48 16 ltac:(lia) ltac:(lia)) as H1. pose proof (mod_split z 64 16 ltac:(lia) ltac:(lia)) as H2.
    pose proof (mod_split z 80 16 ltac:(lia) ltac:(lia)) as H3. pose proof (mod_split z 96 32 ltac:(lia) ltac:(lia)) as H4.
    change (96 + 32) with 128 in H4. change (80 + 16) with 96 in H3. change (64 + 16) with 80 in H2. change (48 + 16) with 64 in H1.
    rewrite (Z.mod_small z (2 ^ 128)) in H4 by exact Hz. rewrite H4 at 1. rewrite H3, H2, H1. ring. }
  rewrite (Hz x Hx), (Hz y Hy).
  change (16 ^ Z.of_nat 8) with (2 ^ 32) in E1. change (16 ^ Z.of_nat 4) with (2 ^ 16) in *. change (16 ^ Z.of_nat 12) with (2 ^ 48) in E5.
  by rewrite E1, E2, E3, E4, E5.
Qed.

(** A dedupe key stands for one request of one installation: surfaces
    that remember keys can neither merge two requests of a broker nor mix up
    two brokers. *)
Theorem dedupe_key_injective ns ns' id id' :
  0 <= ns < 2 ^ 128 -> 0 <= ns' < 2 ^ 128 -> 0 <= id -> 0 <= id' ->
  dedupe_key ns id = dedupe_key ns' id' -> ns = ns' /\ id = id'.
Proof.
  intros Hn Hn' Hi Hi' E. unfold dedupe_key in E. apply str_app_inj_l in E.
  apply string_app_inj in E as [E1 E2%str_app_inj_l]; [|by rewrite !uuid_text_length]. split; [by apply uuid_text_inj |].
  apply (f_equal digits_to_Z) in E2. by rewrite !digits_str_of_Z in E2.
Qed.

Lemma uuid_of_range s z : uuid_of s = Ok z -> 0 <= z < 2 ^ 128.
Proof.
  unfold uuid_of. destruct (negb _); [done |]. destruct (int16 _) as [v | e]; [|done].
  cbn [mbind res_bind]. destruct (_ && _) eqn:E; [|done]. intros [= <-]. apply andb_true_iff in E as [? ?]. lia.
Qed.

(** ** Witnesses *)

(** A service that answers every request with one reply. *)
#[local] Instance w_nod : NodTransport (dict json) := {
  nod_open n _ := (Resp "application/json" None [Bytes (dumps (JObj n))], n);
  nod_late _ := false;
  nod_decode := Some }.

Definition w_reply : dict json :=
  [("request_id"%string, JStr "r1"); ("status"%string, JStr "resolved");
   ("request"%string, JObj [("id"%string, JStr "r1")]);
   ("decision"%string, JObj [("option_id"%string, JStr "approve"); ("option_kind"%string, JStr "approve");
                             ("actor_user_id"%string, JStr "ann")])].

Definition w_srf : nod_surface := NodSurface "https://nod.example:8443/base" "t0" "default".

Lemma approval_is_exact_witness :
  exists data, (_call w_srf "GET" (decision_path "r1") None (NodState w_reply [])).1 = inl data
    /\ approves "r1" data (NodAnswer so_approved (JStr "ann") JNull JNull).
Proof.
  eapply (approval_is_exact w_srf "r1" (NodState w_reply []) _ _); [vm_compute; reflexivity | reflexivity].
Defined.

Lemma surface_stays_home_witness :
  exists u0 u, urlsplit "https://nod.example:8443/base/" = Ok u0 /\ u_scheme u = u_scheme u0 /\ u_netloc u = u_netloc u0
    /\ n_token w_srf = "t0"%string
    /\ Forall (at_site w_srf u)
         (nd_sent (run_ops (fun _ => EmptyString) w_srf [OpPoll "r1"; OpCancel "../x"; OpCancel "r2"] (NodState w_reply []))).
Proof.
  apply (surface_stays_home (fun _ => EmptyString) "https://nod.example:8443/base/" "t0" "default" w_srf).
  vm_compute. reflexivity.
Defined.

Lemma dedupe_key_injective_witness : 5 = 5 /\ 7 = 7.
Proof. apply (dedupe_key_injective 5 5 7 7); try lia. reflexivity. Defined.
