(* ===== verification/AdminAuth.v ===== *)
(** admin/auth.py, with the files of admin/settings.py it works on and the two
    middlewares of admin/server.py that guard every request: password hashes,
    signed sessions and their revocation, CSRF tokens, the host check.

    scrypt, HMAC and UTF-8 are parameters.  Times are whole seconds. *)

From stdpp Require Import base tactics list strings.
From Stdlib Require Import ZArith Lia Ascii.
From S2P Require Import Prelude PyStr Base64 Json Ip Url.

(** [hmac_hex key message] is the hexadecimal HMAC-SHA256 of the encoded texts;
    [scrypt password salt n r p] is [None] for parameters it refuses. *)
Class Crypto := {
  hmac_hex : string -> string -> string;
  scrypt : string -> string -> Z -> Z -> Z -> option string;
  encode_utf8 : string -> string;
  decode_utf8 : string -> option string }.

(** ** Passwords *)

(** [s.split(sep, n)]. *)
Fixpoint split_max (n : nat) (sep : ascii) (s : string) : list string :=
  match n with
  | O => [s]
  | S n' => let '(h, found, t) := partition_char sep s in if found then h :: split_max n' sep t else [h]
  end.

(** [base64.urlsafe_b64decode(s.encode("ascii"))]. *)
Definition ascii_b64decode (s : string) : option string := if isascii s then urlsafe_b64decode s else None.

Definition res_option {A} (r : res A) : option A := match r with Ok a => Some a | Raise _ => None end.

Section Auth.
Context `{Crypto}.

Definition hash_password (password salt : string) : option string :=
  digest ← scrypt password salt 16384 8 1;
  Some (join "$" ["scrypt"; "16384"; "8"; "1"; urlsafe_b64encode salt; urlsafe_b64encode digest]%string).

Definition verify_password (password encoded : string) : bool :=
  match split_max 5 "$" encoded with
  | [scheme; raw_n; raw_r; raw_p; raw_salt; raw_digest] =>
      if negb (String.eqb scheme "scrypt") then false
      else
        match (salt ← ascii_b64decode raw_salt; expected ← ascii_b64decode raw_digest;
               n ← res_option (py_int raw_n); r ← res_option (py_int raw_r); p ← res_option (py_int raw_p);
               actual ← scrypt password salt n r p; Some (actual, expected)) with
        | Some (actual, expected) => String.eqb actual expected
        | None => false
        end
  | _ => false
  end.

(** ** Sessions *)

(** What [settings.config_dir()] holds: the session key and the revocations,
    which may be missing or unreadable. *)
Inductive revocations := NoFile | Contents (text : string) | Unreadable.

Record admin_files := AdminFiles { f_secret : string; f_revoked : revocations }.

Definition is_int (v : json) : bool := match v with JInt _ | JBool _ => true | _ => false end.
Definition int_value (v : json) : Z := match v with JInt z => z | JBool true => 1 | _ => 0 end.

Definition _revoked_sessions (f : revocations) : res (dict json) :=
  match f with
  | NoFile => Ok []
  | Unreadable => Raise (OtherExn "OSError")
  | Contents text =>
      match loads text with
      | Ok (JObj data) => if forallb (fun kv => is_int kv.2) data then Ok data else Raise ValueError
      | _ => Raise ValueError
      end
  end.

Definition session_message (username : string) (expires_at : Z) (session_id : string) : string :=
  username +:+ "|" +:+ str_of_Z expires_at +:+ "|" +:+ session_id.

Definition signature_of (secret message : string) : string := hmac_hex secret ("session|" +:+ message).

(** [sign_session] at the time [now], with the random [session_id]. *)
Definition sign_session (now : Z) (session_id username secret : string) (ttl_seconds : Z) : string :=
  let message := session_message username (now + ttl_seconds) session_id in
  urlsafe_b64encode (encode_utf8 (message +:+ "|" +:+ signature_of secret message)).

Definition session_id_ok (session_id : string) : bool := lower_hex_bounded 32 32 session_id.

(** The fields of a cookie: user, expiry, session id and signature. *)
Definition session_fields (cookie : string) : option (string * Z * string * string) :=
  bytes ← ascii_b64decode cookie;
  decoded ← decode_utf8 bytes;
  match split_char "|" decoded with
  | [username; raw_expires; session_id; signature] =>
      expires_at ← res_option (py_int raw_expires);
      if session_id_ok session_id then Some (username, expires_at, session_id, signature) else None
  | _ => None
  end.

Definition verify_session (now : Z) (f : revocations) (cookie : option string) (secret : string) : option string :=
  match cookie with
  | Some (String _ _ as cookie) =>
      match session_fields cookie with
      | Some (username, expires_at, session_id, signature) =>
          if expires_at <? now then None
          else
            let expected := signature_of secret (session_message username expires_at session_id) in
            if negb (isascii signature) || negb (String.eqb signature expected) then None
            else match _revoked_sessions f with
                 | Ok revoked => if dmem revoked session_id then None else Some username
                 | Raise _ => None
                 end
      | None => None
      end
  | _ => None
  end.

Definition MAX_REVOKED : Z := 4096.

(** [revoke_session] under the file lock; [now] is the time of its checks and
    [fresh] the secret a rotation would draw. *)
Definition revoke_session (now : Z) (fresh token secret : string) (f : admin_files) : res unit * admin_files :=
  match verify_session now (f_revoked f) (Some token) secret with
  | None => (Ok tt, f)
  | Some _ =>
      match session_fields token, _revoked_sessions (f_revoked f) with
      | Some (_, expiry, session_id, _), Ok data =>
          let revoked := List.filter (fun kv => now <=? int_value kv.2) data in
          if MAX_REVOKED <=? Z.of_nat (length revoked)
          then (Ok tt, AdminFiles fresh (Contents (dumps (JObj []))))
          else (Ok tt, AdminFiles (f_secret f) (Contents (dumps (JObj (dset revoked session_id (JInt expiry))))))
      | _, Raise e => (Raise e, f)
      | None, _ => (Raise ValueError, f)
      end
  end.

(** settings.rotate_session_secret. *)
Definition rotate_session_secret (fresh : string) (f : admin_files) : admin_files := AdminFiles fresh (f_revoked f).

(** ** CSRF *)

Definition csrf_token (session_value secret : string) : string := hmac_hex secret ("csrf-v1|" +:+ session_value).

Definition verify_csrf (token session_value : option string) (secret : string) : bool :=
  match token, session_value with
  | Some (String _ _ as token), Some (String _ _ as session_value) =>
      isascii token && String.eqb token (csrf_token session_value secret)
  | _, _ => false
  end.
End Auth.

(** ** The middlewares of create_app *)

(** The values of the Host header of a request. *)
Definition request_host (hosts : list string) : option string :=
  match urlsplit ("//" +:+ hd EmptyString hosts) with
  | Ok authority =>
      if bool_decide (length hosts = 1%nat) && bool_decide (u_credentials authority = (None, None))
         && PyStr.empty (u_path authority) && PyStr.empty (u_query authority) && PyStr.empty (u_fragment authority)
      then u_hostname authority else None
  | Raise _ => None
  end.

Definition trusted_host (admin_host : string) (hosts : list string) : bool :=
  match request_host hosts with
  | Some host => existsb (String.eqb host) ["localhost"; "127.0.0.1"; "::1"; lower admin_host]%string
  | None => false
  end.

(** The session key of a request: a missing or empty key refuses it. *)
Definition session_generation (key_file : option string) : option string :=
  match key_file with
  | Some text => if PyStr.empty (strip text) then None else Some (strip text)
  | None => None
  end.

(** ** settings.py *)

Definition env_or (env : dict string) (name default_ : string) : string :=
  match dget env name with Some (String _ _ as v) => v | _ => default_ end.

Definition truthy_flag (env : dict string) (name : string) : bool :=
  existsb (String.eqb (lower (default EmptyString (dget env name)))) ["1"; "true"; "yes"]%string.

Definition admin_username (env : dict string) : string := default "admin"%string (dget env "TOOLSTACK_ADMIN_USERNAME").

Definition _is_loopback (host : string) : bool :=
  String.eqb host "localhost" || match ip_address host with Some a => is_loopback a | None => false end.

Definition allow_nonloopback (env : dict string) : bool := truthy_flag env "TOOLSTACK_ADMIN_ALLOW_NONLOOPBACK".
Definition cookie_secure (env : dict string) : bool := truthy_flag env "TOOLSTACK_ADMIN_SECURE_COOKIE".

(** [None] is the SystemExit that refuses to start. *)
Definition admin_host (env : dict string) : option string :=
  let host := env_or env "TOOLSTACK_ADMIN_HOST" "127.0.0.1" in
  if negb (_is_loopback host) && negb (allow_nonloopback env) then None else Some host.

Definition session_ttl_seconds (env : dict string) : res Z :=
  py_int (default "43200"%string (dget env "TOOLSTACK_ADMIN_SESSION_TTL")).
