(* ===== verification/AdminAuthFacts.v ===== *)
(** What the admin's sessions guarantee: a password verifies against its own
    hash, a signed session verifies until it expires, a revoked one never does
    again, and the revocation file is bounded. *)

From stdpp Require Import base tactics list strings.
From Stdlib Require Import ZArith Lia Ascii.
From S2P Require Import Prelude PyStr Base64 Json JsonFacts Action Template AdminAuth.

(** ** Texts *)

Lemma isascii_urlsafe s : isascii (urlsafe_b64encode s) = true.
Proof.
  unfold isascii, all_chars, urlsafe_b64encode. rewrite chars_of_chars. unfold b64encode. rewrite chars_of_chars, forallb_forall.
  intros c (d & <- & Hd)%in_map_iff.
  assert (forallb (fun d => code (to_urlsafe d) <? 128) (b64_encode_l (chars s)) = true) as Hall.
  { apply encode_alphabet; [done |]. apply sextets_forall. by vm_compute. }
  rewrite forallb_forall in Hall. by apply Hall.
Qed.

Lemma ascii_b64decode_encode s : ascii_b64decode (urlsafe_b64encode s) = Some s.
Proof. unfold ascii_b64decode. by rewrite isascii_urlsafe, urlsafe_b64decode_encode. Qed.

Lemma urlsafe_no_dollar s : ~ In "$"%char (chars (urlsafe_b64encode s)).
Proof.
  apply all_chars_not_in with (p := fun c => negb (is_char "$" c)); [|done].
  unfold all_chars, urlsafe_b64encode, b64encode. rewrite !chars_of_chars, forallb_forall. intros c (d & <- & Hd)%in_map_iff.
  assert (forallb (fun d => negb (is_char "$" (to_urlsafe d))) (b64_encode_l (chars s)) = true) as Hall.
  { apply encode_alphabet; [done |]. apply (sextets_forall (fun v => negb (is_char "$" (to_urlsafe (b64_char v))))). by vm_compute. }
  rewrite forallb_forall in Hall. by apply Hall.
Qed.

Lemma split_max_at n sep h t : ~ In sep (chars h) -> split_max (S n) sep (h +:+ String sep t) = h :: split_max n sep t.
Proof. intros Hh. cbn [split_max]. by rewrite partition_char_at. Qed.

Lemma urlsafe_nonempty c s : urlsafe_b64encode (String c s) <> EmptyString.
Proof.
  unfold urlsafe_b64encode, b64encode. rewrite chars_of_chars.
  change (chars (String c s)) with (c :: chars s). by destruct (chars s) as [|? []].
Qed.

Section Facts.
Context `{Crypto}.

(** ** Passwords *)

(** A password verifies against a stored hash exactly when scrypt maps it,
    with the stored salt and cost, to the stored digest. *)
Theorem password_verifies password password' salt encoded :
  hash_password password salt = Some encoded ->
  (verify_password password' encoded = true <-> scrypt password' salt 16384 8 1 = scrypt password salt 16384 8 1).
Proof.
  unfold hash_password. destruct (scrypt password salt 16384 8 1) as [digest|]; [|done].
  cbn [mbind option_bind]. intros E. apply (inj Some) in E. subst encoded. unfold verify_password.
  assert (split_max 5 "$" (join "$" ["scrypt"; "16384"; "8"; "1"; urlsafe_b64encode salt; urlsafe_b64encode digest]%string)
    = ["scrypt"; "16384"; "8"; "1"; urlsafe_b64encode salt; urlsafe_b64encode digest]%string) as ->.
  { change (join _ _) with ("scrypt" +:+ String "$" ("16384" +:+ String "$" ("8" +:+ String "$" ("1" +:+ String "$"
      (urlsafe_b64encode salt +:+ String "$" (urlsafe_b64encode digest +:+ EmptyString)))))).
    rewrite !split_max_at by (apply urlsafe_no_dollar || (simpl; intuition congruence)). by rewrite str_app_nil. }
  cbn [String.eqb negb]. rewrite !ascii_b64decode_encode.
  change (py_int "16384") with (@Ok Z 16384). change (py_int "8") with (@Ok Z 8). change (py_int "1") with (@Ok Z 1).
  change (negb (String.eqb "scrypt" "scrypt")) with false. cbn [res_option mbind option_bind].
  destruct (scrypt password' salt 16384 8 1) as [actual|]; [|done].
  split; [by intros ->%String.eqb_eq | intros [= ->]; apply String.eqb_refl].
Qed.

(** ** Sessions *)

(** What is relied on of UTF-8 and of a hexadecimal digest. *)
Record crypto_laws : Prop := {
  cl_utf8 : forall s, decode_utf8 (encode_utf8 s) = Some s;
  cl_empty : encode_utf8 EmptyString = EmptyString;
  cl_hex : forall k m, all_chars is_lower_hex (hmac_hex k m) = true }.

Lemma hex_no_bar s : all_chars is_lower_hex s = true -> ~ In "|"%char (chars s).
Proof. intros Hs. by eapply all_chars_not_in. Qed.

Lemma digits_no_bar s : all_chars is_digit s = true -> ~ In "|"%char (chars s).
Proof. intros Hs. by eapply all_chars_not_in. Qed.

Lemma hex_isascii s : all_chars is_lower_hex s = true -> isascii s = true.
Proof.
  apply all_chars_impl. intros c. unfold is_lower_hex, is_digit, between. intros Hc. apply Z.ltb_lt.
  apply orb_true_iff in Hc as [Hc | Hc]; to_prop; lia.
Qed.

Definition expiry_ok (z : Z) : Prop := 0 <= z /\ len (str_of_Z z) <= 4300.

Lemma split_bars h a b g : ~ In "|"%char (chars h) -> ~ In "|"%char (chars a) -> ~ In "|"%char (chars b) ->
  ~ In "|"%char (chars g) -> split_char "|" ((h +:+ "|" +:+ a +:+ "|" +:+ b) +:+ "|" +:+ g) = [h; a; b; g].
Proof.
  intros Hh Ha Hb Hg. rewrite !str_assoc.
  change (split_char "|" (h +:+ String "|" (a +:+ String "|" (b +:+ String "|" g))) = [h; a; b; g]).
  rewrite !split_char_at by done. by rewrite split_char_none.
Qed.

Lemma session_fields_sign now sid username secret ttl :
  crypto_laws -> ~ In "|"%char (chars username) -> session_id_ok sid = true -> expiry_ok (now + ttl) ->
  session_fields (sign_session now sid username secret ttl)
  = Some (username, now + ttl, sid, signature_of secret (session_message username (now + ttl) sid)).
Proof.
  intros [Hu _ Hh] Hn Hs [Hz Hl]. unfold session_fields, sign_session. cbv zeta. rewrite ascii_b64decode_encode.
  cbn [mbind option_bind]. rewrite Hu. cbn [mbind option_bind].
  destruct (str_of_Z_digits _ Hz) as [Hd _].
  assert (all_chars is_lower_hex sid = true) as Hx.
  { unfold session_id_ok, lower_hex_bounded in Hs. apply andb_true_iff in Hs as [Hs _]. by apply andb_true_iff in Hs as [? _]. }
  unfold session_message, signature_of. rewrite split_bars by (first [done | by apply digits_no_bar | by apply hex_no_bar | apply hex_no_bar, Hh]).
  rewrite py_int_str_of_Z by done. cbn [res_option mbind option_bind]. by rewrite Hs.
Qed.

Lemma sign_session_ne now sid username secret ttl :
  crypto_laws -> sign_session now sid username secret ttl <> EmptyString.
Proof.
  intros [Hu He _] E. apply (f_equal ascii_b64decode) in E. unfold sign_session in E. cbv zeta in E.
  rewrite ascii_b64decode_encode in E. change (ascii_b64decode EmptyString) with (Some EmptyString) in E.
  apply (inj Some) in E. apply (f_equal decode_utf8) in E. pose proof (Hu EmptyString) as H0. rewrite He in H0. rewrite Hu, H0 in E. apply (inj Some) in E.
  apply (f_equal len) in E. rewrite !len_app in E. change (len "|") with 1 in E. change (len EmptyString) with 0 in E.
  pose proof (len_nonneg (session_message username (now + ttl) sid)).
  pose proof (len_nonneg (signature_of secret (session_message username (now + ttl) sid))). lia.
Qed.


(** A session that was signed verifies, as its user, exactly until it
    expires, while the key is the same and it is not revoked. *)
Theorem session_roundtrip now now' sid username secret ttl f data :
  crypto_laws -> ~ In "|"%char (chars username) -> session_id_ok sid = true -> expiry_ok (now + ttl) ->
  _revoked_sessions f = Ok data ->
  verify_session now' f (Some (sign_session now sid username secret ttl)) secret
  = if (now' <=? now + ttl) && negb (dmem data sid) then Some username else None.
Proof.
  intros Hl Hn Hs He Hf. pose proof (session_fields_sign now sid username secret ttl Hl Hn Hs He) as E.
  unfold verify_session. destruct (sign_session now sid username secret ttl) as [|c t] eqn:Ec; [by destruct (sign_session_ne now sid username secret ttl Hl) |].
  rewrite E. destruct (Z.ltb_spec (now + ttl) now'), (Z.leb_spec now' (now + ttl)); try lia; [done |].
  rewrite hex_isascii by apply (cl_hex Hl). rewrite String.eqb_refl, Hf. cbn [negb orb andb]. by destruct (dmem data sid).
Qed.

(** ** Revocation *)

Lemma revoked_written d : dict_wf d -> forallb (fun kv => is_int kv.2) d = true -> _revoked_sessions (Contents (dumps (JObj d))) = Ok d.
Proof.
  intros Hw Hi. unfold _revoked_sessions, dumps. rewrite loads_dump; [by rewrite Hi | by right |].
  constructor; [done |]. apply List.Forall_forall. intros [k v] Hin. rewrite forallb_forall in Hi. specialize (Hi _ Hin).
  destruct v; try done; constructor.
Qed.

(** The files this program writes. *)
Inductive written : revocations -> dict json -> Prop :=
| written_none : written NoFile []
| written_text d : dict_wf d -> forallb (fun kv => is_int kv.2) d = true -> written (Contents (dumps (JObj d))) d.

Lemma written_read f d : written f d -> _revoked_sessions f = Ok d /\ dict_wf d /\ forallb (fun kv => is_int kv.2) d = true.
Proof. intros [|d' Hw Hi]; [by repeat split; try constructor | by rewrite revoked_written]. Qed.

Lemma filter_wf {A} (p : string * A -> bool) (d : dict A) : dict_wf d -> dict_wf (List.filter p d).
Proof.
  unfold dict_wf, dkeys. induction d as [|kv d IH]; intros Hd; [done |]. cbn [map] in Hd. apply NoDup_cons in Hd as [Hn Hd].
  cbn [List.filter]. destruct (p kv); [|by apply IH]. cbn [map]. apply NoDup_cons. split; [|by apply IH].
  intros Hin. apply Hn. apply list_elem_of_In in Hin. apply list_elem_of_In.
  apply in_map_iff in Hin as (kv' & <- & [Hkv _]%filter_In). by apply in_map.
Qed.

Lemma filter_keeps {A} (p : string * A -> bool) (d : dict A) k v :
  dict_wf d -> dget d k = Some v -> p (k, v) = true -> dget (List.filter p d) k = Some v.
Proof.
  intros Hw Hg Hp. apply dget_wf_In; [by apply filter_wf |]. apply filter_In. split; [by apply dget_In | done].
Qed.

Lemma filter_ints (p : string * json -> bool) d :
  forallb (fun kv => is_int kv.2) d = true -> forallb (fun kv => is_int kv.2) (List.filter p d) = true.
Proof. rewrite !forallb_forall. intros Hall kv [Hin _]%filter_In. by apply Hall. Qed.

Lemma dset_ints d k z : forallb (fun kv => is_int kv.2) d = true -> forallb (fun kv => is_int kv.2) (dset d k (JInt z)) = true.
Proof.
  rewrite !forallb_forall. intros Hall [k' v'] [[-> ->] | Hin]%In_dset; [done | by apply (Hall _ Hin)].
Qed.

(** One step of the program on its files. *)
Inductive auth_op := OpRevoke (now : Z) (fresh token secret : string) | OpRotate (now : Z) (fresh : string).

Definition op_time (o : auth_op) : Z := match o with OpRevoke now _ _ _ | OpRotate now _ => now end.
Definition op_draws (o : auth_op) : string := match o with OpRevoke _ fresh _ _ | OpRotate _ fresh => fresh end.
Definition run_auth (o : auth_op) (f : admin_files) : admin_files :=
  match o with
  | OpRevoke now fresh token secret => (revoke_session now fresh token secret f).2
  | OpRotate _ fresh => rotate_session_secret fresh f
  end.
Definition run_auths (os : list auth_op) (f : admin_files) : admin_files := fold_left (fun f o => run_auth o f) os f.

(** Times do not go back. *)
Fixpoint timely (t : Z) (os : list auth_op) : Prop :=
  match os with [] => True | o :: os' => t <= op_time o /\ timely (op_time o) os' end.
Definition last_time (t : Z) (os : list auth_op) : Z := fold_left (fun _ o => op_time o) os t.

Lemma revoke_cases now fresh token secret f d :
  written (f_revoked f) d ->
  (revoke_session now fresh token secret f).2 = f
  \/ (revoke_session now fresh token secret f).2 = AdminFiles fresh (Contents (dumps (JObj [])))
  \/ exists user expiry sid sig, session_fields token = Some (user, expiry, sid, sig)
      /\ (revoke_session now fresh token secret f).2
         = AdminFiles (f_secret f) (Contents (dumps (JObj (dset (List.filter (fun kv => now <=? int_value kv.2) d) sid (JInt expiry))))).
Proof.
  intros (Hr & Hw & Hi)%written_read. unfold revoke_session. destruct (verify_session _ _ _ _); [|by left].
  destruct (session_fields token) as [[[[user expiry] sid] sig]|]; rewrite Hr; [|by left].
  destruct (MAX_REVOKED <=? _); [by right; left |]. right. right. eauto 10.
Qed.

Lemma run_written o f d : written (f_revoked f) d -> exists d', written (f_revoked (run_auth o f)) d'.
Proof.
  intros Hw. destruct o as [now fresh token secret | now fresh]; cbn [run_auth]; [|by exists d].
  pose proof (written_read _ _ Hw) as (_ & Hwf & Hi).
  destruct (revoke_cases now fresh token secret f d Hw) as [-> | [-> | (u & e & sid & g & _ & ->)]]; [by exists d | |].
  - exists []. by apply written_text; [constructor |].
  - eexists. apply written_text; [by apply dict_wf_dset, filter_wf | by apply dset_ints, filter_ints].
Qed.

(** A session is over when it has expired or is listed as revoked. *)
Definition over (t : Z) (f : revocations) (sid : string) (expiry : Z) : Prop :=
  expiry < t \/ exists d, written f d /\ dget d sid = Some (JInt expiry).

(** The step revokes no session that shares the id but not the expiry. *)
Definition distinct_ids (sid : string) (expiry : Z) (o : auth_op) : Prop :=
  match o with
  | OpRevoke _ _ token _ => forall u e g, session_fields token = Some (u, e, sid, g) -> e = expiry
  | OpRotate _ _ => True
  end.

Lemma over_kept now f d sid sid' expiry e :
  written f d -> over now f sid expiry -> (sid' = sid -> e = expiry) ->
  over now (Contents (dumps (JObj (dset (List.filter (fun kv => now <=? int_value kv.2) d) sid' (JInt e))))) sid expiry.
Proof.
  intros Hw [? | (d' & Hw' & Hg)] He; [by left |].
  assert (d' = d) as -> by (destruct (written_read _ _ Hw), (written_read _ _ Hw'); congruence).
  destruct (written_read _ _ Hw) as (_ & Hwf & Hi).
  destruct (Z.lt_ge_cases expiry now); [by left |]. right. eexists. split.
  - apply written_text; [by apply dict_wf_dset, filter_wf | by apply dset_ints, filter_ints].
  - rewrite dget_dset. case_decide as Hs; [by rewrite (He Hs) |]. apply filter_keeps; [done | done |]. apply Z.leb_le. exact H0.
Qed.

Lemma over_step o f d t sid expiry :
  written (f_revoked f) d -> over t (f_revoked f) sid expiry -> t <= op_time o -> distinct_ids sid expiry o ->
  over (op_time o) (f_revoked (run_auth o f)) sid expiry \/ f_secret (run_auth o f) = op_draws o.
Proof.
  intros Hw Ho Ht Hd. assert (over (op_time o) (f_revoked f) sid expiry) as Ho'.
  { destruct Ho as [? | ?]; [left; lia | by right]. }
  destruct o as [now fresh token secret | now fresh]; cbn [run_auth op_time op_draws] in *; [|by right].
  destruct (revoke_cases now fresh token secret f d Hw) as [-> | [-> | (u & e & sid' & g & Hf & ->)]]; [by left | by right |].
  left. cbn [f_revoked]. apply (over_kept now (f_revoked f) d); [done | done |]. intros ->. by eapply Hd.
Qed.

Lemma secret_step o f : f_secret (run_auth o f) = f_secret f \/ f_secret (run_auth o f) = op_draws o.
Proof.
  destruct o as [now fresh token secret | now fresh]; cbn [run_auth op_draws]; [|by right].
  unfold revoke_session. repeat (case_match; cbn [snd f_secret]); auto.
Qed.

Lemma over_run sid expiry L os : forall t f d,
  written (f_revoked f) d -> over t (f_revoked f) sid expiry \/ In (f_secret f) L ->
  timely t os -> Forall (distinct_ids sid expiry) os ->
  over (last_time t os) (f_revoked (run_auths os f)) sid expiry \/ In (f_secret (run_auths os f)) (L ++ map op_draws os).
Proof.
  revert L. induction os as [|o os IH]; intros L t f d Hw Ho Ht Hd; [by rewrite app_nil_r |].
  destruct Ht as [Ht Hts]. apply Forall_cons in Hd as [Hd Hds].
  destruct (run_written o f d Hw) as [d' Hw'].
  change (L ++ map op_draws (o :: os)) with (L ++ [op_draws o] ++ map op_draws os). rewrite app_assoc.
  apply (IH _ _ (run_auth o f) d'); [done | | done | done].
  destruct Ho as [Ho | Hin].
  - destruct (over_step o f d t sid expiry Hw Ho Ht Hd) as [? | ->]; [by left | right; apply in_app_iff; right; by left].
  - right. apply in_app_iff. destruct (secret_step o f) as [-> | ->]; [by left | right; by left].
Qed.

Lemma over_refuses t f sid expiry token user sig secret :
  session_fields token = Some (user, expiry, sid, sig) -> over t f sid expiry ->
  verify_session t f (Some token) secret = None.
Proof.
  intros Hf Ho. unfold verify_session. destruct token as [|c token]; [done |]. rewrite Hf.
  destruct (Z.ltb_spec expiry t); [done |]. destruct Ho as [? | (d & Hw & Hg)]; [lia |].
  destruct (negb _ || negb _); [done |]. destruct (written_read _ _ Hw) as [-> _].
  unfold dmem. rewrite Hg. by rewrite bool_decide_eq_true_2 by eauto.
Qed.

Lemma over_mono t t' f sid expiry : t <= t' -> over t f sid expiry -> over t' f sid expiry.
Proof. intros Ht [? | ?]; [left; lia | by right]. Qed.

(** Once a session was revoked it never verifies again, whatever other
    sessions are revoked and whatever keys are drawn afterwards, unless the key
    now in force was drawn by a rotation since: pruning the list forgets only
    sessions that have expired, and the list is emptied only together with a
    change of key. *)
Theorem revocation_permanent now fresh token secret f d user os t :
  written (f_revoked f) d -> verify_session now (f_revoked f) (Some token) secret = Some user ->
  timely now os -> last_time now os <= t ->
  (forall u e sid g, session_fields token = Some (u, e, sid, g) -> Forall (distinct_ids sid e) os) ->
  let f' := run_auths os (revoke_session now fresh token secret f).2 in
  verify_session t (f_revoked f') (Some token) secret = None \/ In (f_secret f') (fresh :: map op_draws os).
Proof.
  intros Hw Hv Ht Hl Hd. cbv zeta.
  assert (exists u e sid g, session_fields token = Some (u, e, sid, g)) as (u & e & sid & g & Hf).
  { unfold verify_session in Hv. destruct token; [done |]. destruct (session_fields _) as [[[[? ?] ?] ?]|]; [eauto | done]. }
  specialize (Hd _ _ _ _ Hf). destruct (written_read _ _ Hw) as (Hr & Hwf & Hi).
  assert (over now (f_revoked (revoke_session now fresh token secret f).2) sid e
    \/ In (f_secret (revoke_session now fresh token secret f).2) [fresh]) as Ho.
  { unfold revoke_session. rewrite Hv, Hf, Hr. destruct (MAX_REVOKED <=? _); cbn [snd f_revoked f_secret]; [by right; left | left].
    right. eexists. split; [apply written_text; [by apply dict_wf_dset, filter_wf | by apply dset_ints, filter_ints] |].
    apply dget_dset_eq. }
  destruct (run_written (OpRevoke now fresh token secret) f d Hw) as [d' Hw'].
  destruct (over_run sid e [fresh] os now _ d' Hw' Ho Ht Hd) as [Hover | Hin]; [left | by right].
  eapply over_refuses; [exact Hf | by eapply over_mono].
Qed.

(** The revocation file never lists more than 4096 sessions. *)
Theorem revocations_bounded os : forall f d, written (f_revoked f) d -> Z.of_nat (length d) <= MAX_REVOKED ->
  exists d', written (f_revoked (run_auths os f)) d' /\ Z.of_nat (length d') <= MAX_REVOKED.
Proof.
  induction os as [|o os IH]; intros f d Hw Hd; [by exists d |].
  cut (exists d', written (f_revoked (run_auth o f)) d' /\ Z.of_nat (length d') <= MAX_REVOKED).
  { intros (d' & ? & ?). by apply (IH (run_auth o f) d'). }
  destruct o as [now fresh token secret | now fresh]; cbn [run_auth]; [|by exists d].
  destruct (written_read _ _ Hw) as (Hr & Hwf & Hi). unfold revoke_session.
  destruct (verify_session _ _ _ _); [|by exists d]. rewrite Hr.
  destruct (session_fields token) as [[[[u e] sid] g]|]; [|by exists d].
  destruct (Z.leb_spec MAX_REVOKED (Z.of_nat (length (List.filter (fun kv => now <=? int_value kv.2) d)))) as [|Hlt]; cbn [snd f_revoked].
  - exists []. split; [by apply written_text; [constructor |] | done].
  - eexists. split; [apply written_text; [by apply dict_wf_dset, filter_wf | by apply dset_ints, filter_ints] |].
    pose proof (length_dset (List.filter (fun kv => now <=? int_value kv.2) d) sid (JInt e)). lia.
Qed.

(** ** CSRF *)

(** The CSRF token of a session is accepted for it, and nothing else is;
    the texts that are authenticated as sessions and as CSRF tokens never
    coincide. *)
Theorem csrf_exact token session_value secret :
  (forall k m, all_chars is_lower_hex (hmac_hex k m) = true) ->
  (verify_csrf (Some token) (Some session_value) secret = true
   <-> token = csrf_token session_value secret /\ token <> EmptyString /\ session_value <> EmptyString)
  /\ forall message, ("csrf-v1|" +:+ session_value)%string <> ("session|" +:+ message)%string.
Proof.
  intros Hx. split; [|done]. unfold verify_csrf. destruct token as [|c token]; [by split; [|intros (_ & ? & _)] |].
  destruct session_value as [|d v]; [by split; [|intros (_ & _ & ?)] |]. rewrite andb_true_iff. split.
  - intros [_ E%String.eqb_eq]. split; [exact E | by split].
  - intros (E & _ & _). rewrite E. split; [apply hex_isascii, Hx | apply String.eqb_refl].
Qed.
End Facts.

(** ** Witnesses *)

Fixpoint w_hex (l : list ascii) : string :=
  match l with
  | [] => EmptyString
  | c :: l' => String (hex_digit (code c / 16)) (String (hex_digit (code c mod 16)) (w_hex l'))
  end.

#[local] Instance w_crypto : Crypto := {
  hmac_hex k m := w_hex (chars (k +:+ m));
  scrypt password salt n r p := Some (password +:+ salt);
  encode_utf8 s := s;
  decode_utf8 := Some }.

Lemma hex_digit_hex z : 0 <= z < 16 -> is_lower_hex (hex_digit z) = true.
Proof.
  intros Hz. unfold hex_digit, is_lower_hex, is_digit, between.
  destruct (Z.ltb_spec z 10); rewrite code_chr by lia; apply orb_true_iff; [left | right]; apply andb_true_iff; split; apply Z.leb_le; lia.
Qed.

Lemma w_hex_hex l : all_chars is_lower_hex (w_hex l) = true.
Proof.
  induction l as [|c l IH]; [done |]. unfold all_chars in *. cbn [w_hex]. pose proof (code_range c).
  change (is_lower_hex (hex_digit (code c / 16)) && (is_lower_hex (hex_digit (code c mod 16)) && forallb is_lower_hex (chars (w_hex l))) = true).
  rewrite IH, !hex_digit_hex; [done | |].
  - apply Z.mod_pos_bound. lia.
  - split; [apply Z.div_pos; lia | apply Z.div_lt_upper_bound; lia].
Qed.

Lemma w_laws : crypto_laws.
Proof. by constructor; [| | intros k m; apply w_hex_hex]. Qed.

Definition w_sid (c : ascii) : string := of_chars (repeat c 32).
Definition w_token : string := sign_session 100 (w_sid "a") "admin" "k1" 3600.

Lemma password_verifies_witness :
  verify_password "pw" "scrypt$16384$8$1$c2FsdA==$cHdzYWx0" = true
  /\ ~ verify_password "other" "scrypt$16384$8$1$c2FsdA==$cHdzYWx0" = true.
Proof.
  split.
  - apply (password_verifies "pw" "pw" "salt"); [vm_compute; reflexivity | reflexivity].
  - intros E. apply (password_verifies "pw" "other" "salt") in E; [discriminate E | vm_compute; reflexivity].
Defined.

Lemma session_roundtrip_witness :
  verify_session 3700 NoFile (Some w_token) "k1" = Some "admin"%string /\ verify_session 3701 NoFile (Some w_token) "k1" = None.
Proof.
  split; (etransitivity; [apply (session_roundtrip 100 _ (w_sid "a") "admin" "k1" 3600 NoFile []);
    [exact w_laws | cbv; intuition discriminate | vm_compute; reflexivity | split; vm_compute; discriminate | reflexivity] | vm_compute; reflexivity]).
Defined.

Lemma revocation_permanent_witness :
  let f := run_auths [OpRevoke 300 "k3" (sign_session 120 (w_sid "b") "admin" "k1" 60) "k1"; OpRotate 400 "k4"]
             (revoke_session 200 "k2" w_token "k1" (AdminFiles "k1" NoFile)).2 in
  verify_session 500 (f_revoked f) (Some w_token) "k1" = None \/ In (f_secret f) ["k2"; "k3"; "k4"]%string.
Proof.
  apply (revocation_permanent 200 "k2" w_token "k1" (AdminFiles "k1" NoFile) [] "admin"
    [OpRevoke 300 "k3" (sign_session 120 (w_sid "b") "admin" "k1" 60) "k1"; OpRotate 400 "k4"] 500).
  - constructor.
  - vm_compute. reflexivity.
  - vm_compute. repeat split; discriminate.
  - vm_compute. discriminate.
  - intros u e sid g Hf. vm_compute in Hf. injection Hf as <- <- <- <-. repeat constructor.
    intros u' e' g' Hf'. vm_compute in Hf'. discriminate Hf'.
Defined.

Lemma revocations_bounded_witness :
  exists d, written (f_revoked (run_auths [OpRevoke 200 "k2" w_token "k1"] (AdminFiles "k1" NoFile))) d
    /\ Z.of_nat (length d) <= MAX_REVOKED.
Proof. apply (revocations_bounded _ _ []); [constructor | vm_compute; discriminate]. Defined.

Lemma csrf_exact_witness : verify_csrf (Some (csrf_token w_token "k1")) (Some w_token) "k1" = true.
Proof.
  apply (csrf_exact (csrf_token w_token "k1") w_token "k1"); [exact (fun k m => w_hex_hex (chars (k +:+ m))) |].
  split; [reflexivity | split; vm_compute; discriminate].
Defined.
