(* ===== verification/LoginGuard.v ===== *)
(** admin/loginguard.py and the logins of admin/server.py and admin/api.py that
    use it.

    A login asks the guard, then awaits the body of its request, then checks the
    password and reports to the guard: [login_begin] and [login_finish] are the
    two parts between which the event loop may serve other requests.  Times are
    in microseconds. *)

From stdpp Require Import base tactics list strings.
From Stdlib Require Import ZArith Lia Ascii.
From S2P Require Import Prelude PyStr Store AdminAuth AdminAuthFacts.

(** ** LoginGuard *)

Record limits := Limits { max_per_ip : Z; lockout : Z; global_max : Z; global_window : Z }.

Definition default_limits : limits := Limits 5 (300 * second) 50 (300 * second).

Record guard := Guard { g_ip_fails : dict (list Z); g_global_fails : list Z }.
Definition new_guard : guard := Guard [] [].

(** The failures not older than [age]. *)
Definition recent (now age : Z) (l : list Z) : list Z := List.filter (fun t => now - age <=? t) l.

Definition prune_ip (now age : Z) (kv : string * list Z) : list (string * list Z) :=
  match recent now age kv.2 with [] => [] | kept => [(kv.1, kept)] end.

Definition _prune (lim : limits) (now : Z) (g : guard) : guard :=
  Guard (flat_map (prune_ip now (lockout lim)) (g_ip_fails g)) (recent now (global_window lim) (g_global_fails g)).

Definition min_list (l : list Z) : Z := match l with [] => 0 | x :: l' => fold_left Z.min l' x end.

(** How long a full list still blocks. *)
Definition remaining (now age max : Z) (l : list Z) : option Z :=
  if max <=? Z.of_nat (length l) then Some (Z.max 0 (age - (now - min_list l))) else None.

Definition retry_after (lim : limits) (now : Z) (ip : string) (g : guard) : Z * guard :=
  let g := _prune lim now g in
  let mine := default [] (dget (g_ip_fails g) ip) in
  match remaining now (lockout lim) (max_per_ip lim) mine with
  | Some wait => (wait, g)
  | None => (default 0 (remaining now (global_window lim) (global_max lim) (g_global_fails g)), g)
  end.

Definition record_failure (now : Z) (ip : string) (g : guard) : guard :=
  Guard (dset (g_ip_fails g) ip (default [] (dget (g_ip_fails g) ip) ++ [now])) (g_global_fails g ++ [now]).

Definition record_success (ip : string) (g : guard) : guard := Guard (dpop (g_ip_fails g) ip) (g_global_fails g).

(** ** The logins *)

Section Login.
Context `{Crypto}.

Inductive login_result := LockedOut (retry_after_header : Z) | InvalidCredentials | LoggedIn (token : string).

(** [Some] is the answer 429 with its Retry-After header. *)
Definition login_begin (lim : limits) (now : Z) (ip : string) (g : guard) : option login_result * guard :=
  let '(wait, g) := retry_after lim now ip g in
  (if 0 <? wait then Some (LockedOut (wait / second + 1)) else None, g).

Definition credentials_ok (env : dict string) (stored : option string) (username password : string) : bool :=
  String.eqb username (admin_username env)
  && match stored with Some encoded => verify_password password encoded | None => false end.

Definition login_finish (env : dict string) (stored : option string) (now : Z) (session_id secret : string) (ttl : Z)
    (ip username password : string) (g : guard) : login_result * guard :=
  if negb (credentials_ok env stored username password) then (InvalidCredentials, record_failure now ip g)
  else (LoggedIn (sign_session (now / second) session_id username secret ttl), record_success ip g).

(** A login nobody interleaves with: it is checked at [at_] and settled at
    [done]. *)
Definition login (lim : limits) (env : dict string) (stored : option string) (at_ done : Z) (session_id secret : string)
    (ttl : Z) (ip username password : string) (g : guard) : login_result * guard :=
  match login_begin lim at_ ip g with
  | (Some r, g) => (r, g)
  | (None, g) => login_finish env stored done session_id secret ttl ip username password g
  end.
End Login.

(** ** One list of failures *)

(** Failures in the closed window that starts at [x]. *)
Definition in_window (x age : Z) (l : list Z) : list Z := List.filter (fun t => (x <=? t) && (t <=? x + age)) l.

(** [l] is what the guard keeps of the failures [log] at time [now]. *)
Record kept (now age max : Z) (l log : list Z) : Prop := {
  kp_same : recent now age l = recent now age log;
  kp_past : Forall (fun t => t <= now) log;
  kp_max : forall x, Z.of_nat (length (in_window x age log)) <= max }.

Lemma filter_filter {A} (p q : A -> bool) l : List.filter p (List.filter q l) = List.filter (fun x => q x && p x) l.
Proof. induction l as [|x l IH]; simpl; [done |]. destruct (q x); simpl; [by destruct (p x); rewrite IH | done]. Qed.

Lemma recent_later now now' age l : now <= now' -> recent now' age (recent now age l) = recent now' age l.
Proof.
  intros Ht. unfold recent. rewrite filter_filter. apply filter_ext. intros t.
  destruct (Z.leb_spec (now - age) t), (Z.leb_spec (now' - age) t); lia || done.
Qed.

Lemma kept_nil now age max : 0 <= max -> kept now age max [] [].
Proof. intros Hm. constructor; [done | constructor | intros x; simpl; lia]. Qed.

(** The clock advances and the guard prunes. *)
Lemma kept_prune now now' age max l log : now <= now' -> kept now age max l log -> kept now' age max (recent now' age l) log.
Proof.
  intros Ht [Hs Hp Hm]. constructor; [| | done].
  - rewrite recent_later by lia. rewrite <- (recent_later now now' age l Ht), Hs. by apply recent_later.
  - eapply Forall_impl; [exact Hp |]. intros t; simpl; lia.
Qed.

Lemma kept_time now now' age max l log : now <= now' -> kept now age max l log -> kept now' age max l log.
Proof.
  intros Ht [Hs Hp Hm]. constructor; [| | done].
  - rewrite <- (recent_later now now' age l Ht), Hs. by apply recent_later.
  - eapply Forall_impl; [exact Hp |]. intros t; simpl; lia.
Qed.

Lemma min_list_In l : l <> [] -> In (min_list l) l.
Proof.
  destruct l as [|x l]; [done |]. intros _. simpl. revert x. induction l as [|y l IH]; intros x; simpl; [by left |].
  destruct (IH (Z.min x y)) as [E | Hin]; [|by right; right].
  rewrite <- E. destruct (Z.min_spec x y) as [[_ ->] | [_ ->]]; auto.
Qed.

Lemma filter_length_le {A} (p : A -> bool) l : (length (List.filter p l) <= length l)%nat.
Proof. induction l as [|x l IH]; simpl; [lia |]. destruct (p x); simpl; lia. Qed.

Lemma filter_length_lt {A} (p : A -> bool) l x : In x l -> p x = false -> (length (List.filter p l) < length l)%nat.
Proof.
  induction l as [|y l IH]; [done |]. intros [-> | Hin] Hx; simpl.
  - rewrite Hx. pose proof (filter_length_le p l). lia.
  - specialize (IH Hin Hx). destruct (p y); simpl; lia.
Qed.

Lemma filter_length_mono {A} (p q : A -> bool) l : (forall x, In x l -> p x = true -> q x = true) ->
  (length (List.filter p l) <= length (List.filter q l))%nat.
Proof.
  induction l as [|x l IH]; intros Hpq; simpl; [lia |]. specialize (IH (fun y Hy => Hpq y (or_intror Hy))).
  specialize (Hpq x (or_introl eq_refl)). destruct (p x), (q x); simpl; [lia | discriminate Hpq; done | lia | lia].
Qed.

(** The heart of the limit: a check that passed leaves room for one failure. *)
Lemma kept_record now now' age max l log :
  0 < max -> kept now age max l log -> recent now age l = l -> now < now' ->
  match remaining now age max l with Some wait => wait <= 0 | None => True end ->
  kept now' age max (l ++ [now']) (log ++ [now']).
Proof.
  intros Hmax [Hs Hp Hm] Hl Ht Hr. constructor.
  - unfold recent in *. rewrite !List.filter_app. f_equal. rewrite <- Hl at 1.
    change (recent now' age (recent now age l) = recent now' age log).
    rewrite <- (recent_later now now' age log) by lia. by unfold recent in *; rewrite Hs.
  - apply Forall_app. split; [eapply Forall_impl; [exact Hp |]; intros t; simpl; lia | repeat constructor; lia].
  - intros x. unfold in_window. rewrite List.filter_app, length_app. fold (in_window x age log). specialize (Hm x) as Hx.
    destruct ((x <=? now') && (now' <=? x + age)) eqn:Ex; cbn [List.filter]; rewrite Ex; cbn [length]; [|lia].
    apply andb_true_iff in Ex as [Ex1%Z.leb_le Ex2%Z.leb_le].
    assert (Z.of_nat (length (in_window x age log)) < max) as ?; [|lia].
    assert (length (in_window x age log) <= length (List.filter (fun t => (x <=? t)%Z) l))%nat as Hle.
    { rewrite <- Hl, Hs. unfold recent. rewrite filter_filter. unfold in_window. apply filter_length_mono.
      intros t Hin [H1 H2]%andb_true_iff. apply andb_true_iff. split; [|done]. apply Z.leb_le in H1. apply Z.leb_le. lia. }
    unfold remaining in Hr. destruct (Z.leb_spec max (Z.of_nat (length l))) as [Hfull |].
    2: { pose proof (filter_length_le (fun t => x <=? t) l). lia. }
    assert (l <> []) as Hne by (intros ->; simpl in Hfull; lia).
    assert (Z.of_nat (length l) <= max) as Hb.
    { rewrite <- Hl, Hs. specialize (Hm (now - age)). unfold in_window in Hm.
      assert (length (recent now age log) <= length (List.filter (fun t => ((now - age <=? t) && (t <=? now - age + age))%Z) log))%nat; [|lia].
      apply filter_length_mono. intros t Hin Ht'. rewrite Ht'. apply Z.leb_le.
      rewrite List.Forall_forall in Hp. specialize (Hp t Hin). simpl in Hp. lia. }
    pose proof (filter_length_lt (fun t => x <=? t) l (min_list l) (min_list_In l Hne)) as Hlt.
    assert ((x <=? min_list l) = false) as Hf by (apply Z.leb_gt; lia). specialize (Hlt Hf). lia.
Qed.

(** ** The guard *)

Lemma prune_keys now age d k : In k (dkeys (flat_map (prune_ip now age) d)) -> In k (dkeys d).
Proof.
  unfold dkeys. intros (kv & <- & (kv' & Hin & Hp)%in_flat_map)%in_map_iff. unfold prune_ip in Hp.
  destruct (recent now age kv'.2); [done |]. destruct Hp as [<- | []]. by apply (in_map fst) in Hin.
Qed.

Lemma prune_wf now age d : dict_wf d -> dict_wf (flat_map (prune_ip now age) d).
Proof.
  unfold dict_wf. induction d as [|kv d IH]; intros Hd; [done |]. cbn [dkeys map] in Hd. apply NoDup_cons in Hd as [Hn Hd].
  cbn [flat_map]. unfold prune_ip at 1. destruct (recent now age kv.2) as [|t l]; [by apply IH |].
  cbn [app dkeys map fst]. apply NoDup_cons. split; [|by apply IH].
  intros Hin. apply Hn. apply list_elem_of_In. apply list_elem_of_In in Hin. by eapply prune_keys.
Qed.

Definition fails_of (d : dict (list Z)) (ip : string) : list Z := default [] (dget d ip).

Lemma fails_prune now age d ip : dict_wf d -> fails_of (flat_map (prune_ip now age) d) ip = recent now age (fails_of d ip).
Proof.
  unfold dict_wf, fails_of. induction d as [|[k l] d IH]; intros Hd; [done |]. cbn [dkeys map fst] in Hd.
  apply NoDup_cons in Hd as [Hn Hd]. cbn [flat_map]. unfold prune_ip at 1. cbn [fst snd].
  destruct (recent now age l) as [|t l'] eqn:E; cbn [app dget]; case_decide as Hk.
  - subst k. change (default [] (Some l)) with l. rewrite E.
    assert (dget (flat_map (prune_ip now age) d) ip = None) as ->; [|done].
    apply dget_None. intros Hin%prune_keys. apply Hn. by apply list_elem_of_In.
  - by apply IH.
  - change (default [] (Some l)) with l. by rewrite E.
  - by apply IH.
Qed.

Record guard_ok (lim : limits) (now : Z) (g : guard) (logs : string -> list Z) (glog : list Z) : Prop := {
  go_wf : dict_wf (g_ip_fails g);
  go_ip : forall ip, kept now (lockout lim) (max_per_ip lim) (fails_of (g_ip_fails g) ip) (logs ip);
  go_global : kept now (global_window lim) (global_max lim) (g_global_fails g) glog }.

Definition positive (lim : limits) : Prop := 0 < max_per_ip lim /\ 0 < global_max lim.

Lemma new_guard_ok lim now : positive lim -> guard_ok lim now new_guard (fun _ => []) [].
Proof. intros [Hi Hg]. constructor; [constructor | intros ip; apply kept_nil; lia | apply kept_nil; lia]. Qed.

Lemma prune_ok lim now now' g logs glog : now <= now' -> guard_ok lim now g logs glog -> guard_ok lim now' (_prune lim now' g) logs glog.
Proof.
  intros Ht [Hw Hi Hg]. constructor; cbn [_prune g_ip_fails g_global_fails].
  - by apply prune_wf.
  - intros ip. rewrite fails_prune by done. by apply (kept_prune now).
  - by apply (kept_prune now).
Qed.

Lemma recent_recent now age l : recent now age (recent now age l) = recent now age l.
Proof. apply recent_later. lia. Qed.

(** What a passed check says of the two lists. *)
Lemma retry_after_zero lim now ip g : dict_wf (g_ip_fails g) -> (retry_after lim now ip g).1 <= 0 ->
  let g' := _prune lim now g in
  match remaining now (lockout lim) (max_per_ip lim) (fails_of (g_ip_fails g') ip) with
  | Some wait => wait <= 0
  | None => match remaining now (global_window lim) (global_max lim) (g_global_fails g') with Some wait => wait <= 0 | None => True end
  end.
Proof.
  intros Hw. unfold retry_after. fold (fails_of (g_ip_fails (_prune lim now g)) ip).
  destruct (remaining now (lockout lim) _ _); [done |]. cbn [fst]. by destruct (remaining _ _ _ _).
Qed.

(** ** Runs *)

Section Runs.
Context `{Crypto}.
Context (lim : limits) (env : dict string) (stored : option string) (secret : string) (ttl : Z).

Record attempt := Attempt {
  at_ip : string; at_time : Z; at_done : Z; at_user : string; at_password : string; at_sid : string }.

Definition run_attempt (a : attempt) (g : guard) : login_result * guard :=
  login lim env stored (at_time a) (at_done a) (at_sid a) secret ttl (at_ip a) (at_user a) (at_password a) g.

(** The answers of logins that come one after the other. *)
Fixpoint run_logins (l : list attempt) (g : guard) : list (attempt * login_result) :=
  match l with
  | [] => []
  | a :: l' => let '(r, g) := run_attempt a g in (a, r) :: run_logins l' g
  end.

(** A login ends after it began and before the next begins. *)
Fixpoint in_turn (t : Z) (l : list attempt) : Prop :=
  match l with [] => True | a :: l' => t <= at_time a < at_done a /\ in_turn (at_done a) l' end.

(** The times at which a password was found wrong: of one address, of all. *)
Definition wrong (p : attempt -> bool) (answers : list (attempt * login_result)) : list Z :=
  flat_map (fun ar => match ar.2 with InvalidCredentials => if p ar.1 then [at_done ar.1] else [] | _ => [] end) answers.
Definition from_ip (ip : string) (a : attempt) : bool := String.eqb (at_ip a) ip.
Definition anyone (a : attempt) : bool := true.

(** No login of [ip] succeeds. *)
Definition never_in (ip : string) (answers : list (attempt * login_result)) : Prop :=
  Forall (fun ar => at_ip ar.1 = ip -> forall token, ar.2 <> LoggedIn token) answers.

Lemma run_attempt_cases a g :
  run_attempt a g
  = (let '(wait, g') := retry_after lim (at_time a) (at_ip a) g in
     if 0 <? wait then (LockedOut (wait / second + 1), g')
     else if negb (credentials_ok env stored (at_user a) (at_password a))
          then (InvalidCredentials, record_failure (at_done a) (at_ip a) g')
          else (LoggedIn (sign_session (at_done a / second) (at_sid a) (at_user a) secret ttl), record_success (at_ip a) g')).
Proof.
  unfold run_attempt, login, login_begin. destruct (retry_after _ _ _ _) as [wait g']. by destruct (0 <? wait).
Qed.

Lemma retry_after_guard now ip g : (retry_after lim now ip g).2 = _prune lim now g.
Proof. unfold retry_after. by destruct (remaining _ _ _ _). Qed.

(** One address: [l] is its list in the guard, [log] its failures so far. *)
Lemma ip_limit ip l : forall t g log,
  0 < max_per_ip lim -> dict_wf (g_ip_fails g) ->
  kept t (lockout lim) (max_per_ip lim) (fails_of (g_ip_fails g) ip) log ->
  in_turn t l -> never_in ip (run_logins l g) ->
  forall x, Z.of_nat (length (in_window x (lockout lim) (log ++ wrong (from_ip ip) (run_logins l g)))) <= max_per_ip lim.
Proof.
  induction l as [|a l IH]; intros t g log Hm Hw Hk Ht Hn x; [cbn [run_logins wrong flat_map]; rewrite app_nil_r; apply Hk |].
  destruct Ht as [[Ht1 Ht2] Ht]. cbn [run_logins] in *. rewrite run_attempt_cases in *.
  pose proof (retry_after_zero lim (at_time a) (at_ip a) g Hw) as Hz. pose proof (retry_after_guard (at_time a) (at_ip a) g) as Hg.
  destruct (retry_after lim (at_time a) (at_ip a) g) as [wait g']. cbn [fst snd] in Hz, Hg. cbv zeta in Hz. rewrite <- Hg in Hz.
  assert (dict_wf (g_ip_fails g')) as Hw' by (rewrite Hg; by apply prune_wf).
  assert (kept (at_time a) (lockout lim) (max_per_ip lim) (fails_of (g_ip_fails g') ip) log) as Hk'.
  { rewrite Hg. cbn [_prune g_ip_fails]. rewrite fails_prune by done. by apply (kept_prune t). }
  assert (recent (at_time a) (lockout lim) (fails_of (g_ip_fails g') ip) = fails_of (g_ip_fails g') ip) as Hr.
  { rewrite Hg. cbn [_prune g_ip_fails]. rewrite fails_prune by done. apply recent_recent. }
  assert (at_time a <= at_done a) as Hle by lia.
  destruct (Z.ltb_spec 0 wait) as [_ | Hwait].
  { apply Forall_cons in Hn as [_ Hn]. eapply (IH (at_done a)); try done. by apply (kept_time (at_time a)). }
  specialize (Hz Hwait). destruct (negb (credentials_ok _ _ _ _)); apply Forall_cons in Hn as [Hh Hn]; cbn [fst snd] in Hh.
  - cbn [wrong flat_map fst snd]. fold (wrong (from_ip ip) (run_logins l (record_failure (at_done a) (at_ip a) g'))).
    rewrite app_assoc. unfold from_ip at 1. destruct (String.eqb_spec (at_ip a) ip) as [Ei | Ei].
    + rewrite Ei in *. eapply (IH (at_done a)); try done; cbn [record_failure g_ip_fails]; [by apply dict_wf_dset |].
      unfold fails_of. rewrite dget_dset_eq. change (default [] (Some ?v)) with v. apply (kept_record (at_time a)); try done.
      by destruct (remaining _ _ _ _).
    + rewrite app_nil_r. eapply (IH (at_done a)); try done; cbn [record_failure g_ip_fails]; [by apply dict_wf_dset |].
      unfold fails_of. rewrite dget_dset_ne by done. by apply (kept_time (at_time a)).
  - destruct (decide (at_ip a = ip)) as [Ei | Ei]; [by destruct (Hh Ei (sign_session (at_done a / second) (at_sid a) (at_user a) secret ttl)) |].
    eapply (IH (at_done a)); try done; cbn [record_success g_ip_fails]; [by apply filter_wf |].
    unfold fails_of. rewrite dget_dpop, decide_False by done. by apply (kept_time (at_time a)).
Qed.

(** Logins that come one after the other: from an address that never
    logs in, no window of the lockout's length holds more than the allowed
    number of checked wrong passwords, whatever other addresses do. *)
Theorem guesses_limited ip l t x :
  0 < max_per_ip lim -> in_turn t l -> never_in ip (run_logins l new_guard) ->
  Z.of_nat (length (in_window x (lockout lim) (wrong (from_ip ip) (run_logins l new_guard)))) <= max_per_ip lim.
Proof.
  intros Hm Ht Hn. apply (ip_limit ip l t new_guard [] Hm); try done; [constructor | apply kept_nil; lia].
Qed.

(** No login is checked exactly when a failure becomes one lockout old: at that
    instant a full list of an address answers no wait, and the ceiling over all
    addresses is not consulted. *)
Definition off_boundary (answers : list (attempt * login_result)) : Prop :=
  forall t a r, In t (wrong anyone answers) -> In (a, r) answers -> at_time a <> t + lockout lim.

Lemma prune_incl now age d ip : dict_wf d -> incl (fails_of (flat_map (prune_ip now age) d) ip) (fails_of d ip).
Proof. intros Hw t. rewrite fails_prune by done. by intros [? _]%filter_In. Qed.

Lemma remaining_elapsed now age max l wait : 0 < max -> recent now age l = l -> remaining now age max l = Some wait -> wait <= 0 ->
  exists t, In t l /\ now = t + age.
Proof.
  intros Hm Hl. unfold remaining. destruct (Z.leb_spec max (Z.of_nat (length l))) as [Hf|]; [|done]. intros E Hw. apply (inj Some) in E. subst wait.
  assert (l <> []) as Hne by (intros ->; simpl in Hf; lia). pose proof (min_list_In l Hne) as Hin. exists (min_list l).
  split; [done |]. assert (In (min_list l) (recent now age l)) as Hr by by rewrite Hl. apply filter_In in Hr as [_ Hge%Z.leb_le]. lia.
Qed.

Lemma global_limit l : forall t g log answers,
  positive lim -> dict_wf (g_ip_fails g) -> (forall ip, incl (fails_of (g_ip_fails g) ip) log) ->
  kept t (global_window lim) (global_max lim) (g_global_fails g) log -> in_turn t l ->
  incl (run_logins l g) answers -> incl log (wrong anyone answers) -> off_boundary answers ->
  forall x, Z.of_nat (length (in_window x (global_window lim) (log ++ wrong anyone (run_logins l g)))) <= global_max lim.
Proof.
  induction l as [|a l IH]; intros t g log answers Hm Hw Hi Hk Ht Ha Hlog Hb x; [cbn [run_logins wrong flat_map]; rewrite app_nil_r; apply Hk |].
  destruct Ht as [[Ht1 Ht2] Ht]. cbn [run_logins] in *. rewrite run_attempt_cases in *.
  pose proof (retry_after_zero lim (at_time a) (at_ip a) g Hw) as Hz. pose proof (retry_after_guard (at_time a) (at_ip a) g) as Hg.
  destruct (retry_after lim (at_time a) (at_ip a) g) as [wait g']. cbn [fst snd] in Hz, Hg. cbv zeta in Hz. rewrite <- Hg in Hz.
  assert (dict_wf (g_ip_fails g')) as Hw' by (rewrite Hg; by apply prune_wf).
  assert (forall ip, incl (fails_of (g_ip_fails g') ip) log) as Hi'.
  { intros ip. rewrite Hg. eapply incl_tran; [by apply prune_incl | done]. }
  assert (kept (at_time a) (global_window lim) (global_max lim) (g_global_fails g') log) as Hk'.
  { rewrite Hg. by apply (kept_prune t). }
  assert (at_time a <= at_done a) as Hle by lia.
  destruct (Z.ltb_spec 0 wait) as [_ | Hwait].
  { apply incl_cons_inv in Ha as [_ Ha]. eapply (IH (at_done a)); try done. by apply (kept_time (at_time a)). }
  specialize (Hz Hwait).
  assert (match remaining (at_time a) (global_window lim) (global_max lim) (g_global_fails g') with Some wait => wait <= 0 | None => True end) as Hz'.
  { destruct (remaining (at_time a) (lockout lim) _ _) as [w|] eqn:Er; [|done].
    apply remaining_elapsed in Er as (u & Hu & Hnow); [| by destruct Hm | | done].
    - destruct (negb _); apply incl_cons_inv in Ha as [Ha _]; by destruct (Hb u a _ (Hlog _ (Hi' _ _ Hu)) Ha).
    - rewrite Hg. cbn [_prune g_ip_fails]. rewrite fails_prune by done. apply recent_recent. }
  destruct (negb (credentials_ok _ _ _ _)); apply incl_cons_inv in Ha as [Hh Ha].
  - cbn [wrong flat_map fst snd]. fold (wrong anyone (run_logins l (record_failure (at_done a) (at_ip a) g'))).
    rewrite app_assoc. cbn [anyone]. eapply (IH (at_done a)); try done; cbn [record_failure g_ip_fails g_global_fails].
    + by apply dict_wf_dset.
    + intros ip. unfold fails_of. rewrite dget_dset. case_decide as Hip.
      * change (default [] (Some ?v)) with v. apply incl_app; [apply incl_appl, (Hi' (at_ip a)) | apply incl_appr, incl_refl].
      * apply incl_appl. apply Hi'.
    + apply (kept_record (at_time a)); try done; [by destruct Hm |]. rewrite Hg. cbn [_prune g_global_fails]. apply recent_recent.
    + apply incl_app; [done |]. intros u [<- | []]. unfold wrong. apply in_flat_map. exists (a, InvalidCredentials). split; [done |]. by left.
  - eapply (IH (at_done a)); try done; cbn [record_success g_ip_fails g_global_fails].
    + by apply filter_wf.
    + intros ip. unfold fails_of. rewrite dget_dpop. case_decide; [by intros ? | apply Hi'].
    + by apply (kept_time (at_time a)).
Qed.

(** Over all addresses together, no window holds more than the global
    number of wrong passwords, for logins that come one after the other and are
    not checked at the very instant a failure ages out. *)
Theorem global_guesses_limited l t x :
  positive lim -> in_turn t l -> off_boundary (run_logins l new_guard) ->
  Z.of_nat (length (in_window x (global_window lim) (wrong anyone (run_logins l new_guard)))) <= global_max lim.
Proof.
  intros Hm Ht Hb. apply (global_limit l t new_guard [] (run_logins l new_guard)); [done | by apply NoDup_nil | by intros ip u | | done | apply incl_refl | by intros u | done].
  apply kept_nil. destruct Hm. lia.
Qed.

(** ** Interleaving *)

(** [n] logins of one address that were all let in before the first settled. *)
Fixpoint begin_many (n : nat) (now : Z) (ip : string) (g : guard) : list (option login_result) * guard :=
  match n with
  | O => ([], g)
  | S n' => let '(r, g) := login_begin lim now ip g in let '(rs, g) := begin_many n' now ip g in (r :: rs, g)
  end.

Lemma prune_idem now g : dict_wf (g_ip_fails g) -> g_ip_fails g = [] -> g_global_fails g = [] -> _prune lim now g = g.
Proof. destruct g as [d l]. cbn [g_ip_fails g_global_fails]. intros _ -> ->. done. Qed.

(** The check and the report are not one step: any number of logins whose
    bodies are still awaited pass the check, so any number of passwords can be
    tried at once. *)
Lemma concurrent_logins_pass n now ip : positive lim ->
  begin_many n now ip new_guard = (repeat None n, new_guard).
Proof.
  intros [Hi Hg]. induction n as [|n IH]; [done |]. cbn [begin_many repeat].
  assert (login_begin lim now ip new_guard = (None, new_guard)) as ->; [|by rewrite IH].
  unfold login_begin, retry_after, remaining. cbn [_prune new_guard g_ip_fails g_global_fails flat_map recent List.filter].
  destruct (Z.leb_spec (max_per_ip lim) (Z.of_nat (length (default (@nil Z) (dget (@nil (string * list Z)) ip))))) as [Hc|]; [simpl in Hc; lia |].
  destruct (Z.leb_spec (global_max lim) (Z.of_nat (length (@nil Z)))) as [Hc|]; [simpl in Hc; lia |]. done.
Qed.
End Runs.

(** ** Witnesses *)

#[local] Existing Instance w_crypto.

Definition w_attempt (ip : string) (t : Z) : attempt := Attempt ip (t * second) (t * second + 1) "admin" "guess" (w_sid "c").
Definition w_attempts : list attempt := [w_attempt "a" 1; w_attempt "a" 2; w_attempt "b" 3; w_attempt "a" 4].

Lemma guesses_limited_witness :
  Z.of_nat (length (in_window 0 (300 * second) (wrong (from_ip "a") (run_logins (Limits 2 (300 * second) 50 (300 * second)) [] None "k" 60 w_attempts new_guard)))) <= 2.
Proof.
  apply (guesses_limited (Limits 2 (300 * second) 50 (300 * second)) [] None "k" 60 "a" w_attempts 0).
  - reflexivity.
  - vm_compute. repeat split; discriminate.
  - repeat constructor; vm_compute; discriminate.
Defined.

Lemma global_guesses_limited_witness :
  Z.of_nat (length (in_window 0 (300 * second) (wrong anyone (run_logins default_limits [] None "k" 60 w_attempts new_guard)))) <= 50.
Proof.
  apply (global_guesses_limited default_limits [] None "k" 60 w_attempts 0).
  - split; reflexivity.
  - vm_compute. repeat split; discriminate.
  - intros t a r Ht Ha. vm_compute in Ht, Ha. intuition (subst; simplify_eq; discriminate).
Defined.
