(* ===== verification/Operations.v ===== *)
(** broker/operations.py: the operator's mutations, shared by brokerctl and the
    admin.

    They run in a process of their own beside the broker: each transaction is
    preceded by those other processes committed since the last ([o_others]), so
    what an operation read may be stale when it writes. *)

From stdpp Require Import base tactics list strings.
From Stdlib Require Import ZArith Lia Ascii.
From S2P Require Import Prelude PyStr Json JsonFacts Policy Action Store StoreFacts StoreSpec Ingress.

(** ** The operator's process *)

Class Operator := {
  o_time : nat -> Z;
  o_uuid : nat -> string;
  o_token : nat -> string;
  o_others : nat -> list store_op;
  o_cancel : nat -> string -> res unit }.

(** [ow_withdrawn] records the references passed to [surface.cancel]. *)
Record oworld := OWorld { ow_store : store; ow_tick : nat; ow_withdrawn : list string }.

Definition OM (A : Type) : Type := oworld -> res A * oworld.

#[export] Instance OM_ret : MRet OM := fun _ a w => (Ok a, w).
#[export] Instance OM_bind : MBind OM := fun _ _ f m w =>
  match m w with (Ok a, w') => f a w' | (Raise e, w') => (Raise e, w') end.
#[export] Instance OM_fmap : FMap OM := fun _ _ f m w => let '(r, w') := m w in (a ← r; Ok (f a), w').
Definition othrow {A} (e : exn) : OM A := fun w => (Raise e, w).

Fixpoint for_each {A B} (f : A -> OM B) (l : list A) : OM (list B) :=
  match l with [] => mret [] | a :: l' => b ← f a; bs ← for_each f l'; mret (b :: bs) end.

(** The grants of a policy as [tool.op] -> effect. *)
Definition grants (p : policy) : dict string :=
  fold_left (fun acc to => fold_left (fun acc oe => dset acc (to.1 +:+ "." +:+ oe.1) oe.2) to.2 acc)
    (default [] (p_tools p)) [].

Definition grant_delta (old new : dict string) : list json :=
  flat_map (fun key =>
    if bool_decide (dget old key = dget new key) then []
    else [JObj [("operation"%string, JStr key); ("before"%string, jopt (dget old key)); ("after"%string, jopt (dget new key))]])
    (sorted_set (dkeys old ++ dkeys new)).

Section Operations.
Context `{Digest} `{Operator}.

(** One transaction at the time the method reads. *)
Definition otx {A} (f : Z -> store -> res (A * store)) : OM A := fun w =>
  let s := run_ops (o_others (ow_tick w)) (ow_store w) in
  match f (o_time (ow_tick w)) s with
  | Ok (a, s') => (Ok a, OWorld s' (S (ow_tick w)) (ow_withdrawn w))
  | Raise e => (Raise e, OWorld s (S (ow_tick w)) (ow_withdrawn w))
  end.

Definition oquery {A} (f : store -> A) : OM A := otx (fun _ s => Ok (f s, s)).
Definition oupdate (f : Z -> store -> res store) : OM unit := otx (fun now s => s' ← f now s; Ok (tt, s')).

Definition token_urlsafe : OM string := fun w =>
  (Ok (o_token (ow_tick w)), OWorld (ow_store w) (S (ow_tick w)) (ow_withdrawn w)).
Definition uuid4_hex : OM string := fun w =>
  (Ok (o_uuid (ow_tick w)), OWorld (ow_store w) (S (ow_tick w)) (ow_withdrawn w)).

(** [surface.cancel], whose exceptions are dropped. *)
Definition withdraw (ref : string) : OM unit := fun w =>
  (Ok tt, OWorld (ow_store w) (S (ow_tick w)) (ow_withdrawn w ++ [ref])).

Definition record_admin_event (operator event_type : string) (details : dict json) : OM unit :=
  correlation_id ← uuid4_hex;
  oupdate (fun now s => Ok (append_audit now "admin" event_type "ok" (Some correlation_id) None
    (JObj (("operator"%string, JStr operator) :: details)) s).2).

Definition record_admin_denied (event_type : string) (details : dict json) : OM unit :=
  correlation_id ← uuid4_hex;
  oupdate (fun now s => Ok (append_audit now "admin" event_type "denied" (Some correlation_id) None (JObj details) s).2).

Definition require_caller (name : string) : OM caller_row :=
  found ← oquery (caller_by_name name);
  match found with Some c => mret c | None => othrow LookupError end.

Definition create_caller (name : string) (allow review : list string) (operator : string) (deny : list string) : OM string :=
  caller_id ← otx (fun now => add_caller now name);
  token ← token_urlsafe;
  _ ← oupdate (fun now => add_token now caller_id (hash_token token));
  _ ← oupdate (fun now => set_policy now caller_id (build_policy allow review deny));
  _ ← record_admin_event operator "caller_created" [("name"%string, JStr name)];
  mret token.

(** One parked request; [true] when it was cancelled here. *)
Definition cancel_row (surface : bool) (operator reason : string) (row : pending_row) : OM bool :=
  changed ← otx (fun now => finish_pending now (n_request_id row) expired ap_cancelled None None false);
  if negb changed then mret false
  else
    _ ← (if surface then withdraw (n_surface_ref row) else mret tt);
    _ ← oupdate (fun now s => Ok (append_audit now "approval" "cancelled" "cancelled" (Some (n_correlation_id row))
          (Some (n_request_id row))
          (JObj [("reason"%string, JStr reason); ("operator"%string, JStr operator);
                 ("tool"%string, JStr (n_tool row)); ("op"%string, JStr (n_op row))]) s).2);
    mret true.

Definition _cancel_pending_approvals (caller_id : Z) (surface : bool) (operator reason : string) : OM Z :=
  rows ← oquery (pending_approvals_for_caller caller_id);
  done ← for_each (cancel_row surface operator reason) rows;
  mret (count_where (fun b : bool => b) done).

Definition revoke_caller (name operator : string) (surface : bool) : OM Z :=
  caller ← require_caller name;
  _ ← oupdate (fun now s => Ok (Store.revoke_caller now name s));
  cancelled ← _cancel_pending_approvals (c_id caller) surface operator "caller_revoked";
  _ ← record_admin_event operator "caller_revoked" [("name"%string, JStr name); ("cancelled_approvals"%string, JInt cancelled)];
  mret cancelled.

Definition set_policy (name : string) (allow review : list string) (operator : string) (deny : list string) : OM unit :=
  caller ← require_caller name;
  before ← oquery (policy_for (c_id caller));
  let after := replace_grants before allow review deny in
  _ ← oupdate (fun now => Store.set_policy now (c_id caller) after);
  record_admin_event operator "policy_changed"
    [("name"%string, JStr name); ("grant_delta"%string, JArr (grant_delta (grants before) (grants after)))].

(** The policy is read three times. *)
Definition set_enabled_tools (name : string) (enabled : list string) (operator : string) : OM unit :=
  caller ← require_caller name;
  let enabled := dedup enabled in
  prior ← oquery (policy_for (c_id caller));
  let tools := List.filter (fun kv => mem_str kv.1 enabled) (default [] (p_tools prior)) in
  now_managed ← oquery (policy_for (c_id caller));
  after ← (match p_disabled now_managed with
           | Some _ =>
               last ← oquery (policy_for (c_id caller));
               match p_disabled last with
               | Some d => mret (Policy (Some tools) (Some enabled) (Some d))
               | None => othrow KeyError
               end
           | None => mret (Policy (Some tools) (match enabled with [] => None | _ => Some enabled end) None)
           end);
  _ ← oupdate (fun now => Store.set_policy now (c_id caller) after);
  record_admin_event operator "tools_changed" [("name"%string, JStr name); ("enabled"%string, jlist enabled)].

Definition issue_token (name operator : string) : OM string :=
  caller ← require_caller name;
  token ← token_urlsafe;
  _ ← oupdate (fun now => add_token now (c_id caller) (hash_token token));
  _ ← record_admin_event operator "token_issued" [("name"%string, JStr name)];
  mret token.

Definition rotate_token (name operator : string) : OM string :=
  caller ← require_caller name;
  token ← token_urlsafe;
  let new_hash := hash_token token in
  _ ← oupdate (fun now => add_token now (c_id caller) new_hash);
  revoked ← otx (fun now s => Ok (revoke_tokens_for_caller now (c_id caller) (Some new_hash) s));
  _ ← record_admin_event operator "token_rotated" [("name"%string, JStr name); ("revoked"%string, JInt revoked)];
  mret token.

(** The cancellations for one caller the prefix named. *)
Definition cancel_if_tokenless (surface : bool) (operator : string) (caller_id : Z) : OM Z :=
  left ← oquery (active_token_count caller_id);
  if left =? 0 then _cancel_pending_approvals caller_id surface operator "token_revoked" else mret 0.

Definition revoke_token (prefix operator : string) (surface : bool) : OM Z :=
  if PyStr.empty (strip prefix) then mret 0
  else
    caller_ids ← otx (fun _ s => ids ← caller_ids_for_token_prefix prefix s; Ok (ids, s));
    count ← otx (fun now => revoke_token_by_prefix now prefix);
    if count =? 0 then mret count
    else
      cancelled ← for_each (cancel_if_tokenless surface operator) caller_ids;
      _ ← record_admin_event operator "token_revoked"
            [("prefix"%string, JStr prefix); ("count"%string, JInt count);
             ("cancelled_approvals"%string, JInt (foldr Z.add 0 cancelled))];
      mret count.

(** ** The operations as one type *)

Inductive operation :=
| OpCreate (name : string) (allow review deny : list string)
| OpRevoke (name : string) (surface : bool)
| OpPolicy (name : string) (allow review deny : list string)
| OpTools (name : string) (enabled : list string)
| OpIssue (name : string)
| OpRotate (name : string)
| OpRevokeToken (prefix : string) (surface : bool).

(** The operation and what it answers. *)
Definition run_operation (operator : string) (o : operation) : OM json :=
  match o with
  | OpCreate name allow review deny => JStr <$> create_caller name allow review operator deny
  | OpRevoke name surface => JInt <$> revoke_caller name operator surface
  | OpPolicy name allow review deny => (fun _ => JNull) <$> set_policy name allow review operator deny
  | OpTools name enabled => (fun _ => JNull) <$> set_enabled_tools name enabled operator
  | OpIssue name => JStr <$> issue_token name operator
  | OpRotate name => JStr <$> rotate_token name operator
  | OpRevokeToken prefix surface => JInt <$> revoke_token prefix operator surface
  end.

Definition event_of (o : operation) : string :=
  match o with
  | OpCreate _ _ _ _ => "caller_created" | OpRevoke _ _ => "caller_revoked" | OpPolicy _ _ _ _ => "policy_changed"
  | OpTools _ _ => "tools_changed" | OpIssue _ => "token_issued" | OpRotate _ => "token_rotated"
  | OpRevokeToken _ _ => "token_revoked"
  end%string.
End Operations.
