(* ===== verification/OperationsFacts.v ===== *)
(** What the operator's mutations guarantee beside a running broker: each is a
    sequence of the transactions of the store specification, a revoked caller
    never executes again, a rotation leaves one token, and every success is the
    last row of the audit log. *)

From stdpp Require Import base tactics list strings.
From Stdlib Require Import ZArith Lia Ascii.
From S2P Require Import Prelude PyStr Json JsonFacts Policy Action Store StoreFacts StoreSpec Ingress Operations.

Section Facts.
Context `{Digest} `{Operator}.
Implicit Types (w : oworld).

(** ** Every operation is a history of store transactions *)

Definition history {A} (m : OM A) : Prop := forall w, exists os, ow_store (m w).2 = run_ops os (ow_store w).

Lemma run_ops_app os1 os2 s : run_ops (os1 ++ os2) s = run_ops os2 (run_ops os1 s).
Proof. unfold run_ops. apply foldl_app. Qed.

Lemma history_ret {A} (a : A) : history (mret a).
Proof. intros w. by exists []. Qed.
Lemma history_throw {A} e : history (othrow e : OM A).
Proof. intros w. by exists []. Qed.

Lemma history_bind {A B} (m : OM A) (f : A -> OM B) : history m -> (forall a, history (f a)) -> history (m ≫= f).
Proof.
  intros Hm Hf w. destruct (Hm w) as [os E]. unfold mbind, OM_bind. destruct (m w) as [[a | e] w1]; simpl in *; [|eauto].
  destruct (Hf a w1) as [os' E']. exists (os ++ os'). by rewrite run_ops_app, <- E.
Qed.

(** A transaction that commits what a store operation commits. *)
Lemma history_otx {A} (f : Z -> store -> res (A * store)) (op : Z -> store_op) :
  (forall now s a s', f now s = Ok (a, s') -> s' = run_op (op now) s) -> history (otx f).
Proof.
  intros Hf w. unfold otx. destruct (f _ _) as [[a s'] | e] eqn:E; simpl.
  - apply Hf in E as ->. exists (o_others (ow_tick w) ++ [op (o_time (ow_tick w))]). by rewrite run_ops_app.
  - by exists (o_others (ow_tick w)).
Qed.

Lemma history_read {A} (f : store -> res (A * store)) : (forall s a s', f s = Ok (a, s') -> s' = s) -> history (otx (fun _ => f)).
Proof.
  intros Hf w. unfold otx. destruct (f _) as [[a s'] | e] eqn:E; simpl; [apply Hf in E as -> |]; by exists (o_others (ow_tick w)).
Qed.

Lemma history_query {A} (f : store -> A) : history (oquery f).
Proof. apply history_read. by intros s a s' [= _ <-]. Qed.

Lemma history_update (f : Z -> store -> res store) (op : Z -> store_op) :
  (forall now s s', f now s = Ok s' -> s' = run_op (op now) s) -> history (oupdate f).
Proof.
  intros Hf. apply (history_otx _ op). intros now s [] s' E. inv_bind. simplify_eq. by apply Hf.
Qed.

Lemma history_silent {A} (m : OM A) : (forall w, ow_store (m w).2 = ow_store w) -> history m.
Proof. intros Hm w. exists []. by rewrite Hm. Qed.

Lemma history_audit comp ev out corr rid details :
  history (oupdate (fun now s => Ok (append_audit now comp ev out corr rid details s).2)).
Proof. apply (history_update _ (fun now => Admin (AppendAudit now comp ev out corr rid details))). by intros now s s' [= <-]. Qed.

Lemma history_event operator ev details : history (record_admin_event operator ev details).
Proof. apply history_bind; [by apply history_silent |]. intros corr. apply history_audit. Qed.

Lemma history_denied ev details : history (record_admin_denied ev details).
Proof. apply history_bind; [by apply history_silent |]. intros corr. apply history_audit. Qed.

Lemma history_require name : history (require_caller name).
Proof. apply history_bind; [apply history_query |]. intros [c|]; [apply history_ret | apply history_throw]. Qed.

Lemma history_add_token caller_id h : history (oupdate (fun now => add_token now caller_id h)).
Proof. apply (history_update _ (fun now => Admin (AddToken now caller_id h))). intros now s s' E. simpl. by rewrite E. Qed.

Lemma history_set_policy caller_id p : history (oupdate (fun now => Store.set_policy now caller_id p)).
Proof. apply (history_update _ (fun now => Admin (SetPolicy now caller_id p))). intros now s s' E. simpl. by rewrite E. Qed.

Lemma history_for_each {A B} (f : A -> OM B) l : (forall a, history (f a)) -> history (for_each f l).
Proof.
  intros Hf. induction l as [|a l IH]; [apply history_ret |]. apply history_bind; [apply Hf |]. intros b.
  apply history_bind; [apply IH |]. intros bs. apply history_ret.
Qed.

Lemma history_cancel_row surface operator reason row : history (cancel_row surface operator reason row).
Proof.
  apply history_bind.
  - apply (history_otx _ (fun now => Admin (FinishPending now (n_request_id row) expired ap_cancelled None None false))).
    intros now s b s' E. simpl. by rewrite E.
  - intros [|]; [|apply history_ret]. apply history_bind; [destruct surface; by apply history_silent |]. intros _.
    apply history_bind; [apply history_audit |]. intros _. apply history_ret.
Qed.

Lemma history_cancel caller_id surface operator reason : history (_cancel_pending_approvals caller_id surface operator reason).
Proof.
  apply history_bind; [apply history_query |]. intros rows.
  apply history_bind; [apply history_for_each; intros row; apply history_cancel_row |]. intros done. apply history_ret.
Qed.

Lemma history_revoke_caller_row name : history (oupdate (fun now s => Ok (Store.revoke_caller now name s))).
Proof. apply (history_update _ (fun now => Admin (RevokeCaller now name))). by intros now s s' [= <-]. Qed.

Lemma history_silent_token : history token_urlsafe.
Proof. by apply history_silent. Qed.

Ltac histories := repeat (first [apply history_require | apply history_query | apply history_event | apply history_add_token
  | apply history_set_policy | apply history_cancel | apply history_revoke_caller_row | apply history_silent_token
  | apply history_ret | apply history_throw
  | (apply history_for_each; intros ?) | (apply history_bind; [|intros ?])] || case_match).

Lemma history_fmap {A B} (f : A -> B) (m : OM A) : history m -> history (f <$> m).
Proof. intros Hm w. destruct (Hm w) as [os E]. exists os. unfold fmap, OM_fmap. by destruct (m w). Qed.

Lemma operation_history operator o : history (run_operation operator o).
Proof.
  destruct o as [name allow review deny | name surface | name allow review deny | name enabled | name | name | pre surface];
    cbn [run_operation]; apply history_fmap.
  - apply history_bind; [|intros id; histories].
    apply (history_otx _ (fun now => Admin (AddCaller now name))). intros now s a s' E. simpl. by rewrite E.
  - histories.
  - unfold set_policy. histories.
  - unfold set_enabled_tools. histories.
  - histories.
  - apply history_bind; [apply history_require |]. intros caller. apply history_bind; [apply history_silent_token |]. intros token.
    apply history_bind; [apply history_add_token |]. intros _. apply history_bind; [|intros n; histories].
    apply (history_otx _ (fun now => Admin (RevokeTokensFor now (c_id caller) (Some (hash_token token))))).
    intros now s a s' E. simpl. by injection E as _ <-.
  - unfold revoke_token. destruct (PyStr.empty _); [apply history_ret |]. apply history_bind.
    { apply history_read. intros s a s' E. destruct (caller_ids_for_token_prefix pre s); by simplify_eq/=. }
    intros ids. apply history_bind; [|intros n; unfold cancel_if_tokenless; histories].
    apply (history_otx _ (fun now => Admin (RevokePrefix now pre))). intros now s a s' E. simpl. by rewrite E.
Qed.

(** ** Every success is audited *)

Definition audit_tail (operator event : string) (s : store) : Prop :=
  exists rows e d, s_audit s = rows ++ [e] /\ e_component e = "admin"%string /\ e_event_type e = event
    /\ e_outcome e = "ok"%string /\ e_details e = JObj d /\ dget d "operator" = Some (JStr operator).

(** Whenever [m] answers, its last transaction was that event. *)
Definition audits {A} (operator event : string) (m : OM A) : Prop :=
  forall w a w', m w = (Ok a, w') -> audit_tail operator event (ow_store w').

Lemma audits_event operator event details : audits operator event (record_admin_event operator event details).
Proof.
  intros w a w' E. unfold record_admin_event, mbind, OM_bind, uuid4_hex, oupdate, otx in E. cbn in E.
  injection E as _ <-. cbn [ow_store append_audit snd s_audit with_audit].
  eexists _, _, _. split; [done |]. repeat split; done.
Qed.

Lemma audits_bind {A B} operator event (m : OM A) (f : A -> OM B) :
  (forall a, audits operator event (f a)) -> audits operator event (m ≫= f).
Proof.
  intros Hf w b w' E. unfold mbind, OM_bind in E. destruct (m w) as [[a | e] w1]; [|done]. by eapply Hf.
Qed.

Lemma audits_then {A B} operator event (m : OM A) (b : B) : audits operator event m -> audits operator event (m ≫= fun _ => mret b).
Proof.
  intros Hm w b' w' E. unfold mbind, OM_bind in E. destruct (m w) as [[a | e] w1] eqn:Em; [|done].
  injection E as _ <-. by eapply Hm.
Qed.

Lemma audits_throw {A} operator event e : audits operator event (othrow e : OM A).
Proof. by intros w a w'. Qed.

Ltac audited := repeat (first [apply audits_event | apply audits_throw | (apply audits_then; apply audits_event)
  | (apply audits_bind; intros ?)] || case_match).

(** Every operator mutation that succeeds has left, as the last row of the
    audit log, the event of that operation with the operator's name, whatever
    other processes committed in between; only a token prefix that revoked
    nothing leaves none. *)
Theorem operations_audited operator o w v w' :
  run_operation operator o w = (Ok v, w') ->
  (exists prefix surface, o = OpRevokeToken prefix surface /\ v = JInt 0)
  \/ audit_tail operator (event_of o) (ow_store w').
Proof.
  assert (forall A (m : OM A) (f : A -> json) event, audits operator event m -> (f <$> m) w = (Ok v, w') ->
    audit_tail operator event (ow_store w')) as Hmap.
  { intros A m f event Hm E. unfold fmap, OM_fmap in E. destruct (m w) as [[a | e] w1] eqn:Em; [|done].
    injection E as _ <-. by eapply Hm. }
  destruct o as [name allow review deny | name surface | name allow review deny | name enabled | name | name | pre surface];
    cbn [run_operation event_of]; intros E.
  1-6: right; eapply Hmap; [|exact E]; unfold create_caller, revoke_caller, set_policy, set_enabled_tools, issue_token, rotate_token; audited.
  unfold fmap, OM_fmap in E. destruct (revoke_token pre operator surface w) as [[n | e] w1] eqn:Er; [|done].
  injection E as <- <-. unfold revoke_token in Er. destruct (PyStr.empty _); [injection Er as <- _; left; eauto |].
  unfold mbind at 1, OM_bind at 1 in Er. destruct (otx _ w) as [[ids | e] w2]; [|done].
  unfold mbind at 1, OM_bind at 1 in Er. destruct (otx _ w2) as [[count | e] w3]; [|done].
  destruct (Z.eqb_spec count 0) as [-> |]; [injection Er as <- _; left; eauto |]. right.
  revert Er. generalize w3. intros w4 Er. eapply (audits_bind operator "token_revoked"); [|exact Er].
  intros cancelled. audited.
Qed.

(** ** Revocation *)

Lemma dead_not_live id k s : store_ok s -> dead_caller id s -> _live id k s = false.
Proof.
  intros Hs (c & Hc & Hid & Hr). destruct (_live id k s) eqn:E; [|done].
  destruct (live_sound _ _ _ E) as ((c' & Hc' & Hid' & Hr') & _). destruct Hr. rewrite <- Hr'. f_equal.
  eapply (NoDup_map_eq c_id); [by apply ok_callers | done | done | congruence].
Qed.

(** No claim of a request of a dead caller succeeds. *)
Lemma dead_never_claims s r : store_ok s -> In r (s_requests s) -> dead_caller (r_caller_id r) s ->
  (forall now gen k d, (claim_received now (r_id r) gen k d s).1 = false)
  /\ (forall gen st now k, (claim_approval (r_id r) gen st now k s).1 = false).
Proof.
  intros Hs Hr Hd. pose proof (request_In r s (ok_requests _ Hs) Hr) as Hq.
  split; intros; unfold claim_received, claim_approval; rewrite Hq.
  - unfold claim_received_valid. rewrite dead_not_live, andb_false_r by done. cbn [andb]. by case_match.
  - destruct (approval_for_request (r_id r) s) as [a|] eqn:Ea; cbn [mbind option_bind].
    + unfold claim_approval_valid. rewrite dead_not_live, andb_false_r by done. cbn [andb]. by case_match.
    + by case_match.
Qed.

Lemma caller_stays os s c : In c (s_callers s) ->
  exists c', In c' (s_callers (run_ops os s)) /\ c_id c' = c_id c /\ c_name c' = c_name c.
Proof.
  revert s c. induction os as [|o os IH]; intros s c Hc; [by exists c |].
  destruct (grows_In _ _ _ c (proj2 (run_op_grows o s)) Hc) as [Hi | [now Hi]].
  - apply (IH (run_op o s) c Hi).
  - destruct (IH (run_op o s) _ Hi) as (c' & ? & ? & ?). by exists c'.
Qed.

Lemma revoke_kills now c s : In c (s_callers s) -> dead_caller (c_id c) (Store.revoke_caller now (c_name c) s).
Proof.
  intros Hc. destruct (c_revoked_at c) as [z|] eqn:Ec.
  - exists c. split; [|by rewrite Ec]. apply update_where_In. exists c. split; [done |].
    unfold live_row. by rewrite Ec, andb_false_r.
  - exists (set_revoked_caller now c). split; [|done]. apply update_where_In. exists c.
    unfold live_row. by rewrite Ec, String.eqb_refl.
Qed.

(** C27. When revoking a caller has succeeded, no request of that caller is
    ever claimed for execution again, whatever the broker and others did in
    between and do afterwards: approvals that a human grants later included. *)
Theorem revoked_caller_never_runs name operator surface w n w' :
  store_ok (ow_store w) -> revoke_caller name operator surface w = (Ok n, w') ->
  exists c, In c (s_callers (ow_store w')) /\ c_name c = name
    /\ forall os r, In r (s_requests (run_ops os (ow_store w'))) -> r_caller_id r = c_id c ->
         (forall now gen k d, (claim_received now (r_id r) gen k d (run_ops os (ow_store w'))).1 = false)
         /\ (forall gen st now k, (claim_approval (r_id r) gen st now k (run_ops os (ow_store w'))).1 = false).
Proof.
  intros Hs E. unfold revoke_caller in E. unfold mbind at 1, OM_bind at 1 in E.
  unfold require_caller in E. unfold mbind at 1, OM_bind at 1, oquery, otx in E. cbn iota beta in E.
  set (s1 := run_ops (o_others (ow_tick w)) (ow_store w)) in *.
  destruct (caller_by_name name s1) as [c|] eqn:Ec; [|done]. cbn [mret OM_ret] in E.
  apply select1_Some in Ec as [Hc Hn%String.eqb_eq].
  unfold mbind at 1, OM_bind at 1, oupdate, otx in E. cbn [ow_tick ow_store mbind res_bind] in E.
  set (s2 := run_ops _ s1) in *. set (now := o_time _) in *.
  assert (store_ok s2) as Hs2 by by apply run_ops_ok, run_ops_ok.
  destruct (caller_stays (o_others (S (ow_tick w))) s1 c Hc) as (c2 & Hc2 & Hid2 & Hn2). fold s2 in Hc2.
  pose proof (revoke_kills now c2 s2 Hc2) as Hd. rewrite Hn2, Hn, Hid2 in Hd.
  assert (In c2 (s_callers s2)) as Hin by done.
  match type of E with ?m ?w2 = _ =>
    assert (history m) as Hh by histories; destruct (Hh w2) as [os Hos]; rewrite E in Hos end.
  cbn [snd ow_store] in Hos.
  assert (store_ok (Store.revoke_caller now name s2)) as Hs3 by by apply (run_admin_ok (RevokeCaller now name)).
  destruct (dead_caller_run_ops os _ _ Hd) as (d & Hdi & Hdid & Hdr). rewrite <- Hos in Hdi.
  assert (exists c', In c' (s_callers (ow_store w')) /\ c_id c' = c_id c /\ c_name c' = name) as (c' & Hc' & Hid' & Hn').
  { rewrite Hos. assert (exists c3, In c3 (s_callers (Store.revoke_caller now name s2)) /\ c_id c3 = c_id c /\ c_name c3 = name) as (c3 & H3 & Hid3 & Hn3).
    { eexists. split; [apply update_where_In; by exists c2 |]. case_match; cbn [set_revoked_caller c_id c_name]; by rewrite Hid2, Hn2, Hn. }
    destruct (caller_stays os _ c3 H3) as (c4 & ? & ? & ?). exists c4. split; [done |]. split; congruence. }
  exists c'. split; [done |]. split; [done |]. intros os' r Hr Hrc. apply dead_never_claims; [|done |].
  - apply run_ops_ok. rewrite Hos. by apply run_ops_ok.
  - rewrite Hrc, Hid'. apply dead_caller_run_ops. by exists d.
Qed.

(** ** Without interference *)

Section Alone.
Hypothesis alone : forall n, o_others n = [].

Lemma otx_alone {A} (f : Z -> store -> res (A * store)) w :
  otx f w = match f (o_time (ow_tick w)) (ow_store w) with
            | Ok (a, s') => (Ok a, OWorld s' (S (ow_tick w)) (ow_withdrawn w))
            | Raise e => (Raise e, OWorld (ow_store w) (S (ow_tick w)) (ow_withdrawn w))
            end.
Proof. unfold otx. by rewrite alone. Qed.

Lemma om_bind_ok {A B} (m : OM A) (f : A -> OM B) w b w' : (m ≫= f) w = (Ok b, w') ->
  exists a w1, m w = (Ok a, w1) /\ f a w1 = (Ok b, w').
Proof. unfold mbind, OM_bind. destruct (m w) as [[a | e] w1]; [eauto | done]. Qed.

Lemma om_query_ok {A} (f : store -> A) w a w' : oquery f w = (Ok a, w') -> a = f (ow_store w) /\ ow_store w' = ow_store w.
Proof. unfold oquery. rewrite otx_alone. by intros [= <- <-]. Qed.

Lemma otx_ok {A} (f : Z -> store -> res (A * store)) w a w' : otx f w = (Ok a, w') ->
  exists now, f now (ow_store w) = Ok (a, ow_store w').
Proof. rewrite otx_alone. destruct (f _ _) as [[a0 s'] | e] eqn:E; [|done]. intros [= <- <-]. eauto. Qed.

Lemma update_ok (f : Z -> store -> res store) w a w' : oupdate f w = (Ok a, w') ->
  exists now, f now (ow_store w) = Ok (ow_store w').
Proof. unfold oupdate. intros (now & E)%otx_ok. exists now. by destruct (f now (ow_store w)); simplify_eq/=. Qed.

Lemma require_ok name w c w' : require_caller name w = (Ok c, w') ->
  caller_by_name name (ow_store w) = Some c /\ ow_store w' = ow_store w.
Proof.
  intros (found & w1 & [-> E1]%om_query_ok & E2)%om_bind_ok. destruct (caller_by_name name (ow_store w)) as [c0|]; [|done].
  injection E2 as <- <-. done.
Qed.

Lemma token_ok w a w' : token_urlsafe w = (Ok a, w') -> ow_store w' = ow_store w.
Proof. by intros [= _ <-]. Qed.

Lemma event_ok operator ev details w a w' : record_admin_event operator ev details w = (Ok a, w') ->
  exists l, ow_store w' = with_audit (ow_store w) l.
Proof.
  intros (corr & w1 & E1 & (now & E2)%update_ok)%om_bind_ok. injection E1 as _ <-. injection E2 as E2.
  eexists. symmetry. exact E2.
Qed.

Lemma count_where_app {A} (p : A -> bool) l1 l2 : count_where p (l1 ++ l2) = count_where p l1 + count_where p l2.
Proof. unfold count_where. rewrite List.filter_app, length_app. lia. Qed.

Lemma update_where_app {A} (p : A -> bool) f l1 l2 : update_where p f (l1 ++ l2) = update_where p f l1 ++ update_where p f l2.
Proof. apply map_app. Qed.

Lemma count_where_map {A} (p q : A -> bool) (f : A -> A) l :
  (forall x, In x l -> p (if q x then f x else x) = false) -> count_where p (update_where q f l) = 0.
Proof.
  intros Hp. apply count_where_zero. intros y (x & Hx & ->)%update_where_In. by apply Hp.
Qed.

(** A rotation that succeeds without interference leaves the caller
    exactly one active token: the one that was returned. *)
Theorem rotation_leaves_one name operator w token w' :
  rotate_token name operator w = (Ok token, w') ->
  exists c, caller_by_name name (ow_store w) = Some c
    /\ active_token_count (c_id c) (ow_store w') = 1
    /\ exists t, In t (s_tokens (ow_store w')) /\ t_hash t = hash_token token /\ t_caller t = c_id c /\ t_revoked_at t = None.
Proof.
  unfold rotate_token. intros (c & w1 & [Hc E1]%require_ok & H1)%om_bind_ok. exists c. split; [done |].
  apply om_bind_ok in H1 as (tok & w2 & E2%token_ok & H2). cbv zeta in H2.
  apply om_bind_ok in H2 as ([] & w3 & (now & E3)%update_ok & H3).
  apply om_bind_ok in H3 as (revoked & w4 & (now' & E4)%otx_ok & H4). apply ok_inj, (f_equal snd) in E4. cbn [snd] in E4.
  apply om_bind_ok in H4 as ([] & w5 & (l & E5)%event_ok & H5). injection H5 as -> <-. rewrite E5. cbn [s_tokens with_audit].
  unfold add_token in E3. destruct (select1 _ (s_tokens (ow_store w2))) eqn:Es; [done |].
  destruct (caller_by_id _ _) eqn:Ec; [|done]. injection E3 as E3.
  assert (s_tokens (ow_store w4) = update_where (fun t => (t_caller t =? c_id c) && negb (String.eqb (t_hash t) (hash_token token)) && live_row t_revoked_at t)
    (set_revoked_token now') (s_tokens (ow_store w2) ++ [TokenRow (hash_token token) (c_id c) now None])) as Ht.
  { rewrite <- E4, <- E3. done. }
  unfold active_token_count. change (s_tokens (with_audit (ow_store w4) l)) with (s_tokens (ow_store w4)). rewrite Ht. split.
  - rewrite update_where_app, count_where_app.
    match goal with |- _ + count_where ?p (update_where ?q ?f [?t]) = 1 =>
      assert (count_where p (update_where q f [t]) = 1) as -> end.
    { unfold update_where, count_where. cbn [map t_hash t_caller t_revoked_at live_row].
      rewrite String.eqb_refl, andb_false_r. cbn [negb andb List.filter t_caller t_revoked_at live_row]. by rewrite Z.eqb_refl. }
    rewrite count_where_map; [done |]. intros t Hin. pose proof (select1_None _ _ Es t Hin) as Hne.
    destruct ((t_caller t =? c_id c) && negb (String.eqb (t_hash t) (hash_token token)) && live_row t_revoked_at t) eqn:Eq.
    + by rewrite andb_false_r.
    + rewrite Hne in Eq. cbn [negb] in Eq. by rewrite andb_true_r in Eq.
  - exists (TokenRow (hash_token token) (c_id c) now None). split; [|done]. apply update_where_In.
    eexists. split; [apply in_app_iff; right; by left |]. cbn [t_hash t_caller]. by rewrite String.eqb_refl, andb_false_r.
Qed.

(** Without interference, setting the enabled tools stores exactly the
    policy of the specification: the grants of the enabled tools, and the
    disabled functions as they were. *)
Theorem set_enabled_tools_exact name enabled operator w w' :
  set_enabled_tools name enabled operator w = (Ok tt, w') ->
  exists c, caller_by_name name (ow_store w) = Some c
    /\ policy_for (c_id c) (ow_store w') = enable_policy (policy_for (c_id c) (ow_store w)) enabled.
Proof.
  unfold set_enabled_tools. intros (c & w1 & [Hc E1]%require_ok & H1)%om_bind_ok. exists c. split; [done |]. cbv zeta in H1.
  apply om_bind_ok in H1 as (prior & w2 & [-> E2]%om_query_ok & H2). apply om_bind_ok in H2 as (managed & w3 & [-> E3]%om_query_ok & H3).
  apply om_bind_ok in H3 as (after & w4 & H3 & H4).
  assert (ow_store w4 = ow_store w /\ after = enable_policy (policy_for (c_id c) (ow_store w)) enabled) as [E4 ->].
  { unfold enable_policy. cbv zeta. rewrite E2, E1 in H3. destruct (p_disabled (policy_for (c_id c) (ow_store w))) as [d|] eqn:Ed.
    - apply om_bind_ok in H3 as (last & w5 & [-> E5]%om_query_ok & H5). rewrite E3, E2, E1, Ed in H5.
      injection H5 as <- <-. split; congruence.
    - injection H3 as <- <-. split; congruence. }
  apply om_bind_ok in H4 as ([] & w5 & (now & E5)%update_ok & H5). apply event_ok in H5 as [l E6].
  rewrite E6. change (policy_for (c_id c) (with_audit (ow_store w5) l)) with (policy_for (c_id c) (ow_store w5)).
  by eapply write_policy_for.
Qed.
End Alone.
End Facts.

(** ** Witnesses *)

#[local] Instance w_digest : Digest := echo_digest.
#[local] Instance w_operator : Operator := {
  o_time n := Z.of_nat n;
  o_uuid _ := "u"%string;
  o_token n := "token" +:+ str_of_Z (Z.of_nat n);
  o_others _ := [];
  o_cancel _ _ := Ok tt }.

Lemma w_alone n : o_others n = [].
Proof. reflexivity. Qed.

Definition w_start : oworld := OWorld (empty_store "i") 0 [].
Definition w_created : oworld := (run_operation "root" (OpCreate "ann" ["echo.say"%string] [] []) w_start).2.

Lemma operations_audited_witness :
  audit_tail "root" "caller_created" (ow_store w_created).
Proof.
  destruct (operations_audited "root" (OpCreate "ann" ["echo.say"%string] [] []) w_start (JStr "token1") w_created) as [(p & s & E & _) | Hd].
  - vm_compute. reflexivity.
  - discriminate E.
  - exact Hd.
Defined.

Lemma w_created_ok : store_ok (ow_store w_created).
Proof.
  destruct (operation_history "root" (OpCreate "ann" ["echo.say"%string] [] []) w_start) as [os E].
  unfold w_created. rewrite E. apply run_ops_ok, empty_store_ok.
Qed.

Lemma revoked_caller_never_runs_witness :
  exists c, In c (s_callers (ow_store (revoke_caller "ann" "root" true w_created).2)) /\ c_name c = "ann"%string.
Proof.
  destruct (revoked_caller_never_runs "ann" "root" true w_created 0 (revoke_caller "ann" "root" true w_created).2) as (c & Hc & Hn & _).
  - exact w_created_ok.
  - vm_compute. reflexivity.
  - by exists c.
Defined.

Lemma rotation_leaves_one_witness :
  active_token_count 1 (ow_store (rotate_token "ann" "root" w_created).2) = 1.
Proof.
  destruct (rotation_leaves_one w_alone "ann" "root" w_created "token7" (rotate_token "ann" "root" w_created).2) as (c & Hc & Ha & _).
  - vm_compute. reflexivity.
  - vm_compute in Hc. injection Hc as <-. exact Ha.
Defined.

Lemma set_enabled_tools_exact_witness :
  policy_for 1 (ow_store (set_enabled_tools "ann" ["mail"%string] "root" w_created).2)
  = enable_policy (policy_for 1 (ow_store w_created)) ["mail"%string].
Proof.
  destruct (set_enabled_tools_exact w_alone "ann" ["mail"%string] "root" w_created
    (set_enabled_tools "ann" ["mail"%string] "root" w_created).2) as (c & Hc & Hp).
  - vm_compute. reflexivity.
  - vm_compute in Hc. injection Hc as <-. exact Hp.
Defined.
