(* ===== verification/CallerSettings.v ===== *)
(** admin/caller_settings.py: the settings of a caller as one snapshot and one
    guarded write.  The tools are read through [load], the answer of
    [Registry.from_sources]. *)

From stdpp Require Import base tactics list strings.
From Stdlib Require Import ZArith Lia Ascii.
From S2P Require Import Prelude PyStr Json JsonFacts Policy Action Store StoreFacts StoreSpec Ingress Registry Operations OperationsFacts.

Definition ChangedElsewhere : exn := OtherExn "ChangedElsewhere".

(** The tools the editor shows, each with its operations. *)
Definition settings_catalog : Type := dict (list listed_op).

Definition catalog_of (cat : catalog) : settings_catalog :=
  fold_left (fun acc o => dset acc (l_tool o) (default [] (dget acc (l_tool o)) ++ [o])) (list_ops cat)
    (fold_left (fun acc tool => dset acc tool []) (tool_ids cat) []).

Definition row_json (o : listed_op) : json :=
  JObj [("op"%string, JStr (l_op o)); ("risk"%string, l_risk o); ("description"%string, l_description o)].

Definition settings_catalog_json (c : settings_catalog) : json := JObj (map (fun tr => (tr.1, JArr (map row_json tr.2))) c).

Record settings := Settings {
  sn_name : string; sn_caller_id : Z; sn_installation : string; sn_revision : string;
  sn_policy : policy; sn_enabled : list string; sn_catalog : settings_catalog }.

(** [set(x) == set(y)]. *)
Definition same_set (x y : list string) : bool :=
  forallb (fun k => mem_str k y) x && forallb (fun k => mem_str k x) y.

(** A list of texts that all satisfy [p]. *)
Definition text_list (p : string -> bool) (v : json) : option (list string) :=
  match v with
  | JArr l => foldr (fun x acc => match x, acc with JStr t, Some r => if p t then Some (t :: r) else None | _, _ => None end)
                (Some []) l
  | _ => None
  end.

Definition is_effect (v : json) : bool :=
  match v with JStr t => mem_str t ["allow"; "review"; "deny"]%string | _ => false end.
Definition effect_str (v : json) : string := match v with JStr t => t | _ => EmptyString end.

(** The sets of one tool: what is added to those the editor could not see. *)
Definition merge_tool (disabled tools : dict json) (p : policy) (tr : string * list listed_op) : res policy :=
  let '(tool, rows) := tr in
  let names := map l_op rows in
  match text_list (fun op => mem_str op names) (jget disabled tool), jget tools tool with
  | Some excluded, JObj effects =>
      if same_set (dkeys effects) names && forallb (fun kv => is_effect kv.2) effects then
        let old_disabled := default [] (p_disabled p) in
        let old_tools := default [] (p_tools p) in
        let old_excluded := List.filter (fun op => negb (mem_str op names)) (default [] (dget old_disabled tool)) in
        Ok (Policy
              (Some (dset old_tools tool (fold_left (fun acc kv => dset acc kv.1 (effect_str kv.2)) effects (default [] (dget old_tools tool)))))
              (p_enabled p)
              (Some (dset old_disabled tool (sorted_set (old_excluded ++ excluded)))))
      else Raise ValueError
  | _, _ => Raise ValueError
  end.

Definition merge_settings (current : settings) (data : dict json) : res policy :=
  let catalog := sn_catalog current in
  match text_list (fun t => mem_str t (dkeys catalog)) (jget data "enabled") with
  | None => Raise ValueError
  | Some enabled =>
      match jget data "disabled_functions", jget data "tools" with
      | JObj disabled, JObj tools =>
          if negb (same_set (dkeys disabled) (dkeys catalog)) || negb (same_set (dkeys tools) (dkeys catalog))
          then Raise ChangedElsewhere
          else
            let kept := List.filter (fun t => negb (mem_str t (dkeys catalog))) (sn_enabled current) in
            let before := sn_policy current in
            foldM (merge_tool disabled tools)
              (Policy (Some (default [] (p_tools before))) (Some (sorted_set (kept ++ enabled))) (Some (default [] (p_disabled before))))
              catalog
      | _, _ => Raise ValueError
      end
  end.

Section Settings.
Context `{Digest} `{Operator}.

Definition of_res {A} (r : res A) : OM A := fun w => (r, w).

Definition revision_of (installation : string) (caller_id : Z) (p : policy) (c : settings_catalog) : string :=
  sha256_hex (canonical_text (JArr [JStr installation; JInt caller_id; policy_json p; settings_catalog_json c])).

Definition snapshot (load : res catalog) (name : string) : OM settings :=
  caller ← require_caller name;
  match c_revoked_at caller with
  | Some _ => othrow LookupError
  | None =>
      cat ← of_res load;
      let catalog := catalog_of cat in
      p ← oquery (policy_for (c_id caller));
      installation ← oquery s_installation;
      mret (Settings name (c_id caller) installation (revision_of installation (c_id caller) p catalog) p (enabled_tools p) catalog)
  end.

Definition commit_settings (caller_id : Z) (before after : policy) (operator : string) : OM bool :=
  correlation_id ← uuid4_hex;
  otx (fun now => compare_and_set_policy now correlation_id caller_id before after operator).

Definition apply (load : res catalog) (name : string) (data : dict json) (operator : string) : OM policy :=
  current ← snapshot load name;
  if negb (bool_decide (jget data "revision" = JStr (sn_revision current))) then othrow ChangedElsewhere
  else
    after ← of_res (merge_settings current data);
    caller ← require_caller name;
    saved ← commit_settings (c_id caller) (sn_policy current) after operator;
    if (saved : bool) then mret after else othrow ChangedElsewhere.

(** ** The merge *)

Lemma mem_str_app x a b : mem_str x (a ++ b) = mem_str x a || mem_str x b.
Proof. unfold mem_str. apply existsb_app. Qed.

Lemma mem_str_filter x (p : string -> bool) l : mem_str x (List.filter p l) = p x && mem_str x l.
Proof.
  apply eq_true_iff_eq. rewrite andb_true_iff, !mem_str_In, filter_In. tauto.
Qed.

Lemma mem_sorted_set x l : mem_str x (sorted_set l) = mem_str x l.
Proof. apply eq_true_iff_eq. by rewrite !mem_str_In, sorted_set_In. Qed.

Lemma text_list_In (p : string -> bool) v l x : text_list p v = Some l -> In x l -> p x = true.
Proof.
  destruct v as [| | | | | vs |]; try done. cbn [text_list]. revert l. induction vs as [|y vs IH]; intros l; cbn [foldr]; [by intros [= <-] |].
  destruct y; try done. destruct (foldr _ _ vs) as [r|]; [|done]. destruct (p s) eqn:Ep; [|done].
  intros [= <-] [<- | Hin]; [done | by eapply IH].
Qed.

Lemma same_set_mem x a b : same_set a b = true -> mem_str x a = mem_str x b.
Proof.
  unfold same_set. rewrite andb_true_iff, !forallb_forall. intros [H1 H2]. apply eq_true_iff_eq. rewrite !mem_str_In.
  split; intros Hin; apply mem_str_In; auto.
Qed.

(** [{**d, **effects}] *)
Lemma dget_update (effects : dict json) : dict_wf effects -> forall (d : dict string) k,
  dget (fold_left (fun acc kv => dset acc kv.1 (effect_str kv.2)) effects d) k
  = match dget effects k with Some v => Some (effect_str v) | None => dget d k end.
Proof.
  unfold dict_wf, dkeys. induction effects as [|[k0 v0] effects IH]; intros Hw d k; [done |].
  cbn [map fst] in Hw. apply NoDup_cons in Hw as [Hn Hw]. cbn [fold_left fst snd dget]. rewrite IH by done.
  destruct (decide (k0 = k)) as [-> | Hk].
  - assert (dget effects k = None) as ->; [|apply dget_dset_eq].
    apply dget_None. intros Hin. apply Hn. by apply list_elem_of_In.
  - by rewrite dget_dset_ne.
Qed.

Definition excluded_of (p : policy) (tool : string) : list string := default [] (dget (default [] (p_disabled p)) tool).

(** What one tool's step does. *)
Record merged_tool (disabled tools : dict json) (p p' : policy) (tool : string) (names : list string) : Prop := {
  mt_enabled : p_enabled p' = p_enabled p;
  mt_some : p_disabled p' <> None /\ p_tools p' <> None;
  mt_other : forall t, t <> tool -> dget (default [] (p_tools p')) t = dget (default [] (p_tools p)) t
     /\ dget (default [] (p_disabled p')) t = dget (default [] (p_disabled p)) t;
  mt_lists : exists excluded effects, jget tools tool = JObj effects
     /\ text_list (fun op => mem_str op names) (jget disabled tool) = Some excluded
     /\ (forall op, mem_str op (dkeys effects) = mem_str op names)
     /\ (forall op, mem_str op (excluded_of p' tool) = if mem_str op names then mem_str op excluded else mem_str op (excluded_of p tool))
     /\ (dict_wf effects -> forall op, rule (default [] (p_tools p')) tool op
            = match dget effects op with Some v => Some (effect_str v) | None => rule (default [] (p_tools p)) tool op end) }.

Lemma merge_tool_ok disabled tools p p' tool rows :
  merge_tool disabled tools p (tool, rows) = Ok p' -> merged_tool disabled tools p p' tool (map l_op rows).
Proof.
  unfold merge_tool. destruct (text_list _ (jget disabled tool)) as [excluded|] eqn:Ee; [|done].
  destruct (jget tools tool) as [| | | | | | effects] eqn:Et; try done.
  destruct (same_set (dkeys effects) (map l_op rows)) eqn:Es; [|done]. destruct (forallb _ effects); [|done]. cbn [andb].
  intros E. apply ok_inj in E. subst p'. constructor; cbn [p_enabled p_disabled p_tools]; [done | done | |].
  - intros t Hne. change (default [] (Some ?x)) with x. by rewrite !dget_dset_ne.
  - exists excluded, effects. split; [done |]. split; [done |]. split; [intros op; by apply same_set_mem |]. split.
    + intros op. unfold excluded_of. cbn [p_disabled]. change (default [] (Some ?x)) with x at 1. rewrite dget_dset_eq.
      change (default [] (Some ?x)) with x at 1. rewrite mem_sorted_set, mem_str_app, mem_str_filter.
      destruct (mem_str op (map l_op rows)) eqn:Em; [done |]. cbn [negb andb].
      destruct (mem_str op excluded) eqn:Ex; [|by rewrite orb_false_r].
      apply mem_str_In in Ex. pose proof (text_list_In _ _ _ _ Ee Ex) as Hin. simpl in Hin. congruence.
    + intros Hw op. unfold rule. change (default [] (Some (dset ?d ?k ?v))) with (dset d k v). rewrite dget_dset_eq.
      change (default [] (Some ?x)) with x at 1. by apply dget_update.
Qed.

Record merged_all (disabled tools : dict json) (p p' : policy) (catalog : settings_catalog) : Prop := {
  ma_enabled : p_enabled p' = p_enabled p;
  ma_some : p_disabled p <> None -> p_disabled p' <> None;
  ma_other : forall t, ~ In t (dkeys catalog) -> dget (default [] (p_tools p')) t = dget (default [] (p_tools p)) t
     /\ dget (default [] (p_disabled p')) t = dget (default [] (p_disabled p)) t;
  ma_in : forall tool rows, In (tool, rows) catalog -> exists excluded effects, jget tools tool = JObj effects
     /\ text_list (fun op => mem_str op (map l_op rows)) (jget disabled tool) = Some excluded
     /\ (forall op, mem_str op (dkeys effects) = mem_str op (map l_op rows))
     /\ (forall op, mem_str op (excluded_of p' tool)
          = if mem_str op (map l_op rows) then mem_str op excluded else mem_str op (excluded_of p tool))
     /\ (dict_wf effects -> forall op, rule (default [] (p_tools p')) tool op
            = match dget effects op with Some v => Some (effect_str v) | None => rule (default [] (p_tools p)) tool op end) }.

Lemma merge_all_ok disabled tools catalog : dict_wf catalog -> forall p p',
  foldM (merge_tool disabled tools) p catalog = Ok p' -> merged_all disabled tools p p' catalog.
Proof.
  unfold dict_wf. induction catalog as [|[tool rows] catalog IH]; intros Hw p p'.
  - intros E. apply ok_inj in E. subst p'. by constructor.
  - cbn [dkeys map fst] in Hw. apply NoDup_cons in Hw as [Hn Hw]. cbn [foldM].
    destruct (merge_tool disabled tools p (tool, rows)) as [p1 | e] eqn:E1; [|done]. cbn [mbind res_bind]. intros E.
    apply merge_tool_ok in E1 as [He1 [Hs1 _] Ho1 Hl1]. apply (IH Hw) in E as [He Hs Ho Hi]. constructor.
    + by rewrite He.
    + intros _. by apply Hs.
    + intros t Ht. cbn [dkeys map fst] in Ht. destruct (Ho t) as [-> ->]; [by intros ?; apply Ht; right |].
      apply Ho1. intros ->. apply Ht. by left.
    + intros tool' rows' [E' | Hin].
      * injection E' as <- <-. destruct (Ho tool) as [Ht Hd]; [by intros Hin; apply Hn, list_elem_of_In |].
        unfold excluded_of, rule in *. rewrite Ht, Hd. exact Hl1.
      * assert (tool' <> tool) as Hne by (intros ->; apply Hn, list_elem_of_In; by apply (in_map fst) in Hin).
        destruct (Hi tool' rows' Hin) as (excluded & effects & ? & ? & ? & Hx & Hr). destruct (Ho1 tool' Hne) as [Ht Hd].
        exists excluded, effects. unfold excluded_of, rule in *. rewrite Ht, Hd in *. auto.
Qed.

Lemma jget_wf d k v : json_wf (JObj d) -> jget d k = JObj v -> dict_wf v /\ json_wf (JObj v).
Proof.
  intros Hw E. unfold jget in E. destruct (dget d k) as [x|] eqn:Eg; [|done]. change (x = JObj v) in E. subst x.
  inversion Hw as [| | | | | | ? _ Hall]; subst. apply dget_In in Eg. rewrite List.Forall_forall in Hall. specialize (Hall _ Eg).
  simpl in Hall. split; [|done]. by inversion Hall.
Qed.

Definition texts (v : json) : list string := default [] (text_list (fun _ => true) v).

Lemma text_list_any (p : string -> bool) v l : text_list p v = Some l -> text_list (fun _ => true) v = Some l.
Proof.
  destruct v as [| | | | | vs |]; try done. cbn [text_list]. revert l. induction vs as [|y vs IH]; intros l; cbn [foldr]; [done |].
  destruct y; try done. destruct (foldr _ (Some []) vs) as [r|]; [|done]. rewrite (IH r eq_refl). by destruct (p s).
Qed.

Lemma text_list_texts (p : string -> bool) v l : text_list p v = Some l -> texts v = l.
Proof. intros E%text_list_any. unfold texts. by rewrite E. Qed.

Lemma fold_dset_wf {A B} (f : dict A -> B -> string * A) l : forall d, dict_wf d ->
  dict_wf (fold_left (fun acc x => dset acc (f acc x).1 (f acc x).2) l d).
Proof. induction l as [|x l IH]; intros d Hd; [done |]. apply IH. by apply dict_wf_dset. Qed.

Lemma catalog_of_wf cat : dict_wf (catalog_of cat).
Proof.
  unfold catalog_of. apply (fold_dset_wf (fun acc o => (l_tool o, default [] (dget acc (l_tool o)) ++ [o]))).
  apply (fold_dset_wf (fun _ tool => (tool, []))). apply NoDup_nil. done.
Qed.

(** The member [tool] of the member [key] of the request. *)
Definition part (data : dict json) (key tool : string) : json :=
  match jget data key with JObj d => jget d tool | _ => JNull end.

(** The editor saw this operation. *)
Definition shown (c : settings_catalog) (tool op : string) : Prop :=
  exists rows, In (tool, rows) c /\ mem_str op (map l_op rows) = true.

(** C28. What a settings request decides: every operation the editor showed is
    decided as the request says, allowed or reviewed only if its tool is
    enabled and it is not disabled; and nothing the editor did not show is
    changed: neither other operations of a shown tool, nor tools that are not
    in the catalog, nor whether those are enabled. *)
Theorem settings_exact current data after :
  dict_wf (sn_catalog current) -> json_wf (JObj data) -> merge_settings current data = Ok after ->
  (forall tool op, shown (sn_catalog current) tool op ->
     decide_op after tool op
     = if mem_str tool (texts (jget data "enabled")) && negb (mem_str op (texts (part data "disabled_functions" tool)))
       then match part data "tools" tool with JObj effects => _norm (effect_str <$> dget effects op) | _ => DENY end
       else DENY)
  /\ (forall tool op, ~ shown (sn_catalog current) tool op ->
       rule (default [] (p_tools after)) tool op = rule (default [] (p_tools (sn_policy current))) tool op
       /\ mem_str op (excluded_of after tool) = mem_str op (excluded_of (sn_policy current) tool))
  /\ (forall tool, ~ In tool (dkeys (sn_catalog current)) ->
       mem_str tool (default [] (p_enabled after)) = mem_str tool (sn_enabled current)).
Proof.
  intros Hc Hj. unfold merge_settings.
  destruct (text_list _ (jget data "enabled")) as [enabled|] eqn:Een; [|done].
  destruct (jget data "disabled_functions") as [| | | | | | disabled] eqn:Ed; try done.
  destruct (jget data "tools") as [| | | | | | tools] eqn:Et; try done.
  destruct (negb _ || negb _); [done |]. intros [Hen Hsome Hoth Hin]%merge_all_ok; [|done].
  destruct (jget_wf _ _ _ Hj Et) as [_ Hjt]. cbn [p_enabled p_disabled p_tools] in *.
  change (default [] (Some ?x)) with x in *. unfold part. rewrite Ed, Et.
  assert (forall tool, mem_str tool (default [] (p_enabled after))
    = negb (mem_str tool (dkeys (sn_catalog current))) && mem_str tool (sn_enabled current) || mem_str tool enabled) as Hmem.
  { intros tool. rewrite Hen. change (default [] (Some ?x)) with x. by rewrite mem_sorted_set, mem_str_app, mem_str_filter. }
  split; [|split].
  - intros tool op (rows & Hr & Hop). destruct (Hin _ _ Hr) as (excluded & effects & Ee & Ex & Hk & Hx & Hrule).
    rewrite (text_list_texts _ _ _ Een), Ee, (text_list_texts _ _ _ Ex). destruct (jget_wf _ _ _ Hjt Ee) as [Hwe _].
    specialize (Hrule Hwe op). specialize (Hx op). rewrite Hop in Hx. unfold decide_op.
    change (dget (default [] (dget ?t tool)) op) with (rule t tool op). fold (excluded_of after tool). rewrite Hx, Hrule, Hmem.
    assert (mem_str tool (dkeys (sn_catalog current)) = true) as -> by (apply mem_str_In; by apply (in_map fst) in Hr).
    rewrite Hen. rewrite !bool_decide_eq_true_2; [| by eauto | destruct (p_disabled after); [eauto | by destruct (Hsome ltac:(done))]].
    cbn [negb andb orb]. destruct (mem_str tool enabled); [|done]. cbn [negb andb]. destruct (mem_str op excluded); [done |].
    cbn [negb]. destruct (dget effects op) as [v|] eqn:Ev; [done |].
    assert (mem_str op (dkeys effects) = true) as Hme by by rewrite Hk. apply mem_str_In in Hme. by apply dget_None in Ev.
  - intros tool op Hns. destruct (dget (sn_catalog current) tool) as [rows|] eqn:Er.
    + apply dget_In in Er. destruct (Hin _ _ Er) as (excluded & effects & Ee & Ex & Hk & Hx & Hrule).
      destruct (jget_wf _ _ _ Hjt Ee) as [Hwe _]. specialize (Hrule Hwe op). specialize (Hx op). specialize (Hk op).
      destruct (mem_str op (map l_op rows)) eqn:Em; [by destruct Hns; exists rows |]. split; [|exact Hx]. rewrite Hrule.
      destruct (dget effects op) as [v|] eqn:Ev; [|done]. apply dget_In, (in_map fst) in Ev. apply mem_str_In in Ev.
      change (mem_str op (dkeys effects) = true) in Ev. congruence.
    + apply dget_None in Er. destruct (Hoth tool Er) as [Hto Hdo]. unfold rule, excluded_of. by rewrite Hto, Hdo.
  - intros tool Ht. rewrite Hmem. assert (mem_str tool (dkeys (sn_catalog current)) = false) as Hf.
    { apply not_true_iff_false. by rewrite mem_str_In. }
    rewrite Hf. cbn [negb andb]. destruct (mem_str tool enabled) eqn:Ee; [|by rewrite orb_false_r].
    apply mem_str_In in Ee. pose proof (text_list_In _ _ _ _ Een Ee) as Hx. simpl in Hx. congruence.
Qed.

(** ** The guarded write *)

Lemma ok_bind {A B} (m : OM A) (f : A -> OM B) w b w' : (m ≫= f) w = (Ok b, w') ->
  exists a w1, m w = (Ok a, w1) /\ f a w1 = (Ok b, w').
Proof. unfold mbind, OM_bind. destruct (m w) as [[a | e] w1]; [eauto | done]. Qed.

(** Settings are saved only over what the client saw: success means the
    revision it sent is that of the snapshot, the caller was live and its policy
    still the snapshot's when it was written, and what is stored is the merge of
    the snapshot and the request. *)
Theorem settings_saved load name data operator w after w' :
  apply load name data operator w = (Ok after, w') ->
  exists cat current caller_id s,
    load = Ok cat /\ sn_catalog current = catalog_of cat /\ jget data "revision" = JStr (sn_revision current)
    /\ merge_settings current data = Ok after
    /\ (exists s0 c0, caller_by_name name s0 = Some c0 /\ c_id c0 = caller_id)
    /\ (exists c, caller_by_id s caller_id = Some c /\ c_revoked_at c = None)
    /\ same_policy (policy_for caller_id s) (sn_policy current) = true
    /\ policy_for caller_id (ow_store w') = after.
Proof.
  unfold apply. intros (current & w1 & E1 & E)%ok_bind.
  destruct (bool_decide_reflect (jget data "revision" = JStr (sn_revision current))) as [Hrev|]; [|done]. cbn [negb] in E.
  apply ok_bind in E as (after' & w2 & Em & E). apply ok_bind in E as (caller & w3 & Er & E). apply ok_bind in E as (saved & w4 & Ec & E).
  destruct saved; [|done]. injection E as -> ->. unfold of_res in Em. injection Em as Em ->.
  assert (exists cat, load = Ok cat /\ sn_catalog current = catalog_of cat) as (cat & Hl & Hcat).
  { unfold snapshot in E1. apply ok_bind in E1 as (c & w5 & _ & E1). destruct (c_revoked_at c); [done |].
    apply ok_bind in E1 as (cat & w6 & E6 & E1). injection E6 as -> _. exists cat. split; [done |].
    apply ok_bind in E1 as (p & w7 & _ & E1). apply ok_bind in E1 as (inst & w8 & _ & E1). by injection E1 as <- _. }
  unfold require_caller in Er. apply ok_bind in Er as (found & w5 & Eq & Er).
  assert (exists s0, found = caller_by_name name s0) as [s0 ->].
  { unfold oquery, otx in Eq. cbn in Eq. injection Eq as <- _. eauto. }
  destruct (caller_by_name name s0) as [c0|] eqn:E0; [|done]. injection Er as <- <-.
  unfold commit_settings in Ec. apply ok_bind in Ec as (corr & w6 & _ & Ec). unfold otx in Ec.
  destruct (compare_and_set_policy _ _ _ _ _ _ _) as [[b s'] | e] eqn:Es; [|done]. injection Ec as -> <-. cbn [ow_store].
  set (s := run_ops _ _) in Es. exists cat, current, (c_id c0), s.
  split; [done |]. split; [done |]. split; [done |]. split; [done |]. split; [eauto |].
  unfold compare_and_set_policy in Es. destruct (caller_by_id s (c_id c0)) as [c|] eqn:Ec; [|done].
  destruct (live_row c_revoked_at c && same_policy (policy_for (c_id c0) s) (sn_policy current)) eqn:El; [|done].
  apply andb_true_iff in El as [Hlive Hsame]. split; [exists c; split; [done | by apply live_row_None] |]. split; [done |].
  destruct (_write_policy _ _ _ s) as [s1 | e] eqn:Ew; [|done]. cbn [mbind res_bind] in Es. apply ok_inj in Es.
  injection Es as <-. cbn [append_audit snd]. change (policy_for (c_id c0) (with_audit s1 ?l)) with (policy_for (c_id c0) s1).
  by eapply write_policy_for.
Qed.
End Settings.

(** ** Witnesses *)

#[local] Existing Instance w_digest.
#[local] Existing Instance w_operator.

Definition w_meta : op_meta := OpMeta JNull JNull (JArr []) None None.
Definition w_tools : catalog := [("echo"%string, Entry 9001 "api" [("say"%string, w_meta); ("shout"%string, w_meta)] "/t" "d")].

Definition w_settings : settings :=
  Settings "ann" 1 "i" (revision_of "i" 1 (policy_for 1 (ow_store w_created)) (catalog_of w_tools))
    (policy_for 1 (ow_store w_created)) ["echo"%string] (catalog_of w_tools).

Definition w_request : dict json :=
  [("revision"%string, JStr (sn_revision w_settings)); ("enabled"%string, JArr [JStr "echo"]);
   ("disabled_functions"%string, JObj [("echo"%string, JArr [JStr "shout"])]);
   ("tools"%string, JObj [("echo"%string, JObj [("say"%string, JStr "review"); ("shout"%string, JStr "allow")])])].

Lemma w_request_wf : json_wf (JObj w_request).
Proof.
  repeat match goal with
  | |- dict_wf _ => apply (bool_decide_eq_true_1 _); vm_compute; reflexivity
  | |- json_wf _ => constructor
  | |- Forall _ _ => constructor
  end.
Qed.

Definition w_after : policy :=
  Policy (Some [("echo", [("say", "review"); ("shout", "allow")])]) (Some ["echo"]) (Some [("echo", ["shout"])])%string.

Lemma settings_exact_witness :
  decide_op w_after "echo" "say" = REVIEW /\ decide_op w_after "echo" "shout" = DENY.
Proof.
  destruct (settings_exact w_settings w_request w_after) as (Hs & _).
  - apply catalog_of_wf.
  - exact w_request_wf.
  - vm_compute. reflexivity.
  - split; (rewrite Hs; [vm_compute; reflexivity |]); exists [ListedOp "echo" "say" "api" JNull JNull; ListedOp "echo" "shout" "api" JNull JNull];
      (split; [vm_compute; by left | vm_compute; reflexivity]).
Defined.

Lemma settings_saved_witness :
  exists caller_id, policy_for caller_id (ow_store (apply (Ok w_tools) "ann" w_request "root" w_created).2) = w_after.
Proof.
  destruct (settings_saved (Ok w_tools) "ann" w_request "root" w_created w_after (apply (Ok w_tools) "ann" w_request "root" w_created).2)
    as (cat & current & caller_id & s & _ & _ & _ & _ & _ & _ & _ & Hp).
  - vm_compute. reflexivity.
  - by exists caller_id.
Defined.
