(* ===== verification/ToolyardConfig.v ===== *)
(** toolyard/config.py, toolyard/sandbox.py and toolyard/sps_config.py: what the
    toolyard reads before it runs a tool.

    Parsing of TOML and the digest of a file are the interface [Manifests] of
    Registry.v; a TOML value is a [json] value that is never null, and fields
    [load] does not check stay [json]. *)

From stdpp Require Import base tactics list strings.
From Stdlib Require Import ZArith Lia Ascii.
From S2P Require Import Prelude PyStr Json Action Policy Url Registry FwdConfig SpsConfig.

(** ** config.py *)

Record SecretSpec_ := SecretSpec { ss_name : json; ss_field : json; ss_writable : json; ss_item : json }.

Record ToolDef_ := ToolDef {
  td_id : string; td_type : string; td_port : Z; td_command : json; td_image : json;
  td_secrets : list SecretSpec_; td_path : string; td_description : json; td_egress : list string;
  td_manifest_digest : option string }.

(** [s[key]] on a parsed value. *)
Definition py_index (s : json) (key : string) : res json :=
  match s with JObj d => res_of_option KeyError (dget d key) | _ => Raise TypeError end.

Definition secret_spec (s : json) : res SecretSpec_ :=
  name ← py_index s "name";
  field ← py_index s "field";
  writable ← py_get s "writable" (JBool false);
  item ← py_get s "item" JNull;
  Ok (SecretSpec name field writable item).

(** [v in {...}], where [v] must have a hash. *)
Definition in_set (v : json) (l : list string) : res bool :=
  _ ← raise_if (negb (hashable v)) TypeError; Ok (is_one_of v l).

Definition check_rule (writable : list string) (rule : json) : res unit :=
  match rule with
  | JObj r =>
      known ← in_set (jget r "secret_name") writable;
      _ ← raise_if (negb known) ValueError;
      typed ← in_set (jget r "response_type") RULE_RESPONSE_TYPES;
      _ ← raise_if (negb typed) ValueError;
      _ ← raise_if (negb (truthy (jget r "extract_path"))) ValueError;
      raise_if (negb (truthy (jget r "match_status"))) ValueError
  | _ => Ok tt
  end.

Definition check_operation (writable : list string) (op : json) : res unit :=
  match op with
  | JObj o =>
      rules ← py_iter (default (JArr []) (dget o "secret_update_rules"));
      foldM (fun _ => check_rule writable) tt rules
  | _ => Ok tt
  end.

Definition writable_names (acc : list string) (item : json) : res (list string) :=
  match item with
  | JObj d =>
      match jget d "name" with
      | JStr name => Ok (if bool_decide (dget d "writable" = Some (JBool true)) then name :: acc else acc)
      | _ => Ok acc
      end
  | _ => Raise ValueError
  end.

Definition _validate_rest (data : dict json) : res unit :=
  match jget data "base_url" with
  | JStr base_url =>
      _ ← raise_if (PyStr.empty base_url) ValueError;
      split ← urlsplit base_url;
      _ ← raise_if (negb (one_of ["http"; "https"]%string (u_scheme split)) || negb (truthy_opt (u_hostname split))) ValueError;
      _ ← raise_if (negb (bool_decide (u_credentials split = (None, None)))) ValueError;
      match default (JArr []) (dget data "secrets") with
      | JArr secrets =>
          writable ← foldM writable_names [] secrets;
          ops ← py_iter (default (JArr []) (dget data "operations"));
          foldM (fun _ => check_operation writable) tt ops
      | _ => Raise ValueError
      end
  | _ => Raise ValueError
  end.

Definition egress_of (v : json) : res (list string) :=
  match v with
  | JArr l =>
      match str_list l with
      | Some hosts => _ ← raise_if (existsb PyStr.empty hosts) ValueError; Ok hosts
      | None => Raise ValueError
      end
  | _ => Raise ValueError
  end.

Section Load.
Context `{Manifests}.

(** The definition of a manifest's bytes and what they parse to;
    [Path(...).parent] of [dir/toolyard.toml] is [dir]. *)
Definition tool_def_of (dir raw : string) (data : dict json) : res ToolDef_ :=
  match jget data "id" with
  | JStr tool_id =>
      _ ← raise_if (negb (id_match tool_id)) ValueError;
      let entrypoint := default (JObj []) (dget data "entrypoint") in
      match default (JStr "api") (dget data "type") with
      | JStr tool_type =>
          _ ← raise_if (negb (mem_str tool_type TOOL_TYPES)) ValueError;
          port ← py_get entrypoint "port" JNull;
          match port with
          | JInt p =>
              _ ← raise_if (negb (valid_port port)) ValueError;
              _ ← (if String.eqb tool_type "rest" then _validate_rest data else Ok tt);
              items ← py_iter (default (JArr []) (dget data "secrets"));
              secrets ← foldM (fun acc s => x ← secret_spec s; Ok (acc ++ [x])) [] items;
              raw_egress ← py_get (default (JObj []) (dget data "sandbox")) "egress" (JArr []);
              egress ← egress_of raw_egress;
              command ← py_get entrypoint "command" JNull;
              image ← py_get entrypoint "image" JNull;
              Ok (ToolDef tool_id tool_type p
                    (if truthy command then command
                     else if String.eqb tool_type "rest" then JStr "python3 -m toolstack_forwarder" else JNull)
                    image secrets dir (default (JStr EmptyString) (dget data "description")) egress (Some (file_digest raw)))
          | _ => Raise ValueError
          end
      | _ => Raise ValueError
      end
  | _ => Raise ValueError
  end.

(** [read path] is the contents of the file, [None] an [OSError]. *)
Definition load (read : string -> option string) (dir : string) : res ToolDef_ :=
  raw ← res_of_option (OtherExn "OSError") (read (dir +:+ "/toolyard.toml"));
  data ← toml_loads raw;
  tool_def_of dir raw data.

(** [names] are the sub-directories of the root that hold a manifest. *)
Definition discover (read : string -> option string) (root : string) (names : list string) : res (list ToolDef_) :=
  foldM (fun acc name => d ← load read (root +:+ "/" +:+ name); Ok (acc ++ [d])) [] (sorted_set names).
End Load.

(** ** sandbox.py *)

Record EgressPolicy_ := EgressPolicy { ep_allow : list string }.

Definition denies_all (p : EgressPolicy_) : bool := bool_decide (ep_allow p = []).

(** [cpu] is a decimal fraction of a core, counted in thousandths. *)
Record ResourceCaps_ := ResourceCaps { memory_mb : option Z; cpu : option Z; pids : option Z }.

Definition positive_cap (cap : option Z) : bool := match cap with Some v => 0 <? v | None => true end.

Definition make_caps (memory cpu_ pids_ : option Z) : res ResourceCaps_ :=
  _ ← raise_if (negb (positive_cap memory && positive_cap pids_ && positive_cap cpu_)) ValueError;
  Ok (ResourceCaps memory cpu_ pids_).

Record SandboxPolicy_ := SandboxPolicy { sp_egress : EgressPolicy_; sp_resources : ResourceCaps_ }.

Definition no_caps : ResourceCaps_ := ResourceCaps None None None.
Definition baseline : SandboxPolicy_ := SandboxPolicy (EgressPolicy []) no_caps.

(** ** sps_config.py *)

Definition squote : ascii := chr 39.

(** The quote that opens at a quote character: three of them, or one. *)
Definition opening (c : ascii) (l : list ascii) : list ascii :=
  if bool_decide (take 3 l = [c; c; c]) then [c; c; c] else [c].

Definition at_quote (quote l : list ascii) : bool := bool_decide (take (length quote) l = quote).

(** The scan of one line: what is left of it, the open quote and the depth.
    Each turn consumes a character, so the length of the line is enough fuel. *)
Fixpoint scan_line (fuel : nat) (l : list ascii) (quote : option (list ascii)) (depth : Z) : option (list ascii) * Z :=
  match fuel, l with
  | O, _ | _, [] => (quote, depth)
  | S fuel, c :: l' =>
      match quote with
      | Some q =>
          if bool_decide (head q = Some dquote) && Ascii.eqb c bslash then scan_line fuel (drop 2 l) quote depth
          else if at_quote q l then scan_line fuel (drop (length q) l) None depth
          else scan_line fuel l' quote depth
      | None =>
          if is_char "#" c then (None, depth)
          else if Ascii.eqb c dquote || Ascii.eqb c squote then
            scan_line fuel (drop (length (opening c l)) l) (Some (opening c l)) depth
          else if is_char "[" c || is_char "{" c then scan_line fuel l' None (depth + 1)
          else if is_char "]" c || is_char "}" c then scan_line fuel l' None (depth - 1)
          else scan_line fuel l' None depth
      end
  end.

(** The generator: the statements it yields, and the text left over, over
    which it raises when that is not blank. *)
Fixpoint _statements (lines : list string) (buf : string) (quote : option (list ascii)) (depth : Z)
    : list string * string :=
  match lines with
  | [] => ([], buf)
  | line :: lines' =>
      let buf := buf +:+ line in
      let '(quote, depth) := scan_line (String.length line) (chars line) quote depth in
      match quote with
      | None =>
          if depth =? 0 then let '(l, rest) := _statements lines' EmptyString None depth in (buf :: l, rest)
          else _statements lines' buf None depth
      | Some _ => _statements lines' buf quote depth
      end
  end.

(** The lines of a text file, line ends kept. *)
Fixpoint lines_of (l : list ascii) (acc : list ascii) : list string :=
  match l with
  | [] => match acc with [] => [] | _ => [of_chars (rev acc)] end
  | c :: l' => if Ascii.eqb c newline then of_chars (rev (c :: acc)) :: lines_of l' [] else lines_of l' (c :: acc)
  end.

(** The name before the first equals sign, without blanks and quotes. *)
Definition is_quote (c : ascii) : bool := Ascii.eqb c dquote || Ascii.eqb c squote.
Definition strip_quotes (s : string) : string :=
  of_chars (rev (drop_while is_quote (rev (drop_while is_quote (chars s))))).
Definition setting_key (text : string) : string := strip_quotes (strip (partition_char "=" text).1.1).

Definition SETTINGS : list string := ["SP_HOST"; "SP_PORT"; "SP_TLS_CA"; "SP_SECRET"]%string.

Record RegistrationConfig_ := RegistrationConfig { rg_host : string; rg_port : Z; rg_secret : string; rg_tls_ca : string }.

Section Registration.
Variable loads_toml : string -> res (dict json).

(** The loop over the statements. *)
Fixpoint settings_of (stmts : list string) (rest : string) (data : dict json) : res (dict json) :=
  match stmts with
  | [] => _ ← raise_if (negb (PyStr.empty (strip rest))) ValueError; Ok data
  | statement :: stmts' =>
      let text := strip statement in
      if starts_with "[" text then Ok data
      else if PyStr.empty text || starts_with "#" text then settings_of stmts' rest data
      else
        let key := setting_key text in
        if negb (one_of SETTINGS key) then settings_of stmts' rest data
        else
          match loads_toml text with
          | Raise _ => Raise ValueError
          | Ok value =>
              match value with
              | [(k, v)] =>
                  _ ← raise_if (negb (String.eqb k key) || dmem data key) ValueError;
                  settings_of stmts' rest (dset data k v)
              | _ => Raise ValueError
              end
          end
  end.

Definition required_setting (data : dict json) (key : string) : res string :=
  match dget data key with
  | Some (JStr v) => _ ← raise_if (PyStr.empty v) ValueError; Ok v
  | _ => Raise ValueError
  end.

(** The file: its kind, its mode bits and its text. *)
Definition load_registration_config (file : option (file_kind * Z * string)) : res RegistrationConfig_ :=
  match file with
  | None => Raise (OtherExn "OSError")
  | Some (kind, mode, text) =>
      _ ← raise_if (match kind with RegularFile => negb (mode =? 384) | _ => true end) ConfigModeError;
      let '(stmts, rest) := _statements (lines_of (chars text) []) EmptyString None 0 in
      data ← settings_of stmts rest [];
      host ← required_setting data "SP_HOST";
      port ← required_setting data "SP_PORT";
      secret ← required_setting data "SP_SECRET";
      match default (JStr EmptyString) (dget data "SP_TLS_CA") with
      | JStr ca => p ← py_int port; Ok (RegistrationConfig host p secret ca)
      | _ => Raise ValueError
      end
  end.
End Registration.

Definition parse_verify (environ : dict string) (value : json) : res bool :=
  verify ← parse_bool value;
  _ ← raise_if (negb verify && negb (bool_decide (dget environ "TOOLSTACK_SPS_DEV" = Some "1"%string))) ValueError;
  Ok verify.

(** ** The manifest *)

(** What the runner may rely on. *)
Record tool_def_ok (d : ToolDef_) : Prop := {
  td_id_ok : id_match (td_id d) = true;
  td_type_ok : In (td_type d) TOOL_TYPES;
  td_port_ok : 1 <= td_port d <= 65535;
  td_egress_ok : Forall (fun h => PyStr.empty h = false) (td_egress d);
  td_rest_command : td_type d = "rest"%string -> truthy (td_command d) = true }.

Lemma mem_str_elem x l : mem_str x l = true -> In x l.
Proof. unfold mem_str. intros (y & Hy & ->%String.eqb_eq)%existsb_exists. done. Qed.

Lemma egress_of_ok v l : egress_of v = Ok l -> Forall (fun h => PyStr.empty h = false) l.
Proof.
  unfold egress_of. destruct v as [| | | | |l0|]; try done. destruct (str_list l0) as [hosts|]; [|done].
  intros H. inv_bind. apply List.Forall_forall. intros h Hh.
  destruct (PyStr.empty h) eqn:E'; [|done]. exfalso.
  assert (existsb PyStr.empty l = true) as Ht by (apply existsb_exists; eauto). congruence.
Qed.

(** A manifest the toolyard loads gives a tool it can run: a routable
    identifier, a known type, a port in range, allow lists of non-empty hosts and, for a
    rest tool, a command. *)
Theorem loaded_tool_ok `{MF : Manifests} dir raw data d : tool_def_of dir raw data = Ok d -> tool_def_ok d.
Proof.
  unfold tool_def_of. destruct (jget data "id") as [| | | |tool_id| |]; try done. intros H. inv_bind.
  destruct (default _ (dget data "type")) as [| | | |ty| |]; try done. inv_bind.
  match goal with H : match ?x with _ => _ end = Ok _ |- _ => destruct x as [| |p| | | |]; try done end. inv_bind. to_prop.
  match goal with Hm : mem_str _ _ = true |- _ => apply mem_str_elem in Hm end.
  match goal with Hv : valid_port _ = true |- _ => cbn in Hv end. to_prop. constructor; cbn; try done; [by eapply egress_of_ok |].
  intros ->. rewrite String.eqb_refl. match goal with |- truthy (if truthy ?c then _ else _) = true => destruct (truthy c) eqn:Ec; done end.
Qed.

Lemma views_agree `{MF : Manifests} cat cat' dir path raw data d :
  add_manifest cat path raw data = Ok cat' -> tool_def_of dir raw data = Ok d ->
  exists e, dget cat' (td_id d) = Some e /\ jget data "id" = JStr (td_id d) /\ td_port d = en_port e /\ td_type d = en_type e
    /\ td_manifest_digest d = Some (en_manifest_digest e).
Proof.
  unfold tool_def_of, add_manifest. destruct (jget data "id") as [| | | |tool_id| |]; try done.
  destruct (default _ (dget data "type")) as [| | | |ty| |]; try (intros; inv_bind; done).
  intros H1 H2. inv_bind. repeat match goal with H : match ?x with _ => _ end = Ok _ |- _ => destruct x; try done end.
  inv_bind. eexists. split; [apply dget_dset_eq |].
  repeat match goal with H : py_get _ _ _ = Ok _, H' : py_get _ _ _ = Ok _ |- _ => rewrite H in H'; injection H' as -> end.
  done.
Qed.

Lemma tool_def_digest `{MF : Manifests} dir raw data d : tool_def_of dir raw data = Ok d -> td_manifest_digest d = Some (file_digest raw).
Proof.
  unfold tool_def_of. destruct (jget data "id"); try done. intros H1. inv_bind.
  destruct (default _ (dget data "type")); try done. inv_bind.
  match goal with H : match ?x with _ => _ end = Ok _ |- _ => destruct x; try done end. by inv_bind.
Qed.

(** C31. The broker's catalog and the toolyard read a manifest with loaders of
    their own, each parsing and hashing the bytes it has read. When both accept
    it, the digest each keeps is that of the bytes it read itself; when those are
    the same bytes, they agree on the tool it defines: the id, the port, the type
    and the digest. *)
Theorem manifest_views_agree `{MF : Manifests} read read' dir raw raw' cat cat' d :
  read (dir +:+ "/toolyard.toml") = Some raw -> read' (dir +:+ "/toolyard.toml") = Some raw' ->
  _add_toml read cat (dir +:+ "/toolyard.toml") = Ok cat' -> load read' dir = Ok d ->
  exists tool e, dget cat' tool = Some e /\ en_manifest_path e = dir +:+ "/toolyard.toml"
    /\ en_manifest_digest e = file_digest raw /\ td_manifest_digest d = Some (file_digest raw')
    /\ (raw = raw' -> td_id d = tool /\ td_port d = en_port e /\ td_type d = en_type e
          /\ td_manifest_digest d = Some (en_manifest_digest e)).
Proof.
  intros Hread Hread' H1 H2. unfold _add_toml in H1. unfold load in H2. rewrite Hread in H1. rewrite Hread' in H2.
  cbn [res_of_option mbind res_bind] in H1, H2. apply res_bind_ok in H1 as (data & Hd & H1), H2 as (data' & Hd' & H2).
  destruct (add_manifest_entry _ _ _ _ _ H1) as (tool & e & Ecat & Epath & Edig & Eid & _).
  pose proof (tool_def_digest _ _ _ _ H2) as Edig'.
  exists tool, e. subst cat'. split; [apply dget_dset_eq |]. split; [done |]. split; [done |]. split; [done |].
  intros <-. rewrite Edig', Edig. rewrite Hd in Hd'. injection Hd' as <-.
  destruct (views_agree _ _ _ _ _ _ _ H1 H2) as (e' & Eg & Eid' & Ep & Et & _). rewrite Eid in Eid'. injection Eid' as ->.
  rewrite dget_dset_eq in Eg. by injection Eg as <-.
Qed.

(** ** The settings *)

Definition joined (l : list string) : string := foldr String.append EmptyString l.

(** Framing loses no text: the statements and what is left over are the
    file. *)
Lemma statements_lossless lines : forall buf quote depth,
  let '(l, rest) := _statements lines buf quote depth in joined l +:+ rest = buf +:+ joined lines.
Proof.
  induction lines as [|line lines IH]; intros buf quote depth; cbn [_statements]; [symmetry; apply str_app_nil |].
  destruct (scan_line _ _ _ _) as [[q|] d]; cbn [joined foldr]; fold (joined lines).
  - specialize (IH (buf +:+ line) (Some q) d). destruct (_statements _ _ _ _). by rewrite IH, str_assoc.
  - destruct (d =? 0).
    + specialize (IH EmptyString None d). destruct (_statements _ _ _ _) as [l rest].
      cbn [joined foldr]. fold (joined l). rewrite str_assoc, IH. by rewrite str_assoc.
    + specialize (IH (buf +:+ line) None d). destruct (_statements _ _ _ _). by rewrite IH, str_assoc.
Qed.

Lemma lines_of_joined l : forall acc, joined (lines_of l acc) = of_chars (rev acc ++ l).
Proof.
  induction l as [|c l IH]; intros acc; cbn [lines_of].
  - rewrite app_nil_r. destruct acc; [done |]. apply str_app_nil.
  - destruct (Ascii.eqb c newline).
    + cbn [joined foldr]. fold (joined (lines_of l [])). rewrite IH. cbn [rev app].
      change ((rev acc ++ [c]) ++ [])%list with ((rev acc ++ [c]) ++ [])%list.
      rewrite <- (of_chars_chars (_ +:+ _)). rewrite chars_app, !chars_of_chars. by rewrite <- (assoc_L (++)).
    + rewrite IH. cbn [rev]. by rewrite <- (assoc_L (++)).
Qed.

Lemma framing_lossless text :
  let '(l, rest) := _statements (lines_of (chars text) []) EmptyString None 0 in joined l +:+ rest = text.
Proof.
  pose proof (statements_lossless (lines_of (chars text) []) EmptyString None 0) as H.
  destruct (_statements _ _ _ _). rewrite H, lines_of_joined. apply of_chars_chars.
Qed.

(** Two parsers that agree on the statements of the registration settings. *)
Definition agree_on_settings (p1 p2 : string -> res (dict json)) : Prop :=
  forall text, one_of SETTINGS (setting_key text) = true -> p1 text = p2 text.

Lemma settings_of_agree p1 p2 rest l : agree_on_settings p1 p2 -> forall data, settings_of p1 l rest data = settings_of p2 l rest data.
Proof.
  intros Hp. induction l as [|st l IH]; intros data; cbn [settings_of]; [done |].
  destruct (starts_with _ _); [done |]. destruct (PyStr.empty _ || _); [done |].
  destruct (one_of SETTINGS (setting_key (strip st))) eqn:E; cbn [negb]; [|done].
  rewrite (Hp _ E). destruct (p2 (strip st)) as [v|]; [|done].
  destruct v as [|[k v] [|]]; try done. destruct (_ || _); [done |]. apply IH.
Qed.

(** Only the four registration settings are ever decoded: the provider's
    credentials, the master secrets of plugins and every other value of the
    file reach no parser, whatever they contain. *)
Theorem only_settings_decoded p1 p2 file : agree_on_settings p1 p2 ->
  load_registration_config p1 file = load_registration_config p2 file.
Proof.
  intros Hp. unfold load_registration_config. destruct file as [[[kind mode] text]|]; [|done].
  destruct (_ : res unit); [|done]. cbn [mbind res_bind]. destruct (_statements _ _ _ _) as [l rest].
  by rewrite (settings_of_agree p1 p2 rest l Hp).
Qed.

(** Nothing after the first table header is read. *)
Lemma settings_stop p l header tail tail' rest rest' data :
  starts_with "[" (strip header) = true ->
  settings_of p (l ++ header :: tail) rest data = settings_of p (l ++ header :: tail') rest' data.
Proof.
  intros Hh. revert data. induction l as [|st l IH]; intros data; cbn [settings_of app]; [by rewrite Hh |].
  repeat (case_match; try done); try apply IH.
  destruct (raise_if _ _); [|done]. apply IH.
Qed.

(** What registration uses: every value is a non-empty text of the file, and
    only a regular file of mode 0600 is read. *)
Lemma registration_ok p file cfg : load_registration_config p file = Ok cfg ->
  exists text, file = Some (RegularFile, 384, text) /\ rg_host cfg <> EmptyString /\ rg_secret cfg <> EmptyString.
Proof.
  unfold load_registration_config. destruct file as [[[kind mode] text]|]; [|done]. intros H. inv_bind.
  exists text. destruct kind; try done. to_prop. subst mode.
  destruct (_statements _ _ _ _) as [l rest]. inv_bind.
  destruct (default _ _) as [| | | |ca| |]; try done. inv_bind. unfold required_setting in *. cbn.
  destruct (dget _ "SP_HOST") as [[| | | |h| |]|]; try done. destruct (dget _ "SP_SECRET") as [[| | | |s| |]|]; try done.
  inv_bind. split; [done |]. by destruct a1, a3.
Qed.

(** Verification of the service's certificate is off only when the
    environment says this is a development machine. *)
Theorem verify_off_needs_dev environ value : parse_verify environ value = Ok false ->
  dget environ "TOOLSTACK_SPS_DEV" = Some "1"%string.
Proof.
  unfold parse_verify. destruct (parse_bool value) as [[|]|]; try done. cbn. by destruct (bool_decide_reflect (dget environ "TOOLSTACK_SPS_DEV" = Some "1"%string)).
Qed.

(** ** Witnesses *)

Definition w_rest : dict json :=
  [("id"%string, JStr "crm"); ("type"%string, JStr "rest"); ("base_url"%string, JStr "https://api.example.com");
   ("entrypoint"%string, JObj [("port"%string, JInt 9001)]);
   ("secrets"%string, JArr [JObj [("name"%string, JStr "KEY"); ("field"%string, JStr "key"); ("writable"%string, JBool true)]]);
   ("sandbox"%string, JObj [("egress"%string, JArr [JStr "api.example.com"])]);
   ("operations"%string, JArr [JObj [("name"%string, JStr "list"); ("verb"%string, JStr "get"); ("path"%string, JStr "/items");
     ("secret_update_rules"%string, JArr [JObj [("secret_name"%string, JStr "KEY"); ("response_type"%string, JStr "json");
       ("extract_path"%string, JStr "a"); ("match_status"%string, JStr "2xx")]])]])].

#[local] Instance w_manifests : Manifests := {|
  toml_loads := fun raw => if String.eqb raw "crm" then Ok w_rest else Raise ValueError; file_digest := fun s => "h:" +:+ s |}.

Lemma loaded_tool_ok_witness : exists d, tool_def_of "/t/crm" "0" w_rest = Ok d /\ tool_def_ok d.
Proof. eexists. split; [vm_compute; reflexivity | apply (loaded_tool_ok "/t/crm" "0" w_rest); vm_compute; reflexivity]. Defined.

Definition w_file (path : string) : option string := if String.eqb path "/t/crm/toolyard.toml" then Some "crm"%string else None.

Lemma manifest_views_agree_witness : exists cat d tool e, _add_toml w_file [] "/t/crm/toolyard.toml" = Ok cat
  /\ load w_file "/t/crm" = Ok d /\ dget cat tool = Some e /\ td_id d = tool /\ td_port d = en_port e
  /\ td_manifest_digest d = Some (en_manifest_digest e).
Proof.
  eassert (_add_toml w_file [] "/t/crm/toolyard.toml" = Ok _) as H1 by (vm_compute; reflexivity).
  eassert (load w_file "/t/crm" = Ok _) as H2 by (vm_compute; reflexivity).
  destruct (manifest_views_agree w_file w_file "/t/crm" "crm" "crm" [] _ _ eq_refl eq_refl H1 H2)
    as (tool & e & Hg & _ & _ & _ & Hsame).
  destruct (Hsame eq_refl) as (? & ? & _ & ?). do 2 eexists. exists tool, e.
  split; [exact H1 |]. split; [exact H2 |]. by split_and!.
Defined.

(** The lines of a file as the parser sees them, one setting each. *)
Definition w_line (text : string) : res (dict json) :=
  let '(k, _, v) := partition_char "=" text in Ok [(strip k, JStr (strip_quotes (strip v)))].

Definition w_nl : string := String newline EmptyString.
Definition w_env : string :=
  ("SP_HOST = '127.0.0.1'" +:+ w_nl +:+ "SP_PORT = '8743' # port" +:+ w_nl +:+ "MASTER = ['s3', " +:+ w_nl +:+ "'x']" +:+ w_nl +:+ "SP_SECRET = 'k'" +:+ w_nl
     +:+ "[infisical]" +:+ w_nl +:+ "SP_HOST = 'evil'" +:+ w_nl)%string.

Lemma only_settings_decoded_witness :
  load_registration_config (fun t => if one_of SETTINGS (setting_key t) then w_line t else Raise RuntimeError) (Some (RegularFile, 384, w_env))
  = load_registration_config w_line (Some (RegularFile, 384, w_env)).
Proof. apply only_settings_decoded. intros t ->. reflexivity. Defined.

Example w_settings : load_registration_config
    (fun t => if starts_with "SP_PORT" t then Ok [("SP_PORT"%string, JStr "8743")] else w_line t) (Some (RegularFile, 384, w_env))
  = Ok (RegistrationConfig "127.0.0.1" 8743 "k" EmptyString).
Proof. reflexivity. Qed.

Lemma verify_off_needs_dev_witness : parse_verify [("TOOLSTACK_SPS_DEV"%string, "1"%string)] (JStr "No ") = Ok false
  /\ dget [("TOOLSTACK_SPS_DEV"%string, "1"%string)] "TOOLSTACK_SPS_DEV" = Some "1"%string.
Proof. split; [reflexivity | apply (verify_off_needs_dev _ (JStr "No ")); reflexivity]. Defined.
