(* ===== verification/Process.v ===== *)
(** toolyard/runner.py, the processes of tools: identity, liveness, termination
    and the clean-up of a partial start.

    The operating system is the interface [Os]: every call answers what the
    kernel chooses, and [k_log] holds the calls that observe or signal a process
    together with their answers.  Times are microseconds. *)

From stdpp Require Import base tactics list strings.
From Stdlib Require Import ZArith Lia Ascii.
From S2P Require Import Prelude PyStr Json ToolyardConfig.

(** ** RunningTool *)

Record running_tool := RunningTool {
  rn_tool_id : string; rn_port : Z; rn_backend : string; rn_handle : string;
  rn_log_pid : option string; rn_log_path : option string; rn_egress_pid : option string;
  rn_launcher_pid : option string; rn_e_secret : option string; rn_sps_host : string; rn_sps_port : Z;
  rn_sps_ca : option string; rn_boot_id : option string; rn_channel_secret : option string;
  rn_process_identity : option string; rn_log_identity : option string; rn_egress_identity : option string;
  rn_process_exited : bool; rn_log_exited : bool; rn_egress_exited : bool;
  rn_secret_declarations : option (list SecretSpec_); rn_manifest_digest : option string }.

(** The constructor's defaults. *)
Definition new_running (tool_id : string) (port : Z) (backend : string) (log_path boot_id e_secret channel_secret : option string)
    (declarations : option (list SecretSpec_)) (digest : option string) : running_tool :=
  RunningTool tool_id port backend EmptyString None log_path None None e_secret "127.0.0.1" 8743 None boot_id channel_secret
    None None None false false false declarations digest.

(** The children of a tool: its main process, the log follower, the egress
    proxy. *)
Inductive child := CProcess | CLog | CEgress.

#[export] Instance child_eq_dec : EqDecision child.
Proof. solve_decision. Defined.

Definition identity_field (c : child) (r : running_tool) : option string :=
  match c with CProcess => rn_process_identity r | CLog => rn_log_identity r | CEgress => rn_egress_identity r end.

Definition exited_field (c : child) (r : running_tool) : bool :=
  match c with CProcess => rn_process_exited r | CLog => rn_log_exited r | CEgress => rn_egress_exited r end.

(** [replace(running, **{f"{kind}_exited": True})]. *)
Definition mark_exited (c : child) (r : running_tool) : running_tool :=
  let '(RunningTool i p b h lp lpath ep la es sh sp sc bo cs pi li ei px lx ex sd md) := r in
  match c with
  | CProcess => RunningTool i p b h lp lpath ep la es sh sp sc bo cs pi li ei true lx ex sd md
  | CLog => RunningTool i p b h lp lpath ep la es sh sp sc bo cs pi li ei px true ex sd md
  | CEgress => RunningTool i p b h lp lpath ep la es sh sp sc bo cs pi li ei px lx true sd md
  end.

Definition opt_handle (h : string) : option string := if PyStr.empty h then None else Some h.

(** [backend in ("process", "seatbelt")]. *)
Definition process_backend (b : string) : bool := String.eqb b "process" || String.eqb b "seatbelt".

(** The list [children] of [_cleanup_partial_start]. *)
Definition children (r : running_tool) : list (child * option string) :=
  (if process_backend (rn_backend r) then [(CProcess, opt_handle (rn_handle r))] else [])
  ++ [(CLog, rn_log_pid r); (CEgress, rn_egress_pid r)].

(** ** Exceptions *)

(** [RCleanup] is RunnerStartCleanupError with its record; [RInterrupt] any
    BaseException that is no Exception. *)
Inductive rexn :=
| RRuntimeError | RValueError | RTypeError | RConfigError | ROSError | RIndexError | RAttributeError | RLookupError | RSystemExit
| RSps | RInterrupt | RCleanup (r : running_tool) | RUnrecorded (r : running_tool).

(** A call returns, raises, or is still running when the fuel of a loop is
    used up. *)
Inductive outcome (A : Type) := Done (a : A) | Throw (e : rexn) | Diverge.
Arguments Done {A} a.
Arguments Throw {A} e.
Arguments Diverge {A}.

Definition M (S A : Type) : Type := S -> outcome A * S.

#[export] Instance M_ret {S} : MRet (M S) := fun _ a s => (Done a, s).
#[export] Instance M_bind {S} : MBind (M S) := fun _ _ f m s =>
  match m s with (Done a, s') => f a s' | (Throw e, s') => (Throw e, s') | (Diverge, s') => (Diverge, s') end.
Definition throw {S A} (e : rexn) : M S A := fun s => (Throw e, s).
Definition throw_if {S} (b : bool) (e : rexn) : M S unit := if b then throw e else mret tt.

(** [try: m except ...: h]; [h] sees every exception. *)
Definition catch {S A} (m : M S A) (h : rexn -> M S A) : M S A := fun s =>
  match m s with (Throw e, s') => h e s' | other => other end.

(** [try: m finally: f]; an exception of [f] replaces the one of [m]. *)
Definition finally {S A} (m : M S A) (f : M S unit) : M S A := fun s =>
  match m s with
  | (Done a, s') => match f s' with (Done _, s'') => (Done a, s'') | (Throw e, s'') => (Throw e, s'') | (Diverge, s'') => (Diverge, s'') end
  | (Throw e, s') => match f s' with (Done _, s'') => (Throw e, s'') | (Throw e', s'') => (Throw e', s'') | (Diverge, s'') => (Diverge, s'') end
  | (Diverge, s') => (Diverge, s')
  end.

(** Subclasses of Exception. *)
Definition is_exception (e : rexn) : bool := match e with RInterrupt | RSystemExit => false | _ => true end.

(** ** The operating system *)

Inductive sig := SIGTERM | SIGKILL.

(** os.waitpid with WNOHANG: the pid it reports (0 when none changed state),
    ChildProcessError, or another OSError. *)
Inductive waited := Waited (p : Z) | NoChild | WaitFails.
(** os.kill with signal 0: it exists, ESRCH, or another OSError. *)
Inductive probed := Exists | NoProcess | ProbeFails.
(** os.killpg: delivered, ESRCH, EPERM, or another OSError. *)
Inductive signalled := Sent | NoGroup | Denied | SignalFails.

#[export] Instance waited_eq_dec : EqDecision waited.
Proof. solve_decision. Defined.
#[export] Instance probed_eq_dec : EqDecision probed.
Proof. solve_decision. Defined.
#[export] Instance sig_eq_dec : EqDecision sig.
Proof. solve_decision. Defined.

(** What os.posix_spawn starts. *)
Record spawn_request := SpawnRequest { sr_exe : string; sr_argv : list string; sr_env : dict string }.

(** [EvRegister] and [EvUnregister] are calls to the secret service. *)
Inductive event :=
| EvIdentity (pid : Z) (answer : option string)
| EvWait (pid : Z) (answer : waited)
| EvProbe (pid : Z) (answer : probed)
| EvSignal (pid : Z) (s : sig) (answer : signalled)
| EvSpawn (what : child) (req : spawn_request) (pid : Z)
| EvRegister (tool_id : string) (answered : bool)
| EvUnregister (tool_id : string).

Inductive os_platform := Linux | Darwin | OtherPlatform.

(** [os_boot_file] reads the boot identifier of Linux, [os_sysctl] runs sysctl
    ([None]: it cannot be run), [os_stat] reads /proc/pid/stat, [os_pidinfo]
    asks libproc; [os_sleep] answers false when the sleep is interrupted. *)
Class Os (N : Type) := {
  platform : os_platform;
  os_boot_file : N -> option string * N;
  os_sysctl : N -> option (Z * string) * N;
  os_stat : N -> Z -> option string * N;
  os_pidinfo : N -> Z -> option (Z * Z) * N;
  os_waitpid : N -> Z -> waited * N;
  os_kill0 : N -> Z -> probed * N;
  os_killpg : N -> Z -> sig -> signalled * N;
  os_monotonic : N -> Z * N;
  os_sleep : N -> Z -> bool * N }.

(** [k_boot] is the cache of [_boot_id]. *)
Record kernel (N : Type) := Kernel { k_os : N; k_boot : option (option string); k_log : list event }.
Arguments Kernel {N}.
Arguments k_os {N}.
Arguments k_boot {N}.
Arguments k_log {N}.

Definition nonempty (s : string) : option string := if PyStr.empty s then None else Some s.

(** [str.rfind] of a character: its last index, or -1. *)
Fixpoint rfind_from (c : ascii) (l : list ascii) (i best : Z) : Z :=
  match l with [] => best | d :: l' => rfind_from c l' (i + 1) (if Ascii.eqb c d then i else best) end.
Definition rfind (c : ascii) (s : string) : Z := rfind_from c (chars s) 0 (-1).

(** [str.split()]. *)
Fixpoint words_of (l word : list ascii) : list string :=
  let flush := match word with [] => [] | _ => [of_chars (rev word)] end in
  match l with
  | [] => flush
  | c :: l' => if is_space c then flush ++ words_of l' [] else words_of l' (c :: word)
  end.
Definition split_words (s : string) : list string := words_of (chars s) [].

(** The start time: the field of index 19 after the command name. *)
Definition stat_start_time (text : string) : option string :=
  nth_error (split_words (str_drop (Z.to_nat (rfind ")" text + 2)) text)) 19.

Section Process.
Context {N : Type} `{Os N}.

Definition PM (A : Type) : Type := M (kernel N) A.

(** A call that is not recorded, and one that is. *)
Definition quiet {A} (f : N -> A * N) : PM A := fun k =>
  let '(a, n) := f (k_os k) in (Done a, Kernel n (k_boot k) (k_log k)).
Definition noted {A} (f : N -> A * N) (ev : A -> event) : PM A := fun k =>
  let '(a, n) := f (k_os k) in (Done a, Kernel n (k_boot k) (k_log k ++ [ev a])).

Definition read_boot_id : PM (option string) :=
  file ← quiet os_boot_file;
  match file with
  | Some text => mret (nonempty (strip text))
  | None =>
      result ← quiet os_sysctl;
      match result with
      | Some (code, out) => mret (if code =? 0 then nonempty (strip out) else None)
      | None => mret None
      end
  end.

Definition remember_boot (b : option string) : PM (option string) := fun k =>
  (Done b, Kernel (k_os k) (Some b) (k_log k)).

(** [functools.cache]. *)
Definition _boot_id : PM (option string) := fun k =>
  match k_boot k with Some b => (Done b, k) | None => (b ← read_boot_id; remember_boot b) k end.

(** The start time of a process; [Some None] is an IndexError. *)
Definition read_identity (pid : Z) (n : N) : option (option string) * N :=
  match platform with
  | Linux =>
      let '(text, n) := os_stat n pid in
      (match text with Some t => match stat_start_time t with Some w => Some (Some w) | None => None end | None => Some None end, n)
  | Darwin =>
      let '(info, n) := os_pidinfo n pid in
      (Some ((fun sm : Z * Z => str_of_Z sm.1 +:+ ":" +:+ str_of_Z sm.2) <$> info), n)
  | OtherPlatform => (Some None, n)
  end.

Definition identity_at (pid : Z) : PM (option string) :=
  answer ← noted (read_identity pid) (fun a => EvIdentity pid (default None a));
  match answer with Some i => mret i | None => throw RIndexError end.

Definition _process_identity (pid : option string) : PM (option string) :=
  match pid with
  | None => mret None
  | Some p => match py_int p with Ok z => identity_at z | Raise _ => mret None end
  end.

Definition waitpid (pid : Z) : PM waited := noted (fun n => os_waitpid n pid) (EvWait pid).
Definition kill0 (pid : Z) : PM probed := noted (fun n => os_kill0 n pid) (EvProbe pid).
Definition killpg (pid : Z) (s : sig) : PM signalled := noted (fun n => os_killpg n pid s) (EvSignal pid s).
Definition monotonic : PM Z := quiet os_monotonic.
Definition sleep (t : Z) : PM unit :=
  finished ← quiet (fun n => os_sleep n t); if (finished : bool) then mret tt else throw RInterrupt.

Definition _pid_absent (pid : Z) : PM bool :=
  if pid <=? 1 then throw RRuntimeError
  else
    answer ← kill0 pid;
    match answer with Exists => mret false | NoProcess => mret true | ProbeFails => throw RRuntimeError end.

Definition truthy_id (o : option string) : bool := match o with Some s => negb (PyStr.empty s) | None => false end.

Definition _pids_are_current (r : running_tool) : PM bool :=
  current ← _boot_id;
  if bool_decide (current <> None) && bool_decide (rn_boot_id r = current) && bool_decide (rn_process_identity r <> None) then
    identity ← _process_identity (Some (rn_handle r));
    mret (bool_decide (identity = rn_process_identity r))
  else mret false.

(** ** _terminate *)

Definition reaped (pid : Z) : PM bool :=
  answer ← waitpid pid;
  match answer with Waited p => mret (p =? pid) | NoChild => mret false | WaitFails => throw ROSError end.

(** [current is not None and current != identity], with [identity] known. *)
Definition changed (identity current : option string) : bool :=
  match identity, current with Some i, Some c => negb (String.eqb c i) | _, _ => false end.

Definition check_exit (pid : Z) (identity boot : option string) : PM bool :=
  current_boot ← _boot_id;
  if truthy_id boot && truthy_id current_boot && negb (bool_decide (boot = current_boot)) then mret true
  else if truthy_id boot && bool_decide (current_boot = None) then throw RRuntimeError
  else
    current ← identity_at pid;
    if changed identity current then throw RRuntimeError
    else
      gone ← reaped pid;
      if (gone : bool) then mret true
      else if negb (truthy_id boot) || negb (truthy_id current_boot) then throw RRuntimeError
      else _pid_absent pid.

Definition poll_interval : Z := 50000.

(** The wait for an exit; every turn sleeps. *)
Fixpoint await_exit (fuel : nat) (pid : Z) (identity boot : option string) (deadline : Z) : PM bool :=
  match fuel with
  | O => fun k => (Diverge, k)
  | S fuel =>
      now ← monotonic;
      if now <? deadline then
        gone ← check_exit pid identity boot;
        if (gone : bool) then mret true
        else _ ← sleep poll_interval; await_exit fuel pid identity boot deadline
      else check_exit pid identity boot
  end.

(** [boot_id and _boot_id() == boot_id and identity and
    _process_identity(pid) == identity], in that order. *)
Definition confirmed (pid : Z) (identity boot : option string) : PM bool :=
  if truthy_id boot then
    current_boot ← _boot_id;
    if bool_decide (current_boot = boot) && truthy_id identity then
      current ← identity_at pid; mret (bool_decide (current = identity))
    else mret false
  else mret false.

(** One signal and the wait after it; [true] when the process is gone. *)
Definition signal_round (fuel : nat) (pid : Z) (identity boot : option string) (s : sig) (delay : Z) : PM bool :=
  ok ← confirmed pid identity boot;
  if negb ok then throw RRuntimeError
  else
    answer ← killpg pid s;
    match answer with
    | Denied => gone ← check_exit pid identity boot; if (gone : bool) then mret true else throw RRuntimeError
    | SignalFails => throw ROSError
    | Sent | NoGroup => now ← monotonic; await_exit fuel pid identity boot (now + delay)
    end.

Definition terminate_pid (fuel : nat) (pid : Z) (identity boot : option string) : PM unit :=
  gone ← check_exit pid identity boot;
  if (gone : bool) then mret tt
  else
    gone ← signal_round fuel pid identity boot SIGTERM 2000000;
    if (gone : bool) then mret tt
    else
      gone ← signal_round fuel pid identity boot SIGKILL 1000000;
      if (gone : bool) then mret tt else throw RRuntimeError.

Definition _terminate (fuel : nat) (pid identity boot : option string) : PM unit :=
  match pid with
  | None => mret tt
  | Some p =>
      match py_int p with
      | Raise _ => mret tt
      | Ok pid_int => if pid_int <=? 1 then mret tt else terminate_pid fuel pid_int identity boot
      end
  end.

(** ** _cleanup_partial_start *)

(** The body of the loop: the record and whether anything failed so far. *)
Definition stop_child (fuel : nat) (c : child) (pid : string) (r : running_tool) : PM running_tool :=
  match py_int pid with
  | Raise _ => throw RValueError
  | Ok z =>
      _ ← throw_if (z <=? 1) RValueError;
      _ ← _terminate fuel (Some pid) (identity_field c r) (rn_boot_id r);
      mret (mark_exited c r)
  end.

Fixpoint stop_children (fuel : nat) (l : list (child * option string)) (r : running_tool) (failed : bool)
    : PM (running_tool * bool) :=
  match l with
  | [] => mret (r, failed)
  | (c, pid) :: l' =>
      match pid with
      | Some p =>
          if exited_field c r then stop_children fuel l' r failed
          else
            x ← catch (r' ← stop_child fuel c p r; mret (Some r')) (fun _ => mret None);
            match x with
            | Some r' => stop_children fuel l' r' failed
            | None => stop_children fuel l' r true
            end
      | None => stop_children fuel l' r failed
      end
  end.

Definition _cleanup_partial_start (fuel : nat) (r : running_tool) : PM running_tool :=
  x ← stop_children fuel (children r) r false;
  if (x.2 : bool) then throw (RCleanup x.1) else mret x.1.

(** ** ProcessRunner.is_alive *)

(** The part of [is_alive] after the boot and the identity were compared. *)
Definition probe_alive (pid : Z) r : PM (bool * bool) :=
  answer ← waitpid pid;
  match answer with
  | Waited p => if p =? 0 then mret (true, false) else mret (false, true)
  | WaitFails => throw ROSError
  | NoChild =>
      absent ← _pid_absent pid;
      if (absent : bool) then mret (false, false)
      else current ← _pids_are_current r;
           if (current : bool) then mret (true, false) else throw RRuntimeError
  end.

(** The answer, and whether the exit was reaped here ([_on_reaped]). *)
Definition is_alive (r : running_tool) : PM (bool * bool) :=
  if rn_process_exited r then mret (false, false)
  else if PyStr.empty (rn_handle r) then mret (false, false)
  else
    match py_int (rn_handle r) with
    | Raise _ => throw RValueError
    | Ok pid =>
        current_boot ← _boot_id;
        if truthy_id (rn_boot_id r) && truthy_id current_boot && negb (bool_decide (rn_boot_id r = current_boot))
        then mret (false, false)
        else
          current ← identity_at pid;
          if negb (truthy_id (rn_boot_id r)) || negb (truthy_id current_boot) then throw RConfigError
          else if changed (rn_process_identity r) current then mret (false, false)
          else if negb (truthy_id (rn_process_identity r)) then
            absent ← _pid_absent pid;
            if (absent : bool) then mret (false, false) else throw RConfigError
          else
            probe_alive pid r
    end.
End Process.
