(* ===== verification/ProcessFacts.v ===== *)
(** What is certain about the processes of tools: which signals are sent, when
    a process counts as gone, and that termination ends. *)

From stdpp Require Import base tactics list strings.
From Stdlib Require Import ZArith Lia Ascii.
From S2P Require Import Prelude PyStr Json ToolyardConfig Process.

(** ** Effects on the log

    [does m V]: whatever [m] answers, it only appends events [l] to the log,
    leaves a boot identifier that is known as it is, and [V] holds of the boot
    identifier then known and [l]. *)

Definition boot_le (a b : option (option string)) : Prop := a = None \/ a = b.

Record effects := Effects {
  fx_holds :> option (option string) -> list event -> Prop;
  fx_nil : forall b, fx_holds b [];
  fx_app : forall b l1 l2, fx_holds b l1 -> fx_holds b l2 -> fx_holds b (l1 ++ l2);
  fx_boot : forall a b l, boot_le a b -> fx_holds a l -> fx_holds b l }.

Lemma boot_le_refl a : boot_le a a.
Proof. by right. Qed.
Lemma boot_le_trans a b c : boot_le a b -> boot_le b c -> boot_le a c.
Proof. intros [-> | ->]; [by left | done]. Qed.
Lemma boot_le_some x b : boot_le (Some x) b -> b = Some x.
Proof. by intros [|]. Qed.

#[export] Hint Resolve boot_le_refl : core.

Section Facts.
Context {N : Type} `{Os N}.
Implicit Types (k : kernel N) (r : running_tool) (c : child).

Definition reach (V : option (option string) -> list event -> Prop) k k' : Prop :=
  exists l, k_log k' = k_log k ++ l /\ boot_le (k_boot k) (k_boot k') /\ V (k_boot k') l.

Definition does {A} (V : effects) (m : PM A) : Prop := forall k, reach V k (m k).2.

Lemma reach_refl (V : effects) k : reach V k k.
Proof. exists []. rewrite app_nil_r. split; [done |]. split; [done | apply fx_nil]. Qed.

Lemma reach_trans (V : effects) k1 k2 k3 : reach V k1 k2 -> reach V k2 k3 -> reach V k1 k3.
Proof.
  intros (l1 & E1 & B1 & H1) (l2 & E2 & B2 & H2). exists (l1 ++ l2). rewrite E2, E1, <- (assoc_L (++)).
  split; [done |]. split; [by eapply boot_le_trans |]. apply fx_app; [by eapply fx_boot | done].
Qed.

Lemma does_ret {A} V (a : A) : does V (mret a).
Proof. intros k. apply reach_refl. Qed.

Lemma does_throw {A} V e : does V (throw e : PM A).
Proof. intros k. apply reach_refl. Qed.

Lemma does_throw_if V b e : does V (throw_if b e : PM unit).
Proof. destruct b; [apply does_throw | apply does_ret]. Qed.

Lemma does_bind {A B} V (m : PM A) (f : A -> PM B) : does V m -> (forall a, does V (f a)) -> does V (m ≫= f).
Proof.
  intros Hm Hf k. unfold mbind, M_bind. specialize (Hm k). destruct (m k) as [[a | e |] k1]; [|done..].
  eapply reach_trans; [exact Hm | apply Hf].
Qed.

Lemma does_catch {A} V (m : PM A) h : does V m -> (forall e, does V (h e)) -> does V (catch m h).
Proof.
  intros Hm Hh k. unfold catch. specialize (Hm k). destruct (m k) as [[a | e |] k1]; [done | | done].
  eapply reach_trans; [exact Hm | apply Hh].
Qed.

Lemma does_quiet {A} V (f : N -> A * N) : does V (quiet f).
Proof. intros k. unfold quiet. destruct (f _). exists []. rewrite app_nil_r. split; [done |]. split; [done | apply fx_nil]. Qed.

(** Reading the boot identifier is not recorded. *)
Lemma read_boot_quiet k : exists b n, read_boot_id k = (Done b, Kernel n (k_boot k) (k_log k)).
Proof.
  unfold read_boot_id, mbind, M_bind, quiet. destruct (os_boot_file (k_os k)) as [[t|] n]; cbn; [by eauto |].
  destruct (os_sysctl n) as [[[code out]|] n']; cbn; by eauto.
Qed.

Lemma does_boot V : does V _boot_id.
Proof.
  intros k. unfold _boot_id. destruct (k_boot k) as [b|] eqn:E; [apply reach_refl |].
  unfold mbind, M_bind. destruct (read_boot_quiet k) as (b & n & ->). exists []. rewrite app_nil_r. cbn.
  split; [done |]. split; [rewrite E; by left | apply fx_nil].
Qed.

(** The identifier that was answered is the one that is known from then on. *)
Lemma boot_known k : exists b k', _boot_id k = (Done b, k') /\ k_boot k' = Some b /\ k_log k' = k_log k
  /\ boot_le (k_boot k) (k_boot k').
Proof.
  unfold _boot_id. destruct (k_boot k) as [b|] eqn:E; [exists b, k; rewrite E; by repeat split |].
  unfold mbind, M_bind. destruct (read_boot_quiet k) as (b & n & ->). exists b. eexists. split; [done |].
  cbn. split; [done |]. split; [done | by left].
Qed.

Lemma does_noted {A} (V : effects) (f : N -> A * N) ev : (forall b a, V b [ev a]) -> does V (noted f ev).
Proof. intros Hv k. unfold noted. destruct (f _) as [a n]. exists [ev a]. split; [done |]. cbn. split; [apply boot_le_refl | apply Hv]. Qed.

(** Observations are always allowed; signals are what [V] is about. *)
Definition is_signal (e : event) : bool := match e with EvSignal _ _ _ => true | _ => false end.
Definition is_observation (e : event) : bool := match e with EvIdentity _ _ | EvWait _ _ | EvProbe _ _ => true | _ => false end.
Definition observes (V : effects) : Prop := forall b e, is_observation e = true -> V b [e].

Section Observing.
Context (V : effects) (Hobs : observes V).

Lemma does_identity pid : does V (identity_at pid).
Proof.
  unfold identity_at. apply does_bind; [apply does_noted; intros; by apply Hobs |].
  intros [i|]; [apply does_ret | apply does_throw].
Qed.

Lemma does_process_identity p : does V (_process_identity p).
Proof. unfold _process_identity. destruct p as [p|]; [|apply does_ret]. destruct (py_int p); [apply does_identity | apply does_ret]. Qed.

Lemma does_absent pid : does V (_pid_absent pid).
Proof.
  unfold _pid_absent. destruct (pid <=? 1); [apply does_throw |].
  apply does_bind; [apply does_noted; intros; by apply Hobs |]. intros []; [apply does_ret | apply does_ret | apply does_throw].
Qed.

Lemma does_reaped pid : does V (reaped pid).
Proof.
  unfold reaped. apply does_bind; [apply does_noted; intros; by apply Hobs |].
  intros []; [apply does_ret | apply does_ret | apply does_throw].
Qed.

Lemma does_check_exit pid i b : does V (check_exit pid i b).
Proof.
  unfold check_exit. apply does_bind; [apply does_boot |]. intros cb.
  destruct (_ && _ && _); [apply does_ret |]. destruct (_ && _); [apply does_throw |].
  apply does_bind; [apply does_identity |]. intros cur. destruct (changed _ _); [apply does_throw |].
  apply does_bind; [apply does_reaped |]. intros []; [apply does_ret |].
  destruct (_ || _); [apply does_throw | apply does_absent].
Qed.

Lemma does_sleep t : does V (sleep t).
Proof. unfold sleep. apply does_bind; [apply does_quiet |]. intros []; [apply does_ret | apply does_throw]. Qed.

Lemma does_await fuel pid i b d : does V (await_exit fuel pid i b d).
Proof.
  induction fuel as [|fuel IH]; [intros k; apply reach_refl |]. cbn [await_exit].
  apply does_bind; [apply does_quiet |]. intros now. destruct (now <? d); [|apply does_check_exit].
  apply does_bind; [apply does_check_exit |]. intros []; [apply does_ret |].
  apply does_bind; [apply does_sleep | done].
Qed.

Lemma does_is_alive r : does V (is_alive r).
Proof.
  unfold is_alive. destruct (rn_process_exited r); [apply does_ret |]. destruct (PyStr.empty _); [apply does_ret |].
  destruct (py_int _) as [pid|]; [|apply does_throw]. apply does_bind; [apply does_boot |]. intros cb.
  destruct (_ && _ && _); [apply does_ret |]. apply does_bind; [apply does_identity |]. intros cur.
  destruct (_ || _); [apply does_throw |]. destruct (changed _ _); [apply does_ret |]. destruct (negb _).
  - apply does_bind; [apply does_absent |]. intros []; [apply does_ret | apply does_throw].
  - unfold probe_alive. apply does_bind; [apply does_noted; intros; by apply Hobs |]. intros [p| |]; [| |apply does_throw].
    + destruct (p =? 0); apply does_ret.
    + apply does_bind; [apply does_absent |]. intros []; [apply does_ret |]. apply does_bind; [|intros []; [apply does_ret | apply does_throw]].
      unfold _pids_are_current. apply does_bind; [apply does_boot |]. intros cb'. destruct (_ && _ && _); [|apply does_ret].
      apply does_bind; [apply does_process_identity |]. intros i. apply does_ret.
Qed.

Lemma does_confirmed pid i b : does V (confirmed pid i b).
Proof.
  unfold confirmed. destruct (truthy_id b); [|apply does_ret]. apply does_bind; [apply does_boot |]. intros cb.
  destruct (_ && _); [|apply does_ret]. apply does_bind; [apply does_identity |]. intros cur. apply does_ret.
Qed.
End Observing.

(** ** Signals *)

(** Every signal of [l] went to a process of [2] or more that [P] accepts with
    the identity and the boot, and the event before it is the observation of
    exactly that identity. *)
Definition vetted (P : Z -> string -> string -> Prop) (boot : option (option string)) (l : list event) : Prop :=
  forall pre pid s a post, l = pre ++ EvSignal pid s a :: post ->
    exists pre' i b, pre = pre' ++ [EvIdentity pid (Some i)] /\ boot = Some (Some b) /\ 2 <= pid /\ P pid i b.

Lemma vetted_none P b l : forallb (fun e => negb (is_signal e)) l = true -> vetted P b l.
Proof.
  intros Hf pre pid s a post ->. rewrite forallb_app in Hf. apply andb_true_iff in Hf as [_ Hf]. done.
Qed.

Lemma vetted_app P b l1 l2 : vetted P b l1 -> vetted P b l2 -> vetted P b (l1 ++ l2).
Proof.
  intros H1 H2 pre pid s a post E. apply app_eq_app in E as (l & [[-> E] | [-> E]]).
  - destruct l as [|e l]; [|injection E as <- ->; by eapply H1].
    destruct (H2 [] pid s a post (eq_sym E)) as (pre' & i & b' & Ep & _).
    apply (f_equal length) in Ep. rewrite length_app in Ep. cbn in Ep. lia.
  - destruct (H2 l pid s a post E) as (pre' & i & b' & -> & Hb & Hp & HP).
    exists (l1 ++ pre'), i, b'. by rewrite <- (assoc_L (++)).
Qed.

Lemma vetted_boot P a b l : boot_le a b -> vetted P a l -> vetted P b l.
Proof.
  intros Hb Hv pre pid s x post E. destruct (Hv _ _ _ _ _ E) as (pre' & i & b' & E' & -> & Hp).
  apply boot_le_some in Hb as ->. by exists pre', i, b'.
Qed.

Definition vetted_fx (P : Z -> string -> string -> Prop) : effects :=
  Effects (vetted P) (fun b => vetted_none P b [] eq_refl) (vetted_app P) (vetted_boot P).

Lemma vetted_observes P : observes (vetted_fx P).
Proof. intros b [] He; try done; by apply vetted_none. Qed.

Lemma truthy_id_some o : truthy_id o = true -> exists s, o = Some s.
Proof. destruct o; [eauto | done]. Qed.

(** A confirmation that succeeds ends with the observation of the recorded
    identity, in the recorded boot. *)
Lemma confirmed_true pid i b k k1 : confirmed pid i b k = (Done true, k1) ->
  exists l i' b', k_log k1 = k_log k ++ l ++ [EvIdentity pid (Some i')] /\ forallb (fun e => negb (is_signal e)) l = true
    /\ boot_le (k_boot k) (k_boot k1) /\ k_boot k1 = Some (Some b') /\ i = Some i' /\ b = Some b'.
Proof.
  unfold confirmed. destruct (truthy_id b) eqn:Eb; [|done]. apply truthy_id_some in Eb as [b' ->].
  unfold mbind, M_bind. destruct (boot_known k) as (cb & k0 & -> & Hcb & Hl & Hle).
  destruct (bool_decide_reflect (cb = Some b')) as [->|]; [|done].
  destruct (truthy_id i) eqn:Ei; [|done]. apply truthy_id_some in Ei as [i' ->]. cbn [andb].
  unfold identity_at, mbind, M_bind, noted. destruct (read_identity pid (k_os k0)) as [[cur|] n]; [|done].
  cbn. intros [= Hd <-]. apply bool_decide_eq_true in Hd as ->. exists [], i', b'. cbn. rewrite Hl, <- Hcb. done.
Qed.

(** What a signal of a termination is allowed to reach. *)
Definition target (pid : Z) (i b : option string) : Z -> string -> string -> Prop :=
  fun q j b' => q = pid /\ i = Some j /\ b = Some b'.

Lemma does_round fuel pid i b s d : 2 <= pid -> does (vetted_fx (target pid i b)) (signal_round fuel pid i b s d).
Proof.
  intros Hp k. set (V := vetted_fx (target pid i b)). pose proof (vetted_observes (target pid i b)) as Ho.
  unfold signal_round. unfold mbind at 1, M_bind. pose proof (does_confirmed V Ho pid i b k) as Hc.
  destruct (confirmed pid i b k) as [[[|] | e |] k1] eqn:Ec; cbn [negb]; [|done..]. clear Hc.
  apply confirmed_true in Ec as (l & i' & b' & El & Hl & Hle & Hb & -> & ->).
  unfold mbind, M_bind, killpg, noted. destruct (os_killpg (k_os k1) pid s) as [a n]. cbn.
  eapply (reach_trans V _ (Kernel n (k_boot k1) (k_log k1 ++ [EvSignal pid s a]))).
  - exists ((l ++ [EvIdentity pid (Some i')]) ++ [EvSignal pid s a]). cbn. split; [by rewrite El, <- !(assoc_L (++)) |].
    split; [done |]. intros pre q s' a' post E.
    destruct post as [|e post] using rev_ind.
    + apply app_inj_tail in E as [<- [= <- <- <-]]. exists l, i', b'. done.
    + clear IHpost. rewrite app_comm_cons, (assoc_L (++)) in E. apply app_inj_tail in E as [E _].
      exfalso. assert (forallb (fun e => negb (is_signal e)) (l ++ [EvIdentity pid (Some i')]) = true) as Hf by (by rewrite forallb_app, Hl).
      rewrite E, forallb_app in Hf. apply andb_true_iff in Hf as [_ Hf]. done.
  - destruct a.
    + apply (does_bind V (quiet os_monotonic) _ (does_quiet V _)). intros now. by apply does_await.
    + apply (does_bind V (quiet os_monotonic) _ (does_quiet V _)). intros now. by apply does_await.
    + apply (does_bind V _ _ (does_check_exit V Ho pid (Some i') (Some b'))). intros []; [apply does_ret | apply does_throw].
    + apply (does_throw V ROSError).
Qed.

Lemma does_terminate fuel p i b :
  does (vetted_fx (fun q j b' => py_int p = Ok q /\ i = Some j /\ b = Some b')) (_terminate fuel (Some p) i b).
Proof.
  unfold _terminate. destruct (py_int p) as [pid|] eqn:Ep; [|apply does_ret].
  destruct (Z.leb_spec pid 1); [apply does_ret |].
  assert (does (vetted_fx (target pid i b)) (terminate_pid fuel pid i b)) as Ht.
  { unfold terminate_pid. apply does_bind; [apply does_check_exit, vetted_observes |]. intros []; [apply does_ret |].
    apply does_bind; [apply does_round; lia |]. intros []; [apply does_ret |].
    apply does_bind; [apply does_round; lia |]. intros []; [apply does_ret | apply does_throw]. }
  intros k. destruct (Ht k) as (l & El & Hb & Hv). exists l. split; [done |]. split; [done |].
  intros pre q s a post E. destruct (Hv _ _ _ _ _ E) as (pre' & j & b' & ? & ? & ? & -> & ? & ?). by exists pre', j, b'.
Qed.

(** ** Receipts

    The evidence that a process is gone: it was reaped, the kernel knows no
    such process, or the machine was started again since it was recorded. *)
Definition gone (pid : Z) (recorded : option string) (boot : option (option string)) (l : list event) : Prop :=
  In (EvWait pid (Waited pid)) l \/ In (EvProbe pid NoProcess) l
  \/ exists b0 b1, recorded = Some b0 /\ boot = Some (Some b1) /\ b0 <> b1.

Lemma gone_app pid rec boot l1 l2 : gone pid rec boot l2 -> gone pid rec boot (l1 ++ l2).
Proof. unfold gone. rewrite !in_app_iff. naive_solver. Qed.

Lemma gone_more pid rec a b l1 l2 : boot_le a b -> gone pid rec a l1 -> gone pid rec b (l1 ++ l2).
Proof.
  unfold gone. rewrite !in_app_iff. intros Hb [|[|(b0 & b1 & ? & -> & ?)]]; [by left; left | by right; left; left |].
  apply boot_le_some in Hb as ->. right. right. by exists b0, b1.
Qed.

(** What holds of the answer of [m] and the events it adds when it returns. *)
Definition ends {A} (m : PM A) (Q : A -> option (option string) -> list event -> Prop) : Prop :=
  forall k a k', m k = (Done a, k') -> reach (Q a) k k'.

Definition any_fx : effects :=
  Effects (fun _ _ => True) (fun _ => I) (fun _ _ _ _ _ => I) (fun _ _ _ _ _ => I).
Lemma any_observes : observes any_fx.
Proof. done. Qed.

Definition suffix_closed {A} (Q : A -> option (option string) -> list event -> Prop) : Prop :=
  forall a b l1 l2, Q a b l2 -> Q a b (l1 ++ l2).

Lemma ends_bind {A B} (m : PM A) (f : A -> PM B) Q :
  suffix_closed Q -> does any_fx m -> (forall a, ends (f a) Q) -> ends (m ≫= f) Q.
Proof.
  intros Hq Hm Hf k b k' E. unfold mbind, M_bind in E. specialize (Hm k).
  destruct (m k) as [[a | e |] k1]; [|done..]. cbn [snd] in Hm. destruct Hm as (l1 & E1 & B1 & _).
  destruct (Hf a _ _ _ E) as (l2 & E2 & B2 & H2). exists (l1 ++ l2). rewrite E2, E1, <- (assoc_L (++)).
  split; [done |]. split; [by eapply boot_le_trans | by apply Hq].
Qed.

(** The first call already decides. *)
Lemma ends_first {A B} (m : PM A) (f : A -> PM B) (Q1 : A -> option (option string) -> list event -> Prop)
    (Q : B -> option (option string) -> list event -> Prop) :
  ends m Q1 -> (forall a k k1, m k = (Done a, k1) -> reach (Q1 a) k k1 -> forall b k', f a k1 = (Done b, k') -> reach (Q b) k k') ->
  ends (m ≫= f) Q.
Proof.
  intros Hm Hf k b k' E. unfold mbind, M_bind in E. specialize (Hm k).
  destruct (m k) as [[a | e |] k1] eqn:Em; [|done..]. eapply (Hf a k k1); eauto.
Qed.

Lemma ends_ret {A} (a : A) (Q : A -> option (option string) -> list event -> Prop) :
  (forall b, Q a b []) -> ends (mret a) Q.
Proof. intros Hq k a' k' [= <- <-]. exists []. rewrite app_nil_r. split; [done |]. split; [done | apply Hq]. Qed.

Lemma ends_throw {A} e (Q : A -> option (option string) -> list event -> Prop) : ends (throw e) Q.
Proof. by intros k a k'. Qed.

Lemma ends_noted {A} (f : N -> A * N) ev (Q : A -> option (option string) -> list event -> Prop) :
  (forall a b, Q a b [ev a]) -> ends (noted f ev) Q.
Proof. intros Hq k a k'. unfold noted. destruct (f _) as [a0 n]. intros [= <- <-]. exists [ev a0]. split; [done |]. cbn. by split. Qed.

Definition if_gone (pid : Z) (rec : option string) : bool -> option (option string) -> list event -> Prop :=
  fun x b l => x = true -> gone pid rec b l.

Lemma if_gone_suffix pid rec : suffix_closed (if_gone pid rec).
Proof. intros x b l1 l2 Hx E. by apply gone_app, Hx. Qed.

(** A bind whose second part answers from the last event alone. *)
Lemma ends_noted_bind {A B} (f : N -> A * N) ev (g : A -> PM B) (Q : B -> option (option string) -> list event -> Prop) :
  (forall a b k k', g a k = (Done b, k') -> k' = k /\ forall boot, Q b boot [ev a]) -> ends (noted f ev ≫= g) Q.
Proof.
  intros Hg k b k' E. unfold mbind, M_bind, noted in E. destruct (f (k_os k)) as [a n].
  destruct (Hg _ _ _ _ E) as [-> Hq]. exists [ev a]. split; [done |]. cbn. split; [done | apply Hq].
Qed.

Lemma absent_ends pid rec : ends (_pid_absent pid) (if_gone pid rec).
Proof.
  unfold _pid_absent. destruct (pid <=? 1); [apply ends_throw |]. apply ends_noted_bind.
  intros [] b k k' E; try done; injection E as <- <-; split; try done. intros boot _. right. left. by left.
Qed.

Lemma reaped_ends pid rec : ends (reaped pid) (if_gone pid rec).
Proof.
  unfold reaped. apply ends_noted_bind. intros [p| |] b k k' E; try done; injection E as <- <-; (split; [done |]).
  - intros boot ->%Z.eqb_eq. left. by left.
  - done.
Qed.

Lemma check_exit_ends pid i rec : ends (check_exit pid i rec) (if_gone pid rec).
Proof.
  intros k x k' E. unfold check_exit in E. unfold mbind at 1, M_bind in E.
  destruct (boot_known k) as (cb & k0 & Eb & Hcb & Hl & Hle). rewrite Eb in E.
  destruct (truthy_id rec && truthy_id cb && negb (bool_decide (rec = cb))) eqn:Ed.
  - injection E as <- <-. exists []. rewrite app_nil_r. split; [done |]. split; [done |]. intros _. right. right.
    to_prop. destruct rec as [b0|], cb as [b1|]; try done. exists b0, b1. rewrite Hcb. split; [done |]. split; [done |]. congruence.
  - assert (reach (if_gone pid rec x) k0 k') as (l & E1 & E2 & E3); [|exists l; rewrite E1, Hl; split; [done | split; [by eapply boot_le_trans | done]]].
    revert E. destruct (truthy_id rec && bool_decide (cb = None)); [done |]. clear Eb Hcb Hl Hle. revert k0 x k'.
    refine (_ : ends _ (if_gone pid rec)). apply ends_bind; [apply if_gone_suffix | apply does_identity, any_observes |]. intros cur.
    destruct (changed _ _); [apply ends_throw |]. apply (ends_first _ _ (if_gone pid rec)); [apply reaped_ends |].
    intros [] k0 k1 _ Hr b k'; [by intros [= <- <-] |]. destruct (_ || _); [done |]. intros E.
    apply absent_ends with (rec := rec) in E. destruct Hr as (l1 & L1 & B1 & _), E as (l2 & L2 & B2 & H2).
    exists (l1 ++ l2). rewrite L2, L1, <- (assoc_L (++)). split; [done |]. split; [by eapply boot_le_trans | by apply if_gone_suffix].
Qed.

(** A positive answer of the first call decides; otherwise the second does. *)
Lemma ends_or {A} pid rec (m : PM bool) (m2 : PM A) a Q :
  suffix_closed Q -> ends m (if_gone pid rec) -> (forall b l, gone pid rec b l -> Q a b l) -> ends m2 Q ->
  ends (m ≫= fun g : bool => if g then mret a else m2) Q.
Proof.
  intros Hq Hm Ha H2. apply (ends_first _ _ _ _ Hm). intros [] k k1 _ (l1 & L1 & B1 & G1) b k' E.
  - injection E as <- <-. exists l1. split; [done |]. split; [done | by apply Ha, G1].
  - apply H2 in E as (l2 & L2 & B2 & G2). exists (l1 ++ l2). rewrite L2, L1, <- (assoc_L (++)).
    split; [done |]. split; [by eapply boot_le_trans | by apply Hq].
Qed.

Lemma await_ends fuel pid i rec d : ends (await_exit fuel pid i rec d) (if_gone pid rec).
Proof.
  induction fuel as [|fuel IH]; [by intros k a k' |]. cbn [await_exit].
  apply ends_bind; [apply if_gone_suffix | apply does_quiet |]. intros now. destruct (now <? d); [|apply check_exit_ends].
  apply (ends_or pid rec); [apply if_gone_suffix | apply check_exit_ends | by unfold if_gone |].
  apply ends_bind; [apply if_gone_suffix | apply does_sleep | done].
Qed.

Lemma round_ends fuel pid i rec s d : ends (signal_round fuel pid i rec s d) (if_gone pid rec).
Proof.
  unfold signal_round. apply ends_bind; [apply if_gone_suffix | apply does_confirmed, any_observes |].
  intros []; cbn [negb]; [|apply ends_throw]. apply ends_bind; [apply if_gone_suffix | by apply does_noted |].
  intros []; [| | |apply ends_throw].
  3: apply (ends_or pid rec); [apply if_gone_suffix | apply check_exit_ends | by unfold if_gone | apply ends_throw].
  all: apply ends_bind; [apply if_gone_suffix | apply does_quiet |]; intros now; apply await_ends.
Qed.

Lemma terminate_ends fuel pid i rec : ends (terminate_pid fuel pid i rec) (fun _ => gone pid rec).
Proof.
  assert (suffix_closed (fun _ : unit => gone pid rec)) as Hs by (intros ?????; by apply gone_app).
  unfold terminate_pid. apply (ends_or pid rec); [done | apply check_exit_ends | done |].
  apply (ends_or pid rec); [done | apply round_ends | done |].
  apply (ends_or pid rec); [done | apply round_ends | done | apply ends_throw].
Qed.

(** ** Cleaning up *)

(** The record without its exit receipts. *)
Definition core r : running_tool := mark_exited CProcess (mark_exited CLog (mark_exited CEgress r)).

Lemma core_mark c r : core (mark_exited c r) = core r.
Proof. by destruct r, c. Qed.
Lemma exited_mark c c' r : exited_field c (mark_exited c' r) = bool_decide (c = c') || exited_field c r.
Proof. by destruct r, c, c'. Qed.
Lemma core_identity r r' c : core r = core r' -> identity_field c r = identity_field c r'.
Proof. destruct r, r'. intros [=]. by destruct c; cbn; subst. Qed.
Lemma core_boot r r' : core r = core r' -> rn_boot_id r = rn_boot_id r'.
Proof. destruct r, r'. intros [=]. by cbn; subst. Qed.

(** A receipt of a child: its handle names a process and that is gone. *)
Definition receipt r (p : string) (boot : option (option string)) (l : list event) : Prop :=
  exists pid, py_int p = Ok pid /\ 2 <= pid /\ gone pid (rn_boot_id r) boot l.

Lemma receipt_more r p a b l1 l2 : boot_le a b -> receipt r p a l1 -> receipt r p b (l1 ++ l2).
Proof. intros Hb (pid & ? & ? & ?). exists pid. eauto using gone_more. Qed.
Lemma receipt_app r p b l1 l2 : receipt r p b l2 -> receipt r p b (l1 ++ l2).
Proof. intros (pid & ? & ? & ?). exists pid. eauto using gone_app. Qed.

Lemma stop_child_ends fuel c p r : ends (stop_child fuel c p r) (fun r' b l => r' = mark_exited c r /\ receipt r p b l).
Proof.
  intros k r' k' E. unfold stop_child in E. destruct (py_int p) as [pid|] eqn:Ep; [|done].
  unfold mbind, M_bind, throw_if in E. destruct (Z.leb_spec pid 1) as [|Hp]; [done |]. cbn in E.
  rewrite Ep in E. rewrite (proj2 (Z.leb_gt pid 1) Hp) in E.
  destruct (terminate_pid _ _ _ _ _) as [[[]| e |] k1] eqn:Et; [|done..].
  injection E as <- <-. apply terminate_ends in Et as (l & L & B & G). exists l. split; [done |]. split; [done |].
  split; [done |]. exists pid. split; [done |]. split; [lia | done].
Qed.

(** The signals a clean-up may send. *)
Definition may_signal r (pid : Z) (i b : string) : Prop :=
  exists c p, In (c, Some p) (children r) /\ exited_field c r = false /\ py_int p = Ok pid
    /\ identity_field c r = Some i /\ rn_boot_id r = Some b.

Lemma stop_child_does fuel c p r : does (vetted_fx (fun q j b => py_int p = Ok q /\ identity_field c r = Some j /\ rn_boot_id r = Some b))
  (stop_child fuel c p r).
Proof.
  unfold stop_child. destruct (py_int p) as [pid|] eqn:Ep; [|apply does_throw].
  apply does_bind; [apply does_throw_if |]. intros []. apply does_bind; [|intros; apply does_ret].
  intros k. destruct (does_terminate fuel p (identity_field c r) (rn_boot_id r) k) as (l & ? & ? & Hv).
  exists l. split; [done |]. split; [done |]. intros pre q s a post E. destruct (Hv _ _ _ _ _ E) as (pre' & j & b & ? & ? & ? & Hq & ? & ?).
  exists pre', j, b. rewrite Ep in Hq. done.
Qed.

Lemma vetted_weaken (P Q : Z -> string -> string -> Prop) b l : (forall q j b', P q j b' -> Q q j b') -> vetted P b l -> vetted Q b l.
Proof. intros Hpq Hv pre q s a post E. destruct (Hv _ _ _ _ _ E) as (pre' & j & b' & ? & ? & ? & ?). exists pre', j, b'. auto. Qed.

Lemma does_bind_post {A B} V (m : PM A) (f : A -> PM B) (Q : A -> Prop) :
  does V m -> (forall k a k', m k = (Done a, k') -> Q a) -> (forall a, Q a -> does V (f a)) -> does V (m ≫= f).
Proof.
  intros Hm Hq Hf k. unfold mbind, M_bind. specialize (Hm k). destruct (m k) as [[a | e |] k1] eqn:E; [|done..].
  eapply reach_trans; [exact Hm | eapply Hf, Hq, E].
Qed.

(** One turn of the loop: the child is marked, with its receipt, or not. *)
Definition try_stop fuel c p r : PM (option running_tool) :=
  catch (r' ← stop_child fuel c p r; mret (Some r')) (fun _ => mret None).

Definition stopped c p r (x : option running_tool) (b : option (option string)) (l : list event) : Prop :=
  x = None \/ (x = Some (mark_exited c r) /\ receipt r p b l).

Lemma try_stop_does fuel c p r : In (c, Some p) (children r) -> exited_field c r = false ->
  does (vetted_fx (may_signal r)) (try_stop fuel c p r).
Proof.
  intros Hin Hx. apply does_catch; [|intros; apply does_ret]. apply does_bind; [|intros; apply does_ret].
  intros k. destruct (stop_child_does fuel c p r k) as (l & ? & ? & Hv). exists l. split; [done |]. split; [done |].
  eapply vetted_weaken; [|exact Hv]. cbv beta. intros q j b (Hq & Hj & Hb). by exists c, p.
Qed.

Lemma try_stop_ends fuel c p r : ends (try_stop fuel c p r) (stopped c p r).
Proof.
  intros k x k'. unfold try_stop, catch, mbind at 1, M_bind at 1. pose proof (stop_child_does fuel c p r k) as Hd.
  destruct (stop_child fuel c p r k) as [[r' | e |] k1] eqn:Es; [| |done].
  - apply stop_child_ends in Es as (l & L & B & -> & R). intros [= <- <-]. exists l. split; [done |]. split; [done |]. by right.
  - intros [= <- <-]. destruct Hd as (l & L & B & _). exists l. split; [done |]. split; [done |]. by left.
Qed.

Lemma may_signal_mark c r q j b : may_signal (mark_exited c r) q j b -> may_signal r q j b.
Proof.
  intros (c' & p & Hin & Hx & Hp & Hi & Hb). exists c', p. rewrite exited_mark in Hx. apply orb_false_iff in Hx as [_ Hx].
  destruct r, c; repeat split; auto.
Qed.

Lemma children_mark c r : children (mark_exited c r) = children r.
Proof. by destruct r, c. Qed.

Lemma does_stop_children fuel l : forall r failed, incl l (children r) ->
  does (vetted_fx (may_signal r)) (stop_children fuel l r failed).
Proof.
  induction l as [|[c [p|]] l IH]; intros r failed Hl; try (pose proof (proj2 (incl_cons_inv Hl)) as Hl'); cbn [stop_children]; [apply does_ret | |by apply IH].
  destruct (exited_field c r) eqn:Ex; [by apply IH |].
  apply (does_bind_post _ _ _ (fun x => x = None \/ x = Some (mark_exited c r))).
  - apply try_stop_does; [apply Hl; by left | done].
  - intros k x k' E. apply try_stop_ends in E as (l' & _ & _ & [|[? _]]); auto.
  - intros x [-> | ->]; [by apply IH |]. intros k.
    destruct (IH (mark_exited c r) failed) with (k := k) as (l' & ? & ? & Hv); [by rewrite children_mark |].
    exists l'. split; [done |]. split; [done |]. eapply vetted_weaken; [|exact Hv]. apply may_signal_mark.
Qed.

Lemma stop_children_returns fuel l : forall r failed k e k', stop_children fuel l r failed k <> (Throw e, k').
Proof.
  induction l as [|[c [p|]] l IH]; intros r failed k e k'; cbn [stop_children]; [done | | apply IH].
  destruct (exited_field c r); [apply IH |]. unfold mbind at 1, M_bind at 1. change (catch _ _) with (try_stop fuel c p r).
  destruct (try_stop fuel c p r k) as [[[r'|] | e' |] k1] eqn:E; [apply IH | apply IH | | done].
  revert E. unfold try_stop, catch. by destruct ((stop_child fuel c p r ≫= _) k) as [[| |] ?].
Qed.

(** What is known of the records before and after the loop. *)
Record swept (l : list (child * option string)) r (failed : bool) (x : running_tool * bool)
    (b : option (option string)) (lg : list event) : Prop := {
  sw_core : core x.1 = core r;
  sw_kept : forall c, exited_field c r = true -> exited_field c x.1 = true;
  sw_proof : forall c, exited_field c x.1 = true ->
    exited_field c r = true \/ exists p, In (c, Some p) l /\ receipt r p b lg;
  sw_all : x.2 = false -> failed = false /\ forall c p, In (c, Some p) l -> exited_field c x.1 = true;
  sw_some : x.2 = true -> failed = true \/ exists c p, In (c, Some p) l /\ exited_field c x.1 = false }.

Lemma receipt_core r r' p b l : core r = core r' -> receipt r p b l -> receipt r' p b l.
Proof. intros Hc (pid & ? & ? & G). exists pid. rewrite (core_boot _ _ Hc) in G. done. Qed.

(** The child of the first turn was already known to be gone. *)
Lemma swept_skip c o l r failed x b lg : (forall p, o = Some p -> exited_field c r = true) ->
  swept l r failed x b lg -> swept ((c, o) :: l) r failed x b lg.
Proof.
  intros Ho [H1 H2 H3 H4 H5]. constructor; [done | done | | |].
  - intros c' Hc'. destruct (H3 c' Hc') as [|(p & ? & ?)]; [by left |]. right. exists p. split; [by right | done].
  - intros Hf. destruct (H4 Hf) as [? Ha]. split; [done |]. intros c' p [[= -> ->]|Hin]; [by eapply H2, Ho | by eapply Ha].
  - intros Hf. destruct (H5 Hf) as [|(c' & p & ? & ?)]; [by left |]. right. exists c', p. split; [by right | done].
Qed.

(** It was stopped now, with a receipt. *)
Lemma swept_mark c p l r failed x b b0 l1 lg : boot_le b0 b -> receipt r p b0 l1 ->
  swept l (mark_exited c r) failed x b lg -> swept ((c, Some p) :: l) r failed x b (l1 ++ lg).
Proof.
  intros Hb Hr [H1 H2 H3 H4 H5]. assert (exited_field c x.1 = true) as Hx by (by apply H2; rewrite exited_mark, bool_decide_true).
  constructor.
  - by rewrite H1, core_mark.
  - intros c' Hc'. apply H2. rewrite exited_mark, Hc'. apply orb_true_r.
  - intros c' Hc'. destruct (H3 c' Hc') as [He|(q & Hin & Hq)].
    + rewrite exited_mark in He. apply orb_true_iff in He as [->%bool_decide_eq_true | He]; [|by left].
      right. exists p. split; [by left | by eapply receipt_more].
    + right. exists q. split; [by right |]. apply receipt_app. eapply receipt_core; [|exact Hq]. apply core_mark.
  - intros Hf. destruct (H4 Hf) as [? Ha]. split; [done |]. intros c' q [[= -> ->]|Hin]; [done | by eapply Ha].
  - intros Hf. destruct (H5 Hf) as [|(c' & q & ? & ?)]; [by left |]. right. exists c', q. split; [by right | done].
Qed.

(** Stopping it failed. *)
Lemma swept_fail c p l r failed x b l1 lg : exited_field c r = false -> ~ In c (map fst l) ->
  swept l r true x b lg -> swept ((c, Some p) :: l) r failed x b (l1 ++ lg).
Proof.
  intros Hx Hn [H1 H2 H3 H4 H5].
  assert (exited_field c x.1 = false) as Hc.
  { destruct (exited_field c x.1) eqn:E; [|done]. destruct (H3 c E) as [|(q & Hin & _)]; [congruence |].
    exfalso. apply Hn, in_map_iff. by exists (c, Some q). }
  constructor; [done | done | | |].
  - intros c' Hc'. destruct (H3 c' Hc') as [|(q & ? & Hq)]; [by left |]. right. exists q. split; [by right | by apply receipt_app].
  - intros Hf. by destruct (H4 Hf).
  - intros _. right. exists c, p. split; [by left | done].
Qed.

Lemma stop_children_ends fuel l : NoDup (map fst l) -> forall r failed, ends (stop_children fuel l r failed) (swept l r failed).
Proof.
  induction l as [|[c [p|]] l IH]; intros Hn r failed; cbn [stop_children].
  - apply ends_ret. intros b. constructor; cbn; intros; auto; try done.
  - apply NoDup_cons in Hn as [Hc Hn]. rewrite list_elem_of_In in Hc. destruct (exited_field c r) eqn:Ex.
    + intros k x k' E. apply (IH Hn) in E as (lg & ? & ? & S). exists lg. split; [done |]. split; [done |]. by apply swept_skip.
    + apply (ends_first _ _ _ _ (try_stop_ends fuel c p r)). intros o k k1 _ (l1 & L1 & B1 & Ho) x k' E.
      destruct Ho as [-> | [-> Hr]].
      * apply (IH Hn) in E as (lg & L2 & B2 & S). exists (l1 ++ lg). rewrite L2, L1, <- (assoc_L (++)). split; [done |].
        split; [by eapply boot_le_trans |]. by apply swept_fail.
      * apply (IH Hn) in E as (lg & L2 & B2 & S). exists (l1 ++ lg). rewrite L2, L1, <- (assoc_L (++)). split; [done |].
        split; [by eapply boot_le_trans |]. by eapply swept_mark.
  - apply NoDup_cons in Hn as [_ Hn]. intros k x k' E. apply (IH Hn) in E as (lg & ? & ? & S). exists lg.
    split; [done |]. split; [done |]. by apply swept_skip.
Qed.

Lemma children_distinct r : NoDup (map fst (children r)).
Proof.
  unfold children. destruct (process_backend _); cbn; repeat (apply NoDup_cons; split; [rewrite list_elem_of_In; cbn; intuition congruence |]); by apply NoDup_nil.
Qed.

(** Whatever the kernel answers, each signal a clean-up sends goes to the
    group of a recorded child that was not known to have exited, in the boot it
    was started in, right after the kernel reported exactly the start time recorded for it, and
    never to a process below 2. *)
Theorem cleanup_signals_vetted fuel r k :
  let k' := (_cleanup_partial_start fuel r k).2 in
  exists l, k_log k' = k_log k ++ l /\ vetted (may_signal r) (k_boot k') l.
Proof.
  cbv zeta. unfold _cleanup_partial_start.
  assert (does (vetted_fx (may_signal r)) (_cleanup_partial_start fuel r)) as Hd.
  { unfold _cleanup_partial_start. apply does_bind; [apply does_stop_children, incl_refl |].
    intros x. destruct x.2; [apply does_throw | apply does_ret]. }
  destruct (Hd k) as (l & ? & _ & ?). by exists l.
Qed.

(** The outcome of a clean-up: only exit receipts changed, each for evidence in
    the log. *)
Definition settled r r' k k' : Prop :=
  core r' = core r /\ (forall c, exited_field c r = true -> exited_field c r' = true)
  /\ reach (fun b l => forall c, exited_field c r' = true ->
       exited_field c r = true \/ exists p, In (c, Some p) (children r) /\ receipt r p b l) k k'.

Lemma cleanup_settles fuel r k :
  match _cleanup_partial_start fuel r k with
  | (Done r', k') => settled r r' k k' /\ forall c p, In (c, Some p) (children r) -> exited_field c r' = true
  | (Throw e, k') => exists r', e = RCleanup r' /\ settled r r' k k' /\ exists c p, In (c, Some p) (children r) /\ exited_field c r' = false
  | (Diverge, _) => True
  end.
Proof.
  unfold _cleanup_partial_start, mbind, M_bind.
  destruct (stop_children fuel (children r) r false k) as [[[r' failed] | e |] k'] eqn:E; [| |done].
  - apply stop_children_ends in E as (l & L & B & [H1 H2 H3 H4 H5]); [|apply children_distinct]. cbn [fst snd] in *.
    assert (settled r r' k k') as Hs by (split; [done |]; split; [done |]; by exists l).
    destruct failed; cbn.
    + exists r'. split; [done |]. split; [done |]. by destruct (H5 eq_refl) as [|].
    + split; [done |]. by apply H4.
  - by apply stop_children_returns in E.
Qed.

(** A clean-up loses track of no process: when it returns, every recorded
    child has exited; when it raises, the exception carries the same record, in
    which some child is still to be stopped. In both cases a child is marked as exited only
    because it was before, or because it was reaped, the kernel denied that it
    exists, or the machine was rebooted. *)
Theorem cleanup_accounts fuel r k r' k' :
  _cleanup_partial_start fuel r k = (Done r', k') \/ _cleanup_partial_start fuel r k = (Throw (RCleanup r'), k') ->
  settled r r' k k'
  /\ (_cleanup_partial_start fuel r k = (Done r', k') <-> forall c p, In (c, Some p) (children r) -> exited_field c r' = true).
Proof.
  intros E. pose proof (cleanup_settles fuel r k) as Hs. destruct E as [E | E]; rewrite E in Hs |- *.
  - destruct Hs as [Hs Ha]. split; [done |]. by split.
  - destruct Hs as (r2 & [= <-] & Hs & c & p & Hin & Hx). split; [done |]. split; [done |].
    intros Ha. rewrite (Ha c p Hin) in Hx. done.
Qed.

Lemma cleanup_raises fuel r k e k' : _cleanup_partial_start fuel r k = (Throw e, k') -> exists r', e = RCleanup r'.
Proof. intros E. pose proof (cleanup_settles fuel r k) as Hs. rewrite E in Hs. destruct Hs as (r' & -> & _). eauto. Qed.

(** ** Liveness *)

(** Why a tool counts as dead or alive. *)
Definition dead r (b : option (option string)) (l : list event) : Prop :=
  rn_process_exited r = true \/ rn_handle r = EmptyString
  \/ (exists b0 b1, rn_boot_id r = Some b0 /\ b = Some (Some b1) /\ b0 <> b1)
  \/ exists pid, py_int (rn_handle r) = Ok pid
       /\ (In (EvProbe pid NoProcess) l \/ (exists p, p <> 0 /\ In (EvWait pid (Waited p)) l)
           \/ exists i j, rn_process_identity r = Some i /\ j <> i /\ In (EvIdentity pid (Some j)) l).

Definition live r (b : option (option string)) (l : list event) : Prop :=
  exists pid i b0, py_int (rn_handle r) = Ok pid /\ rn_process_identity r = Some i /\ rn_boot_id r = Some b0 /\ b = Some (Some b0)
    /\ (In (EvWait pid (Waited 0)) l \/ In (EvProbe pid Exists) l /\ In (EvIdentity pid (Some i)) l).

Definition assessed r : bool * bool -> option (option string) -> list event -> Prop :=
  fun x b l => if x.1 then live r b l else dead r b l.

Lemma assessed_suffix r : suffix_closed (assessed r).
Proof.
  intros [[|] y] b l1 l2; unfold assessed, live, dead; cbn.
  - intros (pid & i & b0 & H1 & H2 & H3 & H4 & H5). exists pid, i, b0. rewrite !in_app_iff. naive_solver.
  - setoid_rewrite in_app_iff. naive_solver.
Qed.

(** Why [is_alive] answers what it answers: a tool is called alive only when
    the recorded process itself was seen running, and dead only on evidence. *)
Lemma identity_ends pid : ends (identity_at pid) (fun i _ l => l = [EvIdentity pid i]).
Proof.
  unfold identity_at. apply ends_noted_bind. intros [i|] b k k' E; [|done]. by injection E as <- <-.
Qed.

Lemma absent_ends_exact pid : ends (_pid_absent pid) (fun x _ l => l = [EvProbe pid (if x : bool then NoProcess else Exists)]).
Proof.
  unfold _pid_absent. destruct (pid <=? 1); [apply ends_throw |]. apply ends_noted_bind.
  intros [] b k k' E; try done; injection E as <- <-; done.
Qed.

Lemma current_ends r : ends (_pids_are_current r) (fun x b l => x = true ->
  exists pid i b0, py_int (rn_handle r) = Ok pid /\ rn_process_identity r = Some i /\ rn_boot_id r = Some b0
    /\ b = Some (Some b0) /\ In (EvIdentity pid (Some i)) l).
Proof.
  intros k x k' E. unfold _pids_are_current in E. unfold mbind at 1, M_bind in E.
  destruct (boot_known k) as (cb & k0 & Eb & Hcb & Hl & Hle). rewrite Eb in E.
  destruct (bool_decide (cb <> None) && bool_decide (rn_boot_id r = cb) && bool_decide (rn_process_identity r <> None)) eqn:Ed.
  2: { injection E as <- <-. exists []. rewrite app_nil_r. split; [done |]. by split. }
  to_prop. unfold _process_identity in E. destruct (py_int (rn_handle r)) as [pid|] eqn:Ep.
  - unfold mbind, M_bind in E. destruct (identity_at pid k0) as [[j | e |] k1] eqn:Ei; [|done..]. injection E as <- <-.
    apply identity_ends in Ei as (l & L & B & ->). exists [EvIdentity pid j]. rewrite L, Hl. split; [done |].
    split; [by eapply boot_le_trans |]. intros ->%bool_decide_eq_true.
    destruct (rn_process_identity r) as [i|]; [|done]. destruct cb as [b0|]; [|done]. rewrite Hcb in B.
    apply boot_le_some in B. exists pid, i, b0. repeat split; try done. by left.
  - injection E as <- <-. exists []. rewrite app_nil_r. split; [done |]. split; [done |].
    intros Hq%bool_decide_eq_true. congruence.
Qed.

Definition seen (pid : Z) r : bool * bool -> option (option string) -> list event -> Prop :=
  fun x b l => if x.1 then In (EvWait pid (Waited 0)) l
                 \/ In (EvProbe pid Exists) l /\ exists i, rn_process_identity r = Some i /\ In (EvIdentity pid (Some i)) l
               else In (EvProbe pid NoProcess) l \/ exists p, p <> 0 /\ In (EvWait pid (Waited p)) l.

Lemma seen_suffix pid r : suffix_closed (seen pid r).
Proof. intros [[|] y] b l1 l2; unfold seen; cbn; repeat setoid_rewrite in_app_iff; naive_solver. Qed.

Lemma probe_ends pid r : py_int (rn_handle r) = Ok pid -> ends (probe_alive pid r) (seen pid r).
Proof.
  intros Ep. unfold probe_alive, waitpid. intros k x k' E. unfold mbind at 1, M_bind, noted in E.
  destruct (os_waitpid (k_os k) pid) as [a n]. set (k1 := Kernel n (k_boot k) (k_log k ++ [EvWait pid a])) in *.
  assert (reach (seen pid r x) k1 k' \/ k' = k1 /\ seen pid r x (k_boot k) [EvWait pid a]) as [(l & L & B & S) | [-> S]]; cycle 1.
  { exists (EvWait pid a :: l). rewrite L. cbn. rewrite <- (assoc_L (++)). split; [done |]. split; [done |].
    by apply (seen_suffix pid r x _ [_]). }
  { exists [EvWait pid a]. by split. }
  destruct a as [p| |]; [| |done].
  - right. destruct (Z.eqb_spec p 0) as [->|]; injection E as <- <-; (split; [done |]); [by left; left | right; exists p; split; [done | by left]].
  - left. revert E. unfold mbind at 1, M_bind. destruct (_pid_absent pid k1) as [[[|] | e |] k2] eqn:Ea; [| |done..];
      apply absent_ends_exact in Ea as (l2 & L2 & B2 & ->).
    + intros [= <- <-]. exists [EvProbe pid NoProcess]. split; [done |]. split; [done |]. left. by left.
    + unfold mbind, M_bind. destruct (_pids_are_current r k2) as [[[|] | e |] k3] eqn:Ec; [| done..].
      intros [= <- <-]. apply current_ends in Ec as (l3 & L3 & B3 & Hc). destruct (Hc eq_refl) as (q & i & b0 & Hq & Hi & _ & _ & Hin).
      rewrite Ep in Hq. injection Hq as <-. exists ([EvProbe pid Exists] ++ l3). rewrite L3, L2, <- (assoc_L (++)). split; [done |].
      split; [by eapply boot_le_trans |]. right. split; [by left |]. exists i. split; [done | by right].
Qed.

(** A tool is reported alive only when its recorded process was seen
    running in this boot, as a child of ours or with exactly the recorded start
    time, and dead only when it was seen to exit, is unknown to the kernel,
    was replaced, was never started, or belongs to an earlier boot. Uncertainty raises. *)
Theorem is_alive_justified r k x k' : is_alive r k = (Done x, k') -> reach (assessed r x) k k'.
Proof.
  unfold is_alive. destruct (rn_process_exited r) eqn:Ex; [by apply ends_ret; intros; left |].
  destruct (PyStr.empty (rn_handle r)) eqn:Eh; [apply ends_ret; intros; right; left; by destruct (rn_handle r) |].
  destruct (py_int (rn_handle r)) as [pid|] eqn:Ep; [|done]. unfold mbind at 1, M_bind.
  destruct (boot_known k) as (cb & k0 & -> & Hcb & Hl & Hle). intros E.
  enough (reach (assessed r x) k0 k') as (l & E1 & E2 & E3).
  { exists l. rewrite E1, Hl. split; [done |]. split; [by eapply boot_le_trans | done]. }
  destruct (truthy_id (rn_boot_id r) && truthy_id cb && negb (bool_decide (rn_boot_id r = cb))) eqn:Ed.
  { injection E as <- <-. exists []. rewrite app_nil_r. split; [done |]. split; [done |]. right. right. left.
    to_prop. destruct (rn_boot_id r) as [b0|], cb as [b1|]; try done. exists b0, b1. rewrite Hcb. repeat split; congruence. }
  revert E. unfold mbind at 1, M_bind. destruct (identity_at pid k0) as [[cur | e |] k1] eqn:Ei; [|done..].
  apply identity_ends in Ei as (l1 & L1 & B1 & ->). rewrite Hcb in B1. pose proof (boot_le_some _ _ B1) as Hb1.
  destruct (negb (truthy_id (rn_boot_id r)) || negb (truthy_id cb)) eqn:Et; [done |]. apply orb_false_iff in Et as [Et1 Et2].
  apply negb_false_iff in Et1, Et2. rewrite Et1, Et2 in Ed. cbn in Ed. apply negb_false_iff, bool_decide_eq_true in Ed.
  destruct cb as [b0|]; [|done].
  assert (forall y k2, reach (seen pid r y) k1 k2 -> truthy_id (rn_process_identity r) = true \/ y.1 = false -> reach (assessed r y) k0 k2) as Hgo.
  { intros y k2 (l & L & B & S) Hi. exists ([EvIdentity pid cur] ++ l). rewrite L, L1, <- (assoc_L (++)). split; [done |].
    rewrite Hcb. split; [by eapply boot_le_trans |]. rewrite Hb1 in B. apply boot_le_some in B. apply assessed_suffix.
    unfold assessed, seen in *. destruct y as [[|] z]; cbn in *.
    - destruct Hi as [Hi|]; [|done]. apply truthy_id_some in Hi as [i Hi]. exists pid, i, b0. rewrite Ed, B. repeat split; try done.
      destruct S as [|[? (j & Hj & ?)]]; [by left | right]. split; [done |]. congruence.
    - right. right. right. exists pid. split; [done |]. tauto. }
  destruct (changed (rn_process_identity r) cur) eqn:Ec.
  - intros [= <- <-]. exists [EvIdentity pid cur]. split; [done |]. rewrite Hcb. split; [done |]. right. right. right. exists pid.
    split; [done |]. right. right. unfold changed in Ec. destruct (rn_process_identity r) as [i|], cur as [j|]; try done.
    exists i, j. apply negb_true_iff, String.eqb_neq in Ec. split; [done |]. split; [done | by left].
  - destruct (truthy_id (rn_process_identity r)) eqn:Ei; cbn [negb].
    + intros E. apply probe_ends in E; [|done]. apply Hgo; auto.
    + unfold mbind, M_bind. destruct (_pid_absent pid k1) as [[[|] | e |] k2] eqn:Ea; [|done..]. intros [= <- <-].
      apply absent_ends_exact in Ea as (l & L & B & ->). apply Hgo; [|by right]. exists [EvProbe pid NoProcess]. split; [done |].
      split; [done |]. left. by left.
Qed.
End Facts.

(** ** Termination *)

(** The clock of [time.monotonic] never goes back, and a sleep that is not
    interrupted lasts at least as long as asked. *)
Class OsClock (N : Type) `{Os N} := {
  clock : N -> Z;
  clock_boot_file n : clock n <= clock (os_boot_file n).2;
  clock_sysctl n : clock n <= clock (os_sysctl n).2;
  clock_stat n pid : clock n <= clock (os_stat n pid).2;
  clock_pidinfo n pid : clock n <= clock (os_pidinfo n pid).2;
  clock_waitpid n pid : clock n <= clock (os_waitpid n pid).2;
  clock_kill0 n pid : clock n <= clock (os_kill0 n pid).2;
  clock_killpg n pid s : clock n <= clock (os_killpg n pid s).2;
  clock_monotonic n : clock n <= clock (os_monotonic n).2;
  clock_read n : (os_monotonic n).1 = clock n;
  clock_sleep n t : clock n <= clock (os_sleep n t).2 /\ ((os_sleep n t).1 = true -> clock n + t <= clock (os_sleep n t).2) }.

Section Clock.
Context {N : Type} `{OsClock N}.
Implicit Types (k : kernel N) (r : running_tool).

Definition at_ k : Z := clock (k_os k).

(** [m] returns or raises, and takes time. *)
Definition finishes {A} (m : PM A) : Prop := forall k, (m k).1 <> Diverge /\ at_ k <= at_ (m k).2.

Lemma finishes_ret {A} (a : A) : finishes (mret a).
Proof. intros k. split; [done | cbn; lia]. Qed.
Lemma finishes_throw {A} e : finishes (throw e : PM A).
Proof. intros k. split; [done | cbn; lia]. Qed.

Lemma finishes_bind {A B} (m : PM A) (f : A -> PM B) : finishes m -> (forall a, finishes (f a)) -> finishes (m ≫= f).
Proof.
  intros Hm Hf k. unfold mbind, M_bind. destruct (Hm k) as [Hd Ht]. destruct (m k) as [[a | e |] k1]; cbn in *; [|done..].
  destruct (Hf a k1). split; [done | lia].
Qed.

Lemma finishes_catch {A} (m : PM A) h : finishes m -> (forall e, finishes (h e)) -> finishes (catch m h).
Proof.
  intros Hm Hh k. unfold catch. destruct (Hm k) as [Hd Ht]. destruct (m k) as [[a | e |] k1]; cbn in *; [done | | done].
  destruct (Hh e k1). split; [done | lia].
Qed.

Lemma finishes_quiet {A} (f : N -> A * N) : (forall n, clock n <= clock (f n).2) -> finishes (quiet f).
Proof. intros Hf k. unfold quiet, at_. specialize (Hf (k_os k)). by destruct (f (k_os k)). Qed.
Lemma finishes_noted {A} (f : N -> A * N) ev : (forall n, clock n <= clock (f n).2) -> finishes (noted f ev).
Proof. intros Hf k. unfold noted, at_. specialize (Hf (k_os k)). by destruct (f (k_os k)). Qed.

Lemma finishes_boot : finishes _boot_id.
Proof.
  intros k. unfold _boot_id. destruct (k_boot k); [split; [done | cbn; lia] |].
  assert (finishes (b ← read_boot_id; remember_boot b)) as Hf; [|apply Hf].
  apply finishes_bind; [|intros b k0; split; [done | cbn; unfold at_; cbn; lia]].
  apply finishes_bind; [apply finishes_quiet, clock_boot_file |]. intros [t|]; [apply finishes_ret |].
  apply finishes_bind; [apply finishes_quiet, clock_sysctl |]. intros [[]|]; apply finishes_ret.
Qed.

Lemma clock_identity pid n : clock n <= clock (read_identity pid n).2.
Proof.
  unfold read_identity. destruct platform; cbn; [|..|lia].
  - pose proof (clock_stat n pid). by destruct (os_stat n pid).
  - pose proof (clock_pidinfo n pid). by destruct (os_pidinfo n pid).
Qed.

Lemma finishes_identity pid : finishes (identity_at pid).
Proof.
  apply finishes_bind; [apply finishes_noted, clock_identity |]. intros [i|]; [apply finishes_ret | apply finishes_throw].
Qed.

Lemma finishes_absent pid : finishes (_pid_absent pid).
Proof.
  unfold _pid_absent. destruct (pid <=? 1); [apply finishes_throw |].
  apply finishes_bind; [apply finishes_noted; intros; apply clock_kill0 |].
  intros []; [apply finishes_ret | apply finishes_ret | apply finishes_throw].
Qed.

Lemma finishes_check pid i b : finishes (check_exit pid i b).
Proof.
  unfold check_exit. apply finishes_bind; [apply finishes_boot |]. intros cb.
  destruct (_ && _ && _); [apply finishes_ret |]. destruct (_ && _); [apply finishes_throw |].
  apply finishes_bind; [apply finishes_identity |]. intros cur. destruct (changed _ _); [apply finishes_throw |].
  apply finishes_bind.
  - apply finishes_bind; [apply finishes_noted; intros; apply clock_waitpid |].
    intros []; [apply finishes_ret | apply finishes_ret | apply finishes_throw].
  - intros []; [apply finishes_ret |]. destruct (_ || _); [apply finishes_throw | apply finishes_absent].
Qed.

Definition finishes_from {A} (m : PM A) k : Prop := (m k).1 <> Diverge /\ at_ k <= at_ (m k).2.

Lemma from_bind {A B} (m : PM A) (f : A -> PM B) k : finishes_from m k ->
  (forall a k1, m k = (Done a, k1) -> at_ k <= at_ k1 -> finishes_from (f a) k1) -> finishes_from (m ≫= f) k.
Proof.
  intros [Hd Ht] Hf. unfold finishes_from, mbind, M_bind. destruct (m k) as [[a | e |] k1]; cbn in *; [|done..].
  destruct (Hf a k1 eq_refl Ht). split; [done | lia].
Qed.

Lemma finishes_monotonic : finishes monotonic.
Proof. apply finishes_quiet, clock_monotonic. Qed.

Lemma monotonic_reads k now k1 : monotonic k = (Done now, k1) -> now = at_ k.
Proof. unfold monotonic, quiet, at_. pose proof (clock_read (k_os k)). destruct (os_monotonic (k_os k)). intros [= <- _]. done. Qed.

Lemma finishes_sleep t : finishes (sleep t).
Proof.
  apply finishes_bind; [apply finishes_quiet; intros n; apply clock_sleep |]. intros []; [apply finishes_ret | apply finishes_throw].
Qed.

Lemma sleep_lasts t k u k1 : sleep t k = (Done u, k1) -> at_ k + t <= at_ k1.
Proof.
  unfold sleep, mbind, M_bind, quiet, at_. pose proof (clock_sleep (k_os k) t) as [_ Hs].
  destruct (os_sleep (k_os k) t) as [[|] n]; [|done]. intros [= _ <-]. by apply Hs.
Qed.

(** The loop turns while the deadline is ahead, once per interval at most. *)
Lemma await_finishes pid i b d : forall fuel k, d - at_ k <= poll_interval * (Z.of_nat fuel - 1) -> (1 <= fuel)%nat ->
  finishes_from (await_exit fuel pid i b d) k.
Proof.
  induction fuel as [|fuel IH]; intros k Hd Hf; [lia |]. cbn [await_exit].
  apply from_bind; [apply finishes_monotonic |]. intros now k1 ->%monotonic_reads H1.
  destruct (Z.ltb_spec (at_ k) d) as [Hlt|]; [|apply finishes_check].
  apply from_bind; [apply finishes_check |]. intros [|] k2 _ H2; [apply finishes_ret |].
  apply from_bind; [apply finishes_sleep |]. intros u k3 H3%sleep_lasts _. unfold poll_interval in *. apply IH; lia.
Qed.

Lemma finishes_round fuel pid i b s d : d <= poll_interval * (Z.of_nat fuel - 1) -> (1 <= fuel)%nat -> finishes (signal_round fuel pid i b s d).
Proof.
  intros Hd Hf. unfold signal_round. apply finishes_bind.
  { unfold confirmed. destruct (truthy_id b); [|apply finishes_ret]. apply finishes_bind; [apply finishes_boot |]. intros cb.
    destruct (_ && _); [|apply finishes_ret]. apply finishes_bind; [apply finishes_identity |]. intros; apply finishes_ret. }
  intros []; cbn [negb]; [|apply finishes_throw]. apply finishes_bind; [apply finishes_noted; intros; apply clock_killpg |].
  assert (finishes (now ← monotonic; await_exit fuel pid i b (now + d))) as Ha.
  { intros k. apply from_bind; [apply finishes_monotonic |]. intros now k1 ->%monotonic_reads H1. apply await_finishes; [lia | done]. }
  intros []; [done | done | | apply finishes_throw].
  apply finishes_bind; [apply finishes_check |]. intros []; [apply finishes_ret | apply finishes_throw].
Qed.

Lemma finishes_terminate fuel p i b : (41 <= fuel)%nat -> finishes (_terminate fuel p i b).
Proof.
  intros Hf. unfold _terminate. destruct p as [p|]; [|apply finishes_ret]. destruct (py_int p) as [pid|]; [|apply finishes_ret].
  destruct (pid <=? 1); [apply finishes_ret |]. unfold terminate_pid.
  apply finishes_bind; [apply finishes_check |]. intros []; [apply finishes_ret |].
  apply finishes_bind; [apply finishes_round; unfold poll_interval; lia |]. intros []; [apply finishes_ret |].
  apply finishes_bind; [apply finishes_round; unfold poll_interval; lia |]. intros []; [apply finishes_ret | apply finishes_throw].
Qed.

Lemma finishes_children fuel l : (41 <= fuel)%nat -> forall r failed, finishes (stop_children fuel l r failed).
Proof.
  intros Hf. induction l as [|[c [p|]] l IH]; intros r failed; cbn [stop_children]; [apply finishes_ret | | apply IH].
  destruct (exited_field c r); [apply IH |]. apply finishes_bind; [|intros [r'|]; apply IH].
  apply finishes_catch; [|intros; apply finishes_ret]. apply finishes_bind; [|intros; apply finishes_ret].
  unfold stop_child. destruct (py_int p) as [pid|]; [|apply finishes_throw].
  apply finishes_bind; [destruct (pid <=? 1); [apply finishes_throw | apply finishes_ret] |]. intros [].
  apply finishes_bind; [by apply finishes_terminate |]. intros; apply finishes_ret.
Qed.

(** Stopping a tool ends: 41 turns of the polling loop cover its two
    seconds, so the clean-up of a tool returns or raises whatever the processes do. *)
Theorem cleanup_finishes fuel r k : (41 <= fuel)%nat ->
  (exists r', (_cleanup_partial_start fuel r k).1 = Done r') \/ (exists r', (_cleanup_partial_start fuel r k).1 = Throw (RCleanup r')).
Proof.
  intros Hf. assert (finishes (_cleanup_partial_start fuel r)) as Hc.
  { apply finishes_bind; [by apply finishes_children |]. intros x. destruct x.2; [apply finishes_throw | apply finishes_ret]. }
  destruct (Hc k) as [Hd _]. pose proof (cleanup_settles fuel r k) as Hs.
  destruct (_cleanup_partial_start fuel r k) as [[r' | e |] k']; [eauto | | done].
  destruct Hs as (r' & -> & _). eauto.
Qed.
End Clock.

(** ** Witnesses *)

(** A machine with one child, 42, which ignores SIGTERM and is reaped once. *)
Record sim := Sim { sim_clock : Z; sim_running : bool; sim_reaped : bool }.

Definition w_stat : string := "42 (a (b) c) S 1 2 3 4 5 6 7 8 9 10 11 12 13 14 15 16 17 18 777 20".

#[local] Instance sim_os : Os sim := {|
  platform := Linux;
  os_boot_file := fun n => (Some "b1 "%string, n);
  os_sysctl := fun n => (None, n);
  os_stat := fun n pid => ((if (pid =? 42) && negb (sim_reaped n) then Some w_stat else None), n);
  os_pidinfo := fun n pid => (None, n);
  os_waitpid := fun n pid =>
    if (pid =? 42) && negb (sim_reaped n) then
      if sim_running n then (Waited 0, n) else (Waited 42, Sim (sim_clock n) false true)
    else (NoChild, n);
  os_kill0 := fun n pid => ((if (pid =? 42) && negb (sim_reaped n) then Exists else NoProcess), n);
  os_killpg := fun n pid s =>
    match s with SIGTERM => (Sent, n) | SIGKILL => (Sent, Sim (sim_clock n) (sim_running n && negb (pid =? 42)) (sim_reaped n)) end;
  os_monotonic := fun n => (sim_clock n, n);
  os_sleep := fun n t => (true, Sim (sim_clock n + Z.max 0 t) (sim_running n) (sim_reaped n)) |}.

#[local] Instance sim_clock_laws : OsClock sim.
Proof.
  refine {| clock := sim_clock |}; cbn; try (intros; lia).
  - intros n pid. destruct (_ && _); [destruct (sim_running n)|]; cbn; lia.
  - intros n pid []; cbn; lia.
Defined.

Definition w_running : running_tool :=
  RunningTool "crm" 9001 "process" "42" None None None None None "127.0.0.1" 8743 None (Some "b1"%string) None (Some "777"%string)
    None None false false false None None.

Definition w_kernel : kernel sim := Kernel (Sim 0 true false) None [].

Example w_identity : stat_start_time w_stat = Some "777"%string.
Proof. reflexivity. Qed.

Lemma cleanup_finishes_witness :
  (exists r', (_cleanup_partial_start 41 w_running w_kernel).1 = Done r')
  \/ (exists r', (_cleanup_partial_start 41 w_running w_kernel).1 = Throw (RCleanup r')).
Proof. apply cleanup_finishes. lia. Defined.

Lemma cleanup_accounts_witness : rn_process_exited (mark_exited CProcess w_running) = true
  /\ settled w_running (mark_exited CProcess w_running) w_kernel (_cleanup_partial_start 41 w_running w_kernel).2.
Proof. split; [reflexivity |]. apply (cleanup_accounts 41 w_running w_kernel). left. vm_compute. reflexivity. Defined.

Lemma is_alive_justified_witness : reach (assessed w_running (true, false)) w_kernel (is_alive w_running w_kernel).2.
Proof. apply is_alive_justified. vm_compute. reflexivity. Defined.
