(* ===== verification/Runner.v ===== *)
(** toolyard/runner.py: starting and stopping tools.

    [Launcher] is what a runner uses of the machine besides the process calls of
    [Os]: the environment, the network port, the log files, posix_spawn, the
    docker command.  The secret service is reached through the [Channel] of
    SpsClient.v.  The local variables that the handlers of [start] read are the
    state [locals]. *)

From stdpp Require Import base tactics list strings.
From Stdlib Require Import ZArith Lia Ascii.
From S2P Require Import Prelude PyStr Json Sps SpsWire SpsClient SpsConfig FwdConfig ToolyardConfig Process.

(** ** Texts *)

Definition sq : ascii := chr 39.

(** The characters [shlex.quote] leaves alone. *)
Definition shell_safe (c : ascii) : bool :=
  is_alnum c || is_char "_" c || existsb (Ascii.eqb c) ["@"; "%"; "+"; "="; ":"; ","; "."; "/"; "-"]%char.

(** A quote inside quotes: close, a quoted quote, open again. *)
Fixpoint quote_body (l : list ascii) : list ascii :=
  match l with
  | [] => []
  | c :: l' => if Ascii.eqb c sq then sq :: chr 34 :: sq :: chr 34 :: sq :: quote_body l' else c :: quote_body l'
  end.

Definition shlex_quote (s : string) : string :=
  if PyStr.empty s then of_chars [sq; sq]
  else if all_chars shell_safe s then s
  else of_chars (sq :: quote_body (chars s) ++ [sq]).

(** [command.split(None, 1)]: the first word, and the rest when there is one. *)
Definition split_once (s : string) : option (string * option string) :=
  match lstrip_l (chars s) with
  | [] => None
  | l =>
      let word := take (length l - length (drop_while (fun c => negb (is_space c)) l)) l in
      let rest := lstrip_l (drop_while (fun c => negb (is_space c)) l) in
      Some (of_chars word, match rest with [] => None | _ => Some (of_chars rest) end)
  end.

Definition rstrip (s : string) : string := of_chars (rev (lstrip_l (rev (chars s)))).

(** [python], [python3], [python3.13]. *)
Definition py_interpreter (w : string) : bool :=
  starts_with "python" w
  && (let rest := str_drop 6 w in
      let '(major, dot, minor) := partition_char "." rest in
      if dot then negb (PyStr.empty major) && all_chars is_digit major && negb (PyStr.empty minor) && all_chars is_digit minor
      else all_chars is_digit major).

Definition _bind_interpreter (executable command : string) : string :=
  match split_once command with
  | None => command
  | Some (first, rest) =>
      if contains "/" first || negb (py_interpreter first) then command
      else rstrip (shlex_quote executable +:+ " " +:+ default EmptyString rest)
  end.

(** ** The environment of a child *)

Definition PLUMBING : list string :=
  ["PATH"; "HOME"; "TMPDIR"; "TMP"; "TEMP"; "LANG"; "TZ"; "PYTHONPATH"; "VIRTUAL_ENV"; "PYTHONUNBUFFERED"; "SSL_CERT_FILE"; "SSL_CERT_DIR"]%string.

Definition inherited (key : string) : bool := one_of PLUMBING key || starts_with "LC_" key.

Definition _child_environment (environ : dict string) : dict string := List.filter (fun kv => inherited kv.1) environ.

(** ** The sandbox profile of macOS *)

Definition str_line (l : list string) : string := join (String newline EmptyString) l +:+ String newline EmptyString.
Definition dq : string := String dquote EmptyString.

Definition _seatbelt_profile (policy : SandboxPolicy_) (allow_unix_egress : bool) (egress_port : option Z) : res string :=
  _ ← raise_if (negb (denies_all (sp_egress policy)) && bool_decide (egress_port = None)) ValueError;
  Ok (str_line
    (["(version 1)"; "(allow default)"; "(deny network*)";
      "(allow network-bind (local ip " +:+ dq +:+ "localhost:*" +:+ dq +:+ "))";
      "(allow network-inbound (local ip " +:+ dq +:+ "localhost:*" +:+ dq +:+ "))"]%string
     ++ match egress_port with
        | Some p => if denies_all (sp_egress policy) then []
                    else ["(allow network-outbound (remote ip " +:+ dq +:+ "localhost:" +:+ str_of_Z p +:+ dq +:+ "))"]%string
        | None => []
        end
     ++ (if allow_unix_egress then ["(allow network-outbound (remote unix-socket))"]%string else []))).

(** ** Records *)

Definition set_sps (e_secret : option string) (host : string) (port : Z) (ca : option string) (r : running_tool) : running_tool :=
  let '(RunningTool i p b h lp lpath ep la _ _ _ _ bo cs pi li ei px lx ex sd md) := r in
  RunningTool i p b h lp lpath ep la e_secret host port ca bo cs pi li ei px lx ex sd md.
Definition set_handle (handle : string) (r : running_tool) : running_tool :=
  let '(RunningTool i p b _ lp lpath ep la es sh sp sc bo cs pi li ei px lx ex sd md) := r in
  RunningTool i p b handle lp lpath ep la es sh sp sc bo cs pi li ei px lx ex sd md.
Definition set_process_identity (id : option string) (r : running_tool) : running_tool :=
  let '(RunningTool i p b h lp lpath ep la es sh sp sc bo cs _ li ei px lx ex sd md) := r in
  RunningTool i p b h lp lpath ep la es sh sp sc bo cs id li ei px lx ex sd md.
Definition set_egress_pid (pid : option string) (r : running_tool) : running_tool :=
  let '(RunningTool i p b h lp lpath _ la es sh sp sc bo cs pi li ei px lx ex sd md) := r in
  RunningTool i p b h lp lpath pid la es sh sp sc bo cs pi li ei px lx ex sd md.
Definition set_egress_identity (id : option string) (r : running_tool) : running_tool :=
  let '(RunningTool i p b h lp lpath ep la es sh sp sc bo cs pi li _ px lx ex sd md) := r in
  RunningTool i p b h lp lpath ep la es sh sp sc bo cs pi li id px lx ex sd md.
Definition set_log_pid (pid : option string) (r : running_tool) : running_tool :=
  let '(RunningTool i p b h _ lpath ep la es sh sp sc bo cs pi li ei px lx ex sd md) := r in
  RunningTool i p b h pid lpath ep la es sh sp sc bo cs pi li ei px lx ex sd md.
Definition set_log_identity (id : option string) (r : running_tool) : running_tool :=
  let '(RunningTool i p b h lp lpath ep la es sh sp sc bo cs pi _ ei px lx ex sd md) := r in
  RunningTool i p b h lp lpath ep la es sh sp sc bo cs pi id ei px lx ex sd md.

Record ResolvedSPS_ := ResolvedSPS { rs_host : string; rs_port : Z; rs_secret : string; rs_tls_ca : string; rs_verify : bool }.

(** ** The machine *)

(** A docker command: its exit code and output, a timeout, or no docker. *)
Inductive docker_answer := DockerExit (code : Z) (out : string) | DockerTimeout | DockerMissing.

(** Answers of false or [None] are an OSError.  [os_tls] builds the TLS
    context of a client, [os_readable] reads a cgroup file. *)
Class Launcher (N : Type) `{Os N} := {
  environ : dict string;
  executable : string;
  repo_root : string;
  loads_toml : string -> res (dict json);
  os_exists : N -> string -> bool * N;
  os_bind : N -> Z -> bool * N;
  os_free_port : N -> option Z * N;
  os_log_dir : N -> string -> bool * N;
  os_open_log : N -> string -> bool * N;
  os_token : N -> string * N;
  os_spawn : N -> spawn_request -> option BinNums.N * N;
  os_sps_file : N -> string -> option (file_kind * Z * string) * N;
  os_tls : N -> string -> bool -> bool * N;
  os_docker : N -> list string -> docker_answer * N;
  os_readable : N -> string -> option string * N }.

Inductive runner := ProcessRunner | SeatbeltRunner | DockerRunner | BwrapRunner.

Definition backend (rn : runner) : string :=
  match rn with ProcessRunner => "process" | SeatbeltRunner => "seatbelt" | DockerRunner => "docker" | BwrapRunner => "bwrap" end.

Section Runner.
Context {N : Type} `{Launcher N} `{Channel N} `{Utf8}.

#[local] Notation PM := (@Process.PM N).

Definition getenv (key : string) : option string := dget environ key.

(** A call of [N] that may fail with an OSError. *)
Definition os_call (f : N -> bool * N) : PM unit :=
  ok ← quiet f; if (ok : bool) then mret tt else throw ROSError.
Definition os_get {A} (f : N -> option A * N) : PM A :=
  a ← quiet f; match a with Some v => mret v | None => throw ROSError end.

Definition _check_port_free (port : Z) : PM unit :=
  ok ← quiet (fun n => os_bind n port); if (ok : bool) then mret tt else throw RRuntimeError.

Definition tool_log_path (tool : ToolDef_) : string := td_path tool +:+ "/logs/tool.log".
Definition _tool_log_path (tool : ToolDef_) : PM string :=
  _ ← os_call (fun n => os_log_dir n (td_path tool +:+ "/logs")); mret (tool_log_path tool).

(** The [str] of a field the manifest's loader does not check. *)
Definition text_of (v : json) : PM string := match v with JStr s => mret s | _ => throw RAttributeError end.

(** ** The secret service *)

Definition resolve_with (cfg : RegistrationConfig_) : res ResolvedSPS_ :=
  port ← match getenv "TOOLSTACK_SPS_PORT" with Some p => py_int p | None => Ok (rg_port cfg) end;
  verify ← parse_verify environ (JStr (default "1"%string (getenv "TOOLSTACK_SPS_VERIFY")));
  Ok (ResolvedSPS (default (rg_host cfg) (getenv "TOOLSTACK_SPS_HOST")) port (rg_secret cfg)
        (default (rg_tls_ca cfg) (getenv "TOOLSTACK_SPS_CA")) verify).

Definition _resolve_sps (path : string) : PM ResolvedSPS_ :=
  file ← quiet (fun n => os_sps_file n path);
  match (cfg ← load_registration_config loads_toml file; resolve_with cfg) with
  | Ok r => mret r
  | Raise _ => throw RConfigError
  end.

(** The client's call, over the connection that [N] is. *)
Definition sps_do (m : CM unit) : PM bool := fun k =>
  let '(r, n) := m (k_os k) in
  (Done match r with inl _ => true | inr _ => false end, Kernel n (k_boot k) (k_log k)).

Definition note (e : event) : PM unit := fun k => (Done tt, Kernel (k_os k) (k_boot k) (k_log k ++ [e])).

(** The client's default limit of an answer. *)
Definition MAX_RESPONSE : Z := 8 * 1024 * 1024.

Definition sps_client_of (cfg : ResolvedSPS_) : PM sps_client :=
  _ ← os_call (fun n => os_tls n (rs_tls_ca cfg) (rs_verify cfg));
  mret (SPSClient (Some (rs_secret cfg)) None MAX_RESPONSE).

(** [bool(s.writable)] and the texts of a declaration. *)
Definition cs_tuple_of (s : SecretSpec_) : PM cs_tuple :=
  name ← text_of (ss_name s);
  field ← text_of (ss_field s);
  match ss_item s with
  | JNull => mret (CsTuple name field None (truthy (ss_writable s)))
  | JStr item => mret (CsTuple name field (Some item) (truthy (ss_writable s)))
  | _ => throw RAttributeError
  end.

Fixpoint each {A B} (f : A -> PM B) (l : list A) : PM (list B) :=
  match l with [] => mret [] | a :: l' => b ← f a; bs ← each f l'; mret (b :: bs) end.

Definition _sps_register (tool_id : string) (secrets : list SecretSpec_) (e_secret : string) (cfg : ResolvedSPS_) : PM unit :=
  client ← sps_client_of cfg;
  cs_tuples ← each cs_tuple_of secrets;
  answered ← sps_do (register client tool_id e_secret cs_tuples);
  _ ← note (EvRegister tool_id answered);
  if (answered : bool) then mret tt else throw RSps.

(** Its exceptions are logged and dropped. *)
Definition _sps_unregister (tool_id path : string) : PM unit :=
  catch (cfg ← _resolve_sps path;
         client ← sps_client_of cfg;
         _ ← sps_do (unregister client tool_id);
         note (EvUnregister tool_id))
    (fun e => if is_exception e then mret tt else throw e).

Definition sps_env_path : string := default "/etc/toolstack/sps.env"%string (getenv "TOOLSTACK_SPS_ENV").
Definition sps_skipped : bool := bool_decide (getenv "TOOLSTACK_SPS_SKIP" = Some "1"%string).
Definition sps_active : PM bool :=
  if sps_skipped then mret false else quiet (fun n => os_exists n sps_env_path).

(** ** Spawning *)

Definition posix_spawn (what : child) (req : spawn_request) : PM BinNums.N := fun k =>
  match os_spawn (k_os k) req with
  | (Some pid, n) => (Done pid, Kernel n (k_boot k) (k_log k ++ [EvSpawn what req (Z.of_N pid)]))
  | (None, n) => (Throw ROSError, Kernel n (k_boot k) (k_log k))
  end.

Definition pid_str (pid : BinNums.N) : string := str_of_Z (Z.of_N pid).

Definition sh_request (script : string) (env : dict string) : spawn_request :=
  SpawnRequest "/bin/sh" ["/bin/sh"; "-c"; script]%string env.

Definition egress_command (port : Z) (allow : list string) : string :=
  "cd " +:+ shlex_quote repo_root +:+ " && exec " +:+ shlex_quote executable +:+ " -m toolyard.egress_proxy --port "
    +:+ str_of_Z port +:+ " " +:+ join " " (map (fun h => "--allow " +:+ shlex_quote h) allow).

Definition _start_egress_proxy (allow : list string) : PM (BinNums.N * Z) :=
  port ← os_get os_free_port;
  pid ← posix_spawn CEgress (sh_request (egress_command port allow) (_child_environment environ));
  mret (pid, port).

Definition _policy (rn : runner) (tool : ToolDef_) : SandboxPolicy_ :=
  match rn with
  | SeatbeltRunner | BwrapRunner => SandboxPolicy (EgressPolicy (td_egress tool)) no_caps
  | _ => baseline
  end.

(** [proxy_dir] is None in every call. *)
Definition _spawn_argv (rn : runner) (tool : ToolDef_) (inner_script : string) (egress_port : option Z) : res (string * list string) :=
  match rn with
  | SeatbeltRunner =>
      profile ← _seatbelt_profile (_policy rn tool) false egress_port;
      Ok ("/usr/bin/sandbox-exec"%string, ["sandbox-exec"; "-p"; profile; "/bin/sh"; "-c"; inner_script]%string)
  | _ => Ok ("/bin/sh"%string, ["/bin/sh"; "-c"; inner_script]%string)
  end.

Definition sps_vars (e_secret : option string) (cfg : option ResolvedSPS_) : dict string :=
  match e_secret, cfg with
  | Some e, Some c =>
      [("TOOLSTACK_E_SECRET"%string, e); ("TOOLSTACK_SPS_HOST"%string, rs_host c);
       ("TOOLSTACK_SPS_PORT"%string, str_of_Z (rs_port c)); ("TOOLSTACK_SPS_CA"%string, rs_tls_ca c);
       ("TOOLSTACK_SPS_VERIFY"%string, if rs_verify c then "1"%string else "0"%string)]
  | _, _ => []
  end.

Definition proxy_vars (egress_port : option Z) : dict string :=
  match egress_port with
  | Some p => if p =? 0 then [] else
      map (fun v => (v, "http://127.0.0.1:" +:+ str_of_Z p)) ["HTTP_PROXY"; "HTTPS_PROXY"; "http_proxy"; "https_proxy"]%string
  | None => []
  end.

Definition update (d : dict string) (l : dict string) : dict string := fold_left (fun acc kv => dset acc kv.1 kv.2) l d.

(** The environment of the tool. *)
Definition tool_env (tool : ToolDef_) (channel_secret : string) (e_secret : option string) (cfg : option ResolvedSPS_)
    (egress_port : option Z) : dict string :=
  let env := update (_child_environment environ)
    [("TOOLSTACK_PORT"%string, str_of_Z (td_port tool)); ("TOOLSTACK_TOOL_CONFIG"%string, td_path tool +:+ "/toolyard.toml")] in
  update (dpop env "TOOLSTACK_E_SECRET")
    (("TOOLSTACK_CHANNEL_SECRET"%string, channel_secret) :: sps_vars e_secret cfg ++ proxy_vars egress_port).

(** ** ProcessRunner.start *)

(** The variables the exception handler reads. *)
Record locals := Locals { lo_running : running_tool; lo_registered : bool }.

Definition SM (A : Type) : Type := M (locals * kernel N) A.

Definition lift {A} (m : PM A) : SM A := fun s =>
  let '(o, k) := m s.2 in (o, (s.1, k)).
Definition get_running : SM running_tool := fun s => (Done (lo_running s.1), s).
Definition set_running (f : running_tool -> running_tool) : SM unit := fun s =>
  (Done tt, (Locals (f (lo_running s.1)) (lo_registered s.1), s.2)).
Definition set_registered : SM unit := fun s => (Done tt, (Locals (lo_running s.1) true, s.2)).

(** Registration: the configuration, and the secret if the tool keeps it. *)
Definition start_register (tool : ToolDef_) (e_secret : string) : SM (option ResolvedSPS_ * option string) :=
  cfg ← lift (_resolve_sps sps_env_path);
  e ← catch (_ ← lift (_sps_register (td_id tool) (td_secrets tool) e_secret cfg); _ ← set_registered; mret (Some e_secret))
        (fun e => match e with
                  | RConfigError => throw e
                  | _ => if negb (is_exception e) then throw e
                         else if bool_decide (td_secrets tool = []) then mret None else throw RRuntimeError
                  end);
  mret (Some cfg, e).

Definition lift_res {A} (r : res A) : SM A := match r with Ok a => mret a | Raise _ => throw RValueError end.

(** The egress proxy, if the policy allows any host. *)
Definition start_egress (rn : runner) (tool : ToolDef_) : SM (option Z) :=
  let policy := _policy rn tool in
  if denies_all (sp_egress policy) then mret None
  else
    x ← lift (_start_egress_proxy (ep_allow (sp_egress policy)));
    _ ← set_running (set_egress_pid (Some (pid_str x.1)));
    identity ← lift (_process_identity (Some (pid_str x.1)));
    _ ← set_running (set_egress_identity identity);
    mret (Some x.2).

Definition start_main (rn : runner) (tool : ToolDef_) (log_path channel_secret : string) (e_secret : option string)
    (cfg : option ResolvedSPS_) (egress_port : option Z) : SM unit :=
  let env := tool_env tool channel_secret e_secret cfg egress_port in
  command ← lift (text_of (td_command tool));
  let inner_script := "cd " +:+ shlex_quote (td_path tool) +:+ " && exec " +:+ _bind_interpreter executable command in
  exe ← lift_res (_spawn_argv rn tool inner_script egress_port);
  _ ← lift (os_call (fun n => os_open_log n log_path));
  pid ← lift (posix_spawn CProcess (SpawnRequest exe.1 exe.2 env));
  _ ← set_running (set_handle (pid_str pid));
  identity ← lift (identity_at (Z.of_N pid));
  set_running (set_process_identity identity).

(** The [try] block. *)
Definition start_body (rn : runner) (tool : ToolDef_) (log_path channel_secret : string) (e_secret : option string) : SM running_tool :=
  reg ← match e_secret with Some e => start_register tool e | None => mret (None, None) end;
  let cfg := reg.1 in
  let e_secret := reg.2 in
  _ ← set_running (set_sps e_secret (match cfg with Some c => rs_host c | None => "127.0.0.1"%string end)
        (match cfg with Some c => rs_port c | None => 8743 end) (rs_tls_ca <$> cfg));
  egress_port ← start_egress rn tool;
  _ ← start_main rn tool log_path channel_secret e_secret cfg egress_port;
  _ ← lift (sleep 300000);
  running ← get_running;
  alive ← lift (is_alive running);
  _ ← (if (alive.2 : bool) then set_running (mark_exited CProcess) else mret tt);
  if (alive.1 : bool) then get_running else throw RRuntimeError.

(** The [except BaseException] block; the original exception is raised again
    unless the clean-up failed. *)
Definition start_failed (fuel : nat) (tool_id : string) (lo : locals) (cause : rexn) : PM running_tool :=
  _ ← finally (_cleanup_partial_start fuel (lo_running lo))
        (if lo_registered lo then
           catch (_sps_unregister tool_id sps_env_path) (fun e => if is_exception e then mret tt else throw e)
         else mret tt);
  throw cause.

Definition start_guarded (fuel : nat) (tool_id : string) (lo : locals) (body : SM running_tool) : PM running_tool := fun k =>
  match body (lo, k) with
  | (Done r, (_, k')) => (Done r, k')
  | (Throw cause, (lo', k')) => start_failed fuel tool_id lo' cause k'
  | (Diverge, (_, k')) => (Diverge, k')
  end.

Definition process_start (fuel : nat) (rn : runner) (tool : ToolDef_) : PM running_tool :=
  _ ← throw_if (negb (truthy (td_command tool))) RValueError;
  _ ← _check_port_free (td_port tool);
  active ← sps_active;
  let declares := negb (bool_decide (td_secrets tool = [])) in
  _ ← throw_if ((active || declares) && negb (String.eqb (backend rn) "process")) RConfigError;
  _ ← throw_if (declares && negb active && negb sps_skipped) RConfigError;
  channel_secret ← quiet os_token;
  e_secret ← (if (active : bool) then t ← quiet os_token; mret (Some t) else mret None);
  log_path ← _tool_log_path tool;
  boot ← _boot_id;
  let running := new_running (td_id tool) (td_port tool) (backend rn) (Some log_path) boot e_secret (Some channel_secret)
                   (Some (td_secrets tool)) (td_manifest_digest tool) in
  start_guarded fuel (td_id tool) (Locals running false) (start_body rn tool log_path channel_secret e_secret).

(** ** ProcessRunner.stop *)

Definition process_stop (fuel : nat) (r : running_tool) : PM unit :=
  finally (_ ← _cleanup_partial_start fuel r; mret tt)
    (if truthy_id (rn_e_secret r) then
       catch (_sps_unregister (rn_tool_id r) sps_env_path) (fun e => if is_exception e then mret tt else throw e)
     else mret tt).

(** ** DockerRunner *)

(** [_docker]: a timeout is a RuntimeError, and so is a failure when checked. *)
Definition _docker (args : list string) (check : bool) : PM (Z * string) :=
  answer ← quiet (fun n => os_docker n args);
  match answer with
  | DockerExit code out => if check && negb (code =? 0) then throw RRuntimeError else mret (code, out)
  | DockerTimeout => throw RRuntimeError
  | DockerMissing => throw ROSError
  end.

(** [subprocess.run] of docker; the outer [None] is a timeout. *)
Definition docker_run (args : list string) : PM (option (Z * string)) :=
  answer ← quiet (fun n => os_docker n args);
  match answer with
  | DockerExit code out => mret (Some (code, out))
  | DockerTimeout => mret None
  | DockerMissing => throw ROSError
  end.

Definition docker_alive (r : running_tool) : PM bool :=
  answer ← docker_run ["inspect"; "-f"; "{{.State.Running}}"; rn_handle r]%string;
  mret match answer with Some (_, out) => String.eqb (strip out) "true" | None => false end.

Definition _start_docker_log_follower (container log_path : string) : PM BinNums.N :=
  _ ← os_call (fun n => os_open_log n log_path);
  posix_spawn CLog (SpawnRequest "/usr/bin/env" ["env"; "docker"; "logs"; "-f"; container]%string (_child_environment environ)).

Definition is_rest_generic (tool : ToolDef_) : bool := String.eqb (td_type tool) "rest" && is_null (td_image tool).

Definition docker_image (tool : ToolDef_) : PM string :=
  if truthy (td_image tool) then text_of (td_image tool)
  else mret (if is_rest_generic tool then "python:3.13-slim"%string else "toolstack-" +:+ td_id tool).

(** The two examples of the repository are built from its root; paths are
    already resolved. *)
Definition build_context (tool : ToolDef_) : string :=
  if one_of [repo_root +:+ "/tools/echo_api"; repo_root +:+ "/tools/echo_mcp"]%string (td_path tool) then repo_root else td_path tool.

Definition container_config : string := "/run/toolstack/toolyard.toml".

Definition run_args (tool : ToolDef_) (name channel_secret image : string) : list string :=
  let port := str_of_Z (td_port tool) in
  (["run"; "-d"; "--name"; name; "-p"; "127.0.0.1:" +:+ port +:+ ":" +:+ port; "-e"; "TOOLSTACK_PORT=" +:+ port;
   "-e"; "TOOLSTACK_CHANNEL_SECRET=" +:+ channel_secret; "-e"; "TOOLSTACK_BIND=0.0.0.0"]%string
   ++ (if String.eqb (td_type tool) "rest" then
         ["-v"; td_path tool +:+ "/toolyard.toml:" +:+ container_config +:+ ":ro"; "-e"; "TOOLSTACK_TOOL_CONFIG=" +:+ container_config]%string
         ++ (if is_rest_generic tool then ["-v"; repo_root +:+ ":/app:ro"; "-w"; "/app"]%string else [])
       else [])
   ++ [image] ++ (if is_rest_generic tool then ["python3"; "-m"; "toolstack_forwarder"]%string else [])).

(** The [try] block; the handle is recorded before the container exists. *)
Definition docker_body (tool : ToolDef_) (log_path channel_secret : string) : SM running_tool :=
  image ← lift (docker_image tool);
  _ ← (if is_null (td_image tool) && negb (is_rest_generic tool) then
         lift (_docker ["build"; "-t"; image; "-f"; td_path tool +:+ "/Dockerfile"; build_context tool]%string true)
       else mret (0, EmptyString));
  let name := "toolyard-" +:+ td_id tool in
  _ ← set_running (set_handle name);
  _ ← lift (_docker ["rm"; "-f"; name]%string false);
  _ ← lift (_docker (run_args tool name channel_secret image) true);
  pid ← lift (_start_docker_log_follower name log_path);
  _ ← set_running (set_log_pid (Some (pid_str pid)));
  identity ← lift (_process_identity (Some (pid_str pid)));
  _ ← set_running (set_log_identity identity);
  _ ← lift (sleep 300000);
  running ← get_running;
  alive ← lift (docker_alive running);
  if (alive : bool) then mret running else throw RRuntimeError.

(** The handler: the container is removed by its name, once it has one. *)
Definition docker_failed (fuel : nat) (lo : locals) (cause : rexn) : PM running_tool :=
  removed ← (if PyStr.empty (rn_handle (lo_running lo)) then mret true
             else catch (x ← docker_run ["rm"; "-f"; rn_handle (lo_running lo)]%string;
                         mret match x with Some (code, _) => code =? 0 | None => false end)
                    (fun _ => mret false));
  running ← _cleanup_partial_start fuel (lo_running lo);
  if (removed : bool) then throw cause else throw (RCleanup running).

Definition docker_guarded (fuel : nat) (lo : locals) (body : SM running_tool) : PM running_tool := fun k =>
  match body (lo, k) with
  | (Done r, (_, k')) => (Done r, k')
  | (Throw cause, (lo', k')) => docker_failed fuel lo' cause k'
  | (Diverge, (_, k')) => (Diverge, k')
  end.

Definition docker_start (fuel : nat) (tool : ToolDef_) : PM running_tool :=
  _ ← throw_if (negb (bool_decide (td_secrets tool = [])) || truthy_id (getenv "TOOLSTACK_E_SECRET")) RConfigError;
  active ← sps_active;
  _ ← throw_if active RConfigError;
  channel_secret ← quiet os_token;
  log_path ← _tool_log_path tool;
  boot ← _boot_id;
  let running := new_running (td_id tool) (td_port tool) "docker" (Some log_path) boot None (Some channel_secret) None None in
  docker_guarded fuel (Locals running false) (docker_body tool log_path channel_secret).

(** The clean-up's record replaces the one passed in; its error is raised
    after the container was removed. *)
Definition docker_stop (fuel : nat) (r : running_tool) : PM unit :=
  x ← catch (r' ← _cleanup_partial_start fuel r; mret (r', None))
        (fun e => match e with RCleanup r' => mret (r', Some e) | _ => throw e end);
  let running := x.1 in
  _ ← catch (answer ← docker_run ["rm"; "-f"; rn_handle running]%string;
             match answer with
             | Some (code, _) => throw_if (negb (code =? 0)) RRuntimeError
             | None => throw RRuntimeError
             end)
        (fun e => match e with RInterrupt => throw e | _ => throw (RCleanup running) end);
  match x.2 with Some e => throw e | None => mret tt end.

(** ** BwrapRunner *)

Definition cgroup_procs (tool_id : string) : string := "/sys/fs/cgroup/toolyard/" +:+ tool_id +:+ "/cgroup.procs".

Definition bwrap_alive (r : running_tool) : PM bool :=
  text ← quiet (fun n => os_readable n (cgroup_procs (rn_handle r)));
  mret match text with Some t => negb (PyStr.empty (strip t)) | None => false end.

(** ** The runners *)

Definition native_backend : PM string :=
  match platform with
  | Darwin => mret "seatbelt"%string
  | Linux => mret "bwrap"%string
  | OtherPlatform => throw RRuntimeError
  end.

Definition get_runner (name : string) : PM runner :=
  if String.eqb name "process" then mret ProcessRunner
  else if String.eqb name "docker" then mret DockerRunner
  else
    name ← (if String.eqb name "sandbox" then native_backend else mret name);
    if String.eqb name "seatbelt" then mret SeatbeltRunner
    else if String.eqb name "bwrap" then mret BwrapRunner
    else throw RValueError.

Definition runner_start (fuel : nat) (rn : runner) (tool : ToolDef_) : PM running_tool :=
  match rn with
  | ProcessRunner | SeatbeltRunner => process_start fuel rn tool
  | DockerRunner => docker_start fuel tool
  | BwrapRunner => throw RConfigError
  end.

Definition runner_stop (fuel : nat) (rn : runner) (r : running_tool) : PM unit :=
  match rn with
  | ProcessRunner | SeatbeltRunner => process_stop fuel r
  | DockerRunner => docker_stop fuel r
  | BwrapRunner => throw RConfigError
  end.

Definition runner_alive (rn : runner) (r : running_tool) : PM bool :=
  match rn with
  | ProcessRunner | SeatbeltRunner => x ← is_alive r; mret x.1
  | DockerRunner => docker_alive r
  | BwrapRunner => bwrap_alive r
  end.
End Runner.
