(* ===== verification/RunnerFacts.v ===== *)
(** What starting tools guarantees: no
    credential of the toolyard reaches a tool, and a tool that declares secrets
    is not launched without them. *)

From stdpp Require Import base tactics list strings.
From Stdlib Require Import ZArith Lia Ascii.
From S2P Require Import Prelude PyStr Json Sps SpsWire SpsClient SpsConfig FwdConfig ToolyardConfig Process ProcessFacts Runner.

Section Facts.
Context {N : Type} `{Launcher N} `{Channel N} `{Utf8}.
Implicit Types (k : kernel N) (r : running_tool) (tool : ToolDef_).

#[local] Notation PM := (@Process.PM N).
#[local] Notation SM := (@Runner.SM N).
#[local] Notation does := (@ProcessFacts.does N _).

(** ** Calls that spawn nothing

    [spawns G]: every process that is spawned satisfies [G]. *)

Definition spawn_ok (G : child -> spawn_request -> Prop) (b : option (option string)) (l : list event) : Prop :=
  forall what req pid, In (EvSpawn what req pid) l -> G what req.

Definition spawns (G : child -> spawn_request -> Prop) : effects.
Proof.
  refine (Effects (spawn_ok G) _ _ _).
  - by intros b what req pid [].
  - intros b l1 l2 H1' H2' what req pid [|]%in_app_iff; eauto.
  - by intros.
Defined.

Lemma spawns_observes G : observes (spawns G).
Proof. intros b e He what req pid [->|[]]. done. Qed.

Definition any_spawned : effects := spawns (fun _ _ => True).
Definition none_spawned : effects := spawns (fun _ _ => False).

Section AnyGood.
Context (G : child -> spawn_request -> Prop).

Lemma quiet_does {A} (f : N -> A * N) : does (spawns G) (quiet f).
Proof. apply does_quiet. Qed.

Lemma os_call_does (f : N -> bool * N) : does (spawns G) (os_call f).
Proof. apply does_bind; [apply does_quiet |]. intros []; [apply does_ret | apply does_throw]. Qed.

Lemma os_get_does {A} (f : N -> option A * N) : does (spawns G) (os_get f).
Proof. apply does_bind; [apply does_quiet |]. intros [a|]; [apply does_ret | apply does_throw]. Qed.

Lemma text_does v : does (spawns G) (text_of v).
Proof. destruct v; try apply does_throw. apply does_ret. Qed.

Lemma resolve_does path : does (spawns G) (_resolve_sps path).
Proof. apply does_bind; [apply does_quiet |]. intros file. destruct (_ : res ResolvedSPS_); [apply does_ret | apply does_throw]. Qed.

Lemma note_does e : (forall what req pid, e <> EvSpawn what req pid) -> does (spawns G) (note e).
Proof. intros He k. exists [e]. split; [done |]. split; [done |]. intros what req pid [E|[]]. by apply He in E. Qed.

Lemma sps_do_does m : does (spawns G) (sps_do m).
Proof. intros k. unfold sps_do. destruct (m (k_os k)) as [x n]. exists []. rewrite app_nil_r. split; [done |]. split; [done | apply fx_nil]. Qed.

Lemma client_does cfg : does (spawns G) (sps_client_of cfg).
Proof. apply does_bind; [apply os_call_does |]. intros; apply does_ret. Qed.

Lemma each_does {A B} (f : A -> PM B) l : (forall a, does (spawns G) (f a)) -> does (spawns G) (each f l).
Proof.
  intros Hf. induction l as [|a l IH]; [apply does_ret |]. apply does_bind; [apply Hf |]. intros b.
  apply does_bind; [exact IH |]. intros; apply does_ret.
Qed.

Lemma tuple_does s : does (spawns G) (cs_tuple_of s).
Proof.
  apply does_bind; [apply text_does |]. intros name. apply does_bind; [apply text_does |]. intros field.
  destruct (ss_item s); try apply does_throw; apply does_ret.
Qed.

Lemma register_does id secrets e cfg : does (spawns G) (_sps_register id secrets e cfg).
Proof.
  apply does_bind; [apply client_does |]. intros c. apply does_bind; [apply each_does, tuple_does |]. intros l.
  apply does_bind; [apply sps_do_does |]. intros a. apply does_bind; [by apply note_does |]. intros _.
  destruct a; [apply does_ret | apply does_throw].
Qed.

Lemma unregister_does id path : does (spawns G) (_sps_unregister id path).
Proof.
  apply does_catch; [|intros e; destruct (is_exception e); [apply does_ret | apply does_throw]].
  apply does_bind; [apply resolve_does |]. intros cfg. apply does_bind; [apply client_does |]. intros c.
  apply does_bind; [apply sps_do_does |]. intros _. by apply note_does.
Qed.

Lemma unregister_quietly id path : does (spawns G)
  (catch (_sps_unregister id path) (fun e => if is_exception e then mret tt else throw e)).
Proof. apply does_catch; [apply unregister_does |]. intros e. destruct (is_exception e); [apply does_ret | apply does_throw]. Qed.

Lemma round_spawns fuel pid i b s d : does (spawns G) (signal_round fuel pid i b s d).
Proof.
  pose proof (spawns_observes G) as Ho. apply does_bind; [by apply does_confirmed |]. intros []; cbn [negb]; [|apply does_throw].
  apply does_bind; [apply does_noted; intros bo a what req p [E|[]]; done |].
  intros []; [| | |apply does_throw].
  3: apply does_bind; [by apply does_check_exit |]; intros []; [apply does_ret | apply does_throw].
  all: apply does_bind; [apply does_quiet |]; intros now; by apply does_await.
Qed.

Lemma terminate_spawns fuel p i b : does (spawns G) (_terminate fuel p i b).
Proof.
  pose proof (spawns_observes G) as Ho. destruct p as [p|]; [|apply does_ret]. unfold _terminate.
  destruct (py_int p) as [pid|]; [|apply does_ret]. destruct (pid <=? 1); [apply does_ret |]. unfold terminate_pid.
  apply does_bind; [by apply does_check_exit |]. intros []; [apply does_ret |].
  apply does_bind; [apply round_spawns |]. intros []; [apply does_ret |].
  apply does_bind; [apply round_spawns |]. intros []; [apply does_ret | apply does_throw].
Qed.

Lemma cleanup_spawns fuel r : does (spawns G) (_cleanup_partial_start fuel r).
Proof.
  apply does_bind; [|intros x; destruct x.2; [apply does_throw | apply does_ret]].
  generalize false as failed. generalize r at 2 as r'. generalize (children r) as l.
  induction l as [|[c [p|]] l IH]; intros r' failed; cbn [stop_children]; [apply does_ret | | apply IH].
  destruct (exited_field c r'); [apply IH |]. apply does_bind; [|intros [r2|]; apply IH].
  apply does_catch; [|intros; apply does_ret]. apply does_bind; [|intros; apply does_ret].
  unfold stop_child. destruct (py_int p) as [pid|]; [|apply does_throw].
  apply does_bind; [apply does_throw_if |]. intros _. apply does_bind; [apply terminate_spawns |]. intros; apply does_ret.
Qed.
End AnyGood.

(** ** The body of start *)

Definition st : Type := locals * kernel N.

Definition sdoes {A} (V : effects) (m : SM A) : Prop := forall s : st, reach V s.2 (m s).2.2.

Lemma sdoes_ret {A} V (a : A) : sdoes V (mret a).
Proof. intros s. apply reach_refl. Qed.
Lemma sdoes_throw {A} V e : sdoes V (throw e : SM A).
Proof. intros s. apply reach_refl. Qed.
Lemma sdoes_bind {A B} V (m : SM A) (f : A -> SM B) : sdoes V m -> (forall a, sdoes V (f a)) -> sdoes V (m ≫= f).
Proof.
  intros Hm Hf s. unfold mbind, M_bind. specialize (Hm s). destruct (m s) as [[a | e |] s1]; [|done..].
  eapply reach_trans; [exact Hm | apply Hf].
Qed.
Lemma sdoes_catch {A} V (m : SM A) h : sdoes V m -> (forall e, sdoes V (h e)) -> sdoes V (catch m h).
Proof.
  intros Hm Hh s. unfold catch. specialize (Hm s). destruct (m s) as [[a | e |] s1]; [done | | done].
  eapply reach_trans; [exact Hm | apply Hh].
Qed.
Lemma sdoes_lift {A} V (m : PM A) : does V m -> sdoes V (lift m).
Proof. intros Hm s. unfold lift. specialize (Hm s.2). by destruct (m s.2). Qed.
Lemma sdoes_set V f : sdoes V (set_running f).
Proof. intros s. apply reach_refl. Qed.
Lemma sdoes_res {A} V (x : res A) : sdoes V (lift_res x).
Proof. destruct x; [apply sdoes_ret | apply sdoes_throw]. Qed.

Lemma posix_spawn_does G what req : G what req -> does (spawns G) (posix_spawn what req).
Proof.
  intros Hg k. unfold posix_spawn. destruct (os_spawn (k_os k) req) as [[pid|] n]; cbn.
  - eexists [_]. split; [done |]. split; [apply boot_le_refl |]. intros w q p [[= <- <- _]|[]]. done.
  - exists []. cbn. rewrite app_nil_r. split; [done |]. split; [apply boot_le_refl | by intros w q p []].
Qed.

Lemma start_register_does G tool e : sdoes (spawns G) (start_register tool e).
Proof.
  apply sdoes_bind; [apply sdoes_lift, resolve_does |]. intros cfg. apply sdoes_bind; [|intros; apply sdoes_ret].
  apply sdoes_catch.
  - apply sdoes_bind; [apply sdoes_lift, register_does |]. intros _.
    apply sdoes_bind; [intros s; apply reach_refl |]. intros _. apply sdoes_ret.
  - intros []; try apply sdoes_throw; cbn [is_exception negb]; try apply sdoes_throw;
      (destruct (bool_decide (td_secrets tool = [])); [apply sdoes_ret | apply sdoes_throw]).
Qed.

Definition egress_request (port : Z) (allow : list string) : spawn_request :=
  sh_request (egress_command port allow) (_child_environment environ).

Lemma start_egress_does (G : child -> spawn_request -> Prop) rn tool :
  (forall port, G CEgress (egress_request port (ep_allow (sp_egress (_policy rn tool))))) ->
  sdoes (spawns G) (start_egress rn tool).
Proof.
  intros Hg. unfold start_egress. destruct (denies_all _); [apply sdoes_ret |].
  apply sdoes_bind.
  - apply sdoes_lift, does_bind; [apply os_get_does |]. intros port.
    apply does_bind; [apply posix_spawn_does, Hg |]. intros; apply does_ret.
  - intros x. apply sdoes_bind; [apply sdoes_set |]. intros _.
    apply sdoes_bind; [apply sdoes_lift, does_process_identity, spawns_observes |]. intros i.
    apply sdoes_bind; [apply sdoes_set |]. intros _. apply sdoes_ret.
Qed.

Lemma start_main_does (G : child -> spawn_request -> Prop) rn tool log_path cs es cfg port :
  (forall exe argv, G CProcess (SpawnRequest exe argv (tool_env tool cs es cfg port))) ->
  sdoes (spawns G) (start_main rn tool log_path cs es cfg port).
Proof.
  intros Hg. unfold start_main. apply sdoes_bind; [apply sdoes_lift, text_does |]. intros command.
  apply sdoes_bind; [apply sdoes_res |]. intros exe. apply sdoes_bind; [apply sdoes_lift, os_call_does |]. intros _.
  apply sdoes_bind; [apply sdoes_lift, posix_spawn_does, Hg |]. intros pid.
  apply sdoes_bind; [apply sdoes_set |]. intros _.
  apply sdoes_bind; [apply sdoes_lift, does_identity, spawns_observes |]. intros i. apply sdoes_set.
Qed.

(** What follows the registration. *)
Definition start_rest (rn : runner) tool (log_path channel_secret : string) (cfg : option ResolvedSPS_) (e_secret : option string) : SM running_tool :=
  _ ← set_running (set_sps e_secret (match cfg with Some c => rs_host c | None => "127.0.0.1"%string end)
        (match cfg with Some c => rs_port c | None => 8743 end) (rs_tls_ca <$> cfg));
  egress_port ← start_egress rn tool;
  _ ← start_main rn tool log_path channel_secret e_secret cfg egress_port;
  _ ← lift (sleep 300000);
  running ← get_running;
  alive ← lift (is_alive running);
  _ ← (if (alive.2 : bool) then set_running (mark_exited CProcess) else mret tt);
  if (alive.1 : bool) then get_running else throw RRuntimeError.

Lemma start_body_eq rn tool log_path cs es :
  start_body rn tool log_path cs es
  = reg ← match es with Some e => start_register tool e | None => mret (None, None) end; start_rest rn tool log_path cs reg.1 reg.2.
Proof. reflexivity. Qed.

Lemma start_rest_does (G : child -> spawn_request -> Prop) rn tool log_path cs cfg es :
  (forall port, G CEgress (egress_request port (ep_allow (sp_egress (_policy rn tool))))) ->
  (forall exe argv port, G CProcess (SpawnRequest exe argv (tool_env tool cs es cfg port))) ->
  sdoes (spawns G) (start_rest rn tool log_path cs cfg es).
Proof.
  intros He Hm. unfold start_rest. apply sdoes_bind; [apply sdoes_set |]. intros _.
  apply sdoes_bind; [by apply start_egress_does |]. intros port. apply sdoes_bind; [by apply start_main_does |]. intros _.
  apply sdoes_bind; [apply sdoes_lift, does_sleep |]. intros _. apply sdoes_bind; [intros s; apply reach_refl |]. intros r.
  apply sdoes_bind; [apply sdoes_lift, does_is_alive, spawns_observes |]. intros a.
  apply sdoes_bind; [destruct a.2; [apply sdoes_set | apply sdoes_ret] |]. intros _.
  destruct a.1; [intros s; apply reach_refl | apply sdoes_throw].
Qed.

Lemma does_finally {A} V (m : PM A) f : does V m -> does V f -> does V (finally m f).
Proof.
  intros Hm Hf k. unfold finally. specialize (Hm k). destruct (m k) as [[a | e |] k1]; [| |done];
    specialize (Hf k1); destruct (f k1) as [[u | e' |] k2]; eapply reach_trans; eauto.
Qed.

Lemma start_failed_does G fuel id lo cause : does (spawns G) (start_failed fuel id lo cause).
Proof.
  apply does_bind; [|intros; apply does_throw]. apply does_finally; [apply cleanup_spawns |].
  destruct (lo_registered lo); [apply unregister_quietly | apply does_ret].
Qed.

Lemma start_guarded_does G fuel id lo body : sdoes (spawns G) body -> does (spawns G) (start_guarded fuel id lo body).
Proof.
  intros Hb k. unfold start_guarded. specialize (Hb (lo, k)). destruct (body (lo, k)) as [[x | cause |] [lo' k']]; [done | | done].
  eapply reach_trans; [exact Hb | apply start_failed_does].
Qed.

Lemma sps_active_does G : does (spawns G) sps_active.
Proof. unfold sps_active. destruct sps_skipped; [apply does_ret | apply does_quiet]. Qed.

Lemma log_path_does G tool : does (spawns G) (_tool_log_path tool).
Proof. apply does_bind; [apply os_call_does |]. intros; apply does_ret. Qed.

Lemma process_start_does (G : child -> spawn_request -> Prop) fuel rn tool :
  (forall port, G CEgress (egress_request port (ep_allow (sp_egress (_policy rn tool))))) ->
  (forall exe argv cs es cfg port, G CProcess (SpawnRequest exe argv (tool_env tool cs es cfg port))) ->
  does (spawns G) (process_start fuel rn tool).
Proof.
  intros He Hm. unfold process_start. apply does_bind; [apply does_throw_if |]. intros _.
  apply does_bind; [apply does_bind; [apply does_quiet |]; intros []; [apply does_ret | apply does_throw] |]. intros _.
  apply does_bind; [apply sps_active_does |]. intros act. apply does_bind; [apply does_throw_if |]. intros _.
  apply does_bind; [apply does_throw_if |]. intros _. apply does_bind; [apply does_quiet |]. intros cs.
  apply does_bind; [destruct act; [apply does_bind; [apply does_quiet |]; intros; apply does_ret | apply does_ret] |]. intros es.
  apply does_bind; [apply log_path_does |]. intros lp. apply does_bind; [apply does_boot |]. intros b.
  apply start_guarded_does. rewrite start_body_eq.
  apply sdoes_bind; [destruct es; [apply start_register_does | apply sdoes_ret] |]. intros reg. by apply start_rest_does.
Qed.

Lemma docker_does G args check : does (spawns G) (_docker args check).
Proof.
  apply does_bind; [apply does_quiet |]. intros [code out | |]; [|apply does_throw..].
  destruct (_ && _); [apply does_throw | apply does_ret].
Qed.
Lemma docker_run_does G args : does (spawns G) (docker_run args).
Proof. apply does_bind; [apply does_quiet |]. intros [code out | |]; [apply does_ret | apply does_ret | apply does_throw]. Qed.

Definition log_request (container : string) : spawn_request :=
  SpawnRequest "/usr/bin/env" ["env"; "docker"; "logs"; "-f"; container]%string (_child_environment environ).

Lemma docker_body_does (G : child -> spawn_request -> Prop) tool lp cs :
  (forall c, G CLog (log_request c)) -> sdoes (spawns G) (docker_body tool lp cs).
Proof.
  intros Hg. unfold docker_body. apply sdoes_bind.
  { apply sdoes_lift. unfold docker_image. destruct (truthy _); [apply text_does | apply does_ret]. }
  intros image. apply sdoes_bind; [destruct (_ && _); [apply sdoes_lift, docker_does | apply sdoes_ret] |]. intros _.
  apply sdoes_bind; [apply sdoes_set |]. intros _. apply sdoes_bind; [apply sdoes_lift, docker_does |]. intros _.
  apply sdoes_bind; [apply sdoes_lift, docker_does |]. intros _.
  apply sdoes_bind; [apply sdoes_lift, does_bind; [apply os_call_does | intros; apply posix_spawn_does, Hg] |]. intros pid.
  apply sdoes_bind; [apply sdoes_set |]. intros _.
  apply sdoes_bind; [apply sdoes_lift, does_process_identity, spawns_observes |]. intros i.
  apply sdoes_bind; [apply sdoes_set |]. intros _. apply sdoes_bind; [apply sdoes_lift, does_sleep |]. intros _.
  apply sdoes_bind; [intros s; apply reach_refl |]. intros r.
  apply sdoes_bind; [apply sdoes_lift, does_bind; [apply docker_run_does | intros; apply does_ret] |]. intros a.
  destruct a; [apply sdoes_ret | apply sdoes_throw].
Qed.

Lemma docker_failed_does G fuel lo cause : does (spawns G) (docker_failed fuel lo cause).
Proof.
  unfold docker_failed. apply does_bind.
  - destruct (PyStr.empty _); [apply does_ret |]. apply does_catch; [|intros; apply does_ret].
    apply does_bind; [apply docker_run_does | intros; apply does_ret].
  - intros removed. apply does_bind; [apply cleanup_spawns |]. intros r. destruct removed; apply does_throw.
Qed.

Lemma docker_start_does (G : child -> spawn_request -> Prop) fuel tool :
  (forall c, G CLog (log_request c)) -> does (spawns G) (docker_start fuel tool).
Proof.
  intros Hg. unfold docker_start. apply does_bind; [apply does_throw_if |]. intros _.
  apply does_bind; [apply sps_active_does |]. intros act. apply does_bind; [apply does_throw_if |]. intros _.
  apply does_bind; [apply does_quiet |]. intros cs. apply does_bind; [apply log_path_does |]. intros lp.
  apply does_bind; [apply does_boot |]. intros b k. unfold docker_guarded. cbv zeta.
  match goal with |- context [docker_body tool lp cs (?lo, k)] => pose proof (docker_body_does G tool lp cs Hg (lo, k)) as Hb end.
  destruct (docker_body _ _ _ _) as [[x | cause |] [lo' k']]; [done | | done]. eapply reach_trans; [exact Hb |].
  apply docker_failed_does.
Qed.

Lemma runner_start_does (G : child -> spawn_request -> Prop) fuel rn tool :
  (forall port, G CEgress (egress_request port (ep_allow (sp_egress (_policy rn tool))))) ->
  (forall c, G CLog (log_request c)) ->
  (forall exe argv cs es cfg port, G CProcess (SpawnRequest exe argv (tool_env tool cs es cfg port))) ->
  does (spawns G) (runner_start fuel rn tool).
Proof.
  intros He Hl Hm. destruct rn; cbn [runner_start]; [by apply process_start_does | by apply process_start_does | | apply does_throw].
  by apply docker_start_does.
Qed.

(** ** The environment of children *)

Lemma dget_filter_keys {A} (p : string -> bool) (d : dict A) key :
  dget (List.filter (fun kv => p kv.1) d) key = if p key then dget d key else None.
Proof.
  induction d as [|[k' v] d IH]; cbn; [by destruct (p key) |]. destruct (p k') eqn:Ep; cbn.
  - destruct (decide (k' = key)) as [->|]; [by rewrite Ep | done].
  - rewrite IH. destruct (decide (k' = key)) as [->|]; [by rewrite Ep | done].
Qed.

Lemma dget_update_some (l : dict string) : forall d key v, dget (update d l) key = Some v ->
  dget d key = Some v \/ In (key, v) l.
Proof.
  induction l as [|[k' v'] l IH]; intros d key v; [by left |]. unfold update. cbn [fold_left]. intros E.
  apply IH in E as [E|]; [|by right; right]. rewrite dget_dset in E. cbn in E.
  destruct (decide (k' = key)) as [->|]; [injection E as ->; right; by left | by left].
Qed.

(** The variables the runner itself sets for a tool. *)
Definition RUNNER_VARS : list string :=
  ["TOOLSTACK_PORT"; "TOOLSTACK_TOOL_CONFIG"; "TOOLSTACK_CHANNEL_SECRET"; "TOOLSTACK_E_SECRET"; "TOOLSTACK_SPS_HOST";
   "TOOLSTACK_SPS_PORT"; "TOOLSTACK_SPS_CA"; "TOOLSTACK_SPS_VERIFY"; "HTTP_PROXY"; "HTTPS_PROXY"; "http_proxy"; "https_proxy"]%string.

Definition env_confined (what : child) (req : spawn_request) : Prop :=
  forall key v, dget (sr_env req) key = Some v ->
    (inherited key = true /\ dget environ key = Some v) \/ (what = CProcess /\ In key RUNNER_VARS).

Lemma child_env_confined key v : dget (_child_environment environ) key = Some v -> inherited key = true /\ dget environ key = Some v.
Proof. unfold _child_environment. rewrite dget_filter_keys. by destruct (inherited key). Qed.

Lemma runner_vars_listed cs es cfg port key v :
  In (key, v) (("TOOLSTACK_CHANNEL_SECRET"%string, cs) :: sps_vars es cfg ++ proxy_vars port) -> In key RUNNER_VARS.
Proof.
  intros [[= <- _] | [Hin|Hin]%in_app_iff]; unfold RUNNER_VARS.
  - cbn. tauto.
  - destruct es, cfg; cbn in Hin; try done. cbn. intuition congruence.
  - destruct port as [p|]; cbn in Hin; [|done]. destruct (p =? 0); [done |]. cbn in Hin. cbn. intuition congruence.
Qed.

(** No credential of the toolyard crosses into what it starts: a variable
    of a child is one of the twelve plumbing variables or a locale variable, with the value the
    toolyard has, or, for the tool itself only, one of those the runner sets
    for it. *)
Theorem children_environment fuel rn tool k :
  exists l, k_log (runner_start fuel rn tool k).2 = k_log k ++ l /\ spawn_ok env_confined (k_boot (runner_start fuel rn tool k).2) l.
Proof.
  assert (does (spawns env_confined) (runner_start fuel rn tool)) as Hd.
  { apply runner_start_does.
    - intros port key v E. left. by apply child_env_confined.
    - intros c key v E. left. by apply child_env_confined.
    - intros exe argv cs es cfg port key v E. cbn [sr_env tool_env] in E. unfold tool_env in E. apply dget_update_some in E as [E | Hin].
      + rewrite dget_dpop in E. destruct (decide _); [done |]. apply dget_update_some in E as [E | Hin]; [left; by apply child_env_confined |].
        right. split; [done |]. unfold RUNNER_VARS. cbn in *. intuition congruence.
      + right. split; [done | by eapply runner_vars_listed]. }
  destruct (Hd k) as (l & ? & _ & ?). by exists l.
Qed.

(** ** A tool that declares secrets *)

Lemma register_ends id secrets e cfg :
  ends (_sps_register id secrets e cfg) (fun _ _ l => In (EvRegister id true) l).
Proof.
  assert (forall A, suffix_closed (fun (_ : A) (_ : option (option string)) l => In (EvRegister id true) l)) as Hs.
  { intros A a b l1 l2 Hin. apply in_app_iff. by right. }
  assert (forall A (m : PM A), does none_spawned m -> does any_fx m) as Hany.
  { intros A m Hm k. destruct (Hm k) as (l & ? & ? & _). by exists l. }
  unfold _sps_register. apply ends_bind; [apply Hs | apply Hany, client_does |]. intros c.
  apply ends_bind; [apply Hs | apply Hany, each_does, tuple_does |]. intros l.
  apply ends_bind; [apply Hs | apply Hany, sps_do_does |]. intros [|] k u k' E; [|done].
  injection E as _ <-. exists [EvRegister id true]. split; [done |]. split; [done |]. by left.
Qed.

Lemma start_register_ok tool e s reg s' : td_secrets tool <> [] -> start_register tool e s = (Done reg, s') ->
  (exists cfg, reg = (Some cfg, Some e)) /\ reach (fun _ l => In (EvRegister (td_id tool) true) l) s.2 s'.2.
Proof.
  intros Hs E. unfold start_register in E. unfold mbind at 1, M_bind, lift in E.
  pose proof (resolve_does (fun _ _ => False) sps_env_path s.2) as Hr.
  destruct (_resolve_sps sps_env_path s.2) as [[cfg | e1 |] k1]; [|done..]. cbn in Hr.
  unfold mbind, M_bind, catch, lift in E. cbn [fst snd] in E.
  destruct (_sps_register (td_id tool) (td_secrets tool) e cfg k1) as [[[]| e1 |] k2] eqn:Ereg; [| |done].
  - cbn in E. injection E as <- <-. split; [by exists cfg |]. cbn. apply register_ends in Ereg as (l2 & L2 & B2 & H2').
    destruct Hr as (l1 & L1 & B1 & _). exists (l1 ++ l2). rewrite L2, L1, <- (assoc_L (++)). split; [done |].
    split; [by eapply boot_le_trans |]. apply in_app_iff. by right.
  - rewrite bool_decide_false in E by done. by destruct e1; cbn in E.
Qed.

Lemma update_app d l1 l2 : update d (l1 ++ l2) = update (update d l1) l2.
Proof. apply fold_left_app. Qed.

Lemma dget_update_ne (l : dict string) : forall d key, ~ In key (map fst l) -> dget (update d l) key = dget d key.
Proof.
  induction l as [|[k' v'] l IH]; intros d key Hn; [done |]. change (dget (update (dset d k' v') l) key = dget d key).
  rewrite IH by (intros ?; apply Hn; by right). apply dget_dset_ne. intros ->. apply Hn. by left.
Qed.

Lemma tool_env_secret tool cs e cfg port : dget (tool_env tool cs (Some e) (Some cfg) port) "TOOLSTACK_E_SECRET" = Some e.
Proof.
  unfold tool_env. rewrite app_comm_cons, update_app, dget_update_ne.
  - unfold sps_vars. unfold update at 1. cbn [fold_left fst snd].
    rewrite !dget_dset_ne by done. apply dget_dset_eq.
  - intros Hin. destruct port as [p|]; cbn in Hin; [|done]. destruct (p =? 0); cbn in Hin; [done |]. intuition congruence.
Qed.

(** The claim about a stretch of the log: a tool process only after its
    registration, and with a credential. *)
Definition registered_first (tool_id : string) (_ : option (option string)) (l : list event) : Prop :=
  forall pre req pid post, l = pre ++ EvSpawn CProcess req pid :: post ->
    In (EvRegister tool_id true) pre /\ exists e, dget (sr_env req) "TOOLSTACK_E_SECRET" = Some e.

(** Where an element of two stretches lies. *)
Lemma split_at_app {A} (l1 l2 pre post : list A) x : l1 ++ l2 = pre ++ x :: post ->
  In x l1 \/ exists m, pre = l1 ++ m /\ l2 = m ++ x :: post.
Proof.
  revert pre. induction l1 as [|y l1 IH]; intros pre E; [right; by exists pre |]. destruct pre as [|z pre]; cbn in E.
  - injection E as -> _. left. by left.
  - injection E as -> E. destruct (IH _ E) as [Hin | (m & -> & ->)]; [left; by right | right; by exists m].
Qed.

Lemma registered_after_none id k1 k2 k3 :
  reach none_spawned k1 k2 -> reach (registered_first id) k2 k3 -> reach (registered_first id) k1 k3.
Proof.
  intros (l1 & L1 & B1 & S1) (l2 & L2 & B2 & S2). exists (l1 ++ l2). rewrite L2, L1, <- (assoc_L (++)). split; [done |].
  split; [by eapply boot_le_trans |]. intros pre req pid post [Hin | (m & -> & Hin)]%split_at_app; [by apply S1 in Hin |].
  destruct (S2 _ _ _ _ Hin) as [? ?]. split; [apply in_app_iff; by right | done].
Qed.

Lemma registered_none id k1 k2 : reach none_spawned k1 k2 -> reach (registered_first id) k1 k2.
Proof. intros (l1 & L1 & B1 & S1). exists l1. split; [done |]. split; [done |].
  intros pre req pid post ->. assert (In (EvSpawn CProcess req pid) (pre ++ EvSpawn CProcess req pid :: post)) as Hin by (apply in_app_iff; right; by left).
  by apply S1 in Hin.
Qed.

Lemma registered_bind id {A B} (m : PM A) (f : A -> PM B) k1 : does none_spawned m ->
  (forall a k2, m k1 = (Done a, k2) -> reach (registered_first id) k2 (f a k2).2) -> reach (registered_first id) k1 ((m ≫= f) k1).2.
Proof.
  intros Hm Hf. unfold mbind, M_bind. specialize (Hm k1). destruct (m k1) as [[a | e |] k2]; [|by apply registered_none..].
  eapply registered_after_none; [exact Hm | by apply Hf].
Qed.

(** Registration first, then the rest with the registered credential. *)
Lemma guarded_registered fuel rn tool lo lp cs e k1 : td_secrets tool <> [] ->
  reach (registered_first (td_id tool)) k1 (start_guarded fuel (td_id tool) lo (start_body rn tool lp cs (Some e)) k1).2.
Proof.
  intros Hs. unfold start_guarded. rewrite start_body_eq. unfold mbind, M_bind.
  pose proof (start_register_does (fun _ _ => False) tool e (lo, k1)) as Hr.
  destruct (start_register tool e (lo, k1)) as [[reg | cause |] [lo1 k2]] eqn:Er; cbn [snd] in *.
  2: { apply registered_none. eapply reach_trans; [exact Hr | apply start_failed_does]. }
  2: { by apply registered_none. }
  apply start_register_ok in Er as [[cfg ->] (l1 & L1 & B1 & Hin1)]; [|done]. cbn [fst snd] in *.
  set (G := fun (what : child) req => what = CProcess -> exists e, dget (sr_env req) "TOOLSTACK_E_SECRET" = Some e).
  assert (sdoes (spawns G) (start_rest rn tool lp cs (Some cfg) (Some e))) as Hrest.
  { apply start_rest_does; [done |]. intros exe argv port _. exists e. apply tool_env_secret. }
  specialize (Hrest (lo1, k2)).
  assert (forall k3, reach (spawns G) k2 k3 -> reach (registered_first (td_id tool)) k1 k3) as Hfin.
  { intros k3 (l2 & L2 & B2 & S2). exists (l1 ++ l2). rewrite L2, L1, <- (assoc_L (++)). split; [done |].
    split; [by eapply boot_le_trans |]. intros pre req pid post E.
    destruct Hr as (l1' & L1' & _ & S1). rewrite L1 in L1'. apply app_inv_head in L1' as <-.
    apply split_at_app in E as [Hin | (m & -> & ->)]; [by apply S1 in Hin |]. split; [apply in_app_iff; by left |].
    apply (S2 CProcess req pid); [apply in_app_iff; right; by left | done]. }
  destruct (start_rest _ _ _ _ _ _ (lo1, k2)) as [[x | cause |] [lo2 k3]]; cbn [snd] in *; [by apply Hfin | | by apply Hfin].
  apply Hfin. eapply reach_trans; [exact Hrest |]. apply start_failed_does.
Qed.

(** C30. Unless the development switch TOOLSTACK_SPS_SKIP is set, a tool that
    declares secrets is launched only after the secret service accepted its
    registration: in the log of a start, by any runner, each launch of a process
    of the tool comes after an accepted registration made in the same start, and
    the process has a credential in its environment. When the registration
    fails no process of the tool is started. *)
Theorem secrets_fail_closed fuel rn tool k : td_secrets tool <> [] -> sps_skipped = false ->
  exists l, k_log (runner_start fuel rn tool k).2 = k_log k ++ l
    /\ forall pre req pid post, l = pre ++ EvSpawn CProcess req pid :: post ->
         In (EvRegister (td_id tool) true) pre /\ exists e, dget (sr_env req) "TOOLSTACK_E_SECRET" = Some e.
Proof.
  intros Hs Hskip.
  enough (reach (registered_first (td_id tool)) k (runner_start fuel rn tool k).2) as (l & ? & _ & ?) by by exists l.
  assert (forall rn0, reach (registered_first (td_id tool)) k (process_start fuel rn0 tool k).2) as Hp.
  { intros rn0. unfold process_start. apply registered_bind; [apply does_throw_if |]. intros _ k1 _.
    apply registered_bind; [apply does_bind; [apply does_quiet |]; intros []; [apply does_ret | apply does_throw] |]. intros _ k2 _.
    apply registered_bind; [apply sps_active_does |]. intros act k3 _. apply registered_bind; [apply does_throw_if |]. intros _ k4 _.
    apply registered_bind; [apply does_throw_if |]. intros [] k5 Ethrow.
    assert (act = true) as Eact.
    { unfold throw_if in Ethrow. rewrite bool_decide_false, Hskip in Ethrow by done. by destruct act. }
    clear Ethrow. subst act.
    apply registered_bind; [apply does_quiet |]. intros cs k6 _.
    apply registered_bind; [apply does_bind; [apply does_quiet |]; intros; apply does_ret |]. intros es k7 Ees.
    unfold mbind, M_bind, quiet in Ees. destruct (os_token (k_os k6)) as [e ?]. injection Ees as <- _.
    apply registered_bind; [apply log_path_does |]. intros lp k8 _. apply registered_bind; [apply does_boot |]. intros b k9 _.
    by apply guarded_registered. }
  destruct rn; cbn [runner_start]; [apply Hp | apply Hp | |by apply registered_none, reach_refl].
  unfold docker_start. rewrite bool_decide_false by done. by apply registered_none, reach_refl.
Qed.
End Facts.

(** ** Shell quoting *)

(** Quote removal of the POSIX shell on one word: [None] when a character
    would end the word or be expanded. *)
Inductive quoting := Plain | Single | Double.

Definition meta_char (c : ascii) : bool :=
  (code c <=? 32) || (code c =? 127)
  || existsb (Ascii.eqb c) ["|"; "&"; ";"; "<"; ">"; "("; ")"; "$"; "`"; "*"; "?"; "["; "]"; "#"; "~"; "!"; "{"; "}"; "^"]%char
  || Ascii.eqb c bslash.

Fixpoint sh_word (q : quoting) (l : list ascii) : option (list ascii) :=
  match l with
  | [] => match q with Plain => Some [] | _ => None end
  | c :: l' =>
      match q with
      | Plain =>
          if Ascii.eqb c sq then sh_word Single l'
          else if Ascii.eqb c dquote then sh_word Double l'
          else if meta_char c then None
          else cons c <$> sh_word Plain l'
      | Single => if Ascii.eqb c sq then sh_word Plain l' else cons c <$> sh_word Single l'
      | Double =>
          if Ascii.eqb c dquote then sh_word Plain l'
          else if existsb (Ascii.eqb c) ["$"; "`"]%char || Ascii.eqb c bslash then None
          else cons c <$> sh_word Double l'
      end
  end.

Lemma safe_plain c : shell_safe c = true -> Ascii.eqb c sq = false /\ Ascii.eqb c dquote = false /\ meta_char c = false.
Proof. destruct c as [[] [] [] [] [] [] [] []]; vm_compute; intuition congruence. Qed.

Lemma sh_safe l : forallb shell_safe l = true -> sh_word Plain l = Some l.
Proof.
  induction l as [|c l IH]; [done |]. cbn [forallb]. intros [Hc Hl]%andb_true_iff.
  destruct (safe_plain c Hc) as (E1 & E2 & E3). cbn [sh_word]. rewrite E1, E2, E3. by rewrite IH.
Qed.

Lemma sh_quoted l : sh_word Single (quote_body l ++ [sq]) = Some l.
Proof.
  induction l as [|c l IH]; [reflexivity |]. cbn [quote_body]. destruct (Ascii.eqb_spec c sq) as [->|Hne].
  - cbn [app]. change (cons sq <$> sh_word Single (quote_body l ++ [sq]) = Some (sq :: l)). by rewrite IH.
  - cbn [app sh_word]. destruct (Ascii.eqb_spec c sq); [done |]. by rewrite IH.
Qed.

(** Whatever a path, a host or the interpreter is called, quoted it is one
    word of the shell, and that word is the text itself: nothing in it ends
    the word, is expanded or runs. *)
Theorem quoted_is_one_word s : sh_word Plain (chars (shlex_quote s)) = Some (chars s).
Proof.
  unfold shlex_quote. destruct s as [|c s]; [reflexivity |]. cbn [PyStr.empty].
  destruct (all_chars shell_safe (String c s)) eqn:Es; [by apply sh_safe |].
  rewrite chars_of_chars. change (sh_word Single (quote_body (chars (String c s)) ++ [sq]) = Some (chars (String c s))). apply sh_quoted.
Qed.

(** ** Witnesses *)

#[local] Existing Instance ProcessFacts.sim_os.
#[local] Existing Instance ProcessFacts.sim_clock_laws.

(** The service of the witnesses accepts everything; the machine has one
    process to start. *)
#[local] Instance sim_channel : Channel sim :=
  {| exchange := fun n _ => (Some (write_one_json (JObj [("status"%string, JStr "ok")])), n) |}.
#[local] Instance sim_utf8 : Utf8 := {| utf8_decode := Some |}.

#[local] Instance sim_launcher : Launcher sim := {|
  environ := [("PATH"%string, "/bin"%string); ("SP_MASTER"%string, "x"%string); ("LC_ALL"%string, "C"%string)];
  executable := "/opt/venv/bin/python";
  repo_root := "/opt/toolstack";
  loads_toml := w_line;
  os_exists := fun n _ => (true, n);
  os_bind := fun n _ => (true, n);
  os_free_port := fun n => (Some 5000, n);
  os_log_dir := fun n _ => (true, n);
  os_open_log := fun n _ => (true, n);
  os_token := fun n => ("ab"%string, n);
  os_spawn := fun n _ => (Some 42%N, Sim (sim_clock n) true false);
  os_sps_file := fun n _ => (Some (RegularFile, 384, ("SP_HOST='h'" +:+ w_nl +:+ "SP_PORT='1'" +:+ w_nl +:+ "SP_SECRET='k'" +:+ w_nl)%string), n);
  os_tls := fun n _ _ => (true, n);
  os_docker := fun n _ => (DockerMissing, n);
  os_readable := fun n _ => (None, n) |}.

Definition w_tool : ToolDef_ :=
  ToolDef "crm" "api" 9001 (JStr "python3 -m crm") JNull [SecretSpec (JStr "KEY") (JStr "key") (JBool true) JNull] "/t/crm" (JStr EmptyString) [] (Some "0"%string).

Definition w_idle : kernel sim := Kernel (Sim 0 false true) None [].

(** The tool is spawned by the toolyard's own interpreter, with its credential
    and without the master secret of the environment. *)
Example w_started :
  (process_start 41 ProcessRunner w_tool w_idle).1
  = Done (RunningTool "crm" 9001 "process" "42" None (Some "/t/crm/logs/tool.log"%string) None None (Some "ab"%string) "h" 1 (Some EmptyString) (Some "b1"%string)
            (Some "ab"%string) (Some "777"%string) None None false false false (Some (td_secrets w_tool)) (Some "0"%string))
  /\ exists env, nth_error (k_log (process_start 41 ProcessRunner w_tool w_idle).2) 1
       = Some (EvSpawn CProcess (SpawnRequest "/bin/sh" ["/bin/sh"; "-c"; "cd /t/crm && exec /opt/venv/bin/python -m crm"]%string env) 42)
     /\ dget env "TOOLSTACK_E_SECRET" = Some "ab"%string /\ dget env "SP_MASTER" = None.
Proof. split; [vm_compute; reflexivity |]. eexists. split; [vm_compute; reflexivity | by split; vm_compute]. Qed.

Lemma secrets_fail_closed_witness : td_secrets w_tool <> [] /\ exists l pre req pid post,
  k_log (runner_start 41 ProcessRunner w_tool w_idle).2 = k_log w_idle ++ l
  /\ l = pre ++ EvSpawn CProcess req pid :: post /\ In (EvRegister (td_id w_tool) true) pre.
Proof.
  split; [done |]. destruct (secrets_fail_closed 41 ProcessRunner w_tool w_idle ltac:(done) eq_refl) as (l & E & Hl).
  assert (l = k_log (runner_start 41 ProcessRunner w_tool w_idle).2) as -> by exact (eq_sym E).
  eassert (k_log (runner_start 41 ProcessRunner w_tool w_idle).2 = [_] ++ EvSpawn CProcess _ _ :: _) as Es by (vm_compute; reflexivity).
  do 5 eexists. split; [exact E |]. split; [exact Es |]. exact (proj1 (Hl _ _ _ _ Es)).
Defined.
