(* ===== verification/StartFacts.v ===== *)
(** Starting a tool forgets no process, and ends. *)

From stdpp Require Import base tactics list strings.
From Stdlib Require Import ZArith Lia Ascii.
From S2P Require Import Prelude PyStr Json Sps SpsWire SpsClient SpsConfig FwdConfig ToolyardConfig Process ProcessFacts Runner RunnerFacts.

(** ** Events after a spawn *)

(** [post] is what follows a spawn of [pid] as [what] in [l]. *)
Definition after (what : child) (pid : Z) (l post : list event) : Prop := exists pre req, l = pre ++ EvSpawn what req pid :: post.

Definition nospawn (l : list event) : Prop := forall what req pid, ~ In (EvSpawn what req pid) l.

Lemma after_app l1 l2 what pid post : after what pid (l1 ++ l2) post ->
  (exists p1, after what pid l1 p1 /\ post = p1 ++ l2) \/ after what pid l2 post.
Proof.
  intros (pre & req & E). apply app_eq_app in E as (l & [[-> E2] | [-> E2]]).
  - destruct l as [|e l]; [right; exists [], req; by rewrite E2 |]. injection E2 as <- ->. left. exists l. split; [by exists pre, req | done].
  - right. by exists l, req.
Qed.

Lemma after_nospawn what pid l post : nospawn l -> ~ after what pid l post.
Proof. intros Hn (pre & req & ->). apply (Hn what req pid), in_app_iff. right. by left. Qed.

Lemma after_quiet l1 l2 what pid post : nospawn l2 -> after what pid (l1 ++ l2) post -> exists p1, after what pid l1 p1 /\ post = p1 ++ l2.
Proof. intros Hn [?|Ha]%after_app; [done | by apply after_nospawn in Ha]. Qed.

Lemma after_snoc l c req q what pid post : after what pid (l ++ [EvSpawn c req q]) post ->
  (exists p1, after what pid l p1 /\ post = p1 ++ [EvSpawn c req q]) \/ (what = c /\ pid = q /\ post = []).
Proof.
  intros [?|(pre & req' & E)]%after_app; [by left | right]. destruct pre as [|e pre]; [by injection E as <- <- <- <- | by destruct pre].
Qed.

(** The evidence that a process of this boot is gone. *)
Definition vanished (pid : Z) (l : list event) : Prop :=
  (exists p, p <> 0 /\ In (EvWait pid (Waited p)) l) \/ In (EvProbe pid NoProcess) l.

Lemma vanished_app pid l1 l2 : vanished pid l1 \/ vanished pid l2 -> vanished pid (l1 ++ l2).
Proof. unfold vanished. setoid_rewrite in_app_iff. naive_solver. Qed.

Lemma nospawn_app l1 l2 : nospawn l1 -> nospawn l2 -> nospawn (l1 ++ l2).
Proof. intros H1 H2 what req pid [?|?]%in_app_iff; [by eapply H1 | by eapply H2]. Qed.

Lemma nospawn_ok b l : none_spawned b l -> nospawn l.
Proof. intros Hs what req pid Hin. by apply Hs in Hin. Qed.

(** ** What a record names *)

Definition names r (what : child) (pid : Z) : Prop := In (what, Some (str_of_Z pid)) (children r).

Definition pid_field (c : child) (r : running_tool) : option string :=
  match c with CProcess => opt_handle (rn_handle r) | CLog => rn_log_pid r | CEgress => rn_egress_pid r end.

Lemma children_field c r p : In (c, Some p) (children r) <-> pid_field c r = Some p /\ (c = CProcess -> process_backend (rn_backend r) = true).
Proof.
  unfold children. destruct (process_backend (rn_backend r)); cbn; split.
  - intros [E|[E|[E|[]]]]; injection E as <- E; done.
  - intros [E _]. destruct c; cbn in E; rewrite E; tauto.
  - intros [E|[E|[]]]; injection E as <- E; done.
  - intros [E Hb]. destruct c; cbn in E; [by discriminate Hb | rewrite E; tauto..].
Qed.

Section Facts.
Context {N : Type} `{Launcher N} `{Channel N} `{Utf8}.
Implicit Types (k : kernel N) (r : running_tool) (tool : ToolDef_).

#[local] Notation PM := (@Process.PM N).
#[local] Notation SM := (@Runner.SM N).
#[local] Notation does := (@ProcessFacts.does N _).
#[local] Notation st := (locals * kernel N)%type.

(** What the record knows after the events [l]. *)
Record tracked (b0 : option string) r (b : option (option string)) (l : list event) : Prop := {
  tr_boot : rn_boot_id r = b0;
  tr_known : b = Some b0;
  tr_spawned : forall what pid post, after what pid l post -> 0 <= pid /\ names r what pid;
  tr_gone : forall what pid post, after what pid l post -> exited_field what r = true -> vanished pid post }.

Definition inv (b0 : option string) (base : list event) (s : st) : Prop :=
  exists l, k_log s.2 = base ++ l /\ tracked b0 (lo_running s.1) (k_boot s.2) l.

(** From [P], [m] returns in [Q] and raises in [inv]. *)
Definition triple {A} b0 base (P : st -> Prop) (m : SM A) (Q : A -> st -> Prop) : Prop :=
  forall s, P s -> match m s with (Done a, s') => Q a s' | (Throw _, s') => inv b0 base s' | (Diverge, _) => True end.

Lemma triple_bind {A B} b0 base P (m : SM A) (f : A -> SM B) Q R :
  triple b0 base P m Q -> (forall a, triple b0 base (Q a) (f a) R) -> triple b0 base P (m ≫= f) R.
Proof.
  intros Hm Hf s Hs. unfold mbind, M_bind. specialize (Hm s Hs). destruct (m s) as [[a | e |] s1]; [by apply Hf | done..].
Qed.

Lemma triple_throw {A} b0 base (P : st -> Prop) e (Q : A -> st -> Prop) : (forall s, P s -> inv b0 base s) -> triple b0 base P (throw e) Q.
Proof. intros Hp s Hs. by apply Hp. Qed.
Lemma triple_ret {A} b0 base (P : st -> Prop) (a : A) (Q : A -> st -> Prop) : (forall s, P s -> Q a s) -> triple b0 base P (mret a) Q.
Proof. intros Hp s Hs. by apply Hp. Qed.
Lemma triple_weaken {A} b0 base (P P' : st -> Prop) (m : SM A) (Q Q' : A -> st -> Prop) :
  (forall s, P' s -> P s) -> (forall a s, Q a s -> Q' a s) -> triple b0 base P m Q -> triple b0 base P' m Q'.
Proof. intros Hp Hq Hm s Hs. specialize (Hm s (Hp s Hs)). destruct (m s) as [[a | e |] s']; auto. Qed.

(** Events other than spawns keep a record true. *)
Lemma tracked_more b0 r b b' l1 l2 : tracked b0 r b l1 -> boot_le b b' -> nospawn l2 -> tracked b0 r b' (l1 ++ l2).
Proof.
  intros [H1' H2' H3' H4'] Hb Hs. rewrite H2' in Hb. constructor; [done | by apply boot_le_some | |].
  - intros what pid post (p1 & Ha & _)%after_quiet; [by eapply H3' | done].
  - intros what pid post (p1 & Ha & ->)%after_quiet Hx; [|done]. apply vanished_app. left. by eapply H4'.
Qed.

(** The invariant and what is known of the record so far. *)
Definition knows (F : running_tool -> Prop) b0 base : st -> Prop := fun s => inv b0 base s /\ F (lo_running s.1).

Lemma inv_lift b0 base lo k k' : inv b0 base (lo, k) -> reach none_spawned k k' -> inv b0 base (lo, k').
Proof.
  intros (l & L & T) (l2 & L2 & B2 & S2). cbn [fst snd] in *. exists (l ++ l2). cbn. rewrite L2, L, <- (assoc_L (++)). split; [done |].
  eapply tracked_more; [exact T | exact B2 | exact (nospawn_ok _ _ S2)].
Qed.

Lemma triple_lift {A} b0 base F (m : PM A) : does none_spawned m -> triple b0 base (knows F b0 base) (lift m) (fun _ => knows F b0 base).
Proof.
  intros Hm [lo k] [Hi HF]. unfold lift. specialize (Hm k). cbn [fst snd] in *.
  destruct (m k) as [[a | e |] k']; cbn [fst snd] in *; [| |done]; [split; [|done]|]; by eapply inv_lift.
Qed.

Lemma triple_res {A} b0 base F (x : res A) : triple b0 base (knows F b0 base) (lift_res x) (fun _ => knows F b0 base).
Proof. destruct x; [by apply triple_ret | apply triple_throw; by intros s [? _]]. Qed.

(** Changing fields that name no child. *)
Definition same_children r r' : Prop :=
  rn_boot_id r' = rn_boot_id r /\ children r' = children r /\ forall c, exited_field c r' = exited_field c r.

Lemma triple_set b0 base (F F' : running_tool -> Prop) f : (forall r, F r -> same_children r (f r)) -> (forall r, F r -> F' (f r)) ->
  triple b0 base (knows F b0 base) (set_running f) (fun _ => knows F' b0 base).
Proof.
  intros Hf HF [lo k] [(l & L & [H1' H2' H3' H4']) HP]. cbn in *. destruct (Hf _ HP) as (E1 & E2 & E3).
  split; [|by apply HF]. exists l. split; [done |]. constructor; cbn; [congruence | done | |].
  - intros what pid post Ha. unfold names. rewrite E2. by eapply H3'.
  - intros what pid post Ha. rewrite E3. by eapply H4'.
Qed.

(** A spawn, and the record of its pid. *)
Definition unset (c : child) r : Prop := pid_field c r = None /\ exited_field c r = false.

Definition spawns_one {X} (c : child) (m : PM X) (pid_of : X -> BinNums.N) : Prop :=
  forall k, match m k with
  | (Done x, k') => exists l req, k_log k' = k_log k ++ l ++ [EvSpawn c req (Z.of_N (pid_of x))] /\ boot_le (k_boot k) (k_boot k') /\ nospawn l
  | (Throw _, k') => reach none_spawned k k'
  | (Diverge, _) => True
  end.

Lemma spawn_one c req : spawns_one c (posix_spawn c req) (fun pid => pid).
Proof.
  intros k. unfold posix_spawn. destruct (os_spawn (k_os k) req) as [[pid|] n].
  - exists [], req. split; [done |]. split; [apply boot_le_refl | by intros w q p []].
  - apply (reach_trans _ _ k); [apply reach_refl |]. exists []. cbn. rewrite app_nil_r. split; [done |].
    split; [apply boot_le_refl | by intros w q p []].
Qed.

Lemma one_bind {A X} c (m : PM A) (f : A -> PM X) pid_of : does none_spawned m -> (forall a, spawns_one c (f a) pid_of) ->
  spawns_one c (m ≫= f) pid_of.
Proof.
  intros Hm Hf k. unfold mbind, M_bind. specialize (Hm k). destruct (m k) as [[a | e |] k1]; cbn [snd] in Hm; [|done..].
  specialize (Hf a k1). destruct (f a k1) as [[x | e |] k2]; [| |done].
  - destruct Hm as (l1 & L1 & B1 & S1), Hf as (l2 & req & L2 & B2 & S2). exists (l1 ++ l2), req.
    rewrite L2, L1, <- !(assoc_L (++)). split; [done |]. split; [by eapply boot_le_trans |].
    apply nospawn_app; [exact (nospawn_ok _ _ S1) | done].
  - by eapply reach_trans.
Qed.

Lemma one_map {X Y} c (m : PM X) (g : X -> Y) pid_of pid_of' : spawns_one c m pid_of -> (forall x, pid_of' (g x) = pid_of x) ->
  spawns_one c (x ← m; mret (g x)) pid_of'.
Proof.
  intros Hm Hg k. unfold mbind, M_bind. specialize (Hm k). destruct (m k) as [[x | e |] k1]; cbn [mret M_ret]; [|done..]. by rewrite Hg.
Qed.

(** [g] records a pid as the handle of [c] and changes nothing else. *)
Record records (c : child) (g : string -> running_tool -> running_tool) : Prop := {
  rec_field : forall p r, p <> EmptyString -> pid_field c (g p r) = Some p;
  rec_others : forall p r d, d <> c -> pid_field d (g p r) = pid_field d r;
  rec_exited : forall p r d, exited_field d (g p r) = exited_field d r;
  rec_boot : forall p r, rn_boot_id (g p r) = rn_boot_id r /\ rn_backend (g p r) = rn_backend r }.

Lemma triple_spawn {X A} b0 base (F F' : running_tool -> Prop) c (m : PM X) pid_of g (f : X -> SM A) R :
  spawns_one c m pid_of -> records c g -> (forall p r, F r -> F' (g p r)) -> (forall r, F r -> unset c r) ->
  (forall r, F r -> c = CProcess -> process_backend (rn_backend r) = true) ->
  (forall x, triple b0 base (knows F' b0 base) (f x) R) ->
  triple b0 base (knows F b0 base) (x ← lift m; _ ← set_running (g (pid_str (pid_of x))); f x) R.
Proof.
  intros Hm [G1 G2 G3 G4] HF Hu Hb Hf [lo k] [(l & L & T) HP]. cbn [fst snd] in *.
  unfold mbind, M_bind, lift. cbn [fst snd]. specialize (Hm k). destruct (m k) as [[x | e |] k1]; [| |done]; cbn [fst snd].
  2: { apply (inv_lift _ _ _ k); [by exists l | done]. }
  destruct Hm as (l2 & req & L2 & B2 & S2). cbn [set_running fst snd].
  specialize (Hf x (Locals (g (pid_str (pid_of x)) (lo_running lo)) (lo_registered lo), k1)). apply Hf. clear Hf.
  pose proof (tracked_more _ _ _ _ _ l2 T B2 S2) as [H1' H2' H3' H4']. cbn in B2.
  destruct (Hu _ HP) as [Hp0 Hx0]. split; [|by apply HF]. exists ((l ++ l2) ++ [EvSpawn c req (Z.of_N (pid_of x))]). cbn.
  split; [by rewrite L2, L, <- !(assoc_L (++)) |]. destruct (G4 (pid_str (pid_of x)) (lo_running lo)) as [G5 G6].
  constructor; [congruence | done | |].
  - intros what q post [(p1 & Ha & _) | (-> & -> & _)]%after_snoc.
    + destruct (H3' _ _ _ Ha) as [? [Hq Hbk]%children_field]. split; [done |]. apply children_field. rewrite G6. split; [|done].
      destruct (decide (what = c)) as [->|Hne]; [congruence |]. by rewrite G2.
    + split; [lia |]. apply children_field. rewrite G6. split; [|by apply Hb]. apply G1. by destruct (str_of_Z_digits (Z.of_N (pid_of x)) ltac:(lia)).
  - intros what q post [(p1 & Ha & ->) | (-> & -> & _)]%after_snoc; rewrite G3; intros Hx; [|congruence].
    apply vanished_app. left. by eapply H4'.
Qed.

Lemma records_egress : records CEgress (fun p => set_egress_pid (Some p)).
Proof. constructor; intros p []; try done; by intros []. Qed.
Lemma records_log : records CLog (fun p => set_log_pid (Some p)).
Proof. constructor; intros p []; try done; by intros []. Qed.
Lemma records_handle : records CProcess set_handle.
Proof. constructor; intros p []; try done; try (by intros []). intros Hp. cbn. unfold opt_handle. by destruct p. Qed.

Lemma unset_records c g d p r : records c g -> d <> c -> unset d r -> unset d (g p r).
Proof. intros [_ G2 G3 _] Hne [? ?]. split; [by rewrite G2 | by rewrite G3]. Qed.

Lemma same_set_sps e h p c r : same_children r (set_sps e h p c r).
Proof. destruct r. by repeat split; intros []. Qed.
Lemma same_egress_identity i r : same_children r (set_egress_identity i r).
Proof. destruct r. by repeat split; intros []. Qed.
Lemma same_process_identity i r : same_children r (set_process_identity i r).
Proof. destruct r. by repeat split; intros []. Qed.
Lemma same_log_identity i r : same_children r (set_log_identity i r).
Proof. destruct r. by repeat split; intros []. Qed.

(** ** ProcessRunner.start *)

(** What the body needs to know: which children there are none of yet. *)
Definition main_ready r : Prop := unset CProcess r /\ process_backend (rn_backend r) = true.
Definition fresh r : Prop := unset CEgress r /\ main_ready r.

Lemma fresh_set_sps e h p c r : fresh r -> fresh (set_sps e h p c r).
Proof. by destruct r. Qed.
Lemma ready_egress_pid p r : main_ready r -> main_ready (set_egress_pid p r).
Proof. by destruct r. Qed.
Lemma ready_egress_identity i r : main_ready r -> main_ready (set_egress_identity i r).
Proof. by destruct r. Qed.

Lemma egress_one allow : spawns_one CEgress (_start_egress_proxy allow) fst.
Proof.
  unfold _start_egress_proxy. apply one_bind; [apply os_get_does |]. intros port.
  apply (one_map _ _ (fun pid => (pid, port)) (fun pid => pid)); [apply spawn_one | done].
Qed.

Lemma start_egress_triple b0 base rn tool :
  triple b0 base (knows fresh b0 base) (start_egress rn tool) (fun _ => knows main_ready b0 base).
Proof.
  unfold start_egress. destruct (denies_all _); [apply triple_ret; intros s [? [_ ?]]; by split |].
  apply (triple_spawn b0 base fresh main_ready CEgress _ fst (fun p => set_egress_pid (Some p))).
  - apply egress_one.
  - apply records_egress.
  - intros p r [_ ?]. by apply ready_egress_pid.
  - by intros r [? _].
  - done.
  - intros x. eapply triple_bind; [apply triple_lift, does_process_identity, spawns_observes |]. intros i.
    eapply triple_bind; [apply (triple_set _ _ _ main_ready); [intros; apply same_egress_identity | intros; by apply ready_egress_identity] |].
    intros u. by apply triple_ret.
Qed.

Lemma start_main_triple b0 base rn tool lp cs es cfg port :
  triple b0 base (knows main_ready b0 base) (start_main rn tool lp cs es cfg port) (fun _ => inv b0 base).
Proof.
  unfold start_main. eapply triple_bind; [apply triple_lift, text_does |]. intros command.
  eapply triple_bind; [apply triple_res |]. intros exe. eapply triple_bind; [apply triple_lift, os_call_does |]. intros u.
  apply (triple_spawn b0 base main_ready (fun _ => True) CProcess _ (fun pid => pid) set_handle);
    [apply spawn_one | apply records_handle | done | by intros r [? _] | by intros r [_ ?] |].
  intros pid. eapply triple_bind; [apply triple_lift, does_identity, spawns_observes |]. intros i.
  eapply triple_weaken; [done | |apply (triple_set b0 base (fun _ => True) (fun _ => True)); [intros; apply same_process_identity | done]].
  by intros x s [? _].
Qed.

(** A process that [is_alive] reaped was reported by waitpid. *)
Definition if_reaped r : bool * bool -> option (option string) -> list event -> Prop :=
  fun x _ l => x.2 = true -> exists pid p, py_int (rn_handle r) = Ok pid /\ p <> 0 /\ In (EvWait pid (Waited p)) l.

Lemma if_reaped_suffix r : suffix_closed (if_reaped r).
Proof. intros x b l1 l2 Hx E. destruct (Hx E) as (pid & p & ? & ? & ?). exists pid, p. rewrite in_app_iff. auto. Qed.

Lemma probe_reaped pid r : py_int (rn_handle r) = Ok pid -> ends (N:=N) (probe_alive pid r) (if_reaped r).
Proof.
  intros Ep. pose proof (if_reaped_suffix r) as Hs. unfold probe_alive, waitpid. intros k x k' E. unfold mbind at 1, M_bind, noted in E.
  destruct (os_waitpid (k_os k) pid) as [a n] eqn:Ew. set (k1 := Kernel n _ _) in *. destruct a as [p| |]; [| |done].
  - destruct (Z.eqb_spec p 0); injection E as <- <-; exists [EvWait pid (Waited p)]; (split; [done |]; split; [apply boot_le_refl |]); [done |].
    intros _. exists pid, p. split; [done |]. split; [done |]. by left.
  - assert (ends (absent ← _pid_absent pid;
      if (absent : bool) then mret (false, false) else current ← _pids_are_current r;
        if (current : bool) then mret (true, false) else throw RRuntimeError) (if_reaped r)) as Hrest.
    { apply ends_bind; [done | apply does_absent, any_observes |]. intros []; [by apply ends_ret |].
      apply ends_first with (Q1 := fun _ _ _ => True).
      - intros k2 c k3 E3. apply current_ends in E3 as (l & ? & ? & _). by exists l.
      - intros [] k2 k3 _ (l & L & B & _) y k4 E4; [|done]. injection E4 as <- <-. by exists l. }
    apply Hrest in E as (l & L & B & S). exists (EvWait pid NoChild :: l). rewrite L. cbn. rewrite <- (assoc_L (++)).
    split; [done |]. split; [done |]. by apply (Hs x _ [_]).
Qed.

Lemma is_alive_reaped r : ends (N:=N) (is_alive r) (if_reaped r).
Proof.
  pose proof (if_reaped_suffix r) as Hs. assert (forall b, ends (mret (b, false) : PM (bool * bool)) (if_reaped r)) as Hret by (intros; by apply ends_ret).
  unfold is_alive. destruct (rn_process_exited r); [apply Hret |]. destruct (PyStr.empty _); [apply Hret |].
  destruct (py_int (rn_handle r)) as [pid|] eqn:Ep; [|apply ends_throw].
  apply ends_bind; [done | apply does_boot |]. intros cb. destruct (_ && _ && _); [apply Hret |].
  apply ends_bind; [done | apply does_identity, any_observes |]. intros cur. destruct (_ || _); [apply ends_throw |].
  destruct (changed _ _); [apply Hret |]. destruct (negb _); [|by apply probe_reaped].
  apply ends_bind; [done | apply does_absent, any_observes |]. intros []; [apply Hret | apply ends_throw].
Qed.

Lemma start_register_triple b0 base tool e F :
  triple b0 base (knows F b0 base) (start_register tool e) (fun _ => knows F b0 base).
Proof.
  unfold start_register. eapply triple_bind; [apply triple_lift, resolve_does |]. intros cfg.
  apply triple_bind with (Q := fun _ => knows F b0 base); [|intros; by apply triple_ret].
  intros [lo k] Hs. unfold catch.
  pose proof (triple_lift b0 base F _ (register_does (fun _ _ => False) (td_id tool) (td_secrets tool) e cfg) (lo, k) Hs) as Hr.
  unfold mbind, M_bind. destruct (lift _ (lo, k)) as [[u | e1 |] [lo1 k1]] eqn:El; [| |done].
  - destruct Hr as [(l & ? & T) HF]. cbn. split; [|done]. by exists l.
  - assert (lo1 = lo) as -> by (unfold lift in El; destruct (_sps_register _ _ _ _ _); by injection El).
    destruct Hs as [_ HF]. assert (knows F b0 base (lo, k1)) as Hk by done.
    destruct e1; cbn [is_exception negb]; try done; destruct (bool_decide (td_secrets tool = [])); done.
Qed.

(** Marking a main process that was reaped. *)
Lemma inv_reaped b0 base lo k a k1 : inv b0 base (lo, k) -> is_alive (lo_running lo) k = (Done (a, true), k1) ->
  inv b0 base (Locals (mark_exited CProcess (lo_running lo)) (lo_registered lo), k1).
Proof.
  intros (l & L & T) Ea. pose proof (does_is_alive none_spawned (spawns_observes _) (lo_running lo) k) as Hd. rewrite Ea in Hd.
  apply is_alive_reaped in Ea as (l2' & L2' & _ & Hr). destruct (Hr eq_refl) as (pid & p & Hpid & Hp & Hin).
  destruct Hd as (l2 & L2 & B2 & S2). cbn [fst snd] in *. rewrite L2' in L2. apply app_inv_head in L2 as ->. exists (l ++ l2). cbn in *.
  rewrite L2', L, <- (assoc_L (++)). split; [done |]. apply nospawn_ok in S2. destruct T as [H1' H2' H3' H4'].
  constructor; [by destruct (lo_running lo) | rewrite H2' in B2; by apply boot_le_some | |].
  - intros what q post (p1 & Ha & _)%after_quiet; [|done]. destruct (H3' _ _ _ Ha) as [? Hf]. split; [done |].
    unfold names. by rewrite children_mark.
  - intros what q post (p1 & Ha & ->)%after_quiet; [|done]. rewrite exited_mark.
    destruct (bool_decide_reflect (what = CProcess)) as [->|]; [intros _ | intros Hx; apply vanished_app; left; by eapply H4'].
    destruct (H3' _ _ _ Ha) as [Hq0 [Hf _]%children_field]. cbn in Hf. unfold opt_handle in Hf. destruct (PyStr.empty _); [done |]. injection Hf as Hf.
    rewrite Hf in Hpid. apply py_int_str_inv in Hpid as ->; [|done]. apply vanished_app. right. left. by exists p.
Qed.

Lemma start_rest_triple b0 base rn tool lp cs cfg es :
  triple b0 base (knows fresh b0 base) (start_rest rn tool lp cs cfg es) (fun r s => inv b0 base s /\ r = lo_running s.1).
Proof.
  unfold start_rest. eapply triple_bind.
  { apply (triple_set b0 base fresh fresh); [intros; apply same_set_sps | intros; by apply fresh_set_sps]. }
  intros u. eapply triple_bind; [apply start_egress_triple |]. intros port. eapply triple_bind; [apply start_main_triple |]. intros u1.
  eapply triple_bind with (Q := fun _ => inv b0 base).
  { eapply triple_weaken; [| |apply (triple_lift b0 base (fun _ => True)), does_sleep]; [by split | by intros ? ? [? _]]. }
  intros u2 [lo k] Hi. unfold mbind at 1, M_bind, get_running. cbn [fst snd].
  unfold mbind at 1, M_bind. unfold lift at 1. cbn [fst snd].
  pose proof (does_is_alive none_spawned (spawns_observes _) (lo_running lo) k) as Hd.
  destruct (is_alive (lo_running lo) k) as [[[a reaped] | e |] k1] eqn:Ea; [| by eapply inv_lift | done].
  assert (inv b0 base (if reaped then (Locals (mark_exited CProcess (lo_running lo)) (lo_registered lo), k1) else (lo, k1))) as Hi1.
  { destruct reaped; [by eapply inv_reaped | by eapply inv_lift]. }
  unfold mbind, M_bind. destruct reaped; cbn [mret M_ret set_running fst snd]; destruct a; cbn; auto.
Qed.

(** ** Failing *)

Lemma sps_do_done m k : exists b n, sps_do m k = (Done b, Kernel n (k_boot k) (k_log k)).
Proof. unfold sps_do. destruct (m (k_os k)) as [x n]. by exists (match x with inl _ => true | inr _ => false end), n. Qed.

(** The unregistration of a failed start raises nothing. *)
Lemma unregister_returns id path k : exists k', _sps_unregister id path k = (Done tt, k').
Proof.
  unfold _sps_unregister, catch, mbind, M_bind. unfold _resolve_sps, mbind, M_bind, quiet. destruct (os_sps_file (k_os k) path) as [file n].
  destruct (_ : res ResolvedSPS_) as [cfg|]; [|by eexists]. cbn.
  unfold sps_client_of, os_call, mbind, M_bind, quiet. cbn [k_os k_boot k_log mret M_ret].
  destruct (os_tls n _ _) as [[|] n1]; [|by eexists]. cbn [mret M_ret].
  match goal with |- context [sps_do ?m ?k0] => destruct (sps_do_done m k0) as (b & n2 & ->) end. by eexists.
Qed.

(** The processes of [l] that the record names, or the evidence that they are
    gone. *)
Definition recorded_in r l : Prop := forall what pid post, after what pid l post -> names r what pid.
Definition all_gone l : Prop := forall what pid post, after what pid l post -> vanished pid post.

Lemma core_children r r' : core r = core r' -> children r = children r'.
Proof. destruct r, r'. intros [=]. unfold children. by subst. Qed.

(** A receipt of a clean-up, for a process it was asked to stop. *)
Lemma receipt_vanished r b l what pid : names r what pid -> 0 <= pid -> boot_le (Some (rn_boot_id r)) b ->
  forall p, In (what, Some p) (children r) -> receipt r p b l -> vanished pid l.
Proof.
  intros [Hn _]%children_field Hp Hb p [Hf _]%children_field (q & Hq & Hq2 & Hg). rewrite Hn in Hf. injection Hf as <-.
  apply py_int_str_inv in Hq as ->; [|done]. destruct Hg as [|[|(b2 & b3 & E2 & E3 & Hne)]]; [left; exists pid; split; [lia | done] | by right |].
  apply boot_le_some in Hb. congruence.
Qed.

(** What a clean-up after the events [l] leaves. *)
Lemma cleanup_after b0 base fuel lo k o k1 : inv b0 base (lo, k) -> _cleanup_partial_start fuel (lo_running lo) k = (o, k1) ->
  exists l, k_log k1 = base ++ l /\ boot_le (k_boot k) (k_boot k1) /\
    match o with
    | Done _ => all_gone l
    | Throw e => exists r, e = RCleanup r /\ tracked b0 r (k_boot k1) l
    | Diverge => True
    end.
Proof.
  intros (l & L & T) E. cbn [fst snd] in *. pose proof (cleanup_spawns (fun _ _ => False) fuel (lo_running lo) k) as Hd.
  pose proof (cleanup_settles fuel (lo_running lo) k) as Hs. rewrite E in Hd, Hs. cbn [snd] in Hd.
  destruct Hd as (l2 & L2 & B2 & S2). apply nospawn_ok in S2. pose proof (tracked_more _ _ _ _ _ _ T B2 S2) as T2.
  destruct T as [H1' H2' H3' H4'].
  exists (l ++ l2). rewrite L2, L, <- (assoc_L (++)). split; [done |]. split; [done |].
  assert (forall r', settled (lo_running lo) r' k k1 -> forall what pid post, after what pid (l ++ l2) post -> exited_field what r' = true -> vanished pid post) as Hgone.
  { intros r' (_ & _ & l2' & L2' & _ & Hp) what pid post (p1 & Ha & ->)%after_quiet Hx; [|done].
    rewrite L2' in L2. apply app_inv_head in L2 as ->. destruct (H3' _ _ _ Ha) as [Hpid Hn]. apply vanished_app.
    destruct (Hp what Hx) as [Hx0 | (p & Hp1 & Hr)]; [left; by eapply H4' | right].
    eapply receipt_vanished; [exact Hn | done | | exact Hp1 | exact Hr]. rewrite H1'. rewrite H2' in B2. exact B2. }
  destruct o as [r' | e |]; [| |done].
  - destruct Hs as [Hs Ha]. intros what pid post Hat. eapply (Hgone r' Hs); [done |]. destruct (tr_spawned _ _ _ _ T2 _ _ _ Hat) as [_ Hn]. by eapply Ha.
  - destruct Hs as (r' & -> & Hs & _). exists r'. split; [done |]. pose proof Hs as (Hc & _ & _).
    constructor; [by rewrite (core_boot _ _ Hc) | apply T2 | | by eapply Hgone].
    intros what pid post Ha. destruct (tr_spawned _ _ _ _ T2 _ _ _ Ha). split; [done |]. unfold names. by rewrite (core_children _ _ Hc).
Qed.

Lemma all_gone_more l l2 : nospawn l2 -> all_gone l -> all_gone (l ++ l2).
Proof. intros Hs Hg what pid post (p1 & Ha & ->)%after_quiet; [|done]. apply vanished_app. left. by eapply Hg. Qed.

(** How a start may end. *)
Definition ended b0 b l (o : outcome running_tool) : Prop :=
  match o with
  | Done r => tracked b0 r b l
  | Throw e => (exists r, e = RCleanup r /\ tracked b0 r b l) \/ all_gone l
  | Diverge => True
  end.

Lemma start_failed_ends b0 base fuel id lo k cause o k1 : inv b0 base (lo, k) -> start_failed fuel id lo cause k = (o, k1) ->
  exists l, k_log k1 = base ++ l /\ ended b0 (k_boot k1) l o.
Proof.
  intros Hi E. unfold start_failed, mbind, M_bind, finally in E.
  destruct (_cleanup_partial_start fuel (lo_running lo) k) as [oc kc] eqn:Ec.
  destruct (cleanup_after _ _ _ _ _ _ _ Hi Ec) as (l & L & Bc & Hl).
  set (fin := if lo_registered lo then _ else _) in E.
  assert (exists kf, fin kc = (Done tt, kf) /\ reach none_spawned kc kf) as (kf & Ef & l2 & L2 & B2 & S2%nospawn_ok).
  { subst fin. destruct (lo_registered lo); [|exists kc; split; [done | apply reach_refl]].
    destruct (unregister_returns id sps_env_path kc) as [kf Ef]. exists kf.
    pose proof (unregister_does (fun _ _ => False) id sps_env_path kc) as Hu. rewrite Ef in Hu. unfold catch. by rewrite Ef. }
  assert (k_log kf = base ++ (l ++ l2)) as Lf by (by rewrite L2, L, <- (assoc_L (++))).
  destruct oc as [r | e |]; [rewrite Ef in E; injection E as <- <- | rewrite Ef in E; injection E as <- <- | injection E as <- <-; by exists l].
  - exists (l ++ l2). split; [done |]. right. by apply all_gone_more.
  - exists (l ++ l2). split; [done |]. destruct Hl as (r & -> & Hr). left. exists r. split; [done |]. by eapply tracked_more.
Qed.

Definition accounts k (x : outcome running_tool * kernel N) : Prop :=
  exists l b0, k_log x.2 = k_log k ++ l /\ boot_le (k_boot k) (k_boot x.2) /\ ended b0 (k_boot x.2) l x.1.

Lemma accounts_bind {A} (m : PM A) (f : A -> PM running_tool) k : does none_spawned m ->
  (forall a k1, m k = (Done a, k1) -> accounts k1 (f a k1)) -> accounts k ((m ≫= f) k).
Proof.
  intros Hm Hf. unfold mbind, M_bind. specialize (Hm k). destruct (m k) as [[a | e |] k1]; cbn [snd] in Hm;
    destruct Hm as (l1 & L1 & B1 & S1); apply nospawn_ok in S1.
  - destruct (Hf a k1 eq_refl) as (l2 & b0 & L2 & B2 & S2). exists (l1 ++ l2), b0. rewrite L2, L1, <- (assoc_L (++)). split; [done |].
    split; [by eapply boot_le_trans |].
    assert (forall what pid post, after what pid (l1 ++ l2) post -> after what pid l2 post) as Hin.
    { intros what pid post [(p1 & Ha & _)|Ha]%after_app; [by apply after_nospawn in Ha | done]. }
    assert (forall r, tracked b0 r (k_boot (f a k1).2) l2 -> tracked b0 r (k_boot (f a k1).2) (l1 ++ l2)) as Ht.
    { intros r [? ? H3' H4']. constructor; [done | done | |].
      - intros what pid post Ha%Hin. by eapply H3'.
      - intros what pid post Ha%Hin. by eapply H4'. }
    destruct (f a k1).1 as [r | e |]; [by apply Ht | | done].
    destruct S2 as [(r & -> & Hr) | Hg]; [left; exists r; split; [done | by apply Ht] | right].
    intros what pid post Ha%Hin. by eapply Hg.
  - exists l1, None. split; [done |]. split; [done |]. right. intros what pid post Ha. by apply after_nospawn in Ha.
  - by exists l1, None.
Qed.

Lemma inv_start b0 k lo : k_boot k = Some b0 -> rn_boot_id (lo_running lo) = b0 -> inv b0 (k_log k) (lo, k).
Proof.
  intros Hb Hr. exists []. rewrite app_nil_r. split; [done |].
  constructor; [done | done | |]; intros what pid post (pre & req & E); by destruct pre.
Qed.

Lemma known_after k b k1 : _boot_id k = (Done b, k1) -> k_boot k1 = Some b.
Proof. intros E. destruct (boot_known k) as (b' & k' & E' & Hk & _). congruence. Qed.

Lemma guarded_accounts fuel rn tool lo lp cs es k b0 : k_boot k = Some b0 -> rn_boot_id (lo_running lo) = b0 -> fresh (lo_running lo) ->
  accounts k (start_guarded fuel (td_id tool) lo (start_body rn tool lp cs es) k).
Proof.
  intros Hb Hr Hf. unfold start_guarded.
  assert (triple b0 (k_log k) (knows fresh b0 (k_log k)) (start_body rn tool lp cs es)
    (fun r s => inv b0 (k_log k) s /\ r = lo_running s.1)) as Ht.
  { rewrite start_body_eq. apply triple_bind with (Q := fun _ => knows fresh b0 (k_log k)).
    - destruct es; [apply start_register_triple | by apply triple_ret].
    - intros reg. apply start_rest_triple. }
  assert (sdoes any_spawned (start_body rn tool lp cs es)) as Hd.
  { rewrite start_body_eq. apply sdoes_bind; [destruct es; [apply start_register_does | apply sdoes_ret] |]. intros. by apply start_rest_does. }
  specialize (Ht (lo, k) (conj (inv_start b0 k lo Hb Hr) Hf)). specialize (Hd (lo, k)).
  destruct (start_body rn tool lp cs es (lo, k)) as [[r | cause |] [lo1 k1]]; cbn [snd] in Hd; destruct Hd as (ld & Ld & Bd & _).
  - destruct Ht as [(l & L & T) ->]. by exists l, b0.
  - pose proof (start_failed_does (fun _ _ => True) fuel (td_id tool) lo1 cause k1) as (l1 & _ & B1 & _).
    destruct (start_failed fuel (td_id tool) lo1 cause k1) as [o k2] eqn:Ef.
    destruct (start_failed_ends _ _ _ _ _ _ _ _ _ Ht Ef) as (l & L & Ho). exists l, b0. split; [done |]. split; [by eapply boot_le_trans | done].
  - by exists ld, b0.
Qed.

Lemma process_start_accounts fuel rn tool k : process_backend (backend rn) = true -> accounts k (process_start fuel rn tool k).
Proof.
  intros Hb. unfold process_start. apply accounts_bind; [apply does_throw_if |]. intros u1 k1 _.
  apply accounts_bind; [apply does_bind; [apply does_quiet |]; intros []; [apply does_ret | apply does_throw] |]. intros u2 k2 _.
  apply accounts_bind; [apply sps_active_does |]. intros act k3 _. apply accounts_bind; [apply does_throw_if |]. intros u4 k4 _.
  apply accounts_bind; [apply does_throw_if |]. intros u5 k5 _. apply accounts_bind; [apply does_quiet |]. intros cs k6 _.
  apply accounts_bind; [destruct act; [apply does_bind; [apply does_quiet |]; intros; apply does_ret | apply does_ret] |]. intros es k7 _.
  apply accounts_bind; [apply log_path_does |]. intros lp k8 _. apply accounts_bind; [apply does_boot |]. intros b k9 Eb.
  by apply (guarded_accounts fuel rn tool _ lp cs es k9 b); [by eapply known_after | |].
Qed.

(** ** DockerRunner.start *)

Definition follower_ready r : Prop := unset CLog r /\ rn_backend r = "docker"%string.

Lemma docker_body_triple b0 base tool lp cs :
  triple b0 base (knows follower_ready b0 base) (docker_body tool lp cs) (fun r s => inv b0 base s /\ r = lo_running s.1).
Proof.
  unfold docker_body. eapply triple_bind.
  { apply triple_lift. unfold docker_image. destruct (truthy _); [apply text_does | apply does_ret]. }
  intros image. apply triple_bind with (Q := fun _ => knows follower_ready b0 base).
  { destruct (_ && _); [eapply triple_lift, docker_does | by apply triple_ret]. }
  intros x. eapply triple_bind.
  { apply (triple_set b0 base follower_ready follower_ready).
    - intros r [_ Hb]. split; [by destruct r |]. split; [|by destruct r; intros []]. unfold children. destruct r. cbn in *. by rewrite Hb.
    - intros r [? ?]. by destruct r. }
  intros u. eapply triple_bind; [apply triple_lift, docker_does |]. intros x1. eapply triple_bind; [apply triple_lift, docker_does |]. intros x2.
  apply (triple_spawn b0 base follower_ready (fun _ => True) CLog _ (fun pid => pid) (fun p => set_log_pid (Some p)));
    [|apply records_log | done | by intros r [? _] | done |].
  { unfold _start_docker_log_follower. apply one_bind; [apply os_call_does | intros; apply spawn_one]. }
  intros pid. eapply triple_bind; [apply triple_lift, does_process_identity, spawns_observes |]. intros i.
  eapply triple_bind; [apply (triple_set b0 base (fun _ => True) (fun _ => True)); [intros; apply same_log_identity | done] |]. intros u1.
  eapply triple_bind; [apply triple_lift, does_sleep |]. intros u2 [lo k] [Hi _].
  unfold mbind at 1, M_bind, get_running. cbn [fst snd]. unfold mbind, M_bind, lift. cbn [fst snd].
  assert (does none_spawned (docker_alive (lo_running lo))) as Hd by (apply does_bind; [apply docker_run_does | intros; apply does_ret]).
  specialize (Hd k). destruct (docker_alive (lo_running lo) k) as [[[|] | e |] k1]; [| | |done]; cbn.
  - split; [by eapply inv_lift | done].
  - by eapply inv_lift.
  - by eapply inv_lift.
Qed.

Lemma docker_failed_ends b0 base fuel lo k cause o k1 : inv b0 base (lo, k) -> docker_failed fuel lo cause k = (o, k1) ->
  exists l, k_log k1 = base ++ l /\ ended b0 (k_boot k1) l o.
Proof.
  intros Hi E. unfold docker_failed in E. unfold mbind at 1, M_bind in E.
  set (rm := if PyStr.empty _ then _ else _) in E.
  assert (does none_spawned rm) as Hd.
  { subst rm. destruct (PyStr.empty _); [apply does_ret |]. apply does_catch; [|intros; apply does_ret].
    apply does_bind; [apply docker_run_does | intros; apply does_ret]. }
  assert (forall k0, exists b k2, rm k0 = (Done b, k2)) as Hrm.
  { intros k0. subst rm. destruct (PyStr.empty _); [by eexists _, _ |]. unfold catch, docker_run, mbind, M_bind, quiet.
    destruct (os_docker (k_os k0) _) as [[c out | |] n]; by eexists _, _. }
  specialize (Hd k). destruct (Hrm k) as (removed & k2 & Er). rewrite Er in E, Hd. cbn [snd] in Hd.
  assert (inv b0 base (lo, k2)) as Hi2 by by eapply inv_lift.
  unfold mbind, M_bind in E. destruct (_cleanup_partial_start fuel (lo_running lo) k2) as [oc kc] eqn:Ec.
  destruct (cleanup_after _ _ _ _ _ _ _ Hi2 Ec) as (l & L & _ & Hl). exists l.
  destruct oc as [r | e |]; [destruct removed|..]; injection E as <- <-; (split; [done |]); [by right | by right | by left | done].
Qed.

Lemma docker_start_accounts fuel tool k : accounts k (docker_start fuel tool k).
Proof.
  unfold docker_start. apply accounts_bind; [apply does_throw_if |]. intros u1 k1 _.
  apply accounts_bind; [apply sps_active_does |]. intros act k2 _. apply accounts_bind; [apply does_throw_if |]. intros u3 k3 _.
  apply accounts_bind; [apply does_quiet |]. intros cs k4 _. apply accounts_bind; [apply log_path_does |]. intros lp k5 _.
  apply accounts_bind; [apply does_boot |]. intros b k6 Eb. cbv zeta.
  set (lo := Locals _ false). unfold docker_guarded.
  assert (inv b (k_log k6) (lo, k6)) as Hi by (apply inv_start; [by eapply known_after | done]).
  pose proof (docker_body_triple b (k_log k6) tool lp cs (lo, k6) (conj Hi (conj (conj eq_refl eq_refl) eq_refl))) as Ht.
  destruct (docker_body tool lp cs (lo, k6)) as [[r | cause |] [lo1 k7]] eqn:Ed.
  - destruct Ht as [(l & L & T) ->]. exists l, b. split; [done |]. split; [|done]. cbn. rewrite (known_after _ _ _ Eb). right. symmetry. apply T.
  - destruct (docker_failed fuel lo1 cause k7) as [o k8] eqn:Ef.
    pose proof (docker_failed_ends _ _ _ _ _ _ _ _ Ht Ef) as (l & L & Ho).
    pose proof (docker_body_does (fun _ _ => True) tool lp cs (fun _ => I) (lo, k6)) as (_ & _ & B1 & _). rewrite Ed in B1. cbn [snd] in B1.
    pose proof (docker_failed_does (fun _ _ => True) fuel lo1 cause k7) as (_ & _ & B2 & _). rewrite Ef in B2. cbn [snd] in B2.
    exists l, b. split; [done |]. split; [by eapply boot_le_trans | done].
  - pose proof (docker_body_does (fun _ _ => True) tool lp cs (fun _ => I) (lo, k6)) as (l & L & B1 & _). rewrite Ed in L, B1. cbn [snd] in L, B1.
    exists l, b. split; [exact L |]. split; [exact B1 | done].
Qed.

Lemma runner_start_accounts fuel rn tool k : accounts k (runner_start fuel rn tool k).
Proof.
  destruct rn; cbn [runner_start]; [by apply process_start_accounts | by apply process_start_accounts | apply docker_start_accounts |].
  exists [], None. rewrite app_nil_r. split; [done |]. split; [apply boot_le_refl |]. right. intros what pid post (pre & req & E). by destruct pre.
Qed.

(** A start forgets no process, whatever the machine does between any two
    of its calls. Every process it spawned, in whichever order and wherever it
    failed, is named with its pid by the record it returns or by the record
    its clean-up error carries; when it fails with any other error, every
    process it spawned has since been observed gone (reaped by a wait, or no
    process under the pid). A record marks a process exited only on the same
    evidence, found after the spawn, and carries the machine's boot id. *)
Theorem start_forgets_nothing fuel rn tool k :
  exists (l : list event) b0, k_log (runner_start fuel rn tool k).2 = k_log k ++ l /\
    let vanished_after (pid : Z) (post : list event) := (exists p, p <> 0 /\ In (EvWait pid (Waited p)) post) \/ In (EvProbe pid NoProcess) post in
    let named_by r := rn_boot_id r = b0 /\ forall pre what req pid post, l = pre ++ EvSpawn what req pid :: post ->
      In (what, Some (str_of_Z pid)) (children r) /\ (exited_field what r = true -> vanished_after pid post) in
    match (runner_start fuel rn tool k).1 with
    | Done r => named_by r
    | Throw e => (exists r, e = RCleanup r /\ named_by r) \/
        forall pre what req pid post, l = pre ++ EvSpawn what req pid :: post -> vanished_after pid post
    | Diverge => True
    end.
Proof.
  destruct (runner_start_accounts fuel rn tool k) as (l & b0 & L & _ & Ho). exists l, b0. split; [done |]. cbv zeta.
  assert (forall r b, tracked b0 r b l -> rn_boot_id r = b0 /\ forall pre what req pid post, l = pre ++ EvSpawn what req pid :: post ->
    In (what, Some (str_of_Z pid)) (children r) /\ (exited_field what r = true -> vanished pid post)) as Ht.
  { intros r b [H1' _ H3' H4']. split; [done |]. intros pre what req pid post E. assert (after what pid l post) as Ha by by exists pre, req.
    split; [by destruct (H3' _ _ _ Ha) | by eapply H4']. }
  destruct (runner_start fuel rn tool k).1 as [r | e |]; [by eapply Ht | | done].
  destruct Ho as [(r & -> & Hr) | Hg]; [left; exists r; split; [done | by eapply Ht] | right].
  intros pre what req pid post E. apply (Hg what pid post). by exists pre, req.
Qed.

(** ** A start ends *)

Definition never_diverges {S A} (m : M S A) : Prop := forall s, (m s).1 <> Diverge.

Lemma nd_bind {S A B} (m : M S A) (f : A -> M S B) : never_diverges m -> (forall a, never_diverges (f a)) -> never_diverges (m ≫= f).
Proof. intros Hm Hf s. unfold mbind, M_bind. specialize (Hm s). destruct (m s) as [[a | e |] s']; [apply Hf | done..]. Qed.
Lemma nd_ret {S A} (a : A) : never_diverges (mret a : M S A).
Proof. done. Qed.
Lemma nd_throw {S A} e : never_diverges (throw e : M S A).
Proof. done. Qed.
Lemma nd_catch {S A} (m : M S A) h : never_diverges m -> (forall e, never_diverges (h e)) -> never_diverges (catch m h).
Proof. intros Hm Hh s. unfold catch. specialize (Hm s). destruct (m s) as [[a | e |] s']; [done | apply Hh | done]. Qed.
Lemma nd_lift {A} (m : PM A) : never_diverges m -> never_diverges (lift m).
Proof. intros Hm s. unfold lift. specialize (Hm s.2). by destruct (m s.2). Qed.
Lemma nd_quiet {A} (f : N -> A * N) : never_diverges (quiet f).
Proof. intros s. unfold quiet. by destruct (f (k_os s)). Qed.
Lemma nd_noted {A} (f : N -> A * N) ev : never_diverges (noted f ev).
Proof. intros s. unfold noted. by destruct (f (k_os s)). Qed.
Lemma nd_spawn c req : never_diverges (posix_spawn c req).
Proof. intros s. unfold posix_spawn. by destruct (os_spawn (k_os s) req) as [[]]. Qed.
Lemma nd_sps (m : @CM N unit) : never_diverges (sps_do m).
Proof. intros s. unfold sps_do. by destruct (m (k_os s)). Qed.
Lemma nd_boot : never_diverges _boot_id.
Proof. intros k. destruct (boot_known k) as (b & k' & E & _). by rewrite E. Qed.
End Facts.

Create HintDb nodiv discriminated.
#[export] Hint Resolve nd_ret nd_throw nd_quiet nd_noted nd_spawn nd_sps nd_boot nd_lift : nodiv.

(** One step of the structural argument. *)
Ltac nodiv_step :=
  match goal with
  | |- never_diverges (_ ≫= _) => apply nd_bind; [|intros ?]
  | |- never_diverges (catch _ _) => apply nd_catch; [|intros ?]
  | |- never_diverges (lift _) => apply nd_lift
  | |- never_diverges (if ?b then _ else _) => destruct b
  | |- never_diverges (match ?x with _ => _ end) => destruct x
  | |- never_diverges (let '(_, _) := ?x in _) => destruct x
  end.
Ltac nodiv := repeat first [solve [auto 2 with nodiv] | nodiv_step].

Section Ends.
Context {N : Type} `{Launcher N} `{Channel N} `{Utf8}.
#[local] Notation PM := (@Process.PM N).

Lemma nd_identity pid : never_diverges (identity_at (N:=N) pid).
Proof. unfold identity_at. nodiv. Qed.
Lemma nd_process_identity p : never_diverges (_process_identity (N:=N) p).
Proof. unfold _process_identity, identity_at. nodiv. Qed.
Lemma nd_absent pid : never_diverges (_pid_absent (N:=N) pid).
Proof. unfold _pid_absent, kill0. nodiv. Qed.
Lemma nd_is_alive r : never_diverges (is_alive (N:=N) r).
Proof.
  unfold is_alive, probe_alive, waitpid, _pids_are_current.
  repeat first [apply nd_identity | apply nd_absent | apply nd_process_identity | nodiv_step | solve [auto 2 with nodiv]].
Qed.
Lemma nd_each {A B} (f : A -> PM B) l : (forall a, never_diverges (f a)) -> never_diverges (each f l).
Proof. intros Hf. induction l as [|a l IH]; [done |]. cbn [each]. nodiv. Qed.
Lemma nd_register id secrets e cfg : never_diverges (_sps_register (N:=N) id secrets e cfg).
Proof.
  unfold _sps_register, sps_client_of, os_call. nodiv; [|by intros k]. apply nd_each. intros s. unfold cs_tuple_of, text_of. nodiv.
Qed.
Lemma nd_resolve path : never_diverges (_resolve_sps (N:=N) path).
Proof. unfold _resolve_sps. nodiv. Qed.

Lemma nd_sleep t : never_diverges (sleep (N:=N) t).
Proof. unfold sleep. nodiv. Qed.

Ltac nodiv_start :=
  repeat first [apply nd_identity | apply nd_process_identity | apply nd_is_alive | apply nd_register | apply nd_resolve | apply nd_sleep
               | solve [auto 2 with nodiv] | nodiv_step | solve [by intros ?]].

Lemma nd_body rn tool lp cs es : never_diverges (start_body (N:=N) rn tool lp cs es).
Proof.
  unfold start_body, start_register, start_egress, start_main, _start_egress_proxy, os_get, os_call, text_of, lift_res, get_running,
    set_running, set_registered. nodiv_start.
Qed.

Lemma unregister_caught id path k : exists k', catch (_sps_unregister id path) (fun e => if is_exception e then mret tt else throw e) k = (Done tt, k').
Proof. destruct (unregister_returns id path k) as [k' E]. exists k'. unfold catch. by rewrite E. Qed.

(** A start ends: with 41 turns for the polling of the clean-up it returns
    or raises, whatever the machine answers. *)
Theorem start_finishes `{!OsClock N} fuel rn tool k : (41 <= fuel)%nat -> (runner_start fuel rn tool k).1 <> Diverge.
Proof.
  intros Hf. assert (forall r, never_diverges (_cleanup_partial_start fuel r)) as Hc.
  { intros r k0. by destruct (cleanup_finishes fuel r k0 Hf) as [[r' ->]|[r' ->]]. }
  assert (forall rn0, never_diverges (process_start fuel rn0 tool)) as Hp.
  { intros rn0. unfold process_start, throw_if, _check_port_free, sps_active, _tool_log_path, os_call.
    nodiv_start. all: intros k0; unfold start_guarded;
      match goal with |- context [start_body ?a ?b ?c ?d ?e (?lo, k0)] => pose proof (nd_body a b c d e (lo, k0)) as Hb;
        destruct (start_body a b c d e (lo, k0)) as [[r | cause |] [lo1 k1]] end; [done | | done].
    all: unfold start_failed, mbind, M_bind, finally; pose proof (Hc (lo_running lo1) k1) as Hc1;
      destruct (_cleanup_partial_start fuel (lo_running lo1) k1) as [[r | e |] k2]; [| | done].
    all: destruct (lo_registered lo1); [|done]; match goal with |- context [catch (_sps_unregister ?i ?p) _ ?k2] =>
      destruct (unregister_caught i p k2) as [k3 ->] end; done. }
  destruct rn; cbn [runner_start]; [apply Hp | apply Hp | | done].
  revert k. change (never_diverges (docker_start fuel tool)).
  unfold docker_start, throw_if, sps_active, _tool_log_path, os_call. nodiv_start. intros k0. unfold docker_guarded.
  assert (forall lp cs, never_diverges (docker_body tool lp cs)) as Hb.
  { intros lp cs. unfold docker_body, docker_image, _docker, _start_docker_log_follower, os_call, text_of, docker_alive, docker_run, get_running, set_running.
    nodiv_start. }
  match goal with |- context [docker_body ?a ?b ?c (?lo, k0)] => pose proof (Hb b c (lo, k0)) as Hb1;
    destruct (docker_body a b c (lo, k0)) as [[r | cause |] [lo1 k1]] end; [done | | done].
  revert k1 Hb1. intros k1 _. revert k1. change (never_diverges (docker_failed fuel lo1 cause)). unfold docker_failed, docker_run.
  repeat first [apply Hc | nodiv_step | solve [auto 2 with nodiv]].
Qed.
End Ends.

(** ** Witnesses *)

#[local] Existing Instance ProcessFacts.sim_os.
#[local] Existing Instance ProcessFacts.sim_clock_laws.
#[local] Existing Instance RunnerFacts.sim_channel.
#[local] Existing Instance RunnerFacts.sim_utf8.
#[local] Existing Instance RunnerFacts.sim_launcher.

Lemma start_finishes_witness : (runner_start 41 SeatbeltRunner w_tool w_idle).1 <> Diverge.
Proof. apply start_finishes. lia. Defined.
