(* ===== verification/Yard.v ===== *)
(** toolyard/cli.py and admin/toolyard_ops.py: the state file that records which
    tools run, and the operations that start and stop tools under its lock.

    [yard] is what the operations share: the machine of Process.v, the private
    state file, the credential view, the log [y_events] of what the file system
    was asked and of the saves, and the records [y_raised] that exceptions
    carried out of the operations.  The state file holds records as [asdict] writes them;
    writing and reading them back keeps them. *)

From stdpp Require Import base tactics list strings.
From Stdlib Require Import ZArith Lia Ascii.
From S2P Require Import Prelude PyStr Json Policy Registry Sps SpsWire SpsClient SpsConfig ToolyardConfig Process Runner.

(** ** pathlib and os.path *)

Definition slash : ascii := "/"%char.

(** [PurePosixPath(s).root], and the other components. *)
Definition path_root (s : string) : string :=
  if starts_with "//" s && negb (starts_with "///" s) then "//" else if starts_with "/" s then "/" else EmptyString.
Definition path_parts (s : string) : list string :=
  List.filter (fun c => negb (PyStr.empty c || String.eqb c ".")) (split_char slash s).

(** [str(path)]. *)
Definition path_str (root : string) (parts : list string) : string :=
  let s := root +:+ join "/" parts in if PyStr.empty s then "." else s.
Definition Path (s : string) : string := path_str (path_root s) (path_parts s).

Definition path_name (s : string) : string := default EmptyString (last (path_parts s)).

Definition with_name (s name : string) : res string :=
  if PyStr.empty (path_name s) then Raise ValueError
  else Ok (path_str (path_root s) (removelast (path_parts s) ++ [name])).

Definition path_stem (s : string) : string :=
  let name := path_name s in
  let i := rfind "." name in
  if (0 <? i) && (i <? len name - 1) then str_take (Z.to_nat i) name else name.

Definition with_suffix (s suffix : string) : res string :=
  if PyStr.empty (path_stem s) then Raise ValueError else with_name s (path_stem s +:+ suffix).

Definition absolute (cwd s : string) : string := if starts_with "/" s then Path s else Path (cwd +:+ "/" +:+ s).

Definition parent (s : string) : string := path_str (path_root s) (removelast (path_parts s)).

(** [reversed((parent, *parent.parents))]: the directories from the root to
    the parent. *)
Definition ancestors (s : string) : list string :=
  map (fun n => path_str (path_root s) (take n (path_parts s))) (seq 0 (length (path_parts s))).

(** [os.path.abspath]. *)
Definition norm_step (acc : list string) (c : string) : list string :=
  if PyStr.empty c || String.eqb c "." then acc else if String.eqb c ".." then removelast acc else acc ++ [c].
Definition abspath (cwd s : string) : string :=
  let s := if starts_with "/" s then s else cwd +:+ "/" +:+ s in
  path_root s +:+ join "/" (fold_left norm_step (split_char slash s) []).

(** ** The file system *)

Inductive node_kind := NSymlink | NDirectory | NRegular | NOther.

#[export] Instance node_kind_eq_dec : EqDecision node_kind.
Proof. solve_decision. Defined.

Record stat_info := StatInfo { st_kind : node_kind; st_uid : Z; st_mode : Z; st_nlink : Z }.

(** [os.lstat]: the answer, FileNotFoundError or another OSError. *)
Inductive lstat_answer := Stat (i : stat_info) | NotFound | StatFails.

(** A replacement of a file: done, an OSError, or interrupted before the
    rename. *)
Inductive publication := Published | Failed | Interrupted.

#[export] Instance publication_eq_dec : EqDecision publication.
Proof. solve_decision. Defined.

Inductive file_event :=
| FLstat (path : string) (answer : lstat_answer)
| FPublish (path : string) (answer : publication)
| FRmtree (path : string) (ok : bool)
| FSaved (error : option rexn).

(** [os_names root] lists the sub-directories of [root] that hold a manifest
    and [os_files] reads files, both as they are at the time of the call. *)
Class StateDir (N : Type) `{Launcher N} := {
  cwd : string;
  home_state : string;
  euid : Z;
  os_lstat : N -> string -> lstat_answer * N;
  os_mkdir : N -> string -> bool * N;
  os_publish : N -> string -> publication * N;
  os_lock : N -> string -> bool * N;
  os_names : N -> string -> list string * N;
  os_files : N -> (string -> option string) * N;
  os_resolve : N -> string -> string * N;
  os_rmtree : N -> string -> bool * N }.

Record yard (N : Type) := Yard {
  y_kernel : kernel N; y_state : dict running_tool; y_channels : dict string; y_events : list file_event;
  y_raised : list running_tool }.
Arguments Yard {N}.
Arguments y_kernel {N}.
Arguments y_state {N}.
Arguments y_channels {N}.
Arguments y_events {N}.
Arguments y_raised {N}.

(** Exceptions of the pure code. *)
Definition rexn_of (e : exn) : rexn :=
  match e with
  | TypeError => RTypeError
  | KeyError | LookupError => RLookupError
  | RuntimeError => RRuntimeError
  | OtherExn "OSError" => ROSError
  | OtherExn "AttributeError" => RAttributeError
  | _ => RValueError
  end.

(** The view of the credentials. *)
Definition channel_view (state : dict running_tool) : dict string :=
  flat_map (fun kv : string * running_tool =>
    match rn_channel_secret kv.2 with Some s => if PyStr.empty s then [] else [(kv.1, s)] | None => [] end) state.

Section Yard.
Context {N : Type} `{StateDir N} `{Channel N} `{Utf8} `{Manifests}.

#[local] Notation PM := (@Process.PM N).

Definition YM (A : Type) : Type := M (yard N) A.

Definition sys {A} (m : PM A) : YM A := fun w =>
  let '(o, k) := m (y_kernel w) in (o, Yard k (y_state w) (y_channels w) (y_events w) (y_raised w)).

Definition of_res {A} (x : res A) : YM A := match x with Ok a => mret a | Raise e => throw (rexn_of e) end.

(** A call of the file system that is recorded. *)
Definition fs {A} (f : N -> A * N) (ev : A -> file_event) : YM A := fun w =>
  let '(a, n) := f (k_os (y_kernel w)) in
  (Done a, Yard (Kernel n (k_boot (y_kernel w)) (k_log (y_kernel w))) (y_state w) (y_channels w) (y_events w ++ [ev a])
    (y_raised w)).

Definition lstat (path : string) : YM lstat_answer := fs (fun n => os_lstat n path) (FLstat path).

(** ** The state file *)

Definition state_home : string :=
  match getenv "XDG_STATE_HOME" with Some s => if PyStr.empty s then home_state else s | None => home_state end.
Definition _state_path : string :=
  match getenv "TOOLSTACK_TOOLYARD_STATE" with
  | Some explicit => if PyStr.empty explicit then Path (state_home +:+ "/toolstack/toolyard/state.json") else Path explicit
  | None => Path (state_home +:+ "/toolstack/toolyard/state.json")
  end.

Definition private_mode (i : stat_info) : bool := Z.land (Z.land (st_mode i) 4095) 63 =? 0.

(** One ancestor: created when missing, and a directory that is no link. *)
Definition check_ancestor (path : string) : YM unit :=
  answer ← lstat path;
  info ← match answer with
         | Stat i => mret i
         | StatFails => throw ROSError
         | NotFound =>
             _ ← sys (os_call (fun n => os_mkdir n path));
             again ← lstat path;
             match again with Stat i => mret i | _ => throw ROSError end
         end;
  throw_if (negb (bool_decide (st_kind info = NDirectory))) RValueError.

Fixpoint check_ancestors (l : list string) : YM unit :=
  match l with [] => mret tt | path :: l' => _ ← check_ancestor path; check_ancestors l' end.

Definition _private_parent (path : string) : YM unit :=
  let path := absolute cwd path in
  _ ← check_ancestors (ancestors path);
  answer ← lstat (parent path);
  match answer with
  | Stat i => throw_if (negb (st_uid i =? euid) || negb (private_mode i)) RValueError
  | _ => throw ROSError
  end.

Definition private_file (i : stat_info) : bool :=
  bool_decide (st_kind i = NRegular) && (st_uid i =? euid) && private_mode i && (st_nlink i =? 1).

Definition _validate_file (path : string) : YM unit :=
  answer ← lstat path;
  match answer with
  | NotFound => mret tt
  | StatFails => throw ROSError
  | Stat i => throw_if (negb (private_file i)) RValueError
  end.

Definition get_state : YM (dict running_tool) := fun w => (Done (y_state w), w).
Definition put_state (s : dict running_tool) : YM unit := fun w => 
  (Done tt, Yard (y_kernel w) s (y_channels w) (y_events w) (y_raised w)).
Definition put_channels (v : dict string) : YM unit := fun w => 
  (Done tt, Yard (y_kernel w) (y_state w) v (y_events w) (y_raised w)).

Definition _load_state : YM (dict running_tool) :=
  _ ← _private_parent _state_path;
  _ ← _validate_file _state_path;
  get_state.

(** The temporary file, its fsync and the rename are [os_publish]; [commit]
    is what the file then holds. *)
Definition _atomic_private_json (path : string) (commit : YM unit) : YM unit :=
  _ ← _private_parent path;
  _ ← _validate_file path;
  answer ← fs (fun n => os_publish n path) (FPublish path);
  match answer with
  | Published => commit
  | Failed => throw ROSError
  | Interrupted => throw RInterrupt
  end.

Definition channel_path : res string :=
  derived ← with_name _state_path "channels.json";
  Ok (match getenv "TOOLSTACK_TOOLYARD_CHANNEL_STATE" with Some p => Path p | None => derived end).

(** The outcome of a save is recorded. *)
Definition saved (m : YM unit) : YM unit := fun w =>
  let log := fun w' error => Yard (y_kernel w') (y_state w') (y_channels w') (y_events w' ++ [FSaved error]) (y_raised w') in
  match m w with
  | (Throw e, w') => (Throw e, log w' (Some e))
  | (o, w') => (o, log w' None)
  end.

Definition _save_state (state : dict running_tool) : YM unit :=
  saved (
    channels ← of_res channel_path;
    lock ← of_res (with_suffix _state_path ".lock");
    _ ← throw_if (negb (bool_decide (NoDup [abspath cwd _state_path; abspath cwd channels; abspath cwd lock]))) RValueError;
    _ ← _private_parent _state_path; _ ← _validate_file _state_path;
    _ ← _private_parent channels; _ ← _validate_file channels;
    _ ← _atomic_private_json _state_path (put_state state);
    _atomic_private_json channels (put_channels (channel_view state))).

(** [with state_lock(): m]. *)
Definition state_lock {A} (m : YM A) : YM A :=
  lock ← of_res (with_suffix _state_path ".lock");
  _ ← throw_if (String.eqb lock _state_path) RValueError;
  _ ← _private_parent _state_path;
  _ ← _validate_file lock;
  _ ← sys (os_call (fun n => os_lock n lock));
  m.

(** ** What the operations share *)

(** Stop the recorded runtime and save that it is gone; a clean-up that
    failed is saved with its record. *)
Definition stop_recorded (fuel : nat) (tool_id : string) (recorded : running_tool) (rn : runner) (state : dict running_tool)
    : YM (dict running_tool) :=
  _ ← catch (sys (runner_stop fuel rn recorded))
        (fun e => match e with
                  | RCleanup r => _ ← _save_state (dset state tool_id r); throw e
                  | _ => throw e
                  end);
  _ ← _save_state (dpop state tool_id);
  mret (dpop state tool_id).

(** Stop the record of a tool that is dead; [None] when it is alive. *)
Definition clear_dead (fuel : nat) (tool_id : string) (state : dict running_tool) : YM (option (dict running_tool)) :=
  match dget state tool_id with
  | None => mret (Some state)
  | Some recorded =>
      rn ← sys (get_runner (rn_backend recorded));
      alive ← sys (runner_alive rn recorded);
      if (alive : bool) then mret None
      else state ← stop_recorded fuel tool_id recorded rn state; mret (Some state)
  end.

Definition except_exception {S A} (m : M S A) (h : rexn -> M S A) : M S A :=
  catch m (fun e => if is_exception e then h e else throw e).

(** ** cli.py *)

(** One turn of [cmd_up], with the runner of the requested backend. *)
Definition up_one (fuel : nat) (rn : runner) (defs : dict ToolDef_) (state : dict running_tool) (tool_id : string)
    : YM (dict running_tool) :=
  match dget defs tool_id with
  | None => throw RSystemExit
  | Some def =>
      cleared ← clear_dead fuel tool_id state;
      match cleared with
      | None => mret state
      | Some state =>
          running ← catch (sys (runner_start fuel rn def))
            (fun e => match e with
                      | RCleanup r => _ ← _save_state (dset state tool_id r); throw e
                      | _ => throw e
                      end);
          let state' := dset state tool_id running in
          _ ← except_exception (_save_state state')
                (fun e => _ ← sys (runner_stop fuel rn running); _ ← _save_state (dpop state' tool_id); throw e);
          mret state'
      end
  end.

Fixpoint foldY {A B} (f : A -> B -> YM A) (a : A) (l : list B) : YM A :=
  match l with [] => mret a | b :: l' => a ← f a b; foldY f a l' end.

Definition by_id (l : list ToolDef_) : dict ToolDef_ := fold_left (fun acc d => dset acc (td_id d) d) l [].

Definition discovered (root : string) : YM (list ToolDef_) :=
  read ← sys (quiet os_files);
  root ← sys (quiet (fun n => os_resolve n root));
  names ← sys (quiet (fun n => os_names n root));
  of_res (discover read root names).

Definition or_env (o : option string) (key dflt : string) : string :=
  if truthy_id o then default EmptyString o
  else if truthy_id (getenv key) then default EmptyString (getenv key) else dflt.

(** [args.id], and all tools when it is missing or empty. *)
Definition targets {A} (id : option string) (d : dict A) : list string :=
  match id with Some s => if PyStr.empty s then dkeys d else [s] | None => dkeys d end.

Definition cmd_up (fuel : nat) (id root : option string) (backend : string) : YM unit :=
  state_lock (
    found ← discovered (or_env root "TOOLSTACK_TOOLS_ROOT" "tools");
    let defs := by_id found in
    rn ← sys (get_runner backend);
    state ← _load_state;
    state ← foldY (up_one fuel rn defs) state (targets id defs);
    _save_state state).

Definition down_one (fuel : nat) (state : dict running_tool) (tool_id : string) : YM (dict running_tool) :=
  match dget state tool_id with
  | None => mret state
  | Some running => rn ← sys (get_runner (rn_backend running)); stop_recorded fuel tool_id running rn state
  end.

Definition cmd_down (fuel : nat) (id : option string) : YM unit :=
  state_lock (state ← _load_state; state ← foldY (down_one fuel) state (targets id state); _save_state state).

Definition cmd_reload (fuel : nat) (id root : option string) (backend : string) : YM unit :=
  _ ← cmd_down fuel id; cmd_up fuel id root backend.

(** The rows that [cmd_ls] prints: the tool, its backend, its port, whether
    it is alive. *)
Definition cmd_ls : YM (list (string * string * Z * bool)) :=
  state ← _load_state;
  foldY (fun acc (kv : string * running_tool) =>
    rn ← sys (get_runner (rn_backend kv.2));
    alive ← sys (runner_alive rn kv.2);
    mret (acc ++ [(kv.1, rn_backend kv.2, rn_port kv.2, alive)])) [] state.

(** ** toolyard_ops.py *)

(** Record what was started; when that fails, stop it again, and say so when
    that fails too. *)
Definition _record_or_rollback (fuel : nat) (state : dict running_tool) (tool_id : string) (running : running_tool) (rn : runner)
    : YM unit :=
  let state' := dset state tool_id running in
  except_exception (_save_state state')
    (fun e =>
       _ ← except_exception (sys (runner_stop fuel rn running)) (fun _ => throw (RUnrecorded running));
       _ ← _save_state (dpop state' tool_id);
       throw e).

Definition add_dir (read : string -> option string) (defs : dict ToolDef_) (dir : string) : res (dict ToolDef_) :=
  match read (dir +:+ "/toolyard.toml") with
  | Some _ => d ← load read dir; Ok (dset defs (td_id d) d)
  | None => Ok defs
  end.

Definition _all_defs (tools_root : string) (tool_dirs : list string) : YM (dict ToolDef_) :=
  found ← (if PyStr.empty tools_root then mret [] else discovered tools_root);
  read ← sys (quiet os_files);
  of_res (foldM (add_dir read) (by_id found) tool_dirs).

(** The recorded declarations replace those of the manifest. *)
Definition recovered_def (def : ToolDef_) (recorded : option running_tool) : YM ToolDef_ :=
  match recorded with
  | None => throw RValueError
  | Some r =>
      match rn_secret_declarations r with
      | Some secrets =>
          if truthy_id (rn_manifest_digest r) then
            mret (ToolDef (td_id def) (td_type def) (td_port def) (td_command def) (td_image def) secrets (td_path def)
                    (td_description def) (td_egress def) (rn_manifest_digest r))
          else throw RValueError
      | None => throw RValueError
      end
  end.

(** The record an exception carries. *)
Definition carried (e : rexn) : option running_tool := match e with RCleanup r | RUnrecorded r => Some r | _ => None end.

Definition _start (fuel : nat) (tool_id tools_root : string) (tool_dirs : list string) (backend : string) (recovery : bool) : YM unit :=
  defs ← _all_defs tools_root tool_dirs;
  match dget defs tool_id with
  | None => throw RLookupError
  | Some def =>
      state ← _load_state;
      def ← (if recovery then recovered_def def (dget state tool_id) else mret def);
      cleared ← clear_dead fuel tool_id state;
      match cleared with
      | None => mret tt
      | Some state =>
          rn ← sys (get_runner backend);
          running ← except_exception (sys (runner_start fuel rn def))
            (fun e =>
               _ ← match carried e with Some r => _record_or_rollback fuel state tool_id r rn | None => mret tt end;
               throw e);
          _record_or_rollback fuel state tool_id running rn
      end
  end.

Definition _stop (fuel : nat) (tool_id : string) : YM unit :=
  state ← _load_state;
  _ ← down_one fuel state tool_id;
  mret tt.

Definition start (fuel : nat) (tool_id tools_root : string) (tool_dirs : list string) (backend : string) (recovery : bool) : YM unit :=
  state_lock (_start fuel tool_id tools_root tool_dirs backend recovery).
Definition stop (fuel : nat) (tool_id : string) : YM unit := state_lock (_stop fuel tool_id).
Definition restart (fuel : nat) (tool_id tools_root : string) (tool_dirs : list string) (backend : string) : YM unit :=
  state_lock (_ ← _stop fuel tool_id; _start fuel tool_id tools_root tool_dirs backend false).

(** The declarations and the digest of the edited manifest. *)
Definition set_declarations (secrets : list SecretSpec_) (digest : string) (r : running_tool) : running_tool :=
  let '(RunningTool i p b h lp lpath ep la es sh sp sc bo cs pi li ei px lx ex _ _) := r in
  RunningTool i p b h lp lpath ep la es sh sp sc bo cs pi li ei px lx ex (Some secrets) (Some digest).

Definition record_edited_declarations (tool_id : string) (secrets : list SecretSpec_) (digest : string) : YM unit :=
  state_lock (
    state ← _load_state;
    match dget state tool_id with
    | Some r => _save_state (dset state tool_id (set_declarations secrets digest r))
    | None => mret tt
    end).

(** [path.is_relative_to(root)] of resolved paths. *)
Definition is_relative_to (path root : string) : bool :=
  bool_decide (take (length (path_parts root)) (path_parts path) = path_parts root).

Definition _remove (fuel : nat) (tool_id tools_root : string) (tool_dirs : list string) : YM unit :=
  defs ← _all_defs tools_root tool_dirs;
  match dget defs tool_id with
  | None => throw RLookupError
  | Some def =>
      tool_path ← sys (quiet (fun n => os_resolve n (td_path def)));
      _ ← (if PyStr.empty tools_root then throw RValueError
           else
             root ← sys (quiet (fun n => os_resolve n tools_root));
             throw_if (String.eqb tool_path root || negb (is_relative_to tool_path root)) RValueError);
      _ ← _stop fuel tool_id;
      ok ← fs (fun n => os_rmtree n tool_path) (FRmtree tool_path);
      if (ok : bool) then mret tt else throw RValueError
  end.

Definition remove (fuel : nat) (tool_id tools_root : string) (tool_dirs : list string) : YM unit :=
  state_lock (_remove fuel tool_id tools_root tool_dirs).

(** One row of [list_tools]; a failed inspection is no proof of death. *)
Record tool_row := ToolRow {
  tr_id : string; tr_type : string; tr_port : Z; tr_path : string; tr_running : bool; tr_alive : option bool; tr_state : string;
  tr_health : string; tr_row_backend : option string; tr_secrets : list SecretSpec_; tr_removable : bool }.

Definition inspect (record : running_tool) : YM (option bool) :=
  except_exception (rn ← sys (get_runner (rn_backend record)); alive ← sys (runner_alive rn record); mret (Some alive))
    (fun _ => mret None).

Definition row_of (d : ToolDef_) (record : option running_tool) (alive : option bool) (removable : bool) : tool_row :=
  ToolRow (td_id d) (td_type d) (td_port d) (td_path d) (bool_decide (is_Some record)) alive
    (match alive with
     | None => "unknown"
     | Some true => "running"
     | Some false => if bool_decide (is_Some record) then "crashed" else "stopped"
     end)
    (match alive with Some false => "stopped" | _ => "unknown" end)
    (rn_backend <$> record) (td_secrets d) removable.

Definition list_tools (tools_root : string) (tool_dirs : list string) : YM (list tool_row) :=
  state ← _load_state;
  dir_set ← foldY (fun acc p => r ← sys (quiet (fun n => os_resolve n p)); mret (r :: acc)) [] tool_dirs;
  defs ← _all_defs tools_root tool_dirs;
  foldY (fun rows (kv : string * ToolDef_) =>
    let record := dget state (td_id kv.2) in
    alive ← match record with Some r => inspect r | None => mret (Some false) end;
    path ← sys (quiet (fun n => os_resolve n (td_path kv.2)));
    mret (rows ++ [row_of kv.2 record alive (mem_str path dir_set)])) [] defs.
End Yard.
