(* ===== verification/Recovery.v ===== *)
(** admin/sps_link.py, admin/sps_watchdog.py, admin/reconciler.py and the
    re-registration of toolyard/runner.py: how a restart of the secret service or
    of the panel is repaired.

    The operations of other threads that complete while the reconciler does not
    hold the lock are explicit lists of [yard_op]. *)

From stdpp Require Import base tactics list strings.
From Stdlib Require Import ZArith Lia Ascii.
From S2P Require Import Prelude PyStr Json Registry Sps SpsWire SpsClient SpsConfig ToolyardConfig Process Runner Yard.

(** ** [str] of a parsed value *)

Definition hex2 (c : ascii) : string := String (hex_digit (code c / 16)) (String (hex_digit (code c mod 16)) EmptyString).

Definition repr_char (q c : ascii) : string :=
  if Ascii.eqb c bslash || Ascii.eqb c q then String bslash (String c EmptyString)
  else if code c =? 10 then String bslash "n"
  else if code c =? 13 then String bslash "r"
  else if code c =? 9 then String bslash "t"
  else if (code c <? 32) || between 127 160 c || (code c =? 173) then String bslash ("x" +:+ hex2 c)
  else String c EmptyString.

Definition repr_str (s : string) : string :=
  let q := if existsb (Ascii.eqb squote) (chars s) && negb (existsb (Ascii.eqb dquote) (chars s)) then dquote else squote in
  String q (join EmptyString (map (repr_char q) (chars s)) +:+ String q EmptyString).

Fixpoint py_repr (v : json) : string :=
  match v with
  | JNull => "None"
  | JBool b => if b then "True" else "False"
  | JInt z => str_of_Z z
  | JFloat r => r
  | JStr s => repr_str s
  | JArr l => "[" +:+ join ", " (map py_repr l) +:+ "]"
  | JObj d => "{" +:+ join ", " (map (fun kv : string * json => repr_str kv.1 +:+ ": " +:+ py_repr kv.2) d) +:+ "}"
  end.

Definition py_str (v : json) : string := match v with JStr s => s | _ => py_repr v end.

(** ** Exceptions *)

(** Subclasses of LookupError: IndexError is one. *)
Definition is_lookup_error (e : rexn) : bool := match e with RLookupError | RIndexError => true | _ => false end.

Record link_ := SPSLink { lk_host : string; lk_port : Z; lk_ca : string; lk_verify : bool }.

Section Recovery.
Context {N : Type} `{StateDir N} `{Channel N} `{Utf8} `{Manifests}.

#[local] Notation PM := (@Process.PM N).
#[local] Notation YM := (@Yard.YM N).

(** ** sps_link.py *)

Definition link_of (r : ResolvedSPS_) : link_ := SPSLink (rs_host r) (rs_port r) (rs_tls_ca r) (rs_verify r).

Definition from_env (path : option string) : PM (option link_) :=
  if sps_skipped then mret None
  else
    let path := if truthy_id path then default EmptyString path else sps_env_path in
    present ← quiet (fun n => os_exists n path);
    if (present : bool) then
      file ← quiet (fun n => os_sps_file n path);
      mret match (cfg ← load_registration_config loads_toml file; resolve_with cfg) with Ok r => Some (link_of r) | Raise _ => None end
    else mret None.

(** A call that answers a value; [None] is an SPSError. *)
Definition sps_ask {A} (m : CM A) : PM (option A) := fun k =>
  let '(r, n) := m (k_os k) in
  (Done match r with inl a => Some a | inr _ => None end, Kernel n (k_boot k) (k_log k)).

Definition boot_id (link : link_) : PM string :=
  ok ← quiet (fun n => os_tls n (lk_ca link) (lk_verify link));
  _ ← throw_if (negb ok) RSps;
  answer ← sps_ask (ping (SPSClient None None MAX_RESPONSE));
  match answer with
  | None => throw RSps
  | Some body =>
      let v := jget body "boot_id" in
      let id := if truthy v then py_str v else EmptyString in
      if PyStr.empty id then throw RSps else mret id
  end.

(** The polling; [interval] is in microseconds and at least 50 ms. *)
Fixpoint poll_up (fuel : nat) (link : link_) (deadline interval : Z) : PM bool :=
  match fuel with
  | O => fun k => (Diverge, k)
  | S fuel =>
      now ← monotonic;
      let remaining := deadline - now in
      up ← catch (_ ← boot_id link; mret true) (fun e => match e with ROSError | RSps => mret false | _ => throw e end);
      if (up : bool) then mret true
      else
        now ← monotonic;
        if deadline <=? now then mret false
        else _ ← sleep (Z.min interval (Z.max 0 remaining)); poll_up fuel link deadline interval
  end.

Definition wait_until_up (fuel : nat) (link : link_) (timeout interval : Z) : PM bool :=
  now ← monotonic; poll_up fuel link (now + timeout) (Z.max interval 50000).

(** ** Re-registration *)

(** One record; [None] in the results is success. *)
Definition reregister_one (path : string) (results : dict (option string)) (kv : string * running_tool)
    : YM (dict (option string)) :=
  let '(tool_id, rec) := kv in
  match rn_e_secret rec with
  | None => mret results
  | Some e_secret =>
      if PyStr.empty e_secret then mret results
      else
        alive ← except_exception (rn ← sys (get_runner (rn_backend rec)); sys (runner_alive rn rec)) (fun _ => mret true);
        if negb alive then mret results
        else
          match rn_secret_declarations rec with
          | Some secrets =>
              if truthy_id (rn_manifest_digest rec) then
                error ← except_exception (cfg ← sys (_resolve_sps path); _ ← sys (_sps_register tool_id secrets e_secret cfg); mret None)
                          (fun _ => mret (Some "registration failed"%string));
                mret (dset results tool_id error)
              else mret (dset results tool_id (Some "recorded declarations missing; operator Start required"%string))
          | None => mret (dset results tool_id (Some "recorded declarations missing; operator Start required"%string))
          end
  end.

Definition _reregister_results (path : string) : YM (dict (option string)) :=
  present ← sys (quiet (fun n => os_exists n path));
  _ ← throw_if (negb present) RConfigError;
  state ← _load_state;
  foldY (reregister_one path) [] state.

Definition reregister_with_sps_results (path : string) : YM (dict (option string)) := state_lock (_reregister_results path).

Record recovery_result := SPSRecoveryResult { rr_succeeded : list string; rr_failed : list string }.

Definition complete (r : recovery_result) : bool := bool_decide (rr_failed r = []).

Definition recovery_of (results : dict (option string)) : recovery_result :=
  SPSRecoveryResult (dkeys (List.filter (fun kv => bool_decide (kv.2 = None)) results))
    (dkeys (List.filter (fun kv => negb (bool_decide (kv.2 = None))) results)).

Definition reregister_all_with_sps_detailed (path : string) : YM recovery_result :=
  results ← reregister_with_sps_results path; mret (recovery_of results).

(** ** sps_watchdog.py *)

Record watchdog := Watchdog { wd_path : string; wd_last_seen : option string }.

Definition _re_register_all (wd : watchdog) : YM bool :=
  except_exception (count ← reregister_all_with_sps_detailed (wd_path wd); mret (complete count)) (fun _ => mret false).

(** [probe] is the live link's [boot_id]. *)
Definition _check_once (probe : YM string) (wd : watchdog) : YM watchdog :=
  cur ← except_exception (c ← probe; mret (Some c)) (fun _ => mret None);
  match cur with
  | None => mret wd
  | Some cur =>
      if PyStr.empty cur || bool_decide (Some cur = wd_last_seen wd) then mret wd
      else
        done ← _re_register_all wd;
        mret (if (done : bool) then Watchdog (wd_path wd) (Some cur) else wd)
  end.

(** ** Operations of other threads *)

Inductive yard_op :=
| OpUp (id root : option string) (backend : string)
| OpDown (id : option string)
| OpStart (id root : string) (dirs : list string) (backend : string) (recovery : bool)
| OpStop (id : string)
| OpRestart (id root : string) (dirs : list string) (backend : string)
| OpRemove (id root : string) (dirs : list string)
| OpEdited (id : string) (secrets : list SecretSpec_) (digest : string)
| OpReregister (path : string).

Definition run_op (fuel : nat) (op : yard_op) : YM unit :=
  match op with
  | OpUp id root backend => cmd_up fuel id root backend
  | OpDown id => cmd_down fuel id
  | OpStart id root dirs backend recovery => start fuel id root dirs backend recovery
  | OpStop id => stop fuel id
  | OpRestart id root dirs backend => restart fuel id root dirs backend
  | OpRemove id root dirs => remove fuel id root dirs
  | OpEdited id secrets digest => record_edited_declarations id secrets digest
  | OpReregister path => _ ← reregister_with_sps_results path; mret tt
  end.

(** The record an exception carries out of an operation. *)
Definition surfaced {A} (m : YM A) : YM A := fun w =>
  match m w with
  | (Throw e, w') =>
      (Throw e, Yard (y_kernel w') (y_state w') (y_channels w') (y_events w')
                  (match carried e with Some r => r :: y_raised w' | None => y_raised w' end))
  | other => other
  end.

(** An exception ends in the thread that called the operation. *)
Definition elsewhere (m : YM unit) : YM unit := catch (surfaced m) (fun _ => mret tt).

Fixpoint others (fuel : nat) (ops : list yard_op) : YM unit :=
  match ops with [] => mret tt | op :: ops => _ ← elsewhere (run_op fuel op); others fuel ops end.

(** ** reconciler.py *)

(** [current.setdefault(tool_id, rec)]. *)
Definition setdefault (state : dict running_tool) (tool_id : string) (rec : running_tool) : dict running_tool :=
  match dget state tool_id with Some _ => state | None => dset state tool_id rec end.

Definition restore_intent (tool_id : string) (rec : running_tool) : YM unit :=
  state_lock (current ← _load_state; _save_state (setdefault current tool_id rec)).

(** One record of the snapshot; [before] and [during] are what other threads
    do before the start and before the repair of a failed start. *)
Definition reconcile_one (fuel : nat) (tools_root : string) (tool_dirs : list string) (before during : list yard_op)
    (tool_id : string) (rec : running_tool) (started : Z) : YM Z :=
  alive ← except_exception (rn ← sys (get_runner (rn_backend rec)); alive ← sys (runner_alive rn rec); mret (Some alive))
            (fun _ => mret None);
  match alive with
  | Some false =>
      _ ← others fuel before;
      catch (_ ← surfaced (start fuel tool_id tools_root tool_dirs (rn_backend rec) true); mret (started + 1))
        (fun e =>
           if is_lookup_error e then mret started
           else if is_exception e || (match e with RSystemExit => true | _ => false end) then
             _ ← others fuel during;
             _ ← restore_intent tool_id rec;
             mret started
           else throw e)
  | _ => mret started
  end.

Fixpoint reconcile_each (fuel : nat) (tools_root : string) (tool_dirs : list string) (schedule : list (list yard_op * list yard_op))
    (l : dict running_tool) (started : Z) : YM Z :=
  match l with
  | [] => mret started
  | (tool_id, rec) :: l' =>
      let '(before, during) := match schedule with s :: _ => s | [] => ([], []) end in
      started ← reconcile_one fuel tools_root tool_dirs before during tool_id rec started;
      reconcile_each fuel tools_root tool_dirs (tail schedule) l' started
  end.

(** [patience] bounds the polling for the secret service. *)
Definition reconcile_running_tools (fuel patience : nat) (tools_root : string) (tool_dirs : list string) (link : option link_)
    (wait_timeout : Z) (schedule : list (list yard_op * list yard_op)) : YM Z :=
  except_exception
    (up ← match link with Some lk => sys (wait_until_up patience lk wait_timeout 500000) | None => mret true end;
     if negb up then mret 0
     else
       state ← state_lock _load_state;
       reconcile_each fuel tools_root tool_dirs schedule state 0)
    (fun _ => mret 0).
End Recovery.
