(* ===== verification/YardFacts.v ===== *)
(** The operations on the state file lose track of no process. *)

From stdpp Require Import base tactics list strings.
From Stdlib Require Import ZArith Lia Ascii.
From S2P Require Import Prelude PyStr Json Registry Sps SpsWire SpsClient SpsConfig ToolyardConfig Process ProcessFacts Runner RunnerFacts StartFacts Yard Recovery.

(** ** Accounting for processes

    [kept base old K k]: after the events [base], every process that was spawned
    is named by a record of [K] or has vanished since, and every child that a
    record of [old] named still has an heir in [K] or a receipt. *)

(** [r] stands for [r0]: the same children at the same boot. *)
Definition heir (r0 r : running_tool) : Prop := children r = children r0 /\ rn_boot_id r = rn_boot_id r0.

Definition settled_child (r0 : running_tool) (what : child) (p : string) (b : option (option string)) (l : list event) : Prop :=
  exited_field what r0 = true \/ receipt r0 p b l.

(** The processes of [l] are named by [K]. *)
Definition new_kept (K : running_tool -> Prop) (b : option (option string)) (l : list event) : Prop :=
  forall what pid post, after what pid l post -> vanished pid post \/
    exists r, K r /\ b = Some (rn_boot_id r) /\ 0 <= pid /\ names r what pid /\ (exited_field what r = true -> vanished pid post).

(** The children of [old] have heirs. *)
Definition old_kept (old K : running_tool -> Prop) (b : option (option string)) (l : list event) : Prop :=
  forall r0 what p, old r0 -> In (what, Some p) (children r0) -> settled_child r0 what p b l \/
    exists r, K r /\ heir r0 r /\ (exited_field what r = true -> settled_child r0 what p b l).

Definition no_spawn {N} (k k' : kernel N) : Prop :=
  exists l, k_log k' = k_log k ++ l /\ boot_le (k_boot k) (k_boot k') /\ nospawn l.

Section Kept.
Context {N : Type} (base : list event) (old : running_tool -> Prop).
Implicit Types (k : kernel N) (r : running_tool) (K : running_tool -> Prop).

Definition kept K k : Prop := exists l, k_log k = base ++ l /\ new_kept K (k_boot k) l /\ old_kept old K (k_boot k) l.

Definition or_ K r : running_tool -> Prop := fun x => K x \/ x = r.

Lemma settled_more r0 what p a b l1 l2 : boot_le a b -> settled_child r0 what p a l1 -> settled_child r0 what p b (l1 ++ l2).
Proof. intros Hb [|]; [by left | right; by eapply receipt_more]. Qed.

Lemma new_more K a b l1 l2 : boot_le a b -> nospawn l2 -> new_kept K a l1 -> new_kept K b (l1 ++ l2).
Proof.
  intros Hb Hs Hn what pid post (p1 & Ha & ->)%after_quiet; [|done].
  destruct (Hn _ _ _ Ha) as [|(r & Hr & -> & Hp & Hnm & Hx)]; [left; apply vanished_app; by left | right].
  apply boot_le_some in Hb as ->. exists r. do 4 (split; [done |]). intros E. apply vanished_app. left. auto.
Qed.

Lemma old_more K a b l1 l2 : boot_le a b -> old_kept old K a l1 -> old_kept old K b (l1 ++ l2).
Proof.
  intros Hb Ho r0 what p H0 Hin. destruct (Ho _ _ _ H0 Hin) as [|(r & Hr & Hh & Hx)]; [left; by eapply settled_more | right].
  exists r. do 2 (split; [done |]). intros E. eapply settled_more; [exact Hb | auto].
Qed.

Lemma kept_more K k k' : kept K k -> no_spawn k k' -> kept K k'.
Proof.
  intros (l & L & Hn & Ho) (l2 & L2 & B2 & S2). exists (l ++ l2). rewrite L2, L, <- (assoc_L (++)). split; [done |].
  split; [by eapply new_more | by eapply old_more].
Qed.

Lemma kept_mono K K' k : (forall r, K r -> K' r) -> kept K k -> kept K' k.
Proof.
  intros HK (l & L & Hn & Ho). exists l. split; [done |]. split.
  - intros what pid post Ha. destruct (Hn _ _ _ Ha) as [|(r & Hr & ?)]; [by left | right; exists r; auto].
  - intros r0 what p H0 Hin. destruct (Ho _ _ _ H0 Hin) as [|(r & Hr & ?)]; [by left | right; exists r; auto].
Qed.

(** A record whose children have all exited can be dropped. *)
Lemma kept_drop K r k : (forall c p, In (c, Some p) (children r) -> exited_field c r = true) -> kept (or_ K r) k -> kept K k.
Proof.
  intros Hall (l & L & Hn & Ho). exists l. split; [done |]. split.
  - intros what pid post Ha. destruct (Hn _ _ _ Ha) as [|(r' & [Hr| ->] & Hb & Hp & Hnm & Hx)]; [by left | right; exists r'; auto |].
    left. apply Hx. by eapply Hall.
  - intros r0 what p H0 Hin. destruct (Ho _ _ _ H0 Hin) as [|(r' & [Hr| ->] & Hh & Hx)]; [by left | right; exists r'; auto |].
    left. apply Hx. eapply Hall. rewrite (proj1 Hh). exact Hin.
Qed.

(** A record that took over another one's children. *)
Lemma kept_edit K r r' k : heir r r' -> (forall c, exited_field c r' = exited_field c r) -> kept (or_ K r) k -> kept (or_ K r') k.
Proof.
  intros [Hc Hb] Hx (l & L & Hn & Ho). exists l. split; [done |]. split.
  - intros what pid post Ha. destruct (Hn _ _ _ Ha) as [|(r1 & [Hr| ->] & Hb1 & Hp & Hnm & Hx1)]; [by left | right; exists r1; split; [by left | done] |].
    right. exists r'. split; [by right |]. rewrite Hb. do 2 (split; [done |]). unfold names. rewrite Hc, Hx. done.
  - intros r0 what p H0 Hin. destruct (Ho _ _ _ H0 Hin) as [|(r1 & [Hr| ->] & [Hh1 Hh2] & Hx1)]; [by left | right; exists r1; split; [by left | done] |].
    right. exists r'. split; [by right |]. rewrite Hx. split; [split; congruence | done].
Qed.

Lemma receipt_boot r0 r p b l : rn_boot_id r = rn_boot_id r0 -> receipt r p b l -> receipt r0 p b l.
Proof. unfold receipt. by intros ->. Qed.

Lemma core_heir r r' : core r' = core r -> heir r r'.
Proof. intros Hc. split; [by apply core_children | by apply core_boot]. Qed.

End Kept.

Section Runs.
Context {N : Type} `{Launcher N} `{Channel N} `{Utf8} (base : list event) (old : running_tool -> Prop).
Implicit Types (k : kernel N) (r : running_tool) (K : running_tool -> Prop).

#[local] Notation kept := (kept base old).
#[local] Notation does := (@ProcessFacts.does N _).

Lemma no_spawn_of k k' : reach none_spawned k k' -> no_spawn k k'.
Proof. intros (l & ? & ? & Hs). exists l. do 2 (split; [done |]). exact (nospawn_ok _ _ Hs). Qed.

Lemma kept_quiet {A} K (m : Process.PM A) k o k' : does none_spawned m -> m k = (o, k') -> kept K k -> kept K k'.
Proof. intros Hd E Hk. eapply kept_more; [exact Hk |]. apply no_spawn_of. specialize (Hd k). by rewrite E in Hd. Qed.

(** A clean-up exchanges a record for the one it leaves. *)
Lemma kept_settled K r r' k k' : no_spawn k k' -> settled r r' k k' -> kept (or_ K r) k -> kept (or_ K r') k'.
Proof.
  intros (l2 & L2 & B2 & S2) (Hc & _ & l2' & L2' & _ & Hx) (l & L & Hn & Ho). rewrite L2' in L2. apply app_inv_head in L2 as ->.
  exists (l ++ l2). rewrite L2', L, <- (assoc_L (++)). split; [done |]. apply core_heir in Hc as Hh. destruct Hh as [Hch Hbt]. split.
  - intros what pid post (p1 & Ha & ->)%after_quiet; [|done].
    destruct (Hn _ _ _ Ha) as [|(r1 & Hr & Hb & Hp & Hnm & Hx1)]; [left; apply vanished_app; by left | right].
    destruct Hr as [Hr| ->].
    + exists r1. split; [by left |]. rewrite Hb in B2. split; [by apply boot_le_some |]. do 2 (split; [done |]).
      intros E. apply vanished_app. left. auto.
    + exists r'. split; [by right |]. rewrite Hb in B2. rewrite Hbt. split; [by apply boot_le_some |]. split; [done |].
      split; [unfold names; by rewrite Hch |]. intros E. apply vanished_app. destruct (Hx _ E) as [Hx0|(p & Hin & Hr)]; [left; auto | right].
      by eapply receipt_vanished.
  - intros r0 what p Hr0 Hin. destruct (Ho _ _ _ Hr0 Hin) as [|(r1 & Hr & Hh & Hx1)]; [left; by eapply settled_more | right].
    destruct Hr as [Hr| ->].
    + exists r1. split; [by left |]. split; [done |]. intros E. eapply settled_more; [exact B2 | auto].
    + exists r'. split; [by right |]. destruct Hh as [Hh1 Hh2]. split; [split; congruence |]. intros E.
      destruct (Hx _ E) as [Hx0|(q & Hq & Hr)]; [eapply settled_more; [exact B2 | auto] |]. right. apply receipt_app.
      assert (q = p) as ->.
      { rewrite Hh1 in Hq. apply children_field in Hq as [Hq _]. apply children_field in Hin as [Hin _]. congruence. }
      by eapply receipt_boot.
Qed.

(** A start adds the record it returns, or the one its error carries. *)
Lemma kept_start K fuel rn tool k : kept K k ->
  match runner_start fuel rn tool k with
  | (Done r, k') => kept (or_ K r) k'
  | (Throw e, k') => match carried e with Some r => kept (or_ K r) k' | None => kept K k' end
  | (Diverge, _) => True
  end.
Proof.
  intros (l & L & Hn & Ho). destruct (runner_start_accounts fuel rn tool k) as (l2 & b0 & L2 & B2 & He).
  destruct (runner_start fuel rn tool k) as [o k']. cbn [fst snd] in *.
  assert (forall K', (forall x, K x -> K' x) ->
    (forall what pid post, after what pid l2 post -> vanished pid post \/
       exists r, K' r /\ k_boot k' = Some (rn_boot_id r) /\ 0 <= pid /\ names r what pid /\ (exited_field what r = true -> vanished pid post)) -> kept K' k') as Hgo.
  { intros K' HK Hl. exists (l ++ l2). rewrite L2, L, <- (assoc_L (++)). split; [done |]. split.
    - intros what pid post [(p1 & Ha & ->)|Ha]%after_app; [|by apply Hl].
      destruct (Hn _ _ _ Ha) as [|(r & Hr & Hb & Hp & Hnm & Hx)]; [left; apply vanished_app; by left | right].
      exists r. rewrite Hb in B2. apply boot_le_some in B2. split; [auto |]. do 3 (split; [done |]). intros E. apply vanished_app. left. auto.
    - intros r0 what p Hr0 Hin. destruct (Ho _ _ _ Hr0 Hin) as [|(r & Hr & Hh & Hx)]; [left; by eapply settled_more | right].
      exists r. split; [auto |]. split; [done |]. intros E. eapply settled_more; [exact B2 | auto]. }
  assert (forall r, tracked b0 r (k_boot k') l2 -> kept (or_ K r) k') as Ht.
  { intros r [H1' H2' H3' H4']. apply Hgo; [by left |]. intros what pid post Ha. right. exists r. split; [by right |].
    rewrite H2', H1'. split; [done |]. destruct (H3' _ _ _ Ha). do 2 (split; [done |]). by eapply H4'. }
  destruct o as [r | e |]; [by apply Ht | | done]. destruct He as [(r & -> & Hr) | Hg]; [by apply Ht |].
  destruct (carried e) as [r|]; (apply Hgo; [by try left | intros what pid post Ha; left; by eapply Hg]).
Qed.

(** ** Stopping *)

Lemma unregister_caught' (id path : string) k : exists k',
  catch (_sps_unregister id path) (fun e => if is_exception e then mret tt else throw e) k = (Done tt, k') /\ no_spawn k k'.
Proof.
  destruct (unregister_caught id path k) as [k' E]. exists k'. split; [done |]. apply no_spawn_of.
  pose proof (unregister_quietly (fun _ _ => False) id path k) as Hd. by rewrite E in Hd.
Qed.

Lemma cleanup_no_spawn fuel r k : no_spawn k (_cleanup_partial_start fuel r k).2.
Proof. apply no_spawn_of, cleanup_spawns. Qed.

Lemma kept_cleanup K fuel r k : kept (or_ K r) k ->
  match _cleanup_partial_start fuel r k with
  | (Done r', k') => kept (or_ K r') k' /\ forall c p, In (c, Some p) (children r') -> exited_field c r' = true
  | (Throw e, k') => exists r', e = RCleanup r' /\ kept (or_ K r') k'
  | (Diverge, _) => True
  end.
Proof.
  intros Hk. pose proof (cleanup_settles fuel r k) as Hs. pose proof (cleanup_no_spawn fuel r k) as Hn.
  destruct (_cleanup_partial_start fuel r k) as [[r' | e |] k']; cbn [snd] in Hn; [| |done].
  - destruct Hs as [Hs Ha]. split; [by eapply kept_settled |]. intros c p. destruct Hs as [Hc _].
    rewrite (core_children _ _ Hc). apply Ha.
  - destruct Hs as (r' & -> & Hs & _). exists r'. split; [done |]. by eapply kept_settled.
Qed.

(** What a stop leaves: no record, or one. *)
Definition stop_post K r (x : outcome unit * kernel N) : Prop :=
  match x.1 with
  | Done _ => kept K x.2
  | Throw e => kept (or_ K r) x.2 /\ match e with RCleanup r' => kept (or_ K r') x.2 | RConfigError => True | _ => False end
  | Diverge => True
  end.

Lemma kept_process_stop K fuel r k : kept (or_ K r) k -> stop_post K r (process_stop fuel r k).
Proof.
  intros Hk. unfold process_stop, finally, mbind, M_bind. pose proof (kept_cleanup K fuel r k Hk) as Hc.
  pose proof (cleanup_no_spawn fuel r k) as Hn. destruct (_cleanup_partial_start fuel r k) as [[r' | e |] k1]; cbn [snd] in Hn; [| |done].
  all: set (fin := if truthy_id _ then _ else _).
  all: assert (exists k2, fin k1 = (Done tt, k2) /\ no_spawn k1 k2) as (k2 & E2 & Hn2)
    by (subst fin; destruct (truthy_id _); [apply unregister_caught' | exists k1; split; [done | apply no_spawn_of, reach_refl]]).
  - cbn [mret M_ret]. rewrite E2. cbn. destruct Hc as [Hc Ha]. eapply kept_more; [|exact Hn2]. by eapply kept_drop.
  - rewrite E2. destruct Hc as (r' & -> & Hc). cbn. split; [|by eapply kept_more]. eapply kept_more; [|exact Hn2]. by eapply kept_more.
Qed.

Lemma kept_docker_stop K fuel r k : kept (or_ K r) k -> stop_post K r (docker_stop fuel r k).
Proof.
  intros Hk. unfold docker_stop, mbind, M_bind, catch. pose proof (kept_cleanup K fuel r k Hk) as Hc.
  pose proof (cleanup_no_spawn fuel r k) as Hn. destruct (_cleanup_partial_start fuel r k) as [[r' | e |] k1]; cbn [snd] in Hn; [| |done].
  1: destruct Hc as [Hc Ha].
  2: destruct Hc as (r' & -> & Hc).
  all: cbn [mret M_ret fst snd]; unfold docker_run, mbind, M_bind, quiet; cbn [k_os].
  all: match goal with |- context [os_docker ?n ?a] => destruct (os_docker n a) as [[code out | |] n1] end; cbn [mret M_ret throw].
  all: try (unfold throw_if; destruct (negb (code =? 0))); cbn.
  all: assert (no_spawn k1 (Kernel n1 (k_boot k1) (k_log k1))) as Hn1
    by (exists []; rewrite app_nil_r; split; [done |]; split; [apply boot_le_refl | intros what req pid []]).
  all: first [split; [eapply kept_more; [|exact Hn1]; by eapply kept_more | by eapply kept_more] | eapply kept_more; [|exact Hn1]; by eapply kept_drop].
Qed.

Lemma kept_stop K fuel rn r k : kept (or_ K r) k -> stop_post K r (runner_stop fuel rn r k).
Proof. intros Hk. destruct rn; cbn [runner_stop]; [by apply kept_process_stop.. | by apply kept_docker_stop | by split]. Qed.

Lemma runner_does name : does none_spawned (get_runner name).
Proof.
  unfold get_runner. destruct (String.eqb _ _); [apply does_ret |]. destruct (String.eqb _ _); [apply does_ret |].
  apply does_bind; [|intros b; destruct (String.eqb _ _); [apply does_ret |]; destruct (String.eqb _ _); [apply does_ret | apply does_throw]].
  destruct (String.eqb _ _); [|apply does_ret]. unfold native_backend. destruct platform; [apply does_ret.. | apply does_throw].
Qed.

Lemma alive_does rn r : does none_spawned (runner_alive rn r).
Proof.
  destruct rn; cbn [runner_alive].
  - apply does_bind; [apply does_is_alive, spawns_observes | intros; apply does_ret].
  - apply does_bind; [apply does_is_alive, spawns_observes | intros; apply does_ret].
  - apply does_bind; [apply docker_run_does | intros; apply does_ret].
  - apply does_bind; [apply does_quiet | intros; apply does_ret].
Qed.
End Runs.

(** ** Triples over the state file *)

Section Triples.
Context {N : Type} `{StateDir N} `{Channel N} `{Utf8} `{Manifests}.
Implicit Types (w : yard N) (P : yard N -> Prop).

#[local] Notation YM := (@Yard.YM N).

(** What was seen before a file was replaced: every directory on its path is
    one, no link, and the last is private; the file is missing or private. *)
Definition safe_target (p : string) (l : list file_event) : Prop :=
  (forall q, In q (ancestors (absolute cwd p)) -> exists i, In (FLstat q (Stat i)) l /\ st_kind i = NDirectory)
  /\ (exists i, In (FLstat (parent (absolute cwd p)) (Stat i)) l /\ st_uid i = euid /\ private_mode i = true)
  /\ (In (FLstat p NotFound) l \/ exists i, In (FLstat p (Stat i)) l /\ private_file i = true).

Definition guarded (l : list file_event) : Prop := forall pre p a post, l = pre ++ FPublish p a :: post -> safe_target p pre.

Lemma safe_more p l l' : incl l l' -> safe_target p l -> safe_target p l'.
Proof.
  intros Hi (Hd & (i & Hin & Hp) & Hf). split; [|split].
  - intros q Hq. destruct (Hd q Hq) as (j & ? & ?). exists j. auto.
  - exists i. auto.
  - destruct Hf as [|(j & ? & ?)]; [left; auto | right; exists j; auto].
Qed.

Lemma guarded_nil : guarded [].
Proof. by intros []. Qed.
Lemma guarded_one e : (forall p a, e <> FPublish p a) -> guarded [e].
Proof. intros He [|e' pre] p a post E; [injection E as -> _; by destruct (He p a) | by destruct pre]. Qed.
Lemma guarded_app l1 l2 : guarded l1 -> guarded l2 -> guarded (l1 ++ l2).
Proof.
  intros G1 G2 pre p a post E. apply app_eq_app in E as (l & [[-> E2] | [-> E2]]).
  - destruct l as [|e l]; cbn in E2.
    + eapply safe_more; [|by eapply (G2 [])]. by intros ? [].
    + injection E2 as <- E2. by eapply G1.
  - eapply safe_more; [|by eapply G2]. intros x Hx. apply in_app_iff. by right.
Qed.

Lemma guarded_snoc l p a : guarded l -> safe_target p l -> guarded (l ++ [FPublish p a]).
Proof.
  intros G Hs pre q b post E. apply app_eq_app in E as (l' & [[E3 E4] | [-> E4]]).
  - destruct l' as [|ev l']; cbn in E4; [|injection E4 as <- _; by eapply G].
    injection E4 as -> -> _. rewrite app_nil_r in E3. by subst.
  - destruct l' as [|ev l']; cbn in E4; [|by destruct l']. injection E4 as -> -> _. by rewrite app_nil_r.
Qed.

(** The log of the file system only grows, and every replacement in it was
    preceded by the checks. *)
Definition grows {A} (m : YM A) : Prop := forall w, exists l, y_events (m w).2 = y_events w ++ l /\ guarded l.

Lemma grows_same {A} (m : YM A) : (forall w, y_events (m w).2 = y_events w) -> grows m.
Proof. intros Hm w. exists []. rewrite app_nil_r. split; [done | apply guarded_nil]. Qed.
Lemma grows_ret {A} (a : A) : grows (mret a).
Proof. by apply grows_same. Qed.
Lemma grows_throw {A} e : grows (throw e : YM A).
Proof. by apply grows_same. Qed.

Lemma grown_trans w w1 w2 l1 : y_events w1 = y_events w ++ l1 -> guarded l1 -> (exists l, y_events w2 = y_events w1 ++ l /\ guarded l) ->
  exists l, y_events w2 = y_events w ++ l /\ guarded l.
Proof. intros E1 G1 (l2 & -> & G2). exists (l1 ++ l2). rewrite E1, (assoc_L (++)). split; [done | by apply guarded_app]. Qed.

Lemma grows_bind {A B} (m : YM A) (f : A -> YM B) : grows m -> (forall a, grows (f a)) -> grows (m ≫= f).
Proof.
  intros Hm Hf w. unfold mbind, M_bind. specialize (Hm w). destruct (m w) as [[a | e |] w1]; [|done..].
  destruct Hm as (l1 & E1 & G1). eapply grown_trans; [exact E1 | exact G1 | apply Hf].
Qed.
Lemma grows_catch {A} (m : YM A) h : grows m -> (forall e, grows (h e)) -> grows (catch m h).
Proof.
  intros Hm Hh w. unfold catch. specialize (Hm w). destruct (m w) as [[a | e |] w1]; [done | | done].
  destruct Hm as (l1 & E1 & G1). eapply grown_trans; [exact E1 | exact G1 | apply Hh].
Qed.
Lemma grows_sys {A} (m : Process.PM A) : grows (sys m).
Proof. apply grows_same. intros w. unfold sys. by destruct (m (y_kernel w)). Qed.
Lemma grows_fs {A} (f : N -> A * N) ev : (forall a p b, ev a <> FPublish p b) -> grows (fs f ev).
Proof. intros He w. unfold fs. destruct (f _) as [a n]. exists [ev a]. split; [done | by apply guarded_one]. Qed.
Lemma grows_rmtree f p : grows (fs f (FRmtree p)).
Proof. by apply grows_fs. Qed.
Lemma grows_lstat p : grows (lstat (N:=N) p).
Proof. by apply grows_fs. Qed.
Lemma grows_res {A} (x : res A) : grows (of_res x).
Proof. destruct x; [apply grows_ret | apply grows_throw]. Qed.
Lemma grows_saved m : grows m -> grows (saved m).
Proof.
  intros Hm w. unfold saved. specialize (Hm w). destruct (m w) as [[a | e |] w1]; destruct Hm as (l & E & G); cbn in *.
  all: eexists; rewrite E, <- (assoc_L (++)); split; [reflexivity | apply guarded_app; [exact G | by apply guarded_one]].
Qed.
Lemma grows_surfaced {A} (m : YM A) : grows m -> grows (surfaced m).
Proof. intros Hm w. unfold surfaced. specialize (Hm w). by destruct (m w) as [[a | e |] w1]. Qed.
Lemma grows_fold {A B} (f : A -> B -> YM A) l : (forall a b, grows (f a b)) -> forall a, grows (foldY f a l).
Proof. intros Hf. induction l as [|b l IH]; intros a; [apply grows_ret |]. by apply grows_bind. Qed.
(** Growth alone. *)
Definition extends {A} (m : YM A) : Prop := forall w, exists l, y_events (m w).2 = y_events w ++ l.

Lemma grows_extends {A} (m : YM A) : grows m -> extends m.
Proof. intros Hm w. destruct (Hm w) as (l & L & _). by exists l. Qed.
Lemma extends_fs {A B} (f : N -> A * N) ev (g : A -> YM B) : (forall a, extends (g a)) -> extends (fs f ev ≫= g).
Proof.
  intros Hg w. unfold mbind, M_bind, fs. destruct (f _) as [a n]. set (w1 := Yard _ _ _ _ _). destruct (Hg a w1) as (l & ->).
  exists ([ev a] ++ l). cbn. by rewrite <- (assoc_L (++)).
Qed.
Lemma extends_bind {A B} (m : YM A) (f : A -> YM B) : extends m -> (forall a, extends (f a)) -> extends (m ≫= f).
Proof.
  intros Hm Hf w. unfold mbind, M_bind. specialize (Hm w). destruct (m w) as [[a | e |] w1]; [|done..].
  destruct Hm as (l1 & E1), (Hf a w1) as (l2 & ->). exists (l1 ++ l2). cbn in E1. by rewrite E1, (assoc_L (++)).
Qed.

Lemma grows_get : grows get_state.
Proof. by apply grows_same. Qed.
Lemma grows_put s : grows (put_state s).
Proof. by apply grows_same. Qed.
Lemma grows_channels v : grows (put_channels v).
Proof. by apply grows_same. Qed.
End Triples.

Create HintDb growth discriminated.
#[export] Hint Resolve grows_ret grows_throw grows_sys grows_rmtree grows_lstat grows_res grows_get grows_put grows_channels : growth.

Ltac growth_step :=
  match goal with
  | |- grows (_ ≫= _) => apply grows_bind; [|intros ?]
  | |- grows (catch _ _) => apply grows_catch; [|intros ?]
  | |- grows (except_exception _ _) => apply grows_catch; [|intros ?]
  | |- grows (saved _) => apply grows_saved
  | |- grows (surfaced _) => apply grows_surfaced
  | |- grows (foldY _ _ _) => apply grows_fold; intros ? ?
  | |- grows (if ?b then _ else _) => destruct b
  | |- grows (match ?x with _ => _ end) => destruct x
  | |- grows (let '(_, _) := ?x in _) => destruct x
  end.
Ltac growth := repeat first [solve [auto 2 with growth] | growth_step | progress cbv zeta].

Section Growth.
Context {N : Type} `{StateDir N} `{Channel N} `{Utf8} `{Manifests}.

#[local] Notation YM := (@Yard.YM N).

Lemma grows_throw_if b e : grows (throw_if b e : YM unit).
Proof. unfold throw_if. growth. Qed.
Hint Resolve grows_throw_if : growth.
Lemma grows_ancestors l : grows (check_ancestors (N:=N) l).
Proof. induction l as [|p l IH]; cbn [check_ancestors]; [growth |]. unfold check_ancestor. growth. Qed.
Hint Resolve grows_ancestors : growth.
Lemma grows_parent p : grows (_private_parent (N:=N) p).
Proof. unfold _private_parent. growth. Qed.
Lemma grows_validate p : grows (_validate_file (N:=N) p).
Proof. unfold _validate_file. growth. Qed.
Hint Resolve grows_parent grows_validate : growth.
Lemma grows_load : grows (_load_state (N:=N)).
Proof. unfold _load_state. growth. Qed.

(** What a check has seen when it returns. *)
Definition sees {A} (m : YM A) (S : list file_event -> Prop) : Prop :=
  forall w a w', m w = (Done a, w') -> exists l, y_events w' = y_events w ++ l /\ guarded l /\ S l.

Lemma lstat_answers p w : exists a w', lstat p w = (Done a, w') /\ y_events w' = y_events w ++ [FLstat p a].
Proof. unfold lstat, fs. destruct (os_lstat _ p) as [a n]. by eexists _, _. Qed.

Lemma one_lstat p a : guarded [FLstat p a].
Proof. by apply guarded_one. Qed.

Lemma throw_if_done b e (w : yard N) u w' : (throw_if b e : YM unit) w = (Done u, w') -> b = false /\ w' = w.
Proof. destruct b; [done |]. by intros [= <- <-]. Qed.

Lemma ancestor_sees p : sees (check_ancestor p) (fun l => exists i, In (FLstat p (Stat i)) l /\ st_kind i = NDirectory).
Proof.
  intros w u w' E. unfold check_ancestor in E. unfold mbind at 1, M_bind in E.
  destruct (lstat_answers p w) as (a & w1 & E1 & L1). rewrite E1 in E. destruct a as [i | |]; [| | done].
  - cbn in E. apply throw_if_done in E as [Hk ->]. exists [FLstat p (Stat i)]. split; [done |]. split; [apply one_lstat |].
    exists i. split; [by left | by case_bool_decide].
  - unfold mbind, M_bind in E. cbn in E. destruct (sys _ w1) as [[u1 | e |] w2] eqn:E2; [|done..].
    pose proof (grows_sys (os_call (fun n => os_mkdir n p)) w1) as (l2 & L2 & G2). rewrite E2 in L2. cbn in L2.
    destruct (lstat_answers p w2) as (a & w3 & E3 & L3). rewrite E3 in E. destruct a as [i | |]; [|done..].
    cbn in E. apply throw_if_done in E as [Hk ->]. exists ([FLstat p NotFound] ++ l2 ++ [FLstat p (Stat i)]).
    rewrite L3, L2, L1, <- !(assoc_L (++)). split; [done |]. split; [repeat apply guarded_app; [apply one_lstat | done | apply one_lstat] |].
    exists i. split; [rewrite !in_app_iff; right; right; by left | by case_bool_decide].
Qed.

Lemma ancestors_see l : sees (check_ancestors l) (fun ev => forall q, In q l -> exists i, In (FLstat q (Stat i)) ev /\ st_kind i = NDirectory).
Proof.
  induction l as [|p l IH]; intros w u w' E; cbn [check_ancestors] in E.
  - injection E as <- <-. exists []. rewrite app_nil_r. split; [done |]. split; [apply guarded_nil | by intros q []].
  - unfold mbind, M_bind in E. destruct (check_ancestor p w) as [[u1 | e |] w1] eqn:E1; [|done..].
    apply ancestor_sees in E1 as (l1 & L1 & G1 & i & Hi & Hk). apply IH in E as (l2 & L2 & G2 & Hq).
    exists (l1 ++ l2). rewrite L2, L1, (assoc_L (++)). split; [done |]. split; [by apply guarded_app |].
    intros q [<-|Hin]; [exists i; rewrite in_app_iff; auto |]. destruct (Hq q Hin) as (j & ? & ?). exists j. rewrite in_app_iff. auto.
Qed.

Lemma parent_sees p : sees (_private_parent p) (fun l =>
  (forall q, In q (ancestors (absolute cwd p)) -> exists i, In (FLstat q (Stat i)) l /\ st_kind i = NDirectory)
  /\ exists i, In (FLstat (parent (absolute cwd p)) (Stat i)) l /\ st_uid i = euid /\ private_mode i = true).
Proof.
  intros w u w' E. unfold _private_parent, mbind, M_bind in E. destruct (check_ancestors _ w) as [[u1 | e |] w1] eqn:E1; [|done..].
  apply ancestors_see in E1 as (l1 & L1 & G1 & Hq). destruct (lstat_answers (parent (absolute cwd p)) w1) as (a & w2 & E2 & L2).
  rewrite E2 in E. destruct a as [i | |]; [|done..]. apply throw_if_done in E as [Hb ->]. apply orb_false_iff in Hb as [Hu Hm].
  exists (l1 ++ [FLstat (parent (absolute cwd p)) (Stat i)]). rewrite L2, L1, (assoc_L (++)). split; [done |].
  split; [apply guarded_app; [done | apply one_lstat] |]. split.
  - intros q Hin. destruct (Hq q Hin) as (j & ? & ?). exists j. rewrite in_app_iff. auto.
  - exists i. rewrite in_app_iff. split; [right; by left |]. apply negb_false_iff in Hu, Hm. by apply Z.eqb_eq in Hu.
Qed.

Lemma validate_sees p : sees (_validate_file p) (fun l => In (FLstat p NotFound) l \/ exists i, In (FLstat p (Stat i)) l /\ private_file i = true).
Proof.
  intros w u w' E. unfold _validate_file, mbind, M_bind in E. destruct (lstat_answers p w) as (a & w1 & E1 & L1). rewrite E1 in E.
  destruct a as [i | |]; [|injection E as <- <-; exists [FLstat p NotFound]; split; [done |]; split; [apply one_lstat | left; by left] | done].
  apply throw_if_done in E as [Hb ->]. exists [FLstat p (Stat i)]. split; [done |]. split; [apply one_lstat |]. right. exists i.
  split; [by left | by apply negb_false_iff].
Qed.

Lemma grows_atomic p (m : YM unit) : grows m -> grows (_atomic_private_json p m).
Proof.
  intros Hm w. unfold _atomic_private_json, mbind, M_bind. pose proof (grows_parent p w) as Gp.
  destruct (_private_parent p w) as [[u1 | e |] w1] eqn:E1; [|done..]. apply parent_sees in E1 as (l1 & L1 & G1 & Hd & Hp). clear Gp.
  pose proof (grows_validate p w1) as Gv. destruct (_validate_file p w1) as [[u2 | e |] w2] eqn:E2; [|by eapply grown_trans..]. clear Gv.
  apply validate_sees in E2 as (l2 & L2 & G2 & Hf). unfold fs. destruct (os_publish _ p) as [a n]. set (w3 := Yard _ _ _ _ _).
  assert (guarded ((l1 ++ l2) ++ [FPublish p a])) as G3.
  { apply guarded_snoc; [by apply guarded_app |]. split; [|split].
    - intros r Hr. destruct (Hd r Hr) as (i & ? & ?). exists i. rewrite in_app_iff. auto.
    - destruct Hp as (i & ? & ?). exists i. rewrite in_app_iff. auto.
    - destruct Hf as [|(i & ? & ?)]; [left; rewrite in_app_iff; auto | right; exists i; rewrite in_app_iff; auto]. }
  assert (y_events w3 = y_events w ++ (l1 ++ l2) ++ [FPublish p a]) as L3 by (cbn; by rewrite L2, L1, <- !(assoc_L (++))).
  destruct a; [by eapply grown_trans | by eexists | by eexists].
Qed.
Hint Resolve grows_load grows_atomic : growth.
Lemma grows_save s : grows (_save_state (N:=N) s).
Proof. unfold _save_state. growth. Qed.
Hint Resolve grows_save : growth.
Lemma grows_lock {A} (m : YM A) : grows m -> grows (state_lock m).
Proof. intros Hm. unfold state_lock. growth. Qed.
Lemma grows_stop_recorded fuel id r rn s : grows (stop_recorded (N:=N) fuel id r rn s).
Proof. unfold stop_recorded. growth. Qed.
Hint Resolve grows_stop_recorded : growth.
Lemma grows_clear fuel id s : grows (clear_dead (N:=N) fuel id s).
Proof. unfold clear_dead. growth. Qed.
Hint Resolve grows_clear : growth.
Lemma grows_discovered root : grows (discovered (N:=N) root).
Proof. unfold discovered. growth. Qed.
Hint Resolve grows_discovered : growth.
Lemma grows_up_one fuel rn defs s id : grows (up_one (N:=N) fuel rn defs s id).
Proof. unfold up_one. growth. Qed.
Lemma grows_down_one fuel s id : grows (down_one (N:=N) fuel s id).
Proof. unfold down_one. growth. Qed.
Hint Resolve grows_up_one grows_down_one : growth.
Lemma grows_rollback fuel s id r rn : grows (_record_or_rollback (N:=N) fuel s id r rn).
Proof. unfold _record_or_rollback. growth. Qed.
Lemma grows_defs root dirs : grows (_all_defs (N:=N) root dirs).
Proof. unfold _all_defs. growth. Qed.
Lemma grows_recovered d o : grows (recovered_def (N:=N) d o).
Proof. unfold recovered_def. growth. Qed.
Hint Resolve grows_rollback grows_defs grows_recovered : growth.
Lemma grows_start fuel id root dirs b rec : grows (_start (N:=N) fuel id root dirs b rec).
Proof. unfold _start. growth. Qed.
Lemma grows_stop fuel id : grows (_stop (N:=N) fuel id).
Proof. unfold _stop. growth. Qed.
Hint Resolve grows_start grows_stop : growth.
Lemma grows_reregister path s kv : grows (reregister_one (N:=N) path s kv).
Proof. unfold reregister_one. growth. Qed.
Hint Resolve grows_reregister : growth.
Lemma grows_op fuel op : grows (run_op (N:=N) fuel op).
Proof.
  destruct op; cbn [run_op]; unfold cmd_up, cmd_down, start, stop, restart, remove, record_edited_declarations, reregister_with_sps_results,
    _remove, _reregister_results; first [apply grows_bind; [|intros ?; apply grows_ret]; apply grows_lock | apply grows_lock]; growth.
Qed.
End Growth.

#[export] Hint Resolve grows_throw_if grows_ancestors grows_parent grows_validate grows_atomic grows_lock grows_load grows_save grows_stop_recorded grows_clear grows_discovered grows_up_one grows_down_one
  grows_rollback grows_defs grows_recovered grows_start grows_stop grows_reregister grows_op : growth.

Ltac growth ::= repeat first [apply grows_extends | solve [auto 2 with growth] | apply grows_lock | growth_step | progress cbv zeta].
