(* ===== verification/YardSafe.v ===== *)
(** Every operation on the state file, and every interleaving of them with the
    reconciler, accounts for the processes it started. *)

From stdpp Require Import base tactics list strings.
From Stdlib Require Import ZArith Lia Ascii.
From S2P Require Import Prelude PyStr Json Registry Sps SpsWire SpsClient SpsConfig ToolyardConfig Process ProcessFacts Runner RunnerFacts StartFacts Yard Recovery YardFacts.

(** What the state file and the exceptions raised so far name. *)
Definition kn (F : dict running_tool) (R : list running_tool) (r : running_tool) : Prop :=
  (exists id, dget F id = Some r) \/ In r R.

Lemma kn_mono F F' R r : (forall id r, dget F id = Some r -> exists id', dget F' id' = Some r) -> kn F R r -> kn F' R r.
Proof. intros Hf [(id & E)|]; [left; by eapply Hf | by right]. Qed.

Lemma kn_dset F R id r x : kn (dset F id r) R x -> or_ (kn (dpop F id) R) r x.
Proof.
  intros [(id' & E)|Hin]; [|left; by right]. rewrite dget_dset in E. destruct (decide (id = id')) as [->|Hne].
  - injection E as ->. by right.
  - left. left. exists id'. by rewrite dget_dpop, decide_False.
Qed.

Lemma kn_dset_inv F R id r x : or_ (kn (dpop F id) R) r x -> kn (dset F id r) R x.
Proof.
  intros [[(id' & E)|Hin]| ->]; [|by right | left; exists id; apply dget_dset_eq].
  rewrite dget_dpop in E. case_decide; [done |]. left. exists id'. by rewrite dget_dset_ne.
Qed.

Lemma kn_dpop F R id r x : dget F id = Some r -> kn F R x -> or_ (kn (dpop F id) R) r x.
Proof.
  intros E [(id' & E')|Hin]; [|left; by right]. destruct (decide (id = id')) as [->|Hne]; [right; congruence |].
  left. left. exists id'. by rewrite dget_dpop, decide_False.
Qed.

Lemma kn_pop_sub F R id x : kn (dpop F id) R x -> kn F R x.
Proof. intros [(id' & E)|]; [|by right]. rewrite dget_dpop in E. case_decide; [done |]. left. by exists id'. Qed.

Definition with_record (K : running_tool -> Prop) (o : option running_tool) : running_tool -> Prop :=
  match o with Some r => or_ K r | None => K end.

Section Safe.
Context {N : Type} `{StateDir N} `{Channel N} `{Utf8} `{Manifests}.
Context (base : list event) (old : running_tool -> Prop) (lost : file_event -> bool).
Implicit Types (w : yard N) (P : yard N -> Prop).

#[local] Notation YM := (@Yard.YM N).
#[local] Notation kept := (kept base old).
#[local] Notation does := (@ProcessFacts.does N _).

(** From [P], [m] returns in [Q] and raises in [E], unless something was
    lost. *)
Definition outcome_ok {A} (Q : A -> yard N -> Prop) (E : rexn -> yard N -> Prop) (x : outcome A * yard N) : Prop :=
  match x with (Done a, w') => Q a w' | (Throw e, w') => E e w' | (Diverge, _) => True end.

Definition tri {A} P (m : YM A) (Q : A -> yard N -> Prop) (E : rexn -> yard N -> Prop) : Prop :=
  forall w, P w -> exists l, y_events (m w).2 = y_events w ++ l /\ ((exists e, In e l /\ lost e = true) \/ outcome_ok Q E (m w)).

Lemma tri_now {A} P (m : YM A) Q E : (forall w, P w -> y_events (m w).2 = y_events w /\ outcome_ok Q E (m w)) -> tri P m Q E.
Proof. intros Hm w Hw. destruct (Hm w Hw) as [-> Ho]. exists []. rewrite app_nil_r. split; [done | by right]. Qed.
Lemma tri_ret {A} P (a : A) (Q : A -> yard N -> Prop) E : (forall w, P w -> Q a w) -> tri P (mret a) Q E.
Proof. intros Hq. apply tri_now. intros w Hw. split; [done | by apply Hq]. Qed.
Lemma tri_throw {A} P e (Q : A -> yard N -> Prop) (E : rexn -> yard N -> Prop) : (forall w, P w -> E e w) -> tri P (throw e) Q E.
Proof. intros He. apply tri_now. intros w Hw. split; [done | by apply He]. Qed.

Lemma tri_bind {A B} P (m : YM A) (f : A -> YM B) Q1 Q E :
  tri P m Q1 E -> (forall a, extends (f a)) -> (forall a, tri (Q1 a) (f a) Q E) -> tri P (m ≫= f) Q E.
Proof.
  intros Hm Hg Hf w Hw. unfold mbind, M_bind. destruct (Hm w Hw) as (l & L & Ho).
  destruct (m w) as [[a | e |] w1]; cbn [snd] in L; [| by exists l..].
  destruct Ho as [(ev & Hin & Hl)|Ho].
  - destruct (Hg a w1) as (l2 & L2). exists (l ++ l2). rewrite L2, L, (assoc_L (++)). split; [done |]. left. exists ev. by rewrite in_app_iff; auto.
  - destruct (Hf a w1 Ho) as (l2 & L2 & Ho2). exists (l ++ l2). rewrite L2, L, (assoc_L (++)). split; [done |].
    destruct Ho2 as [(ev & Hin & Hl)|]; [left; exists ev; rewrite in_app_iff; auto | by right].
Qed.

Lemma tri_catch {A} P (m : YM A) h (Q : A -> yard N -> Prop) E1 E :
  tri P m Q E1 -> (forall e, extends (h e)) -> (forall e, tri (E1 e) (h e) Q E) -> tri P (catch m h) Q E.
Proof.
  intros Hm Hg Hh w Hw. unfold catch. destruct (Hm w Hw) as (l & L & Ho).
  destruct (m w) as [[a | e |] w1]; cbn [snd] in L; [by exists l | | by exists l].
  destruct Ho as [(ev & Hin & Hl)|Ho].
  - destruct (Hg e w1) as (l2 & L2). exists (l ++ l2). rewrite L2, L, (assoc_L (++)). split; [done |]. left. exists ev. by rewrite in_app_iff; auto.
  - destruct (Hh e w1 Ho) as (l2 & L2 & Ho2). exists (l ++ l2). rewrite L2, L, (assoc_L (++)). split; [done |].
    destruct Ho2 as [(ev & Hin & Hl)|]; [left; exists ev; rewrite in_app_iff; auto | by right].
Qed.

Lemma tri_conseq {A} P P' (m : YM A) (Q Q' : A -> yard N -> Prop) (E E' : rexn -> yard N -> Prop) :
  (forall w, P' w -> P w) -> (forall a w, Q a w -> Q' a w) -> (forall e w, E e w -> E' e w) -> tri P m Q E -> tri P' m Q' E'.
Proof.
  intros Hp Hq He Hm w Hw. destruct (Hm w (Hp w Hw)) as (l & L & Ho). exists l. split; [done |]. destruct Ho as [|Ho]; [by left | right].
  destruct (m w) as [[a | e |] w1]; cbn in *; auto.
Qed.

Lemma tri_pre {A} P (m : YM A) Q E : (forall w, P w -> tri (eq w) m Q E) -> tri P m Q E.
Proof. intros Hm w Hw. by apply (Hm w Hw). Qed.

(** ** The state of an operation *)

(** The file, the records that were raised, and what is known of the
    machine. *)
Definition stk (Pk : kernel N -> Prop) (F : dict running_tool) (R : list running_tool) w : Prop :=
  y_state w = F /\ y_raised w = R /\ Pk (y_kernel w).
Definition stable (Pk : kernel N -> Prop) : Prop := forall k k', Pk k -> no_spawn k k' -> Pk k'.

Lemma kept_stable K : stable (kept K).
Proof. intros k k' Hk Hs. by eapply kept_more. Qed.
Lemma and_stable Pk Qk : stable Pk -> stable Qk -> stable (fun k => Pk k /\ Qk k).
Proof. intros Hp Hq k k' [? ?] Hs. split; [by eapply Hp | by eapply Hq]. Qed.

Section Steps.
Context (Pk : kernel N -> Prop) (Hst : stable Pk) (F : dict running_tool) (R : list running_tool).

Definition pure_exn (e : rexn) (w : yard N) : Prop := carried e = None /\ stk Pk F R w.

Lemma tri_sys {A} (m : Process.PM A) : does none_spawned m -> tri (stk Pk F R) (sys m) (fun _ => stk Pk F R) (fun _ => stk Pk F R).
Proof.
  intros Hd. apply tri_now. intros w (E1 & E2 & Hk). unfold sys. specialize (Hd (y_kernel w)).
  destruct (m (y_kernel w)) as [o k']. cbn [snd] in Hd. apply no_spawn_of in Hd. split; [done |].
  assert (Pk k') as Hk' by by eapply Hst. destruct o; by repeat split.
Qed.

Lemma tri_fs {A} (f : N -> A * N) ev : tri (stk Pk F R) (fs f ev) (fun _ => stk Pk F R) pure_exn.
Proof.
  intros w (E1 & E2 & Hk). unfold fs. destruct (f _) as [a n]. exists [ev a]. split; [done |]. right. cbn. split; [done |]. split; [done |].
  eapply Hst; [exact Hk |]. exists []. cbn. rewrite app_nil_r. split; [done |]. split; [apply boot_le_refl | by intros what req pid []].
Qed.

Lemma tri_res {A} (x : res A) : tri (stk Pk F R) (of_res x) (fun _ => stk Pk F R) pure_exn.
Proof.
  destruct x as [a|e]; [by apply tri_ret |]. apply tri_throw. intros w Hw. split; [|done].
  destruct e; try done. cbn. repeat case_match; done.
Qed.

Lemma tri_if (b : bool) e : carried e = None -> tri (stk Pk F R) (throw_if b e) (fun _ => stk Pk F R) pure_exn.
Proof. intros He. destruct b; [by apply tri_throw | by apply tri_ret]. Qed.

Lemma tri_call (f : N -> bool * N) : tri (stk Pk F R) (sys (os_call f)) (fun _ => stk Pk F R) pure_exn.
Proof.
  apply tri_now. intros w (E1 & E2 & Hk). unfold sys, os_call, mbind, M_bind, quiet. destruct (f _) as [b n].
  assert (Pk (Kernel n (k_boot (y_kernel w)) (k_log (y_kernel w)))) as Hk'.
  { eapply Hst; [exact Hk |]. exists []. cbn. rewrite app_nil_r. split; [done |]. split; [apply boot_le_refl | by intros what req pid []]. }
  destruct b; by repeat split.
Qed.

Lemma tri_ancestors l : tri (stk Pk F R) (check_ancestors l) (fun _ => stk Pk F R) pure_exn.
Proof.
  induction l as [|p l IH]; cbn [check_ancestors]; [by apply tri_ret |].
  apply tri_bind with (Q1 := fun _ => stk Pk F R); [|intros; growth | done].
  unfold check_ancestor. eapply tri_bind; [apply tri_fs | intros; growth |]. intros a.
  apply tri_bind with (Q1 := fun _ => stk Pk F R); [|intros; growth | intros; by apply tri_if].
  destruct a; [by apply tri_ret | | by apply tri_throw].
  eapply tri_bind; [apply tri_call | intros; growth |]. intros ?u.
  eapply tri_bind; [apply tri_fs | intros; growth |]. intros []; [by apply tri_ret | by apply tri_throw..].
Qed.

Lemma tri_parent p : tri (stk Pk F R) (_private_parent p) (fun _ => stk Pk F R) pure_exn.
Proof.
  eapply tri_bind; [apply tri_ancestors | intros; growth |]. intros ?u. eapply tri_bind; [apply tri_fs | intros; growth |].
  intros []; [by apply tri_if | by apply tri_throw..].
Qed.

Lemma tri_validate p : tri (stk Pk F R) (_validate_file p) (fun _ => stk Pk F R) pure_exn.
Proof.
  eapply tri_bind; [apply tri_fs | intros; growth |]. intros []; [by apply tri_if | by apply tri_ret | by apply tri_throw].
Qed.

Lemma tri_load : tri (stk Pk F R) _load_state (fun s w => s = F /\ stk Pk F R w) pure_exn.
Proof.
  eapply tri_bind; [apply tri_parent | intros; growth |]. intros ?u. eapply tri_bind; [apply tri_validate | intros; growth |]. intros ?u.
  apply tri_now. intros w Hw. split; [done |]. cbn. split; [apply Hw | done].
Qed.
End Steps.

(** A replacement of a file, by [commit]. *)
Lemma tri_atomic Pk F R F' p commit : stable Pk -> grows commit -> tri (stk Pk F R) commit (fun _ => stk Pk F' R) (pure_exn Pk F R) ->
  tri (stk Pk F R) (_atomic_private_json p commit) (fun _ => stk Pk F' R) (pure_exn Pk F R).
Proof.
  intros Hst Hg Hc. unfold _atomic_private_json.
  assert (extends (answer ← fs (fun n => os_publish n p) (FPublish p);
    match answer with Published => commit | Failed => throw ROSError | Interrupted => throw RInterrupt end)) as He.
  { apply extends_fs. intros a. destruct a; growth. }
  eapply tri_bind; [by apply tri_parent | intros; apply extends_bind; [growth | done] |]. intros ?u.
  eapply tri_bind; [by apply tri_validate | done |]. intros ?u. eapply tri_bind; [by apply tri_fs | intros []; growth |].
  intros []; [done | by apply tri_throw..].
Qed.

Lemma tri_put Pk F R s : tri (stk Pk F R) (put_state s) (fun _ => stk Pk s R) (pure_exn Pk F R).
Proof. apply tri_now. intros w (_ & E2 & Hk). by repeat split. Qed.
Lemma tri_channels Pk F R v : tri (stk Pk F R) (put_channels v) (fun _ => stk Pk F R) (pure_exn Pk F R).
Proof. apply tri_now. intros w (E1 & E2 & Hk). by repeat split. Qed.

(** A save leaves the file as it was or as it was to be. *)
Definition half_saved Pk F s R (e : rexn) w : Prop := carried e = None /\ (stk Pk F R w \/ stk Pk s R w).

Lemma half_before Pk F s R e w : pure_exn Pk F R e w -> half_saved Pk F s R e w.
Proof. intros [? ?]. split; [done | by left]. Qed.
Lemma half_after Pk F s R e w : pure_exn Pk s R e w -> half_saved Pk F s R e w.
Proof. intros [? ?]. split; [done | by right]. Qed.

Lemma tri_bind_pure {A B} Pk F s R (m : YM A) (f : A -> YM B) P Q1 Q :
  tri P m Q1 (pure_exn Pk F R) -> (forall a, extends (f a)) -> (forall a, tri (Q1 a) (f a) Q (half_saved Pk F s R)) -> tri P (m ≫= f) Q (half_saved Pk F s R).
Proof.
  intros Hm Hg Hf. eapply tri_bind; [|exact Hg | exact Hf]. eapply tri_conseq; [| | |exact Hm]; auto using half_before.
Qed.

Lemma tri_saved Pk F R s (m : YM unit) : tri (stk Pk F R) m (fun _ => stk Pk s R) (half_saved Pk F s R) ->
  tri (stk Pk F R) (saved m) (fun _ => stk Pk s R) (fun e w => half_saved Pk F s R e w /\ lost (FSaved (Some e)) = false).
Proof.
  intros Hm w Hw. destruct (Hm w Hw) as (l & L & Ho). unfold saved. destruct (m w) as [[a | e |] w1]; cbn in L |- *.
  all: eexists; rewrite L, <- (assoc_L (++)); split; [reflexivity |].
  all: destruct Ho as [(ev & Hin & Hl)|Ho]; [left; exists ev; rewrite in_app_iff; auto |].
  - by right.
  - destruct (lost (FSaved (Some e))) eqn:El; [left; eexists; rewrite in_app_iff; split; [right; by left | done] |].
    right. by split.
  - by right.
Qed.

Lemma tri_save Pk F R s : stable Pk ->
  tri (stk Pk F R) (_save_state s) (fun _ => stk Pk s R) (fun e w => half_saved Pk F s R e w /\ lost (FSaved (Some e)) = false).
Proof.
  intros Hst. apply tri_saved. eapply tri_bind_pure; [apply tri_res | intros; growth |]. intros ch. eapply tri_bind_pure; [apply tri_res | intros; growth |]. intros lk.
  eapply tri_bind_pure; [by apply tri_if | intros; growth |]. intros ?u. eapply tri_bind_pure; [by apply tri_parent | intros; growth |]. intros ?u.
  eapply tri_bind_pure; [by apply tri_validate | intros; growth |]. intros ?u. eapply tri_bind_pure; [by apply tri_parent | intros; growth |]. intros ?u.
  eapply tri_bind_pure; [by apply tri_validate | intros; growth |]. intros ?u.
  eapply tri_bind_pure; [apply tri_atomic; [done | apply grows_put | apply tri_put] | intros; growth |]. intros ?u.
  apply (tri_conseq (stk Pk s R) _ _ (fun _ => stk Pk s R) _ (pure_exn Pk s R)); [done | done | intros; by apply half_after |].
  apply tri_atomic; [done | apply grows_channels | apply tri_channels].
Qed.

Lemma tri_lock {A} Pk F R (m : YM A) Q (E : rexn -> yard N -> Prop) : stable Pk -> grows m -> (forall e w, pure_exn Pk F R e w -> E e w) ->
  tri (stk Pk F R) m Q E -> tri (stk Pk F R) (state_lock m) Q E.
Proof.
  intros Hst Hg He Hm. unfold state_lock.
  assert (forall (B : Type) (m1 : YM B), tri (stk Pk F R) m1 (fun _ => stk Pk F R) (pure_exn Pk F R) -> tri (stk Pk F R) m1 (fun _ => stk Pk F R) E) as Hp
    by (intros B m1 Hm1; eapply tri_conseq; [| |exact He | exact Hm1]; done).
  eapply tri_bind; [apply Hp, tri_res | intros; growth |]. intros ?u.
  eapply tri_bind; [by apply Hp, tri_if | intros; growth |]. intros ?u. eapply tri_bind; [by apply Hp, tri_parent | intros; growth |]. intros ?u.
  eapply tri_bind; [by apply Hp, tri_validate | intros; growth |]. intros ?u. eapply tri_bind; [by apply Hp, tri_call | intros; growth |]. by intros ?u.
Qed.

(** ** What every operation leaves *)

(** The file and the raised records account for everything; with an
    exception, the record it carries counts too. *)
Definition settled_yard R w : Prop := y_raised w = R /\ kept (kn (y_state w) R) (y_kernel w).
Definition settled_exn R (e : rexn) w : Prop := y_raised w = R /\ kept (with_record (kn (y_state w) R) (carried e)) (y_kernel w).

Definition plain_exn R (e : rexn) w : Prop := carried e = None /\ settled_yard R w.

Definition known F R : yard N -> Prop := stk (kept (kn F R)) F R.

Lemma known_settled F R w : known F R w -> settled_yard R w.
Proof. intros (E1 & E2 & Hk). split; [done |]. by rewrite E1. Qed.
Lemma settled_known R w : settled_yard R w -> known (y_state w) R w.
Proof. by intros [E Hk]. Qed.
Lemma kept_with K o (k : kernel N) : kept K k -> kept (with_record K o) k.
Proof. destruct o; [apply kept_mono; by left | done]. Qed.
Lemma known_exn F R e w : known F R w -> settled_exn R e w.
Proof. intros (E1 & E2 & Hk). split; [done |]. rewrite E1. by apply kept_with. Qed.
Lemma pure_settled F R e w : pure_exn (kept (kn F R)) F R e w -> settled_exn R e w.
Proof. intros [_ Hk]. by eapply known_exn. Qed.

(** A step that leaves the file and starts nothing. *)
Lemma tri_quiet {A} F R (m : Process.PM A) : does none_spawned m -> tri (known F R) (sys m) (fun _ => known F R) (settled_exn R).
Proof.
  intros Hd. eapply tri_conseq; [| | |apply tri_sys; [apply kept_stable | exact Hd]]; [done | done |]. intros e w. apply known_exn.
Qed.

Lemma tri_step {A} F R (m : YM A) Q : tri (known F R) m Q (pure_exn (kept (kn F R)) F R) -> tri (known F R) m Q (settled_exn R).
Proof. apply tri_conseq; [done | done |]. intros e w. apply pure_settled. Qed.

Lemma plain_settled R e w : plain_exn R e w -> settled_exn R e w.
Proof. intros [_ [? Hk]]. split; [done | by apply kept_with]. Qed.

(** A save whose two outcomes both account for everything. *)
Lemma tri_save_plain Pk F R s : stable Pk -> (forall k, Pk k -> kept (kn F R) k) -> (forall k, Pk k -> kept (kn s R) k) ->
  tri (stk Pk F R) (_save_state s) (fun _ => known s R) (plain_exn R).
Proof.
  intros Hst H1' H2'. eapply tri_conseq; [| | |by apply tri_save]; [done | intros ?u w (? & ? & ?); repeat split; auto |].
  intros e w [[Hc [(E1 & E2 & Hk)|(E1 & E2 & Hk)]] _]; (split; [done |]; split; [done |]); rewrite E1; auto.
Qed.

Lemma tri_save_known Pk F R s : stable Pk -> (forall k, Pk k -> kept (kn F R) k) -> (forall k, Pk k -> kept (kn s R) k) ->
  tri (stk Pk F R) (_save_state s) (fun _ => known s R) (settled_exn R).
Proof. intros Hst H1' H2'. eapply tri_conseq; [| | |by apply (tri_save_plain Pk F R s)]; [done | done |]. intros e w. apply plain_settled. Qed.

(** ** Stopping a recorded tool *)

Lemma tri_stop_any K F R r fuel rn :
  tri (stk (kept (or_ K r)) F R) (sys (runner_stop fuel rn r)) (fun _ => stk (kept K) F R)
    (fun e => stk (fun k => kept (or_ K r) k /\ match e with RCleanup r' => kept (or_ K r') k | RConfigError => True | _ => False end) F R).
Proof.
  apply tri_now. intros w (E1 & E2 & Hk). unfold sys. pose proof (kept_stop base old _ fuel rn r (y_kernel w) Hk) as Hs. unfold stop_post in Hs.
  destruct (runner_stop fuel rn r (y_kernel w)) as [[u | e |] k']; cbn in Hs |- *; (split; [done |]); [|destruct Hs |]; by repeat split.
Qed.

Definition after_stop F R id (e : rexn) (k : kernel N) : Prop :=
  kept (kn F R) k /\ match e with RCleanup r => kept (or_ (kn (dpop F id) R) r) k | RConfigError => True | _ => False end.

Lemma after_stop_stable F R id e : stable (after_stop F R id e).
Proof. intros k k' [Hk He] Hs. split; [by eapply kept_more |]. destruct e; try done. by eapply kept_more. Qed.

Lemma tri_stop F R id r fuel rn : dget F id = Some r ->
  tri (known F R) (sys (runner_stop fuel rn r)) (fun _ => stk (kept (kn (dpop F id) R)) F R) (fun e => stk (after_stop F R id e) F R).
Proof.
  intros Hr. eapply tri_conseq; [| | |apply tri_stop_any].
  - intros w (E1 & E2 & Hk). do 2 (split; [done |]). eapply kept_mono; [|exact Hk]. intros x. by apply kn_dpop.
  - done.
  - intros e w (E1 & E2 & Hk & He). do 2 (split; [done |]). split; [|done].
    eapply kept_mono; [|exact Hk]. intros x [Hx| ->]; [by eapply kn_pop_sub | left; by exists id].
Qed.

Lemma tri_stop_recorded F R id r fuel rn : dget F id = Some r ->
  tri (known F R) (stop_recorded fuel id r rn F) (fun s w => s = dpop F id /\ known s R w) (settled_exn R).
Proof.
  intros Hr. assert (forall k : kernel N, kept (kn (dpop F id) R) k -> kept (kn F R) k) as Hsub by (intros k; apply kept_mono; intros x; apply kn_pop_sub).
  eapply tri_bind; [eapply tri_catch; [by apply tri_stop | intros; growth |] | intros; growth |].
  - intros e. destruct e; try (apply tri_throw; intros w (E1 & E2 & Hk & ?); apply (known_exn F); by repeat split).
    eapply tri_bind; [|intros; growth |].
    + apply tri_save_known; [apply after_stop_stable | by intros k [? ?] |]. intros k [_ Hk]. eapply kept_mono; [|exact Hk]. intros x. apply kn_dset_inv.
    + intros ?u. apply tri_throw. intros w. apply known_exn.
  - intros ?u. eapply tri_bind; [apply tri_save_known; [apply kept_stable | done | done] | intros; growth |]. intros ?u. by apply tri_ret.
Qed.

Lemma tri_clear F R id fuel :
  tri (known F R) (clear_dead fuel id F) (fun o w => match o with Some s => dget s id = None /\ known s R w | None => known F R w end) (settled_exn R).
Proof.
  unfold clear_dead. destruct (dget F id) as [r|] eqn:Er; [|by apply tri_ret].
  eapply tri_bind; [apply tri_quiet, runner_does | intros; growth |]. intros rn.
  eapply tri_bind; [apply tri_quiet, alive_does | intros; growth |]. intros [|]; [by apply tri_ret |].
  eapply tri_bind; [by apply tri_stop_recorded | intros; growth |]. intros s. apply tri_ret. intros w [-> Hw]. split; [|done].
  by rewrite dget_dpop, decide_True.
Qed.

(** ** Recording what was started *)

Lemma kn_add F R id r x : dget F id = None -> or_ (kn F R) r x -> kn (dset F id r) R x.
Proof.
  intros En [[(id' & E)|Hin]| ->]; [|by right | left; exists id; apply dget_dset_eq].
  left. exists id'. rewrite dget_dset_ne; [done | congruence].
Qed.

Lemma kn_readd F R id r x : dget F id = None -> kn F R x -> kn (dpop (dset F id r) id) R x.
Proof.
  intros En [(id' & E)|Hin]; [|by right]. left. exists id'. rewrite dget_dpop. case_decide as Hd; [congruence |]. by rewrite dget_dset_ne.
Qed.

Lemma tri_start F R fuel rn def :
  tri (known F R) (sys (runner_start fuel rn def)) (fun r => stk (kept (or_ (kn F R) r)) F R)
    (fun e => stk (kept (with_record (kn F R) (carried e))) F R).
Proof.
  apply tri_now. intros w (E1 & E2 & Hk). unfold sys. pose proof (kept_start base old _ fuel rn def _ Hk) as Hs.
  destruct (runner_start fuel rn def (y_kernel w)) as [[r | e |] k']; split; try done. cbn. repeat split; [done | done |].
  by destruct (carried e).
Qed.

Section Cut.
Context (Hcut : forall e, is_exception e = false -> lost (FSaved (Some e)) = true).

(** The rollback, when the file is [G]: as it was, or with the new record. *)
Lemma tri_undo F G R fuel id r rn e : dget F id = None -> (forall x, kn F R x -> kn G R x) ->
  tri (stk (kept (or_ (kn F R) r)) G R)
    (_ ← except_exception (sys (runner_stop fuel rn r)) (fun _ => throw (RUnrecorded r)); _ ← _save_state (dpop (dset F id r) id); throw e)
    (fun _ : unit => settled_yard R) (settled_exn R).
Proof.
  intros En HG. eapply tri_bind; [|intros; growth |].
  - eapply tri_catch; [apply tri_stop_any | intros; growth |]. intros e2. destruct (is_exception e2) eqn:Ex.
    + apply tri_throw. intros w (E1 & E2 & Hk & _). split; [done |]. rewrite E1. cbn.
      eapply kept_mono; [|exact Hk]. intros x [Hx| ->]; [left; by apply HG | by right].
    + apply tri_throw. intros w (_ & _ & _ & He). by destruct e2.
  - intros ?u. eapply tri_bind; [apply tri_save_known; [apply kept_stable | |] | intros; growth |].
    + intros k. by apply kept_mono.
    + intros k. apply kept_mono. intros x. by apply kn_readd.
    + intros ?u. apply tri_throw. intros w. apply known_exn.
Qed.

Lemma tri_rollback F R fuel id r rn : dget F id = None ->
  tri (stk (kept (or_ (kn F R) r)) F R) (_record_or_rollback fuel F id r rn) (fun _ => settled_yard R) (settled_exn R).
Proof.
  intros En. unfold _record_or_rollback. eapply tri_catch; [| intros e; destruct (is_exception e); growth |].
  - eapply tri_conseq; [| | |apply tri_save, kept_stable]; [done | | by intros e w Hw; exact Hw].
    intros ?u w (E1 & E2 & Hk). split; [done |]. rewrite E1. eapply kept_mono; [|exact Hk]. intros x. by apply kn_add.
  - intros e. destruct (is_exception e) eqn:Ex.
    + apply tri_pre. intros w [[_ Hw] _].
      assert (exists G, stk (kept (or_ (kn F R) r)) G R w /\ forall x, kn F R x -> kn G R x) as (G & HwG & HG).
      { destruct Hw as [Hw|Hw]; eexists; (split; [exact Hw |]); [done |]. intros x Hx. apply kn_add; [done | by left]. }
      apply (tri_conseq (stk (kept (or_ (kn F R) r)) G R) _ _ (fun _ => settled_yard R) _ (settled_exn R));
        [by intros w' <- | done | done | by apply tri_undo].
    + apply tri_throw. intros w [_ Hl]. rewrite Hcut in Hl; done.
Qed.

(** ** The operations of the panel *)

Lemma discover_tri F R root : tri (known F R) (discovered root) (fun _ => known F R) (settled_exn R).
Proof.
  unfold discovered. eapply tri_bind; [apply tri_quiet, does_quiet | intros; growth |]. intros read.
  eapply tri_bind; [apply tri_quiet, does_quiet | intros; growth |]. intros root'.
  eapply tri_bind; [apply tri_quiet, does_quiet | intros; growth |]. intros names. apply tri_step, tri_res.
Qed.

Lemma defs_tri F R root dirs : tri (known F R) (_all_defs root dirs) (fun _ => known F R) (settled_exn R).
Proof.
  unfold _all_defs. apply tri_bind with (Q1 := fun _ => known F R); [|intros; growth |].
  - destruct (PyStr.empty root); [by apply tri_ret | apply discover_tri].
  - intros found. eapply tri_bind; [apply tri_quiet, does_quiet | intros; growth |]. intros read. apply tri_step, tri_res.
Qed.

Lemma load_tri F R : tri (known F R) _load_state (fun s w => s = F /\ known F R w) (settled_exn R).
Proof. apply tri_step, tri_load, kept_stable. Qed.

(** The same with the loaded file substituted. *)
Lemma tri_loaded {A} F R (f : dict running_tool -> YM A) Q : (forall s, extends (f s)) -> tri (known F R) (f F) Q (settled_exn R) ->
  tri (known F R) (s ← _load_state; f s) Q (settled_exn R).
Proof.
  intros Hg Hf. eapply tri_bind; [apply load_tri | exact Hg |]. intros s. apply tri_pre. intros w [-> Hw].
  apply (tri_conseq (known F R) _ _ Q _ (settled_exn R)); [by intros w' <- | done..].
Qed.

Lemma tri__start fuel F R id root dirs b recovery :
  tri (known F R) (_start fuel id root dirs b recovery) (fun _ => settled_yard R) (settled_exn R).
Proof.
  unfold _start. eapply tri_bind; [apply defs_tri | intros defs; destruct (dget defs id); growth |]. intros defs.
  destruct (dget defs id) as [def|]; [|apply tri_throw; intros w; apply known_exn].
  apply tri_loaded; [intros; growth |]. apply tri_bind with (Q1 := fun _ => known F R); [|intros; growth |].
  { destruct recovery; [|by apply tri_ret]. apply tri_step. unfold recovered_def.
    destruct (dget F id) as [r|]; [|by apply tri_throw]. destruct (rn_secret_declarations r); [|by apply tri_throw].
    destruct (truthy_id _); [by apply tri_ret | by apply tri_throw]. }
  intros def'. eapply tri_bind; [apply tri_clear | intros o; destruct o; growth |]. intros [s|]; [|apply tri_ret; intros w; apply known_settled].
  apply tri_pre. intros w0 [En Hw0].
  apply (tri_conseq (known s R) _ _ (fun _ => settled_yard R) _ (settled_exn R)); [by intros w' <- | done | done |]. clear w0 Hw0.
  eapply tri_bind; [apply tri_quiet, runner_does | intros; growth |]. intros rn.
  apply tri_bind with (Q1 := fun r => stk (kept (or_ (kn s R) r)) s R); [|intros; growth | intros r; by apply tri_rollback].
  eapply tri_catch; [apply tri_start | intros e; destruct (is_exception e), (carried e); growth |]. intros e. destruct (is_exception e).
  - destruct (carried e) as [r|] eqn:Ec.
    + eapply tri_bind; [by apply tri_rollback | intros; growth |]. intros ?u. apply tri_throw. intros w [? Hk]. split; [done | by apply kept_with].
    + apply tri_bind with (Q1 := fun _ => known s R); [by apply tri_ret | intros; growth |]. intros ?u. apply tri_throw. intros w. apply known_exn.
  - apply tri_throw. intros w (E1 & E2 & Hk). split; [done |]. by rewrite E1.
Qed.

Lemma tri_down fuel F R id : tri (known F R) (down_one fuel F id) (fun s => known s R) (settled_exn R).
Proof.
  unfold down_one. destruct (dget F id) as [r|] eqn:Er; [|by apply tri_ret].
  eapply tri_bind; [apply tri_quiet, runner_does | intros; growth |]. intros rn.
  eapply tri_conseq; [| | |by apply tri_stop_recorded]; [done | by intros s w [-> ?] | done].
Qed.

Lemma tri__stop fuel F R id : tri (known F R) (_stop fuel id) (fun _ => settled_yard R) (settled_exn R).
Proof.
  apply tri_loaded; [intros; growth |]. eapply tri_bind; [apply tri_down | intros; growth |]. intros s. apply tri_ret. intros w. apply known_settled.
Qed.

(** An operation after another one, on whatever file that left. *)
Lemma tri_then {A} P R (m : YM A) (f : A -> YM unit) : tri P m (fun _ => settled_yard R) (settled_exn R) -> (forall a, extends (f a)) ->
  (forall a F, tri (known F R) (f a) (fun _ => settled_yard R) (settled_exn R)) -> tri P (m ≫= f) (fun _ => settled_yard R) (settled_exn R).
Proof.
  intros Hm Hg Hf. eapply tri_bind; [exact Hm | exact Hg |]. intros a. apply tri_pre. intros w Hw.
  apply (tri_conseq (known (y_state w) R) _ _ (fun _ => settled_yard R) _ (settled_exn R)); [|done | done | apply Hf].
  intros w' <-. by apply settled_known.
Qed.

Lemma locked_tri {A} F R (m : YM A) Q : grows m -> tri (known F R) m Q (settled_exn R) -> tri (known F R) (state_lock m) Q (settled_exn R).
Proof. intros Hg Hm. apply tri_lock; [apply kept_stable | done | intros e w; apply pure_settled | done]. Qed.

Lemma tri_remove fuel F R id root dirs : tri (known F R) (remove fuel id root dirs) (fun _ => settled_yard R) (settled_exn R).
Proof.
  apply locked_tri; [unfold _remove; growth |]. unfold _remove.
  eapply tri_bind; [apply defs_tri | intros defs; destruct (dget defs id); growth |]. intros defs.
  destruct (dget defs id) as [def|]; [|apply tri_throw; intros w; apply known_exn].
  eapply tri_bind; [apply tri_quiet, does_quiet | intros; growth |]. intros path.
  apply tri_bind with (Q1 := fun _ => known F R); [|intros; growth |].
  { destruct (PyStr.empty root); [apply tri_throw; intros w; apply known_exn |].
    eapply tri_bind; [apply tri_quiet, does_quiet | intros; growth |]. intros root'. by apply tri_step, tri_if. }
  intros ?u. apply tri_then; [apply tri__stop | intros; growth |]. intros ?u F'.
  eapply tri_bind; [apply tri_step, tri_fs, kept_stable | intros; growth |].
  intros []; [apply tri_ret; intros w; apply known_settled | apply tri_throw; intros w; apply known_exn].
Qed.

Lemma kn_edit F R id r r' (k : kernel N) : dget F id = Some r -> heir r r' -> (forall c, exited_field c r' = exited_field c r) ->
  kept (kn F R) k -> kept (kn (dset F id r') R) k.
Proof.
  intros Er Hh Hx Hk. eapply kept_mono; [intros x; apply kn_dset_inv |]. eapply kept_edit; [exact Hh | exact Hx |].
  eapply kept_mono; [|exact Hk]. intros x. by apply kn_dpop.
Qed.

Lemma tri_edited F R id secrets digest :
  tri (known F R) (record_edited_declarations id secrets digest) (fun _ => settled_yard R) (settled_exn R).
Proof.
  apply locked_tri; [growth |]. apply tri_loaded; [intros; growth |].
  destruct (dget F id) as [r|] eqn:Er; [|apply tri_ret; intros w; apply known_settled].
  eapply tri_conseq; [| | |apply (tri_save_known (kept (kn F R)) F R); [apply kept_stable | done |]]; [done | intros ?u w; apply known_settled | done |].
  intros k. apply (kn_edit F R id r); [done | by destruct r | by destruct r; intros []].
Qed.

(** A call whose exception is caught and dropped. *)
Lemma tri_swallow {A} F R (m : YM A) h : tri (known F R) m (fun _ => known F R) (fun _ => known F R) -> (forall e, extends (h e)) ->
  (forall e, tri (known F R) (h e) (fun _ => known F R) (settled_exn R)) -> tri (known F R) (except_exception m h) (fun _ => known F R) (settled_exn R).
Proof.
  intros Hm Hg Hh. eapply tri_catch; [exact Hm | intros e; destruct (is_exception e); [apply Hg | growth] |].
  intros e. destruct (is_exception e); [apply Hh | apply tri_throw; intros w; apply known_exn].
Qed.

Lemma sys_known {A} F R (m : Process.PM A) : does none_spawned m -> tri (known F R) (sys m) (fun _ => known F R) (fun _ => known F R).
Proof. apply tri_sys, kept_stable. Qed.

Lemma tri_foldY {A B} F R (f : A -> B -> YM A) l : (forall a b, grows (f a b)) ->
  (forall a b, tri (known F R) (f a b) (fun _ => known F R) (settled_exn R)) -> forall a, tri (known F R) (foldY f a l) (fun _ => known F R) (settled_exn R).
Proof.
  intros Hg Hf. induction l as [|b l IH]; intros a; [by apply tri_ret |]. eapply tri_bind; [apply Hf | | apply IH].
  intros a'. by apply grows_extends, grows_fold.
Qed.

Lemma tri_reregister_one F R path results kv : tri (known F R) (reregister_one path results kv) (fun _ => known F R) (settled_exn R).
Proof.
  destruct kv as [id rec]. unfold reregister_one. destruct (rn_e_secret rec) as [e|]; [|by apply tri_ret].
  destruct (PyStr.empty e); [by apply tri_ret |]. eapply tri_bind; [|intros; growth |].
  - apply tri_swallow; [|intros; growth | intros; by apply tri_ret].
    eapply tri_bind; [apply sys_known, runner_does | intros; growth |]. intros rn. apply sys_known, alive_does.
  - intros alive. destruct (negb alive); [by apply tri_ret |]. destruct (rn_secret_declarations rec) as [secrets|]; [|by apply tri_ret].
    destruct (truthy_id _); [|by apply tri_ret]. apply tri_bind with (Q1 := fun _ => known F R); [|intros; growth | intros; by apply tri_ret].
    apply tri_swallow; [|intros; growth | intros; by apply tri_ret].
    eapply tri_bind; [apply sys_known, resolve_does | intros; growth |]. intros cfg.
    eapply tri_bind; [apply sys_known, register_does | intros; growth |]. intros ?u. by apply tri_ret.
Qed.

Lemma tri_reregister F R path :
  tri (known F R) (reregister_with_sps_results path) (fun _ => known F R) (settled_exn R).
Proof.
  apply locked_tri; [unfold _reregister_results; growth |]. unfold _reregister_results.
  eapply tri_bind; [apply tri_quiet, does_quiet | intros; growth |]. intros present.
  eapply tri_bind; [by apply tri_step, tri_if | intros; growth |]. intros ?u.
  apply tri_loaded; [intros; growth |]. apply tri_foldY; [intros; growth | intros; apply tri_reregister_one].
Qed.

(** ** The command line *)

Lemma tri_foldF R {B} (f : dict running_tool -> B -> YM (dict running_tool)) l : (forall s b, grows (f s b)) ->
  (forall s b, tri (known s R) (f s b) (fun s' => known s' R) (settled_exn R)) ->
  forall s, tri (known s R) (foldY f s l) (fun s' => known s' R) (settled_exn R).
Proof.
  intros Hg Hf. induction l as [|b l IH]; intros s; [by apply tri_ret |]. eapply tri_bind; [apply Hf | | apply IH].
  intros s'. by apply grows_extends, grows_fold.
Qed.

(** The last save of a command: the file is already what is saved. *)
Lemma tri_save_again F R : tri (known F R) (_save_state F) (fun _ => settled_yard R) (settled_exn R).
Proof.
  eapply tri_conseq; [| | |apply (tri_save_known (kept (kn F R)) F R); [apply kept_stable | done | done]]; [done | | done].
  intros ?u w. apply known_settled.
Qed.

Lemma tri_cmd_down fuel F R id : tri (known F R) (cmd_down fuel id) (fun _ => settled_yard R) (settled_exn R).
Proof.
  apply locked_tri; [growth |]. apply tri_loaded; [intros; growth |].
  eapply tri_bind; [apply tri_foldF; [intros; growth | intros; apply tri_down] | intros; growth | intros s; apply tri_save_again].
Qed.

Section Command.
Context (Hall : forall e, lost (FSaved (Some e)) = true).

(** A save that has to succeed. *)
Lemma tri_save_must Pk F R s (Q : unit -> yard N -> Prop) E : stable Pk -> (forall u w, stk Pk s R w -> Q u w) -> tri (stk Pk F R) (_save_state s) Q E.
Proof.
  intros Hst Hq. eapply tri_conseq; [| exact Hq | |by apply tri_save]; [done |]. intros e w [_ He]. by rewrite Hall in He.
Qed.

Lemma tri_false {A} P (m : YM A) Q E : (forall w, ~ P w) -> tri P m Q E.
Proof. intros Hp w Hw. by destruct (Hp w). Qed.

Lemma tri_up_one fuel rn defs F R id : tri (known F R) (up_one fuel rn defs F id) (fun s => known s R) (settled_exn R).
Proof.
  unfold up_one. destruct (dget defs id) as [def|]; [|apply tri_throw; intros w; apply known_exn].
  eapply tri_bind; [apply tri_clear | intros o; destruct o; growth |]. intros [s|]; [|by apply tri_ret].
  apply tri_pre. intros w0 [En Hw0].
  apply (tri_conseq (known s R) _ _ (fun s => known s R) _ (settled_exn R)); [by intros w' <- | done | done |]. clear w0 Hw0.
  apply tri_bind with (Q1 := fun r => stk (kept (or_ (kn s R) r)) s R); [|intros; growth |].
  - eapply tri_catch; [apply tri_start | intros e; destruct e; growth |]. intros e.
    destruct e; try (apply tri_throw; intros w (E1 & E2 & Hk); split; [done |]; by rewrite E1).
    apply tri_bind with (Q1 := fun _ => stk (kept (or_ (kn s R) r)) (dset s id r) R); [apply tri_save_must; [apply kept_stable | done] | intros; growth |].
    intros ?u. apply tri_throw. intros w (E1 & E2 & Hk). split; [done |]. rewrite E1. eapply kept_mono; [|exact Hk].
    intros x Hx. left. by apply kn_add.
  - intros r. apply tri_bind with (Q1 := fun _ => known (dset s id r) R); [|intros; growth | intros ?u; by apply tri_ret].
    eapply tri_catch with (E1 := fun _ _ => False); [|intros e; destruct (is_exception e); growth | intros e; apply tri_false; intros w []].
    apply tri_save_must; [apply kept_stable |]. intros ?u w (E1 & E2 & Hk). do 2 (split; [done |]).
    eapply kept_mono; [|exact Hk]. intros x. by apply kn_add.
Qed.

Lemma tri_cmd_up fuel F R id root b : tri (known F R) (cmd_up fuel id root b) (fun _ => settled_yard R) (settled_exn R).
Proof.
  apply locked_tri; [growth |]. eapply tri_bind; [apply discover_tri | intros; growth |]. intros found.
  eapply tri_bind; [apply tri_quiet, runner_does | intros; growth |]. intros rn. apply tri_loaded; [intros; growth |].
  eapply tri_bind; [apply tri_foldF; [intros; growth | intros; apply tri_up_one] | intros; growth | intros s; apply tri_save_again].
Qed.
End Command.

(** ** Interleavings *)

Definition from_cli (op : yard_op) : bool := match op with OpUp _ _ _ => true | _ => false end.

Lemma tri_op fuel op F R : (from_cli op = true -> forall e, lost (FSaved (Some e)) = true) ->
  tri (known F R) (run_op fuel op) (fun _ => settled_yard R) (settled_exn R).
Proof.
  intros Hop. destruct op; cbn [run_op].
  - apply tri_cmd_up. by apply Hop.
  - apply tri_cmd_down.
  - apply locked_tri; [growth | apply tri__start].
  - apply locked_tri; [growth | apply tri__stop].
  - apply locked_tri; [growth |]. apply tri_then; [apply tri__stop | intros; growth | intros; apply tri__start].
  - apply tri_remove.
  - apply tri_edited.
  - eapply tri_bind; [apply tri_reregister | intros; growth |]. intros r. apply tri_ret. intros w. apply known_settled.
Qed.

(** The file and all records that were raised account for everything. *)
Definition sound w : Prop := settled_yard (y_raised w) w.

Lemma tri_surfaced {A} F R (m : YM A) Q : tri (known F R) m Q (settled_exn R) -> tri (known F R) (surfaced m) Q (fun _ => sound).
Proof.
  intros Hm w Hw. destruct (Hm w Hw) as (l & L & Ho). exists l. unfold surfaced.
  destruct (m w) as [[a | e |] w1]; cbn in L, Ho |- *; [by split | split; [done |] | by split].
  destruct Ho as [|[E2 Hk]]; [by left | right]. split; [done |]. cbn. eapply kept_mono; [|exact Hk].
  intros x. destruct (carried e) as [r|]; cbn; rewrite E2; [|done]. intros [[Hx|Hx]| ->]; [by left | by right; right | by right; left].
Qed.

Lemma tri_sound {A} (m : YM A) Q E : (forall F R, tri (known F R) m Q E) -> tri sound m Q E.
Proof.
  intros Hm w Hw. apply (Hm (y_state w) (y_raised w)). by apply settled_known.
Qed.

Lemma settled_sound R w : settled_yard R w -> sound w.
Proof. intros [E Hk]. split; [done |]. by rewrite E. Qed.

Lemma grows_others fuel ops : grows (others (N:=N) fuel ops).
Proof. induction ops as [|op ops IH]; cbn [others]; [growth |]. unfold elsewhere. growth. Qed.

Lemma tri_others fuel ops : (existsb from_cli ops = true -> forall e, lost (FSaved (Some e)) = true) ->
  tri sound (others fuel ops) (fun _ => sound) (fun _ _ => False).
Proof.
  induction ops as [|op ops IH]; cbn [others existsb]; intros Hop; [by apply tri_ret |].
  apply tri_bind with (Q1 := fun _ => sound); [|intros; apply grows_extends, grows_others | intros; apply IH; intros E; apply Hop; rewrite E; by rewrite orb_true_r].
  unfold elsewhere. apply tri_catch with (E1 := fun _ => sound); [|intros; growth | intros e; by apply tri_ret].
  apply tri_sound. intros F R. eapply tri_conseq; [| | |apply tri_surfaced, tri_op]; [done | intros ?u w; apply settled_sound | intros e w Hw; exact Hw |].
  intros E. apply Hop. by rewrite E.
Qed.

(** ** The reconciler *)

#[local] Hint Resolve grows_others : growth.

#[local] Notation steady m := (tri sound m (fun _ => sound) (fun _ => sound)).

Lemma steady_sys {A} (m : Process.PM A) : does none_spawned m -> steady (sys m).
Proof.
  intros Hd. apply tri_sound. intros F R.
  apply (tri_conseq (known F R) _ _ (fun _ => known F R) _ (fun _ => known F R)); [done | | | by apply sys_known].
  all: intros u w Hw; apply (settled_sound R); by apply (known_settled F).
Qed.

Lemma steady_ret {A} (a : A) : steady (mret a).
Proof. by apply tri_ret. Qed.
Lemma steady_bind {A B} (m : YM A) (f : A -> YM B) : steady m -> (forall a, extends (f a)) -> (forall a, steady (f a)) -> steady (m ≫= f).
Proof. intros Hm Hg Hf. by eapply tri_bind. Qed.
Lemma steady_except {A} (m : YM A) h : steady m -> (forall e, extends (h e)) -> (forall e, steady (h e)) -> steady (except_exception m h).
Proof.
  intros Hm Hg Hh. eapply tri_catch; [exact Hm | |]; intros e; destruct (is_exception e); [apply Hg | growth | apply Hh | by apply tri_throw].
Qed.

Lemma steady_others fuel ops : (existsb from_cli ops = true -> forall e, lost (FSaved (Some e)) = true) -> steady (others fuel ops).
Proof. intros Hop. eapply tri_conseq; [| | |by apply tri_others]; [done | done | by intros]. Qed.

Lemma kn_setdefault F R id rec x : kn F R x -> kn (setdefault F id rec) R x.
Proof.
  intros [(id' & E)|]; [|by right]. left. exists id'. unfold setdefault.
  destruct (dget F id) as [r|] eqn:Er; [done |]. rewrite dget_dset_ne; [done | congruence].
Qed.

Lemma steady_restore id rec : steady (restore_intent id rec).
Proof.
  apply tri_sound. intros F R. apply (tri_conseq (known F R) _ _ (fun _ => settled_yard R) _ (plain_exn R));
    [done | intros ?u w; apply settled_sound | by intros e w [_ Hw]; eapply settled_sound |].
  assert (forall e w, pure_exn (kept (kn F R)) F R e w -> plain_exn R e w) as Hp
    by (intros e w [Hc Hw]; split; [done | by eapply known_settled]).
  apply tri_lock; [apply kept_stable | growth | done |].
  apply tri_bind with (Q1 := fun s w => s = F /\ known F R w); [|intros; growth |].
  - apply (tri_conseq (known F R) _ _ (fun s w => s = F /\ known F R w) _ (pure_exn (kept (kn F R)) F R)); [done | done | done |].
    apply tri_load, kept_stable.
  - intros s. apply tri_pre. intros w [-> Hw].
    apply (tri_conseq (known F R) _ _ (fun _ => known (setdefault F id rec) R) _ (plain_exn R));
      [by intros w' <- | intros ?u w'; apply known_settled | done |].
    apply tri_save_plain; [apply kept_stable | done |]. intros k. apply kept_mono. intros x. apply kn_setdefault.
Qed.

Lemma grows_reconcile_one fuel root dirs before during id rec n : grows (reconcile_one (N:=N) fuel root dirs before during id rec n).
Proof.
  unfold reconcile_one, start, restore_intent. growth.
Qed.

Lemma steady_reconcile_one fuel root dirs before during id rec n :
  (existsb from_cli (before ++ during) = true -> forall e, lost (FSaved (Some e)) = true) ->
  steady (reconcile_one fuel root dirs before during id rec n).
Proof.
  rewrite existsb_app. intros Hop. unfold reconcile_one. apply steady_bind.
  - apply steady_except; [|intros; growth | intros; apply steady_ret].
    apply steady_bind; [apply steady_sys, runner_does | intros; growth |]. intros rn.
    apply steady_bind; [apply steady_sys, alive_does | intros; growth | intros; apply steady_ret].
  - intros [[|]|]; unfold start, restore_intent; growth.
  - intros [[|]|]; [apply steady_ret | | apply steady_ret].
    apply steady_bind; [apply steady_others; intros E; apply Hop; by rewrite E | unfold start, restore_intent; intros; growth |].
    intros ?u. apply tri_catch with (E1 := fun _ => sound); [| unfold restore_intent; intros e; growth |].
    + apply tri_bind with (Q1 := fun _ => sound); [|intros; growth | intros ?u; by apply tri_ret].
      apply tri_sound. intros F R. eapply tri_conseq; [| | |apply tri_surfaced, locked_tri; [growth | apply tri__start]]; [done | | done].
      intros ?u w. apply settled_sound.
    + intros e. destruct (is_lookup_error e); [apply steady_ret |].
      match goal with |- tri _ (if ?b then _ else _) _ _ => destruct b end; [|by apply tri_throw].
      apply steady_bind; [apply steady_others; intros E; apply Hop; rewrite E; by rewrite orb_true_r | unfold restore_intent; intros; growth |].
      intros ?u0. apply steady_bind; [apply steady_restore | intros; growth | intros; apply steady_ret].
Qed.

Lemma grows_reconcile_each fuel root dirs l : forall schedule n, grows (reconcile_each (N:=N) fuel root dirs schedule l n).
Proof.
  induction l as [|[id rec] l IH]; intros schedule n; cbn [reconcile_each]; [growth |].
  destruct (match schedule with s :: _ => s | [] => ([], []) end). apply grows_bind; [apply grows_reconcile_one | intros; apply IH].
Qed.

Lemma steady_reconcile_each fuel root dirs l : forall schedule n,
  (existsb from_cli (List.concat (map (fun s => s.1 ++ s.2) schedule)) = true -> forall e, lost (FSaved (Some e)) = true) ->
  steady (reconcile_each fuel root dirs schedule l n).
Proof.
  induction l as [|[id rec] l IH]; intros schedule n Hop; cbn [reconcile_each]; [apply steady_ret |].
  destruct schedule as [|[before during] schedule]; cbn [tail]; cbn [map List.concat fst snd] in Hop.
  - apply steady_bind; [by apply steady_reconcile_one | intros; apply grows_extends, grows_reconcile_each | intros; by apply IH].
  - rewrite existsb_app in Hop. apply steady_bind; [apply steady_reconcile_one | intros; apply grows_extends, grows_reconcile_each | intros; apply IH]; intros E; apply Hop;
      rewrite E; [done | by rewrite orb_true_r].
Qed.

Lemma does_ask {A} (m : CM A) : does none_spawned (sps_ask m).
Proof.
  intros k. unfold sps_ask. destruct (m (k_os k)) as [x n]. exists []. cbn. rewrite app_nil_r. split; [done |].
  split; [apply boot_le_refl | by intros what req pid []].
Qed.

Lemma does_link link : does none_spawned (boot_id link).
Proof.
  apply does_bind; [apply does_quiet |]. intros ok. apply does_bind; [apply does_throw_if |]. intros ?u.
  apply does_bind; [apply does_ask |]. intros [body|]; [|apply does_throw].
  cbv zeta. destruct (PyStr.empty _); [apply does_throw | apply does_ret].
Qed.

Lemma does_wait fuel link t i : does none_spawned (wait_until_up fuel link t i).
Proof.
  apply does_bind; [apply does_quiet |]. intros now. generalize (now + t) as d. generalize (Z.max i 50000) as j. clear now.
  induction fuel as [|fuel IH]; intros j d; cbn [poll_up]; [intros k; apply reach_refl |].
  apply does_bind; [apply does_quiet |]. intros now. apply does_bind.
  - apply does_catch; [apply does_bind; [apply does_link | intros; apply does_ret] |]. intros []; apply does_throw || apply does_ret.
  - intros [|]; [apply does_ret |]. apply does_bind; [apply does_quiet |]. intros now'. destruct (d <=? now'); [apply does_ret |].
    apply does_bind; [apply does_sleep |]. intros ?u. apply IH.
Qed.

Lemma steady_load : steady (state_lock _load_state).
Proof.
  apply tri_sound. intros F R. apply (tri_conseq (known F R) _ _ (fun _ => known F R) _ (pure_exn (kept (kn F R)) F R)); [done | | |].
  - intros s w Hw. apply (settled_sound R). by apply (known_settled F).
  - intros e w [_ Hw]. apply (settled_sound R). by apply (known_settled F).
  - apply tri_lock; [apply kept_stable | growth | done |].
    eapply tri_conseq; [| | |apply tri_load, kept_stable]; [done | by intros s w [_ Hw] | done].
Qed.

Lemma steady_reconcile fuel patience root dirs link t schedule :
  (existsb from_cli (List.concat (map (fun s => s.1 ++ s.2) schedule)) = true -> forall e, lost (FSaved (Some e)) = true) ->
  steady (reconcile_running_tools fuel patience root dirs link t schedule).
Proof.
  intros Hop. unfold reconcile_running_tools.
  apply steady_except; [|intros; growth | intros; apply steady_ret]. apply steady_bind.
  - destruct link as [lk|]; [apply steady_sys, does_wait | apply steady_ret].
  - intros up. destruct (negb up); [growth |]. apply grows_extends, grows_bind; [growth |]. intros; apply grows_reconcile_each.
  - intros up. destruct (negb up); [apply steady_ret |]. apply steady_bind; [apply steady_load | intros; apply grows_extends, grows_reconcile_each |].
    intros s. by apply steady_reconcile_each.
Qed.
End Cut.
End Safe.
