(* ===== verification/YardProps.v ===== *)
(** What the toolyard's operations promise together: nothing is forgotten, the
    state file is only written to private places, and every operation ends. *)

From stdpp Require Import base tactics list strings.
From Stdlib Require Import ZArith Lia Ascii.
From S2P Require Import Prelude PyStr Json Registry Sps SpsWire SpsClient SpsConfig ToolyardConfig Process ProcessFacts Runner RunnerFacts StartFacts Yard Recovery YardFacts YardSafe.

(** ** Endings *)

Section Ends.
Context {N : Type} `{StateDir N} `{Channel N} `{Utf8} `{Manifests}.

#[local] Notation PM := (@Process.PM N).
#[local] Notation YM := (@Yard.YM N).

Lemma nd_sys {A} (m : PM A) : never_diverges m -> never_diverges (sys m).
Proof. intros Hm w. unfold sys. specialize (Hm (y_kernel w)). by destruct (m (y_kernel w)). Qed.
Lemma nd_fs {A} (f : N -> A * N) ev : never_diverges (fs f ev).
Proof. intros w. unfold fs. by destruct (f _). Qed.
Lemma nd_res {A} (x : res A) : never_diverges (of_res x : YM A).
Proof. by destruct x. Qed.
Lemma nd_saved (m : YM unit) : never_diverges m -> never_diverges (saved m).
Proof. intros Hm w. unfold saved. specialize (Hm w). by destruct (m w) as [[| |]]. Qed.
Lemma nd_surfaced {A} (m : YM A) : never_diverges m -> never_diverges (surfaced m).
Proof. intros Hm w. unfold surfaced. specialize (Hm w). by destruct (m w) as [[| |]]. Qed.
Lemma nd_fold {A B} (f : A -> B -> YM A) l : (forall a b, never_diverges (f a b)) -> forall a, never_diverges (foldY f a l).
Proof. intros Hf. induction l as [|b l IH]; intros a; [done |]. by apply nd_bind. Qed.
Lemma nd_get : never_diverges (get_state (N:=N)).
Proof. done. Qed.
Lemma nd_put s : never_diverges (put_state (N:=N) s).
Proof. done. Qed.
Lemma nd_channels v : never_diverges (put_channels (N:=N) v).
Proof. done. Qed.
Lemma nd_if {S} b e : never_diverges (throw_if b e : M S unit).
Proof. by destruct b. Qed.
End Ends.

#[export] Hint Resolve nd_fs nd_res nd_get nd_put nd_channels nd_if : nodiv.

Ltac ending_step :=
  match goal with
  | |- never_diverges (sys _) => apply nd_sys
  | |- never_diverges (except_exception _ _) => apply nd_catch; [|intros ?]
  | |- never_diverges (saved _) => apply nd_saved
  | |- never_diverges (surfaced _) => apply nd_surfaced
  | |- never_diverges (foldY _ _ _) => apply nd_fold; intros ? ?
  | |- never_diverges (state_lock _) => unfold state_lock
  end.
Ltac ending := repeat first [solve [auto 2 with nodiv] | ending_step | nodiv_step | progress cbv zeta].

Section Ending.
Context {N : Type} `{StateDir N} `{Channel N} `{Utf8} `{Manifests}.

Lemma nd_call f : never_diverges (os_call (N:=N) f).
Proof. unfold os_call. ending. Qed.
Hint Resolve nd_call : nodiv.
Lemma nd_ancestors l : never_diverges (check_ancestors (N:=N) l).
Proof. induction l as [|p l IH]; cbn [check_ancestors]; [done |]. unfold check_ancestor, lstat. ending. Qed.
Hint Resolve nd_ancestors : nodiv.
Lemma nd_parent p : never_diverges (_private_parent (N:=N) p).
Proof. unfold _private_parent, lstat. ending. Qed.
Lemma nd_validate p : never_diverges (_validate_file (N:=N) p).
Proof. unfold _validate_file, lstat. ending. Qed.
Hint Resolve nd_parent nd_validate : nodiv.
Lemma nd_load : never_diverges (_load_state (N:=N)).
Proof. unfold _load_state. ending. Qed.
Lemma nd_save s : never_diverges (_save_state (N:=N) s).
Proof. unfold _save_state, _atomic_private_json. ending. Qed.
Hint Resolve nd_load nd_save : nodiv.
Lemma nd_lock {A} (m : Yard.YM A) : never_diverges m -> never_diverges (state_lock (N:=N) m).
Proof. intros Hm. ending. Qed.
Lemma nd_discovered root : never_diverges (discovered (N:=N) root).
Proof. unfold discovered. ending. Qed.
Hint Resolve nd_discovered : nodiv.
Lemma nd_defs root dirs : never_diverges (_all_defs (N:=N) root dirs).
Proof. unfold _all_defs. ending. Qed.
Lemma nd_recovered d o : never_diverges (recovered_def (N:=N) d o).
Proof. unfold recovered_def. ending. Qed.
Lemma nd_runner name : never_diverges (get_runner (N:=N) name).
Proof. unfold get_runner, native_backend. ending. Qed.
Lemma nd_docker_run args : never_diverges (docker_run (N:=N) args).
Proof. unfold docker_run. ending. Qed.
Hint Resolve nd_defs nd_recovered nd_runner nd_docker_run : nodiv.
Lemma nd_runner_alive rn r : never_diverges (runner_alive (N:=N) rn r).
Proof. destruct rn; cbn [runner_alive]; unfold docker_alive, bwrap_alive; ending; apply nd_is_alive. Qed.
Hint Resolve nd_runner_alive nd_resolve nd_register : nodiv.

Section Fuel.
Context `{!OsClock N} (fuel : nat) (Hfuel : (41 <= fuel)%nat).

Lemma nd_cleanup r : never_diverges (_cleanup_partial_start fuel r).
Proof. intros k. by destruct (cleanup_finishes fuel r k Hfuel) as [[r' ->]|[r' ->]]. Qed.
Lemma nd_unregister id path : never_diverges (catch (_sps_unregister id path) (fun e => if is_exception e then mret tt else throw e)).
Proof. intros k. by destruct (unregister_caught id path k) as [k' ->]. Qed.
Lemma nd_finally {S A} (m : M S A) f : never_diverges m -> never_diverges f -> never_diverges (finally m f).
Proof.
  intros Hm Hf s. unfold finally. specialize (Hm s). destruct (m s) as [[a | e |] s']; [| | done]; specialize (Hf s'); by destruct (f s') as [[| |]].
Qed.
Lemma nd_stop rn r : never_diverges (runner_stop fuel rn r).
Proof.
  destruct rn; cbn [runner_stop]; [| | |done].
  1,2: apply nd_finally; [apply nd_bind; [apply nd_cleanup | done] | destruct (truthy_id _); [apply nd_unregister | done]].
  unfold docker_stop. repeat first [apply nd_cleanup | solve [auto 2 with nodiv] | nodiv_step].
Qed.
Lemma nd_start rn def : never_diverges (runner_start fuel rn def).
Proof. intros k. by apply start_finishes. Qed.
Hint Resolve nd_stop nd_start : nodiv.

Lemma nd_stop_recorded id r rn s : never_diverges (stop_recorded (N:=N) fuel id r rn s).
Proof. unfold stop_recorded. ending. Qed.
Hint Resolve nd_stop_recorded : nodiv.
Lemma nd_clear id s : never_diverges (clear_dead (N:=N) fuel id s).
Proof. unfold clear_dead. ending. Qed.
Lemma nd_rollback s id r rn : never_diverges (_record_or_rollback (N:=N) fuel s id r rn).
Proof. unfold _record_or_rollback. ending. Qed.
Lemma nd_down s id : never_diverges (down_one (N:=N) fuel s id).
Proof. unfold down_one. ending. Qed.
Hint Resolve nd_clear nd_rollback nd_down : nodiv.
Lemma nd_up rn defs s id : never_diverges (up_one (N:=N) fuel rn defs s id).
Proof. unfold up_one. ending. Qed.
Lemma nd__start id root dirs b rec : never_diverges (_start (N:=N) fuel id root dirs b rec).
Proof. unfold _start. ending. Qed.
Lemma nd__stop id : never_diverges (_stop (N:=N) fuel id).
Proof. unfold _stop. ending. Qed.
Hint Resolve nd_up nd__start nd__stop : nodiv.

Lemma nd_op op : never_diverges (run_op (N:=N) fuel op).
Proof.
  destruct op; cbn [run_op]; unfold cmd_up, cmd_down, start, stop, restart, remove, record_edited_declarations, reregister_with_sps_results,
    _remove, _reregister_results, reregister_one; ending.
Qed.

Lemma nd_others ops : never_diverges (others (N:=N) fuel ops).
Proof. induction ops as [|op ops IH]; cbn [others]; [done |]. unfold elsewhere. pose proof (nd_op op). ending. Qed.
End Fuel.
End Ending.

#[export] Hint Resolve nd_parent nd_validate nd_call nd_load nd_save nd_runner nd_runner_alive : nodiv.

(** ** The polling for the secret service *)

(** Calls to the secret service take time. *)
Class LinkClock (N : Type) `{OsClock N} `{!Launcher N} `{!Channel N} := {
  clock_tls n ca verify : clock n <= clock (os_tls n ca verify).2;
  clock_exchange n line : clock n <= clock (exchange n line).2 }.

Section Link.
Context {N : Type} `{LinkClock N} `{!Utf8}.

Lemma finishes_link link : finishes (boot_id link).
Proof.
  apply finishes_bind; [apply finishes_quiet; intros n; apply clock_tls |]. intros ok.
  apply finishes_bind; [destruct (negb ok); [apply finishes_throw | apply finishes_ret] |]. intros ?u.
  apply finishes_bind.
  - intros k. unfold sps_ask, ping, _call, at_. pose proof (clock_exchange (k_os k) (write_one_json (JObj [("op"%string, JStr "ping")]))) as Hc.
    destruct (exchange _ _) as [answer n]. by split.
  - intros [body|]; [|apply finishes_throw]. cbv zeta. destruct (PyStr.empty _); [apply finishes_throw | apply finishes_ret].
Qed.

(** Every turn takes the interval, or ends the polling in the next one. *)
Lemma poll_finishes link d j : 0 < j -> forall fuel k, (1 <= fuel)%nat -> d - at_ k <= j * (Z.of_nat fuel - 1) -> finishes_from (poll_up fuel link d j) k.
Proof.
  intros Hj. induction fuel as [|fuel IH]; intros k Hf Hd; [lia |]. cbn [poll_up].
  apply from_bind; [apply finishes_monotonic |]. intros now k1 ->%monotonic_reads H1'.
  apply from_bind.
  { apply finishes_catch; [apply finishes_bind; [apply finishes_link | intros; apply finishes_ret] |].
    intros []; first [apply finishes_ret | apply finishes_throw]. }
  intros [|] k2 _ H2'; [apply finishes_ret |].
  apply from_bind; [apply finishes_monotonic |]. intros now2 k3 ->%monotonic_reads H3'.
  destruct (Z.leb_spec d (at_ k2)); [apply finishes_ret |].
  apply from_bind; [apply finishes_sleep |]. intros ?u k4 H4'%sleep_lasts _.
  replace (Z.of_nat (S fuel) - 1) with (Z.of_nat fuel) in Hd by lia. assert (1 <= Z.of_nat fuel) as Hm by nia.
  assert (0 <= j * (Z.of_nat fuel - 1)) by nia. assert (j * Z.of_nat fuel = j * (Z.of_nat fuel - 1) + j) by lia.
  apply IH; [lia |]. lia.
Qed.

Lemma wait_finishes link t fuel : (1 <= fuel)%nat -> t <= 500000 * (Z.of_nat fuel - 1) -> finishes (wait_until_up fuel link t 500000).
Proof.
  intros Hf Ht k. unfold wait_until_up. apply from_bind; [apply finishes_monotonic |]. intros now k1 ->%monotonic_reads H1'.
  apply poll_finishes; [lia | done | lia].
Qed.
End Link.

Section Reconciling.
Context {N : Type} `{StateDir N} `{Channel N} `{Utf8} `{Manifests} `{!OsClock N} `{!LinkClock N}.
Context (fuel : nat) (Hfuel : (41 <= fuel)%nat).

Lemma nd_reconcile_one root dirs before during id rec n : never_diverges (reconcile_one (N:=N) fuel root dirs before during id rec n).
Proof.
  pose proof (nd_others fuel Hfuel before) as Hb. pose proof (nd_others fuel Hfuel during) as Hd.
  pose proof (nd__start fuel Hfuel id root dirs (rn_backend rec) true) as Hs.
  unfold reconcile_one, start, restore_intent, setdefault. ending.
Qed.

Lemma nd_reconcile_each root dirs l : forall schedule n, never_diverges (reconcile_each (N:=N) fuel root dirs schedule l n).
Proof.
  induction l as [|[id rec] l IH]; intros schedule n; cbn [reconcile_each]; [done |].
  destruct (match schedule with s :: _ => s | [] => ([], []) end). apply nd_bind; [apply nd_reconcile_one | intros; apply IH].
Qed.

Lemma nd_reconcile patience root dirs link t schedule : (1 <= patience)%nat -> t <= 500000 * (Z.of_nat patience - 1) ->
  never_diverges (reconcile_running_tools (N:=N) fuel patience root dirs link t schedule).
Proof.
  intros Hp Ht. unfold reconcile_running_tools. apply nd_catch; [|intros e; destruct (is_exception e); done].
  apply nd_bind.
  - destruct link as [lk|]; [|done]. apply nd_sys. intros k. by destruct (wait_finishes lk t patience Hp Ht k).
  - intros up. destruct (negb up); [done |]. apply nd_bind; [apply nd_lock, nd_load | intros; apply nd_reconcile_each].
Qed.
End Reconciling.

(** ** The promises *)

Section Promises.
Context {N : Type} `{StateDir N} `{Channel N} `{Utf8} `{Manifests} `{!OsClock N}.
Implicit Types (w : yard N).

(** What is known: the records of the state file, and those that exceptions
    carried out of an operation. *)
Definition named w (r : running_tool) : Prop := (exists id, dget (y_state w) id = Some r) \/ In r (y_raised w).

(** Between [w] and [w'] nothing was forgotten: a process spawned in between
    has vanished since, or a known record of this boot names it and calls it
    exited only if it vanished; a child that was named before is named by a known
    record with the same children, or had exited, or has a receipt. *)
Definition accounted w w' : Prop := exists l, k_log (y_kernel w') = k_log (y_kernel w) ++ l
  /\ (forall what pid post, after what pid l post -> vanished pid post \/
       exists r, named w' r /\ k_boot (y_kernel w') = Some (rn_boot_id r) /\ 0 <= pid /\ names r what pid /\ (exited_field what r = true -> vanished pid post))
  /\ (forall r0 what p, named w r0 -> In (what, Some p) (children r0) -> settled_child r0 what p (k_boot (y_kernel w')) l \/
       exists r, named w' r /\ heir r0 r /\ (exited_field what r = true -> settled_child r0 what p (k_boot (y_kernel w')) l)).

(** A save that was interrupted; for the command line, one that failed. *)
Definition save_lost (cli : bool) (ev : file_event) : bool :=
  match ev with FSaved (Some e) => cli || negb (is_exception e) | _ => false end.

Lemma lost_cut cli e : is_exception e = false -> save_lost cli (FSaved (Some e)) = true.
Proof. intros He. cbn. rewrite He. apply orb_true_r. Qed.

Lemma lost_cli cli e : cli = true -> save_lost cli (FSaved (Some e)) = true.
Proof. by intros ->. Qed.

Lemma sound_start w : sound (k_log (y_kernel w)) (named w) w.
Proof.
  split; [done |]. exists []. rewrite app_nil_r. split; [done |]. split.
  - intros what pid post (pre & req & E). by destruct pre.
  - intros r0 what p Hr Hin. right. exists r0. split; [exact Hr |]. split; [done |]. by left.
Qed.

(** C29. Whatever operations panel, watchdog and command line run under the lock,
    in whatever order, and whatever machine, file system and secret service
    answer: all of them end, and nothing is forgotten. Every process they
    spawned has vanished or is named by the state file or by the error an
    operation raised, and so is every child that was recorded before. The
    exceptions, visible in the events, are an interrupted save and, once the
    command line is among the operations, any failed one. That they end is for a
    clock that does not go back ([OsClock]) and 41 turns of each polling loop. *)
Theorem operations_forget_nothing fuel ops w : (41 <= fuel)%nat ->
  (others fuel ops w).1 = Done tt /\ exists ev, y_events (others fuel ops w).2 = y_events w ++ ev /\
    ((exists e, In e ev /\ save_lost (existsb from_cli ops) e = true) \/ accounted w (others fuel ops w).2).
Proof.
  intros Hf. pose proof (nd_others fuel Hf ops w) as Hd.
  destruct (tri_others (k_log (y_kernel w)) (named w) (save_lost (existsb from_cli ops)) (lost_cut _) fuel ops
    (fun E e => lost_cli _ e E) w (sound_start w)) as (ev & L & Ho).
  assert (forall e, (others fuel ops w).1 <> Throw e) as Ht.
  { clear. revert w. induction ops as [|op ops IH]; intros w e; cbn [others]; [done |]. unfold mbind, M_bind, elsewhere, catch.
    destruct (surfaced (run_op fuel op) w) as [[[] | e' |] w1]; [apply IH | cbn; apply IH | done]. }
  destruct (others fuel ops w) as [[[] | e |] w'] eqn:E; cbn [fst snd] in *; [| by destruct (Ht e) | done].
  split; [done |]. exists ev. split; [done |]. destruct Ho as [|[_ Ho]]; [by left | by right].
Qed.

(** The reconciler ends and forgets nothing either, whatever other threads
    do to the state file between its steps: patience for the secret service
    covers its waiting time at half a second per turn. *)
Theorem reconcile_forgets_nothing `{!LinkClock N} fuel patience root dirs link t schedule w :
  (41 <= fuel)%nat -> (1 <= patience)%nat -> t <= 500000 * (Z.of_nat patience - 1) ->
  let cli := existsb from_cli (List.concat (map (fun s => s.1 ++ s.2) schedule)) in
  let x := reconcile_running_tools fuel patience root dirs link t schedule w in
  x.1 <> Diverge /\ exists ev, y_events x.2 = y_events w ++ ev /\ ((exists e, In e ev /\ save_lost cli e = true) \/ accounted w x.2).
Proof.
  intros Hf Hp Ht cli x. pose proof (nd_reconcile fuel Hf patience root dirs link t schedule Hp Ht w) as Hd. split; [exact Hd |].
  destruct (steady_reconcile (k_log (y_kernel w)) (named w) (save_lost cli) (lost_cut _) fuel patience root dirs link t schedule
    (fun E e => lost_cli _ e E) w (sound_start w)) as (ev & L & Ho).
  exists ev. split; [exact L |]. subst x. destruct (reconcile_running_tools _ _ _ _ _ _ _ w) as [[n | e |] w'].
  - destruct Ho as [|[_ Ho]]; [by left | by right].
  - destruct Ho as [|[_ Ho]]; [by left | by right].
  - by destruct Hd.
Qed.

(** The private state and the credential view are written to private places
    only: in every sequence of operations a file is replaced only after each
    directory on its path was seen to be a directory and no link, the last one
    to be private to this user, and the file itself to be missing or a private
    regular file of this user with a single name. *)
Theorem state_stays_private fuel ops w : exists ev, y_events (others fuel ops w).2 = y_events w ++ ev /\
  forall pre p a post, ev = pre ++ FPublish p a :: post ->
    (forall q, In q (ancestors (absolute cwd p)) -> exists i, In (FLstat q (Stat i)) pre /\ st_kind i = NDirectory)
    /\ (exists i, In (FLstat (parent (absolute cwd p)) (Stat i)) pre /\ st_uid i = euid /\ private_mode i = true)
    /\ (In (FLstat p NotFound) pre \/ exists i, In (FLstat p (Stat i)) pre /\ private_file i = true).
Proof. apply grows_others. Qed.
End Promises.

(** ** Witnesses *)

#[local] Existing Instance ProcessFacts.sim_os.
#[local] Existing Instance ProcessFacts.sim_clock_laws.
#[local] Existing Instance RunnerFacts.sim_channel.
#[local] Existing Instance RunnerFacts.sim_utf8.
#[local] Existing Instance RunnerFacts.sim_launcher.

#[local] Instance sim_link_clock : LinkClock sim.
Proof. constructor; cbn; intros; lia. Defined.

Definition w_dir : stat_info := StatInfo NDirectory 0 448 2.

(** Private directories, no file yet, every write succeeds. *)
#[local] Instance sim_state_dir : StateDir sim := {|
  cwd := "/"; home_state := "/root/.local/state"; euid := 0;
  os_lstat := fun n p => ((if String.eqb (path_name p) "state.json" || String.eqb (path_name p) "channels.json"
                              || String.eqb (path_name p) "state.lock" then NotFound else Stat w_dir), n);
  os_mkdir := fun n _ => (true, n);
  os_publish := fun n _ => (Published, n);
  os_lock := fun n _ => (true, n);
  os_names := fun n _ => (["crm"%string], n);
  os_files := fun n => ((fun p => if String.eqb p "/t/crm/toolyard.toml" then Some "M"%string else None), n);
  os_resolve := fun n p => (p, n);
  os_rmtree := fun n _ => (true, n) |}.

#[local] Instance sim_manifests : Manifests := {|
  toml_loads := fun _ => Ok [("id"%string, JStr "crm");
    ("entrypoint"%string, JObj [("port"%string, JInt 9001); ("command"%string, JStr "python3 -m crm")])];
  file_digest := fun _ => "0"%string |}.

Definition w_yard : yard sim := Yard w_idle [] [] [] [].

(** What a start records, and what the credential view shows. *)
Example w_recorded :
  let w := (others 41 [OpStart "crm" "/t" [] "process" false] w_yard).2 in
  map fst (y_state w) = ["crm"%string] /\ (rn_handle <$> dget (y_state w) "crm") = Some "42"%string
  /\ y_channels w = [("crm"%string, "ab"%string)] /\ y_raised w = [].
Proof. vm_compute. by repeat split. Qed.

(** A record of a process of this boot that is gone. *)
Definition w_gone : yard sim := Yard w_idle [("crm"%string, w_running)] [] [] [].

(** The reconciler starts what the file says should run. *)
Example w_reconciled :
  let w := others 41 [OpStart "crm" "/t" [] "process" false] w_yard in
  let dead := Yard (Kernel (Sim 9000000 false true) None []) (y_state w.2) (y_channels w.2) [] [] in
  (reconcile_running_tools 41 130 "/t" [] None 60000000 [] dead).1 = Done 1.
Proof. vm_compute. reflexivity. Qed.

(** A tool that is stopped while the reconciler is about to start it comes back
    to the file: the start of a recovery finds no record, and the repair of the
    failed start restores the one of the snapshot. *)
Example stopped_tool_comes_back :
  let x := reconcile_running_tools 41 130 "/t" [] None 60000000 [([OpStop "crm"], [])] w_gone in
  x.1 = Done 0 /\ (others 41 [OpStop "crm"] w_gone).1 = Done tt
  /\ y_state (others 41 [OpStop "crm"] w_gone).2 = [] /\ map fst (y_state x.2) = ["crm"%string].
Proof. vm_compute. by repeat split. Qed.

Lemma operations_forget_nothing_witness :
  (others 41 [OpStart "crm" "/t" [] "process" false; OpStop "crm"] w_yard).1 = Done tt.
Proof. apply operations_forget_nothing. lia. Defined.

Lemma reconcile_forgets_nothing_witness :
  (reconcile_running_tools 41 130 "/t" [] None 60000000 [([OpStop "crm"], [])] w_gone).1 <> Diverge.
Proof. apply reconcile_forgets_nothing; lia. Defined.
