(* ===== verification/BrokerConfig.v ===== *)
(** admin/broker_config.py, and the part of broker/server.py that reads what it
    hands over: the configuration of the broker, from the operator's form to the
    started broker.

    A form or a parsed file is a [dict json]; the text that is saved is read
    back by [read_toml], the part of TOML that [_to_toml] writes.  [expanduser]
    and the default path of the database are parameters. *)

From stdpp Require Import base tactics list strings.
From Stdlib Require Import ZArith Lia Ascii.
From S2P Require Import Prelude PyStr Json Ip Url Policy Nod Yard.

(** ** Addresses: the properties of [ipaddress], and [socket.inet_aton] *)

Definition is_link_local (a : ip_addr) : bool :=
  match a with IPv4 ip => ip / 2 ^ 16 =? 43518 | IPv6 ip => ip / 2 ^ 118 =? 1018 end.

Definition is_multicast (a : ip_addr) : bool :=
  match a with IPv4 ip => ip / 2 ^ 28 =? 14 | IPv6 ip => ip / 2 ^ 120 =? 255 end.

(** The reserved networks of IPv6: the prefix and the bits after it. *)
Definition reserved_networks : list (Z * Z) :=
  [(0, 120); (1, 120); (1, 121); (1, 122); (1, 123); (1, 124); (2, 125); (3, 125); (4, 125); (5, 125); (6, 125); (14, 124);
   (30, 123); (62, 122); (508, 119)].

Definition is_reserved (a : ip_addr) : bool :=
  match a with
  | IPv4 ip => ip / 2 ^ 28 =? 15
  | IPv6 ip => existsb (fun n => ip / 2 ^ n.2 =? n.1) reserved_networks
  end.

Definition is_unspecified (a : ip_addr) : bool := match a with IPv4 ip => ip =? 0 | IPv6 ip => ip =? 0 end.

(** C's strtoul with base 0, of a text that starts with a digit. *)
Definition is_octal (c : ascii) : bool := between 48 55 c.
Fixpoint digits_in (p : ascii -> bool) (base acc : Z) (l : list ascii) : Z * list ascii :=
  match l with
  | c :: l' => if p c then digits_in p base (acc * base + hex_digit_val c) l' else (acc, l)
  | [] => (acc, [])
  end.
Definition strtoul (l : list ascii) : Z * list ascii :=
  match l with
  | "0"%char :: ("x" | "X")%char :: ((h :: _) as body) => if is_hex h then digits_in is_hex 16 0 body else (0, List.tl l)
  | "0"%char :: _ => digits_in is_octal 8 0 l
  | _ => digits_in is_digit 10 0 l
  end.

Definition c_space (c : ascii) : bool := (code c =? 32) || between 9 13 c.

(** Up to four numbers between dots, the last of which fills the bytes that are
    left; [more] is how many may follow. *)
Fixpoint aton (more : nat) (acc : Z) (l : list ascii) : option Z :=
  match l with
  | c :: _ =>
      if negb (is_digit c) then None
      else
        let '(val, rest) := strtoul l in
        let last :=
          if val <? 256 ^ (Z.of_nat more + 1) then Some (acc * 256 ^ (Z.of_nat more + 1) + val) else None in
        match rest with
        | [] => last
        | c :: rest' =>
            if Ascii.eqb c "."%char then
              match more with
              | O => None
              | S more' => if 255 <? val then None else aton more' (acc * 256 + val) rest'
              end
            else if c_space c then last else None
        end
  | [] => None
  end.

(** [None] is an OSError, or the ValueError of an embedded null. *)
Definition inet_aton (host : string) : option Z :=
  if has_char (chr 0) host then None else aton 3 0 (chars host).

Example aton_forms :
  inet_aton "2852039166" = Some 2852039166 /\ inet_aton "0xa9fea9fe" = Some 2852039166
  /\ inet_aton "0251.0376.0251.0376" = Some 2852039166 /\ inet_aton "169.254.43518" = Some 2852039166
  /\ inet_aton "169.16689662" = Some 2852039166 /\ inet_aton "1.2.3.256" = None /\ inet_aton "256.1" = None
  /\ inet_aton "08" = None /\ inet_aton "0x" = None /\ inet_aton "1.2.3.4.5" = None /\ inet_aton "4294967296" = None
  /\ inet_aton "1." = None /\ inet_aton "127.1 x" = Some 2130706433 /\ inet_aton "nod.example" = None.
Proof. by vm_compute. Qed.

(** ** validate_nod_url *)

Definition literal_ip (host : string) : option ip_addr :=
  match ip_address host with Some ip => Some ip | None => IPv4 <$> inet_aton host end.

Definition host_loopback (host : string) : bool :=
  String.eqb host "localhost" || match literal_ip host with Some ip => is_loopback ip | None => false end.

Definition unroutable (ip : ip_addr) : bool := is_link_local ip || is_multicast ip || is_reserved ip || is_unspecified ip.

Definition validate_nod_url (url : string) : res unit :=
  if PyStr.empty url then Ok tt
  else
    parsed ← urlsplit url;
    _ ← raise_if (negb (mem_str (u_scheme parsed) ["http"; "https"]%string)) ValueError;
    match u_hostname parsed with
    | None | Some EmptyString => Raise ValueError
    | Some host =>
        _ ← raise_if (String.eqb (u_scheme parsed) "http" && negb (host_loopback host)) ValueError;
        match literal_ip host with Some ip => raise_if (unroutable ip) ValueError | None => Ok tt end
    end.

Example nod_urls :
  map (fun u => is_ok (validate_nod_url u))
    [""; "https://nod.example.com"; "http://127.0.0.1:8080"; "http://localhost:8080"; "http://nod.example.com"; "ftp://nod";
     "https://"; "http://169.254.169.254/"; "https://[fe80::1]/"; "https://2852039166/"; "https://0251.0376.0251.0376/";
     "https://0xa9fea9fe/"; "https://[::ffff:169.254.169.254]/"; "https://0.0.0.0/"; "https://10.0.0.7"]%string
  = [true; true; true; true; false; false; false; false; false; false; false; false; false; false; true].
Proof. by vm_compute. Qed.

(** The IPv6 loopback is in a reserved network and is refused. *)
Example ipv6_loopback_refused :
  host_loopback "::1" = true /\ validate_nod_url "http://[::1]:8767" = Raise ValueError
  /\ validate_nod_url "https://[::1]:8767" = Raise ValueError.
Proof. by vm_compute. Qed.

(** ** BrokerRunConfig *)

Record BrokerRunConfig := Config {
  bc_port : Z; bc_db_path : string; bc_tools_root : string; bc_nod_url : string; bc_nod_token : string;
  bc_nod_channel : string; bc_approval_ttl : Z; bc_rate_limit : Z; bc_tool_dirs : list string }.

#[export] Instance BrokerRunConfig_eq_dec : EqDecision BrokerRunConfig.
Proof. solve_decision. Defined.

Definition new_config (db : string) : BrokerRunConfig :=
  Config 8765 db "tools" EmptyString EmptyString EmptyString 3600 120 [].

(** A value of a flat configuration. *)
Inductive setting := SBool (b : bool) | SInt (z : Z) | SStr (s : string) | SList (l : list string).

#[export] Instance setting_eq_dec : EqDecision setting.
Proof. solve_decision. Defined.

(** [asdict(config)], and [BrokerRunConfig] of values for some of the fields;
    [None] when a value has another type than its field is declared with, which
    is not modelled further. *)
Definition asdict (c : BrokerRunConfig) : dict setting :=
  [("port", SInt (bc_port c)); ("db_path", SStr (bc_db_path c)); ("tools_root", SStr (bc_tools_root c));
   ("nod_url", SStr (bc_nod_url c)); ("nod_token", SStr (bc_nod_token c)); ("nod_channel", SStr (bc_nod_channel c));
   ("approval_ttl", SInt (bc_approval_ttl c)); ("rate_limit", SInt (bc_rate_limit c));
   ("tool_dirs", SList (bc_tool_dirs c))]%string.

Definition int_field (d : dict setting) (k : string) (default : Z) : option Z :=
  match dget d k with None => Some default | Some (SInt z) => Some z | _ => None end.
Definition str_field (d : dict setting) (k : string) (default : string) : option string :=
  match dget d k with None => Some default | Some (SStr s) => Some s | _ => None end.
Definition list_field (d : dict setting) (k : string) (default : list string) : option (list string) :=
  match dget d k with None => Some default | Some (SList l) => Some l | _ => None end.

Definition config_of (c : BrokerRunConfig) (d : dict setting) : option BrokerRunConfig :=
  port ← int_field d "port" (bc_port c); db ← str_field d "db_path" (bc_db_path c);
  root ← str_field d "tools_root" (bc_tools_root c); url ← str_field d "nod_url" (bc_nod_url c);
  token ← str_field d "nod_token" (bc_nod_token c); channel ← str_field d "nod_channel" (bc_nod_channel c);
  ttl ← int_field d "approval_ttl" (bc_approval_ttl c); rate ← int_field d "rate_limit" (bc_rate_limit c);
  dirs ← list_field d "tool_dirs" (bc_tool_dirs c);
  Some (Config port db root url token channel ttl rate dirs).

Definition masked (c : BrokerRunConfig) : dict setting :=
  dset (asdict c) "nod_token" (SStr (if PyStr.empty (bc_nod_token c) then "not set" else "set")).

(** ** to_env and the surface of the panel *)

Definition given (k v : string) : dict string := if PyStr.empty v then [] else [(k, v)].

Definition to_env (c : BrokerRunConfig) : dict string :=
  [("TOOLSTACK_BROKER_PORT", str_of_Z (bc_port c)); ("TOOLSTACK_BROKER_DB", bc_db_path c);
   ("TOOLSTACK_TOOLS_ROOT", bc_tools_root c); ("TOOLSTACK_APPROVAL_TTL", str_of_Z (bc_approval_ttl c));
   ("TOOLSTACK_RATE_LIMIT", str_of_Z (bc_rate_limit c))]%string
  ++ given "TOOLSTACK_NOD_URL" (bc_nod_url c) ++ given "TOOLSTACK_NOD_TOKEN" (bc_nod_token c)
  ++ given "TOOLSTACK_NOD_CHANNEL" (bc_nod_channel c)
  ++ match bc_tool_dirs c with [] => [] | l => [("TOOLSTACK_TOOLS_DIRS"%string, join ":" l)] end.

Definition build_surface (c : BrokerRunConfig) : res (option nod_surface) :=
  if PyStr.empty (bc_nod_url c) || PyStr.empty (bc_nod_token c) then Ok None
  else Some <$> Nod.init (bc_nod_url c) (bc_nod_token c)
                  (if PyStr.empty (bc_nod_channel c) then "default" else bc_nod_channel c).

(** ** merge_update *)

(** The number of a field of the form; [None] leaves the field as it is. *)
Definition posted_int (raw : json) : res (option Z) :=
  match raw with
  | JStr s => if PyStr.empty s then Ok None else Some <$> py_int s
  | JInt z => Ok (Some z)
  | _ => Raise ValueError
  end.

Definition merge_int (data : dict json) (values : dict setting) (key : string) : res (dict setting) :=
  match dget data key with
  | None => Ok values
  | Some raw => n ← posted_int raw; Ok (match n with Some z => dset values key (SInt z) | None => values end)
  end.

Definition merge_text (data : dict json) (values : dict setting) (key : string) : res (dict setting) :=
  match dget data key with
  | None => Ok values
  | Some (JStr s) =>
      let value := strip s in
      Ok (if negb (PyStr.empty value) || negb (mem_str key ["tools_root"; "nod_token"]%string)
          then dset values key (SStr value) else values)
  | Some _ => Raise ValueError
  end.

Definition int_of (values : dict setting) (key : string) : Z := match dget values key with Some (SInt z) => z | _ => 0 end.
Definition str_of (values : dict setting) (key : string) : string := match dget values key with Some (SStr s) => s | _ => EmptyString end.

Definition merge_update (current : BrokerRunConfig) (data : dict json) : res BrokerRunConfig :=
  values ← foldM (merge_int data) (asdict current) ["port"; "approval_ttl"; "rate_limit"]%string;
  _ ← raise_if (negb ((1 <=? int_of values "port") && (int_of values "port" <=? 65535))) ValueError;
  _ ← raise_if (int_of values "approval_ttl" <? 1) ValueError;
  _ ← raise_if (int_of values "rate_limit" <? 0) ValueError;
  values ← foldM (merge_text data) values ["tools_root"; "nod_url"; "nod_token"; "nod_channel"]%string;
  _ ← validate_nod_url (str_of values "nod_url");
  res_of_option TypeError (config_of current values).

(** ** The file: _to_toml and the part of TOML it writes *)

Fixpoint replace_char (c : ascii) (by_ s : string) : string :=
  match s with
  | EmptyString => EmptyString
  | String d s' => if Ascii.eqb c d then by_ +:+ replace_char c by_ s' else String d (replace_char c by_ s')
  end.

Definition one (c : ascii) : string := String c EmptyString.

Definition _toml_str (value : string) : string :=
  one dquote +:+ replace_char dquote (String bslash (one dquote)) (replace_char bslash (String bslash (one bslash)) value)
  +:+ one dquote.

Definition toml_value (v : setting) : string :=
  match v with
  | SBool b => if b then "true" else "false"
  | SInt z => str_of_Z z
  | SList l => "[" +:+ join ", " (map _toml_str l) +:+ "]"
  | SStr s => _toml_str s
  end.

Definition _to_toml (data : dict setting) : string :=
  join (one newline) (map (fun kv => kv.1 +:+ " = " +:+ toml_value kv.2) data) +:+ one newline.

(** TOML does not allow control characters in a basic string, the tab apart. *)
Definition toml_illegal (c : ascii) : bool := (code c <? 32) && negb (code c =? 9) || (code c =? 127).

(** A basic string after its opening quote, with the text that follows it. *)
Fixpoint basic_string (s : string) : option (string * string) :=
  match s with
  | EmptyString => None
  | String c s1 =>
      if Ascii.eqb c dquote then Some (EmptyString, s1)
      else if Ascii.eqb c bslash then
        match s1 with
        | EmptyString => None
        | String e s2 =>
            let put (d : ascii) := '(x, r) ← basic_string s2; Some (String d x, r) in
            if Ascii.eqb e dquote then put dquote
            else if Ascii.eqb e bslash then put bslash
            else if Ascii.eqb e "b"%char then put (chr 8)
            else if Ascii.eqb e "t"%char then put (chr 9)
            else if Ascii.eqb e "n"%char then put (chr 10)
            else if Ascii.eqb e "f"%char then put (chr 12)
            else if Ascii.eqb e "r"%char then put (chr 13)
            else if Ascii.eqb e "u"%char then
              match s2 with
              | String h3 (String h2 (String h1 (String h0 s3))) =>
                  d ← hex4 h3 h2 h1 h0; '(x, r) ← basic_string s3; Some (String d x, r)
              | _ => None
              end
            else None
        end
      else if toml_illegal c then None
      else '(x, r) ← basic_string s1; Some (String c x, r)
  end.

(** The strings of an array on one line, after its opening bracket. *)
Fixpoint string_items (n : nat) (s : string) : option (list string * string) :=
  match n, s with
  | S n, String q s1 =>
      if Ascii.eqb q dquote then
        '(x, r) ← basic_string s1;
        if starts_with "]" r then Some ([x], str_drop 1 r)
        else if starts_with ", " r then '(l, r') ← string_items n (str_drop 2 r); Some (x :: l, r')
        else None
      else None
  | _, _ => None
  end.

Definition read_value (s : string) : option (setting * string) :=
  match s with
  | EmptyString => None
  | String c s1 =>
      if Ascii.eqb c dquote then '(x, r) ← basic_string s1; Some (SStr x, r)
      else if Ascii.eqb c "["%char then
        if starts_with "]" s1 then Some (SList [], str_drop 1 s1)
        else '(l, r) ← string_items (String.length s1) s1; Some (SList l, r)
      else if starts_with "true" s then Some (SBool true, str_drop 4 s)
      else if starts_with "false" s then Some (SBool false, str_drop 5 s)
      else match pnum s with Some (JInt z, r) => Some (SInt z, r) | _ => None end
  end.

Definition bare_key_char (c : ascii) : bool := is_word_dash c.

(** The lines of a file: each a bare key, an equals sign between blanks and a
    value; a key may not come twice. *)
Fixpoint read_lines (n : nat) (s : string) (acc : dict setting) : option (dict setting) :=
  match n with
  | O => None
  | S n =>
      if PyStr.empty s then Some acc
      else
        let '(key, r) := span bare_key_char s in
        if PyStr.empty key || dmem acc key || negb (starts_with " = " r) then None
        else
          '(v, r) ← read_value (str_drop 3 r);
          match r with
          | EmptyString => Some (acc ++ [(key, v)])
          | String c r' => if Ascii.eqb c newline then read_lines n r' (acc ++ [(key, v)]) else None
          end
  end.

(** What [tomllib] reads from a file of this form; TOMLDecodeError is a
    ValueError. *)
Definition read_toml (s : string) : res (dict setting) :=
  res_of_option ValueError (read_lines (S (String.length s)) s []).

(** ** load and save *)

Section Files.
Context (cwd : string) (userhome : string -> option string) (default_db_path : string).

(** [os.path.expanduser]; [userhome] answers the home of a user, of the current
    one for the empty name. *)
Definition expanduser (path : string) : string :=
  match path with
  | String c rest =>
      if Ascii.eqb c "~"%char then
        let '(user, found, tail) := partition_char slash rest in
        match userhome user with
        | None => path
        | Some home =>
            let p := rstrip_slash home +:+ (if found then String slash tail else EmptyString) in
            if PyStr.empty p then "/" else p
        end
      else path
  | EmptyString => path
  end.

(** What [_warn_if_suspect] writes to the log: the fields that are suspect. *)
Definition _warn_if_suspect (c : BrokerRunConfig) : list string :=
  (if (1 <=? bc_port c) && (bc_port c <=? 65535) then [] else ["port"%string])
  ++ (if bc_approval_ttl c <? 1 then ["approval_ttl"%string] else [])
  ++ (if bc_rate_limit c <? 0 then ["rate_limit"%string] else [])
  ++ match validate_nod_url (bc_nod_url c) with Ok _ => [] | Raise _ => ["nod_url"%string] end.

(** The saved text, if there is one; fields of other types than declared are
    not modelled and answer TypeError. *)
Definition load (file : option string) : res (BrokerRunConfig * list string) :=
  cfg ← match file with
        | None => Ok (new_config default_db_path)
        | Some text => data ← read_toml text; res_of_option TypeError (config_of (new_config default_db_path) data)
        end;
  let cfg := Config (bc_port cfg) (abspath cwd (expanduser (bc_db_path cfg))) (bc_tools_root cfg) (bc_nod_url cfg)
               (bc_nod_token cfg) (bc_nod_channel cfg) (bc_approval_ttl cfg) (bc_rate_limit cfg) (bc_tool_dirs cfg) in
  Ok (cfg, _warn_if_suspect cfg).

(** The text [save] hands to [_write_private]. *)
Definition saved_text (c : BrokerRunConfig) : string := _to_toml (asdict c).

End Files.

(** ** broker/server.py: what the started broker reads *)

Definition SystemExit_ : exn := OtherExn "SystemExit".
Definition DEFAULT_HOST : string := "127.0.0.1".
Definition DEFAULT_PORT : Z := 8765.

Definition bind_loopback (host : string) : bool :=
  String.eqb host "localhost" || match ip_address host with Some a => is_loopback a | None => false end.

Definition _configured_host (env : dict string) : res string :=
  let host := match dget env "TOOLSTACK_BROKER_HOST" with Some (String _ _ as v) => v | _ => DEFAULT_HOST end in
  let allow := mem_str (lower (default EmptyString (dget env "TOOLSTACK_BROKER_ALLOW_NONLOOPBACK"))) ["1"; "true"; "yes"]%string in
  if negb (bind_loopback host) && negb allow then Raise SystemExit_ else Ok host.

Definition _configured_port (env : dict string) : res Z :=
  match dget env "TOOLSTACK_BROKER_PORT" with
  | None => Ok DEFAULT_PORT
  | Some raw => match py_int raw with Ok z => Ok z | Raise _ => Raise SystemExit_ end
  end.

(** What [main] and [build_server] take from the environment; [F] are the
    floats and [py_float] is [float] of a text. *)
Record startup (F : Type) := Startup {
  su_host : string; su_port : Z; su_db : option string; su_tools_root : option string; su_tool_dirs : list string;
  su_surface : option nod_surface; su_approval_ttl : F; su_rate_limit : Z }.
Arguments Startup {F}.
Arguments su_host {F}.
Arguments su_port {F}.
Arguments su_db {F}.
Arguments su_tools_root {F}.
Arguments su_tool_dirs {F}.
Arguments su_surface {F}.
Arguments su_approval_ttl {F}.
Arguments su_rate_limit {F}.

Definition build_server {F} (py_float : string -> res F) (env : dict string) : res (startup F) :=
  let raw_dirs := default EmptyString (dget env "TOOLSTACK_TOOLS_DIRS") in
  let tool_dirs := List.filter (fun d => negb (PyStr.empty d)) (split_char ":" raw_dirs) in
  host ← _configured_host env;
  port ← _configured_port env;
  surface ← Nod.from_env env;
  ttl ← py_float (default "3600"%string (dget env "TOOLSTACK_APPROVAL_TTL"));
  rate ← py_int (default "120"%string (dget env "TOOLSTACK_RATE_LIMIT"));
  Ok (Startup host port (dget env "TOOLSTACK_BROKER_DB") (dget env "TOOLSTACK_TOOLS_ROOT") tool_dirs surface ttl rate).

(** [{**os.environ, **config.to_env()}]. *)
Definition child_env (environ : dict string) (c : BrokerRunConfig) : dict string :=
  fold_left (fun env kv => dset env kv.1 kv.2) (to_env c) environ.
