(* ===== verification/BrokerConfigFacts.v ===== *)
(** What the broker's configuration guarantees: an update decides exactly the
    fields of the form, an approval service is never at an address the resolver
    reads as unroutable, a saved file loads again, and the started broker reads
    what the panel set. *)

From stdpp Require Import base tactics list strings.
From Stdlib Require Import ZArith Lia Ascii DecimalString.
From S2P Require Import Prelude PyStr Json JsonFacts Ip Url Policy Nod Yard BrokerConfig.

(** ** The file is read back *)

Definition clean (s : string) : bool := all_chars (fun c => negb (toml_illegal c)) s.

Definition clean_setting (v : setting) : bool :=
  match v with SStr s => clean s | SList l => forallb clean l | _ => true end.

Lemma str_app_eq (c : ascii) (b : string) : one c +:+ b = String c b.
Proof. done. Qed.

Definition toml_char (c : ascii) : string :=
  if Ascii.eqb dquote c then String bslash (one dquote) else if Ascii.eqb bslash c then String bslash (one bslash) else one c.

Fixpoint toml_body (s : string) : string :=
  match s with EmptyString => EmptyString | String c s' => toml_char c +:+ toml_body s' end.


Lemma toml_body_spec s :
  replace_char dquote (String bslash (one dquote)) (replace_char bslash (String bslash (one bslash)) s) = toml_body s.
Proof.
  induction s as [|c s IH]; [done |]. cbn [replace_char toml_body]. unfold toml_char.
  destruct (Ascii.eqb_spec bslash c) as [<-|Hb].
  - cbn. by rewrite <- IH.
  - cbn [replace_char]. destruct (Ascii.eqb dquote c); by rewrite <- IH.
Qed.

Lemma basic_string_escaped c s : Ascii.eqb c dquote || Ascii.eqb c bslash = true ->
  basic_string (String bslash (String c s)) = '(x, r) ← basic_string s; Some (String c x, r).
Proof. intros [->%Ascii.eqb_eq | ->%Ascii.eqb_eq]%orb_true_iff; done. Qed.

Lemma basic_string_reads s rest :
  basic_string (toml_body s +:+ String dquote rest) = if clean s then Some (s, rest) else None.
Proof.
  induction s as [|c s IH]; [done |]. cbn [toml_body]. rewrite str_assoc. unfold toml_char, clean, all_chars in *.
  cbn [chars String.list_ascii_of_string forallb].
  destruct (Ascii.eqb_spec dquote c) as [<-|Hq]; [|destruct (Ascii.eqb_spec bslash c) as [<-|Hb]].
  - rewrite str_cons_app, str_app_eq. rewrite basic_string_escaped, IH by done. by destruct (forallb _ _).
  - rewrite str_cons_app, str_app_eq. rewrite basic_string_escaped, IH by done. by destruct (forallb _ _).
  - rewrite str_app_eq. cbn [basic_string]. rewrite (proj2 (Ascii.eqb_neq c dquote)), (proj2 (Ascii.eqb_neq c bslash)) by congruence.
    destruct (toml_illegal c); [done |]. rewrite IH. cbn. unfold chars. by destruct (forallb _ _).
Qed.

Lemma toml_str_reads s rest : exists body, _toml_str s +:+ rest = String dquote body
  /\ basic_string body = if clean s then Some (s, rest) else None.
Proof.
  exists (toml_body s +:+ String dquote rest). split; [|apply basic_string_reads].
  unfold _toml_str. rewrite toml_body_spec, !str_app_eq, str_cons_app, str_assoc. done.
Qed.

Definition comma_strs (l : list string) : string := foldr (fun y acc => ", " +:+ _toml_str y +:+ acc) EmptyString l.

Lemma drop1 c s : str_drop 1 (String c s) = s.
Proof. exact (of_chars_chars s). Qed.
Lemma drop2 c d s : str_drop 2 (String c (String d s)) = s.
Proof. exact (of_chars_chars s). Qed.

Lemma string_items_read l : forall n x rest, (length l < n)%nat ->
  string_items n (_toml_str x +:+ comma_strs l +:+ "]" +:+ rest)
  = if forallb clean (x :: l) then Some (x :: l, rest) else None.
Proof.
  induction l as [|y l IH]; intros [|n] x rest Hn; [simpl in Hn; lia | | simpl in Hn; lia |].
  - destruct (toml_str_reads x (comma_strs [] +:+ "]" +:+ rest)) as (body & -> & Hb). cbn [string_items forallb].
    rewrite Ascii.eqb_refl, Hb. destruct (clean x); [|done].
    change (comma_strs [] +:+ "]" +:+ rest) with ("]" +:+ rest). cbn [mbind option_bind andb].
    rewrite starts_with_app. change ("]" +:+ rest) with (String "]" rest). by rewrite drop1.
  - destruct (toml_str_reads x (comma_strs (y :: l) +:+ "]" +:+ rest)) as (body & -> & Hb). cbn [string_items].
    rewrite Ascii.eqb_refl, Hb. cbn [forallb]. destruct (clean x); [|done]. cbn [mbind option_bind comma_strs foldr andb].
    fold (comma_strs l). rewrite !str_assoc.
    change (starts_with "]" (", " +:+ _toml_str y +:+ comma_strs l +:+ "]" +:+ rest)) with false. cbn iota.
    rewrite starts_with_app.
    change (", " +:+ _toml_str y +:+ comma_strs l +:+ "]" +:+ rest) with (String "," (String " " (_toml_str y +:+ comma_strs l +:+ "]" +:+ rest))).
    rewrite drop2, IH by (simpl in Hn; lia). cbn [forallb]. by destruct (clean y && forallb clean l).
Qed.

Lemma length_str_app (a b : string) : String.length (a +:+ b) = (String.length a + String.length b)%nat.
Proof. by rewrite <- !length_chars, chars_app, length_app. Qed.

Lemma comma_strs_length l x : (length l < String.length (_toml_str x +:+ comma_strs l))%nat.
Proof.
  rewrite length_str_app. unfold _toml_str. rewrite str_app_eq. cbn [String.length].
  enough (length l <= String.length (comma_strs l))%nat by lia. induction l as [|y l IH]; [simpl; lia |].
  cbn [comma_strs foldr length]. fold (comma_strs l). rewrite !length_str_app. cbn. lia.
Qed.

Lemma join_strs x l : join ", " (map _toml_str (x :: l)) = _toml_str x +:+ comma_strs l.
Proof. cbn [map join]. f_equal. induction l as [|y l IH]; [done |]. cbn [map foldr comma_strs]. by rewrite IH. Qed.

Definition line_end (rest : string) : Prop := exists r, rest = String newline r.

Lemma read_value_list l rest :
  read_value (toml_value (SList l) +:+ rest) = if forallb clean l then Some (SList l, rest) else None.
Proof.
  cbn [toml_value]. rewrite !str_assoc. destruct l as [|x l].
  - change (read_value ("[" +:+ "]" +:+ rest) = Some (SList [], rest)). change ("[" +:+ "]" +:+ rest) with (String "[" (String "]" rest)).
    cbn [read_value]. by rewrite drop1.
  - rewrite join_strs, str_assoc.
    change (("[" +:+ _toml_str x +:+ comma_strs l +:+ "]" +:+ rest)) with (String "[" (_toml_str x +:+ comma_strs l +:+ "]" +:+ rest)).
    cbn [read_value]. change (starts_with "]" (_toml_str x +:+ comma_strs l +:+ "]" +:+ rest)) with false.
    change (Ascii.eqb "[" dquote) with false. change (Ascii.eqb "[" "[") with true. cbn iota.
    rewrite string_items_read; [by destruct (forallb clean (x :: l)) |].
    pose proof (comma_strs_length l x). rewrite <- str_assoc, length_str_app. lia.
Qed.

Lemma read_value_num s z rest : pnum s = Some (JInt z, EmptyString) -> read_value (s +:+ String newline rest) = Some (SInt z, String newline rest).
Proof.
  intros H. pose proof (pnum_start _ _ H) as Hs. pose proof (pnum_app _ _ (String newline rest) H eq_refl) as Hp.
  destruct s as [|c s]; [done |]. rewrite str_cons_app in *. cbn [read_value].
  assert (Hc : is_digit c = true \/ c = "-"%char) by (destruct Hs as [? | [? _]]; auto).
  assert (Hne : forall d, is_digit d = false -> d <> "-"%char -> Ascii.eqb c d = false).
  { intros d Hd Hm. apply Ascii.eqb_neq. intros ->. destruct Hc; congruence. }
  assert (Hst : forall d t u, is_digit d = false -> d <> "-"%char -> starts_with (String d t) (String c u) = false).
  { intros d t u Hd Hm. cbn. rewrite Ascii.eqb_sym. by rewrite Hne. }
  by rewrite !Hne, !Hst, Hp by done.
Qed.

Lemma read_value_reads v rest : read_value (toml_value v +:+ String newline rest)
  = if clean_setting v then Some (v, String newline rest) else None.
Proof.
  destruct v as [[] | z | s | l].
  - etrans; [exact (eq_refl (Some (SBool true, of_chars (chars (String newline rest))))) |]. by rewrite of_chars_chars.
  - etrans; [exact (eq_refl (Some (SBool false, of_chars (chars (String newline rest))))) |]. by rewrite of_chars_chars.
  - apply read_value_num, pnum_int.
  - cbn [toml_value clean_setting]. destruct (toml_str_reads s (String newline rest)) as (body & -> & Hb). cbn [read_value].
    rewrite Ascii.eqb_refl, Hb. by destruct (clean s).
  - apply read_value_list.
Qed.

Definition line (kv : string * setting) : string := kv.1 +:+ " = " +:+ toml_value kv.2 +:+ one newline.

Lemma to_toml_lines d : d <> [] -> _to_toml d = List.fold_right (fun kv acc => line kv +:+ acc) EmptyString d.
Proof.
  intros Hd. unfold _to_toml. destruct d as [|kv d]; [done |]. clear Hd. cbn [map join fold_right]. revert kv.
  induction d as [|kv' d IH]; intros kv.
  - cbn [map foldr fold_right]. unfold line. by rewrite !str_app_nil, !str_assoc.
  - cbn [map foldr fold_right]. rewrite <- IH. unfold line at 1. by rewrite !str_assoc.
Qed.

Definition bare (k : string) : bool := negb (PyStr.empty k) && all_chars bare_key_char k.

Lemma span_bare k rest : all_chars bare_key_char k = true -> span bare_key_char (k +:+ String " " rest) = (k, String " " rest).
Proof.
  unfold all_chars. induction k as [|c k IH]; [done |]. cbn [chars String.list_ascii_of_string forallb].
  intros [Hc Hk]%andb_true_iff. rewrite str_cons_app. cbn [span]. by rewrite Hc, IH.
Qed.

Lemma read_line n kv acc rest : bare kv.1 = true -> dmem acc kv.1 = false ->
  read_lines (S n) (line kv +:+ rest) acc = if clean_setting kv.2 then read_lines n rest (acc ++ [kv]) else None.
Proof.
  destruct kv as [k v]. unfold bare, line. cbn [fst snd]. intros [He Hb]%andb_true_iff Hm. rewrite !str_assoc. cbn [read_lines].
  destruct (PyStr.empty (k +:+ _)) eqn:E; [by destruct k |]. clear E.
  change (" = " +:+ toml_value v +:+ one newline +:+ rest) with (String " " ("= " +:+ toml_value v +:+ one newline +:+ rest)).
  rewrite span_bare by done. apply negb_true_iff in He. rewrite He, Hm. cbn [orb].
  change (starts_with " = " (String " " ("= " +:+ toml_value v +:+ one newline +:+ rest))) with (starts_with EmptyString (toml_value v +:+ one newline +:+ rest)).
  cbn [negb starts_with].
  rewrite (of_chars_chars (toml_value v +:+ one newline +:+ rest) : str_drop 3 (String " " ("= " +:+ toml_value v +:+ one newline +:+ rest)) = _).
  rewrite str_app_eq, read_value_reads. by destruct (clean_setting v).
Qed.

Lemma read_lines_spec d : forall n acc, Forall (fun kv => bare kv.1 = true) d -> dict_wf (acc ++ d) -> (length d < n)%nat ->
  read_lines n (List.fold_right (fun kv acc => line kv +:+ acc) EmptyString d) acc
  = if forallb (fun kv => clean_setting kv.2) d then Some (acc ++ d) else None.
Proof.
  induction d as [|kv d IH]; intros [|n] acc Hb Hw Hn; [simpl in Hn; lia | cbn; by rewrite app_nil_r | simpl in Hn; lia |].
  apply Forall_cons_1 in Hb as [Hkv Hb]. cbn [fold_right forallb]. rewrite read_line; [| done |].
  - destruct (clean_setting kv.2); [|done]. rewrite IH; [by rewrite <- (assoc_L (++)) | done | by rewrite <- (assoc_L (++)) | simpl in Hn; lia].
  - unfold dmem. apply bool_decide_eq_false. intros [v Hv]. unfold dict_wf, dkeys in Hw. rewrite map_app, NoDup_app in Hw.
    destruct Hw as (_ & Hw & _). apply (Hw kv.1); [|by left]. apply list_elem_of_In, in_map_iff. exists (kv.1, v). split; [done | by apply dget_In].
Qed.

Lemma lines_length d : (length d <= String.length (List.fold_right (fun kv acc => line kv +:+ acc) EmptyString d))%nat.
Proof.
  assert (forall kv, 1 <= String.length (line kv))%nat as Hl.
  { intros kv. unfold line. rewrite !length_str_app. change (String.length (one newline)) with 1%nat. lia. }
  induction d as [|kv d IH]; [simpl; lia |]. cbn [fold_right length]. rewrite length_str_app. specialize (Hl kv). lia.
Qed.

Lemma read_to_toml d : d <> [] -> Forall (fun kv => bare kv.1 = true) d -> dict_wf d ->
  read_toml (_to_toml d) = if forallb (fun kv => clean_setting kv.2) d then Ok d else Raise ValueError.
Proof.
  intros Hd Hb Hw. unfold read_toml. rewrite to_toml_lines by done. pose proof (lines_length d) as Hl.
  rewrite read_lines_spec; [by destruct (forallb _ _) | done | done |]. lia.
Qed.

Definition clean_config (c : BrokerRunConfig) : bool :=
  forallb clean ([bc_db_path c; bc_tools_root c; bc_nod_url c; bc_nod_token c; bc_nod_channel c] ++ bc_tool_dirs c).

Definition with_db (c : BrokerRunConfig) (db : string) : BrokerRunConfig :=
  Config (bc_port c) db (bc_tools_root c) (bc_nod_url c) (bc_nod_token c) (bc_nod_channel c) (bc_approval_ttl c)
    (bc_rate_limit c) (bc_tool_dirs c).

Lemma asdict_wf c : dict_wf (asdict c).
Proof. unfold dict_wf. apply (bool_decide_unpack _). by vm_compute. Qed.

Lemma read_saved c : read_toml (saved_text c) = if clean_config c then Ok (asdict c) else Raise ValueError.
Proof.
  unfold saved_text. rewrite read_to_toml; [| done | by repeat constructor | apply asdict_wf].
  unfold clean_config. cbn [asdict forallb clean_setting snd app]. rewrite !andb_true_l, andb_true_r, !andb_assoc. done.
Qed.

(** A configuration that was saved is loaded again field for field, only its
    database path made absolute, exactly when none of its texts holds a control
    character other than a tab; otherwise loading it fails. *)
Theorem saved_config_loads cwd userhome db c :
  load cwd userhome db (Some (saved_text c))
  = if clean_config c then
      let c := with_db c (abspath cwd (expanduser userhome (bc_db_path c))) in Ok (c, _warn_if_suspect c)
    else Raise ValueError.
Proof. unfold load. rewrite read_saved. by destruct (clean_config c). Qed.

(** A form may post a text with a line break inside, which is saved and then
    keeps the panel from loading its configuration. *)
Example broken_save : exists c,
  merge_update (new_config "/db") [("nod_channel"%string, JStr ("a" +:+ one newline +:+ "b"))] = Ok c
  /\ load "/" (fun _ => None) "/db" (Some (saved_text c)) = Raise ValueError.
Proof. eexists. split; [by vm_compute | by vm_compute]. Qed.

(** ** An update decides exactly the fields of the form *)

Definition int_after (data : dict json) (key : string) (old : Z) : res Z :=
  match dget data key with None => Ok old | Some raw => default old <$> posted_int raw end.

Definition text_after (data : dict json) (key : string) (keep_empty : bool) (old : string) : res string :=
  match dget data key with
  | None => Ok old
  | Some (JStr s) => Ok (if PyStr.empty (strip s) && keep_empty then old else strip s)
  | Some _ => Raise ValueError
  end.

Definition in_range (port ttl rate : Z) : bool := (1 <=? port) && (port <=? 65535) && (1 <=? ttl) && (0 <=? rate).

Ltac merge_field data k :=
  unfold merge_int, merge_text, int_after, text_after; destruct (dget data k) as [v|]; [|reflexivity];
  first [ destruct (posted_int v) as [[z|]|]; reflexivity
        | destruct v as [| | | | s | |]; try reflexivity; cbn [mem_str existsb];
          destruct (PyStr.empty (strip s)) eqn:E; [|reflexivity]; destruct (strip s); [reflexivity | discriminate E] ].

Section Merge.
Context (data : dict json).
Implicit Types (port ttl rate : Z) (db root url token channel : string) (dirs : list string).

Lemma merge_ints port db root url token channel ttl rate dirs :
  foldM (merge_int data) (asdict (Config port db root url token channel ttl rate dirs)) ["port"; "approval_ttl"; "rate_limit"]%string
  = (port ← int_after data "port" port; ttl ← int_after data "approval_ttl" ttl; rate ← int_after data "rate_limit" rate;
     Ok (asdict (Config port db root url token channel ttl rate dirs))).
Proof.
  assert (forall port, merge_int data (asdict (Config port db root url token channel ttl rate dirs)) "port"
    = (port ← int_after data "port" port; Ok (asdict (Config port db root url token channel ttl rate dirs)))) as H1
    by (intros; merge_field data "port"%string).
  assert (forall port ttl, merge_int data (asdict (Config port db root url token channel ttl rate dirs)) "approval_ttl"
    = (ttl ← int_after data "approval_ttl" ttl; Ok (asdict (Config port db root url token channel ttl rate dirs)))) as H2
    by (intros; merge_field data "approval_ttl"%string).
  assert (forall port ttl rate, merge_int data (asdict (Config port db root url token channel ttl rate dirs)) "rate_limit"
    = (rate ← int_after data "rate_limit" rate; Ok (asdict (Config port db root url token channel ttl rate dirs)))) as H3
    by (intros; merge_field data "rate_limit"%string).
  cbn [foldM]. rewrite H1. destruct (int_after data "port" port); [|done]. cbn [mbind res_bind]. rewrite H2.
  destruct (int_after data "approval_ttl" ttl); [|done]. cbn [mbind res_bind]. rewrite H3. by destruct (int_after _ _ _).
Qed.

Lemma merge_texts port db root url token channel ttl rate dirs :
  foldM (merge_text data) (asdict (Config port db root url token channel ttl rate dirs)) ["tools_root"; "nod_url"; "nod_token"; "nod_channel"]%string
  = (root ← text_after data "tools_root" true root; url ← text_after data "nod_url" false url;
     token ← text_after data "nod_token" true token; channel ← text_after data "nod_channel" false channel;
     Ok (asdict (Config port db root url token channel ttl rate dirs))).
Proof.
  assert (forall root, merge_text data (asdict (Config port db root url token channel ttl rate dirs)) "tools_root"
    = (root ← text_after data "tools_root" true root; Ok (asdict (Config port db root url token channel ttl rate dirs)))) as H1
    by (intros; merge_field data "tools_root"%string).
  assert (forall root url, merge_text data (asdict (Config port db root url token channel ttl rate dirs)) "nod_url"
    = (url ← text_after data "nod_url" false url; Ok (asdict (Config port db root url token channel ttl rate dirs)))) as H2
    by (intros; merge_field data "nod_url"%string).
  assert (forall root url token, merge_text data (asdict (Config port db root url token channel ttl rate dirs)) "nod_token"
    = (token ← text_after data "nod_token" true token; Ok (asdict (Config port db root url token channel ttl rate dirs)))) as H3
    by (intros; merge_field data "nod_token"%string).
  assert (forall root url token channel, merge_text data (asdict (Config port db root url token channel ttl rate dirs)) "nod_channel"
    = (channel ← text_after data "nod_channel" false channel; Ok (asdict (Config port db root url token channel ttl rate dirs)))) as H4
    by (intros; merge_field data "nod_channel"%string).
  cbn [foldM]. rewrite H1. destruct (text_after data "tools_root" true root); [|done]. cbn [mbind res_bind]. rewrite H2.
  destruct (text_after data "nod_url" false url); [|done]. cbn [mbind res_bind]. rewrite H3.
  destruct (text_after data "nod_token" true token); [|done]. cbn [mbind res_bind]. rewrite H4. by destruct (text_after _ _ _ _).
Qed.
End Merge.

Lemma res_bind_assoc {A B C} (m : res A) (f : A -> res B) (g : B -> res C) :
  mbind (M:=res) g (mbind (M:=res) f m) = mbind (M:=res) (fun a => mbind (M:=res) g (f a)) m.
Proof. by destruct m. Qed.

(** An update of the configuration decides exactly the fields of the form:
    a posted number or text replaces the field, an empty number, root or token
    leaves it, what is not posted and the fields the form does not have stay;
    it is refused when a number is out of its range or the approval service is
    not at an acceptable address. *)
Theorem merge_update_exact c data :
  merge_update c data
  = (port ← int_after data "port" (bc_port c); ttl ← int_after data "approval_ttl" (bc_approval_ttl c);
     rate ← int_after data "rate_limit" (bc_rate_limit c);
     _ ← raise_if (negb (in_range port ttl rate)) ValueError;
     root ← text_after data "tools_root" true (bc_tools_root c); url ← text_after data "nod_url" false (bc_nod_url c);
     token ← text_after data "nod_token" true (bc_nod_token c); channel ← text_after data "nod_channel" false (bc_nod_channel c);
     _ ← validate_nod_url url;
     Ok (Config port (bc_db_path c) root url token channel ttl rate (bc_tool_dirs c))).
Proof.
  destruct c as [port db root url token channel ttl rate dirs]. unfold merge_update. rewrite merge_ints.
  cbn [bc_port bc_db_path bc_tools_root bc_nod_url bc_nod_token bc_nod_channel bc_approval_ttl bc_rate_limit bc_tool_dirs].
  rewrite !res_bind_assoc. destruct (int_after data "port" port) as [port'|]; [|done]. cbn [mbind res_bind].
  destruct (int_after data "approval_ttl" ttl) as [ttl'|]; [|done]. cbn [mbind res_bind].
  destruct (int_after data "rate_limit" rate) as [rate'|]; [|done]. cbn [mbind res_bind].
  change (int_of (asdict _) "port") with port'. change (int_of (asdict _) "approval_ttl") with ttl'.
  change (int_of (asdict _) "rate_limit") with rate'. unfold in_range. rewrite (Z.leb_antisym ttl' 1), (Z.leb_antisym rate' 0).
  destruct (_ && (port' <=? _)); [|done]. destruct (ttl' <? 1); [done |]. destruct (rate' <? 0); [done |]. cbn [raise_if negb andb mbind res_bind].
  rewrite merge_texts. destruct (text_after data "tools_root" true root) as [root'|]; [|done]. cbn [mbind res_bind].
  destruct (text_after data "nod_url" false url) as [url'|]; [|done]. cbn [mbind res_bind].
  destruct (text_after data "nod_token" true token) as [token'|]; [|done]. cbn [mbind res_bind].
  destruct (text_after data "nod_channel" false channel) as [channel'|]; [|done]. cbn [mbind res_bind].
  change (str_of (asdict _) "nod_url") with url'. by destruct (validate_nod_url url').
Qed.

(** ** Both readings of an address agree *)

Lemma digits_in_stop p base l acc rest : forallb p l = true -> (match rest with c :: _ => p c = false | [] => True end) ->
  digits_in p base acc (l ++ rest) = (fold_left (fun acc c => acc * base + hex_digit_val c) l acc, rest).
Proof.
  revert acc. induction l as [|c l IH]; intros acc Hl Hr.
  - destruct rest as [|c rest]; [done |]. cbn. by rewrite Hr.
  - apply andb_true_iff in Hl as [Hc Hl]. cbn. rewrite Hc. by apply IH.
Qed.

Lemma parse_octet_spec s z : parse_octet s = Some z ->
  z = digits_to_Z s /\ z <= 255 /\ forallb is_digit (chars s) = true
  /\ (s = "0"%string \/ exists c t, s = String c t /\ c <> "0"%char).
Proof.
  unfold parse_octet. destruct (_ && _) eqn:E; [|done]. intros [= <-]. to_prop.
  match goal with H : isdigit s = true |- _ => rename H into Hd end.
  match goal with H : isascii s = true |- _ => rename H into Ha end.
  match goal with H : _ || _ = true |- _ => rename H into Hz end.
  split; [done |]. split; [done |]. unfold isdigit in Hd. apply andb_true_iff in Hd as [He Hd].
  unfold isascii, all_chars in Ha, Hd. rewrite forallb_forall in Ha, Hd.
  split.
  - apply forallb_forall. intros c Hc. specialize (Ha c Hc). specialize (Hd c Hc). unfold isdigit_char in Hd.
    destruct (is_digit c); [done |]. apply Z.ltb_lt in Ha. cbn [orb] in Hd. lia.
  - apply orb_true_iff in Hz as [Hz | Hz]; [left; by apply String.eqb_eq |]. right. destruct s as [|c t]; [done |]. exists c, t.
    split; [done |]. intros ->. done.
Qed.

Lemma hex_digit_digit c : is_digit c = true -> hex_digit_val c = code c - 48.
Proof. unfold hex_digit_val. by intros ->. Qed.

Lemma fold_digits_in l : forallb is_digit l = true -> forall acc,
  fold_left (fun acc c => acc * 10 + hex_digit_val c) l acc = fold_left (fun acc c => acc * 10 + (code c - 48)) l acc.
Proof.
  induction l as [|c l IH]; [done |]. intros [Hc Hl]%andb_true_iff acc. cbn [fold_left]. by rewrite hex_digit_digit, IH.
Qed.

(** An octet of the dotted form is read by the resolver as the same number. *)
Lemma strtoul_octet s z rest : parse_octet s = Some z -> (match rest with c :: _ => c = "."%char | [] => True end) ->
  strtoul (chars s ++ rest) = (z, rest) /\ z <= 255 /\ exists c t, chars s = c :: t /\ is_digit c = true.
Proof.
  intros H Hr. destruct (parse_octet_spec s z H) as (-> & Hz & Hd & Hs). destruct Hs as [-> | (c & t & -> & Hc)].
  - split; [|split; [done | by exists "0"%char, []]]. destruct rest as [|c rest]; [done |]. by subst.
  - cbn [chars String.list_ascii_of_string] in *. fold (chars t) in *. assert (is_digit c = true) as Hdc by by apply andb_true_iff in Hd as [? _].
    split; [|split; [done | by exists c, (chars t)]].
    transitivity (digits_in is_digit 10 0 ((c :: chars t) ++ rest)).
    + cbn [app]. destruct c as [[] [] [] [] [] [] [] []]; try reflexivity; try discriminate Hdc. by destruct Hc.
    + rewrite digits_in_stop; [|done | destruct rest; [done | by subst]]. by rewrite fold_digits_in.
Qed.

Lemma aton_dot n s z acc rest : parse_octet s = Some z ->
  aton (S n) acc (chars s ++ "."%char :: rest) = aton n (acc * 256 + z) rest.
Proof.
  intros H. destruct (strtoul_octet s z ("."%char :: rest) H eq_refl) as (E & Hz & c & t & Hc & Hd).
  rewrite Hc in *. cbn [app aton]. rewrite Hd. cbn [negb]. cbn [app] in E. rewrite E.
  change (Ascii.eqb "." ".") with true. cbn iota. by rewrite (proj2 (Z.ltb_ge 255 z)).
Qed.

Lemma aton_end s z acc : parse_octet s = Some z -> aton 0 acc (chars s) = Some (acc * 256 + z).
Proof.
  intros H. destruct (strtoul_octet s z [] H I) as (E & Hz & c & t & Hc & Hd). rewrite app_nil_r in E.
  rewrite Hc in *. cbn [aton]. rewrite Hd. cbn [negb]. rewrite E. change (256 ^ (Z.of_nat 0 + 1)) with 256.
  by rewrite (proj2 (Z.ltb_lt z 256)) by lia.
Qed.

Lemma parse_ipv4_aton s z : parse_ipv4 s = Some z -> aton 3 0 (chars s) = Some z /\ forallb (fun c => is_digit c || is_char "." c) (chars s) = true.
Proof.
  unfold parse_ipv4. intros H. destruct (split_char "." s) as [|a [|b [|c [|d []]]]] eqn:E; try discriminate H.
  pose proof (join_split "." s) as J. rewrite E in J. cbn [join foldr] in J. subst s.
  destruct (parse_octet a) as [na|] eqn:Ea; [|done]. destruct (parse_octet b) as [nb|] eqn:Eb; [|done].
  destruct (parse_octet c) as [nc|] eqn:Ec; [|done]. destruct (parse_octet d) as [nd|] eqn:Ed; [|done].
  injection H as <-. cbn [mbind option_bind].
  replace (chars (a +:+ "." +:+ b +:+ "." +:+ c +:+ "." +:+ d +:+ ""))
    with (chars a ++ "."%char :: chars b ++ "."%char :: chars c ++ "."%char :: chars d)
    by (rewrite !chars_app; cbn [chars String.list_ascii_of_string app]; by rewrite app_nil_r).
  rewrite !(aton_dot _ _ _ _ _ Ea), !(aton_dot _ _ _ _ _ Eb), !(aton_dot _ _ _ _ _ Ec), (aton_end _ _ _ Ed). split; [f_equal; lia |].
  destruct (parse_octet_spec _ _ Ea) as (_ & _ & Da & _), (parse_octet_spec _ _ Eb) as (_ & _ & Db & _),
    (parse_octet_spec _ _ Ec) as (_ & _ & Dc & _), (parse_octet_spec _ _ Ed) as (_ & _ & Dd & _).
  assert (forall l, forallb is_digit l = true -> forallb (fun c => is_digit c || is_char "." c) l = true) as Hw.
  { intros l Hl. rewrite forallb_forall in *. intros x Hx. by rewrite Hl. }
  rewrite !forallb_app. cbn [forallb]. rewrite !forallb_app. cbn [forallb]. rewrite !forallb_app. cbn [forallb]. by rewrite !Hw.
Qed.

Lemma digits_in_colon p base l acc t : p ":"%char = false -> forallb is_hex l = true ->
  exists d u, (digits_in p base acc (l ++ ":"%char :: t)).2 = d :: u /\ (is_hex d = true \/ d = ":"%char).
Proof.
  intros Hp. revert acc. induction l as [|c l IH]; intros acc Hl; cbn [app digits_in].
  - rewrite Hp. exists ":"%char, t. auto.
  - apply andb_true_iff in Hl as [Hc Hl]. destruct (p c); [by apply IH |]. exists c, (l ++ ":"%char :: t). auto.
Qed.

Lemma strtoul_colon l t : forallb is_hex l = true ->
  exists d u, (strtoul (l ++ ":"%char :: t)).2 = d :: u /\ (is_hex d = true \/ d = ":"%char).
Proof.
  intros Hl. assert (strtoul (l ++ ":"%char :: t) = digits_in is_octal 8 0 (l ++ ":"%char :: t)
    \/ strtoul (l ++ ":"%char :: t) = digits_in is_digit 10 0 (l ++ ":"%char :: t)) as [-> | ->]; [| by apply digits_in_colon..].
  destruct l as [|c [|c' l]]; [by right | |].
  - cbn [app]. destruct c as [[] [] [] [] [] [] [] []]; auto.
  - apply andb_true_iff in Hl as [_ [Hc' _]%andb_true_iff]. cbn [app].
    destruct c as [[] [] [] [] [] [] [] []]; auto. left.
    destruct c' as [[] [] [] [] [] [] [] []]; try reflexivity; discriminate Hc'.
Qed.

(** What starts like an address of IPv6 is none of IPv4. *)
Lemma aton_colon l t : forallb is_hex l = true -> aton 3 0 (l ++ ":"%char :: t) = None.
Proof.
  intros Hl. destruct (l ++ ":"%char :: t) as [|c r] eqn:E; [done |]. cbn [aton]. destruct (is_digit c); [|done]. cbn [negb].
  rewrite <- E. destruct (strtoul_colon l t Hl) as (d & u & Hs & Hd). destruct (strtoul _) as [v rest]. cbn [snd] in Hs. subst rest.
  destruct Hd as [Hd | ->]; [|done]. destruct (Ascii.eqb_spec d ".") as [->|]; [done |].
  destruct d as [[] [] [] [] [] [] [] []]; try reflexivity; discriminate Hd.
Qed.

Lemma hextets_first p l ip z : hextets (p :: l) ip = Some z -> exists h, part_val p = Some h.
Proof. cbn. destruct (part_val p) as [h|]; [by exists h | done]. Qed.

Lemma assemble_first p parts hi lo k z : assemble (p :: parts) (S hi) lo k = Some z -> exists h, part_val p = Some h.
Proof.
  unfold assemble. cbn [take]. destruct (hextets (p :: take hi parts) 0) as [ip|] eqn:E; [|done]. intros _. by eapply hextets_first.
Qed.

Lemma gaps_pos parts g : In g (gaps parts) -> exists g', g = S g'.
Proof. unfold gaps. intros [H _]%filter_In. apply in_seq in H. destruct g; [lia | by exists g]. Qed.

Lemma ipv6_first s z : ipv6_int s = Some z -> exists a r, s = a +:+ ":" +:+ r /\ forallb is_hex (chars a) = true.
Proof.
  unfold ipv6_int. destruct (PyStr.empty s); [done |]. destruct (ipv6_parts s) as [parts|] eqn:Ep; [|done]. cbn [mbind option_bind].
  intros H. pose proof (join_split ":" s) as J. unfold ipv6_parts in Ep.
  destruct (split_char ":" s) as [|a [|b [|c l]]] eqn:Es; try discriminate Ep. exists a. cbn [join foldr] in J.
  eexists. split; [symmetry; exact J |].
  assert (exists tail, parts = Text a :: tail) as [tail ->].
  { change (removelast (a :: b :: c :: l)) with (a :: removelast (b :: c :: l)) in Ep. cbn [map length] in Ep.
    change (S (S (S (length l))) <? 3)%nat with false in Ep. cbn iota in Ep.
    destruct (has_dot _); [destruct (parse_ipv4 _); [|done]; cbn [mbind option_bind] in Ep|]; injection Ep as <-; by eexists. }
  destruct (9 <? _)%nat; [done |]. cbn [part_empty] in H. destruct (PyStr.empty a) eqn:Ea; [by destruct a |].
  assert (exists h, parse_hextet a = Some h) as [h Hh].
  { destruct (gaps (Text a :: tail)) as [|g [|g' l']] eqn:Eg; [| |done].
    - destruct (_ && _); [|done]. cbn [length] in H. by apply assemble_first in H.
    - destruct (gaps_pos (Text a :: tail) g) as [g' ->]; [rewrite Eg; by left |].
      destruct (_ || _); [done |]. destruct (7 <? _)%nat; [done |]. by apply assemble_first in H. }
  clear H. unfold parse_hextet in Hh. destruct (negb (PyStr.empty a) && all_chars is_hex a && (len a <=? 4)) eqn:E; [|done]. by to_prop.
Qed.

(** An address in the dotted form is the one the resolver reads, and one of
    IPv6 is none for it. *)
Lemma ip_address_aton h ip : ip_address h = Some ip -> match ip with IPv4 z => inet_aton h = Some z | IPv6 _ => inet_aton h = None end.
Proof.
  unfold ip_address, inet_aton. destruct (existsb _ _); [done |]. destruct (parse_ipv4 h) as [z|] eqn:E4.
  - intros [= <-]. destruct (parse_ipv4_aton h z E4) as [Ha Hc]. unfold has_char.
    destruct (existsb (Ascii.eqb (chr 0)) (chars h)) eqn:E; [|done]. apply existsb_exists in E as (c & Hin & <-%Ascii.eqb_eq).
    rewrite forallb_forall in Hc. by specialize (Hc _ Hin).
  - destruct (parse_ipv6 h) as [z|] eqn:E6; [|done]. intros [= <-]. destruct (has_char _ _); [done |].
    unfold parse_ipv6 in E6. destruct (partition_char "%" h) as [[addr found] scope] eqn:Ep.
    destruct (found && _); [done |]. destruct (ipv6_first addr z E6) as (a & r & -> & Ha).
    apply partition_char_spec in Ep as [_ Ep].
    assert (exists t, chars h = chars a ++ ":"%char :: t) as [t ->]; [|by apply aton_colon].
    destruct found; [subst h | destruct Ep as [-> _]]; rewrite !chars_app, ?(assoc_L (++)); cbn; eexists; by rewrite <- ?(assoc_L (++)).
Qed.

(** However the host of an accepted approval service is written, as a dotted
    address or as any other number the resolver understands, the address the
    resolver reads is neither link-local, multicast, reserved nor unspecified;
    and unless the scheme is https it is a loopback address. *)
Theorem resolver_confined url parsed host z :
  validate_nod_url url = Ok tt -> url <> EmptyString -> urlsplit url = Ok parsed -> u_hostname parsed = Some host ->
  inet_aton host = Some z ->
  unroutable (IPv4 z) = false /\ (u_scheme parsed = "https"%string \/ u_scheme parsed = "http"%string /\ z / 2 ^ 24 = 127).
Proof.
  unfold validate_nod_url. intros H Hne Hp Hh Hz. destruct url as [|c url]; [by destruct Hne |]. cbn [PyStr.empty] in H.
  rewrite Hp in H. cbn [mbind res_bind] in H. rewrite Hh in H. destruct host as [|d host]; [inv_bind; done |].
  assert (literal_ip (String d host) = Some (IPv4 z)) as Hl.
  { unfold literal_ip. destruct (ip_address (String d host)) as [ip|] eqn:E; [|by rewrite Hz].
    apply ip_address_aton in E. destruct ip; congruence. }
  inv_bind. rewrite Hl in *. inv_bind. split; [done |].
  match goal with E : negb (mem_str _ _) = false |- _ => apply negb_false_iff, mem_str_In in E; destruct E as [E | [E | []]] end; [|by left].
  right. split; [done |].
  match goal with E : _ && _ = false |- _ => rename E into Hloop end. rewrite <- E in Hloop. cbn [String.eqb Ascii.eqb Bool.eqb andb] in Hloop.
  apply negb_false_iff in Hloop. unfold host_loopback in Hloop. rewrite Hl in Hloop.
  apply orb_true_iff in Hloop as [Hloop | Hloop]; [|by apply Z.eqb_eq in Hloop].
  apply String.eqb_eq in Hloop. rewrite Hloop in Hz. discriminate Hz.
Qed.

(** ** The started broker reads what the panel set *)

Definition dget_or {A} (o p : option A) : option A := match o with Some v => Some v | None => p end.

Lemma env_dget_update {A} (kvs : dict A) : forall env k, dict_wf kvs ->
  dget (fold_left (fun env kv => dset env kv.1 kv.2) kvs env) k = dget_or (dget kvs k) (dget env k).
Proof.
  induction kvs as [|[k0 v0] kvs IH]; intros env k Hw; [done |]. unfold dict_wf in Hw. cbn [dkeys map fst] in Hw.
  apply NoDup_cons in Hw as [Hn Hw]. cbn [fold_left fst snd]. rewrite IH by done. rewrite dget_dset. cbn [dget].
  destruct (decide (k0 = k)) as [->|]; [|done]. destruct (dget kvs k) as [v|] eqn:E; [|done].
  destruct Hn. apply list_elem_of_In, in_map_iff. exists (k, v). split; [done | by apply dget_In].
Qed.

Lemma split_char_cons c h t : ~ In c (chars h) -> split_char c (h +:+ String c t) = h :: split_char c t.
Proof.
  induction h as [|d h IH]; intros Hn; [change (EmptyString +:+ String c t) with (String c t); cbn [split_char chars]; by rewrite Ascii.eqb_refl |].
  rewrite str_cons_app. cbn [split_char].
  destruct (Ascii.eqb_spec c d) as [<-|_]; [destruct Hn; by left |]. rewrite IH; [done |]. intros H. apply Hn. by right.
Qed.

Lemma split_char_one c h : ~ In c (chars h) -> split_char c h = [h].
Proof.
  induction h as [|d h IH]; intros Hn; [done |]. cbn [split_char].
  destruct (Ascii.eqb_spec c d) as [<-|_]; [destruct Hn; by left |]. rewrite IH; [done |]. intros H. apply Hn. by right.
Qed.

Lemma split_join c x l : Forall (fun s => ~ In c (chars s)) (x :: l) -> split_char c (join (one c) (x :: l)) = x :: l.
Proof.
  cbn [join]. revert x. induction l as [|y l IH]; intros x [Hx Hl]%Forall_cons_1; cbn [foldr].
  - rewrite str_app_nil. by apply split_char_one.
  - rewrite str_app_eq, split_char_cons by done. f_equal. apply IH. done.
Qed.

(** A directory that survives the list in one variable. *)
Definition dir_ok (d : string) : Prop := d <> EmptyString /\ ~ In ":"%char (chars d).

(** What the configuration leaves empty, the panel's own environment does not
    have either. *)
Definition not_inherited (environ : dict string) (c : BrokerRunConfig) : Prop :=
  (bc_nod_url c = EmptyString -> dget environ "TOOLSTACK_NOD_URL" = None)
  /\ (bc_nod_token c = EmptyString -> dget environ "TOOLSTACK_NOD_TOKEN" = None)
  /\ (bc_nod_channel c = EmptyString -> dget environ "TOOLSTACK_NOD_CHANNEL" = None)
  /\ (bc_tool_dirs c = [] -> dget environ "TOOLSTACK_TOOLS_DIRS" = None).

Definition given_opt (v : string) : option string := if PyStr.empty v then None else Some v.
Definition dirs_opt (l : list string) : option string := match l with [] => None | _ => Some (join ":" l) end.

Lemma to_env_reads c :
  dict_wf (to_env c)
  /\ dget (to_env c) "TOOLSTACK_BROKER_PORT" = Some (str_of_Z (bc_port c))
  /\ dget (to_env c) "TOOLSTACK_BROKER_DB" = Some (bc_db_path c)
  /\ dget (to_env c) "TOOLSTACK_TOOLS_ROOT" = Some (bc_tools_root c)
  /\ dget (to_env c) "TOOLSTACK_APPROVAL_TTL" = Some (str_of_Z (bc_approval_ttl c))
  /\ dget (to_env c) "TOOLSTACK_RATE_LIMIT" = Some (str_of_Z (bc_rate_limit c))
  /\ dget (to_env c) "TOOLSTACK_NOD_URL" = given_opt (bc_nod_url c)
  /\ dget (to_env c) "TOOLSTACK_NOD_TOKEN" = given_opt (bc_nod_token c)
  /\ dget (to_env c) "TOOLSTACK_NOD_CHANNEL" = given_opt (bc_nod_channel c)
  /\ dget (to_env c) "TOOLSTACK_TOOLS_DIRS" = dirs_opt (bc_tool_dirs c)
  /\ dget (to_env c) "TOOLSTACK_BROKER_HOST" = None /\ dget (to_env c) "TOOLSTACK_BROKER_ALLOW_NONLOOPBACK" = None.
Proof.
  destruct c as [port db root [|u url] [|t token] [|n channel] ttl rate [|d dirs]];
    (split; [unfold dict_wf; apply (bool_decide_unpack _); by vm_compute | by repeat split]).
Qed.

Lemma child_reads environ c k : dget (child_env environ c) k = dget_or (dget (to_env c) k) (dget environ k).
Proof. apply env_dget_update, to_env_reads. Qed.

Lemma dirs_read l : Forall dir_ok l -> List.filter (fun d => negb (PyStr.empty d)) (split_char ":" (default EmptyString (dirs_opt l))) = l.
Proof.
  intros Hl. destruct l as [|d l]; [done |]. cbn [dirs_opt from_option id].
  change (join ":" (d :: l)) with (join (one ":"%char) (d :: l)).
  rewrite split_join by (eapply Forall_impl; [exact Hl | by intros ? []]).
  clear -Hl. remember (d :: l) as ds eqn:E. clear E. induction Hl as [|x ds [Hx _] _ IH]; [done |]. cbn [List.filter].
  destruct x; [done |]. cbn [PyStr.empty negb]. by rewrite IH.
Qed.

(** A number below 2 to the 16 has at most 16 decimal digits. *)
Lemma nb_digits_double d : (Decimal.nb_digits (Decimal.Little.double d) <= S (Decimal.nb_digits d))%nat
  /\ (Decimal.nb_digits (Decimal.Little.succ_double d) <= S (Decimal.nb_digits d))%nat.
Proof. induction d; cbn; try (destruct IHd); split; lia. Qed.

Lemma nb_digits_revapp d : forall e, Decimal.nb_digits (Decimal.revapp d e) = (Decimal.nb_digits d + Decimal.nb_digits e)%nat.
Proof. induction d; intros e; cbn; [done |..]; rewrite IHd; cbn; lia. Qed.

Lemma nb_digits_pos p : (Decimal.nb_digits (Pos.to_little_uint p) <= Pos.size_nat p)%nat.
Proof.
  induction p as [p IH|p IH|]; cbn; [| | lia].
  - pose proof (proj2 (nb_digits_double (Pos.to_little_uint p))). lia.
  - pose proof (proj1 (nb_digits_double (Pos.to_little_uint p))). lia.
Qed.

Lemma string_of_uint_length d : String.length (NilEmpty.string_of_uint d) = Decimal.nb_digits d.
Proof. induction d; cbn; congruence. Qed.

Lemma port_digits z : 1 <= z <= 65535 -> len (str_of_Z z) <= 4300.
Proof.
  intros Hz. destruct z as [|p|p]; [lia | | lia]. unfold len, str_of_Z.
  change (Z.to_int (Zpos p)) with (Decimal.Pos (Decimal.rev (Pos.to_little_uint p))). cbn [NilZero.string_of_int].
  assert (forall d, String.length (NilZero.string_of_uint d) <= S (Decimal.nb_digits d))%nat as Hl.
  { intros []; cbn; rewrite ?string_of_uint_length; lia. }
  specialize (Hl (Decimal.rev (Pos.to_little_uint p))). unfold Decimal.rev in *. rewrite nb_digits_revapp in Hl. cbn [Decimal.nb_digits] in Hl.
  pose proof (nb_digits_pos p). assert (Pos.size_nat p <= Pos.size_nat 65536)%nat by (apply Pos.size_nat_monotone; lia).
  change (Pos.size_nat 65536) with 17%nat in *. lia.
Qed.

Lemma surface_read environ c : not_inherited environ c -> Nod.from_env (child_env environ c) = build_surface c.
Proof.
  intros (Hu & Ht & Hn & _). unfold from_env. rewrite !child_reads.
  destruct (to_env_reads c) as (_ & _ & _ & _ & _ & _ & -> & -> & -> & _). unfold given_opt, build_surface.
  destruct (bc_nod_url c) as [|a url] eqn:Eu; cbn [PyStr.empty dget_or orb]; [by rewrite Hu |].
  destruct (bc_nod_token c) as [|b token] eqn:Et; cbn [PyStr.empty dget_or]; [by rewrite Ht |].
  destruct (bc_nod_channel c) as [|d channel] eqn:En; cbn [PyStr.empty dget_or default]; [by rewrite Hn | done].
Qed.

(** C37. The broker the panel starts reads its port, database, tools root, tool
    directories, approval surface, deadline and rate limit exactly as the panel
    holds them; the surface is the one the panel itself uses to withdraw
    approvals. It is asked that the panel's own environment has no setting that
    the configuration leaves empty, that port, deadline and rate limit are in the
    range the panel validates and the limit has no more than 4300 digits, and
    that no tool directory is empty or has a colon in its name, since the broker
    splits the list at colons ([colon_splits_directory]). *)
Theorem panel_config_reaches_broker {F} (py_float : string -> res F) environ c :
  not_inherited environ c -> in_range (bc_port c) (bc_approval_ttl c) (bc_rate_limit c) = true ->
  len (str_of_Z (bc_rate_limit c)) <= 4300 -> Forall dir_ok (bc_tool_dirs c) ->
  build_server py_float (child_env environ c)
  = (host ← _configured_host environ; surface ← build_surface c; ttl ← py_float (str_of_Z (bc_approval_ttl c));
     Ok (Startup host (bc_port c) (Some (bc_db_path c)) (Some (bc_tools_root c)) (bc_tool_dirs c) surface ttl (bc_rate_limit c))).
Proof.
  intros Hi Hr Hl Hd. unfold build_server. rewrite surface_read by done. unfold _configured_host, _configured_port. rewrite !child_reads.
  destruct (to_env_reads c) as (_ & -> & -> & -> & -> & -> & _ & _ & _ & -> & -> & ->). cbn [dget_or from_option id].
  unfold in_range in Hr. to_prop.
  assert (len (str_of_Z (bc_port c)) <= 4300) as Hp by (apply port_digits; lia).
  rewrite !py_int_str_of_Z by (done || lia).
  assert (dget_or (dirs_opt (bc_tool_dirs c)) (dget environ "TOOLSTACK_TOOLS_DIRS") = dirs_opt (bc_tool_dirs c)) as ->.
  { destruct Hi as (_ & _ & _ & Hi). destruct (bc_tool_dirs c); [by rewrite Hi | done]. }
  rewrite dirs_read by done. done.
Qed.

(** ** Witnesses *)

Definition example_config : BrokerRunConfig :=
  Config 8765 "/var/lib/broker.sqlite3" "tools" "https://nod.example" "token" "ops" 3600 120 ["/opt/a"; "/opt/b"]%string.

Lemma resolver_confined_witness :
  validate_nod_url "https://0x0a.1/" = Ok tt /\ unroutable (IPv4 167772161) = false
  /\ ("https"%string = "https"%string \/ "https"%string = "http"%string /\ 167772161 / 2 ^ 24 = 127).
Proof.
  split; [by vm_compute |].
  apply (resolver_confined "https://0x0a.1/" (SplitResult "https" "0x0a.1" "/" "" "") "0x0a.1" 167772161);
    first [done | by vm_compute].
Defined.

Lemma panel_config_reaches_broker_witness :
  build_server py_int (child_env [("PATH", "/bin")]%string example_config)
  = (host ← _configured_host [("PATH", "/bin")]%string; surface ← build_surface example_config; ttl ← py_int "3600";
     Ok (Startup host 8765 (Some "/var/lib/broker.sqlite3"%string) (Some "tools"%string) ["/opt/a"; "/opt/b"]%string surface ttl 120))
  /\ is_ok (build_server py_int (child_env [("PATH", "/bin")]%string example_config)) = true.
Proof.
  split; [|by vm_compute].
  apply (panel_config_reaches_broker py_int [("PATH", "/bin")]%string example_config).
  - by repeat split.
  - by vm_compute.
  - by vm_compute.
  - repeat constructor; try done; vm_compute; intuition discriminate.
Defined.

(** A panel without an approval service, started in an environment that names
    one, hands it to its broker. *)
Example surface_inherited :
  let environ := [("TOOLSTACK_NOD_URL", "https://old.example"); ("TOOLSTACK_NOD_TOKEN", "t")]%string in
  build_surface (new_config "/db") = Ok None
  /\ Nod.from_env (child_env environ (new_config "/db")) = Ok (Some (NodSurface "https://old.example" "t" "default")).
Proof. by vm_compute. Qed.

(** A tool directory with a colon in its name is read as two. *)
Example colon_splits_directory :
  List.filter (fun d => negb (PyStr.empty d)) (split_char ":" (default EmptyString (dirs_opt ["/opt/a:b"]))) = ["/opt/a"; "b"]%string.
Proof. by vm_compute. Qed.
