(* ===== verification/Supervisor.v ===== *)
(** admin/supervisor.py: the panel starts, stops and watches the broker process.

    The machine is the interface [BrokerHost]: every call answers what the
    kernel, [ps], the disk or the broker's port choose.  [pn_file] is the text of
    the state file, [pn_log] what was observed and done, in order. *)

From stdpp Require Import base tactics list strings.
From Stdlib Require Import ZArith Lia Ascii.
From S2P Require Import Prelude PyStr Json BrokerConfig.

(** ** shlex.split *)

Inductive lex_state := LBlank | LWord | LQuote (q : ascii) | LEscape (back : lex_state).

Definition sh_space (c : ascii) : bool := (code c =? 32) || (code c =? 9) || (code c =? 13) || (code c =? 10).
Definition squote : ascii := chr 39.
Definition lex_quote (c : ascii) : bool := Ascii.eqb c squote || Ascii.eqb c dquote.

(** The words; [tok] is the current one reversed, [quoted] whether a part of it
    was quoted.  A text that ends inside quotes or after a backslash is a
    ValueError. *)
Fixpoint lex (st : lex_state) (quoted : bool) (tok l : list ascii) : res (list string) :=
  let flush (rest : res (list string)) :=
    if quoted || negb (bool_decide (tok = [])) then (fun ws => of_chars (rev tok) :: ws) <$> rest else rest in
  match l with
  | [] => match st with LBlank | LWord => flush (Ok []) | _ => Raise ValueError end
  | c :: l =>
      match st with
      | LBlank | LWord =>
          if sh_space c then flush (lex LBlank false [] l)
          else if lex_quote c then lex (LQuote c) quoted tok l
          else if Ascii.eqb c bslash then lex (LEscape LWord) quoted tok l
          else lex LWord quoted (c :: tok) l
      | LQuote q =>
          if Ascii.eqb c q then lex LWord true tok l
          else if Ascii.eqb c bslash && Ascii.eqb q dquote then lex (LEscape (LQuote q)) true tok l
          else lex (LQuote q) true (c :: tok) l
      | LEscape (LQuote q as back) =>
          lex back quoted (if Ascii.eqb c bslash || Ascii.eqb c q then c :: tok else c :: bslash :: tok) l
      | LEscape back => lex back quoted (c :: tok) l
      end
  end.

Definition shlex_split (s : string) : res (list string) := lex LBlank false [] (chars s).

Example shlex_forms :
  shlex_split "python3 -m broker.server
" = Ok ["python3"; "-m"; "broker.server"]%string
  /\ shlex_split "'a b'c  \ d ''" = Ok ["a bc"; " d"; ""]%string /\ shlex_split "it's" = Raise ValueError
  /\ shlex_split " " = Ok [] /\ shlex_split "a\" = Raise ValueError
  /\ shlex_split (String dquote ("a\b\\" +:+ String dquote EmptyString)) = Ok ["a\b\"]%string.
Proof. by vm_compute. Qed.

(** ** The machine *)

(** os.waitpid: the pid it reports (0 when none changed state),
    ChildProcessError, ProcessLookupError, or another exception. *)
Inductive waited := Reaped (p : Z) | NoChild | NoProcess | WaitFails.
Inductive sig := Probe | Term | Kill.
(** os.killpg: delivered, ProcessLookupError, PermissionError, or another
    exception. *)
Inductive signalled := Sent | NoGroup | Denied | SignalFails.
(** urlopen and read: an answer, an exception that [_health] catches
    (URLError, OSError, ValueError), or an HTTPException, which it does not. *)
Inductive probed := Answered (status : Z) (body : string) | Unreachable | Garbled.

#[export] Instance sig_eq_dec : EqDecision sig.
Proof. solve_decision. Defined.

Inductive sv_event :=
| EvPs (pid : json) (out : option string)
| EvWait (pid : Z) (answer : waited)
| EvSignal (pid : Z) (s : sig) (answer : signalled)
| EvSpawn (env : dict string) (pid : option Z)
| EvWrite (text : string) (ok : bool)
| EvClear (ok : bool)
| EvHealth (port : json) (answer : probed).

(** [bh_ps] is the output of ps for a pid ([None]: it fails or takes too
    long), [bh_read] whether the state file can be read, [bh_write] whether it
    was written, or what is left of it; [bh_decode] finds the text of a body. *)
Class BrokerHost (N : Type) := {
  bh_environ : dict string;
  bh_decode : string -> option string;
  bh_ps : N -> json -> option string * N;
  bh_waitpid : N -> Z -> waited * N;
  bh_wait : N -> Z -> waited * N;
  bh_killpg : N -> Z -> sig -> signalled * N;
  bh_private : N -> bool * N;
  bh_open_log : N -> bool * N;
  bh_spawn : N -> dict string -> option Z * N;
  bh_read : N -> bool * N;
  bh_write : N -> option (option string) * N;
  bh_unlink : N -> bool * N;
  bh_get : N -> json -> probed * N;
  bh_sleep : N -> bool * N }.

Record panel (N : Type) := Panel { pn_os : N; pn_file : option string; pn_log : list sv_event }.
Arguments Panel {N}.
Arguments pn_os {N}.
Arguments pn_file {N}.
Arguments pn_log {N}.

Definition OSError : exn := OtherExn "OSError".
Definition HTTPException : exn := OtherExn "HTTPException".
Definition AttributeError : exn := OtherExn "AttributeError".
Definition Interrupted : exn := OtherExn "KeyboardInterrupt".

(** A pid that was read from the state file as an argument of a system call. *)
Definition as_pid (v : json) : res Z :=
  match v with JInt z => Ok z | JBool b => Ok (if b then 1 else 0) | _ => Raise TypeError end.

(** [state[key]]. *)
Definition item (state : json) (key : string) : res json :=
  match state with JObj d => match dget d key with Some v => Ok v | None => Raise KeyError end | _ => Raise TypeError end.

Definition names_broker (args : list string) : bool :=
  existsb (fun p => String.eqb p.1 "-m" && String.eqb p.2 "broker.server") (combine args (List.tl args)).

(** The output of ps shows the broker. *)
Definition shows_broker (out : string) : bool :=
  match shlex_split out with Ok args => names_broker args | Raise _ => false end.

Inductive broker_status := Stopped | Running (pid port : json) (healthy : bool).

Definition state_text (pid port : Z) : string := dumps (JObj [("pid", JInt pid); ("port", JInt port)]%string).

Section Supervisor.
Context {N : Type} `{BrokerHost N}.

Definition SM (A : Type) : Type := panel N -> res A * panel N.

#[export] Instance SM_ret : MRet SM := fun _ a s => (Ok a, s).
#[export] Instance SM_bind : MBind SM := fun _ _ f m s =>
  match m s with (Ok a, s') => f a s' | (Raise e, s') => (Raise e, s') end.
Definition lift {A} (r : res A) : SM A := fun s => (r, s).
Definition raise {A} (e : exn) : SM A := lift (Raise e).
Definition sv_quiet {A} (f : N -> A * N) : SM A := fun s =>
  let '(a, n) := f (pn_os s) in (Ok a, Panel n (pn_file s) (pn_log s)).
Definition sv_noted {A} (f : N -> A * N) (ev : A -> sv_event) : SM A := fun s =>
  let '(a, n) := f (pn_os s) in (Ok a, Panel n (pn_file s) (pn_log s ++ [ev a])).
Definition checked (f : N -> bool * N) (e : exn) : SM unit :=
  ok ← sv_quiet f; if (ok : bool) then mret tt else raise e.

Definition state_file : SM (option string) := fun s => (Ok (pn_file s), s).
Definition put_file (t : option string) : SM unit := fun s => (Ok tt, Panel (pn_os s) t (pn_log s)).

Definition _is_broker (pid : json) : SM bool :=
  out ← sv_noted (fun n => bh_ps n pid) (EvPs pid);
  mret match out with Some t => shows_broker t | None => false end.

Definition _read_state : SM (option json) :=
  file ← state_file;
  match file with
  | None => mret None
  | Some text =>
      readable ← sv_quiet bh_read;
      mret (if (readable : bool) then match loads text with Ok v => Some v | Raise _ => None end else None)
  end.

Definition _write_state (text : string) : SM unit :=
  _ ← checked bh_private PermissionError;
  left ← sv_noted bh_write (fun left => EvWrite text (match left with None => true | Some _ => false end));
  match left with
  | None => put_file (Some text)
  | Some rest => _ ← put_file rest; raise OSError
  end.

Definition _clear_state : SM unit :=
  ok ← sv_noted bh_unlink EvClear;
  if (ok : bool) then put_file None else raise OSError.

Definition killpg (pid : Z) (s : sig) : SM signalled := sv_noted (fun n => bh_killpg n pid s) (EvSignal pid s).
Definition waitpid (pid : Z) : SM waited := sv_noted (fun n => bh_waitpid n pid) (EvWait pid).

Definition _pid_alive (pid : Z) : SM bool :=
  a ← killpg pid Probe;
  match a with Sent => mret true | NoGroup | Denied => mret false | SignalFails => raise OSError end.

Definition _health (port : json) : SM bool :=
  a ← sv_noted (fun n => bh_get n port) (EvHealth port);
  match a with
  | Unreachable => mret false
  | Garbled => raise HTTPException
  | Answered status body =>
      if negb (status =? 200) then mret false
      else match bh_decode (if PyStr.empty body then "{}" else body) with
           | None => mret false
           | Some text =>
               match loads text with
               | Raise _ => mret false
               | Ok (JObj d) => mret (bool_decide (jget d "status" = JStr "ok"))
               | Ok _ => raise AttributeError
               end
           end
  end.

Fixpoint _await_health (attempts : nat) (port : json) : SM bool :=
  match attempts with
  | O => mret false
  | S n =>
      ok ← _health port;
      if (ok : bool) then mret true else _ ← checked bh_sleep Interrupted; _await_health n port
  end.

Definition _stopped_after_clear : SM broker_status := _ ← _clear_state; mret Stopped.

(** The rest of [status] once nothing was reaped. *)
Definition status_alive (pid : Z) (raw port : json) : SM broker_status :=
  alive ← _pid_alive pid;
  if (alive : bool) then healthy ← _health port; mret (Running raw port healthy) else _stopped_after_clear.

Definition status : SM broker_status :=
  state ← _read_state;
  match state with
  | None => mret Stopped
  | Some v =>
      if negb (truthy v) then mret Stopped
      else
        raw ← lift (item v "pid"); port ← lift (item v "port");
        pid ← lift (as_pid raw);
        w ← waitpid pid;
        match w with
        | Reaped p => if p =? 0 then status_alive pid raw port else _stopped_after_clear
        | NoChild => status_alive pid raw port
        | NoProcess => _stopped_after_clear
        | WaitFails => raise OSError
        end
  end.

Definition is_running (s : broker_status) : bool := match s with Running _ _ _ => true | Stopped => false end.
Definition is_healthy (s : broker_status) : bool := match s with Running _ _ h => h | Stopped => false end.

(** What follows the spawn: the result and whether it carries an error. *)
Definition after_spawn (config : BrokerRunConfig) (pid : Z) : SM (broker_status * bool) :=
  _ ← _write_state (state_text pid (bc_port config));
  healthy ← _await_health 40 (JInt (bc_port config));
  result ← status;
  mret (result, negb healthy && negb (is_healthy result)).

Definition start (config : BrokerRunConfig) : SM (broker_status * bool) :=
  current ← status;
  if is_running current then mret (current, false)
  else
    _ ← checked bh_private PermissionError;
    let env := child_env bh_environ config in
    _ ← checked bh_open_log OSError;
    spawned ← sv_noted (fun n => bh_spawn n env) (EvSpawn env);
    match spawned with
    | None => raise OSError
    | Some pid => after_spawn config pid
    end.

(** Up to 30 looks for the exit; true when there is nothing left to wait for. *)
Fixpoint await_gone (turns : nat) (pid : Z) : SM bool :=
  match turns with
  | O => mret false
  | S n =>
      w ← waitpid pid;
      match w with
      | Reaped p => if negb (p =? 0) then mret true else _ ← checked bh_sleep Interrupted; await_gone n pid
      | NoChild | NoProcess => mret true
      | WaitFails => raise OSError
      end
  end.

Definition kill_group (pid : Z) : SM unit :=
  a ← killpg pid Kill;
  match a with
  | NoGroup | Denied => mret tt
  | SignalFails => raise OSError
  | Sent =>
      w ← sv_noted (fun n => bh_wait n pid) (EvWait pid);
      match w with WaitFails => raise OSError | _ => mret tt end
  end.

(** What follows a delivered SIGTERM. *)
Definition after_term (pid : Z) : SM unit :=
  gone ← await_gone 30 pid; if (gone : bool) then mret tt else kill_group pid.

Definition _terminate (raw : json) : SM unit :=
  ok ← _is_broker raw;
  if negb ok then mret tt
  else
    pid ← lift (as_pid raw);
    a ← killpg pid Term;
    match a with
    | NoGroup | Denied => mret tt
    | SignalFails => raise OSError
    | Sent => after_term pid
    end.

Definition stop : SM broker_status :=
  state ← _read_state;
  match state with
  | None => mret Stopped
  | Some v =>
      if negb (truthy v) then mret Stopped
      else raw ← lift (item v "pid"); _ ← _terminate raw; _ ← _clear_state; mret Stopped
  end.

Definition restart (config : BrokerRunConfig) : SM (broker_status * bool) := _ ← stop; start config.

(** What the panel may do with the broker, and a history of it: each operation
    ends or raises, and the next one starts from what it left. *)
Inductive sv_op := OStatus | OStart (c : BrokerRunConfig) | OStop | ORestart (c : BrokerRunConfig).

Definition sv_run1 (o : sv_op) (s : panel N) : panel N :=
  match o with
  | OStatus => (status s).2 | OStart c => (start c s).2 | OStop => (stop s).2 | ORestart c => (restart c s).2
  end.

Definition sv_run (os : list sv_op) (s : panel N) : panel N := fold_left (fun s o => sv_run1 o s) os s.

End Supervisor.

Definition log_tail (decode : string -> string) (file : option string) (max_bytes : Z) : string :=
  match file with
  | None => EmptyString
  | Some data => decode (str_drop (Z.to_nat (len data - max_bytes)) data)
  end.
