(* ===== verification/SupervisorFacts.v ===== *)
(** What the supervisor guarantees: it signals nothing but a process that was
    just seen to be the broker, and a broker it starts stays recorded until it
    was seen to be gone. *)

From stdpp Require Import base tactics list strings.
From Stdlib Require Import ZArith Lia Ascii.
From S2P Require Import Prelude PyStr Json JsonFacts BrokerConfig Supervisor.

#[local] Existing Instance SM_ret.
#[local] Existing Instance SM_bind.

(** ** Effects on the log *)

(** Every signal but the probe has its grounds right before it. *)
Definition grounds (z : Z) (g : sig) (pre : list sv_event) : Prop :=
  exists pre' raw out, as_pid raw = Ok z /\ shows_broker out = true
    /\ pre = pre' ++ EvPs raw (Some out)
               :: match g with Kill => EvSignal z Term Sent :: repeat (EvWait z (Reaped 0)) 30 | _ => [] end.

Definition vetted (l : list sv_event) : Prop :=
  forall pre z g a post, l = pre ++ EvSignal z g a :: post -> g <> Probe -> grounds z g pre.

Definition calm (e : sv_event) : Prop := match e with EvSignal _ g _ => g = Probe | _ => True end.

(** What looks add to the log, and what recording adds. *)
Definition records (e : sv_event) : Prop := match e with EvSignal _ g _ => g = Probe | EvSpawn _ _ => False | _ => True end.
Definition looks (e : sv_event) : Prop := match e with EvWrite _ _ => False | _ => records e end.

Lemma looks_records l : Forall looks l -> Forall records l.
Proof. intros H. eapply Forall_impl; [exact H |]. by intros []. Qed.

Lemma records_calm l : Forall records l -> Forall calm l.
Proof. intros H. eapply Forall_impl; [exact H |]. by intros []. Qed.

Lemma grounds_app l z g pre : grounds z g pre -> grounds z g (l ++ pre).
Proof. intros (pre' & raw & out & Hp & Ho & ->). exists (l ++ pre'), raw, out. by rewrite <- (assoc_L (++)). Qed.

Lemma vetted_nil : vetted [].
Proof. by intros [|? ?] ? ? ? ?. Qed.

Lemma sv_vetted_app l1 l2 : vetted l1 -> vetted l2 -> vetted (l1 ++ l2).
Proof.
  intros H1 H2 pre z g a post E Hg. apply app_eq_app in E as (l & [[-> E] | [-> E]]).
  - destruct l as [|e l]; [|injection E as <- ->; by eapply H1].
    rewrite app_nil_r in *. cbn [app] in E. rewrite <- (app_nil_r pre). apply grounds_app. by eapply (H2 []).
  - apply grounds_app. by eapply H2.
Qed.

Lemma vetted_calm l : Forall calm l -> vetted l.
Proof.
  intros H pre z g a post -> Hg. apply Forall_app in H as [_ H]. apply Forall_cons_1 in H as [H _]. done.
Qed.

Section Facts.
Context {N : Type} `{BrokerHost N}.
Implicit Types (s : panel N) (z : Z).

Definition adds {A} (V : list sv_event -> Prop) (m : SM A) : Prop := forall s, exists l, pn_log (m s).2 = pn_log s ++ l /\ V l.

Section Adding.
Context (V : list sv_event -> Prop) (Vnil : V []) (Vapp : forall l1 l2, V l1 -> V l2 -> V (l1 ++ l2)).

Lemma adds_lift {A} (r : res A) : adds V (lift r).
Proof. intros s. exists []. by rewrite app_nil_r. Qed.

Lemma adds_ret {A} (a : A) : adds V (mret a).
Proof. intros s. exists []. by rewrite app_nil_r. Qed.

Lemma sv_adds_bind {A B} (m : SM A) (f : A -> SM B) : adds V m -> (forall a, adds V (f a)) -> adds V (m ≫= f).
Proof.
  intros Hm Hf s. unfold mbind, SM_bind. destruct (Hm s) as (l1 & E1 & V1). destruct (m s) as [[a|e] s1]; [|by exists l1].
  destruct (Hf a s1) as (l2 & E2 & V2). exists (l1 ++ l2). cbn [snd] in E1. rewrite E2, E1, (assoc_L (++)). auto.
Qed.

Lemma adds_quiet {A} (f : N -> A * N) : adds V (sv_quiet f).
Proof. intros s. unfold sv_quiet. destruct (f _). exists []. by rewrite app_nil_r. Qed.

Lemma adds_noted {A} (f : N -> A * N) ev : (forall a, V [ev a]) -> adds V (sv_noted f ev).
Proof. intros He s. unfold sv_noted. destruct (f _) as [a n]. exists [ev a]. auto. Qed.

Lemma adds_checked f e : adds V (checked f e).
Proof. apply sv_adds_bind; [apply adds_quiet |]. intros []; [apply adds_ret | apply adds_lift]. Qed.

Lemma adds_file : adds V state_file.
Proof. intros s. exists []. by rewrite app_nil_r. Qed.

Lemma adds_put t : adds V (put_file t).
Proof. intros s. exists []. by rewrite app_nil_r. Qed.
End Adding.

Lemma forall_app {A} (P : A -> Prop) l1 l2 : Forall P l1 -> Forall P l2 -> Forall P (l1 ++ l2).
Proof. intros. by apply Forall_app. Qed.
Lemma forall_one {A} (P : A -> Prop) e : P e -> Forall P [e].
Proof. by repeat constructor. Qed.

Ltac adding := repeat first
  [ apply adds_ret | apply adds_lift | apply adds_quiet | apply adds_file | apply adds_put
  | apply adds_checked | apply adds_noted; intros | apply sv_adds_bind; [..| intros ?]
  | apply forall_one; done | apply List.Forall_nil | (intros; by apply forall_app) | progress case_match ].

Notation looking := (adds (Forall looks)).
Notation recording := (adds (Forall records)).
Notation calmly := (adds (Forall calm)).

Lemma look_read : looking _read_state.
Proof. unfold _read_state. adding. Qed.

Lemma record_write t : recording (_write_state t).
Proof. unfold _write_state. adding. Qed.

Lemma look_clear : looking _clear_state.
Proof. unfold _clear_state. adding. Qed.

Lemma look_health p : looking (_health p).
Proof. unfold _health. adding. Qed.

Lemma look_await n p : looking (_await_health n p).
Proof. induction n; cbn [_await_health]; adding; first [apply look_health | done]. Qed.

Lemma look_alive z : looking (_pid_alive z).
Proof. unfold _pid_alive, killpg. adding. Qed.

Lemma look_status : looking status.
Proof.
  unfold status, status_alive, _stopped_after_clear, waitpid. adding;
    first [apply look_read | apply look_clear | apply look_alive | apply look_health].
Qed.

Lemma looking_recording {A} (m : SM A) : looking m -> recording m.
Proof. intros Hm s. destruct (Hm s) as (l & E & Hl). exists l. auto using looks_records. Qed.

Lemma recording_calmly {A} (m : SM A) : recording m -> calmly m.
Proof. intros Hm s. destruct (Hm s) as (l & E & Hl). exists l. auto using records_calm. Qed.

Lemma looking_calmly {A} (m : SM A) : looking m -> calmly m.
Proof. intros Hm. by apply recording_calmly, looking_recording. Qed.

Lemma record_after_spawn c z : recording (after_spawn c z).
Proof. unfold after_spawn. adding; first [apply record_write | apply looking_recording, look_await | apply looking_recording, look_status]. Qed.

Lemma calm_start c : calmly (start c).
Proof. unfold start. adding; first [apply looking_calmly, look_status | apply recording_calmly, record_after_spawn]. Qed.

Lemma calm_vets {A} (m : SM A) : calmly m -> adds vetted m.
Proof. intros Hm s. destruct (Hm s) as (l & E & Hl). exists l. auto using vetted_calm. Qed.

(** What the wait for an exit adds, and that it only gives up after 30 looks. *)
Lemma await_gone_spec n z s : exists l, pn_log (await_gone n z s).2 = pn_log s ++ l /\ Forall calm l
  /\ ((await_gone n z s).1 = Ok false -> l = repeat (EvWait z (Reaped 0)) n).
Proof.
  revert s. induction n as [|n IH]; intros s; [exists []; by rewrite app_nil_r |]. cbn [await_gone].
  unfold mbind, SM_bind, waitpid, sv_noted. destruct (bh_waitpid (pn_os s) z) as [w m].
  assert (forall e, exists l, pn_log s ++ [EvWait z e] = pn_log s ++ l /\ Forall calm l /\ (Ok true = Ok false -> l = repeat (EvWait z (Reaped 0)) (S n))) as Hstop.
  { intros e. exists [EvWait z e]. by repeat constructor. }
  destruct w as [p | | |]; cbn [snd fst]; [| apply Hstop | apply Hstop | by exists [EvWait z WaitFails]; repeat constructor].
  destruct (Z.eqb_spec p 0) as [->|]; cbn [negb]; [| apply Hstop].
  unfold checked, sv_quiet, mbind, SM_bind. cbn. destruct (bh_sleep m) as [[] m']; cbn.
  - destruct (IH (Panel m' (pn_file s) (pn_log s ++ [EvWait z (Reaped 0)]))) as (l & E & Hc & Hf).
    exists (EvWait z (Reaped 0) :: l). rewrite E. cbn [pn_log]. rewrite <- (assoc_L (++)). split; [done |]. split; [by constructor |].
    intros Hr. cbn [repeat]. f_equal. by apply Hf.
  - by exists [EvWait z (Reaped 0)]; repeat constructor.
Qed.

Lemma grounds_term raw out z : as_pid raw = Ok z -> shows_broker out = true -> vetted [EvPs raw (Some out)] ->
  forall a, vetted [EvPs raw (Some out); EvSignal z Term a].
Proof.
  intros Hp Ho _ a pre z' g a' post E Hg. destruct pre as [|e [|e' pre]]; [done | | destruct pre; cbn [app] in E; inversion E].
  cbn [app] in E. inversion E; subst. exists [], raw, out. auto.
Qed.

Lemma after_repeat {A} (x e f : A) n : forall pre post, repeat x n ++ [e] = pre ++ f :: post -> f <> x -> pre = repeat x n /\ f = e.
Proof.
  induction n as [|n IH]; intros [|y pre] post E Hf; cbn [repeat app] in E.
  - by injection E as -> _.
  - injection E as _ E. by destruct pre.
  - by injection E as ->.
  - injection E as <- E. by destruct (IH pre post E Hf) as [-> ->].
Qed.

Lemma grounds_kill raw out z l a : as_pid raw = Ok z -> shows_broker out = true ->
  l = repeat (EvWait z (Reaped 0)) 30 -> vetted (EvPs raw (Some out) :: EvSignal z Term Sent :: l ++ [EvSignal z Kill a]).
Proof.
  intros Hp Ho -> pre z' g a' post E Hg. destruct pre as [|e [|e' pre]]; [done | |].
  - cbn [app] in E. injection E as <- <- <- _ _. exists [], raw, out. auto.
  - injection E as <- <- E. destruct (after_repeat (EvWait z (Reaped 0)) (EvSignal z Kill a) (EvSignal z' g a') 30 pre post E) as [-> [= -> -> ->]]; [done |]. exists [], raw, out. auto.
Qed.

Lemma kill_spec z s : exists a l, pn_log (kill_group z s).2 = pn_log s ++ EvSignal z Kill a :: l /\ Forall calm l.
Proof.
  unfold kill_group, killpg, mbind, SM_bind, sv_noted. destruct (bh_killpg (pn_os s) z Kill) as [a m]. exists a.
  destruct a; cbn; try (by exists []).
  destruct (bh_wait m z) as [w m']. exists [EvWait z w]. cbn. rewrite <- (assoc_L (++)). split; [by destruct w | by repeat constructor].
Qed.

(** What follows a delivered SIGTERM keeps the log vetted. *)
Lemma after_term_vets raw out z s : as_pid raw = Ok z -> shows_broker out = true ->
  exists l, pn_log (after_term z s).2 = pn_log s ++ l /\ vetted (EvPs raw (Some out) :: EvSignal z Term Sent :: l).
Proof.
  intros Hp Ho. destruct (await_gone_spec 30 z s) as (l & E & Hc & Hf).
  assert (forall a, vetted ([EvPs raw (Some out); EvSignal z Term a] ++ l)) as Hv.
  { intros a. apply sv_vetted_app; [|by apply vetted_calm]. apply grounds_term; [done.. |]. apply vetted_calm. by repeat constructor. }
  unfold after_term, mbind, SM_bind. destruct (await_gone 30 z s) as [[[]|e] s2]; cbn [fst snd] in *;
    [by exists l; split; [|apply Hv] | | by exists l; split; [|apply Hv]].
  destruct (kill_spec z s2) as (a & l' & E2 & Hl'). exists (l ++ EvSignal z Kill a :: l'). rewrite E2, E, <- (assoc_L (++)). split; [done |].
  change (vetted (EvPs raw (Some out) :: EvSignal z Term Sent :: l ++ [EvSignal z Kill a] ++ l')).
  rewrite (assoc_L (++) l). apply (sv_vetted_app (EvPs raw (Some out) :: EvSignal z Term Sent :: l ++ [EvSignal z Kill a]));
    [by apply grounds_kill; auto | by apply vetted_calm].
Qed.

Lemma terminate_vets raw : adds vetted (_terminate raw).
Proof.
  intros s. unfold _terminate, _is_broker, mbind, SM_bind, sv_noted. destruct (bh_ps (pn_os s) raw) as [out m]. cbn.
  assert (vetted [EvPs raw out]) as Hv by (apply vetted_calm; by repeat constructor).
  destruct out as [out|]; cbn; [|by exists [EvPs raw None]]. destruct (shows_broker out) eqn:Ho; cbn; [|by exists [EvPs raw (Some out)]].
  destruct (as_pid raw) as [z|] eqn:Hp; cbn; [|by exists [EvPs raw (Some out)]].
  unfold killpg, sv_noted. cbn [pn_os]. destruct (bh_killpg m z Term) as [a m']. cbn [pn_log pn_file].
  rewrite <- (assoc_L (++)). cbn [app]. pose proof (grounds_term raw out z Hp Ho Hv a) as Ht.
  destruct a; [| by exists [EvPs raw (Some out); EvSignal z Term NoGroup] | by exists [EvPs raw (Some out); EvSignal z Term Denied]
     | by exists [EvPs raw (Some out); EvSignal z Term SignalFails]].
  set (s1 := Panel m' (pn_file s) (pn_log s ++ [EvPs raw (Some out); EvSignal z Term Sent])).
  change (exists l, pn_log (after_term z s1).2 = pn_log s ++ l /\ vetted l).
  destruct (after_term_vets raw out z s1) as (l & -> & Hl); [done.. |]. cbn [s1 pn_log].
  exists (EvPs raw (Some out) :: EvSignal z Term Sent :: l). rewrite <- (assoc_L (++)). done.
Qed.

Lemma vets_stop : adds vetted stop.
Proof.
  unfold stop. apply sv_adds_bind; [exact sv_vetted_app | apply calm_vets, looking_calmly, look_read |]. intros [v|]; [|by apply adds_ret, vetted_nil].
  destruct (negb _); [by apply adds_ret, vetted_nil |]. apply sv_adds_bind; [exact sv_vetted_app | by apply adds_lift, vetted_nil |]. intros raw.
  apply sv_adds_bind; [exact sv_vetted_app | apply terminate_vets |]. intros ?.
  apply sv_adds_bind; [exact sv_vetted_app | apply calm_vets, looking_calmly, look_clear |]. intros ?. by apply adds_ret, vetted_nil.
Qed.

Lemma run1_vets o s : exists l, pn_log (sv_run1 o s) = pn_log s ++ l /\ vetted l.
Proof.
  destruct o as [| c | | c]; cbn [sv_run1].
  - apply calm_vets, looking_calmly, look_status.
  - apply calm_vets, calm_start.
  - apply vets_stop.
  - apply (sv_adds_bind vetted sv_vetted_app); [apply vets_stop |]. intros ?. apply calm_vets, calm_start.
Qed.

Lemma run_vets os s : exists l, pn_log (sv_run os s) = pn_log s ++ l /\ vetted l.
Proof.
  revert s. induction os as [|o os IH]; intros s; [exists []; rewrite app_nil_r; auto using vetted_nil |].
  destruct (run1_vets o s) as (l1 & E1 & V1). destruct (IH (sv_run1 o s)) as (l2 & E2 & V2). exists (l1 ++ l2).
  change (sv_run (o :: os) s) with (sv_run os (sv_run1 o s)). rewrite E2, E1, (assoc_L (++)). auto using sv_vetted_app.
Qed.

(** C35. Whatever the panel does with the broker, in any order, under any answers
    of the machine and from any state file: a process is signalled only right
    after ps showed it to run the broker, and killed only after that signal was
    delivered and 30 looks found it to be a child that is still running, so that
    its number cannot have been given to another process. *)
Theorem only_the_broker_is_signalled os s l pre z g a post :
  pn_log (sv_run os s) = pn_log s ++ l -> l = pre ++ EvSignal z g a :: post -> g <> Probe -> grounds z g pre.
Proof.
  intros E -> Hg. destruct (run_vets os s) as (l & E' & V). rewrite E' in E. apply app_inv_head in E as ->.
  by eapply V.
Qed.
(** ** A started broker stays recorded *)

(** The log shows that a process is gone, and that the broker's port answered. *)
Definition shows_gone z (e : sv_event) : Prop :=
  match e with
  | EvWait p (Reaped q) => p = z /\ q <> 0
  | EvWait p NoProcess => p = z
  | EvSignal p Probe (NoGroup | Denied) => p = z
  | _ => False
  end.
Definition gone z (l : list sv_event) : Prop := Exists (shows_gone z) l.
Definition answered (port : json) (l : list sv_event) : Prop := exists body, In (EvHealth port (Answered 200 body)) l.

Definition still {A} (m : SM A) : Prop := forall s, pn_file (m s).2 = pn_file s.

Lemma still_bind {A B} (m : SM A) (f : A -> SM B) : still m -> (forall a, still (f a)) -> still (m ≫= f).
Proof. intros Hm Hf s. unfold mbind, SM_bind. specialize (Hm s). destruct (m s) as [[a|e] s1]; [|done]. by rewrite Hf. Qed.
Lemma still_lift {A} (r : res A) : still (lift r).
Proof. done. Qed.
Lemma still_ret {A} (a : A) : still (mret a).
Proof. done. Qed.
Lemma still_quiet {A} (f : N -> A * N) : still (sv_quiet f).
Proof. intros s. unfold sv_quiet. by destruct (f _). Qed.
Lemma still_noted {A} (f : N -> A * N) ev : still (sv_noted f ev).
Proof. intros s. unfold sv_noted. by destruct (f _). Qed.

Ltac stilling := repeat first
  [ apply still_ret | apply still_lift | apply still_quiet | apply still_noted | apply still_bind; [|intros ?] | progress case_match ].

Lemma still_health p : still (_health p).
Proof. unfold _health. stilling. Qed.

Lemma still_await n p : still (_await_health n p).
Proof. induction n; cbn [_await_health]; unfold checked; stilling; first [apply still_health | done]. Qed.

Lemma still_alive z : still (_pid_alive z).
Proof. unfold _pid_alive, killpg. stilling. Qed.

(** [_health] answers true only for a 200 of the broker's port. *)
Lemma health_spec p s : exists l, pn_log (_health p s).2 = pn_log s ++ l /\ ((_health p s).1 = Ok true -> answered p l).
Proof.
  unfold _health, mbind, SM_bind, sv_noted. destruct (bh_get (pn_os s) p) as [a m]. exists [EvHealth p a].
  destruct a as [st body| |]; [| by split | by split]. destruct (Z.eqb_spec st 200) as [->|]; cbn [negb]; [|by split].
  split; [|by exists body; left]. by repeat case_match.
Qed.

Lemma answered_app p l1 l2 : answered p l1 \/ answered p l2 -> answered p (l1 ++ l2).
Proof. intros [[b Hb] | [b Hb]]; exists b; apply in_app_iff; auto. Qed.

Lemma await_spec n p s : exists l, pn_log (_await_health n p s).2 = pn_log s ++ l /\ ((_await_health n p s).1 = Ok true -> answered p l).
Proof.
  revert s. induction n as [|n IH]; intros s; [exists []; by rewrite app_nil_r |]. cbn [_await_health]. unfold mbind at 1 3, SM_bind at 1 3.
  destruct (health_spec p s) as (l & E & Ha). destruct (_health p s) as [[[]|e] s1]; cbn [fst snd] in *; [by exists l; auto | | by exists l].
  unfold checked, sv_quiet, mbind, SM_bind. cbn. destruct (bh_sleep (pn_os s1)) as [[] m]; cbn; [|by exists l].
  destruct (IH (Panel m (pn_file s1) (pn_log s1))) as (l' & E' & Ha'). exists (l ++ l').
  split; [rewrite E'; cbn [pn_log]; by rewrite E, (assoc_L (++)) |]. intros Hr. apply answered_app. right. by apply Ha'.
Qed.

Lemma loads_state z p : loads (state_text z p) = Ok (JObj [("pid", JInt z); ("port", JInt p)]%string).
Proof.
  unfold state_text, dumps. apply loads_dump; [by right |]. constructor; [apply (bool_decide_unpack _); by vm_compute |].
  repeat constructor.
Qed.

(** [minds t z m]: when the state file names [z], it still does after [m], or
    [m] saw that the process is gone. *)
Definition minds {A} (t : string) z (m : SM A) : Prop := forall s, pn_file s = Some t ->
  exists l, pn_log (m s).2 = pn_log s ++ l /\ (pn_file (m s).2 = Some t \/ gone z l).

Lemma minds_still {A} t z (m : SM A) : looking m -> still m -> minds t z m.
Proof. intros Hl Hs s E. destruct (Hl s) as (l & El & _). exists l. rewrite Hs. auto. Qed.

Lemma minds_bind {A B} t z (m : SM A) (f : A -> SM B) : minds t z m -> (forall a, minds t z (f a)) -> (forall a, looking (f a)) ->
  minds t z (m ≫= f).
Proof.
  intros Hm Hf Hl s E. unfold mbind, SM_bind. destruct (Hm s E) as (l1 & E1 & H1). destruct (m s) as [[a|e] s1]; cbn [snd] in *; [|by exists l1].
  destruct H1 as [H1 | H1].
  - destruct (Hf a s1 H1) as (l2 & E2 & H2). exists (l1 ++ l2). rewrite E2, E1, (assoc_L (++)). split; [done |].
    destruct H2 as [H2 | H2]; [by left | right; apply Exists_app; by right].
  - destruct (Hl a s1) as (l2 & E2 & _). exists (l1 ++ l2). rewrite E2, E1, (assoc_L (++)). split; [done |]. right. apply Exists_app. by left.
Qed.

Lemma minds_clear z s l0 : gone z l0 -> exists l, pn_log (_stopped_after_clear s).2 = pn_log s ++ l /\ gone z (l0 ++ l).
Proof.
  intros Hg. assert (looking _stopped_after_clear) as Hl by (unfold _stopped_after_clear; adding; apply look_clear).
  destruct (Hl s) as (l & E & _). exists l. split; [done |]. apply Exists_app. by left.
Qed.

Lemma status_alive_minds t z raw p : minds t z (status_alive z raw p).
Proof.
  intros s E. unfold status_alive, mbind, SM_bind, _pid_alive, killpg, mbind, SM_bind, sv_noted.
  destruct (bh_killpg (pn_os s) z Probe) as [a m]. set (s1 := Panel m (pn_file s) (pn_log s ++ [EvSignal z Probe a])).
  assert (a <> Sent -> a <> SignalFails -> exists l, pn_log (_stopped_after_clear s1).2 = pn_log s ++ l /\ gone z l) as Hdead.
  { intros H1 H2. assert (gone z [EvSignal z Probe a]) as Hg by (left; by destruct a).
    destruct (minds_clear z s1 _ Hg) as (l & El & Hl). exists ([EvSignal z Probe a] ++ l). rewrite El. unfold s1. cbn [pn_log].
    by rewrite (assoc_L (++)). }
  destruct a.
  - change (exists l, pn_log ((healthy ← _health p; mret (Running raw p healthy)) s1).2 = pn_log s ++ l
      /\ (pn_file ((healthy ← _health p; mret (Running raw p healthy)) s1).2 = Some t \/ gone z l)).
    assert (minds t z (healthy ← _health p; mret (Running raw p healthy))) as Hm.
    { apply minds_still; [adding; apply look_health | stilling; apply still_health]. }
    destruct (Hm s1 E) as (l & El & Hl). exists (EvSignal z Probe Sent :: l). rewrite El. unfold s1 at 1. cbn [pn_log].
    rewrite <- (assoc_L (++)). split; [done |]. destruct Hl; [by left | right; by right].
  - destruct Hdead as (l & El & Hl); [done.. |]. exists l. auto.
  - destruct Hdead as (l & El & Hl); [done.. |]. exists l. auto.
  - exists [EvSignal z Probe SignalFails]. split; [done |]. by left.
Qed.

(** A status that says healthy had an answer of the port. *)
Definition answers (p : json) (m : SM broker_status) : Prop := forall s l st,
  pn_log (m s).2 = pn_log s ++ l -> (m s).1 = Ok st -> is_healthy st = true -> answered p l.

Lemma clear_unhealthy s st : (_stopped_after_clear s).1 = Ok st -> is_healthy st = false.
Proof.
  unfold _stopped_after_clear, _clear_state, mbind, SM_bind, sv_noted. destruct (bh_unlink (pn_os s)) as [[] m]; cbn; [by intros [= <-] | done].
Qed.

Lemma clear_answers p : answers p _stopped_after_clear.
Proof. intros s l st _ H1 H2. by rewrite (clear_unhealthy s st H1) in H2. Qed.

(** What a step before [m] added does not matter. *)
Lemma answers_after p m s e n l st : answers p m ->
  pn_log (m (Panel n (pn_file s) (pn_log s ++ [e]))).2 = pn_log s ++ l -> (m (Panel n (pn_file s) (pn_log s ++ [e]))).1 = Ok st ->
  is_healthy st = true -> looking m -> answered p l.
Proof.
  intros Hm El Hr Hh Hl. destruct (Hl (Panel n (pn_file s) (pn_log s ++ [e]))) as (l1 & E1 & _). pose proof (Hm _ _ _ E1 Hr Hh) as Ha.
  rewrite E1 in El. cbn [pn_log] in El. rewrite <- (assoc_L (++)) in El. apply app_inv_head in El as <-. apply answered_app. by right.
Qed.

Lemma healthy_answers raw p : answers p (healthy ← _health p; mret (Running raw p healthy)).
Proof.
  intros s l st El. unfold mbind, SM_bind in *. destruct (health_spec p s) as (l1 & E1 & H1). destruct (_health p s) as [[h|e] s1]; [|intros [=]].
  cbn [fst snd mret SM_ret] in *. intros [= <-] Hh. cbn [is_healthy] in Hh. subst h. rewrite E1 in El. apply app_inv_head in El as <-. auto.
Qed.

Lemma status_alive_answers z raw p : answers p (status_alive z raw p).
Proof.
  assert (looking _stopped_after_clear) as Hc by (unfold _stopped_after_clear; adding; apply look_clear).
  assert (looking (healthy ← _health p; mret (Running raw p healthy))) as Hh by (adding; apply look_health).
  intros s l st. unfold status_alive. remember (healthy ← _health p; mret (Running raw p healthy)) as alive eqn:Ea.
  assert (answers p alive) as Ha by (subst alive; apply healthy_answers). clear Ea.
  unfold _pid_alive, killpg, mbind, SM_bind, sv_noted. destruct (bh_killpg (pn_os s) z Probe) as [a m].
  destruct a; cbn [mret SM_ret raise lift]; intros El Hr Hi.
  - exact (answers_after p alive s _ m l st Ha El Hr Hi Hh).
  - exact (answers_after p _ s _ m l st (clear_answers p) El Hr Hi Hc).
  - exact (answers_after p _ s _ m l st (clear_answers p) El Hr Hi Hc).
  - discriminate Hr.
Qed.

(** [status] of a file that names [z] and [p]: either the file cannot be read,
    or it looks for [z]. *)
Definition status_known z (raw p : json) : SM broker_status :=
  w ← waitpid z;
  match w with
  | Reaped q => if q =? 0 then status_alive z raw p else _stopped_after_clear
  | NoChild => status_alive z raw p
  | NoProcess => _stopped_after_clear
  | WaitFails => raise OSError
  end.

Lemma status_reads z p s : pn_file s = Some (state_text z p) ->
  exists n, status s = (Ok Stopped, Panel n (pn_file s) (pn_log s))
    \/ status s = status_known z (JInt z) (JInt p) (Panel n (pn_file s) (pn_log s)).
Proof.
  destruct s as [n0 f lg]. cbn [pn_file pn_log]. intros ->. unfold status, _read_state, state_file, mbind, SM_bind, sv_quiet. cbn [pn_file pn_os pn_log].
  destruct (bh_read n0) as [[] m]; exists m; [right | by left]. cbn [mret SM_ret]. by rewrite loads_state.
Qed.

Lemma looking_known z raw p : looking (status_known z raw p).
Proof.
  unfold status_known, status_alive, _stopped_after_clear, waitpid. adding; first [apply look_clear | apply look_alive | apply look_health].
Qed.

Lemma known_minds t z raw p : minds t z (status_known z raw p).
Proof.
  intros s E. assert (looking (status_alive z raw p)) as Hl.
  { unfold status_alive, _stopped_after_clear. adding; first [apply look_clear | apply look_alive | apply look_health]. }
  unfold status_known, mbind, SM_bind, waitpid, sv_noted. destruct (bh_waitpid (pn_os s) z) as [w m].
  set (s1 := Panel m (pn_file s) (pn_log s ++ [EvWait z w])).
  assert (shows_gone z (EvWait z w) -> exists l, pn_log (_stopped_after_clear s1).2 = pn_log s ++ l /\ gone z l) as Hdead.
  { intros Hg. destruct (minds_clear z s1 [EvWait z w]) as (l & El & Hd); [by left |]. exists ([EvWait z w] ++ l). rewrite El. unfold s1. cbn [pn_log].
    by rewrite (assoc_L (++)). }
  assert (exists l, pn_log (status_alive z raw p s1).2 = pn_log s ++ l /\ (pn_file (status_alive z raw p s1).2 = Some t \/ gone z l)) as Halive.
  { destruct (status_alive_minds t z raw p s1 E) as (l & El & Hd). exists ([EvWait z w] ++ l). rewrite El. unfold s1 at 1. cbn [pn_log].
    rewrite (assoc_L (++)). split; [done |]. destruct Hd; [by left | right; apply Exists_app; by right]. }
  destruct w as [q| | |].
  - destruct (Z.eqb_spec q 0) as [->|Hq]; [exact Halive |]. destruct Hdead as (l & El & Hd); [done |]. exists l. auto.
  - exact Halive.
  - destruct Hdead as (l & El & Hd); [done |]. exists l. auto.
  - exists [EvWait z WaitFails]. auto.
Qed.

Lemma known_answers z raw p : answers p (status_known z raw p).
Proof.
  assert (looking _stopped_after_clear) as Hc by (unfold _stopped_after_clear; adding; apply look_clear).
  assert (looking (status_alive z raw p)) as Hl.
  { unfold status_alive, _stopped_after_clear. adding; first [apply look_clear | apply look_alive | apply look_health]. }
  intros s l st. unfold status_known, mbind, SM_bind, waitpid, sv_noted. destruct (bh_waitpid (pn_os s) z) as [w m].
  destruct w as [q| | |]; cbn [raise lift]; intros El Hr Hi.
  - destruct (q =? 0); [exact (answers_after p _ s _ m l st (status_alive_answers z raw p) El Hr Hi Hl)
                       | exact (answers_after p _ s _ m l st (clear_answers p) El Hr Hi Hc)].
  - exact (answers_after p _ s _ m l st (status_alive_answers z raw p) El Hr Hi Hl).
  - exact (answers_after p _ s _ m l st (clear_answers p) El Hr Hi Hc).
  - discriminate Hr.
Qed.

Lemma status_minds z p : minds (state_text z p) z status.
Proof.
  intros s E. destruct (status_reads z p s E) as (n & [-> | ->]); [exists []; rewrite app_nil_r; auto |].
  apply (known_minds _ z _ _ (Panel n (pn_file s) (pn_log s))). exact E.
Qed.

Lemma status_answers z p s l st : pn_file s = Some (state_text z p) ->
  pn_log (status s).2 = pn_log s ++ l -> (status s).1 = Ok st -> is_healthy st = true -> answered (JInt p) l.
Proof.
  intros E. destruct (status_reads z p s E) as (n & [-> | ->]); [by intros _ [= <-] |].
  apply (known_answers z _ _ (Panel n (pn_file s) (pn_log s))).
Qed.

Lemma write_spec t s :
  ((_write_state t s).1 = Ok tt /\ pn_file (_write_state t s).2 = Some t /\ pn_log (_write_state t s).2 = pn_log s ++ [EvWrite t true])
  \/ exists e l, (_write_state t s).1 = Raise e /\ pn_log (_write_state t s).2 = pn_log s ++ l /\ ~ In (EvWrite t true) l.
Proof.
  unfold _write_state, checked, mbind, SM_bind, sv_quiet, sv_noted. destruct (bh_private (pn_os s)) as [[] m]; cbn.
  - destruct (bh_write m) as [[rest|] m']; cbn; [right | by left]. exists OSError, [EvWrite t false]. split; [done |]. split; [done |].
    by intros [[=] | []].
  - right. exists PermissionError, []. rewrite app_nil_r. auto.
Qed.

(** What is known once the spawn returned [z]. *)
Definition started (c : BrokerRunConfig) z (l : list sv_event) (r : res (broker_status * bool) * panel N) : Prop :=
  let t := state_text z (bc_port c) in
  (In (EvWrite t true) l -> pn_file r.2 = Some t \/ gone z l)
  /\ (forall st err, r.1 = Ok (st, err) -> In (EvWrite t true) l /\ (err = false -> answered (JInt (bc_port c)) l)).

Lemma after_spawn_spec c z s : exists l, pn_log (after_spawn c z s).2 = pn_log s ++ l /\ started c z l (after_spawn c z s).
Proof.
  unfold after_spawn, started. set (t := state_text z (bc_port c)). unfold mbind, SM_bind.
  destruct (write_spec t s) as [(Er & Ef & El) | (e & l & Er & El & Hn)].
  2: { destruct (_write_state t s) as [r s1]. cbn [fst snd] in *. subst r. by exists l. }
  destruct (_write_state t s) as [r s1]. cbn [fst snd] in *. subst r.
  destruct (await_spec 40 (JInt (bc_port c)) s1) as (l1 & E1 & H1). pose proof (still_await 40 (JInt (bc_port c)) s1) as F1.
  destruct (_await_health 40 (JInt (bc_port c)) s1) as [[ok|e] s2]; cbn [fst snd] in *.
  2: { exists ([EvWrite t true] ++ l1). rewrite E1, El, (assoc_L (++)). split; [done |]. split; [left; congruence | done]. }
  rewrite Ef in F1. destruct (status_minds z (bc_port c) s2 F1) as (l2 & E2 & H2).
  pose proof (fun st => status_answers z (bc_port c) s2 l2 st F1 E2) as H3.
  exists ([EvWrite t true] ++ l1 ++ l2). destruct (status s2) as [[st|e] s3]; cbn [fst snd mret SM_ret] in *.
  all: split; [rewrite E2, E1, El, <- !(assoc_L (++)); done |]; split.
  1, 3: intros _; destruct H2 as [H2 | H2]; [by left | right; rewrite (assoc_L (++)); apply Exists_app; by right].
  - intros st' err [= <- <-]. split; [by left |]. intros He. rewrite (assoc_L (++)). apply answered_app.
    destruct ok; [left; apply answered_app; right; by apply H1 |]. right. apply (H3 st); [done |]. by destruct (is_healthy st).
  - done.
Qed.

Lemma started_app c z l0 l r : ~ In (EvWrite (state_text z (bc_port c)) true) l0 -> started c z l r -> started c z (l0 ++ l) r.
Proof.
  intros Hn [H1 H2]. split.
  - intros [Hi | Hi]%in_app_iff; [done |]. destruct (H1 Hi); [by left | right; apply Exists_app; by right].
  - intros st err E. destruct (H2 st err E) as [Hi Ha]. split; [apply in_app_iff; by right |]. intros He. apply answered_app. right. auto.
Qed.

Lemma no_spawn l env z : Forall records l -> ~ In (EvSpawn env (Some z)) l.
Proof. rewrite List.Forall_forall. intros Hf Hi. by apply Hf in Hi. Qed.

Lemma no_write l t : Forall looks l -> ~ In (EvWrite t true) l.
Proof. rewrite List.Forall_forall. intros Hf Hi. by apply Hf in Hi. Qed.

Lemma start_spec c s : exists l, pn_log (start c s).2 = pn_log s ++ l
  /\ forall env z, In (EvSpawn env (Some z)) l -> env = child_env bh_environ c /\ started c z l (start c s).
Proof.
  unfold start, mbind, SM_bind. destruct (look_status s) as (l & E & Hl).
  assert (forall env z, ~ In (EvSpawn env (Some z)) l) as Hn by (intros; by apply no_spawn, looks_records).
  destruct (status s) as [[st|e] s1]; cbn [fst snd] in *.
  2: { exists l. split; [done |]. intros env z Hi. by destruct (Hn env z). }
  destruct (is_running st).
  { exists l. split; [done |]. intros env z Hi. by destruct (Hn env z). }
  unfold checked, mbind, SM_bind, sv_quiet, sv_noted. destruct (bh_private (pn_os s1)) as [[] m].
  2: { exists l. split; [done |]. intros env z Hi. by destruct (Hn env z). }
  cbn [mret SM_ret pn_os pn_file pn_log]. destruct (bh_open_log m) as [[] m'].
  2: { exists l. split; [done |]. intros env z Hi. by destruct (Hn env z). }
  cbn [mret SM_ret pn_os pn_file pn_log]. destruct (bh_spawn m' (child_env bh_environ c)) as [[z|] m''].
  2: { exists (l ++ [EvSpawn (child_env bh_environ c) None]). cbn [snd pn_log raise lift]. rewrite E, (assoc_L (++)). split; [done |].
       intros env z [Hi | [[=] | []]]%in_app_iff. by destruct (Hn env z). }
  set (s2 := Panel m'' _ _). destruct (after_spawn_spec c z s2) as (l2 & E2 & H2). destruct (record_after_spawn c z s2) as (l2' & E2' & Hr).
  rewrite E2 in E2'. apply app_inv_head in E2' as <-.
  exists ((l ++ [EvSpawn (child_env bh_environ c) (Some z)]) ++ l2).
  split; [rewrite E2; unfold s2; cbn [pn_log]; by rewrite E, !(assoc_L (++)) |].
  intros env z' [[Hi | [[= <- <-] | []]]%in_app_iff | Hi]%in_app_iff; [by destruct (Hn env z') | | by destruct (no_spawn l2 env z')].
  split; [done |]. apply started_app; [|done]. intros [Hi | [[=] | []]]%in_app_iff. by destruct (no_write l _ Hl Hi).
Qed.

(** C36. A start that spawned a broker, whether it returned or raised: when the
    state file was written it names that broker afterwards, or the log shows
    that it is gone; a start that returns has written it, and one that reports
    no error had the answer 200 of the broker's port. *)
Theorem started_broker_recorded c s l env z :
  pn_log (start c s).2 = pn_log s ++ l -> In (EvSpawn env (Some z)) l ->
  env = child_env bh_environ c /\ started c z l (start c s).
Proof.
  intros E Hi. destruct (start_spec c s) as (l' & E' & H'). rewrite E' in E. apply app_inv_head in E as ->. by apply H'.
Qed.
End Facts.

(** ** Witnesses *)

(** A machine with one process, which runs the broker and ignores SIGTERM;
    [owned] tells whether it is a child of the panel. *)
Record sim := Sim { sim_alive : bool; sim_owned : bool }.

#[local] Instance sim_host : BrokerHost sim := {|
  bh_environ := [("PATH", "/bin")]%string;
  bh_decode := Some;
  bh_ps := fun n _ => (Some "python3 -m broker.server"%string, n);
  bh_waitpid := fun n _ => (if sim_owned n then if sim_alive n then Reaped 0 else Reaped 4242 else NoChild, n);
  bh_wait := fun n _ => (if sim_owned n then Reaped 4242 else NoChild, n);
  bh_killpg := fun n _ g => if sim_alive n then (Sent, match g with Kill => Sim false (sim_owned n) | _ => n end) else (NoGroup, n);
  bh_private := fun n => (true, n);
  bh_open_log := fun n => (true, n);
  bh_spawn := fun n _ => (Some 4242, Sim true true);
  bh_read := fun n => (true, n);
  bh_write := fun n => (None, n);
  bh_unlink := fun n => (true, n);
  bh_get := fun n _ => (if sim_alive n then Answered 200 (dumps (JObj [("status", JStr "ok")]%string)) else Unreachable, n);
  bh_sleep := fun n => (true, n) |}.

Definition sim_start : panel sim := Panel (Sim false false) None [].
Definition sim_config : BrokerRunConfig := new_config "/db".
Definition sim_log : list sv_event := pn_log (sv_run [OStart sim_config; OStop] sim_start).

Lemma only_the_broker_is_signalled_witness :
  grounds 4242 Kill (take 38 sim_log) /\ nth_error sim_log 38 = Some (EvSignal 4242 Kill Sent).
Proof.
  split; [|by vm_compute].
  apply (only_the_broker_is_signalled [OStart sim_config; OStop] sim_start sim_log (take 38 sim_log) 4242 Kill Sent (drop 39 sim_log));
    [reflexivity | by vm_compute | done].
Defined.

Lemma started_broker_recorded_witness :
  is_ok (start sim_config sim_start).1 = true
  /\ started sim_config 4242 (pn_log (start sim_config sim_start).2) (start sim_config sim_start).
Proof.
  split; [by vm_compute |].
  apply (started_broker_recorded sim_config sim_start (pn_log (start sim_config sim_start).2) (child_env bh_environ sim_config) 4242);
    [reflexivity | vm_compute; tauto].
Defined.

(** A broker that is not a child of the panel any more and ignores SIGTERM is
    neither waited for nor killed: it keeps running, and the panel forgets it. *)
Example stop_forgets_an_adopted_broker :
  let s := Panel (Sim true false) (Some (state_text 4242 8765)) [] in
  (stop s).1 = Ok Stopped /\ pn_file (stop s).2 = None /\ sim_alive (pn_os (stop s).2) = true
  /\ Forall (fun e => match e with EvSignal _ Kill _ => False | _ => True end) (pn_log (stop s).2).
Proof. vm_compute. repeat split. repeat constructor. Qed.
