(* ===== verification/PolicyEdits.v ===== *)
(** admin/policy_edits.py: the web editor's changes to a policy, and what they
    decide once [operations.set_policy] has stored them. *)

From stdpp Require Import base tactics list strings.
From Stdlib Require Import ZArith Lia Ascii.
From S2P Require Import Prelude PyStr Json Policy.

(** The catalog: the operations of each tool. *)
Definition ops_catalog : Type := dict (list string).

Definition target : Type := (string * string)%type.

(** The form field of an operation. *)
Definition field_of (t : target) : string := "op__" +:+ t.1 +:+ "__" +:+ t.2.

(** A field that two operations share maps to no target. *)
Definition add_field (result : dict (option target)) (t : target) : dict (option target) :=
  match dget result (field_of t) with
  | Some old => if bool_decide (old = Some t) then dset result (field_of t) (Some t) else dset result (field_of t) None
  | None => dset result (field_of t) (Some t)
  end.

Definition operation_fields (current : policy) (catalog : ops_catalog) : dict (option target) :=
  fold_left add_field
    (List.concat (map (fun tool => map (fun op => (tool, op)) (default [] (dget catalog tool))) (enabled_tools current))) [].

Definition is_effect_name (e : string) : bool := mem_str e ["allow"; "review"; "deny"]%string.

(** The draft that is shown again when a save was refused. *)
Definition retained_draft (current : policy) (fields : dict string) (field_map : dict (option target)) : policy :=
  Policy
    (Some (fold_left (fun tools kv =>
        match dget field_map kv.1 with
        | Some (Some (tool, op)) =>
            if is_effect_name kv.2 then dset tools tool (dset (default [] (dget tools tool)) op kv.2) else tools
        | _ => tools
        end) fields (default [] (p_tools current))))
    (p_enabled current) (p_disabled current).

(** [s.split("__", 1)], when there are two parts. *)
Fixpoint cut_dunder (s : string) : option target :=
  match s with
  | EmptyString => None
  | String c s' => if starts_with "__" s then Some (EmptyString, str_drop 2 s)
                   else '(a, b) ← cut_dunder s'; Some (String c a, b)
  end.

Definition dotted (t : target) : string := t.1 +:+ String "." t.2.

(** One field of the form; [field_map] is absent for a caller of the old form. *)
Definition merge_field (field_map : option (dict (option target))) (grants : dict string) (kv : string * string) : res (dict string) :=
  let '(key, effect) := kv in
  if negb (starts_with "op__" key) then Ok grants
  else
    match cut_dunder (str_drop 4 key) with
    | None => Raise ValueError
    | Some parts =>
        if negb (is_effect_name effect) then Raise ValueError
        else match field_map with
             | Some fm => match dget fm key with
                          | Some (Some t) => Ok (dset grants (dotted t) effect)
                          | _ => Raise ValueError
                          end
             | None => Ok (dset grants (dotted parts) effect)
             end
    end.

Definition flat_rules (tools : dict (dict string)) : list (target * string) :=
  List.concat (map (fun to => map (fun oe => ((to.1, oe.1), oe.2)) to.2) tools).

Definition with_effect (grants : dict string) (effect : string) : list string :=
  map fst (List.filter (fun kv => String.eqb kv.2 effect) grants).

Definition merge_grants (current : policy) (fields : dict string) (field_map : option (dict (option target)))
  : res (list string * list string * list string) :=
  let grants := fold_left (fun g r => dset g (dotted r.1) r.2) (flat_rules (default [] (p_tools current))) [] in
  grants ← foldM (merge_field field_map) grants fields;
  Ok (with_effect grants "allow", with_effect grants "review", with_effect grants "deny").

Definition merge_enabled (current : policy) (available selected : list string) : list string :=
  let prior := dedup (default [] (p_enabled current) ++ dkeys (default [] (p_tools current))) in
  dedup (List.filter (fun t => negb (mem_str t available)) prior ++ selected).

(** ** The field map *)

Definition dotless (s : string) : Prop := ~ In "."%char (chars s).

Lemma cut_field t : exists p, cut_dunder (str_drop 4 (field_of t)) = Some p.
Proof.
  assert (str_drop 4 (field_of t) = t.1 +:+ "__" +:+ t.2) as -> by exact (of_chars_chars _).
  destruct t as [tool op]. cbn [fst snd]. induction tool as [|c s IH]; [by eexists |].
  rewrite str_cons_app. cbn [cut_dunder]. destruct (starts_with _ _); [by eexists |]. destruct IH as [[a b] ->]. by eexists.
Qed.

(** What a field of the map says of the operations [l] it was built from. *)
Definition field_says (l : list target) (key : string) (o : option (option target)) : Prop :=
  match o with
  | None => forall t, In t l -> field_of t <> key
  | Some (Some t) => In t l /\ field_of t = key /\ forall t', In t' l -> field_of t' = key -> t' = t
  | Some None => exists t t', In t l /\ In t' l /\ t <> t' /\ field_of t = key /\ field_of t' = key
  end.

Definition map_says (l : list target) (fm : dict (option target)) : Prop := forall key, field_says l key (dget fm key).

Lemma field_says_other l t key o : field_of t <> key -> field_says l key o -> field_says (l ++ [t]) key o.
Proof.
  intros Hne. destruct o as [[t0|]|]; cbn [field_says].
  - intros (H1 & H2 & H3). split; [apply in_app_iff; by left |]. split; [done |].
    intros t' [Hi | [<- | []]]%in_app_iff E; [by apply H3 | done].
  - intros (a & b & Ha & Hb & H'). exists a, b. split; [apply in_app_iff; by left |]. split; [apply in_app_iff; by left | done].
  - intros H' t' [Hi | [<- | []]]%in_app_iff; [by apply H' | done].
Qed.

Lemma map_says_add l fm t : map_says l fm -> map_says (l ++ [t]) (add_field fm t).
Proof.
  intros Hs key. pose proof (Hs key) as Hk. unfold add_field. pose proof (Hs (field_of t)) as Ht.
  destruct (decide (field_of t = key)) as [<-|Hne].
  - destruct (dget fm (field_of t)) as [[t0|]|]; cbn [field_says] in Ht.
    + case_bool_decide as E; rewrite dget_dset, decide_True by done; cbn [field_says].
      * injection E as ->. destruct Ht as (H1 & _ & H3). split; [apply in_app_iff; by left |]. split; [done |].
        intros t' [Hi | [<- | []]]%in_app_iff E'; [by apply H3 | done].
      * destruct Ht as (H1 & H2 & _). exists t0, t. split; [apply in_app_iff; by left |]. split; [apply in_app_iff; right; by left |].
        split; [congruence | done].
    + rewrite bool_decide_false by done. rewrite dget_dset, decide_True by done. cbn [field_says].
      destruct Ht as (a & b & Ha & Hb & H'). exists a, b. split; [apply in_app_iff; by left |]. split; [apply in_app_iff; by left | done].
    + rewrite dget_dset, decide_True by done. cbn [field_says]. split; [apply in_app_iff; right; by left |]. split; [done |].
      intros t' [Hi | [<- | []]]%in_app_iff E; [by destruct (Ht t' Hi) | done].
  - apply field_says_other; [done |].
    destruct (dget fm (field_of t)) as [old|]; [case_bool_decide|]; rewrite dget_dset, decide_False by done; done.
Qed.

Lemma map_says_fold l : forall l0 fm, map_says l0 fm -> map_says (l0 ++ l) (fold_left add_field l fm).
Proof.
  induction l as [|t l IH]; intros l0 fm Hs; [by rewrite app_nil_r |]. cbn [fold_left].
  replace (l0 ++ t :: l) with ((l0 ++ [t]) ++ l) by (by rewrite <- (assoc_L (++))). by apply IH, map_says_add.
Qed.

(** The operations the editor shows: those of the enabled tools. *)
Definition shown (current : policy) (catalog : ops_catalog) : list target :=
  List.concat (map (fun tool => map (fun op => (tool, op)) (default [] (dget catalog tool))) (enabled_tools current)).

Lemma operation_fields_say current catalog : map_says (shown current catalog) (operation_fields current catalog).
Proof. apply (map_says_fold (shown current catalog) []). by intros key t. Qed.

Definition fields_ok (fm : dict (option target)) : Prop := forall key t, dget fm key = Some (Some t) -> key = field_of t.

Lemma operation_fields_ok p c : fields_ok (operation_fields p c).
Proof. intros key t E. pose proof (operation_fields_say p c key) as H. rewrite E in H. by destruct H as (_ & <- & _). Qed.

Lemma shown_tool p c t : In t (shown p c) -> In t.1 (enabled_tools p).
Proof. unfold shown. intros (l & (tool & <- & Ht)%in_map_iff & (op & <- & _)%in_map_iff)%in_concat. done. Qed.

(** ** What the grants become *)

Lemma dotted_inj t t' : dotless t.1 -> dotless t'.1 -> dotted t = dotted t' -> t = t'.
Proof.
  destruct t as [a b], t' as [a' b']. unfold dotted, dotless. cbn [fst snd]. intros H H' E.
  pose proof (partition_join a b H) as P. rewrite E, (partition_join a' b' H') in P. by injection P as <- <-.
Qed.

(** The grants hold, for every target, what [f] says, and nothing else. *)
Definition grants_are (g : dict string) (f : target -> option string) : Prop :=
  dict_wf g /\ (forall k e, dget g k = Some e -> exists t, k = dotted t /\ dotless t.1)
  /\ forall t, dotless t.1 -> dget g (dotted t) = f t.

Lemma grants_are_set g f t e : dotless t.1 -> grants_are g f ->
  grants_are (dset g (dotted t) e) (fun t' => if decide (t = t') then Some e else f t').
Proof.
  intros Ht (Hw & Hk & Hf). split; [by apply dict_wf_dset |]. split.
  - intros k e'. rewrite dget_dset. case_decide as E; [intros _; by exists t | apply Hk].
  - intros t' Ht'. rewrite dget_dset, Hf by done. case_decide as E; case_decide as E'; subst; try done.
    apply dotted_inj in E; done.
Qed.

Lemma with_effect_spec g f e t : grants_are g f -> dotless t.1 ->
  existsb (spec_is t.1 t.2) (with_effect g e) = bool_decide (f t = Some e).
Proof.
  intros (Hw & Hk & Hf) Ht. apply eq_bool_prop_intro. rewrite !Is_true_true, existsb_exists, bool_decide_eq_true. unfold with_effect. split.
  - intros (k & Hi & Hs). apply in_map_iff in Hi as ([k' e'] & <- & [Hi He]%filter_In). cbn [fst snd] in *.
    apply String.eqb_eq in He as ->. apply dget_wf_In in Hi; [|done]. destruct (Hk _ _ Hi) as (t' & -> & Ht').
    unfold spec_is, dotted in Hs. rewrite partition_join in Hs by done. apply andb_true_iff in Hs as [H1%String.eqb_eq H2%String.eqb_eq].
    rewrite <- (Hf t Ht), <- Hi. f_equal. unfold dotted. by rewrite H1, H2.
  - intros He. rewrite <- (Hf t Ht) in He. exists (dotted t). split.
    + apply in_map_iff. exists (dotted t, e). split; [done |]. apply filter_In. split; [by apply dget_In | apply String.eqb_refl].
    + unfold spec_is, dotted. rewrite partition_join by done. by rewrite !String.eqb_refl.
Qed.

(** Rules as the code can have them: distinct names, no dot in a tool's. *)
Definition rules_ok (tools : dict (dict string)) : Prop :=
  dict_wf tools /\ Forall (fun to => dict_wf to.2 /\ dotless to.1) tools.

Fixpoint tget (l : list (target * string)) (t : target) : option string :=
  match l with [] => None | (t', e) :: l' => if decide (t' = t) then Some e else tget l' t end.

Lemma tget_None l t : tget l t = None <-> ~ In t (map fst l).
Proof.
  induction l as [|[t' e] l IH]; cbn [tget map fst]; [split; [by intros _ [] | done] |]. case_decide as E.
  - split; [done |]. intros H. destruct H. by left.
  - rewrite IH. split; [intros H [? | ?]; auto | intros H ?; apply H; by right].
Qed.

Lemma tget_app l1 l2 t : tget (l1 ++ l2) t = match tget l1 t with Some e => Some e | None => tget l2 t end.
Proof. induction l1 as [|[t' e] l1 IH]; [done |]. cbn [app tget]. by case_decide. Qed.

Lemma grants_are_fold l : NoDup (map fst l) -> Forall (fun te => dotless te.1.1) l -> forall g f, grants_are g f ->
  grants_are (fold_left (fun g r => dset g (dotted r.1) r.2) l g) (fun t => match tget l t with Some e => Some e | None => f t end).
Proof.
  induction l as [|[t e] l IH]; intros Hn Hd g f Hg; [done |]. cbn [map fst] in Hn. apply NoDup_cons in Hn as [Hn0 Hn].
  apply Forall_cons_1 in Hd as [Hd0 Hd]. cbn [fold_left fst snd].
  destruct (IH Hn Hd _ _ (grants_are_set g f t e Hd0 Hg)) as (Hw & Hk & Hf). split; [done |]. split; [done |].
  intros t' Ht'. rewrite Hf by done. cbn [tget]. repeat case_decide; subst; try done.
  assert (tget l t' = None) as ->; [|done]. apply tget_None. by rewrite <- list_elem_of_In.
Qed.

Lemma tget_inner tool ops t : tget (map (fun oe : string * string => ((tool, oe.1), oe.2)) ops) t
  = if decide (tool = t.1) then dget ops t.2 else None.
Proof.
  induction ops as [|[o e] ops IH]; cbn [map tget fst snd]; [by case_decide |]. rewrite IH. cbn [dget].
  destruct t as [tl op]. cbn [fst snd]. repeat case_decide; congruence.
Qed.

Lemma tget_flat tools t : dict_wf tools -> tget (flat_rules tools) t = rule tools t.1 t.2.
Proof.
  unfold rule, dict_wf. induction tools as [|[tool ops] tools IH]; [done |]. cbn [dkeys map fst]. intros [Hn Hw]%NoDup_cons.
  unfold flat_rules. cbn [map List.concat]. rewrite tget_app, tget_inner. cbn [fst snd dget]. fold (flat_rules tools). rewrite IH by done.
  case_decide as E; [|done]. subst tool. cbn [from_option id]. destruct (dget ops t.2) as [e|]; [done |]. assert (dget tools t.1 = None) as ->; [|done]. apply dget_None. by rewrite <- list_elem_of_In.
Qed.

Lemma flat_targets tools t : In t (map fst (flat_rules tools)) -> In t.1 (dkeys tools).
Proof.
  unfold flat_rules. intros ((t' & e) & <- & Hi)%in_map_iff. apply in_concat in Hi as (l & ([tool ops] & <- & Ht)%in_map_iff & Hi).
  apply in_map_iff in Hi as ([o e'] & [= <- <-] & _). apply in_map_iff. by exists (tool, ops).
Qed.

Lemma flat_ok tools : rules_ok tools -> NoDup (map fst (flat_rules tools)) /\ Forall (fun te => dotless te.1.1) (flat_rules tools).
Proof.
  unfold rules_ok, dict_wf. induction tools as [|[tool ops] tools IH]; [by repeat constructor |]. cbn [dkeys map fst].
  intros [[Hn Hw]%NoDup_cons [[Hw0 Hd0] Hf]%Forall_cons_1]. destruct IH as [IH1 IH2]; [done |].
  unfold flat_rules. cbn [map List.concat]. fold (flat_rules tools). rewrite map_app, map_map. cbn [fst snd].
  split; [|apply Forall_app; split; [|done]; apply List.Forall_forall; intros te ([o e] & <- & _)%in_map_iff; done].
  apply NoDup_app. split; [|split; [|done]].
  - change (map (fun oe : string * string => (tool, oe.1)) ops) with (map (fun oe : string * string => pair tool oe.1) ops).
    rewrite <- (map_map fst (pair tool)). apply NoDup_fmap_2; [by intros ?? [=] | done].
  - intros t Hi Hi'. apply list_elem_of_In in Hi, Hi'. apply in_map_iff in Hi as ([o e] & <- & _). apply flat_targets in Hi'.
    cbn [fst] in Hi'. by apply Hn, list_elem_of_In.
Qed.

(** The effect the form posts for a target: only the field that selects exactly
    this target counts. *)
Definition posted (fields : dict string) (fm : dict (option target)) (t : target) : option string :=
  match dget fm (field_of t) with
  | Some (Some t') => if decide (t' = t) then dget fields (field_of t) else None
  | _ => None
  end.

Definition map_dotless (fm : dict (option target)) : Prop := forall key t, dget fm key = Some (Some t) -> dotless t.1.

Lemma merge_fields_spec fm fields : fields_ok fm -> map_dotless fm -> dict_wf fields -> forall g f g',
  grants_are g f -> foldM (merge_field (Some fm)) g fields = Ok g' ->
  grants_are g' (fun t => match posted fields fm t with Some e => Some e | None => f t end)
  /\ Forall (fun kv => starts_with "op__" kv.1 = true -> is_effect_name kv.2 = true) fields.
Proof.
  intros Hok Hd. unfold dict_wf. induction fields as [|[key e] fields IH]; intros Hw g f g' Hg; cbn [foldM].
  - intros [= <-]. split; [|done]. destruct Hg as (H1 & H2 & H3). split; [done |]. split; [done |]. intros t Ht. rewrite H3 by done.
    unfold posted. cbn. by repeat case_match.
  - cbn [dkeys map fst] in Hw. apply NoDup_cons in Hw as [Hn Hw]. intros E. apply res_bind_ok in E as (g1 & E1 & E).
    assert (dget fields key = None) as Hnone by (apply dget_None; by rewrite <- list_elem_of_In).
    unfold merge_field in E1. destruct (starts_with "op__" key) eqn:Es; cbn [negb] in E1.
    + destruct (cut_dunder _) as [parts|]; [|done]. destruct (is_effect_name e) eqn:Ee; [|done]. cbn [negb] in E1.
      destruct (dget fm key) as [[t|]|] eqn:Ek; [|done..]. injection E1 as <-.
      pose proof (Hok _ _ Ek) as ->. destruct (IH Hw _ _ _ (grants_are_set g f t e (Hd _ _ Ek) Hg) E) as [(H1 & H2 & H3) H4].
      split; [|by constructor]. split; [done |]. split; [done |]. intros t' Ht'. rewrite H3 by done. unfold posted. cbn [dget].
      destruct (decide (t = t')) as [<-|Hne].
      * rewrite Ek, !decide_True by done. by rewrite Hnone.
      * case_decide; [done |]. case_decide as Hf; [|done]. rewrite <- Hf, Ek. by repeat case_decide.
    + injection E1 as <-. destruct (IH Hw _ _ _ Hg E) as [(H1 & H2 & H3) H4]. split; [|constructor; [cbn [fst]; by rewrite Es | done]].
      split; [done |]. split; [done |]. intros t' Ht'. rewrite H3 by done. unfold posted. cbn [dget].
      destruct (decide (key = field_of t')) as [->|]; [|done]. unfold field_of in Es. by rewrite starts_with_app in Es.
Qed.

Lemma operation_fields_dotless p c : Forall dotless (enabled_tools p) -> map_dotless (operation_fields p c).
Proof.
  intros Hd key t E. pose proof (operation_fields_say p c key) as H. rewrite E in H. destruct H as (Hi & _).
  apply shown_tool in Hi. rewrite List.Forall_forall in Hd. by apply Hd.
Qed.

(** What a policy decides without looking at its rules. *)
Definition barred (p : policy) (tool op : string) : bool :=
  bool_decide (is_Some (p_disabled p)) && bool_decide (is_Some (p_enabled p)) && negb (mem_str tool (default [] (p_enabled p)))
  || mem_str op (default [] (dget (default [] (p_disabled p)) tool)).

Lemma decide_barred p tool op : decide_op p tool op = if barred p tool op then DENY else _norm (rule (default [] (p_tools p)) tool op).
Proof. unfold decide_op, barred, rule. by destruct (_ && _ && _), (mem_str op _). Qed.

(** The policy stored for the three lists decides what the grants say. *)
Lemma replaced_rule current g f tool op : grants_are g f -> dotless tool ->
  _norm (rule (default [] (p_tools (replace_grants current (with_effect g "allow") (with_effect g "review") (with_effect g "deny")))) tool op)
  = _norm (f (tool, op)).
Proof.
  intros Hg Ht. cbn [replace_grants build_policy p_tools from_option id]. rewrite !rule_grant_all.
  rewrite !(with_effect_spec g f _ (tool, op) Hg Ht : existsb (spec_is tool op) _ = _). cbn [rule dget from_option id].
  unfold _norm. destruct (f (tool, op)) as [e|]; [|done].
  destruct (String.eqb_spec e "allow") as [->|H1]; [done |]. destruct (String.eqb_spec e "review") as [->|H2]; [done |].
  destruct (bool_decide (Some e = Some "deny"%string)); [done |]. rewrite !bool_decide_false by congruence. done.
Qed.

(** C38. A save of the web editor decides each operation whose own field was
    posted as the form says, unless the policy bars it, and leaves what the
    policy decides of every other operation, shown or not, as it was. *)
Theorem web_edit_exact current catalog fields allow review deny tool op :
  rules_ok (default [] (p_tools current)) -> Forall dotless (enabled_tools current) -> dict_wf fields -> dotless tool ->
  merge_grants current fields (Some (operation_fields current catalog)) = Ok (allow, review, deny) ->
  decide_op (replace_grants current allow review deny) tool op
  = match posted fields (operation_fields current catalog) (tool, op) with
    | Some e => if barred current tool op then DENY else _norm (Some e)
    | None => decide_op current tool op
    end.
Proof.
  intros Hr He Hw Ht E. unfold merge_grants in E. apply res_bind_ok in E as (g & E & [= <- <- <-]).
  destruct (flat_ok _ Hr) as [Hn Hd].
  assert (grants_are [] (fun _ => None)) as H0 by (split; [constructor |]; split; [done | done]).
  pose proof (grants_are_fold _ Hn Hd [] _ H0) as H1.
  destruct (merge_fields_spec _ fields (operation_fields_ok current catalog) (operation_fields_dotless current catalog He) Hw _ _ _ H1 E) as [H2 _].
  rewrite decide_barred. change (barred (replace_grants current _ _ _) tool op) with (barred current tool op).
  rewrite (replaced_rule current g _ tool op H2 Ht). destruct (posted _ _ _) as [e|]; [done |].
  rewrite decide_barred, tget_flat by apply Hr. cbn [fst snd]. by destruct (rule _ tool op).
Qed.

(** A field of the form selects an operation exactly when it is shown and no
    other shown operation has the same field: a tool and an operation whose
    names are read differently are never confused. *)
Theorem field_selects current catalog key t :
  dget (operation_fields current catalog) key = Some (Some t)
  <-> In t (shown current catalog) /\ field_of t = key /\ forall t', In t' (shown current catalog) -> field_of t' = key -> t' = t.
Proof.
  pose proof (operation_fields_say current catalog key) as H. split; [intros E; by rewrite E in H |].
  intros (Hi & Hk & Hu). destruct (dget (operation_fields current catalog) key) as [[t'|]|]; cbn [field_says] in H.
  - destruct H as (Hi' & Hk' & _). by rewrite (Hu t' Hi' Hk').
  - destruct H as (a & b & Ha & Hb & Hne & Ka & Kb). destruct Hne. by rewrite (Hu a Ha Ka), (Hu b Hb Kb).
  - by destruct (H t Hi).
Qed.

Definition twins_policy : policy := Policy (Some [("a"%string, [("b__c", "allow")]%string)]) (Some ["a__b"%string]) None.
Definition twins_catalog : ops_catalog := [("a", ["b__c"; "x"]); ("a__b", ["c"])]%string.

Lemma web_edit_exact_witness :
  decide_op (replace_grants twins_policy ["a.b__c"%string] [] ["a.x"%string]) "a" "x" = DENY
  /\ merge_grants twins_policy [("op__a__x", "deny")]%string (Some (operation_fields twins_policy twins_catalog))
     = Ok (["a.b__c"%string], [], ["a.x"%string]).
Proof.
  split; [|by vm_compute].
  rewrite (web_edit_exact twins_policy twins_catalog [("op__a__x", "deny")]%string ["a.b__c"%string] [] ["a.x"%string] "a" "x").
  - by vm_compute.
  - split; [apply (bool_decide_unpack _); by vm_compute |]. repeat constructor; [apply (bool_decide_unpack _); by vm_compute |].
    intros [? | []]; discriminate.
  - vm_compute. repeat constructor; intros Hi; cbn in Hi; intuition discriminate.
  - apply (bool_decide_unpack _); by vm_compute.
  - intros [? | []]; discriminate.
  - by vm_compute.
Defined.

(** The field both operations would have is refused. *)
Example twins_refused :
  merge_grants twins_policy [("op__a__b__c", "deny")]%string (Some (operation_fields twins_policy twins_catalog)) = Raise ValueError.
Proof. by vm_compute. Qed.
