(* ===== verification/Transport.v ===== *)
(** broker/server.py, the connections of the broker: bounded reading of a
    request, its one answer, and the failures of both; with the [DeadlineReader]
    of broker/bounds.py and [parse_request] of http.server under it.

    A connection is the interface [Peer]: the clock, what [recv] and [sendall]
    answer under the timeout that is set, the standard parser of header fields,
    on which texts the JSON parser exhausts the stack, and whether the database
    can be used by the transactions this file makes itself (those of the handler
    are the world's).  [k_log] is what was done on the socket, in order; the broker's own
    state is the [world] of Broker.v.  Times are microseconds. *)

From stdpp Require Import base tactics list strings.
From Stdlib Require Import ZArith Lia Ascii.
From S2P Require Import Prelude PyStr Json Process Policy Action Store StoreFacts StoreSpec Ingress Registry Broker Lifecycle Receipt Mcp Gateway.

Definition TimeoutError : exn := OtherExn "TimeoutError".
Definition SocketError : exn := OtherExn "OSError".
Definition _HeaderTooLarge : exn := OtherExn "_HeaderTooLarge".
Definition LineTooLong : exn := OtherExn "LineTooLong".
Definition TooManyHeaders : exn := OtherExn "HTTPException".
Definition UnicodeDecodeError : exn := OtherExn "UnicodeDecodeError".
Definition RecursionError : exn := OtherExn "RecursionError".
Definition StoreError : exn := OtherExn "sqlite3.Error".
Definition Diverged : exn := OtherExn "out of fuel".

Definition INPUT_TOTAL : Z := 10000000.
Definition INPUT_IDLE : Z := 3000000.
Definition OUTPUT_TOTAL : Z := 10000000.
Definition OUTPUT_WRITE : Z := 3000000.
Definition MAX_HEADER_BYTES : Z := 64 * 1024.

(** What is written: the status line with the headers, or a body. *)
Inductive output := Head (status length : Z) (correlation_id : string) | Payload (body : string).

(** An answer of [recv]; no bytes are the end of the input. *)
Inductive received := Got (bytes : string) | RecvTimeout | RecvFails.
Inductive sent := SentAll | SendTimeout | SendFails.

Inductive link_event :=
| LRecv (now timeout : Z) (answer : received)
| LSend (now timeout : Z) (out : output) (answer : sent)
| LReply (status : Z)
| LHandled (meth path : string).

(** The two transactions on the database that are made here. *)
Inductive storage_use := Authenticating | Auditing.

Class Peer (N : Type) := {
  p_monotonic : N -> Z * N;
  p_recv : N -> Z -> received * N;
  p_sendall : N -> Z -> output -> sent * N;
  p_storage : storage_use -> N -> bool * N;
  p_utf8 : string -> option string;
  p_recursion : string -> bool;
  p_fields : list string -> list (string * string) }.

(** The handler object: the reader's buffer and header budget, the deadlines,
    the last response. *)
Record link (N : Type) := Link {
  k_os : N; k_buf : string; k_header_remaining : Z; k_deadline : Z; k_http09 : bool; k_started : bool;
  k_status : Z; k_correlation : string; k_out_deadline : Z; k_log : list link_event; k_world : world }.
Arguments Link {N}.
Arguments k_os {N}.
Arguments k_buf {N}.
Arguments k_header_remaining {N}.
Arguments k_deadline {N}.
Arguments k_http09 {N}.
Arguments k_started {N}.
Arguments k_status {N}.
Arguments k_correlation {N}.
Arguments k_out_deadline {N}.
Arguments k_log {N}.
Arguments k_world {N}.

Section Transport.
Context {N : Type} `{Peer N} `{Env} `{Digest} `{Manifests}.

Definition TM (A : Type) : Type := link N -> res A * link N.

#[export] Instance TM_ret : MRet TM := fun _ a k => (Ok a, k).
#[export] Instance TM_bind : MBind TM := fun _ _ f m k =>
  match m k with (Ok a, k') => f a k' | (Raise e, k') => (Raise e, k') end.
#[export] Instance TM_fmap : FMap TM := fun _ _ f m k =>
  match m k with (Ok a, k') => (Ok (f a), k') | (Raise e, k') => (Raise e, k') end.
Definition traise {A} (e : exn) : TM A := fun k => (Raise e, k).
Definition tcatch {A} (m : TM A) (h : exn -> TM A) : TM A := fun k =>
  match m k with (Raise e, k') => h e k' | r => r end.

Definition with_os (n : N) (k : link N) : link N :=
  Link n (k_buf k) (k_header_remaining k) (k_deadline k) (k_http09 k) (k_started k) (k_status k) (k_correlation k) (k_out_deadline k) (k_log k) (k_world k).
Definition with_buf (b : string) (k : link N) : link N :=
  Link (k_os k) b (k_header_remaining k) (k_deadline k) (k_http09 k) (k_started k) (k_status k) (k_correlation k) (k_out_deadline k) (k_log k) (k_world k).
Definition with_remaining (r : Z) (k : link N) : link N :=
  Link (k_os k) (k_buf k) r (k_deadline k) (k_http09 k) (k_started k) (k_status k) (k_correlation k) (k_out_deadline k) (k_log k) (k_world k).
Definition with_http09 (b : bool) (k : link N) : link N :=
  Link (k_os k) (k_buf k) (k_header_remaining k) (k_deadline k) b (k_started k) (k_status k) (k_correlation k) (k_out_deadline k) (k_log k) (k_world k).
Definition with_reply (status : Z) (corr : string) (deadline : Z) (k : link N) : link N :=
  Link (k_os k) (k_buf k) (k_header_remaining k) (k_deadline k) (k_http09 k) true status corr deadline (k_log k ++ [LReply status]) (k_world k).
Definition with_event (e : link_event) (k : link N) : link N :=
  Link (k_os k) (k_buf k) (k_header_remaining k) (k_deadline k) (k_http09 k) (k_started k) (k_status k) (k_correlation k) (k_out_deadline k) (k_log k ++ [e]) (k_world k).
Definition with_world (w : world) (k : link N) : link N :=
  Link (k_os k) (k_buf k) (k_header_remaining k) (k_deadline k) (k_http09 k) (k_started k) (k_status k) (k_correlation k) (k_out_deadline k) (k_log k) w.

Definition tget {A} (f : link N -> A) : TM A := fun k => (Ok (f k), k).
Definition tset (f : link N -> link N) : TM unit := fun k => (Ok tt, f k).

Definition tmonotonic : TM Z := fun k => let '(t, n) := p_monotonic (k_os k) in (Ok t, with_os n k).

(** A step of the broker. *)
Definition broker {A} (m : M A) : TM A := fun k =>
  let '(r, w) := m (k_world k) in (r, with_world w k).

(** The database, when it can be used. *)
Definition stored (use : storage_use) : TM unit := fun k =>
  let '(ok, n) := p_storage use (k_os k) in
  (if ok then Ok tt else Raise StoreError, with_os n k).

(** [try: audit.record(...) except Exception: pass]. *)
Definition audited_quietly (event_type outcome correlation_id : string) (status : Z) : TM unit :=
  tcatch (_ ← stored Auditing; _ ← broker (record "gateway" event_type outcome correlation_id None (JObj [("status"%string, JInt status)])); mret tt)
    (fun _ => mret tt).

(** ** Reading *)

(** DeadlineReader.readinto. *)
Definition readinto : TM string :=
  now ← tmonotonic;
  deadline ← tget k_deadline;
  if deadline - now <=? 0 then traise TimeoutError
  else
    let timeout := Z.min INPUT_IDLE (deadline - now) in
    fun k =>
      let '(a, n) := p_recv (k_os k) timeout in
      let k := with_event (LRecv now timeout a) (with_os n k) in
      match a with Got b => (Ok b, k) | RecvTimeout => (Raise TimeoutError, k) | RecvFails => (Raise SocketError, k) end.

(** The first line of a buffer, its line feed included, and the rest. *)
Fixpoint cut_line (s : string) : option (string * string) :=
  match s with
  | EmptyString => None
  | String c s' => if Ascii.eqb c newline then Some (String c EmptyString, s')
                   else '(a, b) ← cut_line s'; Some (String c a, b)
  end.

(** BufferedReader.readline with a limit: through the first line feed, or the
    limit, or the end of the input. *)
Fixpoint buffered_readline (fuel : nat) (limit : Z) (acc : string) : TM string :=
  match fuel with
  | O => traise Diverged
  | S fuel =>
      buf ← tget k_buf;
      let room := limit - len acc in
      match cut_line (str_take (Z.to_nat room) buf) with
      | Some (line, _) => _ ← tset (with_buf (str_drop (String.length line) buf)); mret (acc +:+ line)
      | None =>
          if room <=? len buf then
            _ ← tset (with_buf (str_drop (Z.to_nat room) buf)); mret (acc +:+ str_take (Z.to_nat room) buf)
          else
            _ ← tset (with_buf EmptyString);
            chunk ← readinto;
            if PyStr.empty chunk then mret (acc +:+ buf)
            else _ ← tset (with_buf chunk); buffered_readline fuel limit (acc +:+ buf)
      end
  end.

(** BufferedReader.read. *)
Fixpoint buffered_read (fuel : nat) (n : Z) (acc : string) : TM string :=
  match fuel with
  | O => traise Diverged
  | S fuel =>
      buf ← tget k_buf;
      let room := n - len acc in
      if room <=? len buf then
        _ ← tset (with_buf (str_drop (Z.to_nat room) buf)); mret (acc +:+ str_take (Z.to_nat room) buf)
      else
        _ ← tset (with_buf EmptyString);
        chunk ← readinto;
        if PyStr.empty chunk then mret (acc +:+ buf)
        else _ ← tset (with_buf chunk); buffered_read fuel n (acc +:+ buf)
  end.

(** _InputReader.readline. *)
Definition input_readline (size : Z) : TM string :=
  remaining ← tget k_header_remaining;
  let cap := remaining + 1 in
  let limit := if 0 <=? size then Z.min size cap else cap in
  line ← buffered_readline (S (Z.to_nat limit)) limit EmptyString;
  _ ← tset (with_remaining (remaining - len line));
  if remaining - len line <? 0 then traise _HeaderTooLarge else mret line.

(** ** http.server: the request line and the headers *)

Definition MAXLINE : Z := 65536.
Definition MAXHEADERS : nat := 100.

Definition is_blank_line (line : string) : bool :=
  PyStr.empty line || String.eqb line (String newline EmptyString) || String.eqb line (String (chr 13) (String newline EmptyString)).

(** http.client._read_headers; [more] lines may still come. *)
Fixpoint read_headers (more : nat) (acc : list string) : TM (list string) :=
  line ← input_readline (MAXLINE + 1);
  if MAXLINE <? len line then traise LineTooLong
  else match more with
       | O => traise TooManyHeaders
       | S more => if is_blank_line line then mret (acc ++ [line]) else read_headers more (acc ++ [line])
       end.

Definition rstrip_crlf (s : string) : string :=
  of_chars (rev (drop_while (fun c => Ascii.eqb c newline || (code c =? 13)) (rev (chars s)))).

(** The version of a request line; [None] is "bad version". *)
Definition http_version (v : string) : option (Z * Z) :=
  if negb (starts_with "HTTP/" v) then None
  else match split_char "." (str_drop 5 v) with
       | [a; b] => match py_int a, py_int b with Ok x, Ok y => Some (x, y) | _, _ => None end
       | _ => None
       end.

Definition lstrip_slash (s : string) : string := of_chars (drop_while (Ascii.eqb "/") (chars s)).
Definition reduce_path (path : string) : string :=
  if starts_with "//" path then "/" +:+ lstrip_slash path else path.

(** What the first line says: nothing, an error with its status, or a command
    and a path; and whether the answer is in the form of HTTP/0.9, which it is
    until a version was accepted. *)
Inductive first_line := Blank | Refused (status : Z) (http09 : bool) | Line (command path : string) (http09 : bool).

Definition parse_first_line (raw : string) : first_line :=
  let words := split_words (rstrip_crlf raw) in
  match words with
  | [] => Blank
  | [_] => Refused 400 true
  | [command; path] => if String.eqb command "GET" then Line command (reduce_path path) true else Refused 400 true
  | command :: path :: _ =>
      let version := List.last words EmptyString in
      let http09 := String.eqb version "HTTP/0.9" in
      match http_version version with
      | None => Refused 400 true
      | Some (major, minor) =>
          if (2 <? major) || (major =? 2) && (0 <=? minor) then Refused 505 true
          else if (length words =? 3)%nat then Line command (reduce_path path) http09
          else Refused 400 http09
      end
  end.

Example first_lines :
  parse_first_line ("GET //a/b HTTP/1.1" +:+ String (chr 13) (String newline EmptyString)) = Line "GET" "/a/b" false
  /\ parse_first_line "GET /" = Line "GET" "/" true /\ parse_first_line "POST /" = Refused 400 true
  /\ parse_first_line "GET / HTTP/2.0" = Refused 505 true /\ parse_first_line "GET / http/1.1" = Refused 400 true
  /\ parse_first_line "GET / x HTTP/1.1" = Refused 400 false /\ parse_first_line (String newline EmptyString) = Blank.
Proof. by vm_compute. Qed.

Definition field_values (fields : list (string * string)) (name : string) : list string :=
  map snd (List.filter (fun f => String.eqb (lower f.1) (lower name)) fields).

(** [dict(self.headers)]: a repeated name has the first value. *)
Definition headers_dict (fields : list (string * string)) : dict string :=
  fold_left (fun d f => dset d f.1 (default EmptyString (head (field_values fields f.1)))) fields [].

(** ** Writing *)

(** [_output_timeout] and the write after it. *)
Definition write_out (out : output) : TM unit :=
  now ← tmonotonic;
  deadline ← tget k_out_deadline;
  if deadline - now <=? 0 then traise TimeoutError
  else
    let timeout := Z.min OUTPUT_WRITE (deadline - now) in
    fun k =>
      let '(a, n) := p_sendall (k_os k) timeout out in
      let k := with_event (LSend now timeout out a) (with_os n k) in
      match a with SentAll => (Ok tt, k) | SendTimeout => (Raise TimeoutError, k) | SendFails => (Raise SocketError, k) end.

(** [_output_timeout] where nothing is written after it: an HTTP/0.9 answer has
    no header. *)
Definition _output_timeout : TM unit :=
  now ← tmonotonic;
  deadline ← tget k_out_deadline;
  if deadline - now <=? 0 then traise TimeoutError else mret tt.

Definition _send_json (status : Z) (payload correlation_id : string) : TM unit :=
  now ← tmonotonic;
  _ ← tset (with_reply status correlation_id (now + OUTPUT_TOTAL));
  http09 ← tget k_http09;
  _ ← (if (http09 : bool) then _output_timeout else write_out (Head status (len payload) correlation_id));
  write_out (Payload payload).

Definition _output_failed : TM unit :=
  status ← tget k_status;
  correlation_id ← tget k_correlation;
  audited_quietly "output_error" "failed" correlation_id status.

(** Subclasses of OSError, and of ValueError. *)
Definition mem_exn (e : exn) (l : list exn) : bool := existsb (fun x => bool_decide (e = x)) l.
Definition is_os_error (e : exn) : bool := mem_exn e [TimeoutError; SocketError; PermissionError].
Definition is_value_error (e : exn) : bool := mem_exn e [ValueError; _HeaderTooLarge].

Definition error_name (code : Z) : string :=
  if code =? 408 then "request_timeout" else if code =? 413 then "body_too_large" else if code =? 500 then "internal_error"
  else "invalid_request".

Definition send_error (code : Z) : TM unit :=
  correlation_id ← broker uuid4;
  _ ← audited_quietly "transport_error" (if 500 <=? code then "failed" else "invalid") correlation_id code;
  tcatch (_send_json code (dumps (err (error_name code))) correlation_id)
    (fun e => if is_os_error e then _output_failed else traise e).

(** ** _Handler *)

(** [json.loads] of the bytes of a body. *)
Definition loads_bytes (raw : string) : TM json :=
  match p_utf8 raw with
  | None => traise UnicodeDecodeError
  | Some t => if p_recursion t then traise RecursionError else fun k => (loads t, k)
  end.

(** The [try] around it. *)
Definition parsed_body (raw : string) : TM read_end :=
  tcatch (Body <$> loads_bytes raw) (fun e =>
    if bool_decide (e = RecursionError) then mret BadRequest
    else if mem_exn e [ValueError; UnicodeDecodeError] then mret (Body JNull) else traise e).

(** [_read_body], read as the bytes come. *)
Definition read_body (x : ctx) (rest_max : Z) (path : string) (fields : list (string * string)) : TM read_end :=
  let lengths := field_values fields "Content-Length" in
  if 1 <? Z.of_nat (length (field_values fields "Idempotency-Key")) then mret BadRequest
  else if (0 <? Z.of_nat (length (field_values fields "Transfer-Encoding"))) || (1 <? Z.of_nat (length lengths)) then mret BadRequest
  else
    let value := match lengths with v :: _ => v | [] => "0"%string end in
    if negb (all_chars is_digit value && (1 <=? len value) && (len value <=? 10)) then mret BadRequest
    else
      let length := digits_to_Z value in
      if length <=? 0 then mret (Body (JObj []))
      else
        let cap := _body_cap path rest_max in
        if cap <? length then mret (TooLarge cap)
        else
          ok ← (if Gateway.MAX_BODY_BYTES <? length
                then _ ← stored Authenticating; found ← broker (query (authenticate (head (field_values fields "Authorization")))); mret (bool_decide (found <> None))
                else mret true);
          if negb ok then mret Unauthorized
          else
            raw ← buffered_read (S (Z.to_nat length)) length EmptyString;
            if negb (len raw =? length) then mret BadRequest else parsed_body raw.

Definition too_large_body (limit : Z) : json :=
  JObj [("error"%string, JStr "body_too_large"); ("limit_bytes"%string, JInt limit)].

Definition handled (x : ctx) (meth path : string) (fields : list (string * string)) (body : json) : TM response :=
  _ ← tset (with_event (LHandled meth path));
  broker (handle meth path (headers_dict fields) body x).

Definition _respond (x : ctx) (rest_max : Z) (meth path : string) (fields : list (string * string)) : TM unit :=
  body ← read_body x rest_max path fields;
  match body with
  | Unauthorized => corr ← broker uuid4; _send_json 401 (dumps (err "unauthorized")) corr
  | BadRequest => send_error 400
  | TooLarge limit =>
      corr ← broker uuid4;
      _ ← audited_quietly "transport_error" "invalid" corr 413;
      _send_json 413 (dumps (too_large_body limit)) corr
  | Body v =>
      answer ← tcatch (Some <$> handled x meth path fields v) (fun _ => mret None);
      match answer with
      | None => send_error 500
      | Some r => _send_json (p_status r) (dumps (p_body r)) (p_correlation_id r)
      end
  end.

Definition methods : list string := ["GET"; "POST"; "PUT"; "DELETE"; "PATCH"]%string.

(** [parse_request]; [None] is False. *)
Definition parse_request (raw : string) : TM (option (string * string * list (string * string))) :=
  match parse_first_line raw with
  | Blank => _ ← tset (with_http09 true); mret None
  | Refused status http09 => _ ← tset (with_http09 http09); _ ← send_error status; mret None
  | Line command path http09 =>
      _ ← tset (with_http09 http09);
      lines ← tcatch (Some <$> read_headers MAXHEADERS [])
                (fun e => if mem_exn e [LineTooLong; TooManyHeaders] then _ ← send_error 431; mret None else traise e);
      mret ((fun ls => (command, path, p_fields ls)) <$> lines)
  end.

Definition one_request (x : ctx) (rest_max : Z) : TM unit :=
  raw ← input_readline 65537;
  if 65536 <? len raw then send_error 414
  else if PyStr.empty raw then mret tt
  else
    parsed ← parse_request raw;
    match parsed with
    | None => mret tt
    | Some (command, path, fields) => if mem_str command methods then _respond x rest_max command path fields else send_error 501
    end.

Definition handle_one_request (x : ctx) (rest_max : Z) : TM unit :=
  _ ← tset (with_http09 false);
  tcatch (one_request x rest_max) (fun e =>
    started ← tget k_started;
    if bool_decide (e = TimeoutError) then if (started : bool) then _output_failed else send_error 408
    else if bool_decide (e = _HeaderTooLarge) then send_error 431
    else if is_os_error e then if (started : bool) then _output_failed else mret tt
    else traise e).

(** [setup], then the one request of a connection. *)
Definition setup (n : N) (w : world) : link N :=
  let '(now, n) := p_monotonic n in
  Link n EmptyString MAX_HEADER_BYTES (now + INPUT_TOTAL) false false 0 EmptyString 0 [] w.

Definition connection (x : ctx) (rest_max : Z) (n : N) (w : world) : res unit * link N :=
  handle_one_request x rest_max (setup n w).

End Transport.
