(* ===== verification/TransportFacts.v ===== *)
(** What a connection of the broker guarantees: it ends without an exception as
    long as the database can be used, runs its request at most once, begins at
    most one answer, begins one unless nothing was asked or the peer is gone,
    waits for no input beyond its deadline, and takes no body but a bounded one
    that the parser can handle. *)

From stdpp Require Import base tactics list strings.
From Stdlib Require Import ZArith Lia Ascii.
From S2P Require Import Prelude PyStr Json Process Policy Action Store StoreFacts StoreSpec Ingress Registry Broker Lifecycle LifecycleFacts Receipt Mcp Gateway RouteFacts Transport.

#[local] Existing Instance TM_ret.
#[local] Existing Instance TM_bind.
#[local] Existing Instance TM_fmap.

Definition is_reply (e : link_event) : bool := match e with LReply _ => true | _ => false end.
Definition is_handled (e : link_event) : bool := match e with LHandled _ _ => true | _ => false end.
Definition replies (l : list link_event) : nat := length (List.filter is_reply l).
Definition runs (l : list link_event) : nat := length (List.filter is_handled l).

Lemma replies_app l1 l2 : replies (l1 ++ l2) = (replies l1 + replies l2)%nat.
Proof. unfold replies. by rewrite List.filter_app, length_app. Qed.
Lemma runs_app l1 l2 : runs (l1 ++ l2) = (runs l1 + runs l2)%nat.
Proof. unfold runs. by rewrite List.filter_app, length_app. Qed.

(** A wait for input: within three seconds and the deadline. *)
Definition input_ok (d : Z) (e : link_event) : Prop :=
  match e with LRecv now timeout _ => 0 < timeout <= INPUT_IDLE /\ now + timeout <= d | _ => True end.
(** A write: within three seconds. *)
Definition output_ok (e : link_event) : Prop := match e with LSend _ timeout _ _ => 0 < timeout <= OUTPUT_WRITE | _ => True end.

Definition timed (d : Z) (l : list link_event) : Prop := Forall (fun e => input_ok d e /\ output_ok e) l.

Section Facts.
Context {N : Type} `{Peer N} `{Env} `{Digest} `{Manifests}.
Implicit Types (k : link N) (E : exn -> Prop).

(** From [k] to [k'], [r] answers were begun and [h] runs made; the deadline of
    the input stays and every wait respects it. *)
Definition stepped (r h : nat) k k' : Prop := exists l,
  k_log k' = k_log k ++ l /\ replies l = r /\ runs l = h /\ timed (k_deadline k) l
  /\ k_deadline k' = k_deadline k /\ k_started k' = k_started k || negb (r =? 0)%nat.

Lemma stepped_refl k k' : k_log k' = k_log k -> k_deadline k' = k_deadline k -> k_started k' = k_started k -> stepped 0 0 k k'.
Proof. intros E1 E2 E3. exists []. rewrite app_nil_r, orb_false_r. split_and!; try done. constructor. Qed.

Lemma stepped_trans r1 h1 r2 h2 k k1 k2 : stepped r1 h1 k k1 -> stepped r2 h2 k1 k2 -> stepped (r1 + r2) (h1 + h2) k k2.
Proof.
  intros (l1 & E1 & R1 & H1' & T1 & D1 & S1) (l2 & E2 & R2 & H2' & T2 & D2 & S2). exists (l1 ++ l2).
  rewrite E2, E1, (assoc_L (++)), replies_app, runs_app, D2, S2, S1. split_and!; [done | by rewrite R1, R2 | by rewrite H1', H2' | | done |].
  - apply Forall_app. rewrite D1 in T2. by split.
  - destruct (k_started k), r1, r2; done.
Qed.

(** Whatever state [m] starts from, its result and what it did satisfy [P]. *)
Definition does {A} (m : TM A) (P : res A -> nat -> nat -> Prop) : Prop :=
  forall k, exists r h, stepped r h k (m k).2 /\ P (m k).1 r h.

Definition exactly (r0 h0 : nat) {A} E (res : res A) (r h : nat) : Prop := r = r0 /\ h = h0 /\ forall e, res = Raise e -> E e.
Notation mute := (exactly 0 0).
Notation says := (exactly 1 0).
Notation runs_it := (exactly 0 1).

Definition any : exn -> Prop := fun _ => True.
Definition none : exn -> Prop := fun _ => False.
Definition peer : exn -> Prop := fun e => e = TimeoutError \/ e = SocketError.

Lemma does_weaken {A} (m : TM A) (P Q : res A -> nat -> nat -> Prop) : does m P -> (forall x r h, P x r h -> Q x r h) -> does m Q.
Proof. intros Hm HPQ k. destruct (Hm k) as (r & h & Hs & HP). exists r, h. auto. Qed.

Lemma link_does_bind {A B} r0 h0 E (m : TM A) (f : A -> TM B) (P : res B -> nat -> nat -> Prop) :
  does m (exactly r0 h0 E) -> (forall a, does (f a) (fun x r h => P x (r0 + r)%nat (h0 + h)%nat)) -> (forall e, E e -> P (Raise e) r0 h0) ->
  does (m ≫= f) P.
Proof.
  intros Hm Hf He k. unfold mbind, TM_bind. destruct (Hm k) as (r & h & Hs & -> & -> & Hr). destruct (m k) as [[a|e] k1].
  - destruct (Hf a k1) as (r & h & Hs' & HP). exists (r0 + r)%nat, (h0 + h)%nat. split; [exact (stepped_trans r0 h0 r h k k1 _ Hs Hs') | done].
  - exists r0, h0. split; [exact Hs | by apply He, Hr].
Qed.

Lemma mute_bind {A B} E (m : TM A) (f : A -> TM B) : does m (mute E) -> (forall a, does (f a) (mute E)) -> does (m ≫= f) (mute E).
Proof. intros Hm Hf. apply (link_does_bind 0 0 E); [done | done |]. intros e He. split; [done |]. split; [done |]. by intros ? [= <-]. Qed.

Lemma mute_fmap {A B} E (f : A -> B) (m : TM A) : does m (mute E) -> does (f <$> m) (mute E).
Proof.
  intros Hm k. unfold fmap, TM_fmap. destruct (Hm k) as (r & h & Hs & -> & -> & Hr). exists 0%nat, 0%nat.
  destruct (m k) as [[a|e] k1]; split; try done; split; try done; split; try done. intros e' [= <-]. by apply Hr.
Qed.

Lemma mute_ret {A} E (a : A) : does (mret a) (mute E).
Proof. intros k. exists 0%nat, 0%nat. split; [by apply stepped_refl |]. by repeat split. Qed.

Lemma mute_raise {A} E e : E e -> does (traise e : TM A) (mute E).
Proof. intros He k. exists 0%nat, 0%nat. split; [by apply stepped_refl |]. split; [done |]. split; [done |]. by intros ? [= <-]. Qed.

Lemma mute_get {A} E (f : link N -> A) : does (tget f) (mute E).
Proof. intros k. exists 0%nat, 0%nat. split; [by apply stepped_refl |]. by repeat split. Qed.

Lemma mute_set E (f : link N -> link N) :
  (forall k, k_log (f k) = k_log k /\ k_deadline (f k) = k_deadline k /\ k_started (f k) = k_started k) -> does (tset f) (mute E).
Proof. intros Hf k. destruct (Hf k) as (E1 & E2 & E3). exists 0%nat, 0%nat. split; [by apply stepped_refl |]. by repeat split. Qed.

Lemma mute_monotonic E : does tmonotonic (mute E).
Proof.
  intros k. unfold tmonotonic. destruct (p_monotonic (k_os k)) as [t n]. exists 0%nat, 0%nat. split; [by apply stepped_refl |]. by repeat split.
Qed.

Lemma mute_broker {A} (m : M A) : does (broker m) (mute any).
Proof.
  intros k. unfold broker. destruct (m (k_world k)) as [x w]. exists 0%nat, 0%nat. split; [by apply stepped_refl |]. by repeat split.
Qed.

Lemma mute_catch {A} E E' (m : TM A) (f : exn -> TM A) :
  does m (mute E) -> (forall e, E e -> does (f e) (mute E')) -> does (tcatch m f) (mute E').
Proof.
  intros Hm Hf k. unfold tcatch. destruct (Hm k) as (r & h & Hs & -> & -> & Hr). destruct (m k) as [[a|e] k1].
  - exists 0%nat, 0%nat. split; [done |]. by repeat split.
  - destruct (Hf e (Hr e eq_refl) k1) as (r & h & Hs' & -> & -> & HP). exists 0%nat, 0%nat.
    split; [exact (stepped_trans 0 0 0 0 k k1 _ Hs Hs') | by repeat split].
Qed.

Lemma mute_impl {A} E E' (m : TM A) : (forall e, E e -> E' e) -> does m (mute E) -> does m (mute E').
Proof. intros Hi Hm. eapply does_weaken; [exact Hm |]. intros x r h (-> & -> & He). split; [done |]. split; [done |]. auto. Qed.

(** The database failed an authentication. *)
Definition unauthenticable : Prop := exists n, (p_storage Authenticating n).1 = false.

(** The peer failed, or the database did. *)
Definition broken : exn -> Prop := fun e => peer e \/ e = StoreError /\ unauthenticable.

Lemma mute_stored use : does (stored use) (mute (fun e => e = StoreError /\ exists n, (p_storage use n).1 = false)).
Proof.
  intros k. unfold stored. destruct (p_storage use (k_os k)) as [ok n] eqn:E. exists 0%nat, 0%nat. split; [by apply stepped_refl |].
  split; [done |]. split; [done |]. destruct ok; intros e [= <-]. split; [done |]. exists (k_os k). by rewrite E.
Qed.

Lemma mute_audited ev out corr st E : does (audited_quietly ev out corr st) (mute E).
Proof.
  apply (mute_catch any); [|intros; apply mute_ret]. apply mute_bind; [by eapply mute_impl, mute_stored |]. intros ?.
  apply mute_bind; [apply mute_broker | intros; apply mute_ret].
Qed.

(** ** Reading *)

Lemma mute_readinto : does readinto (mute peer).
Proof.
  apply mute_bind; [apply mute_monotonic |]. intros now k. unfold mbind, TM_bind, tget. cbn.
  destruct (Z.leb_spec (k_deadline k - now) 0) as [Hle | Hlt].
  - apply (mute_raise (A := string) peer); by left.
  - set (timeout := Z.min INPUT_IDLE (k_deadline k - now)). destruct (p_recv (k_os k) timeout) as [a n]. exists 0%nat, 0%nat. split.
    + exists [LRecv now timeout a]. split; [by destruct a |]. split; [done |]. split; [done |]. split.
      * repeat constructor; unfold input_ok; subst timeout; unfold INPUT_IDLE; lia.
      * split; [by destruct a |]. rewrite orb_false_r. by destruct a.
    + split; [done |]. split; [done |]. destruct a; [done | |]; intros e [= <-]; [by left | by right].
Qed.

Lemma mute_with_buf E b : does (tset (with_buf b)) (mute E).
Proof. by apply mute_set. Qed.

(** The state one of the reading loops goes on with after a chunk. *)
Definition room_left (fuel : nat) (room : Z) (buf : string) : Prop :=
  (1 <= fuel)%nat /\ room + (if PyStr.empty buf then 1 else 0) <= Z.of_nat fuel.

Lemma len_nonempty s : PyStr.empty s = false -> 1 <= len s.
Proof. destruct s; [done |]. unfold len. cbn [String.length]. lia. Qed.

Lemma len_app_str (a b : string) : len (a +:+ b) = len a + len b.
Proof. unfold len. rewrite <- !length_chars, chars_app, length_app. lia. Qed.

Lemma room_step fuel room acc buf chunk limit : room = limit - len acc -> room_left (S fuel) room buf -> (room <=? len buf) = false ->
  PyStr.empty chunk = false -> room_left fuel (limit - len (acc +:+ buf)) chunk.
Proof.
  intros -> [_ Hr] Hb Hc. apply Z.leb_gt in Hb. unfold room_left. rewrite Hc, len_app_str.
  destruct (PyStr.empty buf) eqn:Eb; [destruct buf; [|done]; change (len "") with 0 in *; lia |].
  pose proof (len_nonempty buf Eb). lia.
Qed.

Definition mutes {A} E k (x : res A * link N) : Prop := stepped 0 0 k x.2 /\ forall e, x.1 = Raise e -> E e.

Lemma mutes_does {A} E (m : TM A) : (forall k, mutes E k (m k)) -> does m (mute E).
Proof. intros Hm k. destruct (Hm k) as [Hs He]. exists 0%nat, 0%nat. by repeat split. Qed.

Lemma does_mutes {A} E (m : TM A) k : does m (mute E) -> mutes E k (m k).
Proof. intros Hm. destruct (Hm k) as (r & h & Hs & -> & -> & He). by split. Qed.

(** Both loops: fetch a chunk, end at the end of the input, or go on. *)
Lemma fetch_mutes (f : string -> TM string) (t : string) k :
  (forall chunk k', PyStr.empty chunk = false -> k_buf k' = chunk -> mutes peer k' (f chunk k')) ->
  mutes peer k ((_ ← tset (with_buf EmptyString); chunk ← readinto;
                 if PyStr.empty chunk then mret t else _ ← tset (with_buf chunk); f chunk) k).
Proof.
  intros Hf. unfold mbind, TM_bind, tset. pose proof (does_mutes peer readinto (with_buf EmptyString k) mute_readinto) as [Hs He].
  destruct (readinto (with_buf EmptyString k)) as [[chunk|e] k1]; cbn [fst snd] in *.
  - destruct (PyStr.empty chunk) eqn:Ec; [by split |].
    destruct (Hf chunk (with_buf chunk k1) Ec eq_refl) as [Hs' He']. split; [|done]. exact (stepped_trans 0 0 0 0 k k1 _ Hs Hs').
  - by split.
Qed.

Lemma readline_mutes fuel limit : forall acc k, room_left fuel (limit - len acc) (k_buf k) -> mutes peer k (buffered_readline fuel limit acc k).
Proof.
  induction fuel as [|fuel IH]; intros acc k Hr; [by destruct Hr as [Hr _]; lia |]. cbn [buffered_readline].
  unfold mbind at 1, TM_bind at 1, tget. destruct (cut_line _) as [[line rest]|].
  - apply does_mutes, mute_bind; [apply mute_with_buf | intros; apply mute_ret].
  - destruct (_ <=? _) eqn:Eb.
    + apply does_mutes, mute_bind; [apply mute_with_buf | intros; apply mute_ret].
    + apply fetch_mutes. intros chunk k' Hc <-. apply IH. by eapply room_step.
Qed.

Lemma read_mutes fuel n : forall acc k, room_left fuel (n - len acc) (k_buf k) -> mutes peer k (buffered_read fuel n acc k).
Proof.
  induction fuel as [|fuel IH]; intros acc k Hr; [by destruct Hr as [Hr _]; lia |]. cbn [buffered_read].
  unfold mbind at 1, TM_bind at 1, tget. destruct (_ <=? _) eqn:Eb.
  - apply does_mutes, mute_bind; [apply mute_with_buf | intros; apply mute_ret].
  - apply fetch_mutes. intros chunk k' Hc <-. apply IH. by eapply room_step.
Qed.

Lemma room_start limit buf : room_left (S (Z.to_nat limit)) (limit - len EmptyString) buf.
Proof. split; [lia |]. change (len "") with 0. destruct (PyStr.empty buf); lia. Qed.

Definition reading : exn -> Prop := fun e => peer e \/ e = _HeaderTooLarge.

Lemma mute_readline size : does (input_readline size) (mute reading).
Proof.
  unfold input_readline. apply mute_bind; [apply mute_get |]. intros remaining. cbv zeta. apply mute_bind.
  - apply (mute_impl peer); [by left |]. apply mutes_does. intros k. apply readline_mutes, room_start.
  - intros line. apply mute_bind; [by apply mute_set |]. intros ?. destruct (_ <? 0); [apply mute_raise; by right | apply mute_ret].
Qed.

Lemma mute_read n : does (buffered_read (S (Z.to_nat n)) n EmptyString) (mute peer).
Proof. apply mutes_does. intros k. apply read_mutes, room_start. Qed.

Definition header_errors : exn -> Prop := fun e => reading e \/ e = LineTooLong \/ e = TooManyHeaders.

Lemma mute_headers n acc : does (read_headers n acc) (mute header_errors).
Proof.
  revert acc. induction n as [|n IH]; intros acc; cbn [read_headers].
  all: apply mute_bind; [apply (mute_impl reading); [by left | apply mute_readline] |]; intros line.
  all: destruct (_ <? _); [apply mute_raise; right; by left |].
  - apply mute_raise; right; by right.
  - destruct (is_blank_line line); [apply mute_ret | apply IH].
Qed.

(** ** Writing *)

Lemma mute_write out : does (write_out out) (mute peer).
Proof.
  apply mute_bind; [apply mute_monotonic |]. intros now k. unfold mbind, TM_bind, tget. cbn.
  destruct (Z.leb_spec (k_out_deadline k - now) 0) as [Hle | Hlt].
  - apply (mute_raise (A := unit) peer); by left.
  - set (timeout := Z.min OUTPUT_WRITE (k_out_deadline k - now)). destruct (p_sendall (k_os k) timeout out) as [a n]. exists 0%nat, 0%nat. split.
    + exists [LSend now timeout out a]. split; [by destruct a |]. split; [done |]. split; [done |]. split.
      * repeat constructor; unfold output_ok; subst timeout; unfold OUTPUT_WRITE; lia.
      * split; [by destruct a |]. rewrite orb_false_r. by destruct a.
    + split; [done |]. split; [done |]. destruct a; [done | |]; intros e [= <-]; [by left | by right].
Qed.

Lemma mute_output_timeout : does _output_timeout (mute peer).
Proof.
  apply mute_bind; [apply mute_monotonic |]. intros now. apply mute_bind; [apply mute_get |]. intros d.
  destruct (_ <=? _); [apply mute_raise; by left | apply mute_ret].
Qed.

Lemma says_reply status corr d : does (tset (with_reply status corr d)) (says none).
Proof.
  intros k. exists 1%nat, 0%nat. split; [|by repeat split]. exists [LReply status]. split_and!; try done.
  - repeat constructor.
  - cbn. by rewrite orb_true_r.
Qed.

Lemma says_send_json status payload corr : does (_send_json status payload corr) (says peer).
Proof.
  apply (link_does_bind 0 0 none); [apply mute_monotonic | | done]. intros now.
  apply (link_does_bind 1 0 none); [apply says_reply | | done]. intros ?.
  apply (does_weaken _ (mute peer)); [|intros x r h (-> & -> & He); split; [reflexivity |]; split; [reflexivity | exact He]].
  apply mute_bind; [apply mute_get |]. intros http09. apply mute_bind; [|intros; apply mute_write].
  destruct http09; [apply mute_output_timeout | apply mute_write].
Qed.

Lemma says_catch {A} E E' (m : TM A) (f : exn -> TM A) :
  does m (says E) -> (forall e, E e -> does (f e) (mute E')) -> does (tcatch m f) (says E').
Proof.
  intros Hm Hf k. unfold tcatch. destruct (Hm k) as (r & h & Hs & -> & -> & Hr). destruct (m k) as [[a|e] k1].
  - exists 1%nat, 0%nat. split; [done |]. by repeat split.
  - destruct (Hf e (Hr e eq_refl) k1) as (r & h & Hs' & -> & -> & HP). exists 1%nat, 0%nat.
    split; [exact (stepped_trans 1 0 0 0 k k1 _ Hs Hs') | by repeat split].
Qed.

Lemma mute_output_failed E : does _output_failed (mute E).
Proof.
  apply mute_bind; [apply mute_get |]. intros st. apply mute_bind; [apply mute_get |]. intros corr. apply mute_audited.
Qed.

Lemma mute_uuid : does (broker uuid4) (mute none).
Proof. intros k. exists 0%nat, 0%nat. split; [by apply stepped_refl |]. by repeat split. Qed.

Lemma peer_os e : peer e -> is_os_error e = true.
Proof. by intros [-> | ->]. Qed.

Lemma says_send_error code : does (send_error code) (says none).
Proof.
  apply (link_does_bind 0 0 none); [apply mute_uuid | | done]. intros corr.
  apply (link_does_bind 0 0 none); [apply mute_audited | | done]. intros ?.
  apply (says_catch peer); [apply says_send_json |]. intros e He. rewrite peer_os by done. apply mute_output_failed.
Qed.

(** ** The handler *)

Lemma mute_query {A} (f : store -> A) : does (broker (query f)) (mute none).
Proof. intros k. exists 0%nat, 0%nat. split; [by apply stepped_refl |]. by repeat split. Qed.

(** Whatever the parser does with a body, it raises nothing further. *)
Definition parse_errors : exn -> Prop := fun e => e = RecursionError \/ e = ValueError \/ e = UnicodeDecodeError.

Lemma loads_value_error t e : loads t = Raise e -> e = ValueError.
Proof. unfold loads. destruct (pvalue _ _) as [[v r]|]; [destruct (PyStr.empty _) |]; by intros [= <-]. Qed.

Lemma mute_parsed_body raw E : does (parsed_body raw) (mute E).
Proof.
  apply (mute_catch parse_errors).
  - apply mute_fmap. unfold loads_bytes. destruct (p_utf8 raw) as [t|]; [|apply mute_raise; right; by right].
    destruct (p_recursion t); [apply mute_raise; by left |]. intros k. exists 0%nat, 0%nat. split; [by apply stepped_refl |].
    split; [done |]. split; [done |]. intros e He. right. left. by eapply loads_value_error.
  - intros e [-> | [-> | ->]]; apply mute_ret.
Qed.

Lemma mute_read_body x rest_max path fields : does (read_body x rest_max path fields) (mute broken).
Proof.
  unfold read_body. destruct (1 <? _); [apply mute_ret |]. destruct (_ || _); [apply mute_ret |]. cbv zeta.
  destruct (negb _); [apply mute_ret |]. destruct (_ <=? 0); [apply mute_ret |]. destruct (_ <? _); [apply mute_ret |].
  apply mute_bind.
  - destruct (_ <? _); [|apply mute_ret]. apply mute_bind; [eapply mute_impl, mute_stored; by right |]. intros ?.
    apply mute_bind; [apply (mute_impl none); [done | apply mute_query] | intros; apply mute_ret].
  - intros ok. destruct (negb ok); [apply mute_ret |]. apply mute_bind; [apply (mute_impl peer); [by left | apply mute_read] |].
    intros raw. destruct (negb _); [apply mute_ret | apply mute_parsed_body].
Qed.

Lemma runs_handled x meth path fields body : does (handled x meth path fields body) (runs_it any).
Proof.
  intros k. unfold handled, mbind, TM_bind, tset, broker. destruct (handle _ _ _ _ _ _) as [r w]. exists 0%nat, 1%nat.
  split; [|by repeat split]. exists [LHandled meth path]. split_and!; try done; [repeat constructor | by rewrite orb_false_r].
Qed.

Lemma runs_caught x meth path fields body :
  does (tcatch (Some <$> handled x meth path fields body) (fun _ => mret None)) (runs_it none).
Proof.
  intros k. unfold tcatch, fmap, TM_fmap. destruct (runs_handled x meth path fields body k) as (r & h & Hs & -> & -> & _).
  destruct (handled x meth path fields body k) as [[a|e] k1]; exists 0%nat, 1%nat; (split; [exact Hs | by repeat split]).
Qed.

(** One answer begun and at most one run; or the peer or the database failed
    before. *)
Definition answered {A} (res : res A) (r h : nat) : Prop :=
  r = 1%nat /\ (h <= 1)%nat /\ (forall e, res = Raise e -> peer e) \/ r = 0%nat /\ h = 0%nat /\ exists e, res = Raise e /\ broken e.

Lemma answered_says {A} (m : TM A) E : (forall e, E e -> peer e) -> does m (says E) -> does m answered.
Proof. intros HE Hm. eapply does_weaken; [exact Hm |]. intros x r h (-> & -> & He). left. split; [done |]. split; [lia |]. auto. Qed.

Lemma answered_respond x rest_max meth path fields : does (_respond x rest_max meth path fields) answered.
Proof.
  apply (link_does_bind 0 0 broken); [apply mute_read_body | | intros e He; right; eauto].
  intros body. change (does ?m (fun x r h => answered x (0 + r) (0 + h))) with (does m answered). destruct body as [v|limit| |].
  - apply (link_does_bind 0 1 none); [apply runs_caught | | done]. intros answer.
    apply (does_weaken _ (says peer)).
    + destruct answer; [apply says_send_json |]. eapply does_weaken; [apply says_send_error |].
      intros x' r h (-> & -> & He). split; [done |]. split; [done |]. by intros e' E'%He.
    + intros x' r h (-> & -> & He). left. split; [done |]. split; [lia | done].
  - apply (answered_says _ peer); [done |]. apply (link_does_bind 0 0 none); [apply mute_uuid | | done]. intros corr.
    apply (link_does_bind 0 0 none); [apply mute_audited | | done]. intros ?. apply says_send_json.
  - apply (answered_says _ none); [done | apply says_send_error].
  - apply (answered_says _ peer); [done |]. apply (link_does_bind 0 0 none); [apply mute_uuid | | done]. intros corr. apply says_send_json.
Qed.

Definition parsed (raw : string) (res : res (option (string * string * list (string * string)))) (r h : nat) : Prop :=
  h = 0%nat /\ (r = 1%nat /\ res = Ok None \/ r = 0%nat /\ (exists p, res = Ok (Some p))
               \/ r = 0%nat /\ res = Ok None /\ parse_first_line raw = Blank \/ r = 0%nat /\ exists e, res = Raise e /\ reading e).

Lemma mute_set_http09 E b : does (tset (with_http09 b)) (mute E).
Proof. by apply mute_set. Qed.

Lemma refused_said code : does (_ ← send_error code; mret None : TM (option (list string))) (fun x r h => r = 1%nat /\ h = 0%nat /\ x = Ok None).
Proof.
  apply (link_does_bind 1 0 none); [apply says_send_error | | done]. intros ? k. exists 0%nat, 0%nat. split; [by apply stepped_refl | done].
Qed.

(** The lines of the headers, or the answer to too many of them. *)
Lemma headers_caught : does (tcatch (Some <$> read_headers MAXHEADERS [])
    (fun e => if mem_exn e [LineTooLong; TooManyHeaders] then _ ← send_error 431; mret None else traise e))
  (fun x r h => h = 0%nat /\ (r = 1%nat /\ x = Ok None \/ r = 0%nat /\ (exists ls, x = Ok (Some ls)) \/ r = 0%nat /\ exists e, x = Raise e /\ reading e)).
Proof.
  intros k. unfold tcatch. destruct (mute_fmap header_errors Some _ (mute_headers MAXHEADERS []) k) as (r & h & Hs & -> & -> & He).
  destruct ((Some <$> read_headers MAXHEADERS []) k) as [[ls|e] k1] eqn:E.
  - exists 0%nat, 0%nat. split; [done |]. split; [done |]. right. left. split; [done |].
    unfold fmap, TM_fmap in E. destruct (read_headers MAXHEADERS [] k) as [[l|e] k2]; [|done]. injection E as <- _. by exists l.
  - destruct (mem_exn e [LineTooLong; TooManyHeaders]) eqn:Em.
    + destruct (refused_said 431 k1) as (r & h & Hs' & -> & -> & Hx). exists 1%nat, 0%nat.
      split; [exact (stepped_trans 0 0 1 0 k k1 _ Hs Hs') |]. split; [done |]. left. done.
    + exists 0%nat, 0%nat. split; [done |]. split; [done |]. right. right. split; [done |]. exists e. split; [done |].
      destruct (He e eq_refl) as [Hr | [-> | ->]]; [done | |]; discriminate Em.
Qed.

Lemma parsed_request raw : does (parse_request raw) (parsed raw).
Proof.
  unfold parse_request. destruct (parse_first_line raw) as [|status http09|command path http09] eqn:Ef.
  - apply (link_does_bind 0 0 none); [apply mute_set_http09 | | done]. intros ? k. exists 0%nat, 0%nat. split; [by apply stepped_refl |].
    split; [done |]. right. right. left. done.
  - apply (link_does_bind 0 0 none); [apply mute_set_http09 | | done]. intros ?.
    apply (link_does_bind 1 0 none); [apply says_send_error | | done]. intros ? k. exists 0%nat, 0%nat. split; [by apply stepped_refl |].
    split; [done |]. by left.
  - apply (link_does_bind 0 0 none); [apply mute_set_http09 | | done]. intros ? k. cbn [Nat.add].
    unfold mbind, TM_bind. destruct (headers_caught k) as (r & h & Hs & -> & Hx). exists r, 0%nat.
    destruct (tcatch _ _ k) as [[ls|e] k1]; cbn [fst snd] in *; (split; [exact Hs |]); split; try done.
    + destruct Hx as [[-> [= ->]] | [[-> [ls' [= ->]]] | [-> (e & [=] & _)]]]; [by left | right; left; split; [done |]; by eexists].
    + destruct Hx as [[_ [=]] | [[_ [ls' [=]]] | [-> (e' & [= <-] & Hr)]]]. right. right. right. split; [done |]. by exists e.
Qed.

(** How the request of a connection in state [k] ends: answered, failed while
    it was read, or nothing was asked. *)
Definition halted : exn -> Prop := fun e => broken e \/ e = _HeaderTooLarge.

Lemma reading_halted e : reading e -> halted e.
Proof. intros [Hp | ->]; [left; by left | by right]. Qed.

Definition asked_nothing k : Prop := exists raw k1, input_readline 65537 k = (Ok raw, k1) /\ parse_first_line raw = Blank.

Definition ended k (res : res unit) (r h : nat) : Prop :=
  r = 1%nat /\ (h <= 1)%nat /\ (forall e, res = Raise e -> peer e)
  \/ r = 0%nat /\ h = 0%nat /\ ((exists e, res = Raise e /\ halted e) \/ res = Ok tt /\ asked_nothing k).

Lemma one_request_ends x rest_max k :
  exists r h, stepped r h k (one_request x rest_max k).2 /\ ended k (one_request x rest_max k).1 r h.
Proof.
  unfold one_request. unfold mbind at 1 3, TM_bind at 1 3. destruct (mute_readline 65537 k) as (r & h & Hs & -> & -> & He).
  destruct (input_readline 65537 k) as [[raw|e] k1] eqn:E; cbn [fst snd] in *.
  2: { exists 0%nat, 0%nat. split; [done |]. right. split; [done |]. split; [done |]. left. exists e. split; [done | by apply reading_halted, He]. }
  assert (parse_first_line raw = Blank -> asked_nothing k) as Hblank by (intros; by exists raw, k1).
  assert (forall m : TM unit, does m (says none) -> exists r h, stepped r h k (m k1).2 /\ ended k (m k1).1 r h) as Hsay.
  { intros m Hm. destruct (Hm k1) as (r & h & Hs' & -> & -> & Hn). exists 1%nat, 0%nat. split; [exact (stepped_trans 0 0 1 0 k k1 _ Hs Hs') |].
    left. split; [done |]. split; [lia |]. by intros e H'%Hn. }
  destruct (65536 <? len raw); [apply Hsay, says_send_error |].
  destruct (PyStr.empty raw) eqn:Ee.
  { exists 0%nat, 0%nat. split; [exact Hs |]. right. split; [done |]. split; [done |]. right. split; [done |]. apply Hblank. by destruct raw. }
  unfold mbind, TM_bind. destruct (parsed_request raw k1) as (r & h & Hs' & -> & Hp). pose proof (stepped_trans 0 0 r 0 k k1 _ Hs Hs') as Hs2.
  destruct (parse_request raw k1) as [[o|e] k2]; cbn [fst snd] in *.
  2: { destruct Hp as [[_ [=]] | [[_ [? [=]]] | [[_ [[=] _]] | [-> (e' & [= <-] & Hr)]]]]. exists 0%nat, 0%nat. split; [done |]. right. split; [done |]. split; [done |]. left. exists e. split; [done | by apply reading_halted]. }
  destruct Hp as [[-> [= ->]] | [[-> [[[command path] fields] [= ->]]] | [[-> [[= ->] Hb]] | [_ (? & [=] & _)]]]].
  - exists 1%nat, 0%nat. split; [done |]. left. split; [done |]. split; [lia |]. done.
  - destruct (mem_str command methods).
    + destruct (answered_respond x rest_max command path fields k2) as (r & h & Hs3 & Ha). exists r, h.
      split; [exact (stepped_trans 0 0 r h k k2 _ Hs2 Hs3) |].
      destruct Ha as [Ha | (-> & -> & e & Er & He')]; [by left | right]. split; [done |]. split; [done |]. left. exists e. split; [done | by left].
    + destruct (says_send_error 501 k2) as (r & h & Hs3 & -> & -> & Hn). exists 1%nat, 0%nat. split; [exact (stepped_trans 0 0 1 0 k k2 _ Hs2 Hs3) |].
      left. split; [done |]. split; [lia |]. by intros e H'%Hn.
  - exists 0%nat, 0%nat. split; [done |]. right. split; [done |]. split; [done |]. right. split; [done | by apply Hblank].
Qed.

Lemma bind_get {A B} (f : link N -> A) (g : A -> TM B) k : (a ← tget f; g a) k = g (f k) k.
Proof. done. Qed.

(** How a connection in state [k] ends, given how its request did. *)
Definition settled k (one : res unit * link N) (res : res unit) (r h : nat) : Prop :=
  (res = Ok tt \/ res = Raise StoreError /\ r = 0%nat /\ unauthenticable)
  /\ (r <= 1)%nat /\ (h <= r)%nat
  /\ (r = 0%nat -> res = Raise StoreError \/ asked_nothing k \/ exists k1, one = (Raise SocketError, k1)).

(** The last thing a handler of exceptions does answers, or notes that an answer
    failed. *)
Lemma last_settles k k0 k1 one r0 h0 r h (m : TM unit) :
  stepped r0 h0 k k1 -> does m (exactly r h none) -> (r0 + r = 1)%nat -> (h0 + h <= 1)%nat ->
  exists r' h', stepped r' h' k (m k1).2 /\ settled k0 one (m k1).1 r' h'.
Proof.
  intros Hs Hm Hr Hh. destruct (Hm k1) as (r' & h' & Hs2 & -> & -> & Hn). exists (r0 + r)%nat, (h0 + h)%nat.
  split; [exact (stepped_trans r0 h0 r h k k1 _ Hs Hs2) |].
  split; [left; destruct (m k1) as [[[]|e'] k2]; [done | by destruct (Hn e' eq_refl)] |].
  split; [lia |]. split; [lia |]. lia.
Qed.

(** What [handle_one_request] makes of it, from a fresh connection. *)
Lemma handled_ends x rest_max k : k_started k = false ->
  exists r h, stepped r h k (handle_one_request x rest_max k).2
    /\ settled (with_http09 false k) (one_request x rest_max (with_http09 false k)) (handle_one_request x rest_max k).1 r h.
Proof.
  intros Hk. unfold handle_one_request. unfold mbind at 1 3, TM_bind at 1 3, tset. set (k0 := with_http09 false k).
  assert (stepped 0 0 k k0) as Hs0 by (by apply stepped_refl).
  unfold tcatch. destruct (one_request_ends x rest_max k0) as (r & h & Hs & He).
  pose proof (stepped_trans 0 0 r h k k0 _ Hs0 Hs) as Hs1. cbn [Nat.add] in Hs1. fold k0.
  assert (k_started (one_request x rest_max k0).2 = negb (r =? 0)%nat) as Hst.
  { destruct Hs1 as (l & _ & _ & _ & _ & _ & ->). by rewrite Hk. }
  destruct (one_request x rest_max k0) as [[[]|e] k1]; cbn [fst snd] in *.
  { exists r, h. split; [done |]. split; [by left |].
    destruct He as [(-> & Hh & _) | (-> & -> & [(? & [=] & _) | [_ Hn]])]; [split; [lia |]; split; [lia |]; done |].
    split; [lia |]. split; [lia |]. intros _. right. by left. }
  rewrite !bind_get, Hst. destruct He as [(-> & Hh & He) | (-> & -> & [(e' & [= <-] & He) | [[=] _]])].
  - destruct (He e eq_refl) as [-> | ->]; cbn [Nat.eqb negb]; (eapply (last_settles _ _ _ _ 1 h 0 0); [exact Hs1 | apply mute_output_failed | lia | lia]).
  - cbn [Nat.eqb negb]. destruct He as [[[-> | ->] | [-> Hn]] | ->].
    + eapply (last_settles _ _ _ _ 0 0 1 0); [exact Hs1 | apply says_send_error | lia | lia].
    + exists 0%nat, 0%nat. split; [exact Hs1 |]. split; [by left |]. split; [lia |]. split; [lia |]. intros _. right. right. by exists k1.
    + exists 0%nat, 0%nat. split; [exact Hs1 |]. split; [by right |]. split; [lia |]. split; [lia |]. intros _. by left.
    + eapply (last_settles _ _ _ _ 0 0 1 0); [exact Hs1 | apply says_send_error | lia | lia].
Qed.

Lemma setup_fresh n w : k_started (setup n w) = false /\ k_log (setup n w) = [] /\ with_http09 false (setup n w) = setup n w
  /\ k_deadline (setup n w) = (p_monotonic n).1 + INPUT_TOTAL /\ k_header_remaining (setup n w) = MAX_HEADER_BYTES.
Proof. unfold setup. by destruct (p_monotonic n). Qed.


(** C40. Every wait for input of a connection is at most three seconds and
    ends within ten seconds of its start, so a peer that sends slowly or not at
    all holds the server no longer than that; every write waits at most three. *)
Theorem waits_bounded x rest_max n w : timed ((p_monotonic n).1 + INPUT_TOTAL) (k_log (connection x rest_max n w).2).
Proof.
  destruct (setup_fresh n w) as (Hs & Hl & Hh & Hd & _). unfold connection.
  destruct (handled_ends x rest_max (setup n w) Hs) as (r & h & (l & E & _ & _ & Ht & _) & _). rewrite Hl in E. cbn [app] in E.
  by rewrite E, <- Hd.
Qed.

Lemma tbind_ok {A B} (m : TM A) (f : A -> TM B) k b k' :
  (m ≫= f) k = (Ok b, k') -> exists a k1, m k = (Ok a, k1) /\ f a k1 = (Ok b, k').
Proof. unfold mbind, TM_bind. destruct (m k) as [[a|e] k1]; [eauto | done]. Qed.

Lemma parsed_body_ok raw k v k' : parsed_body raw k = (Ok (Body v), k') ->
  v = match p_utf8 raw with Some t => match loads t with Ok v => v | Raise _ => JNull end | None => JNull end
  /\ forall t, p_utf8 raw = Some t -> p_recursion t = false.
Proof.
  unfold parsed_body, tcatch, loads_bytes. cbv [fmap TM_fmap traise]. destruct (p_utf8 raw) as [t|]; [|by intros [= <- <-]].
  destruct (p_recursion t) eqn:Er; [done |]. intros Hb. split; [|by intros ? [= <-]].
  destruct (loads t) as [v'|e] eqn:El; [by injection Hb as -> _ |]. apply loads_value_error in El as ->. by injection Hb as <- _.
Qed.

(** A body that is handed on was announced by at most one decimal
    Content-Length, without transfer encoding or repeated idempotency keys, is
    exactly as long as announced, no longer than the route's limit (never above
    20 MiB of base64 and 64 KiB of framing), and above 64 KiB only for a caller
    that was authenticated before; the parser did not run out of stack on it,
    and its value is the parsed text, or null when the text is not JSON. *)
Theorem read_body_bounded x rest_max path fields k v k' :
  read_body x rest_max path fields k = (Ok (Body v), k') ->
  (length (field_values fields "Idempotency-Key") <= 1)%nat /\ field_values fields "Transfer-Encoding" = []
  /\ (length (field_values fields "Content-Length") <= 1)%nat
  /\ (v = JObj []
      \/ exists value raw, field_values fields "Content-Length" = [value] /\ digits_to_Z value = len raw
           /\ 0 < len raw <= _body_cap path rest_max /\ len raw <= 20 * 1024 * 1024 * 4 / 3 + 64 * 1024
           /\ (64 * 1024 < len raw -> authenticate (head (field_values fields "Authorization")) (read_at (k_world k)) <> None)
           /\ v = match p_utf8 raw with
                  | Some t => match loads t with Ok v => v | Raise _ => JNull end
                  | None => JNull end
           /\ forall t, p_utf8 raw = Some t -> p_recursion t = false).
Proof.
  unfold read_body. destruct (1 <? _) eqn:Ek; [done |]. destruct (_ || _) eqn:Ee; [done |].
  apply Z.ltb_ge in Ek. apply orb_false_iff in Ee as [Ee El]. apply Z.ltb_ge in Ee, El.
  destruct (negb _); [done |]. intros Hb. split; [lia |]. split; [destruct (field_values fields "Transfer-Encoding"); [done | simpl in Ee; lia] |].
  split; [lia |]. revert Hb. set (lengths := field_values fields "Content-Length") in *.
  set (value := match lengths with v :: _ => v | [] => _ end). cbv zeta.
  destruct (_ <=? 0) eqn:E0; [intros [= <- _]; by left |]. apply Z.leb_gt in E0.
  destruct (_ <? _) eqn:Ec; [done |]. apply Z.ltb_ge in Ec.
  intros (ok & k1 & Ha & Hb)%tbind_ok. destruct ok; [|done]. cbn [negb] in Hb.
  apply tbind_ok in Hb as (raw & k2 & _ & Hb). destruct (len raw =? _) eqn:En; [|done]. apply Z.eqb_eq in En. cbn [negb] in Hb.
  right. exists value, raw. rewrite <- En in *. pose proof (body_cap_max path rest_max).
  split. { destruct lengths as [|l [|? ?]]; [by subst value; rewrite En in E0 | done | simpl in El; lia]. }
  apply parsed_body_ok in Hb. split; [done |]. split; [lia |]. split; [lia |]. split; [|done].
  intros Hn. apply Z.ltb_lt in Hn. change (64 * 1024) with Gateway.MAX_BODY_BYTES in Hn.
  rewrite Hn in Ha. apply tbind_ok in Ha as ([] & k3 & Hst & (found & k4 & Hq & [= Hok _])%tbind_ok).
  revert Hst Hq. unfold stored. destruct (p_storage _ _) as [[] n]; [|done]. intros [= <-] [= <- _]. by apply bool_decide_eq_true in Hok.
Qed.

(** The first line is never longer than the limit the handler tests it for:
    the branch that answers 414 is not reached. *)
Lemma first_line_short n w raw k : input_readline 65537 (setup n w) = (Ok raw, k) -> len raw <= 65536.
Proof.
  unfold input_readline. rewrite bind_get. destruct (setup_fresh n w) as (_ & _ & _ & _ & ->). unfold mbind, TM_bind.
  destruct (buffered_readline _ _ _ _) as [[line|e] k1]; [|done]. cbn [tset]. destruct (Z.ltb_spec (MAX_HEADER_BYTES - len line) 0); [done |].
  intros [= <- _]. unfold MAX_HEADER_BYTES in *. lia.
Qed.
End Facts.

(** ** Examples *)

#[local] Existing Instance echo_digest.
#[local] Existing Instance w_manifests.
#[local] Existing Instance w_env.

(** A peer that sends its pieces and then nothing; [snd] tells whether it still
    reads; [storage] which uses of the database work, [deep] which texts exhaust
    the parser's stack.  The fields of the standard parser are cut at the first
    colon and space. *)
Definition cut_field (line : string) : list (string * string) :=
  match split_char ":" (rstrip_crlf line) with [name; value] => [(name, str_drop 1 value)] | _ => [] end.
Definition w_peer (storage : storage_use -> bool) (deep : string -> bool) : Peer (list received * bool) := {|
  p_monotonic := fun n => (0, n);
  p_recv := fun (n : list received * bool) _ => match n.1 with a :: l => (a, (l, n.2)) | [] => (RecvTimeout, n) end;
  p_sendall := fun (n : list received * bool) _ _ => (if n.2 then SentAll else SendFails, n);
  p_storage := fun use n => (storage use, n);
  p_utf8 := Some;
  p_recursion := deep;
  p_fields := fun lines => concat (map cut_field lines) |}.

Definition w_fresh : world := LifecycleFacts.start (empty_store "u").
Definition w_crlf : string := String (chr 13) (String newline EmptyString).
Definition w_get (path : string) : string := "GET " +:+ path +:+ " HTTP/1.1" +:+ w_crlf +:+ w_crlf.
Definition w_post (path length body : string) : string :=
  "POST " +:+ path +:+ " HTTP/1.1" +:+ w_crlf +:+ "Content-Length: " +:+ length +:+ w_crlf +:+ w_crlf +:+ body.
Definition w_ending storage deep (pieces : list received) (reads : bool) : res unit * list link_event :=
  let '(r, k) := @connection _ (w_peer storage deep) w_env echo_digest w_manifests w_ctx 1000000 (pieces, reads) w_fresh in
  (r, List.filter (fun e => is_reply e || is_handled e) (k_log k)).
Definition w_run : list received -> bool -> res unit * list link_event := w_ending (fun _ => true) (fun _ => false).

Example connections :
  w_run [Got (str_take 9 (w_get "/v1/health")); Got (str_drop 9 (w_get "/v1/health"))] true = (Ok tt, [LHandled "GET" "/v1/health"; LReply 200])
  /\ w_run [Got "GET /v1/hea"%string] true = (Ok tt, [LReply 408])
  /\ w_run [Got (w_get "/v1/tools")] true = (Ok tt, [LHandled "GET" "/v1/tools"; LReply 401])
  /\ w_run [Got ("HEAD / HTTP/1.1" +:+ w_crlf +:+ w_crlf)] true = (Ok tt, [LReply 501])
  /\ w_run [Got w_crlf] true = (Ok tt, []) /\ w_run [Got EmptyString] true = (Ok tt, []) /\ w_run [RecvFails] true = (Ok tt, [])
  /\ w_run [Got (w_get "/v1/tools")] false = (Ok tt, [LHandled "GET" "/v1/tools"; LReply 401]).
Proof. by vm_compute. Qed.

(** A body nested too deeply for the parser is answered 400 and nothing runs;
    one that is not JSON at all is left to the handler. *)
Example deep_bodies :
  let deep := fun t => String.eqb t "[[" in
  w_ending (fun _ => true) deep [Got (w_post "/v1/actions/x" "2" "[[")] true = (Ok tt, [LReply 400])
  /\ w_ending (fun _ => true) deep [Got (w_post "/v1/actions/x" "2" "[")] true = (Ok tt, [LReply 408])
  /\ w_ending (fun _ => true) deep [Got (w_post "/v1/actions/x" "1" "[")] true = (Ok tt, [LHandled "POST" "/v1/actions/x"; LReply 401]).
Proof. by vm_compute. Qed.

(** An audit log that cannot be written changes no answer; a database that fails
    the authentication before a large body ends the connection without one. *)
Example failing_database :
  let deep := fun _ : string => false in
  w_ending (fun _ => false) deep [Got "GET /v1/hea"%string] true = (Ok tt, [LReply 408])
  /\ w_ending (fun _ => false) deep [Got (w_post "/v1/actions/x" "70000" "[")] true = (Raise StoreError, [])
  /\ w_ending (fun _ => true) deep [Got (w_post "/v1/actions/x" "70000" "[")] true = (Ok tt, [LReply 401]).
Proof. by vm_compute. Qed.

