(* ===== verification/Observation.v ===== *)
(** The catalog receipt: broker/server.py [_publish_catalog_receipt] and
    [_reload_registry], and the panel's admin/catalog_observation.py, which
    compares the catalog the broker runs with the manifests now on disk.

    The broker and the panel are two processes that share the database; the
    panel also asks the broker's health endpoint, twice.  A run is a list of
    events, one for every statement of either side that touches what they
    share, so that the panel may be interrupted at any place by a reload, a
    crash or a restart.  Parsing the manifests is not atomic: an event carries
    the catalog the parse came to.  One broker at a time has the port. *)

From stdpp Require Import base tactics list strings.
From Stdlib Require Import ZArith Lia Ascii.
From S2P Require Import Prelude PyStr Json JsonFacts Policy Action Registry.

(** ** Data *)

(** What a fingerprint is taken of: the resolved root and tool directories and
    the parsed catalog. *)
Record source := Source { so_root : option string; so_dirs : list string; so_cat : catalog }.

(** Where a reload or the publication at start-up stands. [PSign] draws the
    id and takes the fingerprint, [PStore] writes the receipt, [PServe] shows
    the id. *)
Inductive point :=
| PClear | PForget | PParse | PInstall (s : source) | PSign | PStore (id fingerprint : string) | PServe (id : string).

(** A signal handler runs on top of what it interrupts: [sv_stack] holds the
    reloads in progress, the running one first. *)
Record server := Server { sv_loaded : source; sv_obs : option string; sv_stack : list point; sv_serving : bool }.

(** How far a call of [observe_catalog] has come. *)
Inductive asking :=
| Idle
| GotHealth (observation : string)
| GotReceipt (observation : string) (receipt : option json)
| GotSources (observation : string) (receipt : option json) (current : source)
| Done (verdict : option (string * list string)).

(** [sy_signed] is a ghost: every id drawn, with what its fingerprint was
    taken of. *)
Record sys := Sys {
  sy_server : option server; sy_receipt : option json; sy_signed : list (string * source); sy_admin : asking }.

Definition sys_start : sys := Sys None None [] Idle.

(** The answer of an HTTP request: status and JSON body; [None] when it raises. *)
Abbreviation reply := (option (Z * json)).

Section Observation.
Context `{Digest}.

(** ** broker/server.py *)

Definition fingerprint (s : source) : string := observation_fingerprint (so_root s) (so_dirs s) (so_cat s).

Definition receipt_json (id fp : string) : json := JObj [("observation_id"%string, JStr id); ("fingerprint"%string, JStr fp)].

Definition health_body (obs : option string) : json :=
  JObj ([("status"%string, JStr "ok")] ++
    match obs with
    | Some o => if PyStr.empty o then [] else [("catalog_observation_id"%string, JStr o)]
    | None => []
    end).

Definition health (s : sys) : reply :=
  match sy_server s with
  | Some (Server _ obs [] true) => Some (200, health_body obs)
  | _ => None
  end.

(** The statement at [p], with what a new id and a parse give; the result is
    the new state of the server, the receipt, and the point that follows. *)
Definition reload_step (p : point) (id : string) (parsed : source) (loaded : source) (obs : option string)
    (receipt : option json) (signed : list (string * source))
    : source * option string * option json * list (string * source) * option point :=
  match p with
  | PClear => (loaded, None, receipt, signed, Some PForget)
  | PForget => (loaded, obs, None, signed, Some PParse)
  | PParse => (loaded, obs, receipt, signed, Some (PInstall parsed))
  | PInstall new => (new, obs, receipt, signed, Some PSign)
  | PSign => (loaded, obs, receipt, (id, loaded) :: signed, Some (PStore id (fingerprint loaded)))
  | PStore id fp => (loaded, obs, Some (receipt_json id fp), signed, Some (PServe id))
  | PServe id => (loaded, Some id, receipt, signed, None)
  end.

(** ** admin/catalog_observation.py *)

Definition healthy_id (a : reply) : option string :=
  match a with
  | Some (200, JObj d) =>
      match dget d "status", dget d "catalog_observation_id" with
      | Some (JStr "ok"), Some (JStr o) => if PyStr.empty o then None else Some o
      | _, _ => None
      end
  | _ => None
  end.

(** [receipt.get(key) == value] for a receipt that is a dictionary. *)
Definition receipt_says (receipt : option json) (key value : string) : bool :=
  match receipt with
  | Some (JObj d) => bool_decide (dget d key = Some (JStr value))
  | _ => false
  end.

Definition still_served (a : reply) (observation : string) : bool :=
  match a with
  | Some (200, JObj d) =>
      bool_decide (dget d "status" = Some (JStr "ok")) && bool_decide (dget d "catalog_observation_id" = Some (JStr observation))
  | _ => false
  end.

(** The statements of [observe_catalog] after each of its four reads. *)
Definition after_health (a : reply) : asking :=
  match healthy_id a with Some o => GotHealth o | None => Done None end.

Definition after_sources (o : string) (r : option json) (current : source) : asking :=
  if negb (receipt_says r "observation_id" o) then Done None
  else if negb (receipt_says r "fingerprint" (fingerprint current)) then Done None
  else GotSources o r current.

Definition after_second_health (a : reply) (o : string) (current : source) : asking :=
  Done (if still_served a o then Some (o, tool_ids (so_cat current)) else None).

Definition verdict_json (v : option (string * list string)) : json :=
  match v with
  | None => JObj [("status"%string, JStr "unknown")]
  | Some (o, ids) =>
      JObj [("status"%string, JStr "verified"); ("observation_id"%string, JStr o); ("tool_ids"%string, JArr (map JStr ids))]
  end.

Definition target_verified (catalog : json) (target : string) : bool :=
  match catalog with
  | JObj d =>
      bool_decide (dget d "status" = Some (JStr "verified")) &&
      match dget d "tool_ids" with
      | Some (JArr ids) =>
          forallb (fun v => match v with JStr s => negb (PyStr.empty s) | _ => false end) ids
          && existsb (fun v => match v with JStr s => String.eqb s target | _ => false end) ids
      | _ => false
      end
  | _ => false
  end.

(** ** Events *)

(** [Boot] is a start that came as far as binding the port, [Run] the next
    statement of the running reload, [Raises] an exception there, [Restore] a
    database put back from a backup while the broker is down.  [Asks],
    [Reads], [Parses] and [Fails] are the panel's; a request may go
    unanswered. *)
Inductive sys_event :=
| Boot (s : source) | Run (id : string) (parsed : source) | Raises | Serve | Hup | Stop | Restore (id : option string)
| Asks (answered : bool) | Reads | Parses (current : source) | Fails.

Definition set_server (sv : option server) (s : sys) : sys := Sys sv (sy_receipt s) (sy_signed s) (sy_admin s).
Definition set_admin (a : asking) (s : sys) : sys := Sys (sy_server s) (sy_receipt s) (sy_signed s) a.

(** uuid4: not empty and never drawn before. *)
Definition fresh_id (id : string) (s : sys) : bool := negb (PyStr.empty id) && negb (mem_str id (map fst (sy_signed s))).

Definition signed_as (id : string) (signed : list (string * source)) : option source :=
  snd <$> List.find (fun x => String.eqb x.1 id) signed.

(** [nested] tells whether a signal may arrive while its handler runs. *)
Definition sys_step (nested : bool) (e : sys_event) (s : sys) : option sys :=
  match e, sy_server s, sy_admin s with
  | Boot src, None, _ => Some (set_server (Some (Server src None [PSign] false)) s)
  | Run id parsed, Some (Server loaded obs (p :: rest) serving), a =>
      if fresh_id id s then
        let '(loaded, obs, receipt, signed, next) := reload_step p id parsed loaded obs (sy_receipt s) (sy_signed s) in
        Some (Sys (Some (Server loaded obs (match next with Some q => q :: rest | None => rest end) serving)) receipt signed a)
      else None
  | Raises, Some (Server loaded obs (_ :: rest) serving), _ =>
      Some (set_server (if serving then Some (Server loaded obs rest serving) else None) s)
  | Serve, Some (Server loaded obs [] false), _ => Some (set_server (Some (Server loaded obs [] true)) s)
  | Hup, Some (Server loaded obs stack true), _ =>
      if nested || bool_decide (length stack = 0%nat)
      then Some (set_server (Some (Server loaded obs (PClear :: stack) true)) s) else None
  | Stop, _, _ => Some (set_server None s)
  | Restore None, None, a => Some (Sys None None (sy_signed s) a)
  | Restore (Some id), None, a =>
      src ← signed_as id (sy_signed s);
      Some (Sys None (Some (receipt_json id (fingerprint src))) (sy_signed s) a)
  | Asks answered, _, a =>
      let r := if answered then health s else None in
      match a with
      | Idle | Done _ => Some (set_admin (after_health r) s)
      | GotSources o _ current => Some (set_admin (after_second_health r o current) s)
      | _ => None
      end
  | Reads, _, GotHealth o => Some (set_admin (GotReceipt o (sy_receipt s)) s)
  | Parses current, _, GotReceipt o r => Some (set_admin (after_sources o r current) s)
  | Fails, _, (GotHealth _ | GotReceipt _ _ | GotSources _ _ _) => Some (set_admin (Done None) s)
  | _, _, _ => None
  end.

Fixpoint sys_run (nested : bool) (es : list sys_event) (s : sys) : option sys :=
  match es with
  | [] => Some s
  | e :: es => s' ← sys_step nested e s; sys_run nested es s'
  end.
End Observation.
