(* ===== verification/ObservationFacts.v ===== *)
(** A verified observation means that the broker runs the catalog on disk. *)

From stdpp Require Import base tactics list strings.
From Stdlib Require Import ZArith Lia Ascii.
From S2P Require Import Prelude PyStr Json JsonFacts Policy Action Registry Store Broker Gateway Observation.

Section Facts.
Context `{Digest}.

(** The answer of the health endpoint is the one the gateway gives. *)
Lemma health_route `{Env} `{Manifests} headers body x corr :
  _route "GET" HEALTH_PATH headers body x corr = mret (Response 200 (health_body (x_observation x)) corr).
Proof. done. Qed.

(** ** The invariant *)

Definition signed (s : sys) (id : string) (src : source) : Prop := In (id, src) (sy_signed s).

Definition receipt_ok (l : list (string * source)) (r : option json) : Prop :=
  r = None \/ exists id src, In (id, src) l /\ r = Some (receipt_json id (fingerprint src)).

(** What the points of the one reload know. *)
Definition point_ok (l : list (string * source)) (loaded : source) (obs : option string) (p : point) : Prop :=
  match p with
  | PClear => forall id, obs = Some id -> In (id, loaded) l
  | PStore id fp => obs = None /\ In (id, loaded) l /\ fp = fingerprint loaded
  | PServe id => obs = None /\ In (id, loaded) l
  | _ => obs = None
  end.

Definition server_ok (l : list (string * source)) (sv : option server) : Prop :=
  match sv with
  | None => True
  | Some (Server loaded obs [] _) => forall id, obs = Some id -> In (id, loaded) l
  | Some (Server loaded obs [p] _) => point_ok l loaded obs p
  | Some _ => False
  end.

Definition admin_ok (l : list (string * source)) (a : asking) : Prop :=
  match a with
  | GotReceipt _ r => receipt_ok l r
  | GotSources o r current =>
      receipt_ok l r /\ receipt_says r "observation_id" o = true /\ receipt_says r "fingerprint" (fingerprint current) = true
  | _ => True
  end.

Record sys_ok (s : sys) : Prop := {
  ok_ids : NoDup (map fst (sy_signed s));
  ok_receipt : receipt_ok (sy_signed s) (sy_receipt s);
  ok_server : server_ok (sy_signed s) (sy_server s);
  ok_admin : admin_ok (sy_signed s) (sy_admin s) }.

Lemma receipt_ok_more l l' r : incl l l' -> receipt_ok l r -> receipt_ok l' r.
Proof. intros Hl [-> | (id & src & Hin & ->)]; [by left |]. right. exists id, src. auto. Qed.
Lemma admin_ok_more l l' a : incl l l' -> admin_ok l a -> admin_ok l' a.
Proof. intros Hl. destruct a; simpl; try done; [by apply receipt_ok_more |]. intros (? & ?). split; [by eapply receipt_ok_more | done]. Qed.

Lemma signed_as_In id l src : signed_as id l = Some src -> In (id, src) l.
Proof.
  unfold signed_as. destruct (List.find _ l) as [[i s]|] eqn:E; simpl; intros [= <-].
  apply List.find_some in E as [Hin Ei]. simpl in Ei. apply String.eqb_eq in Ei as ->. done.
Qed.

Lemma start_ok : sys_ok sys_start.
Proof. constructor; simpl; [by apply NoDup_nil | by left | done | done]. Qed.

(** Each statement of a reload that nothing interrupts. *)
Lemma reload_ok p id parsed loaded obs receipt l loaded' obs' receipt' l' next :
  NoDup (map fst l) -> ~ In id (map fst l) -> receipt_ok l receipt -> point_ok l loaded obs p ->
  reload_step p id parsed loaded obs receipt l = (loaded', obs', receipt', l', next) ->
  incl l l' /\ NoDup (map fst l') /\ receipt_ok l' receipt'
  /\ forall b, server_ok l' (Some (Server loaded' obs' (match next with Some q => [q] | None => [] end) b)).
Proof.
  intros Hn Hid Hr Hp. pose proof (incl_refl l). destruct p; simpl in *; intros [= <- <- <- <- <-]; simpl; try by auto.
  - repeat (split; [by auto |]). split; [by left | done].
  - split; [by right |]. split; [apply NoDup_cons; split; [by rewrite list_elem_of_In | done] |].
    split; [eapply receipt_ok_more; [|done]; by right |]. auto.
  - destruct Hp as (-> & Hin & ->). repeat (split; [by auto |]). split; [right; eauto | done].
  - destruct Hp as (-> & Hin). repeat (split; [by auto |]). intros _ i [= <-]. done.
Qed.

Ltac keep_ok := constructor; simpl; auto.

Lemma sys_step_ok e s s' : sys_ok s -> sys_step false e s = Some s' -> sys_ok s'.
Proof.
  intros [Hn Hr Hs Ha] E. destruct s as [sv r l a]. simpl in *.
  destruct e; simpl in E.
  - destruct sv; [done |]. injection E as <-. by keep_ok.
  - destruct sv as [[loaded obs [|p rest] serving]|]; try done.
    destruct (fresh_id id _) eqn:Hf; [|done]. unfold fresh_id in Hf. to_prop.
    destruct rest as [|q rest]; [|by destruct p].
    destruct (reload_step p id parsed loaded obs r l) as [[[[loaded' obs'] r'] l'] next] eqn:Er.
    injection E as <-. apply reload_ok in Er as (Hl & ? & ? & Hsv); [| done | | done | done].
    + constructor; simpl; [done | done | exact (Hsv serving) | by eapply admin_ok_more].
    + intros Hin. simpl in *. apply mem_str_In in Hin. congruence.
  - destruct sv as [[loaded obs [|p [|q rest]] [|]]|]; try done; injection E as <-; keep_ok.
    intros i ->. destruct p; naive_solver.
  - destruct sv as [[loaded obs [|] []]|]; try done. injection E as <-. by keep_ok.
  - destruct sv as [[loaded obs [|] []]|]; try done. injection E as <-. by keep_ok.
  - injection E as <-. by keep_ok.
  - destruct sv as [[]|]; [by destruct id |]. destruct id as [id|].
    + destruct (signed_as id l) as [src|] eqn:Es; [|done]. simpl in E. injection E as <-.
      apply signed_as_In in Es. keep_ok. right. eauto.
    + injection E as <-. keep_ok. by left.
  - destruct sv as [[]|]; destruct a; try done; injection E as <-; keep_ok; unfold after_health; by destruct (healthy_id _).
  - destruct sv as [[]|]; destruct a; try done; injection E as <-; by keep_ok.
  - destruct sv as [[]|]; destruct a; try done; injection E as <-; keep_ok; unfold after_sources;
      (destruct (receipt_says _ _ _) eqn:E1; [|done]); by destruct (receipt_says receipt _ (fingerprint _)) eqn:E2.
  - destruct sv as [[]|]; destruct a; try done; injection E as <-; by keep_ok.
Qed.

Lemma run_ok es s s' : sys_ok s -> sys_run false es s = Some s' -> sys_ok s'.
Proof.
  revert s. induction es as [|e es IH]; intros s Hs E; simpl in E; [by injection E as <- |].
  destruct (sys_step false e s) as [s1|] eqn:E1; [|done]. simpl in E. eapply IH; [by eapply sys_step_ok | done].
Qed.

(** ** What a verdict tells *)

Lemma still_served_health s o : still_served (health s) o = true ->
  exists loaded, sy_server s = Some (Server loaded (Some o) [] true).
Proof.
  unfold health. destruct (sy_server s) as [[loaded obs [|] []]|]; try done. intros Hs. exists loaded.
  unfold still_served, health_body in Hs. simpl in Hs. to_prop.
  destruct obs as [o'|]; [|done]. destruct (PyStr.empty o'); [done |]. simpl in *. by simplify_eq.
Qed.

Lemma receipt_says_ok l r o src : receipt_ok l r ->
  receipt_says r "observation_id" o = true -> receipt_says r "fingerprint" (fingerprint src) = true ->
  exists signed_src, In (o, signed_src) l /\ fingerprint signed_src = fingerprint src.
Proof.
  intros [-> | (id & s & Hin & ->)]; [done |]. simpl. intros Ho Hf. to_prop.
  assert (id = o) as -> by congruence. exists s. split; [done | congruence].
Qed.

Lemma In_ids_eq {A} (l : list (string * A)) id a b : NoDup (map fst l) -> In (id, a) l -> In (id, b) l -> a = b.
Proof.
  induction l as [|[i x] l IH]; [by intros _ [] |]. intros [Hn Hl]%NoDup_cons Ha Hb. simpl in Hn.
  assert (forall y, In (id, y) l -> id <> i) as Hne.
  { intros y Hy ->. apply Hn, list_elem_of_In, in_map_iff. by exists (i, y). }
  destruct Ha as [Ha | Ha], Hb as [Hb | Hb]; simplify_eq; try done; [by destruct (Hne _ Hb) | by destruct (Hne _ Ha) | auto].
Qed.

(** The value a fingerprint is taken of. *)
Definition source_json (s : source) : json := fingerprint_payload (so_root s) (so_dirs s) (so_cat s).

(** Its text, which is hashed. *)
Definition source_text (s : source) : string := dumps_sorted (source_json s).

(** Two texts that SHA-256 does not tell apart. *)
Definition texts_collide (a b : string) : Prop := a <> b /\ sha256_hex a = sha256_hex b.

Lemma fingerprint_same s1 s2 : json_wf (source_json s1) -> json_wf (source_json s2) -> fingerprint s1 = fingerprint s2 ->
  norm (source_json s1) = norm (source_json s2) \/ texts_collide (source_text s1) (source_text s2).
Proof.
  intros H1 H2 E. destruct (decide (source_text s1 = source_text s2)) as [Et | Hne]; [left | by right].
  apply (dump_norm_inj spaced); [by right | done | done | exact Et].
Qed.

Lemma norm_obj_field d d' k v v' : dict_wf d -> dict_wf d' -> norm (JObj d) = norm (JObj d') ->
  In (k, v) d -> In (k, v') d' -> norm v = norm v'.
Proof.
  intros Hd Hd' E Hv Hv'. simpl in E. injection E as E.
  assert (forall d : dict json, dict_wf d -> dict_wf (sort_keys (map (fun kv => (kv.1, norm kv.2)) d))) as Hw.
  { intros d0 H0. apply sort_keys_wf. unfold dict_wf, dkeys. by rewrite map_map. }
  assert (forall (d : dict json) k v, In (k, v) d -> In (k, norm v) (sort_keys (map (fun kv => (kv.1, norm kv.2)) d))) as Hin.
  { intros d0 k0 v0 H0. apply sort_keys_In, in_map_iff. by exists (k0, v0). }
  apply Hin in Hv, Hv'. rewrite <- E in Hv'. by eapply In_ids_eq; [apply (Hw _ Hd) | |].
Qed.

Lemma norm_obj_keys d d' : norm (JObj d) = norm (JObj d') -> forall k, In k (dkeys d) <-> In k (dkeys d').
Proof.
  intros E. simpl in E. injection E as E.
  assert (forall (d : dict json) k, In k (dkeys d) <-> In k (dkeys (sort_keys (map (fun kv => (kv.1, norm kv.2)) d)))) as Hk.
  { intros d0 k. unfold dkeys. rewrite !in_map_iff. split.
    - intros ([k' v] & <- & Hin). exists (k', norm v). split; [done |]. apply sort_keys_In, in_map_iff. by exists (k', v).
    - intros ([k' v] & <- & Hin). apply sort_keys_In, in_map_iff in Hin as ([k2 v2] & [= -> <-] & Hin). by exists (k', v2). }
  intros k. by rewrite (Hk d), (Hk d'), E.
Qed.

(** C34. When the panel reports the catalog as verified, the broker is up and
    serves, at the moment of the second health check, a catalog with the very
    fingerprint of the manifests the panel parsed: root, directories and every
    entry but the digests agree, so a tool is reported exactly when the broker
    has it loaded, or else the two texts are a collision of SHA-256.  This holds
    however reloads, failures, crashes, restarts and restored databases fall
    between the steps of the panel, as long as no reload signal arrives while
    its handler still runs ([nested_reload_miscertifies]). *)
Theorem verified_is_loaded (es : list sys_event) (s s' : sys) (answered : bool) (id observation : string)
    (receipt : option json) (current : source) (ids : list string) :
  sys_run false es sys_start = Some s ->
  sy_admin s = GotSources observation receipt current ->
  sys_step false (Asks answered) s = Some s' ->
  sy_admin s' = Done (Some (id, ids)) ->
  exists loaded, sy_server s = Some (Server loaded (Some id) [] true)
    /\ fingerprint loaded = fingerprint current
    /\ (json_wf (source_json loaded) -> json_wf (source_json current) ->
        norm (source_json loaded) = norm (source_json current)
        /\ (forall tool, In tool ids <-> In tool (dkeys (so_cat loaded)))
        \/ texts_collide (source_text loaded) (source_text current)).
Proof.
  intros Hrun Ha Hstep Hdone. pose proof (run_ok _ _ _ start_ok Hrun) as [Hn _ Hs Had].
  rewrite Ha in Had. destruct Had as (Hr & Ho & Hf).
  assert (s' = set_admin (after_second_health (if answered then health s else None) observation current) s) as ->.
  { revert Hstep. destruct s as [[[]|] ? ? a]; simpl in Ha; subst a; by intros [= <-]. }
  simpl in Hdone. unfold after_second_health in Hdone. destruct answered; [|done].
  destruct (still_served (health s) observation) eqn:Hst; [|done]. injection Hdone as <- <-.
  apply still_served_health in Hst as (loaded & Hsv). exists loaded. rewrite Hsv in Hs. simpl in Hs.
  destruct (receipt_says_ok _ _ _ _ Hr Ho Hf) as (src & Hin & E).
  assert (src = loaded) as -> by (eapply In_ids_eq; [exact Hn | exact Hin | by apply Hs]).
  split; [done |]. split; [done |]. intros Hw1 Hw2. destruct (fingerprint_same _ _ Hw1 Hw2 E) as [En | Hc]; [left | by right].
  split; [done |]. intros tool. unfold tool_ids. rewrite sorted_set_In.
  inversion Hw1 as [| | | | | | d1 Hd1 _]; inversion Hw2 as [| | | | | | d2 Hd2 _]; subst d1 d2.
  eapply norm_obj_field with (k := "catalog"%string) in En; [|done|done| by right; right; left | by right; right; left].
  pose proof (norm_obj_keys _ _ En tool) as Hk. unfold dkeys in *. rewrite !map_map in Hk. symmetry. exact Hk.
Qed.
End Facts.

(** A row of the panel counts as loaded only under a verdict that names it. *)
Lemma target_verified_verdict v target : target_verified (verdict_json v) target = true <->
  exists o ids, v = Some (o, ids) /\ In target ids /\ Forall (fun t => t <> EmptyString) ids.
Proof.
  destruct v as [[o ids]|]; simpl; [|split; [done | naive_solver]].
  rewrite andb_true_iff, forallb_forall, existsb_exists. split.
  - intros [Hn (j & (t & <- & Ht)%in_map_iff & E)]. apply String.eqb_eq in E as ->.
    exists o, ids. split_and!; try done. apply Forall_forall. intros x Hx%list_elem_of_In ->. by specialize (Hn _ (in_map JStr _ _ Hx)).
  - intros (o' & ids' & [= <- <-] & Ht & Hn). rewrite Forall_forall in Hn. split.
    + intros j (t & <- & Hj)%in_map_iff. destruct t; [|done]. by destruct (Hn EmptyString); [apply list_elem_of_In |].
    + exists (JStr target). split; [by apply in_map | by apply String.eqb_eq].
Qed.

(** ** Runs *)

Definition w_tool (op : string) : source :=
  Source (Some "/tools"%string) []
    [("clock"%string, Entry 9001 "api" [(op, OpMeta (JStr "read") (JStr EmptyString) (JArr []) (Some []) None)]
      "/tools/clock/toolyard.toml" "d")].

(** A start, a reload to [src], and the panel up to its second health check. *)
Definition w_reload (id : string) (src : source) : list sys_event :=
  [Run "-" src; Run "-" src; Run "-" src; Run "-" src; Run id src; Run "-" src; Run "-" src]%string.
Definition w_boot (id : string) (src : source) : list sys_event :=
  [Boot src; Run id src; Run "-" src; Run "-" src; Serve]%string.
Definition w_ask (src : source) : list sys_event := [Asks true; Reads; Parses src].

Definition admin_of (s : option sys) : asking := match s with Some s => sy_admin s | None => Idle end.
Definition runs_now (s : option sys) : option source := s ← s; sv_loaded <$> sy_server s.

#[local] Existing Instance echo_digest.

Definition w_state (es : list sys_event) : sys := default sys_start (sys_run false es sys_start).
Definition w_events : list sys_event :=
  w_boot "id1" (w_tool "now") ++ Hup :: w_reload "id2" (w_tool "later") ++ w_ask (w_tool "later").

Lemma verified_is_loaded_witness :
  exists loaded, sy_server (w_state w_events) = Some (Server loaded (Some "id2"%string) [] true)
    /\ fingerprint loaded = fingerprint (w_tool "later")
    /\ (json_wf (source_json loaded) -> json_wf (source_json (w_tool "later")) ->
        norm (source_json loaded) = norm (source_json (w_tool "later"))
        /\ (forall tool, In tool ["clock"%string] <-> In tool (dkeys (so_cat loaded)))
        \/ texts_collide (source_text loaded) (source_text (w_tool "later"))).
Proof.
  eapply (verified_is_loaded w_events (w_state w_events)
    (set_admin (Done (Some ("id2", ["clock"]))%string) (w_state w_events)) true "id2" "id2"
    (sy_receipt (w_state w_events)) (w_tool "later") ["clock"%string]).
  - vm_compute. reflexivity.
  - vm_compute. reflexivity.
  - vm_compute. reflexivity.
  - reflexivity.
Defined.

(** A reload that changes what runs between the panel's two health checks is
    noticed, although the receipt the panel read was the current one. *)
Example racing_reload_unknown :
  admin_of (sys_run false (w_boot "id1" (w_tool "now") ++ w_ask (w_tool "now") ++ Hup :: w_reload "id2" (w_tool "later")
    ++ [Asks true]) sys_start) = Done None.
Proof. vm_compute. reflexivity. Qed.

(** Nothing stops a second signal from running its reload inside the first
    one: if it comes after the first has taken its fingerprint, the broker runs
    the catalog of the second under a receipt of the first, and the panel
    verifies manifests the broker does not run. *)
Example nested_reload_miscertifies :
  let s := sys_run true (w_boot "id1" (w_tool "now")
    ++ Hup :: [Run "-" (w_tool "soon"); Run "-" (w_tool "soon"); Run "-" (w_tool "soon"); Run "-" (w_tool "soon"); Run "id2" (w_tool "soon")]%string
    ++ Hup :: w_reload "id3" (w_tool "later") ++ [Run "-" (w_tool "soon"); Run "-" (w_tool "soon")]%string
    ++ w_ask (w_tool "soon") ++ [Asks true]) sys_start in
  admin_of s = Done (Some ("id2", ["clock"]))%string /\ runs_now s = Some (w_tool "later")
  /\ fingerprint (w_tool "soon") <> fingerprint (w_tool "later").
Proof. split; [vm_compute; reflexivity |]. split; [vm_compute; reflexivity |]. vm_compute. discriminate. Qed.
