(* ===== verification/Toml.v ===== *)
(** The part of TOML the panel writes, and the reader of it: lines of a bare
    key and a value on one line, sections [[table]] and [[[array]]], values
    that are basic strings, integers, booleans, arrays and inline tables.  On
    such a text [read_manifest] answers what [tomllib.loads] does; on other
    TOML it raises although tomllib may not. *)

From stdpp Require Import base tactics list strings.
From Stdlib Require Import ZArith Lia Ascii.
From S2P Require Import Prelude PyStr Json JsonFacts BrokerConfig BrokerConfigFacts.

(** ** Values *)

Definition is_blank (c : ascii) : bool := Ascii.eqb c " " || Ascii.eqb c (chr 9).
Definition skip_blanks (s : string) : string := of_chars (drop_while is_blank (chars s)).

(** The text after a comma and blanks, or after [close] and blanks. *)
Definition after_comma (s : string) : option string :=
  let s := skip_blanks s in if starts_with "," s then Some (skip_blanks (str_drop 1 s)) else None.
Definition after_close (close : string) (s : string) : option string :=
  let s := skip_blanks s in if starts_with close s then Some (str_drop 1 s) else None.

Definition table_key (s : string) : option (string * string) :=
  match s with
  | String c s1 =>
      if Ascii.eqb c dquote then basic_string s1
      else let '(k, r) := span bare_key_char s in if PyStr.empty k then None else Some (k, r)
  | EmptyString => None
  end.

Section Values.
Context (pv : string -> option (json * string)).

(** The elements of an array, of which there is one more. *)
Fixpoint elements (n : nat) (s : string) : option (list json * string) :=
  match n with
  | O => None
  | S n =>
      '(v, r) ← pv s;
      match after_close "]" r with
      | Some r => Some ([v], r)
      | None => r ← after_comma r; '(l, r) ← elements n r; Some (v :: l, r)
      end
  end.

Fixpoint members (n : nat) (s : string) (acc : dict json) : option (dict json * string) :=
  match n with
  | O => None
  | S n =>
      '(k, r) ← table_key s;
      let r := skip_blanks r in
      if dmem acc k || negb (starts_with "=" r) then None
      else
        '(v, r) ← pv (skip_blanks (str_drop 1 r));
        match after_close "}" r with
        | Some r => Some (acc ++ [(k, v)], r)
        | None => r ← after_comma r; members n r (acc ++ [(k, v)])
        end
  end.

Definition tvalue_step (s : string) : option (json * string) :=
  match s with
  | EmptyString => None
  | String c s1 =>
      if Ascii.eqb c dquote then '(x, r) ← basic_string s1; Some (JStr x, r)
      else if Ascii.eqb c "["%char then
        match after_close "]" s1 with
        | Some r => Some (JArr [], r)
        | None => '(l, r) ← elements (String.length s1) (skip_blanks s1); Some (JArr l, r)
        end
      else if Ascii.eqb c "{"%char then
        match after_close "}" s1 with
        | Some r => Some (JObj [], r)
        | None => '(d, r) ← members (String.length s1) (skip_blanks s1) []; Some (JObj d, r)
        end
      else if starts_with "true" s then Some (JBool true, str_drop 4 s)
      else if starts_with "false" s then Some (JBool false, str_drop 5 s)
      else match pnum s with Some (JInt z, r) => Some (JInt z, r) | _ => None end
  end.
End Values.

Fixpoint tvalue (n : nat) (s : string) : option (json * string) :=
  match n with O => None | S n => tvalue_step (tvalue n) s end.

(** ** Sections *)

Inductive header := HRoot | HTable (k : string) | HArray (k : string).

Definition opens (brackets close : string) (s : string) : option (string * string) :=
  if starts_with brackets s then
    let '(k, r) := span bare_key_char (str_drop (String.length brackets) s) in
    if PyStr.empty k || negb (starts_with (close +:+ one newline) r) then None
    else Some (k, str_drop (S (String.length close)) r)
  else None.

Fixpoint sections (n : nat) (s : string) (h : header) (acc : dict json) : option (list (header * dict json)) :=
  match n with
  | O => None
  | S n =>
      match s with
      | EmptyString => Some [(h, acc)]
      | String c s1 =>
          if Ascii.eqb c newline then sections n s1 h acc
          else match opens "[[" "]]" s with
          | Some (k, r) => l ← sections n r (HArray k) []; Some ((h, acc) :: l)
          | None =>
          match opens "[" "]" s with
          | Some (k, r) => l ← sections n r (HTable k) []; Some ((h, acc) :: l)
          | None =>
              let '(k, r) := span bare_key_char s in
              if PyStr.empty k || dmem acc k || negb (starts_with " = " r) then None
              else
                '(v, r) ← tvalue (String.length r) (str_drop 3 r);
                match r with
                | String d r' => if Ascii.eqb d newline then sections n r' h (acc ++ [(k, v)]) else None
                | EmptyString => Some [(h, acc ++ [(k, v)])]
                end
          end end
      end
  end.

(** A table is opened once, an array of tables by its sections only. *)
Fixpoint assemble (l : list (header * dict json)) (root : dict json) (arrays : list string) : option (dict json) :=
  match l with
  | [] => Some root
  | (HRoot, d) :: l => assemble l d arrays
  | (HTable k, d) :: l => if dmem root k then None else assemble l (root ++ [(k, JObj d)]) arrays
  | (HArray k, d) :: l =>
      match dget root k with
      | None => assemble l (root ++ [(k, JArr [JObj d])]) (k :: arrays)
      | Some (JArr a) => if existsb (String.eqb k) arrays then assemble l (dset root k (JArr (a ++ [JObj d]))) arrays else None
      | Some _ => None
      end
  end.

Definition read_manifest (s : string) : res (dict json) :=
  res_of_option ValueError (l ← sections (S (String.length s)) s HRoot []; assemble l [] []).

Example read_example : read_manifest (
  "id = " +:+ String dquote ("a" +:+ String dquote (String newline (String newline
  ("[entrypoint]" +:+ String newline ("port = 80" +:+ String newline (String newline
  ("[[operations]]" +:+ String newline ("args = [ { required = true }, { required = false } ]"
  +:+ String newline EmptyString)))))))))
  = Ok [("id", JStr "a"); ("entrypoint", JObj [("port", JInt 80)]);
        ("operations", JArr [JObj [("args", JArr [JObj [("required", JBool true)]; JObj [("required", JBool false)]])]])]%string.
Proof. vm_compute. reflexivity. Qed.
