(* ===== verification/TomlFacts.v ===== *)
(** What the panel writes is read back: which texts stand for which values,
    lines, tables and files. *)

From stdpp Require Import base tactics list sets strings.
From Stdlib Require Import ZArith Lia Ascii.
From S2P Require Import Prelude PyStr Json JsonFacts BrokerConfig BrokerConfigFacts Toml.

(** ** Values *)

(** What may follow a value. *)
Definition stops (rest : string) : bool :=
  match rest with String c _ => existsb (Ascii.eqb c) [newline; ","; " "; "]"; "}"]%char | EmptyString => false end.

Definition nonblank (t : string) : bool := match t with String c _ => negb (is_blank c || Ascii.eqb "]" c || Ascii.eqb "}" c) | EmptyString => false end.

(** The text [t] stands for the value [v]. *)
Definition reads (v : json) (t : string) : Prop :=
  nonblank t = true /\ forall n rest, stops rest = true -> (String.length t <= n)%nat -> tvalue n (t +:+ rest) = Some (v, rest).

Lemma skip_blank s : skip_blanks (String " " s) = skip_blanks s.
Proof. done. Qed.

Lemma skip_nonblank t rest : nonblank t = true -> skip_blanks (t +:+ rest) = t +:+ rest.
Proof.
  destruct t as [|c t]; [done |]. simpl. intros [[Hc _]%orb_false_iff _]%negb_true_iff%orb_false_iff. unfold skip_blanks.
  change (chars (String c t +:+ rest)) with (c :: chars (t +:+ rest)). cbn [drop_while]. rewrite Hc.
  change (c :: chars (t +:+ rest)) with (chars (String c (t +:+ rest))). apply of_chars_chars.
Qed.

Lemma reads_fuel v t : reads v t -> forall n rest, stops rest = true -> (String.length t <= n)%nat -> tvalue n (t +:+ rest) = Some (v, rest).
Proof. by intros [_ ?]. Qed.

Lemma reads_bool b : reads (JBool b) (if b then "true" else "false").
Proof.
  split; [by destruct b |]. intros n rest _ Hn. destruct n as [|n]; [by destruct b; simpl in Hn; lia |].
  destruct b; [etrans; [exact (eq_refl (Some (JBool true, of_chars (chars rest)))) |]
              | etrans; [exact (eq_refl (Some (JBool false, of_chars (chars rest)))) |]]; by rewrite of_chars_chars.
Qed.

Lemma stops_delim rest : stops rest = true -> delim rest = true.
Proof.
  destruct rest as [|c rest]; [done |]. simpl. rewrite !orb_true_iff, !Ascii.eqb_eq.
  intros [-> | [-> | [-> | [-> | [-> | ?]]]]]; done.
Qed.

Lemma reads_int z : reads (JInt z) (str_of_Z z).
Proof.
  pose proof (pnum_int z) as Hp. pose proof (pnum_start _ _ Hp) as Hs.
  destruct (str_of_Z z) as [|c s] eqn:E; [done |].
  assert (Hc : is_digit c = true \/ c = "-"%char) by (destruct Hs as [? | [? _]]; auto).
  assert (Hne : forall d, is_digit d = false -> d <> "-"%char -> Ascii.eqb c d = false).
  { intros d Hd Hm. apply Ascii.eqb_neq. intros ->. destruct Hc; congruence. }
  split; [cbn [nonblank]; unfold is_blank; by rewrite (Ascii.eqb_sym "]"), (Ascii.eqb_sym "}"), !Hne |]. intros n rest Hr Hn.
  pose proof (pnum_app _ _ rest Hp (stops_delim _ Hr)) as Hp'.
  destruct n as [|n]; [simpl in Hn; lia |]. rewrite str_cons_app in *. cbn [tvalue]. unfold tvalue_step.
  assert (Hst : forall d t u, is_digit d = false -> d <> "-"%char -> starts_with (String d t) (String c u) = false).
  { intros d t u Hd Hm. cbn. rewrite Ascii.eqb_sym. by rewrite Hne. }
  by rewrite !Hne, !Hst, Hp' by done.
Qed.

(** ** Arrays *)

Lemma drop_one c s : str_drop 1 (String c s) = s.
Proof. exact (of_chars_chars s). Qed.

Definition gap (sp : string) : Prop := sp = EmptyString \/ sp = " "%string.

Lemma after_close_here close sp rest : is_blank close = false -> gap sp ->
  after_close (String close EmptyString) (sp +:+ String close rest) = Some rest.
Proof.
  intros Hc Hg. unfold after_close.
  assert (skip_blanks (sp +:+ String close rest) = String close rest) as ->.
  { assert (skip_blanks (String close rest) = String close rest) as Hs.
    - unfold skip_blanks. change (chars (String close rest)) with (close :: chars rest). cbn [drop_while]. rewrite Hc.
      change (close :: chars rest) with (chars (String close rest)). apply of_chars_chars.
    - destruct Hg as [-> | ->]; [done |]. by rewrite (str_cons_app " " EmptyString), skip_blank. }
  assert (starts_with (String close EmptyString) (String close rest) = true) as -> by apply (starts_with_app (one close)).
  by rewrite drop_one.
Qed.

Lemma after_comma_next t rest : nonblank t = true -> after_comma (", " +:+ t +:+ rest) = Some (t +:+ rest).
Proof.
  intros Ht. change (", " +:+ t +:+ rest) with (String "," (String " " (t +:+ rest))).
  unfold after_comma. change (skip_blanks (String "," ?s)) with (of_chars (chars (String "," s))).
  rewrite of_chars_chars. cbn [starts_with]. change (Ascii.eqb "," ",") with true. cbn [andb]. cbn iota.
  by rewrite drop_one, skip_blank, skip_nonblank.
Qed.

Lemma not_closed close s : Ascii.eqb close "," = false -> after_close (String close EmptyString) (", " +:+ s) = None.
Proof.
  intros Hc. unfold after_close. change (skip_blanks (", " +:+ s)) with (of_chars (chars (", " +:+ s))).
  rewrite of_chars_chars. change (", " +:+ s) with (String "," (String " " s)). cbn [starts_with]. by rewrite Hc.
Qed.

Lemma join_two sep x y l : join sep (x :: y :: l) = x +:+ sep +:+ join sep (y :: l).
Proof. done. Qed.

Lemma not_closed_yet close t rest : nonblank t = true -> Ascii.eqb close "]" || Ascii.eqb close "}" = true ->
  after_close (String close EmptyString) (t +:+ rest) = None.
Proof.
  intros Ht Hc. unfold after_close. rewrite skip_nonblank by done. destruct t as [|c t]; [done |].
  cbn [nonblank] in Ht. rewrite str_cons_app. cbn [starts_with].
  destruct (Ascii.eqb_spec close c) as [<- | ?]; [|done]. apply orb_true_iff in Hc as [->%Ascii.eqb_eq | ->%Ascii.eqb_eq]; done.
Qed.

Lemma stops_comma s : stops (", " +:+ s) = true.
Proof. done. Qed.

Lemma stops_gap sp close rest : gap sp -> stops (one close) = true -> stops (sp +:+ String close rest) = true.
Proof. intros [-> | ->] Hc; [|done]. exact Hc. Qed.

Lemma join_nonblank x (l : list string) : nonblank x = true -> nonblank (join ", " (x :: l)) = true.
Proof. destruct l, x; done. Qed.

Lemma elements_read m sp rest : gap sp -> forall ts vs n,
  Forall2 (fun v t => reads v t /\ (String.length t <= m)%nat) vs ts -> ts <> [] -> (length ts <= n)%nat ->
  elements (tvalue m) n (join ", " ts +:+ sp +:+ String "]" rest) = Some (vs, rest).
Proof.
  intros Hg. induction ts as [|t ts IH]; intros vs n Hf Hne Hn; [done |].
  inversion Hf as [|v ? vs' ? [Hv Hm] Hf']; subst. destruct n as [|n]; [simpl in Hn; lia |]. cbn [elements].
  destruct ts as [|t2 ts].
  - inversion Hf'; subst. change (join ", " [t]) with (t +:+ EmptyString). rewrite str_app_nil, (reads_fuel _ _ Hv); [|by apply stops_gap | done].
    simpl. by rewrite after_close_here.
  - rewrite join_two, !str_assoc, (reads_fuel _ _ Hv); [| apply stops_comma | done].
    cbn [mbind option_bind]. rewrite (not_closed "]") by done.
    inversion Hf' as [|v2 ? ? ? [[Hn2 _] _] _]; subst.
    rewrite after_comma_next by (apply join_nonblank; done).
    cbn [mbind option_bind]. rewrite (IH (v2 :: l)) by (done || simpl in *; lia). done.
Qed.

Lemma length_join_le t (ts : list string) : In t ts -> (String.length t <= String.length (join ", " ts))%nat.
Proof.
  induction ts as [|x [|y ts] IH]; [done | |].
  - intros [<- | []]. change (join ", " [x]) with (x +:+ EmptyString). by rewrite str_app_nil.
  - rewrite join_two, !length_str_app. intros [<- | Hin]; [lia |]. specialize (IH Hin). lia.
Qed.

Lemma length_join_count (ts : list string) : Forall (fun t => nonblank t = true) ts -> (length ts <= String.length (join ", " ts))%nat.
Proof.
  induction ts as [|x [|y ts] IH]; [simpl; lia | |].
  - intros [Hx _]%Forall_cons_1. change (join ", " [x]) with (x +:+ EmptyString). rewrite str_app_nil. destruct x; [done | simpl; lia].
  - intros [Hx Hl]%Forall_cons_1. specialize (IH Hl). rewrite join_two, !length_str_app. cbn [length] in *.
    change (String.length ", ") with 2%nat. lia.
Qed.

Lemma reads_nonblank vs ts : Forall2 reads vs ts -> Forall (fun t => nonblank t = true) ts.
Proof. induction 1 as [|v t vs ts [Hn _] _ IH]; by constructor. Qed.

(** The panel writes arrays with blanks inside the brackets or without. *)
Lemma reads_arr sp vs ts : gap sp -> Forall2 reads vs ts -> ts <> [] ->
  reads (JArr vs) ("[" +:+ sp +:+ join ", " ts +:+ sp +:+ "]").
Proof.
  intros Hg Hf Hne. split; [done |]. intros n rest _ Hn. rewrite !str_assoc.
  destruct n as [|n]; [simpl in Hn; lia |].
  change ("[" +:+ ?s) with (String "[" s) in *. change ("]" +:+ rest) with (String "]" rest).
  pose proof (reads_nonblank _ _ Hf) as Hnb. pose proof (length_join_count ts Hnb) as Hc.
  assert (nonblank (join ", " ts) = true) as Hj by (destruct ts; [done |]; inversion Hnb; by apply join_nonblank).
  assert (skip_blanks (sp +:+ join ", " ts +:+ sp +:+ String "]" rest) = join ", " ts +:+ sp +:+ String "]" rest) as Hs.
  { destruct Hg as [-> | ->]; [|rewrite (str_cons_app " " EmptyString), skip_blank]; exact (skip_nonblank _ _ Hj). }
  cbn [tvalue]. unfold tvalue_step. cbn iota.
  change (Ascii.eqb "[" dquote) with false. change (Ascii.eqb "[" "[") with true. cbn iota.
  assert (after_close "]" (sp +:+ join ", " ts +:+ sp +:+ String "]" rest) = None) as ->.
  { destruct Hg as [-> | ->]; [exact (not_closed_yet "]" _ _ Hj eq_refl) |]. unfold after_close. rewrite (str_cons_app " " EmptyString), skip_blank. exact (not_closed_yet "]" _ _ Hj eq_refl). }
  rewrite Hs. assert (Hl : (String.length (join ", " ts) <= n)%nat).
  { cbn [String.length] in Hn. rewrite !length_str_app in Hn. lia. }
  rewrite (elements_read n sp rest Hg ts vs); [done | | done |].
  - clear -Hf Hl. pose proof (length_join_le) as Hle. assert (forall t, In t ts -> (String.length t <= n)%nat) as Ht.
    { intros t Hin. specialize (Hle t ts Hin). lia. }
    clear Hl Hle. induction Hf as [|v t vs ts Hv _ IH]; constructor; [split; [done | apply Ht; by left] | apply IH; intros ? ?; apply Ht; by right].
  - rewrite !length_str_app. lia.
Qed.

(** ** Inline tables *)

Definition key_reads (k kt : string) : Prop :=
  nonblank kt = true /\ forall rest, table_key (kt +:+ String " " rest) = Some (k, String " " rest).

Definition member_reads (kv : string * json) (p : string) : Prop :=
  exists kt t, p = kt +:+ " = " +:+ t /\ key_reads kv.1 kt /\ reads kv.2 t.

Lemma key_bare k : bare k = true -> key_reads k k.
Proof.
  unfold bare. intros [He Hb]%andb_true_iff. destruct k as [|c k]; [done |].
  pose proof (all_chars_not_in _ _ "]"%char Hb eq_refl) as H1. pose proof (all_chars_not_in _ _ "}"%char Hb eq_refl) as H2.
  pose proof (all_chars_not_in _ _ " "%char Hb eq_refl) as H3. pose proof (all_chars_not_in _ _ (chr 9) Hb eq_refl) as H4.
  pose proof (all_chars_not_in _ _ dquote Hb eq_refl) as H5.
  assert (forall d, ~ In d (chars (String c k)) -> c <> d) as Hd by (intros d Hn ->; apply Hn; by left). split.
  - cbn [nonblank]. unfold is_blank. rewrite (Ascii.eqb_sym "]"), (Ascii.eqb_sym "}").
    by rewrite !(proj2 (Ascii.eqb_neq c _)) by auto.
  - intros rest. rewrite str_cons_app. cbn [table_key]. rewrite (proj2 (Ascii.eqb_neq c dquote)) by auto.
    rewrite <- str_cons_app, span_bare by done. done.
Qed.

Lemma members_read m rest : forall ps kvs n acc,
  Forall2 (fun kv p => member_reads kv p /\ (String.length p <= m)%nat) kvs ps -> ps <> [] -> (length ps <= n)%nat ->
  dict_wf (acc ++ kvs) ->
  members (tvalue m) n (join ", " ps +:+ String " " (String "}" rest)) acc = Some (acc ++ kvs, rest).
Proof.
  induction ps as [|p ps IH]; intros kvs n acc Hf Hne Hn Hw; [done |].
  inversion Hf as [|[k v] ? kvs' ? [(kt & t & -> & [Hkn Hk] & Hv) Hm] Hf']; subst. destruct n as [|n]; [simpl in Hn; lia |].
  assert (dmem acc k = false) as Hd.
  { unfold dmem. apply bool_decide_eq_false. intros [w Hw']. unfold dict_wf, dkeys in Hw. rewrite map_app, NoDup_app in Hw.
    destruct Hw as (_ & Hw & _). apply (Hw k); [|by left]. apply list_elem_of_In, in_map_iff. exists (k, w). split; [done | by apply dget_In]. }
  cbn [snd fst] in *. rewrite !length_str_app in Hm.
  assert (forall after, stops after = true -> forall r,
    match after_close "}" after with Some r => Some (acc ++ [(k, v)], r) | None => r ← after_comma after; members (tvalue m) n r (acc ++ [(k, v)]) end = r ->
    members (tvalue m) (S n) (kt +:+ " = " +:+ t +:+ after) acc = r) as Hstep.
  { intros after Ha r <-. cbn [members]. change (" = " +:+ t +:+ after) with (String " " (String "=" (String " " (t +:+ after)))).
    rewrite Hk. cbn [mbind option_bind]. rewrite skip_blank.
    change (skip_blanks (String "=" (String " " (t +:+ after)))) with (of_chars (chars (String "=" (String " " (t +:+ after))))).
    rewrite of_chars_chars, Hd. cbn [starts_with]. change (Ascii.eqb "=" "=") with true. cbn [orb negb andb].
    rewrite drop_one, skip_blank, (skip_nonblank _ _ (proj1 Hv)), (reads_fuel _ _ Hv) by (done || lia). done. }
  destruct ps as [|p2 ps].
  - inversion Hf'; subst. change (join ", " [kt +:+ " = " +:+ t]) with ((kt +:+ " = " +:+ t) +:+ EmptyString).
    rewrite str_app_nil, !str_assoc. apply Hstep; [done |].
    assert (after_close "}" (String " " (String "}" rest)) = Some rest) as -> by exact (after_close_here "}" " " rest eq_refl (or_intror eq_refl)).
    done.
  - rewrite join_two, !str_assoc. apply Hstep; [done |]. rewrite (not_closed "}") by done.
    inversion Hf' as [|kv2 ? kvs2 ? [(kt2 & t2 & -> & [Hn2 _] & _) _] _]; subst.
    rewrite after_comma_next by (apply join_nonblank; destruct kt2; done).
    cbn [mbind option_bind]. rewrite (IH (kv2 :: kvs2)) by (done || (simpl in *; lia) || by rewrite <- (assoc_L (++))).
    by rewrite <- (assoc_L (++)).
Qed.

Lemma reads_obj kvs ps : Forall2 member_reads kvs ps -> ps <> [] -> dict_wf kvs ->
  reads (JObj kvs) ("{ " +:+ join ", " ps +:+ " }").
Proof.
  intros Hf Hne Hw. split; [done |]. intros n rest _ Hn. rewrite !str_assoc.
  destruct n as [|n]; [simpl in Hn; lia |].
  change ("{ " +:+ ?s) with (String "{" (String " " s)) in *. change (" }" +:+ rest) with (String " " (String "}" rest)).
  assert (Forall (fun t => nonblank t = true) ps) as Hnb.
  { clear -Hf. induction Hf as [|kv p kvs ps (kt & t & -> & [Hn _] & _) _ IH]; constructor; [|done]. by destruct kt. }
  pose proof (length_join_count ps Hnb) as Hc.
  assert (nonblank (join ", " ps) = true) as Hj by (destruct ps; [done |]; inversion Hnb; by apply join_nonblank).
  cbn [tvalue]. unfold tvalue_step. cbn iota.
  change (Ascii.eqb "{" dquote) with false. change (Ascii.eqb "{" "[") with false. change (Ascii.eqb "{" "{") with true. cbn iota.
  assert (after_close "}" (String " " (join ", " ps +:+ String " " (String "}" rest))) = None) as ->.
  { unfold after_close. rewrite skip_blank. exact (not_closed_yet "}" _ _ Hj eq_refl). }
  rewrite skip_blank, (skip_nonblank _ _ Hj). assert (Hl : (String.length (join ", " ps) <= n)%nat).
  { cbn [String.length] in Hn. rewrite !length_str_app in Hn. lia. }
  rewrite (members_read n rest ps kvs); [done | | done | | done].
  - assert (forall t, In t ps -> (String.length t <= n)%nat) as Ht.
    { intros t Hin. pose proof (length_join_le t ps Hin). lia. }
    clear -Hf Ht. induction Hf as [|v t vs ts Hv _ IH]; constructor; [split; [done | apply Ht; by left] | apply IH; intros ? ?; apply Ht; by right].
  - cbn [String.length]. rewrite !length_str_app. lia.
Qed.

(** ** Lines and sections *)

Definition line_reads (kv : string * json) (l : string) : Prop :=
  bare kv.1 = true /\ exists t, l = kv.1 +:+ " = " +:+ t /\ reads kv.2 t.

(** Lines, each ended. *)
Definition lines (ls : list string) : string := foldr (fun l acc => l +:+ String newline acc) EmptyString ls.

Lemma join_lines ls : ls <> [] -> join (one newline) ls +:+ one newline = lines ls.
Proof.
  destruct ls as [|l ls]; [done |]. intros _. revert l. induction ls as [|l2 ls IH]; intros l.
  - change (join (one newline) [l]) with (l +:+ EmptyString). by rewrite str_app_nil.
  - rewrite join_two, !str_assoc, IH. done.
Qed.

Lemma lines_app a b : lines (a ++ b) = lines a +:+ lines b.
Proof. induction a as [|l a IH]; [done |]. simpl. rewrite IH. by rewrite !str_assoc, str_cons_app. Qed.

Lemma opens_key brackets close k rest : Forall (fun c => bare_key_char c = false) (take 1 (chars brackets)) -> brackets <> EmptyString ->
  bare k = true -> opens brackets close (k +:+ String " " rest) = None.
Proof.
  intros Hb Hne Hk. unfold opens. destruct brackets as [|b bs]; [done |]. destruct k as [|c k]; [done |].
  rewrite str_cons_app. cbn [starts_with]. destruct (Ascii.eqb_spec b c) as [<- | ?]; [|done].
  unfold bare in Hk. apply andb_true_iff in Hk as [_ Hk]. unfold all_chars in Hk. simpl in Hk.
  apply andb_true_iff in Hk as [Hk _]. apply Forall_cons_1 in Hb as [Hb _]. congruence.
Qed.

Lemma section_line n l kv rest h acc : line_reads kv l -> dmem acc kv.1 = false ->
  sections (S n) (l +:+ String newline rest) h acc = sections n rest h (acc ++ [kv]).
Proof.
  destruct kv as [k v]. intros (Hk & t & -> & Hv) Hd. cbn [fst snd] in *. rewrite !str_assoc.
  change (" = " +:+ t +:+ String newline rest) with (String " " ("= " +:+ t +:+ String newline rest)).
  cbn [sections]. destruct (k +:+ String " " _) as [|c s] eqn:E; [by destruct k |].
  assert (Ascii.eqb c newline = false) as ->.
  { destruct k as [|d k]; [done |]. injection E as <- _. apply Ascii.eqb_neq. intros ->.
    unfold bare in Hk. apply andb_true_iff in Hk as [_ Hk]. by unfold all_chars in Hk; simpl in Hk. }
  rewrite <- E. rewrite !opens_key by (done || by repeat constructor).
  pose proof Hk as Hk'. unfold bare in Hk'. apply andb_true_iff in Hk' as [He Hb]. apply negb_true_iff in He.
  rewrite span_bare, He, Hd by done. cbn [orb].
  change (starts_with " = " (String " " ("= " +:+ t +:+ String newline rest))) with (starts_with EmptyString (t +:+ String newline rest)).
  cbn [negb starts_with].
  rewrite (of_chars_chars (t +:+ String newline rest) : str_drop 3 (String " " ("= " +:+ t +:+ String newline rest)) = _).
  rewrite (reads_fuel _ _ Hv) by (done || (cbn [String.length]; rewrite !length_str_app; lia)). done.
Qed.

Lemma section_lines ls : forall kvs n rest h acc, Forall2 line_reads kvs ls -> dict_wf (acc ++ kvs) ->
  sections (length ls + n) (lines ls +:+ rest) h acc = sections n rest h (acc ++ kvs).
Proof.
  induction ls as [|l ls IH]; intros kvs n rest h acc Hf Hw; inversion Hf as [|kv ? kvs' ? Hl Hf']; subst; [by rewrite app_nil_r |].
  cbn [lines foldr length Nat.add]. rewrite str_assoc, str_cons_app. fold (lines ls). rewrite (section_line _ _ kv); [| done |].
  - rewrite (IH kvs') by (done || by rewrite <- (assoc_L (++))). by rewrite <- (assoc_L (++)).
  - unfold dmem. apply bool_decide_eq_false. intros [w Hw']. unfold dict_wf, dkeys in Hw. rewrite map_app, NoDup_app in Hw.
    destruct Hw as (_ & Hw & _). apply (Hw kv.1); [|by left]. apply list_elem_of_In, in_map_iff. exists (kv.1, w). split; [done | by apply dget_In].
Qed.

(** A section after the first: a blank line, its header, its lines. *)
Definition block : Type := header * list string * dict json.

Definition header_line (h : header) : string :=
  match h with HRoot => EmptyString | HTable k => "[" +:+ k +:+ "]" | HArray k => "[[" +:+ k +:+ "]]" end.

Definition block_lines (b : block) : list string := EmptyString :: header_line b.1.1 :: b.1.2.

Definition block_ok (b : block) : Prop :=
  match b.1.1 with HRoot => False | HTable k | HArray k => bare k = true end
  /\ Forall2 line_reads b.2 b.1.2 /\ dict_wf b.2.

Lemma span_until k d rest : all_chars bare_key_char k = true -> bare_key_char d = false ->
  span bare_key_char (k +:+ String d rest) = (k, String d rest).
Proof.
  intros Hk Hd. unfold all_chars in Hk. induction k as [|c k IH].
  - change (EmptyString +:+ String d rest) with (String d rest). cbn [span]. by rewrite Hd.
  - cbn [chars String.list_ascii_of_string forallb] in Hk. apply andb_true_iff in Hk as [Hc Hk].
    rewrite str_cons_app. cbn [span]. by rewrite Hc, IH.
Qed.

Lemma opens_array k rest : bare k = true -> opens "[[" "]]" ("[[" +:+ k +:+ "]]" +:+ String newline rest) = Some (k, rest).
Proof.
  intros Hk. unfold opens. rewrite starts_with_app.
  change (str_drop (String.length "[[") ("[[" +:+ ?s)) with (of_chars (chars s)). rewrite of_chars_chars.
  change ("]]" +:+ String newline rest) with (String "]" (String "]" (String newline rest))).
  unfold bare in Hk. apply andb_true_iff in Hk as [He Hk]. rewrite span_until by done. apply negb_true_iff in He. rewrite He.
  change (starts_with ("]]" +:+ one newline) (String "]" (String "]" (String newline rest)))) with true. cbn [orb negb].
  change (str_drop (S (String.length "]]")) (String "]" (String "]" (String newline rest)))) with (of_chars (chars rest)).
  by rewrite of_chars_chars.
Qed.

Lemma opens_table k rest : bare k = true -> opens "[[" "]]" ("[" +:+ k +:+ "]" +:+ String newline rest) = None
  /\ opens "[" "]" ("[" +:+ k +:+ "]" +:+ String newline rest) = Some (k, rest).
Proof.
  intros Hk. pose proof Hk as Hb. unfold bare in Hk. apply andb_true_iff in Hk as [He Hk]. apply negb_true_iff in He. split.
  - unfold opens. destruct k as [|c k]; [done |]. change ("[" +:+ String c k +:+ "]" +:+ String newline rest) with (String "[" (String c (k +:+ "]" +:+ String newline rest))).
    cbn [starts_with]. destruct (Ascii.eqb_spec "[" c) as [<- | ?]; [|by rewrite andb_comm].
    by unfold all_chars in Hk; simpl in Hk.
  - unfold opens. rewrite starts_with_app.
    change (str_drop (String.length "[") ("[" +:+ ?s)) with (of_chars (chars s)). rewrite of_chars_chars.
    change ("]" +:+ String newline rest) with (String "]" (String newline rest)). rewrite span_until by done. rewrite He.
    change (starts_with ("]" +:+ one newline) (String "]" (String newline rest))) with true. cbn [orb negb].
    change (str_drop (S (String.length "]")) (String "]" (String newline rest))) with (of_chars (chars rest)).
    by rewrite of_chars_chars.
Qed.

Lemma blocks_read bs : forall n h acc, Forall block_ok bs -> (length (flat_map block_lines bs) < n)%nat ->
  sections n (lines (flat_map block_lines bs)) h acc = Some ((h, acc) :: map (fun b => (b.1.1, b.2)) bs).
Proof.
  induction bs as [|[[hd ls] kvs] bs IH]; intros n h acc Hok Hn; [by destruct n; [simpl in Hn; lia |] |].
  apply Forall_cons_1 in Hok as [(Hh & Hf & Hw) Hok]. cbn [flat_map fst snd] in *. unfold block_lines at 1.
  unfold block_lines at 1 in Hn. cbn [fst snd app length] in *. rewrite length_app in Hn.
  destruct n as [|[|n]]; [lia | lia |]. cbn [lines foldr]. fold (lines (ls ++ flat_map block_lines bs)).
  change (EmptyString +:+ ?s) with s. rewrite lines_app.
  assert (sections n (lines ls +:+ lines (flat_map block_lines bs)) hd [] = Some ((hd, kvs) :: map (fun b => (b.1.1, b.2)) bs)) as Hrest.
  { replace n with (length ls + (n - length ls))%nat by lia. rewrite (section_lines ls kvs) by done. apply IH; [done | lia]. }
  destruct hd as [|k|k]; [done | |].
  - cbn [header_line]. rewrite !str_assoc. destruct (opens_table k (lines ls +:+ lines (flat_map block_lines bs)) Hh) as [E1 E2].
    change (sections (S (S n)) (String newline ?s) h acc) with (sections (S n) s h acc).
    cbn [sections]. change ("[" +:+ ?s) with (String "[" s) in *. change (Ascii.eqb "[" newline) with false. cbn iota.
    by rewrite E1, E2, Hrest.
  - cbn [header_line]. rewrite !str_assoc. pose proof (opens_array k (lines ls +:+ lines (flat_map block_lines bs)) Hh) as E1.
    change (sections (S (S n)) (String newline ?s) h acc) with (sections (S n) s h acc).
    cbn [sections]. change ("[[" +:+ ?s) with (String "[" (String "[" s)) in *. change (Ascii.eqb "[" newline) with false. cbn iota.
    by rewrite E1, Hrest.
Qed.

Lemma lines_count ls : (length ls <= String.length (lines ls))%nat.
Proof. induction ls as [|l ls IH]; [simpl; lia |]. cbn [lines foldr length]. fold (lines ls). rewrite length_str_app. cbn [String.length]. lia. Qed.

Lemma file_sections rootls root bs : Forall2 line_reads root rootls -> dict_wf root -> Forall block_ok bs ->
  let text := lines (rootls ++ flat_map block_lines bs) in
  sections (S (String.length text)) text HRoot [] = Some ((HRoot, root) :: map (fun b => (b.1.1, b.2)) bs).
Proof.
  intros Hf Hw Hb text. pose proof (lines_count (rootls ++ flat_map block_lines bs)) as Hl. fold text in Hl. rewrite length_app in Hl.
  unfold text at 2. rewrite lines_app.
  replace (S (String.length text)) with (length rootls + (S (String.length text) - length rootls))%nat by lia.
  rewrite (section_lines rootls root) by done. apply blocks_read; [done | lia].
Qed.

(** ** Files *)

Definition array_entry (k : string) (ds : list (dict json)) : dict json :=
  match ds with [] => [] | _ => [(k, JArr (map JObj ds))] end.

Lemma dget_app_new {A} (d : dict A) k v : ~ In k (dkeys d) -> dget (d ++ [(k, v)]) k = Some v.
Proof. intros Hn. rewrite <- dset_app_new by done. apply dget_dset_eq. Qed.

Lemma dset_app_last {A} (d : dict A) k v w : ~ In k (dkeys d) -> dset (d ++ [(k, v)]) k w = d ++ [(k, w)].
Proof.
  unfold dkeys. induction d as [|[k' u] d IH]; simpl; intros Hn; [by rewrite decide_True |].
  rewrite decide_False by tauto. rewrite IH by tauto. done.
Qed.

Lemma assemble_more k ds : forall a root arrays rest, ~ In k (dkeys root) -> existsb (String.eqb k) arrays = true ->
  assemble (map (fun d => (HArray k, d)) ds ++ rest) (root ++ [(k, JArr a)]) arrays
  = assemble rest (root ++ [(k, JArr (a ++ map JObj ds))]) arrays.
Proof.
  induction ds as [|d ds IH]; intros a root arrays rest Hn He; [by rewrite app_nil_r |].
  cbn [map app assemble]. rewrite dget_app_new, He, dset_app_last by done. rewrite IH by done.
  by rewrite <- (assoc_L (++)).
Qed.

Lemma assemble_array k ds root arrays rest : ~ In k (dkeys root) ->
  exists arrays', assemble (map (fun d => (HArray k, d)) ds ++ rest) root arrays = assemble rest (root ++ array_entry k ds) arrays'.
Proof.
  intros Hn. destruct ds as [|d ds]; [exists arrays; by rewrite app_nil_r |]. exists (k :: arrays).
  cbn [map app assemble array_entry]. rewrite (proj2 (dget_None _ _)) by done.
  rewrite assemble_more; [done | done |]. simpl. by rewrite String.eqb_refl.
Qed.

(** Tables of an array, each with its lines. *)
Definition tables_ok (l : list (list string * dict json)) : Prop := Forall (fun t => Forall2 line_reads t.2 t.1 /\ dict_wf t.2) l.

Definition array_lines (k : string) (l : list (list string * dict json)) : list string :=
  flat_map (fun t => EmptyString :: header_line (HArray k) :: t.1) l.

Lemma read_file rootls root table entls entry ops secs k1 k2 :
  Forall2 line_reads root rootls -> Forall2 line_reads entry entls -> dict_wf entry -> tables_ok ops -> tables_ok secs ->
  bare table = true -> bare k1 = true -> bare k2 = true ->
  NoDup (dkeys root ++ [table; k1; k2]) ->
  read_manifest (lines (rootls ++ [EmptyString; header_line (HTable table)] ++ entls ++ array_lines k1 ops ++ array_lines k2 secs))
  = Ok (root ++ [(table, JObj entry)] ++ array_entry k1 (map snd ops) ++ array_entry k2 (map snd secs)).
Proof.
  intros Hr He Hwe Ho Hs Hbt Hb1 Hb2 Hn.
  assert (dict_wf root) as Hwr by (by apply NoDup_app in Hn as [? _]).
  set (bs := (HTable table, entls, entry) :: map (fun t => (HArray k1, t.1, t.2)) ops ++ map (fun t => (HArray k2, t.1, t.2)) secs : list block).
  assert (Forall block_ok bs) as Hok.
  { constructor; [done |]. apply Forall_app. split; apply Forall_map; [eapply Forall_impl; [exact Ho |] | eapply Forall_impl; [exact Hs |]]; by intros ? []. }
  assert (flat_map block_lines bs = [EmptyString; header_line (HTable table)] ++ entls ++ array_lines k1 ops ++ array_lines k2 secs) as <-.
  { unfold bs. cbn [flat_map block_lines fst snd app]. f_equal. f_equal. f_equal. rewrite flat_map_app. unfold array_lines.
    rewrite !flat_map_concat_map, !map_map. done. }
  unfold read_manifest. rewrite (file_sections rootls root) by done. unfold bs. cbn [map fst snd mbind option_bind assemble].
  apply NoDup_app in Hn as (_ & Hd & Hk).
  assert (~ In table (dkeys root) /\ ~ In k1 (dkeys root) /\ ~ In k2 (dkeys root)) as (Ht & H1 & H2).
  { split_and!; intros Hi; apply list_elem_of_In in Hi; apply (Hd _ Hi); set_solver. }
  apply NoDup_cons in Hk as [Hk1 Hk]. apply NoDup_cons in Hk as [Hk2 _].
  unfold dmem. rewrite bool_decide_eq_false_2; [| rewrite (proj2 (dget_None _ _)) by done; by intros []].
  rewrite map_app, !map_map. cbn [fst snd].
  assert (forall k (l : list (list string * dict json)), map (fun x => (HArray k, x.2)) l = map (fun d => (HArray k, d)) (map snd l)) as Em
    by (intros; by rewrite map_map).
  rewrite !Em.
  destruct (assemble_array k1 (map snd ops) (root ++ [(table, JObj entry)]) [] (map (fun d => (HArray k2, d)) (map snd secs))) as [a1 ->].
  { unfold dkeys in *. rewrite map_app, in_app_iff. simpl. set_solver. }
  rewrite <- (app_nil_r (map _ (map snd secs))).
  destruct (assemble_array k2 (map snd secs) ((root ++ [(table, JObj entry)]) ++ array_entry k1 (map snd ops)) a1 []) as [a2 ->].
  { unfold dkeys in *. rewrite !map_app, !in_app_iff. intros [[? | [E | []]] | E]; [done | simpl in E; set_solver |].
    destruct (map snd ops); simpl in E; set_solver. }
  cbn [assemble res_of_option]. by rewrite <- !(assoc_L (++)).
Qed.
