(* ===== verification/Authoring.v ===== *)
(** admin/tool_authoring.py: the manifests the panel writes.

    [normalize] turns posted or stored data into a definition, [validate] lists
    its problems, [to_toml] writes it, [read] reads it back.  [str] of a value
    that is not a text, and [int] of a float, are parameters. *)

From stdpp Require Import base tactics list strings.
From Stdlib Require Import ZArith Lia Ascii.
From S2P Require Import Prelude PyStr Json Url Policy Action Registry Template FwdConfig BrokerConfig Toml.

(** ** Data *)

Record arg := Arg { ag_name : string; ag_type : string; ag_required : bool; ag_description : string }.

(** The fields only an operation of a rest tool has; those [normalize] passes
    through unchanged are JSON. *)
Record rest_def := RestDef {
  rd_verb : string; rd_path : string; rd_allowed_headers : list string; rd_headers : json;
  rd_allowed_secrets : json; rd_body_template : json; rd_body_kind : string; rd_body_content_type : string;
  rd_body_substitution : json; rd_redact_body : json; rd_redact_headers : json; rd_rules : list update_rule }.

Record op_def := OpDef {
  od_approval : option json; od_name : string; od_risk : string; od_description : string;
  od_rest : option rest_def; od_args : list arg }.

Record secret_def := SecretDef { se_name : string; se_field : string; se_item : string; se_writable : bool }.

Record tool_def := ToolDef {
  td_id : string; td_type : string; td_description : string; td_base_url : string; td_command : string;
  td_image : string; td_port : option Z; td_operations : list op_def; td_secrets : list secret_def }.

Definition RISKS : list string := ["read"; "write"; "destructive"]%string.
Definition FORWARDER_COMMAND : string := "python3 -m toolstack_forwarder".

Definition REST_VERB_RISK : dict string :=
  [("GET", "read"); ("POST", "write"); ("PUT", "write"); ("PATCH", "write"); ("DELETE", "destructive")]%string.

(** [re.match] of a pattern that ends in [$] and is the full match of [p]. *)
Definition dollar (p : ascii -> bool) (s : string) : bool :=
  let full l := negb (bool_decide (l = [])) && forallb p l in
  full (chars s) || match rev (chars s) with c :: l => Ascii.eqb c newline && full (rev l) | [] => false end.

Definition _NAME_RE (s : string) : bool := dollar (fun c => is_alnum c || is_char "_" c) s.
Definition _SECRET_RE (s : string) : bool := dollar (fun c => is_alnum c || existsb (Ascii.eqb c) ["_"; "."; "-"]%char) s.
Definition _ITEM_RE (s : string) : bool := dollar (fun c => is_alnum c || existsb (Ascii.eqb c) ["_"; "."; "/"; "-"]%char) s.

Definition or_else (s dflt : string) : string := if PyStr.empty s then dflt else s.

(** What [validate] finds: a constructor for each message. *)
Inductive problem :=
| PId | PIdLong | PType | PBaseUrl | PCredentials | PQuery | PPort | PNoOperation
| PApproval | PName (op : string) | PDuplicate (op : string) | PRisk (op : string)
| PVerb (op : string) | PPath (op : string) | PFragment (op : string) | PUnprintable (op : string)
| PBodyKind (op : string) | PHeader (op header : string) | PArg (op name : string)
| PItem (secret : string) | PSecret (secret : string) | PField (secret : string) | PItemText (secret : string)
| PSubstitution | POverlap | PPlacement | PDecision (op flag : string) | PFlag (op flag : string)
| PRuleSecret (op secret : string) | PRuleType (op : string) | PRulePath (op : string) | PRuleStatus (op : string).

#[export] Instance update_rule_eq_dec : EqDecision update_rule.
Proof. solve_decision. Defined.
#[export] Instance arg_eq_dec : EqDecision arg.
Proof. solve_decision. Defined.
#[export] Instance problem_eq_dec : EqDecision problem.
Proof. solve_decision. Defined.
#[export] Instance rest_def_eq_dec : EqDecision rest_def.
Proof. solve_decision. Defined.
#[export] Instance op_def_eq_dec : EqDecision op_def.
Proof. solve_decision. Defined.

Section Authoring.
Context (py_str : json -> string) (py_trunc : string -> res Z).

(** ** normalize *)

Definition text_of (x : json) : string := match x with JStr s => s | v => py_str v end.
(** The local function [s]. *)
Definition field_text (x : json) : string := match x with JNull => EmptyString | v => strip (text_of v) end.

Definition or_empty (v : json) : res (list json) := if truthy v then py_iter v else Ok [].

Fixpoint mapM_res {A B} (f : A -> res B) (l : list A) : res (list B) :=
  match l with
  | [] => Ok []
  | x :: l => y ← f x; ys ← mapM_res f l; Ok (y :: ys)
  end.

Definition somes {A} (l : list (option A)) : list A := omap id l.

Definition norm_arg (a : json) : res (option arg) :=
  name ← field_text <$> py_get a "name" JNull;
  if PyStr.empty name then Ok None
  else
    type ← field_text <$> py_get a "type" JNull;
    required ← py_get a "required" JNull;
    description ← field_text <$> py_get a "description" JNull;
    Ok (Some (Arg name (or_else type "string") (truthy required) description)).

Definition _norm_args (raw : json) : res (list arg) := l ← or_empty raw; somes <$> mapM_res norm_arg l.

Definition norm_rule (r : json) : res (option update_rule) :=
  name ← field_text <$> py_get r "secret_name" JNull;
  if PyStr.empty name then Ok None
  else
    type ← field_text <$> py_get r "response_type" JNull;
    path ← field_text <$> py_get r "extract_path" JNull;
    status ← field_text <$> py_get r "match_status" JNull;
    Ok (Some (SecretUpdateRule name (or_else type "json") path (or_else status "2xx"))).

Definition _norm_secret_update_rules (raw : json) : res (list update_rule) :=
  l ← or_empty raw; somes <$> mapM_res norm_rule l.

Definition path_variables (path : string) : list string := sorted_set (refs_of (pieces _TEMPLATE_VAR path)).

Definition _rest_envelope_args (path : string) (allowed_headers : list string) (body_kind : string) : list arg :=
  let variables := path_variables path in
  (if bool_decide (variables = []) then []
   else [Arg "variables" "object" true ("Path variables: " +:+ join ", " variables)])
  ++ (if bool_decide (allowed_headers = []) then []
      else [Arg "headers" "object" false ("Allowed headers: " +:+ join ", " allowed_headers)])
  ++ (if String.eqb body_kind "none" then []
      else [Arg "body" "string" true (if String.eqb body_kind "text" then "UTF-8 body" else "base64 body")]).

(** ["approval_fields" in o], then the subscript. *)
Definition posted_approval (o : json) : res (option json) :=
  match o with
  | JObj d => Ok (dget d "approval_fields")
  | JStr s => if contains "approval_fields" s then Raise TypeError else Ok None
  | JArr l => if existsb (fun v => match v with JStr s => String.eqb s "approval_fields" | _ => false end) l
              then Raise TypeError else Ok None
  | _ => Raise TypeError
  end.

Definition is_none_kind (template : json) (kind : string) : string := if is_null template then kind else "none".

Definition norm_rest (o : json) : res rest_def :=
  verb ← (fun v => or_else (upper (field_text v)) "GET") <$> py_get o "verb" JNull;
  kind ← (fun v => or_else (field_text v) (if mem_str verb ["GET"; "DELETE"]%string then "none" else "text")) <$> py_get o "body_kind" JNull;
  raw ← py_get o "allowed_headers" JNull;
  l ← or_empty raw;
  let allowed := List.filter (fun h => negb (PyStr.empty h)) (map field_text l) in
  path ← field_text <$> py_get o "path" JNull;
  headers ← py_get o "headers" (JObj []);
  secrets ← py_get o "allowed_secrets" (JArr []);
  template ← py_get o "body_template" JNull;
  content_type ← field_text <$> py_get o "body_content_type" JNull;
  substitution ← py_get o "body_substitution" (JBool false);
  redact_body ← py_get o "redact_response_body" JNull;
  redact_headers ← py_get o "redact_response_headers" JNull;
  rules ← py_get o "secret_update_rules" JNull;
  rules ← _norm_secret_update_rules rules;
  Ok (RestDef verb path allowed headers secrets template kind content_type substitution redact_body redact_headers rules).

Definition rest_args (r : rest_def) : list arg :=
  _rest_envelope_args (rd_path r) (rd_allowed_headers r) (is_none_kind (rd_body_template r) (rd_body_kind r)).

Definition norm_op (tool_type : string) (o : json) : res (option op_def) :=
  approval ← posted_approval o;
  name ← field_text <$> py_get o "name" JNull;
  if PyStr.empty name then Ok None
  else if String.eqb tool_type "rest" then
    r ← norm_rest o;
    description ← field_text <$> py_get o "description" JNull;
    Ok (Some (OpDef approval name (default "write"%string (dget REST_VERB_RISK (rd_verb r))) description (Some r) (rest_args r)))
  else
    raw ← py_get o "args" JNull;
    args ← _norm_args raw;
    risk ← field_text <$> py_get o "risk" JNull;
    description ← field_text <$> py_get o "description" JNull;
    Ok (Some (OpDef approval name (or_else risk "read") description None args)).

Definition norm_secret (sec : json) : res (option secret_def) :=
  name ← field_text <$> py_get sec "name" JNull;
  if PyStr.empty name then Ok None
  else
    field ← field_text <$> py_get sec "field" JNull;
    item ← field_text <$> py_get sec "item" JNull;
    writable ← py_get sec "writable" JNull;
    Ok (Some (SecretDef name field item (truthy writable))).

(** [int(...)]; a TypeError or ValueError leaves no port. *)
Definition posted_port (v : json) : res (option Z) :=
  let kept r := match r with Ok z => Ok (Some z) | Raise e => if bool_decide (e = ValueError) then Ok None else Raise e end in
  match v with
  | JInt z => Ok (Some z)
  | JBool b => Ok (Some (if b then 1 else 0))
  | JStr s => kept (py_int s)
  | JFloat r => kept (py_trunc r)
  | _ => Ok None
  end.

Definition normalize (data : json) : res tool_def :=
  id ← field_text <$> py_get data "id" JNull;
  type ← (fun v => or_else (field_text v) "api") <$> py_get data "type" JNull;
  raw ← py_get data "operations" JNull;
  l ← or_empty raw;
  operations ← somes <$> mapM_res (norm_op type) l;
  raw ← py_get data "secrets" JNull;
  l ← or_empty raw;
  secrets ← somes <$> mapM_res norm_secret l;
  port ← py_get data "port" JNull;
  port ← posted_port port;
  command ← field_text <$> py_get data "command" JNull;
  let command := if String.eqb type "rest" && PyStr.empty command then FORWARDER_COMMAND else command in
  description ← field_text <$> py_get data "description" JNull;
  base_url ← field_text <$> py_get data "base_url" JNull;
  image ← field_text <$> py_get data "image" JNull;
  Ok (ToolDef id type description base_url command image port operations secrets).

Definition from_json (raw : string) : res tool_def := v ← loads raw; normalize v.

(** ** validate *)

Definition when (b : bool) (p : problem) : list problem := if b then [p] else [].

Definition base_url_problems (base_url : string) : res (list problem) :=
  split ← urlsplit base_url;
  Ok (if negb (mem_str (u_scheme split) ["http"; "https"]%string) || match u_hostname split with Some h => PyStr.empty h | None => true end then [PBaseUrl]
      else if negb (bool_decide (u_credentials split = (None, None))) then [PCredentials]
      else when (negb (PyStr.empty (u_query split)) || negb (PyStr.empty (u_fragment split))) PQuery).

Definition approval_problems (o : op_def) : list problem :=
  match od_approval o with
  | Some v => when (negb (is_ok (validate_fields v))) PApproval
  | None => []
  end.

Definition path_problems (op path : string) : list problem :=
  let '(path_part, _, _) := partition_char "?" path in
  if negb (starts_with "/" path_part) || starts_with "//" path_part then [PPath op]
  else if contains "#" path then [PFragment op]
  else when (negb (all_chars is_graph path)) (PUnprintable op).

Definition rest_problems (op : string) (r : rest_def) : list problem :=
  when (negb (mem_str (rd_verb r) VERBS)) (PVerb op)
  ++ path_problems op (rd_path r)
  ++ when (negb (mem_str (rd_body_kind r) BODY_KINDS)) (PBodyKind op)
  ++ flat_map (fun h => when (negb (id_match h)) (PHeader op h)) (rd_allowed_headers r).

Fixpoint op_problems (seen : list string) (l : list op_def) : list problem :=
  match l with
  | [] => []
  | o :: l =>
      approval_problems o
      ++ when (negb (_NAME_RE (od_name o))) (PName (od_name o))
      ++ when (mem_str (od_name o) seen) (PDuplicate (od_name o))
      ++ when (negb (mem_str (od_risk o) RISKS)) (PRisk (od_name o))
      ++ match od_rest o with Some r => rest_problems (od_name o) r | None => [] end
      ++ flat_map (fun a => when (negb (_NAME_RE (ag_name a))) (PArg (od_name o) (ag_name a))) (od_args o)
      ++ op_problems (od_name o :: seen) l
  end.

Definition secret_problems (confirm : bool) (id : string) (s : secret_def) : list problem :=
  let given := negb (PyStr.empty (se_item s)) in
  when (given && negb (String.eqb (se_item s) id) && negb confirm) (PItem (se_name s))
  ++ when (negb (_SECRET_RE (se_name s))) (PSecret (se_name s))
  ++ when (PyStr.empty (se_field s)) (PField (se_name s))
  ++ when (given && negb (_ITEM_RE (se_item s))) (PItemText (se_name s)).

(** What [validate_secret_placement] looks up in the operation. *)
Definition placement_item (r : rest_def) : dict json :=
  [("headers"%string, rd_headers r); ("allowed_secrets"%string, rd_allowed_secrets r); ("body_template"%string, rd_body_template r)].

Definition placement_problems (declared : list string) (r : rest_def) : res (list problem) :=
  match validate_secret_placement (placement_item r) declared (rd_body_kind r) with
  | Ok (headers, _, _) =>
      Ok (when (existsb (fun h => mem_str (lower h) (map lower (rd_allowed_headers r))) (dkeys headers)) POverlap)
  | Raise e => if bool_decide (e = ConfigError) then Ok [PPlacement] else Raise e
  end.

Definition flag_problems (op flag : string) (r : rest_def) (v : json) : list problem :=
  let is_bool := match v with JBool _ => true | _ => false end in
  if negb (bool_decide (rd_rules r = [])) && negb is_bool then [PDecision op flag]
  else when (negb (is_null v) && negb is_bool) (PFlag op flag).

Definition rule_problems (writable : list string) (op : string) (r : update_rule) : list problem :=
  when (negb (mem_str (ru_secret r) writable)) (PRuleSecret op (ru_secret r))
  ++ when (negb (mem_str (ru_type r) RULE_RESPONSE_TYPES)) (PRuleType op)
  ++ when (PyStr.empty (ru_path r)) (PRulePath op)
  ++ when (PyStr.empty (ru_status r)) (PRuleStatus op).

Definition rest_op_problems (declared writable : list string) (o : op_def) : res (list problem) :=
  match od_rest o with
  | None => Ok []
  | Some r =>
      placement ← placement_problems declared r;
      Ok (when (negb (bool_decide (rd_body_substitution r = JBool false))) PSubstitution
          ++ placement
          ++ flag_problems (od_name o) "redact_response_body" r (rd_redact_body r)
          ++ flag_problems (od_name o) "redact_response_headers" r (rd_redact_headers r)
          ++ flat_map (rule_problems writable (od_name o)) (rd_rules r))
  end.

Definition validate (confirm_secret_items : bool) (data : tool_def) : res (list problem) :=
  let rest := String.eqb (td_type data) "rest" in
  url ← (if rest then base_url_problems (td_base_url data) else Ok []);
  let writable := map se_name (List.filter se_writable (td_secrets data)) in
  placed ← (if rest then (fun l => List.concat l) <$> mapM_res (rest_op_problems (map se_name (td_secrets data)) writable) (td_operations data) else Ok []);
  Ok ((if negb (id_match (td_id data)) then [PId] else when (64 <? len (td_id data)) PIdLong)
      ++ when (negb (mem_str (td_type data) TOOL_TYPES)) PType
      ++ url
      ++ when (match td_port data with Some p => negb ((1 <=? p) && (p <=? 65535)) | None => true end) PPort
      ++ when (bool_decide (td_operations data = [])) PNoOperation
      ++ op_problems [] (td_operations data)
      ++ flat_map (secret_problems confirm_secret_items (td_id data)) (td_secrets data)
      ++ placed).

(** ** to_toml *)

Definition _s (value : string) : string :=
  one dquote +:+ replace_char (chr 9) (String bslash "t") (replace_char (chr 13) (String bslash "r") (replace_char newline (String bslash "n")
    (replace_char dquote (String bslash (one dquote)) (replace_char bslash (String bslash (one bslash)) value)))) +:+ one dquote.

Definition bool_text (b : bool) : string := if b then "true" else "false".
Definition inline (parts : list string) : string := "{ " +:+ join ", " parts +:+ " }".
Definition spaced_array (items : list string) : string := "[ " +:+ join ", " items +:+ " ]".

Definition _arg_inline (a : arg) : string :=
  inline (["name = " +:+ _s (ag_name a); "type = " +:+ _s (ag_type a); "required = " +:+ bool_text (ag_required a)]
    ++ if PyStr.empty (ag_description a) then [] else ["description = " +:+ _s (ag_description a)]).

Definition _rule_inline (r : update_rule) : string :=
  inline ["secret_name = " +:+ _s (ru_secret r); "response_type = " +:+ _s (ru_type r);
          "extract_path = " +:+ _s (ru_path r); "match_status = " +:+ _s (ru_status r)].

Definition text_line (key value : string) : string := key +:+ " = " +:+ _s value.
Definition unless_empty (key value : string) : list string := if PyStr.empty value then [] else [text_line key value].

Definition flag_line (flag : string) (v : json) : list string :=
  match v with JBool b => [flag +:+ " = " +:+ bool_text b] | _ => [] end.

(** The lines of a rest operation after its arguments. *)
Definition rest_lines (r : rest_def) : res (list string) :=
  headers ← (if truthy (rd_headers r)
             then match rd_headers r with
                  | JObj d => Ok ["headers = " +:+ inline (map (fun kv => _s kv.1 +:+ " = " +:+ _s (text_of kv.2)) d)]
                  | _ => Raise AttributeError
                  end
             else Ok []);
  secrets ← (if truthy (rd_allowed_secrets r)
             then l ← py_iter (rd_allowed_secrets r);
                  Ok ["allowed_secrets = " +:+ spaced_array (map (fun v => _s (text_of v)) l)]
             else Ok []);
  Ok ((if bool_decide (rd_allowed_headers r = []) then [] else ["allowed_headers = " +:+ spaced_array (map _s (rd_allowed_headers r))])
      ++ [text_line "body_kind" (rd_body_kind r)]
      ++ unless_empty "body_content_type" (rd_body_content_type r)
      ++ headers ++ secrets
      ++ (if is_null (rd_body_template r) then [] else [text_line "body_template" (text_of (rd_body_template r))])
      ++ (if truthy (rd_body_substitution r) then ["body_substitution = true"%string] else [])
      ++ flag_line "redact_response_body" (rd_redact_body r)
      ++ flag_line "redact_response_headers" (rd_redact_headers r)
      ++ (if bool_decide (rd_rules r = []) then []
          else ["secret_update_rules = " +:+ spaced_array (map _rule_inline (rd_rules r))])).

Definition op_lines (o : op_def) : res (list string) :=
  approval ← match od_approval o with
             | Some v => l ← validate_fields v; Ok ["approval_fields = [" +:+ join ", " (map _s l) +:+ "]"]
             | None => Ok []
             end;
  tail ← match od_rest o with Some r => rest_lines r | None => Ok [] end;
  Ok ([EmptyString; "[[operations]]"%string; text_line "name" (od_name o)]
      ++ approval
      ++ match od_rest o with Some r => [text_line "verb" (rd_verb r); text_line "path" (rd_path r)] | None => [] end
      ++ [text_line "risk" (od_risk o)]
      ++ unless_empty "description" (od_description o)
      ++ (if bool_decide (od_args o = []) then [] else ["args = " +:+ spaced_array (map _arg_inline (od_args o))])
      ++ tail).

Definition secret_lines (s : secret_def) : list string :=
  [EmptyString; "[[secrets]]"%string; text_line "name" (se_name s); text_line "field" (se_field s)]
  ++ unless_empty "item" (se_item s)
  ++ (if se_writable s then ["writable = true"%string] else []).

Definition to_toml (d : tool_def) : res string :=
  operations ← mapM_res op_lines (td_operations d);
  Ok (join (one newline)
       ([text_line "id" (td_id d); text_line "type" (td_type d)]
        ++ unless_empty "description" (td_description d)
        ++ (if String.eqb (td_type d) "rest" then [text_line "base_url" (td_base_url d)] else [])
        ++ [EmptyString; "[entrypoint]"%string]
        ++ unless_empty "command" (td_command d)
        ++ unless_empty "image" (td_image d)
        ++ ["port = " +:+ match td_port d with Some p => str_of_Z p | None => "None" end]
        ++ List.concat operations
        ++ flat_map secret_lines (td_secrets d))
      +:+ one newline).

(** ** read and write *)

(** [toml] is the parsed file. *)
Definition read (toml : dict json) : res tool_def :=
  let entry := default (JObj []) (dget toml "entrypoint") in
  command ← py_get entry "command" (JStr EmptyString);
  image ← py_get entry "image" (JStr EmptyString);
  port ← py_get entry "port" JNull;
  let or k dflt := default dflt (dget toml k) in
  normalize (JObj [("id", or "id" (JStr EmptyString)); ("type", or "type" (JStr "api"));
    ("description", or "description" (JStr EmptyString)); ("base_url", or "base_url" (JStr EmptyString));
    ("command", command); ("image", image); ("port", port);
    ("operations", or "operations" (JArr [])); ("secrets", or "secrets" (JArr []))]%string).

Definition entrypoint_error (data : tool_def) (dockerfile : bool) (runner : string) : bool :=
  if String.eqb (td_type data) "rest" then false
  else if String.eqb runner "docker" then PyStr.empty (td_image data) && negb dockerfile
  else PyStr.empty (td_command data).

(** The text handed to [manifest_files.write]. *)
Definition write (is_dir dockerfile : bool) (runner : string) (confirm_secret_items : bool) (data : tool_def) : res string :=
  errors ← validate confirm_secret_items data;
  _ ← raise_if (negb (bool_decide (errors = []))) ValueError;
  _ ← raise_if (negb is_dir) ValueError;
  _ ← raise_if (entrypoint_error data dockerfile runner) ValueError;
  to_toml data.
End Authoring.
