(* ===== verification/AuthoringFacts.v ===== *)
(** What the panel's manifest editor guarantees: a written manifest is read
    back as it was meant, by the panel and by the broker. *)

From stdpp Require Import base tactics list strings.
From Stdlib Require Import ZArith Lia Ascii.
From S2P Require Import Prelude PyStr Json JsonFacts Url Policy Action Registry Template FwdConfig BrokerConfig BrokerConfigFacts Toml TomlFacts Authoring.

(** ** Texts *)

(** The characters a written text may hold: no control characters but the
    three that [_s] escapes. *)
Definition s_clean (s : string) : bool :=
  all_chars (fun c => negb (toml_illegal c) || Ascii.eqb c newline || Ascii.eqb c (chr 13)) s.

Definition s_char (c : ascii) : string :=
  if Ascii.eqb bslash c then String bslash (one bslash) else if Ascii.eqb dquote c then String bslash (one dquote)
  else if Ascii.eqb newline c then String bslash (one "n") else if Ascii.eqb (chr 13) c then String bslash (one "r")
  else if Ascii.eqb (chr 9) c then String bslash (one "t") else one c.

Fixpoint s_body (s : string) : string :=
  match s with EmptyString => EmptyString | String c s' => s_char c +:+ s_body s' end.

Lemma s_text s : _s s = String dquote (s_body s +:+ one dquote).
Proof.
  unfold _s. change (one dquote +:+ ?x) with (String dquote x). f_equal. f_equal.
  induction s as [|c s IH]; [done |]. cbn [replace_char s_body]. unfold s_char.
  destruct (Ascii.eqb_spec bslash c) as [<- | H1]; [cbn; by rewrite <- IH |]. cbn [replace_char].
  destruct (Ascii.eqb_spec dquote c) as [<- | H2]; [cbn; by rewrite <- IH |]. cbn [replace_char].
  destruct (Ascii.eqb_spec newline c) as [<- | H3]; [cbn; by rewrite <- IH |]. cbn [replace_char].
  destruct (Ascii.eqb_spec (chr 13) c) as [<- | H4]; [cbn; by rewrite <- IH |]. cbn [replace_char].
  destruct (Ascii.eqb_spec (chr 9) c) as [<- | H5]; cbn; by rewrite <- IH.
Qed.

Lemma s_reads s : s_clean s = true -> forall rest, basic_string (s_body s +:+ String dquote rest) = Some (s, rest).
Proof.
  unfold s_clean, all_chars. induction s as [|c s IH]; [done |]. cbn [chars String.list_ascii_of_string forallb s_body].
  intros [Hc Hs]%andb_true_iff rest. rewrite str_assoc. unfold s_char.
  destruct (Ascii.eqb_spec bslash c) as [<- | H1].
  { rewrite str_cons_app, str_app_eq, basic_string_escaped, IH by done. done. }
  destruct (Ascii.eqb_spec dquote c) as [<- | H2].
  { rewrite str_cons_app, str_app_eq, basic_string_escaped, IH by done. done. }
  destruct (Ascii.eqb_spec newline c) as [<- | H3].
  { rewrite str_cons_app, str_app_eq. change (basic_string (String bslash (String "n" ?t))) with ('(x, r) ← basic_string t; Some (String newline x, r)). by rewrite IH. }
  destruct (Ascii.eqb_spec (chr 13) c) as [<- | H4].
  { rewrite str_cons_app, str_app_eq. change (basic_string (String bslash (String "r" ?t))) with ('(x, r) ← basic_string t; Some (String (chr 13) x, r)). by rewrite IH. }
  destruct (Ascii.eqb_spec (chr 9) c) as [<- | H5].
  { rewrite str_cons_app, str_app_eq. change (basic_string (String bslash (String "t" ?t))) with ('(x, r) ← basic_string t; Some (String (chr 9) x, r)). by rewrite IH. }
  rewrite str_app_eq. cbn [basic_string].
  rewrite (proj2 (Ascii.eqb_neq c dquote)), (proj2 (Ascii.eqb_neq c bslash)) by congruence.
  rewrite (proj2 (Ascii.eqb_neq c newline)), (proj2 (Ascii.eqb_neq c (chr 13))), !orb_false_r in Hc by congruence.
  apply negb_true_iff in Hc. rewrite Hc, IH by done. done.
Qed.

Lemma reads_s s : s_clean s = true -> reads (JStr s) (_s s).
Proof.
  intros Hs. rewrite s_text. split; [done |]. intros n rest _ Hn. destruct n as [|n]; [simpl in Hn; lia |].
  rewrite str_cons_app, str_assoc, str_app_eq. cbn [tvalue]. unfold tvalue_step. rewrite Ascii.eqb_refl.
  by rewrite s_reads.
Qed.

Lemma key_s k : s_clean k = true -> key_reads k (_s k).
Proof.
  intros Hk. rewrite s_text. split; [done |]. intros rest. rewrite str_cons_app, str_assoc, str_app_eq.
  cbn [table_key]. rewrite Ascii.eqb_refl. by apply s_reads.
Qed.

(** ** What the lines stand for *)

Definition opt (b : bool) (k : string) (v : json) : dict json := if b then [(k, v)] else [].
Definition full (s : string) : bool := negb (PyStr.empty s).

Definition arg_table (a : arg) : dict json :=
  [("name"%string, JStr (ag_name a)); ("type"%string, JStr (ag_type a)); ("required"%string, JBool (ag_required a))]
  ++ opt (full (ag_description a)) "description" (JStr (ag_description a)).

Definition rule_table (r : update_rule) : dict json :=
  [("secret_name", JStr (ru_secret r)); ("response_type", JStr (ru_type r)); ("extract_path", JStr (ru_path r));
   ("match_status", JStr (ru_status r))]%string.

(** Some list that is not empty. *)
Definition some {A} (l : list A) : bool := match l with [] => false | _ => true end.

Section Tables.
Context (py_str : json -> string).

Definition header_table (v : json) : dict json :=
  match v with JObj d => map (fun kv => (kv.1, JStr (text_of py_str kv.2))) d | _ => [] end.

Definition secret_list (v : json) : list json :=
  match py_iter v with Ok l => map (fun v => JStr (text_of py_str v)) l | Raise _ => [] end.

Definition is_bool (v : json) : bool := match v with JBool _ => true | _ => false end.

Definition rest_table (r : rest_def) : dict json :=
  opt (some (rd_allowed_headers r)) "allowed_headers" (JArr (map JStr (rd_allowed_headers r)))
  ++ [("body_kind"%string, JStr (rd_body_kind r))]
  ++ opt (full (rd_body_content_type r)) "body_content_type" (JStr (rd_body_content_type r))
  ++ opt (truthy (rd_headers r)) "headers" (JObj (header_table (rd_headers r)))
  ++ opt (truthy (rd_allowed_secrets r)) "allowed_secrets" (JArr (secret_list (rd_allowed_secrets r)))
  ++ opt (negb (is_null (rd_body_template r))) "body_template" (JStr (text_of py_str (rd_body_template r)))
  ++ opt (truthy (rd_body_substitution r)) "body_substitution" (JBool true)
  ++ opt (is_bool (rd_redact_body r)) "redact_response_body" (rd_redact_body r)
  ++ opt (is_bool (rd_redact_headers r)) "redact_response_headers" (rd_redact_headers r)
  ++ opt (some (rd_rules r)) "secret_update_rules" (JArr (map (fun r => JObj (rule_table r)) (rd_rules r))).

Definition op_table (o : op_def) : dict json :=
  [("name"%string, JStr (od_name o))]
  ++ opt (bool_decide (is_Some (od_approval o))) "approval_fields" (default JNull (od_approval o))
  ++ match od_rest o with Some r => [("verb"%string, JStr (rd_verb r)); ("path"%string, JStr (rd_path r))] | None => [] end
  ++ [("risk"%string, JStr (od_risk o))]
  ++ opt (full (od_description o)) "description" (JStr (od_description o))
  ++ opt (some (od_args o)) "args" (JArr (map (fun a => JObj (arg_table a)) (od_args o)))
  ++ match od_rest o with Some r => rest_table r | None => [] end.

Definition secret_table (s : secret_def) : dict json :=
  [("name"%string, JStr (se_name s)); ("field"%string, JStr (se_field s))]
  ++ opt (full (se_item s)) "item" (JStr (se_item s)) ++ opt (se_writable s) "writable" (JBool true).

Definition entry_table (d : tool_def) : dict json :=
  opt (full (td_command d)) "command" (JStr (td_command d)) ++ opt (full (td_image d)) "image" (JStr (td_image d))
  ++ [("port"%string, match td_port d with Some p => JInt p | None => JNull end)].

Definition root_table (d : tool_def) : dict json :=
  [("id"%string, JStr (td_id d)); ("type"%string, JStr (td_type d))]
  ++ opt (full (td_description d)) "description" (JStr (td_description d))
  ++ opt (String.eqb (td_type d) "rest") "base_url" (JStr (td_base_url d)).

Definition manifest (d : tool_def) : dict json :=
  root_table d ++ [("entrypoint"%string, JObj (entry_table d))]
  ++ array_entry "operations" (map op_table (td_operations d)) ++ array_entry "secrets" (map secret_table (td_secrets d)).
End Tables.

(** No text of a value, nor a key, holds a character TOML refuses. *)
Fixpoint json_clean (v : json) : bool :=
  match v with
  | JStr s => s_clean s
  | JArr l => forallb json_clean l
  | JObj d => forallb (fun kv => s_clean kv.1 && json_clean kv.2) d
  | _ => true
  end.

Definition table_clean (d : dict json) : bool := forallb (fun kv => json_clean kv.2) d.

Lemma table_clean_app a b : table_clean (a ++ b) = table_clean a && table_clean b.
Proof. apply forallb_app. Qed.

(** ** Lines *)

Lemma line_of k v t : bare k = true -> reads v t -> line_reads (k, v) (k +:+ " = " +:+ t).
Proof. intros Hk Ht. split; [done |]. by exists t. Qed.

Lemma line_text k v : bare k = true -> s_clean v = true -> line_reads (k, JStr v) (text_line k v).
Proof. intros Hk Hv. by apply line_of, reads_s. Qed.

Lemma line_opt (b : bool) k v ls : (b = true -> exists l, ls = [l] /\ (json_clean v = true -> line_reads (k, v) l)) -> (b = false -> ls = []) ->
  table_clean (opt b k v) = true -> Forall2 line_reads (opt b k v) ls.
Proof.
  destruct b; simpl; intros H1 H2; [|rewrite (H2 eq_refl); by constructor].
  rewrite andb_true_r. destruct (H1 eq_refl) as (l & -> & Hl). intros Hc. constructor; [by apply Hl | by constructor].
Qed.

Lemma line_unless k v : bare k = true -> table_clean (opt (full v) k (JStr v)) = true ->
  Forall2 line_reads (opt (full v) k (JStr v)) (unless_empty k v).
Proof.
  intros Hk. apply line_opt; unfold full, unless_empty; destruct (PyStr.empty v); try done.
  intros _. eexists. split; [done |]. by apply line_text.
Qed.

Lemma line_flag k v : bare k = true -> table_clean (opt (is_bool v) k v) = true ->
  Forall2 line_reads (opt (is_bool v) k v) (flag_line k v).
Proof.
  intros Hk. apply line_opt; destruct v; try done. intros _. eexists. split; [done |]. intros _. by apply line_of, reads_bool.
Qed.

(** ** Values of the manifest *)

Lemma reads_spaced vs ts : Forall2 reads vs ts -> ts <> [] -> reads (JArr vs) (spaced_array ts).
Proof. intros. apply (reads_arr " "); [by right | done | done]. Qed.

Lemma reads_texts l : forallb s_clean l = true -> Forall2 reads (map JStr l) (map _s l).
Proof. induction l as [|x l IH]; simpl; [by constructor |]. intros [? ?]%andb_true_iff. constructor; [by apply reads_s | auto]. Qed.

Lemma clean_texts l : json_clean (JArr (map JStr l)) = forallb s_clean l.
Proof. simpl. induction l as [|x l IH]; [done |]. simpl. by rewrite IH. Qed.

Lemma member_of k v t : bare k = true -> reads v t -> member_reads (k, v) (k +:+ " = " +:+ t).
Proof. intros Hk Ht. exists k, t. split; [done |]. split; [by apply key_bare | done]. Qed.

Lemma reads_arg a : json_clean (JObj (arg_table a)) = true -> reads (JObj (arg_table a)) (_arg_inline a).
Proof.
  destruct a as [n t r d]. unfold arg_table, _arg_inline, inline. cbn [ag_name ag_type ag_required ag_description].
  intros Hc. unfold full in *. destruct (PyStr.empty d) eqn:Ed; cbn in Hc; repeat rewrite ?andb_true_r, ?andb_true_iff in Hc; destruct_and?.
  - apply reads_obj; [| done | unfold dict_wf; compute_done].
    repeat constructor; cbn [app]; [by apply (member_of "name"), reads_s | by apply (member_of "type"), reads_s | apply (member_of "required"), reads_bool; done].
  - apply reads_obj; [| done | unfold dict_wf; compute_done].
    repeat constructor; cbn [app]; [by apply (member_of "name"), reads_s | by apply (member_of "type"), reads_s | apply (member_of "required"), reads_bool; done | by apply (member_of "description"), reads_s].
Qed.

Lemma reads_rule r : json_clean (JObj (rule_table r)) = true -> reads (JObj (rule_table r)) (_rule_inline r).
Proof.
  destruct r as [n t p s]. unfold rule_table, _rule_inline, inline. cbn [ru_secret ru_type ru_path ru_status].
  intros Hc. cbn in Hc. repeat rewrite ?andb_true_r, ?andb_true_iff in Hc; destruct_and?.
  apply reads_obj; [| done | unfold dict_wf; compute_done].
  repeat constructor; [by apply (member_of "secret_name"), reads_s | by apply (member_of "response_type"), reads_s
    | by apply (member_of "extract_path"), reads_s | by apply (member_of "match_status"), reads_s].
Qed.

Lemma str_list_spec l ps : str_list l = Some ps -> l = map JStr ps.
Proof.
  revert ps. induction l as [|[| | | |s| |] l IH]; intros ps E; try done; [by injection E as <- |].
  simpl in E. destruct (str_list l) as [r|]; [|done]. injection E as <-. simpl. by rewrite (IH r).
Qed.

Lemma validate_fields_texts v fs : validate_fields v = Ok fs -> v = JArr (map JStr fs).
Proof.
  unfold validate_fields. destruct v as [| | | | |l|]; try done. destruct (_ <? _); [done |].
  destruct (str_list l) as [ps|] eqn:E; [|done]. destruct (_ && _); [|done]. intros [= <-]. f_equal. by apply str_list_spec.
Qed.

Lemma reads_empty : reads (JArr []) "[]".
Proof.
  split; [done |]. intros n rest _ Hn. destruct n as [|n]; [simpl in Hn; lia |].
  etrans; [exact (eq_refl (Some (JArr [], of_chars (chars (of_chars (chars rest)))))) |]. by rewrite !of_chars_chars.
Qed.

(** A list of values, each with its text. *)
Lemma reads_map {A} (f : A -> json) (g : A -> string) l : (forall x, json_clean (f x) = true -> reads (f x) (g x)) ->
  json_clean (JArr (map f l)) = true -> Forall2 reads (map f l) (map g l).
Proof.
  intros Hfg. simpl. induction l as [|x l IH]; [by constructor |]. simpl. intros [? ?]%andb_true_iff. constructor; auto.
Qed.

Section Write.
Context (py_str : json -> string) (py_trunc : string -> res Z).

Lemma reads_headers d : d <> [] -> dict_wf d -> json_clean (JObj (header_table py_str (JObj d))) = true ->
  reads (JObj (header_table py_str (JObj d))) (inline (map (fun kv => _s kv.1 +:+ " = " +:+ _s (text_of py_str kv.2)) d)).
Proof.
  intros Hne Hw Hc. apply reads_obj; [| by destruct d | unfold dict_wf, dkeys in *; simpl; by rewrite map_map].
  clear Hne Hw. simpl in *. induction d as [|[k v] d IH]; simpl in *; [by constructor |]. rewrite !andb_true_iff in Hc. destruct Hc as [[? ?] ?].
  constructor; [|auto]. exists (_s k), (_s (text_of py_str v)). split; [done |]. split; [by apply key_s | by apply reads_s].
Qed.

Lemma line_list {A} (f : A -> json) (g : A -> string) k (l : list A) line : bare k = true ->
  (forall x, json_clean (f x) = true -> reads (f x) (g x)) -> line = k +:+ " = " +:+ spaced_array (map g l) ->
  table_clean (opt (some l) k (JArr (map f l))) = true ->
  Forall2 line_reads (opt (some l) k (JArr (map f l))) (match l with [] => [] | _ => [line] end).
Proof.
  intros Hk Hfg ->. apply line_opt; destruct l; try done. intros _. eexists. split; [done |]. intros Hc.
  apply line_of; [done |]. apply reads_spaced; [by apply reads_map | done].
Qed.

Lemma if_some {A B} (l : list A) (b : list B) : (if bool_decide (l = []) then [] else b) = match l with [] => [] | _ => b end.
Proof. by destruct l. Qed.

(** Headers whose names come once, as [dict] keys do. *)
Definition headers_once (r : rest_def) : Prop := match rd_headers r with JObj d => dict_wf d | _ => True end.

Lemma rest_lines_read r ls : headers_once r -> rest_lines py_str r = Ok ls -> table_clean (rest_table py_str r) = true ->
  Forall2 line_reads (rest_table py_str r) ls.
Proof.
  intros Hh Hr Hc. unfold rest_lines in Hr. inv_bind. rename a into hl, a0 into sl. unfold rest_table in *.
  rewrite !table_clean_app, !andb_true_iff in Hc. destruct_and!. rewrite !if_some.
  apply Forall2_app; [by apply (line_list JStr _s); [done | apply reads_s | |] |].
  constructor.
  { apply line_text; [done |].
    match goal with H : table_clean [("body_kind"%string, _)] = true |- _ => by apply andb_true_iff in H as [? _] end. }
  apply Forall2_app; [by apply line_unless |].
  apply Forall2_app.
  { apply line_opt; [| | done].
    - intros Ht. rewrite Ht in *. destruct (rd_headers r) as [| | | | | |d] eqn:Ed; try done. inv_bind. eexists. split; [done |].
      intros Hj. apply (line_of "headers"); [done |]. unfold headers_once in Hh. rewrite Ed in Hh.
      apply reads_headers; [by destruct d | done | done].
    - intros Ht. rewrite Ht in *. by inv_bind. }
  apply Forall2_app.
  { apply line_opt; [| | done].
    - intros Ht. rewrite Ht in *. inv_bind. eexists. split; [done |].
      intros Hj. apply (line_of "allowed_secrets"); [done |]. unfold secret_list in *.
      match goal with H : py_iter _ = Ok ?l |- _ => rewrite H in *; assert (l <> []) as Hne end.
      { intros ->. destruct (rd_allowed_secrets r) as [| | | |s|l|l]; try done; [destruct s | destruct l | destruct l]; done. }
      apply reads_spaced; [|by destruct a]. apply (reads_map (fun v => JStr (text_of py_str v)) (fun v => _s (text_of py_str v))); [|done].
      intros x. apply reads_s.
    - intros Ht. rewrite Ht in *. by inv_bind. }
  apply Forall2_app.
  { apply line_opt; [| | done]; destruct (is_null _); try done. intros _. eexists. split; [done |]. by apply line_text. }
  apply Forall2_app.
  { apply line_opt; [| | done]; destruct (truthy (rd_body_substitution r)); try done. intros _. eexists. split; [done |].
    intros _. apply (line_of "body_substitution"), (reads_bool true); done. }
  apply Forall2_app; [by apply line_flag |]. apply Forall2_app; [by apply line_flag |].
  apply (line_list (fun r => JObj (rule_table r)) _rule_inline "secret_update_rules"); [done | apply reads_rule | done | done].
Qed.

(** ** Tables have each key once *)

Lemma opt_keys b k v : dkeys (opt b k v) ⊆+ [k].
Proof. destruct b; [done | apply submseteq_nil_l]. Qed.

Lemma submseteq_NoDup {A} (l k : list A) : l ⊆+ k -> NoDup k -> NoDup l.
Proof. intros [x Hx]%submseteq_Permutation Hn. rewrite Hx in Hn. by apply NoDup_app in Hn as [? _]. Qed.

Lemma sub_cons (k : string) l1 l2 ks : l1 ⊆+ [k] -> l2 ⊆+ ks -> l1 ++ l2 ⊆+ k :: ks.
Proof. intros. by apply (submseteq_app l1 [k]). Qed.

Lemma keys_of_sub (d : dict json) (l : list string) : dkeys d ⊆+ l -> NoDup l -> dict_wf d.
Proof. intros Hs Hn. by eapply submseteq_NoDup. Qed.

Lemma dkeys_app {A} (a b : dict A) : dkeys (a ++ b) = dkeys a ++ dkeys b.
Proof. apply map_app. Qed.

Definition REST_KEYS : list string :=
  ["allowed_headers"; "body_kind"; "body_content_type"; "headers"; "allowed_secrets"; "body_template"; "body_substitution";
   "redact_response_body"; "redact_response_headers"; "secret_update_rules"]%string.

Lemma rest_table_keys r : dkeys (rest_table py_str r) ⊆+ REST_KEYS.
Proof.
  unfold rest_table, REST_KEYS. rewrite !dkeys_app.
  repeat (apply sub_cons; [by apply opt_keys || done |]). apply opt_keys.
Qed.

Lemma op_table_wf o : dict_wf (op_table py_str o).
Proof.
  apply (keys_of_sub _ (["name"; "approval_fields"; "verb"; "path"; "risk"; "description"; "args"]%string ++ REST_KEYS)); [|compute_done].
  unfold op_table. rewrite !dkeys_app. repeat (apply sub_cons; [by apply opt_keys || done |]).
  apply (submseteq_app _ ["verb"; "path"]%string); [destruct (od_rest o); [done | apply submseteq_nil_l] |].
  repeat (apply sub_cons; [by apply opt_keys || done |]).
  destruct (od_rest o); [apply rest_table_keys | apply submseteq_nil_l].
Qed.

Lemma secret_table_wf x : dict_wf (secret_table x).
Proof.
  apply (keys_of_sub _ ["name"; "field"; "item"; "writable"]%string); [|compute_done].
  unfold secret_table. rewrite !dkeys_app. apply (submseteq_app _ ["name"; "field"]%string); [done |].
  apply sub_cons; apply opt_keys.
Qed.

Lemma entry_table_wf d : dict_wf (entry_table d).
Proof.
  apply (keys_of_sub _ ["command"; "image"; "port"]%string); [|compute_done].
  unfold entry_table. rewrite !dkeys_app. repeat (apply sub_cons; [by apply opt_keys |]). done.
Qed.

Lemma root_table_keys d : NoDup (dkeys (root_table d) ++ ["entrypoint"; "operations"; "secrets"]%string).
Proof.
  apply (submseteq_NoDup _ ["id"; "type"; "description"; "base_url"; "entrypoint"; "operations"; "secrets"]%string); [|compute_done].
  apply (submseteq_app _ ["id"; "type"; "description"; "base_url"]%string); [|done]. unfold root_table. rewrite !dkeys_app. apply (submseteq_app _ ["id"; "type"]%string); [done |].
  apply sub_cons; apply opt_keys.
Qed.

(** ** Operations, secrets, files *)

Lemma op_lines_read o ls : match od_rest o with Some r => headers_once r | None => True end ->
  op_lines py_str o = Ok ls -> table_clean (op_table py_str o) = true ->
  exists tail, ls = EmptyString :: header_line (HArray "operations") :: tail /\ Forall2 line_reads (op_table py_str o) tail.
Proof.
  intros Hh Hr Hc. unfold op_lines in Hr. inv_bind. rename a into al, a0 into rl. eexists. split; [done |].
  unfold op_table in *. rewrite !table_clean_app, !andb_true_iff in Hc. destruct_and!. rewrite !if_some.
  assert (forall k v, table_clean [(k, JStr v)] = true -> s_clean v = true) as Hone by (by intros k v [? _]%andb_true_iff).
  constructor; [apply line_text; [done | by eapply Hone] |].
  apply Forall2_app.
  { apply line_opt; [| | done]; destruct (od_approval o) as [v|] eqn:Ea; try done; [intros _ |by inv_bind].
    inv_bind. eexists. split; [done |]. intros Hj. apply (line_of "approval_fields"); [done |].
    match goal with H : validate_fields v = Ok ?l |- _ => rename l into fs; assert (v = JArr (map JStr fs)) as -> by (by apply validate_fields_texts) end.
    destruct fs as [|f fs]; [apply reads_empty |]. apply (reads_arr EmptyString); [by left | | done].
    apply reads_texts. by rewrite <- clean_texts. }
  apply Forall2_app.
  { destruct (od_rest o) as [r|]; [|by constructor].
    match goal with H : table_clean [("verb"%string, _); _] = true |- _ => apply (andb_true_iff (json_clean _)) in H as [? [? _]%andb_true_iff] end.
    repeat constructor; by apply line_text. }
  constructor; [apply line_text; [done | by eapply Hone] |].
  apply Forall2_app; [by apply line_unless |].
  apply Forall2_app.
  { by apply (line_list (fun a => JObj (arg_table a)) _arg_inline "args"); [done | apply reads_arg | |]. }
  destruct (od_rest o) as [r|]; inv_bind; [by apply rest_lines_read | by constructor].
Qed.

Lemma secret_lines_read x : table_clean (secret_table x) = true ->
  exists tail, secret_lines x = EmptyString :: header_line (HArray "secrets") :: tail /\ Forall2 line_reads (secret_table x) tail.
Proof.
  intros Hc. unfold secret_lines, secret_table in *. rewrite !table_clean_app, !andb_true_iff in Hc. destruct_and!.
  eexists. split; [done |]. match goal with H : table_clean [_; _] = true |- _ => apply (andb_true_iff (json_clean _)) in H as [? [? _]%andb_true_iff] end.
  constructor; [by apply line_text |]. constructor; [by apply line_text |].
  apply Forall2_app; [by apply line_unless |].
  apply line_opt; [| | done]; destruct (se_writable x); try done. intros _. eexists. split; [done |].
  intros _. apply (line_of "writable"), (reads_bool true); done.
Qed.

(** Every text of the manifest can be written. *)
Definition def_clean (d : tool_def) : bool := table_clean (manifest py_str d).

Lemma obj_clean d : json_clean (JObj d) = true -> table_clean d = true.
Proof.
  simpl. unfold table_clean. induction d as [|kv d IH]; [done |]. simpl.
  intros [[_ ->]%andb_true_iff ?]%andb_true_iff. by apply IH.
Qed.

Lemma array_entry_clean k ds : table_clean (array_entry k ds) = true -> Forall (fun d => table_clean d = true) ds.
Proof.
  destruct ds as [|d ds]; [by constructor |]. unfold array_entry, table_clean at 1. cbn [forallb snd]. rewrite andb_true_r.
  change (json_clean (JArr (map JObj (d :: ds))) = true -> Forall (fun d => table_clean d = true) (d :: ds)). generalize (d :: ds).
  clear d ds. intros l. simpl. induction l as [|d l IH]; simpl; [by constructor |].
  intros [? ?]%andb_true_iff. constructor; [by apply obj_clean | auto].
Qed.

Lemma tables_of {A} k (f : A -> dict json) l lss :
  Forall2 (fun x ls => exists tail, ls = EmptyString :: header_line (HArray k) :: tail /\ Forall2 line_reads (f x) tail) l lss ->
  (forall x, dict_wf (f x)) ->
  exists ts, List.concat lss = array_lines k ts /\ map snd ts = map f l /\ tables_ok ts.
Proof.
  intros Hf Hw. induction Hf as [|x ls l lss (tail & -> & Ht) _ (ts & E1 & E2 & E3)].
  - exists []. split_and!; try done. by constructor.
  - exists ((tail, f x) :: ts). cbn [List.concat map snd]. rewrite E1, E2. split_and!; try done. constructor; [split; [done | apply Hw] | done].
Qed.

Lemma Ok_inj {A} (a b : A) : Ok a = Ok b -> a = b.
Proof. by intros [= ->]. Qed.

Lemma mapM_res_Forall2 {A B} (f : A -> res B) l ys : mapM_res f l = Ok ys -> Forall2 (fun x y => f x = Ok y) l ys.
Proof. revert ys. induction l as [|x l IH]; intros ys E; cbn [mapM_res] in E; inv_bind; constructor; auto. Qed.

Lemma regroup {A} (a b c d e f g h i : list A) : a ++ b ++ c ++ d ++ e ++ f ++ g ++ h ++ i = (a ++ b ++ c) ++ d ++ (e ++ f ++ g) ++ h ++ i.
Proof. by rewrite <- !app_assoc. Qed.

(** The written text stands for the manifest. *)
Lemma to_toml_reads d p text : Forall (fun o => match od_rest o with Some r => headers_once r | None => True end) (td_operations d) ->
  td_port d = Some p -> to_toml py_str d = Ok text -> def_clean d = true -> read_manifest text = Ok (manifest py_str d).
Proof.
  intros Hh Hp Hr Hc. unfold to_toml in Hr. apply res_bind_ok in Hr as (lss & El & Hr). cbn beta in Hr. apply Ok_inj in Hr as <-. unfold def_clean, manifest in *.
  rewrite !table_clean_app, !andb_true_iff in Hc. destruct Hc as (Hroot & Hentry & Hops & Hsecs).
  apply array_entry_clean in Hops, Hsecs. rewrite Forall_map in Hops, Hsecs.
  assert (table_clean (entry_table d) = true) as He.
  { apply obj_clean. unfold table_clean in Hentry. cbn [forallb snd] in Hentry. by rewrite andb_true_r in Hentry. }
  destruct (tables_of "operations" (op_table py_str) (td_operations d) lss) as (ots & Eo1 & Eo2 & Eo3).
  { apply mapM_res_Forall2 in El as Hl.
    clear -Hl Hh Hops. induction Hl as [|o ls ops lss Ho _ IH]; [by constructor |].
    apply Forall_cons_1 in Hh as [? ?], Hops as [? ?]. constructor; [by apply op_lines_read | auto]. }
  { apply op_table_wf. }
  destruct (tables_of "secrets" secret_table (td_secrets d) (map secret_lines (td_secrets d))) as (sts & Es1 & Es2 & Es3).
  { clear -Hsecs. induction (td_secrets d) as [|x l IH]; simpl; [by constructor |]. apply Forall_cons_1 in Hsecs as [? ?].
    constructor; [by apply secret_lines_read | auto]. }
  { apply secret_table_wf. }
  rewrite Eo1, flat_map_concat_map, Es1, <- Eo2, <- Es2.
  rewrite join_lines by done.
  rewrite <- (read_file ([text_line "id" (td_id d); text_line "type" (td_type d)] ++ unless_empty "description" (td_description d)
      ++ (if String.eqb (td_type d) "rest" then [text_line "base_url" (td_base_url d)] else []))
    (root_table d) "entrypoint" (unless_empty "command" (td_command d) ++ unless_empty "image" (td_image d) ++ ["port = " +:+ str_of_Z p])
    (entry_table d) ots sts "operations" "secrets").
  - rewrite Hp. apply (f_equal (fun l => read_manifest (lines l))), (regroup [_; _]).
  - unfold root_table in *. rewrite !table_clean_app, !andb_true_iff in Hroot. destruct Hroot as (H1 & H2 & H3).
    apply (andb_true_iff (json_clean _)) in H1 as [? [? _]%andb_true_iff].
    constructor; [by apply line_text |]. constructor; [by apply line_text |]. apply Forall2_app; [by apply line_unless |].
    apply line_opt; [| | done]; destruct (String.eqb _ _); try done. intros _. eexists. split; [done |]. by apply line_text.
  - unfold entry_table in *. rewrite Hp in *. rewrite !table_clean_app, !andb_true_iff in He. destruct He as (H1 & H2 & _).
    apply Forall2_app; [by apply line_unless |]. apply Forall2_app; [by apply line_unless |].
    constructor; [|by constructor]. apply (line_of "port"), reads_int. done.
  - apply entry_table_wf.
  - done.
  - done.
  - done.
  - done.
  - done.
  - apply root_table_keys.
Qed.
End Write.
