(* ===== verification/AuthoringProps.v ===== *)
(** What a manifest written by the panel is to its readers: the panel reads
    back the definition it wrote, and the broker loads exactly its operations. *)

From stdpp Require Import base tactics list strings.
From Stdlib Require Import ZArith Lia Ascii.
From S2P Require Import Prelude PyStr Json JsonFacts Url Policy Action Registry Template FwdConfig BrokerConfig BrokerConfigFacts Toml TomlFacts Authoring AuthoringFacts.

(** ** Stripped texts *)

Definition neat (s : string) : Prop := strip s = s.

Lemma drop_while_head {A} (p : A -> bool) l : match drop_while p l with x :: _ => p x = false | [] => True end.
Proof. induction l as [|x l IH]; [done |]. simpl. by destruct (p x) eqn:E. Qed.

Lemma drop_while_idem {A} (p : A -> bool) l : drop_while p (drop_while p l) = drop_while p l.
Proof.
  pose proof (drop_while_head p l). destruct (drop_while p l) as [|x r]; [done |]. simpl. by destruct (p x).
Qed.

Lemma drop_while_suffix {A} (p : A -> bool) l : exists k, l = k ++ drop_while p l.
Proof. induction l as [|x l [k IH]]; [by exists [] |]. simpl. destruct (p x); [exists (x :: k); by rewrite IH at 1 | by exists []]. Qed.

Lemma strip_neat s : neat (strip s).
Proof.
  unfold neat, strip, lstrip_l. rewrite chars_of_chars. f_equal. set (l := drop_while is_space (chars s)).
  assert (drop_while is_space (rev (drop_while is_space (rev l))) = rev (drop_while is_space (rev l))) as ->.
  { destruct (drop_while_suffix is_space (rev l)) as [k Hk]. apply (f_equal (@rev _)) in Hk. rewrite rev_involutive, rev_app_distr in Hk.
    pose proof (drop_while_head is_space (chars s)) as Hh. fold l in Hh. rewrite Hk in Hh.
    destruct (rev (drop_while is_space (rev l))) as [|c r]; [done |]. cbn [app] in Hh. simpl. by rewrite Hh. }
  by rewrite rev_involutive, drop_while_idem.
Qed.

Lemma neat_end s : neat s -> match rev (chars s) with c :: _ => is_space c = false | [] => True end.
Proof.
  unfold neat, strip, lstrip_l. intros E. apply (f_equal chars) in E. rewrite chars_of_chars in E.
  rewrite <- E, rev_involutive. apply drop_while_head.
Qed.

Lemma neat_id_match s : neat s -> id_match s = true -> id_fullmatch s = true.
Proof.
  intros Hs%neat_end. unfold id_match. destruct (id_fullmatch s); [done |]. destruct (rev (chars s)) as [|c l]; [done |].
  cbn [orb]. intros [->%Ascii.eqb_eq _]%andb_true_iff. done.
Qed.

Lemma full_ne s : full s = true <-> s <> EmptyString.
Proof. by destruct s. Qed.

(** ** Dictionaries with optional entries *)

Lemma dget_app {A} (a b : dict A) k : dget (a ++ b) k = match dget a k with Some v => Some v | None => dget b k end.
Proof. induction a as [|[k' v] a IH]; [done |]. simpl. by case_decide. Qed.

Lemma dget_opt_eq b k v : dget (opt b k v) k = if b then Some v else None.
Proof. destruct b; [|done]. simpl. by rewrite decide_True. Qed.

Lemma dget_opt_ne b k v k' : k <> k' -> dget (opt b k v) k' = None.
Proof. destruct b; [|done]. simpl. intros. by rewrite decide_False. Qed.

Lemma dget_here (k : string) (v : json) (d : dict json) : dget ((k, v) :: d) k = Some v.
Proof. simpl. by rewrite decide_True. Qed.

Lemma dget_there (k k' : string) (v : json) (d : dict json) : k <> k' -> dget ((k, v) :: d) k' = dget d k'.
Proof. simpl. intros. by rewrite decide_False. Qed.

Lemma dget_nil (k : string) : dget ([] : dict json) k = None.
Proof. done. Qed.

Lemma opt_match (b : bool) (v : json) : match (if b then Some v else None) with Some v => Some v | None => None end = if b then Some v else None.
Proof. by destruct b. Qed.

(** Looks up a key written out in a table. *)
Ltac look :=
  repeat first [ rewrite opt_match | rewrite dget_here | rewrite dget_there by discriminate | rewrite dget_nil | rewrite dget_app
               | rewrite dget_opt_eq | rewrite dget_opt_ne by discriminate ]; cbn [from_option id].

Section Props.
Context (py_str : json -> string) (py_trunc : string -> res Z).

#[local] Notation field_text := (field_text py_str).
#[local] Notation text_of := (text_of py_str).
#[local] Notation norm_arg := (norm_arg py_str).
#[local] Notation norm_rule := (norm_rule py_str).
#[local] Notation norm_rest := (norm_rest py_str).
#[local] Notation norm_op := (norm_op py_str).
#[local] Notation norm_secret := (norm_secret py_str).
#[local] Notation normalize := (normalize py_str py_trunc).
#[local] Notation op_table := (op_table py_str).
#[local] Notation rest_table := (rest_table py_str).
#[local] Notation manifest := (manifest py_str).

Lemma field_text_neat v : neat (field_text v).
Proof. destruct v; try apply strip_neat. done. Qed.

Lemma field_text_str s : neat s -> field_text (JStr s) = s.
Proof. done. Qed.

(** An optional text, read back. *)
Lemma field_text_opt s : neat s -> field_text (default JNull (if full s then Some (JStr s) else None)) = s.
Proof. intros Hs. by destruct s. Qed.

Lemma or_else_neat s d : neat s -> neat d -> neat (or_else s d).
Proof. unfold or_else. by destruct (PyStr.empty s). Qed.
Lemma or_else_ne s d : d <> EmptyString -> or_else s d <> EmptyString.
Proof. by destruct s. Qed.
Lemma or_else_full s d : s <> EmptyString -> or_else s d = s.
Proof. by destruct s. Qed.

(** ** What [normalize] answers *)

Definition arg_tidy (a : arg) : Prop :=
  neat (ag_name a) /\ ag_name a <> EmptyString /\ neat (ag_type a) /\ ag_type a <> EmptyString /\ neat (ag_description a).

Definition rule_tidy (r : update_rule) : Prop :=
  neat (ru_secret r) /\ ru_secret r <> EmptyString /\ neat (ru_type r) /\ ru_type r <> EmptyString
  /\ neat (ru_path r) /\ neat (ru_status r) /\ ru_status r <> EmptyString.

Definition rest_tidy (r : rest_def) : Prop :=
  rd_verb r <> EmptyString /\ neat (rd_path r) /\ Forall (fun h => neat h /\ h <> EmptyString) (rd_allowed_headers r)
  /\ neat (rd_body_kind r) /\ rd_body_kind r <> EmptyString /\ neat (rd_body_content_type r) /\ Forall rule_tidy (rd_rules r).

Definition op_tidy (type : string) (o : op_def) : Prop :=
  neat (od_name o) /\ od_name o <> EmptyString /\ neat (od_description o)
  /\ if String.eqb type "rest"
     then exists r, od_rest o = Some r /\ rest_tidy r /\ od_args o = rest_args r
            /\ od_risk o = default "write"%string (dget REST_VERB_RISK (rd_verb r))
     else od_rest o = None /\ Forall arg_tidy (od_args o) /\ neat (od_risk o) /\ od_risk o <> EmptyString.

Definition secret_tidy (s : secret_def) : Prop :=
  neat (se_name s) /\ se_name s <> EmptyString /\ neat (se_field s) /\ neat (se_item s).

Record def_tidy (d : tool_def) : Prop := {
  dt_id : neat (td_id d);
  dt_type : neat (td_type d) /\ td_type d <> EmptyString;
  dt_description : neat (td_description d);
  dt_base_url : neat (td_base_url d);
  dt_command : neat (td_command d) /\ (td_type d = "rest"%string -> td_command d <> EmptyString);
  dt_image : neat (td_image d);
  dt_ops : Forall (op_tidy (td_type d)) (td_operations d);
  dt_secrets : Forall secret_tidy (td_secrets d) }.

Lemma fmap_ok {A B} (f : A -> B) (m : res A) b : f <$> m = Ok b -> exists a, m = Ok a /\ b = f a.
Proof. destruct m; [|done]. intros [= <-]. eauto. Qed.

Ltac inv_fmap := repeat match goal with H : _ <$> _ = Ok _ |- _ => apply fmap_ok in H as (? & ? & ->) end.

Lemma somes_tidy {A B} (f : A -> res (option B)) (P : B -> Prop) l ys :
  (forall x b, f x = Ok (Some b) -> P b) -> mapM_res f l = Ok ys -> Forall P (somes ys).
Proof.
  intros Hf Hm. apply mapM_res_Forall2 in Hm. induction Hm as [|x [b|] l ys Hx _ IH]; [by constructor | | done].
  constructor; [by eapply Hf | done].
Qed.

Ltac neatly :=
  split_and!; first [ apply field_text_neat | apply or_else_neat; [apply field_text_neat | done] | by apply or_else_ne | done | idtac ].

Lemma full_of_empty s : PyStr.empty s = false -> s <> EmptyString.
Proof. by destruct s. Qed.

Lemma norm_arg_tidy v a : norm_arg v = Ok (Some a) -> arg_tidy a.
Proof.
  unfold Authoring.norm_arg. intros Hr. inv_bind. inv_fmap. destruct (PyStr.empty _) eqn:Ename; [done |]. inv_bind. inv_fmap.
  unfold arg_tidy. cbn [ag_name ag_type ag_description]. apply full_of_empty in Ename.
  neatly.
Qed.

Lemma norm_rule_tidy v r : norm_rule v = Ok (Some r) -> rule_tidy r.
Proof.
  unfold Authoring.norm_rule. intros Hr. inv_bind. inv_fmap. destruct (PyStr.empty _) eqn:Ename; [done |]. inv_bind. inv_fmap.
  unfold rule_tidy. cbn. apply full_of_empty in Ename.
  neatly.
Qed.

Lemma norm_rest_tidy v r : norm_rest v = Ok r -> rest_tidy r.
Proof.
  unfold Authoring.norm_rest. intros Hr. inv_bind. inv_fmap. unfold rest_tidy. cbn.
  neatly.
  - apply Forall_forall. intros h [Hi Hh]%list_elem_of_In%filter_In. apply in_map_iff in Hi as (y & <- & _).
    split; [apply field_text_neat |]. by destruct (field_text y).
  - apply or_else_neat; [apply field_text_neat |]. by case_match.
  - case_match; by apply or_else_ne.
  - unfold _norm_secret_update_rules in *. inv_bind. inv_fmap. eapply somes_tidy; [|eassumption]. intros ? ?. apply norm_rule_tidy.
Qed.

Lemma norm_op_tidy type v o : norm_op type v = Ok (Some o) -> op_tidy type o.
Proof.
  unfold Authoring.norm_op. intros Hr. inv_bind. inv_fmap. destruct (PyStr.empty _) eqn:Ename; [done |]. apply full_of_empty in Ename.
  unfold op_tidy. destruct (String.eqb type "rest"); inv_bind; inv_fmap; cbn.
  - neatly. eexists. split; [done |]. split; [by eapply norm_rest_tidy | done].
  - neatly.
    unfold _norm_args in *. inv_bind. inv_fmap. eapply somes_tidy; [|eassumption]. intros ? ?. apply norm_arg_tidy.
Qed.

Lemma norm_secret_tidy v s : norm_secret v = Ok (Some s) -> secret_tidy s.
Proof.
  unfold Authoring.norm_secret. intros Hr. inv_bind. inv_fmap. destruct (PyStr.empty _) eqn:Ename; [done |]. inv_bind. inv_fmap.
  apply full_of_empty in Ename. unfold secret_tidy. cbn. neatly.
Qed.

Lemma normalize_tidy raw d : normalize raw = Ok d -> def_tidy d.
Proof.
  unfold Authoring.normalize. intros Hr. inv_bind. inv_fmap. inv_bind. inv_fmap. constructor; cbn; auto using field_text_neat.
  - neatly.
  - split; [destruct (_ && _); [done | apply field_text_neat] |]. intros ->. rewrite String.eqb_refl. cbn [andb]. destruct (PyStr.empty _) eqn:Ec; [done | by apply full_of_empty].
  - eapply somes_tidy; [|eassumption]. intros ? ?. apply norm_op_tidy.
  - eapply somes_tidy; [|eassumption]. intros ? ?. apply norm_secret_tidy.
Qed.

(** ** What [validate] admits *)

Definition all_texts (d : dict json) : Prop := Forall (fun kv => exists s, kv.2 = JStr s) d.

(** The placement of secrets [validate_secret_placement] accepts. *)
Definition placed (r : rest_def) : Prop :=
  (exists d, rd_headers r = JObj d /\ all_texts d /\ dict_wf d)
  /\ (exists l, rd_allowed_secrets r = JArr (map JStr l))
  /\ (rd_body_template r = JNull \/ exists t, rd_body_template r = JStr t).

Definition rest_valid (r : rest_def) : Prop :=
  In (rd_verb r) VERBS /\ starts_with "/" (rd_path r) = true /\ starts_with "//" (rd_path r) = false
  /\ In (rd_body_kind r) BODY_KINDS /\ rd_body_substitution r = JBool false
  /\ (rd_redact_body r = JNull \/ exists b, rd_redact_body r = JBool b)
  /\ (rd_redact_headers r = JNull \/ exists b, rd_redact_headers r = JBool b) /\ placed r.

Definition op_valid (o : op_def) : Prop :=
  match od_approval o with Some v => is_ok (validate_fields v) = true | None => True end
  /\ match od_rest o with Some r => rest_valid r | None => True end.

Lemma as_texts_map l ts : as_texts l = Ok ts -> l = map JStr ts.
Proof.
  revert ts. induction l as [|[] l IH]; intros ts E; cbn [as_texts] in E; try done; inv_bind; [done |]. simpl. f_equal. by apply IH.
Qed.

Lemma operator_headers_texts d : forall seen hs, operator_headers seen d = Ok hs ->
  all_texts d /\ dict_wf d /\ forall k, In k (dkeys d) -> ~ In (lower k) seen.
Proof.
  unfold all_texts, dict_wf, dkeys. induction d as [|[k v] d IH]; intros seen hs E; cbn [operator_headers] in E.
  - split; [by constructor |]. split; [by apply NoDup_nil | by intros ? []].
  - inv_bind. destruct v as [| | | |s| |]; try done. inv_bind.
    match goal with H : operator_headers _ d = Ok _ |- _ => destruct (IH _ _ H) as (H1 & H2 & H3) end.
    to_prop. assert (~ In (lower k) seen) as Hk by (rewrite <- one_of_In; congruence).
    split; [constructor; eauto |]. split.
    + apply NoDup_cons. split; [|done]. intros Hin%list_elem_of_In. apply (H3 k Hin). by left.
    + intros k' [<- | Hin] Hs; [done |]. apply (H3 k' Hin). by right.
Qed.

Lemma placement_admits r declared x : validate_secret_placement (placement_item r) declared (rd_body_kind r) = Ok x -> placed r.
Proof.
  unfold validate_secret_placement.
  assert (field_or (placement_item r) "allowed_secrets" (JArr []) = rd_allowed_secrets r) as -> by done.
  assert (field_or (placement_item r) "headers" (JObj []) = rd_headers r) as -> by done.
  assert (jget (placement_item r) "body_template" = rd_body_template r) as -> by done.
  intros Hr. inv_bind. destruct (rd_allowed_secrets r) as [| | | | |l|] eqn:El; try done.
  destruct (rd_headers r) as [| | | | | |d] eqn:Ed; try done. cbn [as_list as_dict] in *. inv_bind.
  match goal with H : operator_headers _ _ = Ok _ |- _ => apply operator_headers_texts in H as (? & ? & _) end.
  match goal with H : as_texts _ = Ok _ |- _ => apply as_texts_map in H as -> end.
  unfold placed. rewrite El, Ed. split; [eauto |]. split; [eauto |].
  destruct (rd_body_template r); try done; eauto.
Qed.

Lemma when_nil b p : when b p = [] -> b = false.
Proof. by destruct b. Qed.

Lemma flat_map_nil {A B} (f : A -> list B) l : flat_map f l = [] -> Forall (fun x => f x = []) l.
Proof. induction l as [|x l IH]; [by constructor |]. simpl. intros [? ?]%app_eq_nil. constructor; auto. Qed.

Ltac inv_nil :=
  repeat match goal with
  | H : _ ++ _ = [] |- _ => apply app_eq_nil in H as [? ?]
  | H : when _ _ = [] |- _ => apply when_nil in H
  end.

Lemma path_valid op path : path_problems op path = [] -> starts_with "/" path = true /\ starts_with "//" path = false.
Proof.
  unfold path_problems. destruct (partition_char "?" path) as [[p b] q] eqn:E. apply partition_char_spec in E.
  destruct (_ || _) eqn:Ep; [done |]. intros _. to_prop. destruct E as [_ E].
  assert (exists rest, path = p +:+ rest /\ starts_with "/" rest = false) as (rest & -> & Hr).
  { destruct b; [by exists (String "?" q) | destruct E as [-> _]; exists EmptyString; by rewrite str_app_nil]. }
  destruct p as [|c [|d p]]; [done | |]; rewrite ?str_cons_app.
  - change (EmptyString +:+ rest) with rest. cbn [starts_with] in *. rewrite andb_true_r in H. rewrite H. split; [done |]. destruct rest; [done |].
    cbn [starts_with] in *. rewrite andb_true_r in Hr. by rewrite Hr.
  - cbn [starts_with] in *. rewrite andb_true_r in H. by rewrite H in *.
Qed.

Lemma mem_negb x l : negb (mem_str x l) = false -> In x l.
Proof. intros H%negb_false_iff. by apply mem_str_In. Qed.

Lemma flag_valid op flag r v : flag_problems op flag r v = [] -> v = JNull \/ exists b, v = JBool b.
Proof. unfold flag_problems. destruct v; eauto; destruct (negb _ && _); done. Qed.

(** One operation of a definition without problems. *)
Lemma op_admitted declared writable o :
  approval_problems o = [] -> match od_rest o with Some r => rest_problems (od_name o) r | None => [] end = [] ->
  rest_op_problems declared writable o = Ok [] -> op_valid o.
Proof.
  unfold op_valid, approval_problems, rest_op_problems. intros Ha Hp Hr. split.
  - destruct (od_approval o); [|done]. apply when_nil in Ha. by apply negb_false_iff in Ha.
  - destruct (od_rest o) as [r|]; [|done]. unfold rest_problems in Hp. inv_nil. apply res_bind_ok in Hr as (pl & Epl & Hr).
    apply Ok_inj in Hr. inv_nil. subst pl.
    match goal with H : path_problems _ _ = [] |- _ => apply path_valid in H as [? ?] end.
    unfold rest_valid. split_and!; try done; try (by apply mem_negb); try (by eapply flag_valid).
    + match goal with H : negb (bool_decide (rd_body_substitution r = _)) = false |- _ => apply negb_false_iff in H; by apply bool_decide_eq_true_1 in H end.
    + unfold placement_problems in Epl.
      destruct (validate_secret_placement _ _ _) as [x|e] eqn:E; [by eapply placement_admits | by destruct (bool_decide _)].
Qed.

Lemma op_problems_nil l : forall seen, op_problems seen l = [] ->
  NoDup (map od_name l) /\ (forall n, In n (map od_name l) -> ~ In n seen)
  /\ Forall (fun o => approval_problems o = [] /\ match od_rest o with Some r => rest_problems (od_name o) r | None => [] end = []) l.
Proof.
  induction l as [|o l IH]; intros seen E; [split_and!; [by apply NoDup_nil | by intros ? [] | by constructor] |].
  cbn [op_problems] in E. inv_nil. match goal with H : op_problems _ l = [] |- _ => destruct (IH _ H) as (N1 & N2 & N3) end.
  match goal with H : mem_str (od_name o) seen = false |- _ => rename H into Hs end.
  assert (~ In (od_name o) seen) as Hn by (rewrite <- mem_str_In; congruence).
  split_and!.
  - cbn [map]. apply NoDup_cons. split; [|done]. intros Hin%list_elem_of_In. apply (N2 _ Hin). by left.
  - intros n [<- | Hin]; [done |]. intros Hi. apply (N2 n Hin). by right.
  - by constructor.
Qed.

Record def_valid (d : tool_def) : Prop := {
  dv_id : id_match (td_id d) = true;
  dv_type : In (td_type d) TOOL_TYPES;
  dv_port : exists p, td_port d = Some p /\ 1 <= p <= 65535;
  dv_names : NoDup (map od_name (td_operations d));
  dv_ops : Forall op_valid (td_operations d) }.

Lemma mapM_res_concat_nil {A B} (f : A -> res (list B)) l yss : mapM_res f l = Ok yss -> List.concat yss = [] -> Forall (fun x => f x = Ok []) l.
Proof.
  intros Hm%mapM_res_Forall2 Hc. induction Hm as [|x y l ys Hx _ IH]; [by constructor |].
  simpl in Hc. apply app_eq_nil in Hc as [-> Hc]. constructor; auto.
Qed.

Lemma validate_valid confirm d : def_tidy d -> validate confirm d = Ok [] -> def_valid d.
Proof.
  intros Ht. unfold validate. intros Hr. apply res_bind_ok in Hr as (url & Eu & Hr). apply res_bind_ok in Hr as (pl & Ep & Hr).
  apply Ok_inj in Hr. inv_nil. subst url pl.
  match goal with H : op_problems [] _ = [] |- _ => apply op_problems_nil in H as (Hn & _ & Ho) end.
  constructor.
  - by destruct (id_match (td_id d)).
  - by apply mem_negb.
  - destruct (td_port d) as [p|]; [|done]. exists p. split; [done |].
    match goal with H : negb (_ && _) = false |- _ => apply negb_false_iff in H end. to_prop. lia.
  - done.
  - destruct (String.eqb (td_type d) "rest") eqn:Et.
    + apply fmap_ok in Ep as (yss & Ey & E0). symmetry in E0. apply (mapM_res_concat_nil _ _ _ Ey) in E0.
      rewrite Forall_forall in *. intros o Hin. destruct (Ho o Hin). by eapply op_admitted; eauto.
    + pose proof (dt_ops _ Ht) as Hops. rewrite Forall_forall in *. intros o Hin. destruct (Ho o Hin) as [Ha _].
      destruct (Hops o Hin) as (_ & _ & _ & Hi). rewrite Et in Hi. destruct Hi as [E _].
      unfold op_valid. rewrite E. split; [|done]. unfold approval_problems in Ha. destruct (od_approval o); [|done].
      apply when_nil in Ha. by apply negb_false_iff in Ha.
Qed.
(** ** Reading back *)

Ltac py_look := cbn [py_get]; look; cbn [fmap res_fmap mbind res_bind].

Lemma empty_ne s : s <> EmptyString -> PyStr.empty s = false.
Proof. by destruct s. Qed.

Lemma norm_arg_back a : arg_tidy a -> norm_arg (JObj (arg_table a)) = Ok (Some a).
Proof.
  destruct a as [n t r d]. unfold arg_tidy, Authoring.norm_arg, arg_table. cbn [ag_name ag_type ag_required ag_description].
  intros (Hn & Hn' & Ht & Ht' & Hd). py_look.
  by rewrite (field_text_str n), empty_ne, field_text_str, or_else_full, field_text_opt by done.
Qed.

Lemma norm_rule_back r : rule_tidy r -> norm_rule (JObj (rule_table r)) = Ok (Some r).
Proof.
  destruct r as [n t p s]. unfold rule_tidy, Authoring.norm_rule, rule_table. cbn [ru_secret ru_type ru_path ru_status].
  intros (Hn & Hn' & Ht & Ht' & Hp & Hs & Hs'). py_look.
  by rewrite (field_text_str n), empty_ne, !field_text_str, !or_else_full by done.
Qed.

Lemma mapM_res_back {A} (f : json -> res (option A)) (g : A -> json) (P : A -> Prop) l :
  (forall x, P x -> f (g x) = Ok (Some x)) -> Forall P l -> somes <$> mapM_res f (map g l) = Ok l.
Proof.
  intros Hf Hl. enough (mapM_res f (map g l) = Ok (map Some l)) as ->.
  - cbn. f_equal. clear. unfold somes. induction l as [|x l IH]; [done |]. cbn. by f_equal.
  - induction Hl as [|x l Hx _ IH]; [done |]. cbn [map mapM_res]. rewrite Hf by done. cbn [mbind res_bind]. by rewrite IH.
Qed.

(** A list written only when it is not empty. *)
Lemma or_empty_back (l : list json) : or_empty (default JNull (if some l then Some (JArr l) else None)) = Ok l.
Proof. by destruct l. Qed.

Lemma some_map {A B} (f : A -> B) l : some (map f l) = some l.
Proof. by destruct l. Qed.

Lemma headers_back d : all_texts d -> header_table py_str (JObj d) = d.
Proof. intros Hd. simpl. induction Hd as [|[k v] d [s E] _ IH]; [done |]. simpl in *. subst v. by rewrite IH. Qed.

Lemma kept_all {A} (p : A -> bool) l : Forall (fun x => p x = true) l -> List.filter p l = l.
Proof. induction 1 as [|x l Hx _ IH]; [done |]. simpl. by rewrite Hx, IH. Qed.

Lemma verb_back v : In v VERBS -> or_else (upper (field_text (JStr v))) "GET" = v.
Proof. intros Hv. repeat (destruct Hv as [<- | Hv]; [done |]). done. Qed.

Lemma allowed_back l : Forall (fun h => neat h /\ h <> EmptyString) l ->
  List.filter (fun h => negb (PyStr.empty h)) (map field_text (map JStr l)) = l.
Proof.
  induction 1 as [|h l [Hn Hh] _ IH]; [done |]. cbn [map List.filter]. rewrite field_text_str, empty_ne by done. cbn [negb]. by rewrite IH.
Qed.

Lemma flag_back v : v = JNull \/ (exists b, v = JBool b) -> default JNull (if is_bool v then Some v else None) = v.
Proof. by intros [-> | [b ->]]. Qed.

Lemma template_back v : v = JNull \/ (exists t, v = JStr t) ->
  default JNull (if negb (is_null v) then Some (JStr (text_of v)) else None) = v.
Proof. by intros [-> | [b ->]]. Qed.

Lemma secrets_back l : default (JArr []) (if truthy (JArr (map JStr l)) then Some (JArr (secret_list py_str (JArr (map JStr l)))) else None) = JArr (map JStr l).
Proof.
  destruct l as [|x l]; [done |]. cbn. do 2 f_equal. rewrite map_map. by apply map_ext.
Qed.

(** Where the fields of a rest operation are found in its table. *)
Record rest_gets (t : dict json) (r : rest_def) : Prop := {
  rg_verb : dget t "verb" = Some (JStr (rd_verb r));
  rg_path : dget t "path" = Some (JStr (rd_path r));
  rg_kind : dget t "body_kind" = Some (JStr (rd_body_kind r));
  rg_allowed : dget t "allowed_headers" = if some (rd_allowed_headers r) then Some (JArr (map JStr (rd_allowed_headers r))) else None;
  rg_type : dget t "body_content_type" = if full (rd_body_content_type r) then Some (JStr (rd_body_content_type r)) else None;
  rg_headers : dget t "headers" = if truthy (rd_headers r) then Some (JObj (header_table py_str (rd_headers r))) else None;
  rg_secrets : dget t "allowed_secrets" = if truthy (rd_allowed_secrets r) then Some (JArr (secret_list py_str (rd_allowed_secrets r))) else None;
  rg_template : dget t "body_template" = if negb (is_null (rd_body_template r)) then Some (JStr (text_of (rd_body_template r))) else None;
  rg_substitution : dget t "body_substitution" = if truthy (rd_body_substitution r) then Some (JBool true) else None;
  rg_redact_body : dget t "redact_response_body" = if is_bool (rd_redact_body r) then Some (rd_redact_body r) else None;
  rg_redact_headers : dget t "redact_response_headers" = if is_bool (rd_redact_headers r) then Some (rd_redact_headers r) else None;
  rg_rules : dget t "secret_update_rules" = if some (rd_rules r) then Some (JArr (map (fun r => JObj (rule_table r)) (rd_rules r))) else None }.

Lemma op_gets o r : od_rest o = Some r -> rest_gets (op_table o) r.
Proof.
  intros Eo. unfold AuthoringFacts.op_table, AuthoringFacts.rest_table. rewrite Eo.
  constructor; look; by repeat case_match.
Qed.

Lemma norm_rest_back t r : rest_gets t r -> rest_tidy r -> rest_valid r -> norm_rest (JObj t) = Ok r.
Proof.
  intros [G1 G2 G3 G4 G5 G6 G7 G8 G9 G10 G11 G12] (Hv & Hp & Hah & Hk & Hk' & Hct & Hru)
    (Vv & _ & _ & Vk & Vs & Vb & Vh & (d & Ed & Hd & _) & (l & El) & Vt).
  unfold Authoring.norm_rest. cbn [py_get]. rewrite G1, G2, G3, G4, G5, G6, G7, G8, G9, G10, G11, G12. clear G1 G2 G3 G4 G5 G6 G7 G8 G9 G10 G11 G12.
  cbn [from_option id fmap res_fmap mbind res_bind].
  rewrite verb_back, (field_text_str (rd_body_kind r)), (or_else_full (rd_body_kind r)) by done.
  rewrite <- (some_map JStr (rd_allowed_headers r)), or_empty_back. cbn [mbind res_bind].
  rewrite allowed_back, (field_text_str (rd_path r)) by done.
  rewrite Vs, (flag_back _ Vb), (flag_back _ Vh), (template_back _ Vt), El, secrets_back, (field_text_opt (rd_body_content_type r)) by done.
  rewrite Ed, headers_back by done.
  assert (default (JObj []) (if truthy (JObj d) then Some (JObj d) else None) = JObj d) as -> by (by destruct d).
  unfold _norm_secret_update_rules. rewrite <- (some_map (fun r => JObj (rule_table r)) (rd_rules r)), or_empty_back. cbn [mbind res_bind].
  rewrite (mapM_res_back norm_rule (fun r => JObj (rule_table r)) rule_tidy) by (done || apply norm_rule_back).
  cbn [mbind res_bind]. change (truthy (JBool false)) with false. cbn [from_option id]. rewrite <- Vs, <- Ed, <- El. by destruct r.
Qed.

Lemma op_gets_common o : let t := op_table o in
  dget t "approval_fields" = od_approval o /\ dget t "name" = Some (JStr (od_name o)) /\ dget t "risk" = Some (JStr (od_risk o))
  /\ dget t "description" = (if full (od_description o) then Some (JStr (od_description o)) else None)
  /\ dget t "args" = (if some (od_args o) then Some (JArr (map (fun a => JObj (arg_table a)) (od_args o))) else None).
Proof.
  intros t. unfold t, AuthoringFacts.op_table. destruct (od_rest o); unfold AuthoringFacts.rest_table;
    (split_and!; look; [destruct (od_approval o) | ..]; cbn; by repeat case_match).
Qed.

Lemma norm_op_back type o : op_tidy type o -> op_valid o -> norm_op type (JObj (op_table o)) = Ok (Some o).
Proof.
  intros (Hn & Hn' & Hd & Ht) (Va & Vr). destruct (op_gets_common o) as (G1 & G2 & G3 & G4 & G5). pose proof (op_gets o) as Gr.
  revert G1 G2 G3 G4 G5 Gr. generalize (op_table o). intros t G1 G2 G3 G4 G5 Gr.
  unfold Authoring.norm_op, posted_approval. cbn [py_get]. rewrite G1, G2, G3, G4, G5.
  cbn [from_option id fmap res_fmap mbind res_bind]. rewrite (field_text_str (od_name o)), empty_ne by done.
  destruct (String.eqb type "rest").
  - destruct Ht as (r & Eo & Hr & Ea & Ek). rewrite Eo in Vr. rewrite (norm_rest_back t r (Gr r Eo) Hr Vr). cbn [mbind res_bind].
    rewrite field_text_opt by done. rewrite <- Ea, <- Ek, <- Eo. by destruct o.
  - destruct Ht as (Eo & Ha & Hk & Hk'). unfold _norm_args.
    rewrite <- (some_map (fun a => JObj (arg_table a)) (od_args o)), or_empty_back. cbn [mbind res_bind].
    rewrite (mapM_res_back norm_arg (fun a => JObj (arg_table a)) arg_tidy) by (done || apply norm_arg_back). cbn [mbind res_bind].
    rewrite field_text_opt, (field_text_str (od_risk o)), or_else_full by done. rewrite <- Eo. by destruct o.
Qed.

Lemma norm_secret_back x : secret_tidy x -> norm_secret (JObj (secret_table x)) = Ok (Some x).
Proof.
  destruct x as [n f i w]. intros (Hn & Hn' & Hf & Hi). cbn [se_name se_field se_item] in *. unfold Authoring.norm_secret, secret_table.
  cbn [py_get se_name se_field se_item se_writable]. look. cbn [fmap res_fmap mbind res_bind].
  rewrite (field_text_str n), empty_ne, (field_text_str f), field_text_opt by done. by destruct w.
Qed.

(** ** The manifest, read back *)

Lemma dget_array k ds : dget (array_entry k ds) k = if some ds then Some (JArr (map JObj ds)) else None.
Proof. destruct ds; [done |]. apply dget_here. Qed.

Lemma dget_array_ne k k' ds : k <> k' -> dget (array_entry k ds) k' = None.
Proof. intros Hk. destruct ds; [done |]. unfold array_entry. by rewrite dget_there. Qed.

(** The definition a manifest keeps: the base URL is only written for a rest
    tool. *)
Definition written (d : tool_def) : tool_def :=
  ToolDef (td_id d) (td_type d) (td_description d) (if String.eqb (td_type d) "rest" then td_base_url d else EmptyString)
    (td_command d) (td_image d) (td_port d) (td_operations d) (td_secrets d).

Record manifest_gets (m : dict json) (d : tool_def) : Prop := {
  mg_id : dget m "id" = Some (JStr (td_id d));
  mg_type : dget m "type" = Some (JStr (td_type d));
  mg_description : dget m "description" = if full (td_description d) then Some (JStr (td_description d)) else None;
  mg_base_url : dget m "base_url" = if String.eqb (td_type d) "rest" then Some (JStr (td_base_url d)) else None;
  mg_entry : dget m "entrypoint" = Some (JObj (entry_table d));
  mg_operations : dget m "operations" = if some (td_operations d) then Some (JArr (map (fun o => JObj (op_table o)) (td_operations d))) else None;
  mg_secrets : dget m "secrets" = if some (td_secrets d) then Some (JArr (map (fun x => JObj (secret_table x)) (td_secrets d))) else None }.

Lemma manifest_finds d : manifest_gets (manifest d) d.
Proof.
  unfold AuthoringFacts.manifest, root_table.
  constructor; look; rewrite ?dget_array, ?dget_array_ne, ?some_map, ?map_map by discriminate;
    destruct (full (td_description d)), (String.eqb (td_type d) "rest"); try done; by destruct (some (td_operations d)).
Qed.

Lemma default_list (l : list json) : or_empty (default (JArr []) (if some l then Some (JArr l) else None)) = Ok l.
Proof. by destruct l. Qed.

Lemma default_text s : neat s -> field_text (default (JStr EmptyString) (if full s then Some (JStr s) else None)) = s.
Proof. by destruct s. Qed.

Lemma read_back d : def_tidy d -> def_valid d -> read py_str py_trunc (manifest d) = Ok (written d).
Proof.
  intros [Hid [Hty Hty'] Hde Hb [Hc Hc'] Him Hops Hsec] [_ _ (p & Ep & _) _ Vops].
  destruct (manifest_finds d) as [G1 G2 G3 G4 G5 G6 G7]. revert G1 G2 G3 G4 G5 G6 G7. generalize (manifest d).
  intros m G1 G2 G3 G4 G5 G6 G7. unfold read. rewrite G5. cbn [from_option id py_get mbind res_bind].
  rewrite G1, G2, G3, G4, G6, G7. unfold Authoring.normalize. cbn [py_get]. look. cbn [fmap res_fmap mbind res_bind].
  unfold entry_table. rewrite Ep. look.
  rewrite (field_text_str (td_id d)), (field_text_str (td_type d)), or_else_full, !default_text by done.
  rewrite <- (some_map (fun o => JObj (op_table o)) (td_operations d)), default_list. cbn [mbind res_bind].
  assert (somes <$> mapM_res (norm_op (td_type d)) (map (fun o => JObj (op_table o)) (td_operations d)) = Ok (td_operations d)) as ->.
  { apply (mapM_res_back _ _ (fun o => op_tidy (td_type d) o /\ op_valid o)); [intros o []; by apply norm_op_back | by apply Forall_and]. }
  cbn [mbind res_bind]. rewrite <- (some_map (fun x => JObj (secret_table x)) (td_secrets d)), default_list. cbn [mbind res_bind].
  rewrite (mapM_res_back norm_secret (fun x => JObj (secret_table x)) secret_tidy) by (done || apply norm_secret_back).
  cbn [mbind res_bind].
  cbn [posted_port mbind res_bind]. unfold written. rewrite Ep.
  destruct (String.eqb_spec (td_type d) "rest") as [Er | Er]; [|done].
  rewrite empty_ne by auto. cbn [andb from_option id]. by rewrite field_text_str.
Qed.

Lemma written_reads d text is_dir dockerfile runner confirm :
  def_tidy d -> write py_str is_dir dockerfile runner confirm d = Ok text -> def_clean py_str d = true ->
  def_valid d /\ read_manifest text = Ok (manifest d).
Proof.
  intros Ht Hw Hc. unfold write in Hw. inv_bind. apply negb_false_iff, bool_decide_eq_true_1 in E0. subst a.
  pose proof (validate_valid _ _ Ht E) as Hv. split; [done |]. destruct (dv_port _ Hv) as (p & Ep & _).
  eapply to_toml_reads; [| done | done | done].
  eapply Forall_impl; [exact (dv_ops _ Hv) |]. intros o [_ Hr]. destruct (od_rest o) as [r|]; [|done].
  destruct Hr as (_ & _ & _ & _ & _ & _ & _ & (d' & E' & _ & Hd) & _). unfold headers_once. by rewrite E'.
Qed.

(** C32. A manifest the editor writes is read back as the definition that was
    posted: every field of every operation, argument, secret and rule, also
    the ones written only when they are not empty.  Two things are asked for:
    that no text of it holds a control character other than tab, line feed and
    carriage return ([def_clean]), which the editor writes as they are and TOML
    refuses; and, for the base URL to come back, that the tool is a rest tool,
    since the editor writes it for no other. *)
Theorem authored_reads_back (raw : json) (d : tool_def) (is_dir dockerfile : bool) (runner : string) (confirm : bool) (text : string) :
  normalize raw = Ok d -> write py_str is_dir dockerfile runner confirm d = Ok text -> def_clean py_str d = true ->
  exists m, read_manifest text = Ok m /\ read py_str py_trunc m = Ok (written d)
    /\ (td_type d = "rest" \/ td_base_url d = EmptyString -> written d = d)%string.
Proof.
  intros Ht%normalize_tidy Hw Hc. destruct (written_reads _ _ _ _ _ _ Ht Hw Hc) as [Hv Hm].
  eexists. split; [exact Hm |]. split; [by apply read_back |]. unfold written.
  intros E. destruct d. cbn in *. by destruct E as [-> | ->]; [|case_match].
Qed.

(** ** The broker's reader *)

Definition approval_list (o : op_def) : list string :=
  match od_approval o with Some v => match validate_fields v with Ok l => l | Raise _ => [] end | None => [] end.

Definition op_meta_of (host : string) (o : op_def) : op_meta :=
  OpMeta (JStr (od_risk o)) (JStr (od_description o)) (JArr (map (fun a => JObj (arg_table a)) (od_args o)))
    (Some (approval_list o)) ((fun r => RestMeta (rd_verb r) (rd_path r) host (rd_body_kind r)) <$> od_rest o).

Definition rest_host_of (base_url : string) : res string := _rest_base_url_host (JObj [("base_url"%string, JStr base_url)]).

(** What the broker asks of a manifest beyond what the editor checks. *)
Definition broker_takes (d : tool_def) : bool :=
  forallb (fun o => id_fullmatch (od_name o)) (td_operations d)
  && (negb (String.eqb (td_type d) "rest") || is_ok (rest_host_of (td_base_url d)))
  && negb (some (td_secrets d) && (mem_str "refresh" (map od_name (td_operations d)) || mem_str "refresh_one" (map od_name (td_operations d)))).

Definition written_ops (host : string) (d : tool_def) : dict op_meta :=
  map (fun o => (od_name o, op_meta_of host o)) (td_operations d)
  ++ if some (td_secrets d) then [("refresh", refresh_meta); ("refresh_one", refresh_one_meta)]%string else [].

(** The host the operations of a rest tool are sent to. *)
Definition loaded_host (d : tool_def) : string :=
  if String.eqb (td_type d) "rest" then match rest_host_of (td_base_url d) with Ok h => h | Raise _ => EmptyString end else EmptyString.

Definition loaded_entry `{Manifests} (d : tool_def) (path raw : string) : entry :=
  Entry (default 0 (td_port d)) (td_type d) (written_ops (loaded_host d) d) path (file_digest raw).

Lemma verb_upper v : In v VERBS -> upper v = v.
Proof. intros Hv. repeat (destruct Hv as [<- | Hv]; [done |]). done. Qed.

Lemma rest_fields_written host t r : rest_gets t r -> rest_valid r ->
  rest_fields host (JObj t) = Ok (RestMeta (rd_verb r) (rd_path r) host (rd_body_kind r)).
Proof.
  intros [G1 G2 G3 _ _ _ _ _ _ _ _ _] (Vv & Vp & Vp' & Vk & _). unfold rest_fields. cbn [py_get]. rewrite G1, G2, G3.
  cbn [from_option id mbind res_bind]. rewrite (verb_upper _ Vv).
  assert (mem_str (rd_verb r) ["GET"; "POST"; "PUT"; "PATCH"; "DELETE"]%string = true) as -> by (by apply mem_str_In).
  rewrite Vp, Vp'. cbn [negb orb raise_if mbind res_bind is_null hashable].
  assert (mem_str (rd_body_kind r) ["none"; "text"; "binary"]%string = true) as -> by (by apply mem_str_In).
  done.
Qed.

Lemma validate_fields_ok v : is_ok (validate_fields v) = true -> exists l, validate_fields v = Ok l.
Proof. destruct (validate_fields v); [eauto | done]. Qed.

Lemma add_op_written type host ops o : op_tidy type o -> op_valid o -> dmem ops (od_name o) = false ->
  add_op type host ops (JObj (op_table o))
  = if id_fullmatch (od_name o) then Ok (dset ops (od_name o) (op_meta_of host o)) else Raise ValueError.
Proof.
  intros (_ & _ & _ & Ht) (Va & Vr) Hm. destruct (op_gets_common o) as (G1 & G2 & G3 & G4 & G5). pose proof (op_gets o) as Gr.
  revert G1 G2 G3 G4 G5 Gr. generalize (op_table o). intros t G1 G2 G3 G4 G5 Gr.
  assert (exists l, (x ← py_get (JObj t) "approval_fields" (JArr []); validate_fields x) = Ok l /\ approval_list o = l) as (fs & Ef & El).
  { unfold approval_list. cbn [py_get]. rewrite G1. destruct (od_approval o) as [v|]; [|by exists []].
    apply validate_fields_ok in Va as [l Hl]. exists l. cbn. by rewrite Hl. }
  cbn [py_get mbind res_bind] in Ef. unfold add_op, op_meta_of. cbn [py_get]. rewrite G2. cbn [from_option id mbind res_bind].
  destruct (id_fullmatch (od_name o)); [|done]. cbn [negb raise_if mbind res_bind]. rewrite Hm. cbn [raise_if mbind res_bind].
  rewrite G3, G4, G5, El.
  assert (default (JStr EmptyString) (if full (od_description o) then Some (JStr (od_description o)) else None) = JStr (od_description o)) as ->
    by (by destruct (od_description o)).
  assert (default (JArr []) (if some (od_args o) then Some (JArr (map (fun a => JObj (arg_table a)) (od_args o))) else None)
    = JArr (map (fun a => JObj (arg_table a)) (od_args o))) as -> by (by destruct (od_args o)).
  destruct (String.eqb type "rest").
  - destruct Ht as (r & Eo & _). rewrite Eo in Vr |- *. rewrite (rest_fields_written host t r (Gr r Eo) Vr).
    cbn [mbind res_bind from_option id]. by rewrite Ef.
  - destruct Ht as (Eo & _). rewrite Eo. cbn [mbind res_bind from_option id]. by rewrite Ef.
Qed.

Lemma add_ops_written type host l : forall acc, Forall (op_tidy type) l -> Forall op_valid l -> NoDup (dkeys acc ++ map od_name l) ->
  foldM (add_op type host) acc (map (fun o => JObj (op_table o)) l)
  = if forallb (fun o => id_fullmatch (od_name o)) l then Ok (acc ++ map (fun o => (od_name o, op_meta_of host o)) l) else Raise ValueError.
Proof.
  induction l as [|o l IH]; intros acc Ht Hv Hn; [by rewrite app_nil_r |].
  apply Forall_cons_1 in Ht as [Ho Ht], Hv as [Hv Hvs]. cbn [map foldM forallb] in *.
  apply NoDup_app in Hn as (Ha & Hd & Hl). pose proof Hl as Hl'. apply NoDup_cons in Hl' as [Hnl Hl'].
  assert (~ In (od_name o) (dkeys acc)) as Hk by (intros Hi; apply (Hd (od_name o)); [by apply list_elem_of_In | by left]).
  rewrite add_op_written; [| done | done | by unfold dmem; rewrite (proj2 (dget_None _ _) Hk)].
  destruct (id_fullmatch (od_name o)); [|done]. cbn [mbind res_bind andb]. rewrite dset_app_new by done. rewrite IH by (done ||
    (rewrite dkeys_app, <- (assoc_L (++)); apply NoDup_app; split_and!; try done; intros x Hx; apply (Hd x Hx))).
  by rewrite <- (assoc_L (++)).
Qed.

Lemma host_raises url : match rest_host_of url with Ok _ => True | Raise e => e = ValueError end.
Proof.
  unfold rest_host_of, _rest_base_url_host. cbn [py_get]. look. unfold urlsplit, u_port, raise_if, mbind, res_bind.
  repeat (case_match; simplify_eq; try done).
Qed.

Lemma host_of_manifest d m : manifest_gets m d -> String.eqb (td_type d) "rest" = true ->
  _rest_base_url_host (JObj m) = rest_host_of (td_base_url d).
Proof.
  intros [_ _ _ G _ _ _] E. rewrite E in G. unfold rest_host_of, _rest_base_url_host. cbn [py_get]. rewrite G. by look.
Qed.

Lemma declares_written d m : def_tidy d -> manifest_gets m d -> declares_secrets m = some (td_secrets d).
Proof.
  intros Ht [_ _ _ _ _ _ G]. unfold declares_secrets, jget. rewrite G. pose proof (dt_secrets _ Ht) as Hs.
  destruct (td_secrets d) as [|x l]; [done |]. apply Forall_cons_1 in Hs as [(_ & Hx & _) _].
  cbn [some from_option id map existsb]. assert (dget (secret_table x) "name" = Some (JStr (se_name x))) as -> by done.
  cbn [from_option id]. by destruct (se_name x).
Qed.

Lemma dmem_ops host (l : list op_def) k : dmem (map (fun o => (od_name o, op_meta_of host o)) l) k = mem_str k (map od_name l).
Proof.
  unfold dmem. apply eq_true_iff_eq. rewrite bool_decide_eq_true, mem_str_In.
  assert (dkeys (map (fun o => (od_name o, op_meta_of host o)) l) = map od_name l) as <- by (unfold dkeys; by rewrite map_map).
  destruct (dget _ k) as [v|] eqn:E.
  - split; [|eauto]. intros _. apply dget_In in E. unfold dkeys. apply in_map_iff. by exists (k, v).
  - apply dget_None in E. split; [by intros [] | done].
Qed.

(** The operations of an entry, once the host is known. *)
Lemma ops_load d cat path digest host m : def_tidy d -> def_valid d -> declares_secrets m = some (td_secrets d) ->
  dget m "operations" = (if some (td_operations d) then Some (JArr (map (fun o => JObj (op_table o)) (td_operations d))) else None) ->
  (items ← py_iter (default (JArr []) (dget m "operations"));
   ops ← foldM (add_op (td_type d) host) [] items;
   ops ← inject_refresh m ops;
   Ok (dset cat (td_id d) (Entry (default 0 (td_port d)) (td_type d) ops path digest)))
  = if forallb (fun o => id_fullmatch (od_name o)) (td_operations d)
       && negb (some (td_secrets d) && (mem_str "refresh" (map od_name (td_operations d)) || mem_str "refresh_one" (map od_name (td_operations d))))
    then Ok (dset cat (td_id d) (Entry (default 0 (td_port d)) (td_type d) (written_ops host d) path digest)) else Raise ValueError.
Proof.
  intros Ht Hv Hs Hops. rewrite Hops.
  assert (py_iter (default (JArr []) (if some (td_operations d) then Some (JArr (map (fun o => JObj (op_table o)) (td_operations d))) else None))
    = Ok (map (fun o => JObj (op_table o)) (td_operations d))) as -> by (by destruct (td_operations d)).
  cbn [mbind res_bind]. rewrite (add_ops_written (td_type d)) by (by destruct Ht, Hv).
  destruct (forallb _ _); [|done]. cbn [mbind res_bind andb app]. unfold inject_refresh, written_ops. rewrite Hs, !dmem_ops.
  destruct (some (td_secrets d)); cbn [andb negb raise_if mbind res_bind]; [|by rewrite app_nil_r].
  destruct (mem_str "refresh" _) eqn:E1; [done |]. destruct (mem_str "refresh_one" _) eqn:E2; [done |].
  cbn [orb raise_if mbind res_bind negb].
  rewrite (dset_app_new _ "refresh"), (dset_app_new _ "refresh_one"), <- app_assoc; [done | |].
  - unfold dkeys. rewrite map_app, in_app_iff, map_map. intros [Hi | [Hi | []]]; [|done].
    apply mem_str_In in Hi. exact (eq_true_false_abs _ Hi E2).
  - unfold dkeys. rewrite map_map. intros Hi%mem_str_In. exact (eq_true_false_abs _ Hi E1).
Qed.

(** One entry of the catalog, from the manifest of a definition. *)
Lemma manifest_loads `{Manifests} d cat path raw : def_tidy d -> def_valid d ->
  add_manifest cat path raw (manifest d)
  = if broker_takes d then Ok (dset cat (td_id d) (loaded_entry d path raw)) else Raise ValueError.
Proof.
  intros Ht Hv. pose proof (manifest_finds d) as G. revert G. generalize (manifest d). intros m G.
  pose proof (host_of_manifest d m G) as Hh. pose proof (declares_written d m Ht G) as Hs. destruct G as [G1 G2 _ _ G5 G6 G7].
  destruct (dv_port _ Hv) as (p & Ep & Hp). unfold add_manifest, jget. rewrite G1, G2, G5. cbn [from_option id].
  rewrite (neat_id_match _ (dt_id _ Ht) (dv_id _ Hv)). cbn [negb raise_if mbind res_bind].
  rewrite (proj2 (mem_str_In _ _) (dv_type _ Hv)). cbn [negb raise_if mbind res_bind py_get].
  assert (default JNull (dget (entry_table d) "port") = JInt p) as ->.
  { unfold entry_table. rewrite Ep. look. by destruct (full (td_command d)), (full (td_image d)). }
  cbn [mbind res_bind valid_port]. rewrite (proj2 (Z.leb_le _ _) (proj1 Hp)), (proj2 (Z.leb_le _ _) (proj2 Hp)). cbn [andb negb raise_if mbind res_bind].
  unfold broker_takes, loaded_entry, loaded_host. rewrite Ep. cbn [from_option id].
  pose proof (host_raises (td_base_url d)) as Hr. destruct (String.eqb (td_type d) "rest") eqn:Er.
  - rewrite Hh by done. destruct (rest_host_of (td_base_url d)) as [h|e]; cbn [is_ok negb orb andb mbind res_bind].
    + pose proof (ops_load d cat path (file_digest raw) h m Ht Hv Hs G6) as Ho. unfold jget in Ho. rewrite Ep in Ho. cbn [from_option id] in Ho.
      rewrite Ho. by rewrite andb_true_r.
    + subst e. by rewrite andb_false_r.
  - cbn [negb orb mbind res_bind]. pose proof (ops_load d cat path (file_digest raw) EmptyString m Ht Hv Hs G6) as Ho. rewrite Ep in Ho.
    cbn [from_option id] in Ho. rewrite Ho. by rewrite andb_true_r.
Qed.

Section Broker.
Context `{Manifests} (toml_agrees : forall text m, read_manifest text = Ok m -> toml_loads text = Ok m).

(** C33. A manifest the editor wrote, of texts without control characters other
    than tab, line feed and carriage return ([def_clean]), is loaded by the broker
    exactly when it takes the operation names, the host and the names of the
    refresh operations; the entry has the operations of the definition, with their
    rest fields and approval fields, the refresh operations when the tool has
    secrets, and the digest of the written bytes.  A manifest it does not take is
    a ValueError. *)
Theorem authored_loads (raw : json) (d : tool_def) (is_dir dockerfile : bool) (runner : string) (confirm : bool) (text : string)
    (read_file : string -> option string) (cat : catalog) (path : string) :
  normalize raw = Ok d -> write py_str is_dir dockerfile runner confirm d = Ok text -> def_clean py_str d = true ->
  read_file path = Some text ->
  _add_toml read_file cat path
  = if broker_takes d then Ok (dset cat (td_id d) (loaded_entry d path text)) else Raise ValueError.
Proof.
  intros Ht%normalize_tidy Hw Hc Hf. destruct (written_reads _ _ _ _ _ _ Ht Hw Hc) as [Hv Hm].
  unfold _add_toml. rewrite Hf. cbn [res_of_option mbind res_bind]. rewrite (toml_agrees _ _ Hm). cbn [mbind res_bind].
  by apply manifest_loads.
Qed.
End Broker.
End Props.

(** ** Witnesses *)

Definition w_str (_ : json) : string := EmptyString.
Definition w_trunc (_ : string) : res Z := Raise ValueError.

(** The panel's form of a rest tool, its operations and its secrets given. *)
Definition w_raw (base_url : string) (ops secrets : list json) : json :=
  JObj [("id", JStr " mail "); ("type", JStr "rest"); ("description", JStr (String dquote ("two" +:+ one newline +:+ "lines")));
        ("base_url", JStr base_url); ("port", JStr "9001"); ("operations", JArr ops); ("secrets", JArr secrets)]%string.

Definition w_send (name : string) : json :=
  JObj [("name", JStr name); ("verb", JStr "post"); ("path", JStr "/v1/{to}/send"); ("approval_fields", JArr [JStr "/to"]);
        ("headers", JObj [("Authorization", JStr "Bearer {{secrets.token}}")]); ("allowed_secrets", JArr [JStr "token"]);
        ("redact_response_body", JBool true); ("redact_response_headers", JBool false);
        ("secret_update_rules", JArr [JObj [("secret_name", JStr "token"); ("extract_path", JStr "$.token")]])]%string.

Definition w_token : json := JObj [("name", JStr "token"); ("field", JStr "password"); ("writable", JBool true)]%string.

Definition w_posted : json := w_raw "https://mail.example:8443/api" [w_send "send"] [w_token].

Definition w_def (raw : json) : tool_def :=
  match Authoring.normalize w_str w_trunc raw with Ok d => d | Raise _ => ToolDef "" "" "" "" "" "" None [] [] end.

Definition w_text (raw : json) : string :=
  match Authoring.write w_str true false "process" false (w_def raw) with Ok t => t | Raise _ => EmptyString end.

#[local] Instance w_manifests : Manifests := {| toml_loads := read_manifest; file_digest := fun s => s |}.

Lemma authored_reads_back_witness :
  Authoring.normalize w_str w_trunc w_posted = Ok (w_def w_posted)
  /\ exists m, read_manifest (w_text w_posted) = Ok m
     /\ Authoring.read w_str w_trunc m = Ok (w_def w_posted).
Proof.
  assert (Authoring.normalize w_str w_trunc w_posted = Ok (w_def w_posted)) as Hn by (vm_compute; reflexivity).
  split; [exact Hn |].
  destruct (authored_reads_back w_str w_trunc w_posted _ true false "process" false (w_text w_posted) Hn) as (m & Hm & Hr & Hd);
    [vm_compute; reflexivity .. |].
  exists m. split; [exact Hm |]. rewrite Hr, Hd; [reflexivity | left; vm_compute; reflexivity].
Defined.

Lemma authored_loads_witness :
  exists cat, _add_toml (fun _ => Some (w_text w_posted)) [] "/t/mail/toolyard.toml" = Ok cat
  /\ (fun e => (en_port e, en_type e, dkeys (en_ops e))) <$> dget cat "mail" = Some (9001, "rest", ["send"; "refresh"; "refresh_one"])%string.
Proof.
  rewrite (@authored_loads w_str w_trunc w_manifests (fun _ _ H => H) w_posted (w_def w_posted) true false "process" false (w_text w_posted)
    (fun _ => Some (w_text w_posted)) [] "/t/mail/toolyard.toml"); try (vm_compute; reflexivity).
  eexists. split; vm_compute; reflexivity.
Defined.

(** Manifests the panel writes and the broker does not load: an operation whose
    name starts with an underscore, an operation of a tool with secrets that
    takes the name of an injected one, a host or a port the broker refuses.  One
    of them and the catalog of the whole tools root does not load. *)
Lemma panel_writes_unloadable :
  Forall (fun raw => is_ok (Authoring.write w_str true false "process" false (w_def raw)) = true
    /\ def_clean w_str (w_def raw) = true /\ broker_takes (w_def raw) = false
    /\ from_sources (fun path => Some (if String.eqb path "/t/bad/toolyard.toml" then w_text raw else w_text w_posted))
         (Some "/t"%string) ["good"; "bad"]%string [] = Raise ValueError)
  [w_raw "https://mail.example" [w_send "_send"] [w_token];
   w_raw "https://mail.example" [w_send "refresh"] [w_token];
   w_raw "https://mail_relay" [w_send "send"] [w_token];
   w_raw "https://mail.example:99999" [w_send "send"] [w_token]].
Proof. repeat constructor; vm_compute; reflexivity. Qed.
